(* ===== verification/_CoqProject ===== *)
-Q . S2P
Prelude.v
LaBridge.v
DemoEngine.v
LaBridgeInv.v
LaStream.v
CText.v
WebApp.v
WebAppInv.v
WebAppProps.v
Fifo.v
Dhcp.v
Dns.v
UsbDev.v
Rndis.v
Netd.v
Rp2040.v
Rp2040View.v
Rp2040In.v
Rp2040Out.v
Rp2040Props.v
UsbDesc.v
Usbd.v
UsbInv.v
UsbdProps.v
NetdProps.v
NetGlue.v
Chksum.v
Timeouts.v
TimeoutsProps.v
Mem.v
MemProps.v
NetMem.v
Memp.v
NetRam.v
Pbuf.v
PbufProps.v
PbufOps.v
PbufData.v
PbufRun.v
PbufCopy.v
Inet.v
Etharp.v
EtharpInv.v
EtharpOps.v
EtharpProps.v
EtharpAnswer.v
EtharpLink.v
EtharpRun.v
Ip4Hdr.v
Ip4Frag.v
Ip4FragProps.v
Ip4Reass.v
Ip4ReassInv.v
Ip4FragRun.v
Ip4Out.v
Icmp.v
Udp.v
Ip4In.v
Ip4InProps.v
UdpProps.v
UdpWay.v
UdpRun.v
