(* ===== verification/Prelude.v ===== *)
(** * Verification of the Pico web logic analyzer

    The program is the firmware of a logic analyzer on an RP2040 that its user drives
    from a browser: the board is a USB network adapter (TinyUSB's CDC-ECM/RNDIS class)
    with a small TCP/IP stack (lwIP), a DHCP and a DNS server for the one host on that
    network, and a WebSocket server over which the browser configures and starts
    captures and receives the samples. The development models the C and C++ code of the
    firmware from the commands of the browser down to the registers of the USB
    controller, and proves what makes each layer correct. This file is the root: the
    plan of the library, and the prelude that the other files share.

    ** The parts of the program and the files that model them

    - The capture bridge, src/src/logic_analyzer_bridge.c: [LaBridge] (state [la_state]:
      the static variables of the file; one definition per function). The capture
      firmware it calls (the LogicAnalyzer submodule) and the Pico SDK are not in the
      repository: they are the classes [CaptureConsts] and [CaptureEngine], over an
      abstract hardware state that every call may advance. [LaBridgeInv] and [LaStream]
      hold its theorems, [DemoEngine] a concrete instance for the witnesses.
    - The application, src/src/main.cpp: [WebApp] (commands, callbacks of the server,
      tasks of the main loop), over the state of the bridge and the class [WebSocket]
      (the pico-ws-server submodule); [CText] models the [sscanf] and [snprintf] it
      uses. [WebAppInv] and [WebAppProps] hold the theorems, with the decoder of
      src/web/index.html for the analysis frames.
    - The network application, src/src/main.c and src/src/tinyusb_main_bridge.c:
      [NetGlue], over the class [Lwip] for what the stack does with a frame.
    - The servers, src/lib/networking/dhserver.c and dnserver.c: [Dhcp] and [Dns], each
      the whole handler of a received packet over the bytes of its buffers.
    - TinyUSB's byte FIFO, src/src/common/tusb_fifo.c: [Fifo].
    - The USB device stack. [UsbDev]: the state of src/src/device/usbd.c and the drivers
      above it, endpoints and control transfers; [Usbd]: standard requests, the event
      queue, [tud_task], with the table of class drivers as the class [Drivers]; [Netd]
      and [Rndis]: the network class driver src/src/class/net/ecm_rndis_device.c and
      its RNDIS messages, src/lib/networking/rndis_reports.c, with the application's
      callbacks as the class [NetApp]; [UsbDesc]: src/src/usb_descriptors.c. [UsbInv],
      [UsbdProps] and [NetdProps] hold the theorems.
    - The controller driver, src/src/portable/raspberrypi/rp2040: [Rp2040] (registers,
      DPRAM and main memory as state, the controller and the SDK as the class
      [Usbctrl]), [Rp2040View] (the frame of an endpoint), [Rp2040In], [Rp2040Out] and
      [Rp2040Props].
    - Of lwIP, src/lib/lwip/src/core: [Chksum] (inet_chksum.c), [Timeouts] and
      [TimeoutsProps] (timeouts.c), [Mem] and [MemProps] (the heap, mem.c), [Memp] (the
      pools, memp.c), [Pbuf] and [PbufCopy] (packet buffers, pbuf.c). [NetMem] is the
      interface between the packet buffers and the memory below them, an allocator per
      source of memory over one address space; [NetRam] implements it with the heap and
      the two pools. [PbufProps] holds the specifications of the operations on packet
      buffers over that interface, [PbufOps] what any sequence of them keeps, [PbufData]
      what they do to the bytes of the packets, [PbufRun] runs on the memory of [NetRam].
    - Ethernet and ARP: [Inet] (addresses, ip4_addr.c and def.c), [Etharp] (etharp.c and
      ethernet.c over the packet buffers and [NetMem]). [EtharpInv] is the invariant of
      the table and its queues, [EtharpOps] and [EtharpProps] that the operations keep it,
      [EtharpAnswer] the replies, [EtharpLink] the whole USB link as a system of two
      stations, [EtharpRun] runs.
    - IPv4, core/ipv4: [Ip4Hdr] (the header), [Ip4Frag] with [Ip4FragProps], and
      [Ip4Reass] with [Ip4ReassInv] (fragmentation and reassembly, ip4_frag.c), [Ip4FragRun]
      (what both do together). [Ip4Out], [Icmp], [Udp] and [Ip4In] are the output of ip4.c,
      icmp.c, udp.c and the input of ip4.c, over one state [ips] and over the classes
      [UdpRecv] (the callbacks of the applications) and [TcpIn]. [Ip4InProps] holds the
      theorems on packets that come in, [UdpProps] those on the control blocks, [UdpWay]
      the way of a datagram from one stack through another, [UdpRun] runs.

    From IPv4 on a packet is its bytes: [PbufData] and [PbufProps] show that the
    operations on packet buffers do to bytes what these files write as list functions.
    There a packet that goes out is logged; that [netif->output] may hand in received
    packets before it returns is modelled for ARP ([Etharp], [EtharpLink]) and not above.

    A C file's static variables are one record, a function is a definition in the state
    monad [ST], or in [STO] where it can fail to return; a call of one component by
    another is a call of its definition, and code outside the repository is a class
    whose operations the definitions take and whose laws, where a theorem needs any, are
    a class of their own ([UsbctrlOk], [TimerEnvOk], [NetAppOk], ...) with an instance
    that shows that they can hold. Interrupts, the host and the hardware are steps of a
    relation that interleave with the calls of the main loop.

    ** What the theorems show

    - Capture and streaming: in every reachable state the configuration is well formed
      and at most one session runs, in the bridge and in the application above it; a
      block taken from the DMA ring is exactly the chunk of the sampled stream it is
      said to be; over a session the blocks are increasing chunks with exact overrun
      counts; the browser gets exactly these chunks and decodes the frames it is sent.
    - USB: the invariant of the device stack in every reachable state for any class
      driver that keeps it; control reads and writes transfer exactly the bytes asked
      for; the descriptors of the firmware bring the network driver up; frames pass
      unchanged in both modes and no packet of the host reaches outside its buffer; on
      the controller, transfers in both directions are exact in every interleaving of
      host, start of frame and interrupt handler, including the E15 workaround, and an
      IN transfer completes.
    - Data structures and the stack: the FIFO refines a bounded queue; the heap refines
      first-fit allocation on a list of blocks, and its clients own disjoint memory that
      nothing else writes; packet buffers, for any sequence of calls by a client that
      respects their ownership rules, have exact reference counts and typed lengths,
      leak nothing, and do to the bytes of a packet what the operation on byte strings
      does, however the packet is split into buffers; the checksum is that of RFC 1071 and detects any changed
      word; the timers do on the 32-bit clock what they do on one that never wraps, and
      those of the firmware run on time and never exhaust their pool.
    - ARP and IPv4: the table of ARP never leaks or shares a packet, in any sequence of
      its calls with re-entrant ones in between; packets queued for an address go out once
      it is known, and over the USB link of this firmware a packet to the host arrives; a
      fragmented packet comes back from the reassembly in any order of its fragments,
      however many others wait there, and the reassembly stays bounded and empties itself;
      lengths that the fragmentation cuts wrong are named exactly. An echo request is
      answered by its reply; a datagram sent by [udp_sendto], cut into fragments where it
      must be, reaches the callback of the one control block it is for, once and
      unchanged; no two control blocks are ever bound to the same port of an address, and a
      free port is found.
    - Servers: DHCP never gives a client two addresses and its replies parse back; the
      DNS parser stays in bounds on any packet and the reply is exact.
    - Some theorems of the kind "error" show behaviour that the code has and surely does
      not want, each from a state the firmware can reach: lost SETUP packets, a frame
      queued on the control endpoint, requests that write device memory, stuck
      packets in the controller driver.

    ** Bounds and fuel

    Loops over data recurse on the data. Loops that wait or walk links have fuel, and
    running out of it is [None], never a result: [mem_malloc] has more fuel than the heap
    can have blocks (a block has at least 20 of 1600 bytes), and is shown to return
    always; a walk along a chain of packet buffers has one step more than there are
    buffers ([chain_fuel]), and the walks are shown to return because chains are
    acyclic; a check of the timers is shown to return within 6 calls, the DNS parser
    within the length of the packet ([dns_parse_in_bounds]), and the walk over the DHCP
    options within that of the option area ([find_option_returns]; the walk itself,
    [find_option_from], is the option-valued one). A packet has at most 0x2000 fragments, the turns of
    [frag_loop]; [ip_reass_remove_oldest_datagram] frees a datagram on each turn, so that it has one more
    than there are datagrams; the search of a port tries each of the 0x4000 ports once;
    the calls of ARP that enter it again through the link are nested [usb_link] deep. The busy wait of [linkoutput_fn] has no bound in
    the code: its theorem says when it ends and when it never does. Integers have the width of the C types, with
    the conversions of this file at every place where the code converts or wraps.

    An interrupt is atomic with respect to the code it interrupts: the model runs the
    handler between two operations of the main loop. For the event queue of usbd.c the
    code arranges this by disabling the USB interrupt. The controller driver
    does not: [dcd_edpt_xfer] runs on the main loop with the interrupt enabled, and
    [hw_endpoint_lock_update] of rp2040_usb.h, which brackets its accesses to an endpoint
    and those of the handler, has an empty body (its comment: todo add critsec). The
    theorems on the controller are about interrupts before and after a call of
    [dcd_edpt_xfer], not within it. A transaction of the host is atomic with respect to
    the interrupt handler.

    ** What is not modelled

    - The LogicAnalyzer submodule, the pico-ws-server submodule and the Pico SDK: not in
      the repository, classes of the model.
    - TCP and, above it, the WebSocket server's connections (tcp.c, tcp_in.c, tcp_out.c,
      altcp.c): [WebApp] sees the messages. The glue of init.c, netif.c and ip.c is not
      modelled beyond the one interface that this firmware adds ([netif] in [Inet]). The
      servers see UDP as the payload received and the payload sent. PPP, the socket API,
      IGMP, raw control blocks, lwIP's applications and IPv6 are not compiled into this
      firmware.
    - Host mode of TinyUSB, its other class drivers and other chips: not compiled in.
      Of usbd.c the isochronous and FIFO transfers and deferred functions, and of tusb.c
      the stream helpers, which this firmware does not use.
    - [init_lwip], [main] and the initialisers of the servers, which call the
      initialisers of the libraries in order; the layout of the web page.

    ** The prelude

    What every component file of the development uses:

    - machine integers: [u8] ... [u64] are the conversions to the unsigned C
      types, written as reduction modulo the width; [s32] is the conversion to
      [int32_t];
    - memory: buffers are lists of bytes (integers in [0, 256)); [mem_read] and
      [mem_write] are [memcpy] out of and into a buffer, [le_bytes]/[le_val] the
      little-endian layout of the RP2040;
    - [ST]: the state monad in which the stateful C functions are written, with
      the notations [let! x := m in k] and [m ;;; k]; [STO] is the same for functions
      that can fail to return, with [let? x := m in k] and [m ;?; k], and [sto_wp] its
      weakest precondition;
    - record updates [r <| field := v |>] for the C structs and the groups of
      static variables;
    - the hint database [fw] and the tactics [bool_prop], [st_unfold],
      [zdivmod]. *)

From stdpp Require Export prelude list list_numbers strings.
From Stdlib Require Export ZArith Lia.

#[global] Open Scope Z_scope.

(** ** Machine integers *)

Definition u8 (z : Z) : Z := z mod 256.
Definition u16 (z : Z) : Z := z mod 65536.
Definition u32 (z : Z) : Z := z mod 4294967296.
Definition u64 (z : Z) : Z := z mod 18446744073709551616.

(** Conversion to [int32_t] (two's complement). *)
Definition s32 (z : Z) : Z :=
  let r := u32 z in if r <? 2147483648 then r else r - 4294967296.

Definition is_u8 (z : Z) : Prop := 0 <= z < 256.
Definition is_u16 (z : Z) : Prop := 0 <= z < 65536.
Definition is_u32 (z : Z) : Prop := 0 <= z < 4294967296.
Definition is_u64 (z : Z) : Prop := 0 <= z < 18446744073709551616.

Ltac zdivmod := Z.div_mod_to_equations; lia.

Create HintDb fw.

Lemma u8_range z : is_u8 (u8 z).
Proof. unfold is_u8, u8. zdivmod. Qed.
Lemma u16_range z : is_u16 (u16 z).
Proof. unfold is_u16, u16. zdivmod. Qed.
Lemma u32_range z : is_u32 (u32 z).
Proof. unfold is_u32, u32. zdivmod. Qed.
Lemma u64_range z : is_u64 (u64 z).
Proof. unfold is_u64, u64. zdivmod. Qed.

Lemma u8_small z : is_u8 z -> u8 z = z.
Proof. apply Z.mod_small. Qed.
Lemma u16_small z : is_u16 z -> u16 z = z.
Proof. apply Z.mod_small. Qed.
Lemma u32_small z : is_u32 z -> u32 z = z.
Proof. apply Z.mod_small. Qed.
Lemma u64_small z : is_u64 z -> u64 z = z.
Proof. apply Z.mod_small. Qed.

Lemma s32_small z : -2147483648 <= z < 2147483648 -> s32 z = z.
Proof.
  intros. unfold s32, u32. destruct (Z.ltb_spec (z mod 4294967296) 2147483648); zdivmod.
Qed.

#[export] Hint Resolve u8_range u16_range u32_range u64_range : fw.

(** ** Booleans of the code as propositions *)

(** [bool_prop] turns the boolean tests in the context into propositions. *)
Ltac bool_prop :=
  repeat match goal with
  | H : _ && _ = true |- _ => apply andb_true_iff in H as [? ?]
  | H : _ && _ = false |- _ => apply andb_false_iff in H
  | H : _ || _ = true |- _ => apply orb_true_iff in H
  | H : _ || _ = false |- _ => apply orb_false_iff in H as [? ?]
  | H : negb _ = true |- _ => apply negb_true_iff in H
  | H : negb _ = false |- _ => apply negb_false_iff in H
  | H : (_ =? _) = true |- _ => apply Z.eqb_eq in H
  | H : (_ =? _) = false |- _ => apply Z.eqb_neq in H
  | H : (_ <? _) = true |- _ => apply Z.ltb_lt in H
  | H : (_ <? _) = false |- _ => apply Z.ltb_ge in H
  | H : (_ <=? _) = true |- _ => apply Z.leb_le in H
  | H : (_ <=? _) = false |- _ => apply Z.leb_gt in H
  | H : (_ >=? _) = _ |- _ => rewrite Z.geb_leb in H
  | H : (_ >? _) = _ |- _ => rewrite Z.gtb_ltb in H
  end.

(** [case_if] splits on the condition of the first conditional of the goal. *)
Ltac case_if :=
  match goal with
  | |- context [if ?b then _ else _] =>
      lazymatch type of b with
      | bool => let E := fresh "E" in destruct b eqn:E
      | _ => fail
      end
  end.

(** ** Record updates *)

(** [eta] rebuilds a record from its projections; one instance per record type.
    The update of a field abstracts the field's projection out of [eta]. *)
Class Eta (R : Type) := eta : R -> R.

Class Setter {R T : Type} (proj : R -> T) := setf : (T -> T) -> R -> R.

Ltac solve_setter R proj :=
  let e := eval hnf in (@eta R _) in
  match eval pattern proj in e with
  | ?F _ => exact (fun f => F (fun x => f (proj x)))
  end.

#[export] Hint Extern 1 (@Setter ?R _ ?proj) =>
  solve_setter R proj : typeclass_instances.

Declare Scope upd_scope.
#[global] Open Scope upd_scope.
Notation "r <| proj := v |>" := (setf (proj:=proj) (fun _ => v) r)
  (at level 1, proj at level 200, v at level 200, left associativity) : upd_scope.

(** ** Counting loops *)

(** A loop that counts the elements passing a test is the length of the filter,
    as long as the counter does not wrap. *)
Lemma fold_count {A} (p : A -> bool) (l : list A) (c : Z) :
  0 <= c -> c + Z.of_nat (length l) < 4294967296 ->
  fold_left (fun n x => if p x then n else u32 (n + 1)) l c =
  c + Z.of_nat (length (filter (fun x => p x = false) l)).
Proof.
  revert c. induction l as [|x l IH]; intros c Hc Hb; cbn [fold_left].
  { rewrite filter_nil. cbn [length]. lia. }
  cbn [length] in Hb. rewrite filter_cons.
  destruct (p x); case_decide; try done; cbn [length].
  - rewrite IH by lia. done.
  - rewrite u32_small by (unfold is_u32; lia). rewrite IH by lia. lia.
Qed.

Lemma filter_fmap_length {A B} (P : B -> Prop) `{!forall x, Decision (P x)}
    (Q : A -> Prop) `{!forall x, Decision (Q x)} (f : A -> B) (l : list A) :
  (forall x, x ∈ l -> P (f x) <-> Q x) ->
  length (filter P (f <$> l)) = length (filter Q l).
Proof.
  induction l as [|x l IH]; intros HPQ; [done|].
  assert (P (f x) <-> Q x) as Hx by (apply HPQ; left).
  cbn [fmap list_fmap]. rewrite !filter_cons.
  assert (length (filter P (f <$> l)) = length (filter Q l)) as IH'
    by (apply IH; intros y Hy; apply HPQ; by right).
  repeat case_decide; cbn [length]; tauto || lia.
Qed.

(** ** The state monad *)

(** A C function that reads and writes the state [S] and returns an [A]. *)
Definition ST (S A : Type) : Type := S -> A * S.

Definition st_ret {S A} (a : A) : ST S A := fun s => (a, s).
Definition st_bind {S A B} (m : ST S A) (k : A -> ST S B) : ST S B :=
  fun s => let '(a, s') := m s in k a s'.

Declare Scope st_scope.
#[global] Open Scope st_scope.
Notation "'let!' x := m 'in' k" := (st_bind m (fun x => k))
  (at level 10, x pattern, m at level 200, k at level 200,
   format "'[v' 'let!'  x  :=  m  'in' '/' k ']'") : st_scope.
Notation "m ;;; k" := (st_bind m (fun _ => k))
  (at level 199, right associativity, format "'[v' m  ;;; '/' k ']'") : st_scope.

(** The value and the final state of a run. *)
Definition st_val {S A} (m : ST S A) (s : S) : A := fst (m s).
Definition st_end {S A} (m : ST S A) (s : S) : S := snd (m s).

Definition st_get {S} : ST S S := fun s => (s, s).
Definition st_gets {S A} (f : S -> A) : ST S A := fun s => (f s, s).
Definition st_mod {S} (f : S -> S) : ST S unit := fun s => (tt, f s).

(** [if (b) m;] *)
Definition st_when {S} (b : bool) (m : ST S unit) : ST S unit :=
  if b then m else st_ret tt.

(** A [for] loop over the listed values of its counter. *)
Fixpoint st_iter {S A} (f : A -> ST S unit) (l : list A) : ST S unit :=
  match l with
  | [] => st_ret tt
  | x :: l => f x ;;; st_iter f l
  end.

Ltac st_unfold :=
  unfold st_val, st_end, st_when, st_get, st_gets, st_mod, st_bind, st_ret in *.

Lemma st_bind_end {S A B} (m : ST S A) (k : A -> ST S B) s :
  st_end (st_bind m k) s = st_end (k (st_val m s)) (st_end m s).
Proof. st_unfold. by destruct (m s). Qed.

(** What holds before and is kept by each part of a run is kept by the run. *)
Definition st_keeps {S A} (P : S -> Prop) (m : ST S A) : Prop :=
  forall s, P s -> P (st_end m s).

Lemma st_keeps_ret {S A} (P : S -> Prop) (a : A) : st_keeps P (st_ret a).
Proof. by intros s ?. Qed.
Lemma st_keeps_bind {S A B} (P : S -> Prop) (m : ST S A) (k : A -> ST S B) :
  st_keeps P m -> (forall a, st_keeps P (k a)) -> st_keeps P (st_bind m k).
Proof. intros Hm Hk s Hs. rewrite st_bind_end. apply Hk, Hm, Hs. Qed.
Lemma st_keeps_get {S} (P : S -> Prop) : st_keeps P (@st_get S).
Proof. by intros s ?. Qed.
Lemma st_keeps_gets {S A} (P : S -> Prop) (f : S -> A) : st_keeps P (st_gets f).
Proof. by intros s ?. Qed.
Lemma st_keeps_mod {S} (P : S -> Prop) (f : S -> S) :
  (forall s, P s -> P (f s)) -> st_keeps P (st_mod f).
Proof. intros H s Hs. by apply H. Qed.
Lemma st_keeps_when {S} (P : S -> Prop) b (m : ST S unit) :
  st_keeps P m -> st_keeps P (st_when b m).
Proof. intros H. destruct b; [done | apply st_keeps_ret]. Qed.
Lemma st_keeps_if {S A} (P : S -> Prop) (b : bool) (m m' : ST S A) :
  st_keeps P m -> st_keeps P m' -> st_keeps P (if b then m else m').
Proof. by destruct b. Qed.
Lemma st_keeps_iter {S A} (P : S -> Prop) (f : A -> ST S unit) l :
  (forall x, st_keeps P (f x)) -> st_keeps P (st_iter f l).
Proof.
  intros Hf. induction l as [|x l IH]; cbn; [apply st_keeps_ret|].
  apply st_keeps_bind; [apply Hf | intros _; apply IH].
Qed.

#[export] Hint Resolve st_keeps_ret st_keeps_bind st_keeps_get st_keeps_gets
  st_keeps_when st_keeps_if st_keeps_iter : fw.

(** [st_spec P m Q]: from a state in [P], the run of [m] ends in a value and a
    state in [Q]. *)
Definition st_spec {S A} (P : S -> Prop) (m : ST S A) (Q : A -> S -> Prop) : Prop :=
  forall s, P s -> Q (st_val m s) (st_end m s).

Lemma st_spec_ret {S A} (Q : A -> S -> Prop) (a : A) : st_spec (Q a) (st_ret a) Q.
Proof. by intros s ?. Qed.
Lemma st_spec_bind {S A B} (P : S -> Prop) (R : A -> S -> Prop) (Q : B -> S -> Prop)
    (m : ST S A) (k : A -> ST S B) :
  st_spec P m R -> (forall a, st_spec (R a) (k a) Q) -> st_spec P (st_bind m k) Q.
Proof.
  intros Hm Hk s Hs. specialize (Hk _ _ (Hm s Hs)).
  revert Hk. st_unfold. by destruct (m s).
Qed.
(** [m; return b;] *)
Lemma st_spec_then_ret {S A B} (P : S -> Prop) (Q : B -> S -> Prop) (m : ST S A) (b : B) :
  st_spec P m (fun _ => Q b) -> st_spec P (m ;;; st_ret b) Q.
Proof. intros H. eapply st_spec_bind; [exact H|]. intros a. by intros s ?. Qed.
Lemma st_spec_keeps {S A} (P : S -> Prop) (m : ST S A) :
  st_keeps P m -> st_spec P m (fun _ => P).
Proof. intros H s Hs. by apply H. Qed.
(** A statement that keeps the assertion, and the rest. *)
Lemma st_spec_seq {S A B} (P : S -> Prop) (Q : B -> S -> Prop) (m : ST S A) (k : A -> ST S B) :
  st_keeps P m -> (forall a, st_spec P (k a) Q) -> st_spec P (st_bind m k) Q.
Proof. intros Hm Hk. eapply st_spec_bind; [by apply st_spec_keeps|]. done. Qed.
Lemma st_spec_get {S B} (P : S -> Prop) (Q : B -> S -> Prop) (k : S -> ST S B) :
  (forall s, P s -> st_spec (fun s' => s' = s /\ P s') (k s) Q) ->
  st_spec P (st_bind st_get k) Q.
Proof. intros Hk s Hs. by apply (Hk s Hs). Qed.
Lemma st_spec_weaken {S A} (P P' : S -> Prop) (Q Q' : A -> S -> Prop) (m : ST S A) :
  st_spec P' m Q' -> (forall s, P s -> P' s) -> (forall a s, Q' a s -> Q a s) -> st_spec P m Q.
Proof. intros H HP HQ s Hs. by apply HQ, H, HP. Qed.

(** The same, from a given state: the forms that symbolic execution applies. *)
Definition st_wp {S A} (m : ST S A) (Q : A -> S -> Prop) (s : S) : Prop :=
  Q (st_val m s) (st_end m s).

Lemma wp_ret {S A} (a : A) (Q : A -> S -> Prop) s : Q a s -> st_wp (st_ret a) Q s.
Proof. done. Qed.
Lemma wp_bind {S A B} (m : ST S A) (k : A -> ST S B) Q s :
  st_wp m (fun a s' => st_wp (k a) Q s') s -> st_wp (st_bind m k) Q s.
Proof. unfold st_wp. st_unfold. by destruct (m s). Qed.
Lemma wp_get {S} (Q : S -> S -> Prop) s : Q s s -> st_wp st_get Q s.
Proof. done. Qed.
Lemma wp_mod {S} (f : S -> S) (Q : unit -> S -> Prop) s : Q tt (f s) -> st_wp (st_mod f) Q s.
Proof. done. Qed.
Lemma wp_if {S A} (b : bool) (m m' : ST S A) Q s :
  (b = true -> st_wp m Q s) -> (b = false -> st_wp m' Q s) ->
  st_wp (if b then m else m') Q s.
Proof. intros H1 H2. destruct b; [by apply H1 | by apply H2]. Qed.
Lemma wp_when {S} (b : bool) (m : ST S unit) Q s :
  (b = true -> st_wp m Q s) -> (b = false -> Q tt s) -> st_wp (st_when b m) Q s.
Proof. intros H1 H2. destruct b; [by apply H1 | by apply H2]. Qed.

(** One statement of the program at the head of the goal. *)
Ltac wp_step :=
  cbv beta zeta;
  lazymatch goal with
  | |- st_wp (st_bind ?m ?k) ?Q ?s => refine (wp_bind m k Q s _)
  | |- st_wp (st_ret ?a) ?Q ?s => refine (wp_ret a Q s _)
  | |- st_wp st_get _ _ => apply wp_get
  | |- st_wp (st_mod ?f) ?Q ?s => refine (wp_mod f Q s _)
  | |- st_wp (st_when _ _) _ _ => apply wp_when; intros ?
  | |- st_wp (if _ then _ else _) _ _ => apply wp_if; intros ?
  end.

(** ** Buffers *)

(** [memcpy(dst, buf + off, n)]: the bytes read. *)
Definition mem_read (off n : Z) (buf : list Z) : list Z :=
  take (Z.to_nat n) (drop (Z.to_nat off) buf).

(** [memcpy(buf + off, data, length data)]; bytes past the end of [buf] are
    dropped, so that writes are shown to stay inside where it matters. *)
Definition mem_write (off : Z) (data buf : list Z) : list Z :=
  list_inserts (Z.to_nat off) data buf.

(** [buf\[i\]], 0 out of range (where the C read is undefined). *)
Definition mem_get (buf : list Z) (i : Z) : Z := default 0 (buf !! Z.to_nat i).

(** [buf\[i\] = v] *)
Definition mem_set (i v : Z) (buf : list Z) : list Z := <[Z.to_nat i := v]> buf.

(** The length of a buffer as a C integer. *)
Definition zlen {A} (l : list A) : Z := Z.of_nat (length l).

Lemma zlen_nonneg {A} (l : list A) : 0 <= zlen l.
Proof. unfold zlen. lia. Qed.
Lemma zlen_app {A} (l k : list A) : zlen (l ++ k) = zlen l + zlen k.
Proof. unfold zlen. rewrite length_app. lia. Qed.
Lemma zlen_cons {A} (x : A) l : zlen (x :: l) = 1 + zlen l.
Proof. unfold zlen. cbn [length]. lia. Qed.

Lemma mem_write_length off data buf : length (mem_write off data buf) = length buf.
Proof. apply length_inserts. Qed.
Lemma mem_set_length i v buf : length (mem_set i v buf) = length buf.
Proof. apply length_insert. Qed.

Lemma mem_read_zlen off n buf :
  0 <= off -> 0 <= n -> off + n <= zlen buf -> zlen (mem_read off n buf) = n.
Proof.
  unfold zlen, mem_read. intros. rewrite length_take, length_drop. lia.
Qed.

Lemma mem_read_lookup off n buf i :
  (i < Z.to_nat n)%nat -> mem_read off n buf !! i = buf !! (Z.to_nat off + i)%nat.
Proof. intros. unfold mem_read. rewrite lookup_take_lt, lookup_drop by lia. done. Qed.

(** A read of exactly what was written. *)
Lemma mem_read_write off data buf :
  0 <= off -> off + zlen data <= zlen buf ->
  mem_read off (zlen data) (mem_write off data buf) = data.
Proof.
  unfold zlen. intros. apply list_eq. intros i.
  destruct (decide (i < length data)%nat) as [Hi|Hi].
  - rewrite mem_read_lookup by lia. unfold mem_write.
    rewrite list_lookup_inserts by lia. f_equal. lia.
  - rewrite (lookup_ge_None_2 data) by lia. apply lookup_ge_None_2.
    unfold mem_read. rewrite length_take. lia.
Qed.

(** A read before or after the written window sees the old bytes. *)
Lemma mem_read_write_disjoint off data buf o n :
  0 <= off -> 0 <= o ->
  o + n <= off \/ off + zlen data <= o ->
  mem_read o n (mem_write off data buf) = mem_read o n buf.
Proof.
  unfold zlen. intros Hoff Ho H. apply list_eq. intros i.
  destruct (decide (i < Z.to_nat n)%nat) as [Hi|Hi].
  - rewrite !mem_read_lookup by lia. unfold mem_write.
    destruct H; [rewrite list_lookup_inserts_lt | rewrite list_lookup_inserts_ge]; auto; lia.
  - unfold mem_read. rewrite !lookup_take_ge by lia. done.
Qed.

(** Two reads in a row are one. *)
Lemma mem_read_split off n m buf :
  0 <= off -> 0 <= n -> 0 <= m ->
  mem_read off (n + m) buf = mem_read off n buf ++ mem_read (off + n) m buf.
Proof.
  intros. unfold mem_read. rewrite !Z2Nat.inj_add by lia.
  rewrite <- drop_drop, take_take_drop. done.
Qed.

(** A read of the middle of three parts. *)
Lemma mem_read_mid (l1 l2 l3 : list Z) off n :
  off = zlen l1 -> n = zlen l2 -> mem_read off n (l1 ++ l2 ++ l3) = l2.
Proof.
  intros -> ->. unfold mem_read, zlen. rewrite !Nat2Z.id, drop_app_length, take_app_length. done.
Qed.

Lemma mem_write_nil off d : mem_write off [] d = d.
Proof. done. Qed.

Lemma mem_write_zlen off data buf : zlen (mem_write off data buf) = zlen buf.
Proof. unfold zlen. by rewrite mem_write_length. Qed.

(** *** Buffers byte by byte *)

(** Two buffers of one length with the same bytes are the same. *)
Lemma mem_get_ext (l k : list Z) :
  zlen l = zlen k -> (forall i, 0 <= i < zlen l -> mem_get l i = mem_get k i) -> l = k.
Proof.
  unfold zlen. intros Hlen H. apply list_eq_same_length with (length l); [lia|done|].
  intros i x y Hi Hx Hy. specialize (H (Z.of_nat i) ltac:(lia)). unfold mem_get in H.
  rewrite Nat2Z.id, Hx, Hy in H. done.
Qed.

Lemma mem_get_app (l k : list Z) i :
  0 <= i -> mem_get (l ++ k) i = if i <? zlen l then mem_get l i else mem_get k (i - zlen l).
Proof.
  unfold mem_get, zlen. intros Hi. destruct (Z.ltb_spec i (Z.of_nat (length l))).
  - rewrite lookup_app_l by lia. done.
  - rewrite lookup_app_r by lia. do 2 f_equal. lia.
Qed.

Lemma mem_get_read off n buf i :
  0 <= off -> 0 <= i < n -> mem_get (mem_read off n buf) i = mem_get buf (off + i).
Proof.
  unfold mem_get. intros. rewrite mem_read_lookup by lia. do 2 f_equal. lia.
Qed.

Lemma mem_get_take n buf i : 0 <= i < n -> mem_get (take (Z.to_nat n) buf) i = mem_get buf i.
Proof. unfold mem_get. intros. rewrite lookup_take_lt by lia. done. Qed.

Lemma mem_get_drop n buf i : 0 <= n -> 0 <= i -> mem_get (drop (Z.to_nat n) buf) i = mem_get buf (n + i).
Proof. unfold mem_get. intros. rewrite lookup_drop. do 2 f_equal. lia. Qed.

Lemma mem_get_write off data buf i :
  0 <= off -> 0 <= i < zlen buf ->
  mem_get (mem_write off data buf) i =
  if (off <=? i) && (i <? off + zlen data) then mem_get data (i - off) else mem_get buf i.
Proof.
  unfold mem_get, mem_write, zlen. intros Ho Hi.
  destruct (Z.leb_spec off i), (Z.ltb_spec i (off + Z.of_nat (length data))); cbn [andb].
  - rewrite list_lookup_inserts by lia. do 2 f_equal. lia.
  - rewrite list_lookup_inserts_ge by lia. done.
  - rewrite list_lookup_inserts_lt by lia. done.
  - rewrite list_lookup_inserts_lt by lia. done.
Qed.

Lemma mem_get_set k v buf i :
  0 <= k < zlen buf -> 0 <= i ->
  mem_get (mem_set k v buf) i = if i =? k then v else mem_get buf i.
Proof.
  unfold mem_get, mem_set, zlen. intros Hk Hi. destruct (Z.eqb_spec i k) as [->|Hne].
  - rewrite list_lookup_insert_eq by lia. done.
  - rewrite list_lookup_insert_ne by lia. done.
Qed.

Lemma zlen_take n (l : list Z) : 0 <= n <= zlen l -> zlen (take (Z.to_nat n) l) = n.
Proof. unfold zlen. intros. rewrite length_take. lia. Qed.
Lemma zlen_drop n (l : list Z) : 0 <= n <= zlen l -> zlen (drop (Z.to_nat n) l) = zlen l - n.
Proof. unfold zlen. intros. rewrite length_drop. lia. Qed.
Lemma mem_set_zlen k v (l : list Z) : zlen (mem_set k v l) = zlen l.
Proof. unfold zlen. by rewrite mem_set_length. Qed.

(** Buffers with something after them. *)
Lemma mem_set_app k v (l ext : list Z) :
  0 <= k < zlen l -> mem_set k v (l ++ ext) = mem_set k v l ++ ext.
Proof. unfold mem_set, zlen. intros. apply insert_app_l. lia. Qed.

Lemma mem_write_app off data (l ext : list Z) :
  0 <= off -> off + zlen data <= zlen l -> mem_write off data (l ++ ext) = mem_write off data l ++ ext.
Proof.
  unfold mem_write, zlen. intros Ho Hl.
  assert (Z.to_nat off + length data <= length l)%nat as H by lia. clear Ho Hl. revert H.
  generalize (Z.to_nat off). induction data as [|x data IH]; intros k Hk; cbn in *; [done|].
  rewrite IH by lia. apply insert_app_l. rewrite length_inserts. lia.
Qed.

(** Two writes, one behind the other. *)
Lemma mem_write_split off (p q buf : list Z) :
  0 <= off -> off + zlen p + zlen q <= zlen buf ->
  mem_write (off + zlen p) q (mem_write off p buf) = mem_write off (p ++ q) buf.
Proof.
  intros Ho Hl. pose proof (zlen_nonneg p). pose proof (zlen_nonneg q).
  apply mem_get_ext; rewrite !mem_write_zlen; [done|]. intros i Hi.
  rewrite !mem_get_write by (rewrite ?mem_write_zlen; lia). rewrite zlen_app.
  destruct (Z.leb_spec (off + zlen p) i), (Z.ltb_spec i (off + zlen p + zlen q)),
    (Z.leb_spec off i), (Z.ltb_spec i (off + (zlen p + zlen q))), (Z.ltb_spec i (off + zlen p));
    cbn [andb]; try lia; try done; rewrite mem_get_app by lia;
    destruct (Z.ltb_spec (i - off) (zlen p)); try lia; try done. f_equal. lia.
Qed.

Lemma mem_read_app off n (l ext : list Z) :
  0 <= off -> off + n <= zlen l -> mem_read off n (l ++ ext) = mem_read off n l.
Proof.
  unfold mem_read, zlen. intros. destruct (Z.le_gt_cases n 0) as [Hn|Hn].
  - replace (Z.to_nat n) with 0%nat by lia. done.
  - rewrite drop_app_le, take_app_le by (rewrite ?length_drop; lia). done.
Qed.

Lemma mem_get_u8 l i : Forall is_u8 l -> is_u8 (mem_get l i).
Proof.
  intros H. unfold mem_get. destruct (l !! Z.to_nat i) as [b|] eqn:E; [|done].
  rewrite Forall_lookup in H. by apply (H _ _ E).
Qed.

(** Overwriting one piece of a buffer. *)
Lemma mem_write_mid (l1 data l2 l3 : list Z) off :
  off = zlen l1 -> zlen data = zlen l2 -> mem_write off data (l1 ++ l2 ++ l3) = l1 ++ data ++ l3.
Proof.
  intros -> Hd. pose proof (zlen_nonneg l1). pose proof (zlen_nonneg l2). apply mem_get_ext.
  - rewrite mem_write_zlen, !zlen_app. lia.
  - rewrite mem_write_zlen. intros i Hi. rewrite mem_get_write, Hd by lia.
    rewrite !(mem_get_app l1) by lia.
    destruct (Z.leb_spec (zlen l1) i), (Z.ltb_spec i (zlen l1)); cbn [andb]; try lia; try done.
    rewrite !mem_get_app, Hd by lia.
    destruct (Z.ltb_spec i (zlen l1 + zlen l2)), (Z.ltb_spec (i - zlen l1) (zlen l2));
      first [lia | done].
Qed.

(** [n] bytes around a ring of [d] bytes, from position [s]. *)
Definition ring_read (buf : list Z) (d s n : Z) : list Z :=
  (fun i => mem_get buf ((s + i) mod d)) <$> seqZ 0 n.

Lemma ring_read_zlen buf d s n : 0 <= n -> zlen (ring_read buf d s n) = n.
Proof. unfold zlen, ring_read. intros. rewrite length_fmap, length_seqZ. lia. Qed.

Lemma ring_read_get buf d s n i :
  0 <= i < n -> mem_get (ring_read buf d s n) i = mem_get buf ((s + i) mod d).
Proof.
  intros Hi. unfold mem_get at 1, ring_read. rewrite list_lookup_fmap, lookup_seqZ_lt by lia.
  cbn. do 2 f_equal. lia.
Qed.

(** *** Little-endian layout *)

Fixpoint le_bytes (n : nat) (z : Z) : list Z :=
  match n with
  | O => []
  | S n => z mod 256 :: le_bytes n (z / 256)
  end.

Fixpoint le_val (l : list Z) : Z :=
  match l with
  | [] => 0
  | b :: l => b + 256 * le_val l
  end.

Lemma le_bytes_length n z : length (le_bytes n z) = n.
Proof. revert z. induction n; intros; cbn; auto. Qed.

Lemma le_bytes_zlen n z : zlen (le_bytes n z) = Z.of_nat n.
Proof. unfold zlen. by rewrite le_bytes_length. Qed.

Lemma le_bytes_u8 n z : Forall is_u8 (le_bytes n z).
Proof.
  revert z. induction n; intros; cbn; constructor; auto. apply u8_range.
Qed.

Lemma le_val_bytes n z : le_val (le_bytes n z) = z mod 256 ^ Z.of_nat n.
Proof.
  revert z. induction n as [|n IH]; intros z.
  - cbn. by rewrite Z.mod_1_r.
  - cbn [le_bytes le_val]. rewrite IH.
    rewrite Nat2Z.inj_succ, Z.pow_succ_r by lia.
    rewrite Z.rem_mul_r by lia. done.
Qed.

Lemma le_bytes_val l : Forall is_u8 l -> le_bytes (length l) (le_val l) = l.
Proof.
  induction 1 as [|b l Hb Hl IH]; [done|]. cbn [length le_bytes le_val].
  unfold is_u8 in Hb. f_equal.
  - rewrite Z.mul_comm, Z.mod_add by lia. by apply Z.mod_small.
  - rewrite Z.mul_comm, Z.div_add by lia. rewrite (Z.div_small b) by lia. done.
Qed.

#[export] Hint Resolve le_bytes_u8 zlen_nonneg : fw.

(** ** The state monad with stops *)

(** A C function that may not return: [None] is a panic, a failed hard assertion or
    a loop that never ends. *)
Definition STO (S A : Type) : Type := S -> option (A * S).

Definition sto_ret {S A} (a : A) : STO S A := fun s => Some (a, s).
Definition sto_bind {S A B} (m : STO S A) (k : A -> STO S B) : STO S B :=
  fun s => match m s with Some (a, s') => k a s' | None => None end.
Definition sto_get {S} : STO S S := fun s => Some (s, s).
Definition sto_mod {S} (f : S -> S) : STO S unit := fun s => Some (tt, f s).
Definition sto_stop {S A} : STO S A := fun _ => None.
Definition sto_when {S} (b : bool) (m : STO S unit) : STO S unit :=
  if b then m else sto_ret tt.
Fixpoint sto_iter {S A} (f : A -> STO S unit) (l : list A) : STO S unit :=
  match l with
  | [] => sto_ret tt
  | x :: l => sto_bind (f x) (fun _ => sto_iter f l)
  end.

Notation "'let?' x := m 'in' k" := (sto_bind m (fun x => k))
  (at level 10, x pattern, m at level 200, k at level 200,
   format "'[v' 'let?'  x  :=  m  'in' '/' k ']'") : st_scope.
Notation "m ;?; k" := (sto_bind m (fun _ => k))
  (at level 199, right associativity, format "'[v' m  ;?; '/' k ']'") : st_scope.

(** [sto_wp m Q s]: from [s] the run of [m] returns, in a value and a state in [Q]. *)
Definition sto_wp {S A} (m : STO S A) (Q : A -> S -> Prop) (s : S) : Prop :=
  match m s with Some (a, s') => Q a s' | None => False end.

Lemma swp_ret {S A} (a : A) (Q : A -> S -> Prop) s : Q a s -> sto_wp (sto_ret a) Q s.
Proof. done. Qed.
Lemma swp_bind {S A B} (m : STO S A) (k : A -> STO S B) Q s :
  sto_wp m (fun a s' => sto_wp (k a) Q s') s -> sto_wp (sto_bind m k) Q s.
Proof. unfold sto_wp, sto_bind. by destruct (m s) as [[a s']|]. Qed.
Lemma swp_get {S} (Q : S -> S -> Prop) s : Q s s -> sto_wp sto_get Q s.
Proof. done. Qed.
Lemma swp_mod {S} (f : S -> S) (Q : unit -> S -> Prop) s : Q tt (f s) -> sto_wp (sto_mod f) Q s.
Proof. done. Qed.
Lemma swp_if {S A} (b : bool) (m m' : STO S A) Q s :
  (b = true -> sto_wp m Q s) -> (b = false -> sto_wp m' Q s) ->
  sto_wp (if b then m else m') Q s.
Proof. intros H1 H2. destruct b; [by apply H1 | by apply H2]. Qed.
Lemma swp_when {S} (b : bool) (m : STO S unit) Q s :
  (b = true -> sto_wp m Q s) -> (b = false -> Q tt s) -> sto_wp (sto_when b m) Q s.
Proof. intros H1 H2. destruct b; [by apply H1 | by apply H2]. Qed.
Lemma swp_mono {S A} (m : STO S A) (Q Q' : A -> S -> Prop) s :
  sto_wp m Q s -> (forall a s', Q a s' -> Q' a s') -> sto_wp m Q' s.
Proof. unfold sto_wp. destruct (m s) as [[a s']|]; [|done]. intros H HQ. by apply HQ. Qed.

(** In a specification, what is claimed may use that this was the run. *)
Lemma swp_eqn {S A} (m : STO S A) (Q : A -> S -> Prop) s :
  sto_wp m (fun a s' => m s = Some (a, s') -> Q a s') s -> sto_wp m Q s.
Proof. unfold sto_wp. destruct (m s) as [[a s']|]; auto. Qed.

Lemma swp_run {S A} (m : STO S A) (Q : A -> S -> Prop) s :
  sto_wp m Q s <-> exists a s', m s = Some (a, s') /\ Q a s'.
Proof.
  unfold sto_wp. destruct (m s) as [[a s']|]; split.
  - intros H. by exists a, s'.
  - by intros (a' & s'' & [= <- <-] & H).
  - done.
  - by intros (a' & s'' & H & _).
Qed.

(** One statement of the program at the head of the goal. *)
Ltac swp_step :=
  cbv beta zeta;
  lazymatch goal with
  | |- sto_wp (sto_bind ?m ?k) ?Q ?s => refine (swp_bind m k Q s _)
  | |- sto_wp (sto_ret ?a) ?Q ?s => refine (swp_ret a Q s _)
  | |- sto_wp sto_get _ _ => apply swp_get
  | |- sto_wp (sto_mod ?f) ?Q ?s => refine (swp_mod f Q s _)
  | |- sto_wp (sto_when _ _) _ _ => apply swp_when; intros ?
  | |- sto_wp (if _ then _ else _) _ _ => apply swp_if; intros ?
  end.

(** [sto_wlp m Q s]: the run of [m] from [s], if it returns, ends in a value and a state
    in [Q]. *)
Definition sto_wlp {S A} (m : STO S A) (Q : A -> S -> Prop) (s : S) : Prop :=
  match m s with Some (a, s') => Q a s' | None => True end.

Lemma wlp_ret {S A} (a : A) (Q : A -> S -> Prop) s : Q a s -> sto_wlp (sto_ret a) Q s.
Proof. done. Qed.
Lemma wlp_stop {S A} (Q : A -> S -> Prop) s : sto_wlp sto_stop Q s.
Proof. done. Qed.
Lemma wlp_bind {S A B} (m : STO S A) (k : A -> STO S B) Q s :
  sto_wlp m (fun a s' => sto_wlp (k a) Q s') s -> sto_wlp (sto_bind m k) Q s.
Proof. unfold sto_wlp, sto_bind. by destruct (m s) as [[a s']|]. Qed.
Lemma wlp_get {S} (Q : S -> S -> Prop) s : Q s s -> sto_wlp sto_get Q s.
Proof. done. Qed.
Lemma wlp_mod {S} (f : S -> S) (Q : unit -> S -> Prop) s : Q tt (f s) -> sto_wlp (sto_mod f) Q s.
Proof. done. Qed.
Lemma wlp_if {S A} (b : bool) (m m' : STO S A) Q s :
  (b = true -> sto_wlp m Q s) -> (b = false -> sto_wlp m' Q s) ->
  sto_wlp (if b then m else m') Q s.
Proof. intros H1 H2. destruct b; [by apply H1 | by apply H2]. Qed.
Lemma wlp_when {S} (b : bool) (m : STO S unit) Q s :
  (b = true -> sto_wlp m Q s) -> (b = false -> Q tt s) -> sto_wlp (sto_when b m) Q s.
Proof. intros H1 H2. destruct b; [by apply H1 | by apply H2]. Qed.
Lemma wlp_mono {S A} (m : STO S A) (Q Q' : A -> S -> Prop) s :
  sto_wlp m Q s -> (forall a s', Q a s' -> Q' a s') -> sto_wlp m Q' s.
Proof. unfold sto_wlp. destruct (m s) as [[a s']|]; [|done]. intros H HQ. by apply HQ. Qed.
Lemma wlp_of_wp {S A} (m : STO S A) (Q : A -> S -> Prop) s : sto_wp m Q s -> sto_wlp m Q s.
Proof. unfold sto_wp, sto_wlp. by destruct (m s) as [[a s']|]. Qed.
Lemma wlp_iter {S A} (P : S -> Prop) (f : A -> STO S unit) l s :
  (forall x s, P s -> sto_wlp (f x) (fun _ => P) s) -> P s -> sto_wlp (sto_iter f l) (fun _ => P) s.
Proof.
  intros Hf. revert s. induction l as [|x l IH]; intros s Hs; [by apply wlp_ret|]. cbn. apply wlp_bind.
  eapply wlp_mono; [by apply Hf|]. cbv beta. intros _ s' Hs'. by apply IH.
Qed.

Ltac wlp_step :=
  cbv beta zeta;
  lazymatch goal with
  | |- sto_wlp (sto_bind ?m ?k) ?Q ?s => refine (wlp_bind m k Q s _)
  | |- sto_wlp (sto_ret ?a) ?Q ?s => refine (wlp_ret a Q s _)
  | |- sto_wlp sto_stop _ _ => apply wlp_stop
  | |- sto_wlp sto_get _ _ => apply wlp_get
  | |- sto_wlp (sto_mod ?f) ?Q ?s => refine (wlp_mod f Q s _)
  | |- sto_wlp (sto_when _ _) _ _ => apply wlp_when; intros ?
  | |- sto_wlp (if _ then _ else _) _ _ => apply wlp_if; intros ?
  | |- sto_wlp (match ?x with _ => _ end) _ _ => destruct x eqn:?
  end.
