(* ===== verification/LaBridge.v ===== *)
(** * LaBridge: the capture bridge (src/src/logic_analyzer_bridge.c)

    The bridge wraps the capture firmware (the LogicAnalyzer submodule) and the
    RP2040's PIO and DMA. It holds the capture configuration and runs one of
    three sessions: a single capture, a chain of captures handed out block by
    block, or a continuous stream read out of the DMA's circular buffer.

    The capture firmware and the Pico SDK are not part of the repository. They
    are the interface [CaptureEngine]: every call the bridge makes is an
    operation of it, over an abstract hardware state [HW] that any call may
    advance, so that the hardware runs concurrently with the bridge. *)

From S2P Require Import Prelude.

(** ** The capture firmware and the SDK, as the bridge sees them *)

Inductive CHANNEL_MODE := MODE_8_CHANNEL | MODE_16_CHANNEL | MODE_24_CHANNEL.

#[export] Instance channel_mode_eq_dec : EqDecision CHANNEL_MODE.
Proof. solve_decision. Defined.

Definition mode_eqb (m m' : CHANNEL_MODE) : bool := bool_decide (m = m').

Inductive dma_channel := dmaPingPong0 | dmaPingPong1.

(** The handlers the bridge installs on DMA_IRQ_0. *)
Inductive dma_irq_handler := la_original_dma_handler | la_stream_handler.

(** The state-machine configuration built by [la_stream_start]. The clock
    divider is a float quotient; its dividend and divisor are kept. *)
Record pio_sm_config := mk_pio_sm_config {
  cfg_wrap_target : Z; cfg_wrap : Z; cfg_in_pins : Z;
  cfg_clkdiv : Z * Z;
  cfg_in_shift : bool * bool * Z;
  cfg_join_rx : bool
}.

(** The calls of the Pico SDK (and [configureCaptureDMAs] of the firmware) the
    bridge and the application make, with their arguments. *)
Inductive sdk_call :=
| gpio_pull_up (pin : Z) | gpio_pull_down (pin : Z) | gpio_disable_pulls (pin : Z)
| gpio_get (pin : Z)
| sleep_us (us : Z) | time_us_64 | to_ms_since_boot | clock_get_hz_clk_sys
| dma_channel_is_busy (ch : dma_channel) | dma_transfer_count (ch : dma_channel)
| dma_clear_enable (ch : dma_channel)
| dma_channel_set_irq0_enabled (ch : dma_channel) (en : bool)
| dma_channel_abort (ch : dma_channel) | dma_channel_acknowledge_irq0 (ch : dma_channel)
| dma_channel_unclaim (ch : dma_channel)
| irq_set_enabled_dma0 (en : bool) | irq_remove_handler_dma0 (h : dma_irq_handler)
| irq_set_exclusive_handler_dma0 (h : dma_irq_handler)
| pio_sm_set_enabled (pio sm : Z) (en : bool) | pio_sm_unclaim (pio sm : Z)
| pio_remove_program (pio : Z) (prog : list Z) (offset : Z)
| pio_clear_instruction_memory (pio : Z) | pio_claim_unused_sm (pio : Z) (required : bool)
| pio_sm_clear_fifos (pio sm : Z) | pio_sm_restart (pio sm : Z)
| pio_add_program (pio : Z) (prog : list Z) | pio_gpio_init (pio pin : Z)
| pio_sm_set_consecutive_pindirs (pio sm pin count : Z) (is_out : bool)
| pio_sm_init (pio sm offset : Z) (config : pio_sm_config)
| configureCaptureDMAs (mode : CHANNEL_MODE).

(** The constants of the firmware and the SDK. *)
Class CaptureConsts := {
  CAPTURE_BUFFER_SIZE : Z;
  MAX_FREQ : Z;
  INPUT_PIN_BASE : Z;
  pinMap : Z -> Z;
  pio0 : Z;
  pio_pins : Z;
  pio_encode_in : Z -> Z -> Z;
  pio_encode_jmp : Z -> Z
}.

(** The capture firmware over a hardware state: its entry points, its static
    variables, and the SDK calls with the value each returns. *)
Class CaptureEngine (HW : Type) := {
  StartCaptureSimple :
    Z -> Z -> Z -> Z -> Z -> list Z -> Z -> Z -> bool -> CHANNEL_MODE -> HW -> bool * HW;
  IsCapturing : HW -> bool;
  StopCapture : HW -> HW;
  GetTimestamps : HW -> list Z * Z;
  lastPreSize : HW -> Z;
  lastPostSize : HW -> Z;
  lastLoopCount : HW -> Z;
  lastTail : HW -> Z;
  lastStartPosition : HW -> Z;
  set_lastStartPosition : Z -> HW -> HW;
  lastCapturePins : HW -> list Z;
  lastCapturePinCount : HW -> Z;
  lastCaptureMode : HW -> CHANNEL_MODE;
  captureBuffer : HW -> list Z;
  set_captureBuffer : list Z -> HW -> HW;
  hw_call : sdk_call -> HW -> Z * HW
}.

(** ** Data *)

Definition LA_MAX_CHANNELS : Z := 24.
Definition LA_MAX_CHUNK_BYTES : Z := 8 * 1024.
Definition LA_TRIGGER_CHANNEL : Z := LA_MAX_CHANNELS.
Definition LA_TRIGGER_GPIO : Z := 1.

Record la_config_t := mk_la_config {
  frequency : Z;
  chunk_bytes : Z;
  channel_mask : Z;
  channel_count : Z;
  channels : list Z;
  mode : CHANNEL_MODE;
  bytes_per_sample : Z
}.
#[export] Instance eta_la_config : Eta la_config_t := fun c =>
  mk_la_config (frequency c) (chunk_bytes c) (channel_mask c) (channel_count c)
    (channels c) (mode c) (bytes_per_sample c).

Definition la_config_init : la_config_t := {|
  frequency := 1000;
  chunk_bytes := 256;
  channel_mask := 1;
  channel_count := 1;
  channels := replicate 24 0;
  mode := MODE_8_CHANNEL;
  bytes_per_sample := 1
|}.

(** A finished capture. [buffer] is [captureBuffer] itself, so it is not copied
    into the result: the reader indexes the buffer of the hardware state. *)
Record la_capture_result_t := mk_la_capture_result {
  res_samples : Z;
  res_first_sample : Z;
  res_bytes_per_sample : Z;
  res_timestamps : list Z;
  res_timestamp_count : Z
}.

(** A block handed to the application. [blk_data] points into [captureBuffer]:
    it is the byte offset of the block in it. *)
Record la_analysis_block_t := mk_la_analysis_block {
  blk_data : Z;
  blk_bytes : Z;
  blk_samples : Z;
  blk_sequence : Z;
  blk_overruns : Z;
  blk_first_sample : Z;
  blk_device_time_us : Z;
  blk_slot : Z
}.

(** The static variables of the bridge, and the hardware with the firmware. *)
Record la_state (HW : Type) := mk_la_state {
  la_config : la_config_t;
  la_running : bool;
  la_capture_active : bool;
  la_block_outstanding : bool;
  la_stream_running : bool;
  la_single_capture_active : bool;
  la_sequence : Z;
  la_next_sample : Z;
  la_stream_pio_instructions : list Z;
  la_stream_block_outstanding : bool;
  la_stream_completed_passes : Z;
  la_stream_next_chunk : Z;
  la_stream_last_produced_bytes : Z;
  la_stream_overruns : Z;
  capturePIO : Z;
  sm_Capture : Z;
  captureOffset : Z;
  hw : HW
}.
Arguments mk_la_state {HW}.
Arguments la_config {HW}. Arguments la_running {HW}. Arguments la_capture_active {HW}.
Arguments la_block_outstanding {HW}. Arguments la_stream_running {HW}.
Arguments la_single_capture_active {HW}. Arguments la_sequence {HW}.
Arguments la_next_sample {HW}. Arguments la_stream_pio_instructions {HW}.
Arguments la_stream_block_outstanding {HW}. Arguments la_stream_completed_passes {HW}.
Arguments la_stream_next_chunk {HW}. Arguments la_stream_last_produced_bytes {HW}.
Arguments la_stream_overruns {HW}. Arguments capturePIO {HW}. Arguments sm_Capture {HW}.
Arguments captureOffset {HW}. Arguments hw {HW}.

#[export] Instance eta_la_state HW : Eta (la_state HW) := fun s =>
  mk_la_state (la_config s) (la_running s) (la_capture_active s) (la_block_outstanding s)
    (la_stream_running s) (la_single_capture_active s) (la_sequence s) (la_next_sample s)
    (la_stream_pio_instructions s) (la_stream_block_outstanding s)
    (la_stream_completed_passes s) (la_stream_next_chunk s)
    (la_stream_last_produced_bytes s) (la_stream_overruns s) (capturePIO s) (sm_Capture s)
    (captureOffset s) (hw s).

(** The statics at power-up: zero, but for the configuration. *)
Definition la_init {HW} (h : HW) : la_state HW := {|
  la_config := la_config_init;
  la_running := false; la_capture_active := false; la_block_outstanding := false;
  la_stream_running := false; la_single_capture_active := false;
  la_sequence := 0; la_next_sample := 0; la_stream_pio_instructions := [0; 0];
  la_stream_block_outstanding := false; la_stream_completed_passes := 0;
  la_stream_next_chunk := 0; la_stream_last_produced_bytes := 0;
  la_stream_overruns := 0; capturePIO := 0; sm_Capture := 0; captureOffset := 0;
  hw := h
|}.

(** ** Operations *)

Section Bridge.
Context {CC : CaptureConsts} {HW : Type} {CE : CaptureEngine HW}.

Abbreviation M := (ST (la_state HW)).

(** An assignment to static variables of the bridge. *)
Definition upd (f : la_state HW -> la_state HW) : M unit := st_mod f.

(** One call of the SDK: its value, and the hardware it leaves. *)
Definition sdk (c : sdk_call) : M Z := fun s =>
  let '(r, h) := hw_call c (hw s) in (r, s <| hw := h |>).

Definition sdk_ (c : sdk_call) : M unit := sdk c ;;; st_ret tt.

Definition la_bytes_per_sample_mode (m : CHANNEL_MODE) : Z :=
  match m with
  | MODE_8_CHANNEL => 1
  | MODE_16_CHANNEL => 2
  | MODE_24_CHANNEL => 4
  end.

Definition la_get_debug : M (Z * Z * Z) :=
  st_gets (fun s => (lastTail (hw s), lastStartPosition (hw s), lastCapturePinCount (hw s))).

(** The sample at a position of the capture buffer, read as a 1-, 2- or 4-byte
    little-endian word. *)
Definition raw_sample (buf : list Z) (width position : Z) : Z :=
  le_val (mem_read (position * width) width buf).

(** The first sample of the last capture in the circular buffer. *)
Definition raw_first (total max_samples tail : Z) : Z :=
  if tail <? u32 (total - 1)
  then u32 (max_samples - total + tail + 1)
  else u32 (tail - total + 1).

Definition last_total (h : HW) : Z :=
  u32 (lastPreSize h + lastPostSize h * (lastLoopCount h + 1)).

Definition la_raw_high_count : M Z := st_gets (fun s =>
  let h := hw s in
  let total := last_total h in
  let width := la_bytes_per_sample_mode (lastCaptureMode h) in
  let max_samples := CAPTURE_BUFFER_SIZE / width in
  let first := raw_first total max_samples (lastTail h) in
  let mask := u32 (Z.shiftl 1 (mem_get (lastCapturePins h) 0 - INPUT_PIN_BASE)) in
  fold_left (fun count i =>
      let position := u32 (first + i) mod max_samples in
      let value := raw_sample (captureBuffer h) width position in
      if Z.land value mask =? 0 then count else u32 (count + 1))
    (seqZ 0 total) 0).

Definition la_is_busy (s : la_state HW) : bool :=
  la_running s || la_stream_running s || la_single_capture_active s.

(** The loop of [la_update_channel_config]: the enabled channels are appended to
    [channels], [highest] is the last of them. *)
Definition scan_channel (cfg_highest : la_config_t * Z) (channel : Z) : la_config_t * Z :=
  let '(c, highest) := cfg_highest in
  if Z.land (channel_mask c) (Z.shiftl 1 channel) =? 0 then (c, highest)
  else (c <| channels := mem_set (channel_count c) channel (channels c) |>
          <| channel_count := u8 (channel_count c + 1) |>, channel).

Definition la_update_channel_config (c : la_config_t) : la_config_t :=
  let '(c, highest) := fold_left scan_channel (seqZ 0 LA_MAX_CHANNELS)
                         (c <| channel_count := 0 |>, 0) in
  let m := if highest <? 8 then MODE_8_CHANNEL
           else if highest <? 16 then MODE_16_CHANNEL else MODE_24_CHANNEL in
  c <| mode := m |> <| bytes_per_sample := la_bytes_per_sample_mode m |>.

(** The configuration calls: [None] is the NULL pointer, a pure query. *)
Definition la_configure_frequency (freq : option Z) : M Z := fun s =>
  let s' := match freq with
    | Some f =>
        if negb (la_is_busy s) && ((0 <? f) && (f <=? MAX_FREQ))
        then s <| la_config := (la_config s) <| frequency := f |> |> else s
    | None => s
    end in
  (frequency (la_config s'), s').

Definition la_configure_chunk_bytes (cb : option Z) : M Z := fun s =>
  let s' := match cb with
    | Some n =>
        if negb (la_is_busy s) &&
           ((0 <? n) && (n <=? LA_MAX_CHUNK_BYTES) &&
            (CAPTURE_BUFFER_SIZE mod n =? 0) && (n mod 4 =? 0))
        then s <| la_config := (la_config s) <| chunk_bytes := n |> |> else s
    | None => s
    end in
  (chunk_bytes (la_config s'), s').

Definition la_configure_channel_mask (cm : option Z) : M Z := fun s =>
  let s' := match cm with
    | Some m =>
        if negb (la_is_busy s) &&
           (negb (m =? 0) &&
            (Z.land m (u32 (Z.lnot (Z.shiftl 1 LA_MAX_CHANNELS - 1))) =? 0))
        then s <| la_config :=
                    la_update_channel_config ((la_config s) <| channel_mask := m |>) |>
        else s
    | None => s
    end in
  (channel_mask (la_config s'), s').

(** *** Single captures *)

(** [StartCaptureSimple] on the bridge's state. *)
Definition start_capture (freq pre post loops measure : Z) (pins : list Z) (pin_count trig : Z)
    (invert : bool) (m : CHANNEL_MODE) : M bool := fun s =>
  let '(ok, h) :=
    StartCaptureSimple freq pre post loops measure pins pin_count trig invert m (hw s) in
  (ok, s <| hw := h |>).

Definition la_single_capture_is_running (s : la_state HW) : bool :=
  la_single_capture_active s && IsCapturing (hw s).

Definition la_single_capture_start (pre_samples post_samples trigger_pin : Z)
    (invert_trigger : bool) : M bool :=
  let! s := st_get in
  let c := la_config s in
  if la_is_busy s then st_ret false
  else
    let! ok := start_capture (frequency c) pre_samples post_samples 0 0 (channels c)
           (channel_count c) trigger_pin invert_trigger (mode c) in
    upd (fun s => s <| la_single_capture_active := ok |>) ;;;
    st_ret ok.

(** [(samples, first, mode)] of the last capture; records the start position. *)
Definition la_get_raw_capture : M (Z * Z * CHANNEL_MODE) := fun s =>
  let h := hw s in
  let samples := last_total h in
  let m := lastCaptureMode h in
  let width := la_bytes_per_sample_mode m in
  let capacity := CAPTURE_BUFFER_SIZE / width in
  let first := raw_first samples capacity (lastTail h) in
  ((samples, first, m), s <| hw := set_lastStartPosition first h |>).

(** [None] is [false]; [nonnull] tells whether the result pointer is not NULL. *)
Definition la_single_capture_get_result (nonnull : bool) : M (option la_capture_result_t) :=
  let! s := st_get in
  if negb nonnull || negb (la_single_capture_active s) || IsCapturing (hw s)
  then st_ret None
  else
    let! raw := la_get_raw_capture in
    let '(samples, first, m) := raw in
    let! s := st_get in
    let '(ts, tc) := GetTimestamps (hw s) in
    st_ret (Some (mk_la_capture_result samples first (la_bytes_per_sample_mode m) ts tc)).

Definition la_single_capture_release : M unit :=
  upd (fun s => s <| la_single_capture_active := false |>).

Definition la_single_capture_stop : M unit :=
  let! s := st_get in
  st_when (la_single_capture_active s && IsCapturing (hw s))
    (upd (fun s => s <| hw := StopCapture (hw s) |>)) ;;;
  la_single_capture_release.

(** *** Chained captures *)

Definition la_start_chunk : M bool :=
  sdk_ (gpio_pull_down (pinMap LA_TRIGGER_CHANNEL)) ;;;
  sdk_ (sleep_us 50) ;;;
  let! s := st_get in
  let c := la_config s in
  let chunk_samples := chunk_bytes c / bytes_per_sample c in
  let! started := start_capture (frequency c) 0 chunk_samples 0 0 (channels c) (channel_count c)
              LA_TRIGGER_CHANNEL true (mode c) in
  st_when started (
    upd (fun s => s <| la_capture_active := true |>) ;;;
    sdk_ (sleep_us 50) ;;;
    sdk_ (gpio_pull_up (pinMap LA_TRIGGER_CHANNEL))) ;;;
  st_ret started.

Definition la_capture_chain_start : M bool :=
  let! s := st_get in
  if la_is_busy s then st_ret false
  else
    upd (fun s => s <| la_sequence := 0 |> <| la_next_sample := 0 |>
                       <| la_block_outstanding := false |> <| la_capture_active := false |>) ;;;
    let! started := la_start_chunk in
    if started
    then upd (fun s => s <| la_running := true |>) ;;; st_ret true
    else st_ret false.

Definition la_capture_chain_take (nonnull : bool) : M (option la_analysis_block_t) :=
  let! s := st_get in
  if negb (la_running s) || negb nonnull || la_block_outstanding s || negb (la_capture_active s)
  then st_ret None
  else if IsCapturing (hw s) then st_ret None
  else
    let! raw := la_get_raw_capture in
    let '(samples, first, m) := raw in
    let c := la_config s in
    if negb (mode_eqb m (mode c)) then st_ret None
    else
      let! t := sdk time_us_64 in
      let block := {|
        blk_data := u32 (first * bytes_per_sample c);
        blk_bytes := u32 (samples * bytes_per_sample c);
        blk_samples := samples;
        blk_sequence := la_sequence s;
        blk_overruns := 0;
        blk_first_sample := la_next_sample s;
        blk_device_time_us := t;
        blk_slot := 0 |} in
      upd (fun s => s <| la_sequence := u32 (la_sequence s + 1) |>
                         <| la_next_sample := u64 (la_next_sample s + samples) |>
                         <| la_capture_active := false |>
                         <| la_block_outstanding := true |>) ;;;
      st_ret (Some block).

Definition la_capture_chain_release (slot : Z) : M unit :=
  let! s := st_get in
  if negb (la_running s) || negb (la_block_outstanding s) then st_ret tt
  else
    upd (fun s => s <| la_block_outstanding := false |>) ;;;
    la_start_chunk ;;; st_ret tt.

Definition la_capture_chain_stop : M unit :=
  let! s := st_get in
  st_when (la_capture_active s && IsCapturing (hw s))
    (upd (fun s => s <| hw := StopCapture (hw s) |>)) ;;;
  sdk_ (gpio_disable_pulls (pinMap LA_TRIGGER_CHANNEL)) ;;;
  upd (fun s => s <| la_running := false |> <| la_capture_active := false |>
                     <| la_block_outstanding := false |>).

(** *** Continuous streaming *)

(** The interrupt at the end of a DMA pass; [original] is the firmware's own
    handler, which runs first. *)
Definition la_stream_dma_handler (original : HW -> HW) : M unit :=
  upd (fun s => s <| hw := original (hw s) |>
      <| la_stream_completed_passes := u32 (la_stream_completed_passes s + 1) |>).

(** The bytes the DMA has written since the start. The completed passes are read
    before the DMA registers; the hardware keeps running in between. *)
Definition la_stream_produced_bytes : M Z :=
  let! s := st_get in
  let passes := la_stream_completed_passes s in
  let! busy0 := sdk (dma_channel_is_busy dmaPingPong0) in
  let! remaining :=
    if negb (busy0 =? 0) then
      let! r := sdk (dma_transfer_count dmaPingPong0) in st_ret (Some (u32 r))
    else
      let! busy1 := sdk (dma_channel_is_busy dmaPingPong1) in
      if negb (busy1 =? 0) then
        let! r := sdk (dma_transfer_count dmaPingPong1) in st_ret (Some (u32 r))
      else st_ret None
  in
  match remaining with
  | None => st_ret (la_stream_last_produced_bytes s)
  | Some remaining =>
      let bps := bytes_per_sample (la_config s) in
      let transfers_per_pass := CAPTURE_BUFFER_SIZE / bps in
      let produced := u64 (passes * CAPTURE_BUFFER_SIZE +
                           u32 (transfers_per_pass - remaining) * bps) in
      if produced <? la_stream_last_produced_bytes s
      then st_ret (la_stream_last_produced_bytes s)
      else
        upd (fun s => s <| la_stream_last_produced_bytes := produced |>) ;;;
        st_ret produced
  end.

Definition la_stream_stop_hardware : M unit :=
  let! s := st_get in
  sdk_ (pio_sm_set_enabled (capturePIO s) (sm_Capture s) false) ;;;
  sdk_ (dma_clear_enable dmaPingPong0) ;;;
  sdk_ (dma_clear_enable dmaPingPong1) ;;;
  sdk_ (dma_channel_set_irq0_enabled dmaPingPong0 false) ;;;
  sdk_ (dma_channel_set_irq0_enabled dmaPingPong1 false) ;;;
  sdk_ (irq_set_enabled_dma0 false) ;;;
  sdk_ (dma_channel_abort dmaPingPong0) ;;;
  sdk_ (dma_channel_abort dmaPingPong1) ;;;
  sdk_ (dma_channel_acknowledge_irq0 dmaPingPong0) ;;;
  sdk_ (dma_channel_acknowledge_irq0 dmaPingPong1) ;;;
  sdk_ (irq_remove_handler_dma0 la_stream_handler) ;;;
  sdk_ (dma_channel_unclaim dmaPingPong0) ;;;
  sdk_ (dma_channel_unclaim dmaPingPong1) ;;;
  sdk_ (pio_sm_unclaim (capturePIO s) (sm_Capture s)) ;;;
  sdk_ (pio_remove_program (capturePIO s) (la_stream_pio_instructions s) (captureOffset s)).

(** [la_stream_start] up to the initialised state machine. *)
Definition stream_setup_pio : M unit :=
  upd (fun s => s <| la_stream_pio_instructions :=
                          [pio_encode_in pio_pins 32; pio_encode_jmp 0] |>
                     <| capturePIO := pio0 |>) ;;;
  let! s := st_get in
  let pio := capturePIO s in
  let c := la_config s in
  sdk_ (pio_clear_instruction_memory pio) ;;;
  let! sm := sdk (pio_claim_unused_sm pio true) in
  upd (fun s => s <| sm_Capture := sm |>) ;;;
  sdk_ (pio_sm_clear_fifos pio sm) ;;;
  sdk_ (pio_sm_restart pio sm) ;;;
  let! off := sdk (pio_add_program pio (la_stream_pio_instructions s)) in
  upd (fun s => s <| captureOffset := off |>) ;;;
  let channel_span :=
    if mode_eqb (mode c) MODE_8_CHANNEL then 8
    else if mode_eqb (mode c) MODE_16_CHANNEL then 16 else 24 in
  st_iter (fun i =>
      sdk_ (pio_gpio_init pio (pinMap i)) ;;;
      sdk_ (pio_sm_set_consecutive_pindirs pio sm (pinMap i) 1 false))
    (seqZ 0 channel_span) ;;;
  let! hz := sdk clock_get_hz_clk_sys in
  let config := {|
    cfg_wrap_target := off; cfg_wrap := off + 1;
    cfg_in_pins := INPUT_PIN_BASE;
    cfg_clkdiv := (hz, u32 (frequency c * 2));
    cfg_in_shift := (true, true, 32);
    cfg_join_rx := true |} in
  sdk_ (pio_sm_init pio sm off config).

Definition la_stream_start : M bool :=
  let! s := st_get in
  if la_is_busy s then st_ret false
  else
    upd (fun s => s <| hw := set_captureBuffer
                                  (replicate (Z.to_nat CAPTURE_BUFFER_SIZE) 0) (hw s) |>
                       <| la_stream_completed_passes := 0 |>
                       <| la_stream_next_chunk := 0 |>
                       <| la_stream_last_produced_bytes := 0 |>
                       <| la_stream_overruns := 0 |>
                       <| la_stream_block_outstanding := false |>) ;;;
    stream_setup_pio ;;;
    let! s := st_get in
    sdk_ (configureCaptureDMAs (mode (la_config s))) ;;;
    sdk_ (irq_set_enabled_dma0 false) ;;;
    sdk_ (irq_remove_handler_dma0 la_original_dma_handler) ;;;
    sdk_ (irq_set_exclusive_handler_dma0 la_stream_handler) ;;;
    sdk_ (irq_set_enabled_dma0 true) ;;;
    upd (fun s => s <| la_stream_running := true |>) ;;;
    sdk_ (pio_sm_set_enabled (capturePIO s) (sm_Capture s) true) ;;;
    st_ret true.

Definition la_stream_take (nonnull : bool) : M (option la_analysis_block_t) :=
  let! s := st_get in
  if negb (la_stream_running s) || negb nonnull || la_stream_block_outstanding s
  then st_ret None
  else
    let c := la_config s in
    let! produced := la_stream_produced_bytes in
    let completed_chunks := produced / chunk_bytes c in
    let next_chunk := la_stream_next_chunk s in
    if next_chunk >=? completed_chunks then st_ret None
    else
      let slot_count := CAPTURE_BUFFER_SIZE / chunk_bytes c in
      st_when (u64 (completed_chunks - next_chunk) >=? slot_count) (
        let oldest_available := u64 (completed_chunks - slot_count + 1) in
        upd (fun s =>
          s <| la_stream_overruns :=
                 u32 (la_stream_overruns s + u32 (oldest_available - next_chunk)) |>
            <| la_stream_next_chunk := oldest_available |>)) ;;;
      let! s := st_get in
      let next_chunk := la_stream_next_chunk s in
      let samples := chunk_bytes c / bytes_per_sample c in
      let! t := sdk time_us_64 in
      let block := {|
        blk_data := u32 (next_chunk mod slot_count * chunk_bytes c);
        blk_bytes := chunk_bytes c;
        blk_samples := samples;
        blk_sequence := u32 next_chunk;
        blk_overruns := la_stream_overruns s;
        blk_first_sample := u64 (next_chunk * samples);
        blk_device_time_us := t;
        blk_slot := 0 |} in
      upd (fun s => s <| la_stream_next_chunk := u64 (next_chunk + 1) |>
                         <| la_stream_block_outstanding := true |>) ;;;
      st_ret (Some block).

Definition la_stream_release (slot : Z) : M unit :=
  upd (fun s => s <| la_stream_block_outstanding := false |>).

Definition la_stream_stop : M unit :=
  let! s := st_get in
  if negb (la_stream_running s) then st_ret tt
  else
    upd (fun s => s <| la_stream_running := false |>) ;;;
    la_stream_stop_hardware ;;;
    upd (fun s => s <| la_stream_block_outstanding := false |>).

End Bridge.
