(* ===== verification/DemoEngine.v ===== *)
(** * DemoEngine: a concrete capture engine

    One concrete instance of [CaptureConsts] and [CaptureEngine], used by the
    witnesses of the bridge and of the application to run the definitions. Its
    DMA has made [dm_count] transfers of one-byte samples in ping-pong passes
    over a 16 KiB buffer; every other register is a plain field. *)

From S2P Require Import Prelude LaBridge.

Record demo_hw := mk_demo_hw {
  dm_pre : Z; dm_post : Z; dm_loops : Z; dm_tail : Z; dm_start : Z;
  dm_pins : list Z; dm_pin_count : Z; dm_mode : CHANNEL_MODE;
  dm_buf : list Z;
  dm_capturing : bool;
  dm_count : Z;
  dm_time : Z
}.
#[export] Instance eta_demo_hw : Eta demo_hw := fun h =>
  mk_demo_hw (dm_pre h) (dm_post h) (dm_loops h) (dm_tail h) (dm_start h) (dm_pins h)
    (dm_pin_count h) (dm_mode h) (dm_buf h) (dm_capturing h) (dm_count h) (dm_time h).

#[export] Instance demo_consts : CaptureConsts := {|
  CAPTURE_BUFFER_SIZE := 16384;
  MAX_FREQ := 100000000;
  INPUT_PIN_BASE := 2;
  pinMap := fun i => if i =? 24 then 1 else if i <=? 20 then i + 2 else i + 5;
  pio0 := 0;
  pio_pins := 0;
  pio_encode_in := fun src n => 16384 + 32 * src + n mod 32;
  pio_encode_jmp := fun a => a
|}.

(** The transfers made, and those of a pass over the buffer. *)
Definition demo_count (h : demo_hw) : Z := Z.max 0 (dm_count h).
Definition demo_pass : Z := 16384.

(** Channel 0 runs the even passes, channel 1 the odd ones. *)
Definition demo_busy (ch : dma_channel) (h : demo_hw) : bool :=
  match ch with
  | dmaPingPong0 => Z.even (demo_count h / demo_pass)
  | dmaPingPong1 => Z.odd (demo_count h / demo_pass)
  end.

Definition demo_call (c : sdk_call) (h : demo_hw) : Z * demo_hw :=
  match c with
  | time_us_64 => (dm_time h, h)
  | clock_get_hz_clk_sys => (125000000, h)
  | dma_channel_is_busy ch => (if demo_busy ch h then 1 else 0, h)
  | dma_transfer_count ch => (demo_pass - demo_count h mod demo_pass, h)
  | configureCaptureDMAs m => (0, h <| dm_mode := m |> <| dm_count := 0 |>)
  | _ => (0, h)
  end.

Definition demo_start (freq pre post loops measure : Z) (pins : list Z) (pin_count trig : Z)
    (invert : bool) (m : CHANNEL_MODE) (h : demo_hw) : bool * demo_hw :=
  if dm_capturing h then (false, h)
  else (true, h <| dm_pre := pre |> <| dm_post := post |> <| dm_loops := loops |>
                <| dm_pins := pins |> <| dm_pin_count := pin_count |>
                <| dm_mode := m |> <| dm_capturing := true |>).

#[export] Instance demo_engine : CaptureEngine demo_hw := {|
  StartCaptureSimple := demo_start;
  IsCapturing := dm_capturing;
  StopCapture := fun h => h <| dm_capturing := false |>;
  GetTimestamps := fun h => ([], 0);
  lastPreSize := dm_pre; lastPostSize := dm_post; lastLoopCount := dm_loops;
  lastTail := dm_tail; lastStartPosition := dm_start;
  set_lastStartPosition := fun p h => h <| dm_start := p |>;
  lastCapturePins := dm_pins; lastCapturePinCount := dm_pin_count;
  lastCaptureMode := dm_mode;
  captureBuffer := dm_buf;
  set_captureBuffer := fun b h => h <| dm_buf := b |>;
  hw_call := demo_call
|}.

Definition demo_hw0 : demo_hw := {|
  dm_pre := 0; dm_post := 0; dm_loops := 0; dm_tail := 0; dm_start := 0;
  dm_pins := [2]; dm_pin_count := 1; dm_mode := MODE_8_CHANNEL;
  dm_buf := replicate (Z.to_nat 16384) 0; dm_capturing := false; dm_count := 0; dm_time := 77
|}.

(** The bridge just after power-up on this engine. *)
Definition demo0 : la_state demo_hw := la_init demo_hw0.
