(* ===== verification/LaBridgeInv.v ===== *)
(** * LaBridgeInv: configuration and sessions of the capture bridge

    The theorems about src/src/logic_analyzer_bridge.c that hold in every
    reachable state: the configuration is well formed and is what the enabled
    channels demand, at most one session runs, a block is outstanding only while
    its session runs; and the arithmetic that finds a capture in the circular
    buffer. *)

From S2P Require Import Prelude LaBridge DemoEngine.

(** ** What is assumed of the firmware's constants *)

(** The buffer is at least two of the largest chunks and a whole number of
    256-byte ones (the README gives 128 KiB), the default rate is allowed and
    twice any rate fits 32 bits. *)
Class CaptureConstsOk `{!CaptureConsts} : Prop := {
  cbs_range : 2 * LA_MAX_CHUNK_BYTES <= CAPTURE_BUFFER_SIZE < 2147483648;
  cbs_256 : (256 | CAPTURE_BUFFER_SIZE);
  max_freq_range : 1000 <= MAX_FREQ < 2147483648
}.

(** ** The channel configuration *)

(** Reference: the enabled channels in increasing order. *)
Definition enabled_channels (mask : Z) : list Z :=
  filter (fun i => Z.testbit mask i = true) (seqZ 0 24).

(** Reference: the storage mode for the highest channel. *)
Definition mode_of_highest (highest : Z) : CHANNEL_MODE :=
  if highest <? 8 then MODE_8_CHANNEL
  else if highest <? 16 then MODE_16_CHANNEL else MODE_24_CHANNEL.

Lemma land_bit_zero mask i :
  0 <= i -> (Z.land mask (Z.shiftl 1 i) =? 0) = negb (Z.testbit mask i).
Proof.
  intros Hi. rewrite Z.shiftl_1_l.
  destruct (Z.testbit mask i) eqn:E; cbn.
  - apply Z.eqb_neq. intros H0.
    assert (Z.testbit (Z.land mask (2 ^ i)) i = false) as H1 by (rewrite H0; apply Z.bits_0).
    rewrite Z.land_spec, E, Z.pow2_bits_true in H1 by lia. done.
  - apply Z.eqb_eq, Z.bits_inj'. intros n Hn.
    rewrite Z.land_spec, Z.bits_0, Z.pow2_bits_eqb by lia.
    destruct (Z.eqb_spec i n); subst; [by rewrite E | apply andb_false_r].
Qed.

Definition enabled_in (mask : Z) (l : list Z) : list Z :=
  filter (fun i => Z.testbit mask i = true) l.

Lemma enabled_in_snoc mask l i :
  enabled_in mask (l ++ [i]) =
  if Z.testbit mask i then enabled_in mask l ++ [i] else enabled_in mask l.
Proof.
  unfold enabled_in. rewrite filter_app, filter_cons, filter_nil.
  destruct (Z.testbit mask i); cbn; [done | apply app_nil_r].
Qed.

Lemma enabled_in_length mask l : (length (enabled_in mask l) <= length l)%nat.
Proof. apply length_filter. Qed.

(** The scan after the channels [l]: the ones enabled among [l] are stored. *)
Lemma scan_channels_spec (c : la_config_t) (l : list Z) :
  Forall (fun i => 0 <= i) l -> (length l <= 24)%nat -> length (channels c) = 24%nat ->
  let '(c', h) := fold_left scan_channel l (c <| channel_count := 0 |>, 0) in
  let en := enabled_in (channel_mask c) l in
  frequency c' = frequency c /\ chunk_bytes c' = chunk_bytes c /\
  channel_mask c' = channel_mask c /\ channel_count c' = zlen en /\
  length (channels c') = 24%nat /\ take (length en) (channels c') = en /\
  h = default 0 (last en).
Proof.
  intros Hl Hlen Hch.
  induction l as [|i l IH] using rev_ind; [by cbn|].
  apply Forall_app in Hl as [Hl Hi]. apply Forall_cons_1 in Hi as [Hi _].
  rewrite length_app in Hlen; cbn in Hlen.
  specialize (IH Hl ltac:(lia)).
  rewrite fold_left_app; cbn [fold_left].
  destruct (fold_left scan_channel l _) as [c' h].
  destruct IH as (Hf & Hcb & Hm & Hc & Hl' & Ht & Hh).
  pose proof (enabled_in_length (channel_mask c) l) as Hn.
  cbn [scan_channel]. rewrite land_bit_zero, Hm, enabled_in_snoc by lia.
  destruct (Z.testbit (channel_mask c) i); cbn [negb]; [|done].
  cbn. repeat split; try done.
  - rewrite Hc. unfold zlen, u8. rewrite length_app. cbn. rewrite Z.mod_small by lia. lia.
  - by rewrite mem_set_length.
  - rewrite Hc. unfold mem_set, zlen. rewrite Nat2Z.id, length_app. cbn [length]. rewrite Nat.add_1_r.
    rewrite (take_S_r _ _ i).
    + by rewrite take_insert_ge, Ht by lia.
    + apply list_lookup_insert_eq. lia.
  - by rewrite last_snoc.
Qed.

Lemma mask_test_range m :
  is_u32 m -> Z.land m (u32 (Z.lnot (Z.shiftl 1 LA_MAX_CHANNELS - 1))) = 0 -> m < 2 ^ 24.
Proof.
  unfold is_u32. intros Hm H0.
  change (u32 _) with (Z.shiftl 255 24) in H0.
  assert (m = Z.land m (Z.ones 24)) as ->.
  { rewrite <- (Z.lor_0_r (Z.land m (Z.ones 24))), <- H0, <- Z.land_lor_distr_r.
    change (Z.lor (Z.ones 24) (Z.shiftl 255 24)) with (Z.ones 32).
    rewrite Z.land_ones by lia. symmetry. apply Z.mod_small. lia. }
  rewrite Z.land_ones by lia. apply Z.mod_pos_bound. lia.
Qed.

(** The configuration agrees with its mask: the channel list, their number, the
    storage mode for the highest enabled channel and its width. *)
Record channels_wf (c : la_config_t) : Prop := {
  cw_mask : 0 < channel_mask c < 2 ^ 24;
  cw_length : length (channels c) = 24%nat;
  cw_count : channel_count c = zlen (enabled_channels (channel_mask c));
  cw_channels : take (Z.to_nat (channel_count c)) (channels c) =
                enabled_channels (channel_mask c);
  cw_mode : mode c = mode_of_highest (default 0 (last (enabled_channels (channel_mask c))));
  cw_width : bytes_per_sample c = la_bytes_per_sample_mode (mode c)
}.

Lemma la_update_channel_config_wf c :
  0 < channel_mask c < 2 ^ 24 -> length (channels c) = 24%nat ->
  let c' := la_update_channel_config c in
  channels_wf c' /\ channel_mask c' = channel_mask c /\
  frequency c' = frequency c /\ chunk_bytes c' = chunk_bytes c.
Proof.
  intros Hm Hl. unfold la_update_channel_config, LA_MAX_CHANNELS.
  pose proof (scan_channels_spec c (seqZ 0 24)) as H.
  destruct (fold_left scan_channel (seqZ 0 24) _) as [c' h].
  destruct H as (Hf & Hcb & Hm' & Hc & Hl' & Ht & Hh); [|by cbn|done|].
  { apply Forall_forall. intros x Hx. apply elem_of_seqZ in Hx. lia. }
  fold (enabled_channels (channel_mask c)) in *.
  change (enabled_in (channel_mask c) (seqZ 0 24))
    with (enabled_channels (channel_mask c)) in *.
  split; [|cbn; done].
  split; cbn; rewrite ?Hm'; try done.
  - by rewrite Hc; unfold zlen; rewrite Nat2Z.id.
  - unfold mode_of_highest. by rewrite Hh.
Qed.

(** ** Frames: what the calls into the hardware leave alone *)

Section Frames.
Context {CC : CaptureConsts} {HW : Type} {CE : CaptureEngine HW}.

(** A view of the state that does not look at the hardware. *)
Class HwBlind {T} (f : la_state HW -> T) : Prop :=
  hw_blind : forall s h, f (s <| hw := h |>) = f s.

Definition view_is {T} (f : la_state HW -> T) (k : T) (s : la_state HW) : Prop := f s = k.

Context {T : Type} (f : la_state HW -> T) {Hf : HwBlind f}.

Lemma sdk_view k c : st_keeps (view_is f k) (sdk c).
Proof.
  intros s Hs. unfold sdk, view_is. st_unfold. destruct (hw_call c (hw s)). cbn.
  by rewrite hw_blind.
Qed.
Lemma sdk__view k c : st_keeps (view_is f k) (sdk_ c).
Proof. apply st_keeps_bind; eauto using sdk_view with fw. Qed.
Lemma start_capture_view k fr pre post lp me pins pc tr inv m :
  st_keeps (view_is f k) (start_capture fr pre post lp me pins pc tr inv m).
Proof.
  intros s Hs. unfold start_capture, view_is. st_unfold.
  destruct (StartCaptureSimple _ _ _ _ _ _ _ _ _ _ _). cbn. by rewrite hw_blind.
Qed.
Lemma raw_capture_view k : st_keeps (view_is f k) la_get_raw_capture.
Proof. intros s Hs. unfold view_is. cbn. by rewrite hw_blind. Qed.
Lemma upd_view k g : (forall s, f (g s) = f s) -> st_keeps (view_is f k) (upd g).
Proof. intros Hg s Hs. unfold view_is, st_end, upd, st_mod. cbn. by rewrite Hg. Qed.
End Frames.

#[export] Hint Resolve sdk_view sdk__view start_capture_view raw_capture_view : fw.
#[export] Hint Extern 1 (HwBlind _) => (intros ? ?; reflexivity) : fw typeclass_instances.
#[export] Hint Extern 2 (st_keeps (view_is _ _) (upd _)) => (apply upd_view; reflexivity) : fw.

(** [keeps] proves a frame by going through the statements of a function. *)
Ltac keeps :=
  repeat first
    [ progress intros
    | apply st_keeps_bind
    | apply st_keeps_when | apply st_keeps_if | apply st_keeps_iter
    | match goal with
      | |- st_keeps _ (match ?x with _ => _ end) => destruct x
      end
    | solve [eauto with fw] ].

Section Inv.
Context {CC : CaptureConsts} {CCO : CaptureConstsOk} {HW : Type} {CE : CaptureEngine HW}.
Implicit Types s : la_state HW.

(** A configuration every capture can run with. *)
Record config_wf (c : la_config_t) : Prop := {
  cf_freq : 0 < frequency c <= MAX_FREQ;
  cf_chunk : 0 < chunk_bytes c <= LA_MAX_CHUNK_BYTES;
  cf_chunk_buf : (chunk_bytes c | CAPTURE_BUFFER_SIZE);
  cf_chunk_4 : (4 | chunk_bytes c);
  cf_channels : channels_wf c
}.

(** The state invariant: well-formed configuration, one session at a time, and a
    block or a running capture only in its session. *)
Record la_inv (s : la_state HW) : Prop := {
  inv_config : config_wf (la_config s);
  inv_chain_stream : la_running s = true -> la_stream_running s = false;
  inv_chain_single : la_running s = true -> la_single_capture_active s = false;
  inv_stream_single : la_stream_running s = true -> la_single_capture_active s = false;
  inv_active : la_capture_active s = true -> la_running s = true;
  inv_block : la_block_outstanding s = true ->
              la_running s = true /\ la_capture_active s = false;
  inv_stream_block : la_stream_block_outstanding s = true -> la_stream_running s = true
}.

(** The operations of the bridge besides starting, reading and stopping the
    stream; the DMA interrupt; the hardware running on its own. *)
Inductive la_other_step : la_state HW -> la_state HW -> Prop :=
| step_hardware s h : la_other_step s (s <| hw := h |>)
| step_dma_irq s original : la_other_step s (st_end (la_stream_dma_handler original) s)
| step_frequency s f :
    is_u32 (default 0 f) -> la_other_step s (st_end (la_configure_frequency f) s)
| step_chunk s n :
    is_u32 (default 0 n) -> la_other_step s (st_end (la_configure_chunk_bytes n) s)
| step_mask s m :
    is_u32 (default 0 m) -> la_other_step s (st_end (la_configure_channel_mask m) s)
| step_single_start s pre post trig inv :
    la_other_step s (st_end (la_single_capture_start pre post trig inv) s)
| step_single_result s nn : la_other_step s (st_end (la_single_capture_get_result nn) s)
| step_single_release s : la_other_step s (st_end la_single_capture_release s)
| step_single_stop s : la_other_step s (st_end la_single_capture_stop s)
| step_chain_start s : la_other_step s (st_end la_capture_chain_start s)
| step_chain_take s nn : la_other_step s (st_end (la_capture_chain_take nn) s)
| step_chain_release s slot : la_other_step s (st_end (la_capture_chain_release slot) s)
| step_chain_stop s : la_other_step s (st_end la_capture_chain_stop s)
| step_stream_release s slot : la_other_step s (st_end (la_stream_release slot) s).

(** Every public operation of the bridge, the interrupt and the hardware. *)
Inductive la_step : la_state HW -> la_state HW -> Prop :=
| step_other s s' : la_other_step s s' -> la_step s s'
| step_stream_start s : la_step s (st_end la_stream_start s)
| step_stream_take s nn : la_step s (st_end (la_stream_take nn) s)
| step_stream_stop s : la_step s (st_end la_stream_stop s).

Definition la_reachable (s : la_state HW) : Prop := exists h, rtc la_step (la_init h) s.

(** The part of the state the invariant speaks of. *)
Definition la_core s :=
  (la_config s, (la_running s, la_capture_active s, la_block_outstanding s),
   (la_stream_running s, la_single_capture_active s, la_stream_block_outstanding s)).

Local Abbreviation core_is := (view_is la_core).

Lemma stop_hardware_core k : st_keeps (core_is k) la_stream_stop_hardware.
Proof. unfold la_stream_stop_hardware. keeps. Qed.
Lemma setup_pio_core k : st_keeps (core_is k) stream_setup_pio.
Proof. unfold stream_setup_pio. keeps. Qed.
Lemma produced_bytes_core k : st_keeps (core_is k) la_stream_produced_bytes.
Proof. unfold la_stream_produced_bytes. keeps. Qed.
#[local] Hint Resolve stop_hardware_core setup_pio_core produced_bytes_core : fw.

(** *** The sessions, operation by operation *)

(** [core_of c r ca bo sr sg sb]: the tuple [la_core] from its parts. *)
Definition core_of (c : la_config_t) (r ca bo sr sg sb : bool) :=
  (c, (r, ca, bo), (sr, sg, sb)).

Lemma core_busy c r ca bo sr sg sb s :
  core_is (core_of c r ca bo sr sg sb) s -> la_is_busy s = r || sr || sg.
Proof. unfold view_is, la_core, core_of, la_is_busy. by intros [= <- <- <- <- <- <- <-]. Qed.

Lemma spec_upd k k' f :
  (forall s, core_is k s -> core_is k' (f s)) ->
  st_spec (core_is k) (upd f) (fun _ => core_is k').
Proof. intros H s Hs. by apply H. Qed.

(** An operation whose [st_get] only reads the core. *)
Lemma spec_get {B} k (Q : B -> la_state HW -> Prop) (m : la_state HW -> ST (la_state HW) B) :
  (forall s, core_is k s -> st_spec (core_is k) (m s) Q) ->
  st_spec (core_is k) (st_bind st_get m) Q.
Proof.
  intros H. apply st_spec_get. intros s Hs.
  eapply st_spec_weaken; [by apply H | by intros s' [? ?] | done].
Qed.

Ltac core_upd k :=
  apply (spec_upd _ k); intros ?s; unfold view_is, la_core, core_of; cbn; congruence.

Ltac core_step k := eapply st_spec_bind; [core_upd k | intros ?; cbv beta].

Section Ops.
Variables (c : la_config_t) (r ca bo sr sg sb : bool).
Local Abbreviation K := (core_is (core_of c r ca bo sr sg sb)).

Lemma start_chunk_core :
  st_spec K la_start_chunk (fun ok => core_is (core_of c r (if ok then true else ca) bo sr sg sb)).
Proof.
  unfold la_start_chunk. do 2 (apply st_spec_seq; [eauto with fw|intros _]).
  apply spec_get. intros s Hs. apply st_spec_seq; [eauto with fw|].
  intros []; apply st_spec_then_ret.
  - core_step (core_of c r true bo sr sg sb). apply st_spec_keeps. keeps.
  - apply st_spec_keeps, st_keeps_ret.
Qed.

Lemma stream_start_core :
  st_spec K la_stream_start (fun ok s' =>
    ok = negb (r || sr || sg) /\
    core_is (if ok then core_of c r ca bo true sg false else core_of c r ca bo sr sg sb) s').
Proof.
  unfold la_stream_start. apply spec_get; intros s Hs. rewrite (core_busy _ _ _ _ _ _ _ _ Hs).
  destruct (r || sr || sg) eqn:Ebusy; cbn [negb]; [by intros s' ?|].
  core_step (core_of c r ca bo sr sg false).
  apply st_spec_seq; [keeps|intros _]. apply spec_get. intros s1 _.
  do 5 (apply st_spec_seq; [keeps|intros _]).
  core_step (core_of c r ca bo true sg false).
  apply st_spec_then_ret.
  apply (st_spec_weaken _ (core_is (core_of c r ca bo true sg false)) _
           (fun _ => core_is (core_of c r ca bo true sg false))); [|done..].
  apply st_spec_keeps. keeps.
Qed.

Lemma stream_take_core nn :
  st_spec K (la_stream_take nn) (fun o s' =>
    (o <> None -> sr = true) /\
    core_is (core_of c r ca bo sr sg (if o is Some _ then true else sb)) s').
Proof.
  unfold la_stream_take. apply spec_get; intros s Hs.
  destruct (la_stream_running s) eqn:Er, nn, (la_stream_block_outstanding s) eqn:Eb;
    cbn [negb orb]; try (by intros s' ?).
  assert (sr = true) as -> by (unfold view_is, la_core, core_of in Hs; congruence).
  apply st_spec_seq; [keeps|]. intros produced. case_if; [by intros s' ?|].
  apply st_spec_seq; [keeps|]. intros _. apply spec_get. intros s1 _.
  apply st_spec_seq; [keeps|]. intros t.
  core_step (core_of c r ca bo true sg true). by intros s' ?.
Qed.

Lemma stream_release_core slot :
  st_spec K (la_stream_release slot) (fun _ => core_is (core_of c r ca bo sr sg false)).
Proof. core_upd (core_of c r ca bo sr sg false). Qed.

Lemma stream_stop_core :
  st_spec K la_stream_stop (fun _ =>
    core_is (if sr then core_of c r ca bo false sg false else core_of c r ca bo sr sg sb)).
Proof.
  unfold la_stream_stop. apply spec_get; intros s Hs.
  replace (la_stream_running s) with sr by (unfold view_is, la_core, core_of in Hs; congruence).
  destruct sr; cbn [negb]; [|by intros s' ?].
  core_step (core_of c r ca bo false sg sb).
  apply st_spec_seq; [keeps|]. intros _. core_upd (core_of c r ca bo false sg false).
Qed.

Lemma chain_take_core nn :
  st_spec K (la_capture_chain_take nn) (fun o s' =>
    (o <> None -> r = true /\ bo = false /\ ca = true) /\
    core_is (if o is Some _ then core_of c r false true sr sg sb else core_of c r ca bo sr sg sb) s').
Proof.
  unfold la_capture_chain_take. apply spec_get; intros s Hs.
  destruct (la_running s) eqn:Er, nn, (la_block_outstanding s) eqn:Eb,
    (la_capture_active s) eqn:Ea; cbn [negb orb]; try (by intros s' ?).
  assert (r = true /\ bo = false /\ ca = true) as Hg
    by (unfold view_is, la_core, core_of in Hs; repeat split; congruence).
  case_if; [by intros s' ?|].
  apply st_spec_seq; [keeps|]. intros [[samples first] m]. case_if; [by intros s' ?|].
  apply st_spec_seq; [keeps|]. intros t.
  core_step (core_of c r false true sr sg sb). by intros s' ?.
Qed.

Lemma chain_stop_core :
  st_spec K la_capture_chain_stop (fun _ => core_is (core_of c false false false sr sg sb)).
Proof.
  unfold la_capture_chain_stop. apply spec_get; intros s Hs.
  do 2 (apply st_spec_seq; [keeps|intros _]). core_upd (core_of c false false false sr sg sb).
Qed.

Lemma single_start_core pre post trig inv :
  st_spec K (la_single_capture_start pre post trig inv) (fun ok s' =>
    core_is (if r || sr || sg then core_of c r ca bo sr sg sb
             else core_of c r ca bo sr ok sb) s' /\
    (r || sr || sg = true -> ok = false)).
Proof.
  unfold la_single_capture_start. apply spec_get; intros s Hs.
  rewrite (core_busy _ _ _ _ _ _ _ _ Hs).
  destruct (r || sr || sg); [by intros s' ?|].
  apply st_spec_seq; [keeps|]. intros ok. core_step (core_of c r ca bo sr ok sb).
  by intros s' ?.
Qed.

Lemma single_result_core nn : st_keeps K (la_single_capture_get_result nn).
Proof. unfold la_single_capture_get_result. keeps. Qed.

Lemma single_release_core :
  st_spec K la_single_capture_release (fun _ => core_is (core_of c r ca bo sr false sb)).
Proof. core_upd (core_of c r ca bo sr false sb). Qed.

Lemma single_stop_core :
  st_spec K la_single_capture_stop (fun _ => core_is (core_of c r ca bo sr false sb)).
Proof.
  unfold la_single_capture_stop. apply spec_get; intros s Hs.
  apply st_spec_seq; [keeps|]. intros _. core_upd (core_of c r ca bo sr false sb).
Qed.
End Ops.

Lemma chain_start_core c r ca bo sr sg sb :
  st_spec (core_is (core_of c r ca bo sr sg sb)) la_capture_chain_start (fun ok s' =>
    core_is (if r || sr || sg then core_of c r ca bo sr sg sb
             else core_of c ok ok false sr sg sb) s' /\
    (r || sr || sg = true -> ok = false)).
Proof.
  unfold la_capture_chain_start. apply spec_get; intros s Hs.
  rewrite (core_busy _ _ _ _ _ _ _ _ Hs).
  destruct r; [by intros s' ?|].
  destruct (false || sr || sg); [by intros s' ?|].
  core_step (core_of c false false false sr sg sb).
  eapply st_spec_bind; [apply start_chunk_core|]. intros []; cbv beta iota.
  - core_step (core_of c true true false sr sg sb). by intros s' ?.
  - by intros s' ?.
Qed.

Lemma chain_release_core c r ca bo sr sg sb slot :
  st_spec (core_is (core_of c r ca bo sr sg sb)) (la_capture_chain_release slot) (fun _ s' =>
    if r && bo then exists ok, core_is (core_of c r (if ok : bool then true else ca) false sr sg sb) s'
    else core_is (core_of c r ca bo sr sg sb) s').
Proof.
  unfold la_capture_chain_release. apply spec_get; intros s Hs.
  replace (la_running s) with r by (unfold view_is, la_core, core_of in Hs; congruence).
  replace (la_block_outstanding s) with bo by (unfold view_is, la_core, core_of in Hs; congruence).
  destruct r, bo; cbn [negb orb andb]; try (by intros s' ?).
  core_step (core_of c true ca false sr sg sb).
  eapply st_spec_bind; [apply start_chunk_core|]. intros ok. cbv beta. intros s' ?. by exists ok.
Qed.

(** The invariant is a property of the core. *)
Lemma la_inv_core c r ca bo sr sg sb s :
  core_is (core_of c r ca bo sr sg sb) s ->
  la_inv s <->
  config_wf c /\ (r = true -> sr = false) /\ (r = true -> sg = false) /\
  (sr = true -> sg = false) /\ (ca = true -> r = true) /\
  (bo = true -> r = true /\ ca = false) /\ (sb = true -> sr = true).
Proof.
  unfold view_is, la_core, core_of. intros [= <- <- <- <- <- <- <-].
  split; [intros []; auto 10 | intros (? & ? & ? & ? & ? & ? & ?); by split].
Qed.

Lemma core_refl s :
  core_is (core_of (la_config s) (la_running s) (la_capture_active s) (la_block_outstanding s)
             (la_stream_running s) (la_single_capture_active s) (la_stream_block_outstanding s)) s.
Proof. done. Qed.

(** *** The configuration calls *)

Lemma config_wf_init : config_wf la_config_init.
Proof.
  pose proof cbs_256. pose proof max_freq_range.
  split; cbn; [lia | unfold LA_MAX_CHUNK_BYTES; lia | done | by exists 64 |].
  split; vm_compute; done.
Qed.

Lemma configure_frequency_keeps f : st_keeps la_inv (la_configure_frequency f).
Proof.
  intros s [Hc]. unfold la_configure_frequency, st_end. cbn.
  destruct f as [f|]; [|by split]. case_if; [|by split]. bool_prop.
  destruct Hc as [? ? ? ? [? ? ? ? ? ?]]. split; cbn; done.
Qed.

Lemma configure_chunk_keeps n : st_keeps la_inv (la_configure_chunk_bytes n).
Proof.
  intros s [Hc]. unfold la_configure_chunk_bytes, st_end. cbn.
  destruct n as [n|]; [|by split]. case_if; [|by split]. bool_prop.
  destruct Hc as [? ? ? ? [? ? ? ? ? ?]]. split; cbn; try done.
  split; cbn; try done; by apply Z.mod_divide; [lia|].
Qed.

Lemma configure_mask_keeps m :
  is_u32 (default 0 m) -> st_keeps la_inv (la_configure_channel_mask m).
Proof.
  intros Hm s [Hc]. unfold la_configure_channel_mask, st_end. cbn.
  destruct m as [m|]; [|by split]. case_if; [|by split]. bool_prop. cbn in Hm.
  destruct Hc as [? ? ? ? [? ? ? ? ? ?]].
  destruct (la_update_channel_config_wf ((la_config s) <| channel_mask := m |>))
    as (Hw & _ & Hf & Hb); [cbn|done|].
  { unfold is_u32 in Hm. split; [lia | by apply mask_test_range]. }
  split; cbn [la_config la_running la_capture_active la_block_outstanding la_stream_running
              la_single_capture_active la_stream_block_outstanding setf]; try done.
  split; rewrite ?Hf, ?Hb; done.
Qed.

Lemma stream_flags_keeps f :
  (forall s, la_core (f s) = la_core s) -> st_keeps la_inv (upd f).
Proof.
  intros Hf s Hs. apply (la_inv_core _ _ _ _ _ _ _ _ (core_refl s)) in Hs.
  eapply la_inv_core; [|exact Hs]. unfold view_is. cbn. by rewrite Hf.
Qed.

Ltac core_done Hk := apply (la_inv_core _ _ _ _ _ _ _ _ Hk); intuition (auto; congruence).

(** Each operation keeps the invariant. *)
Lemma la_step_inv s s' : la_inv s -> la_step s s' -> la_inv s'.
Proof.
  intros Hi Hstep.
  destruct Hstep as [s s' Hstep|s|s nn|s];
    [destruct Hstep as [s h|s original| | | |s pre post trig inv|s nn|s|s|s|s nn|s slot|s
                       |s slot];
     [refine (stream_flags_keeps (fun s0 : la_state HW => s0 <| hw := h |>) _ s Hi); done
     |refine (stream_flags_keeps _ _ s Hi); done
     |by apply configure_frequency_keeps|by apply configure_chunk_keeps
     |by apply configure_mask_keeps|..]|..];
    pose proof (core_refl s) as Hk;
    apply (la_inv_core _ _ _ _ _ _ _ _ Hk) in Hi; clear Hk; pose proof (core_refl s) as Hk.
  - destruct (single_start_core _ _ _ _ _ _ _ pre post trig inv s Hk) as [Hk' Hok].
    destruct (la_running s), (la_stream_running s), (la_single_capture_active s); cbn in *;
      core_done Hk'.
  - pose proof (single_result_core _ _ _ _ _ _ _ nn s Hk) as Hk'.
    core_done Hk'.
  - pose proof (single_release_core _ _ _ _ _ _ _ s Hk) as Hk'.
    core_done Hk'.
  - pose proof (single_stop_core _ _ _ _ _ _ _ s Hk) as Hk'.
    core_done Hk'.
  - destruct (chain_start_core _ _ _ _ _ _ _ s Hk) as [Hk' Hok].
    destruct (la_running s) eqn:?, (la_stream_running s) eqn:?, (la_single_capture_active s) eqn:?;
      cbn in *; core_done Hk'.
  - destruct (chain_take_core _ _ _ _ _ _ _ nn s Hk) as [Ho Hk'].
    destruct (st_val (la_capture_chain_take nn) s); core_done Hk'.
  - pose proof (chain_release_core _ _ _ _ _ _ _ slot s Hk) as Hk'. cbn beta in Hk'.
    destruct (la_running s && la_block_outstanding s) eqn:E; bool_prop;
      [destruct Hk' as [[] Hk']|]; core_done Hk'.
  - pose proof (chain_stop_core _ _ _ _ _ _ _ s Hk) as Hk'.
    core_done Hk'.
  - pose proof (stream_release_core _ _ _ _ _ _ _ slot s Hk) as Hk'.
    core_done Hk'.
  - destruct (stream_start_core _ _ _ _ _ _ _ s Hk) as [Hok Hk']. rewrite Hok in Hk'.
    destruct (la_running s) eqn:?, (la_stream_running s) eqn:?, (la_single_capture_active s) eqn:?;
      cbn in *; core_done Hk'.
  - destruct (stream_take_core _ _ _ _ _ _ _ nn s Hk) as [Ho Hk'].
    destruct (st_val (la_stream_take nn) s); core_done Hk'.
  - pose proof (stream_stop_core _ _ _ _ _ _ _ s Hk) as Hk'.
    destruct (la_stream_running s); core_done Hk'.
Qed.
End Inv.

(** ** The last capture in the circular buffer *)

(** The start computed by the bridge is the position [total - 1] samples before
    the tail, around the buffer. *)
Lemma raw_first_mod total cap tail :
  1 <= total <= cap -> 0 <= tail < cap -> cap < 2147483648 ->
  raw_first total cap tail = (tail - total + 1) mod cap.
Proof.
  intros Ht Htl Hc. unfold raw_first.
  rewrite (u32_small (total - 1)) by (unfold is_u32; lia).
  destruct (Z.ltb_spec tail (total - 1)).
  - rewrite u32_small by (unfold is_u32; lia).
    apply (Z.mod_unique_pos _ _ (-1)); lia.
  - rewrite u32_small by (unfold is_u32; lia).
    symmetry. apply Z.mod_small. lia.
Qed.

Lemma width_cases m : la_bytes_per_sample_mode m = 1 \/ la_bytes_per_sample_mode m = 2 \/
  la_bytes_per_sample_mode m = 4.
Proof. destruct m; auto. Qed.

Section Windows.
Context {CC : CaptureConsts} {CCO : CaptureConstsOk} {HW : Type} {CE : CaptureEngine HW}.

(** Samples of the current width the buffer holds. *)
Definition capacity (h : HW) : Z :=
  CAPTURE_BUFFER_SIZE / la_bytes_per_sample_mode (lastCaptureMode h).

(** The firmware's account of a finished capture: it has samples, fits the
    buffer and ends inside it. *)
Definition capture_ok (h : HW) : Prop :=
  1 <= last_total h <= capacity h /\ 0 <= lastTail h < capacity h.

(** Reference: the positions of the capture's samples, oldest first. *)
Definition capture_positions (h : HW) : list Z :=
  (fun i => (lastTail h - last_total h + 1 + i) mod capacity h) <$> seqZ 0 (last_total h).

Lemma width_divides m : (la_bytes_per_sample_mode m | CAPTURE_BUFFER_SIZE).
Proof.
  destruct cbs_256 as [k Hk]. rewrite Hk.
  destruct m; [exists (k * 256)|exists (k * 128)|exists (k * 64)]; cbn; lia.
Qed.

Lemma capacity_bound h : 0 <= capacity h < 2147483648.
Proof.
  pose proof cbs_range as Hr. unfold LA_MAX_CHUNK_BYTES in Hr. unfold capacity.
  destruct (width_cases (lastCaptureMode h)) as [-> | [-> | ->]]; zdivmod.
Qed.

(** [la_raw_high_count] counts exactly the samples of the last capture, taken
    around the circular buffer, in which the first captured pin is high. *)
Theorem raw_high_count_correct (s : la_state HW) :
  let h := hw s in
  let pin := mem_get (lastCapturePins h) 0 - INPUT_PIN_BASE in
  capture_ok h -> 0 <= pin < 32 ->
  st_val la_raw_high_count s =
  zlen (filter (fun p => Z.testbit (raw_sample (captureBuffer h)
                           (la_bytes_per_sample_mode (lastCaptureMode h)) p) pin = true)
          (capture_positions h)).
Proof.
  cbn zeta. intros [Ht Htl] Hp. unfold la_raw_high_count, st_val, st_gets, fst.
  pose proof (capacity_bound (hw s)) as Hc.
  fold (capacity (hw s)). rewrite raw_first_mod by lia.
  rewrite (fold_count (fun i => Z.land _ _ =? 0)); [|lia|rewrite length_seqZ; lia].
  unfold capture_positions, zlen. rewrite Z.add_0_l. f_equal. symmetry.
  apply filter_fmap_length. intros i Hi%elem_of_seqZ.
  rewrite u32_small, (u32_small (Z.shiftl _ _)).
  2:{ unfold is_u32. rewrite Z.shiftl_1_l. split; [apply Z.pow_nonneg; lia|].
      change 4294967296 with (2 ^ 32). apply Z.pow_lt_mono_r; lia. }
  2:{ unfold is_u32. pose proof (Z.mod_pos_bound (lastTail (hw s) - last_total (hw s) + 1)
        (capacity (hw s)) ltac:(lia)). lia. }
  rewrite land_bit_zero, negb_false_iff, Zplus_mod_idemp_l by lia. done.
Qed.

(** What a successful [la_capture_chain_take] handed out. *)
Lemma chain_take_inv (s s' : la_state HW) nn b :
  la_capture_chain_take nn s = (Some b, s') ->
  let h := hw s in let c := la_config s in
  lastCaptureMode h = mode c /\ IsCapturing h = false /\
  blk_samples b = last_total h /\
  blk_data b = u32 (raw_first (last_total h) (capacity h) (lastTail h) * bytes_per_sample c) /\
  blk_bytes b = u32 (last_total h * bytes_per_sample c) /\
  blk_sequence b = la_sequence s /\ blk_first_sample b = la_next_sample s.
Proof.
  unfold la_capture_chain_take, la_get_raw_capture, sdk, upd. st_unfold.
  case_if; [done|]. case_if; [done|]. fold (capacity (hw s)).
  destruct (mode_eqb _ _) eqn:Em; cbn [negb]; [|done].
  apply bool_decide_eq_true in Em.
  destruct (hw_call _ _) as [t h']. intros [= <- <-]. cbn. done.
Qed.

(** the block [la_capture_chain_take] hands out lies inside [captureBuffer]
    exactly when the capture did not wrap around the end of the buffer; when it
    wrapped, the window runs past the end. *)
Theorem chain_block_window (s s' : la_state HW) nn b :
  la_capture_chain_take nn s = (Some b, s') ->
  config_wf (la_config s) -> capture_ok (hw s) ->
  (blk_data b + blk_bytes b <= CAPTURE_BUFFER_SIZE <->
   last_total (hw s) - 1 <= lastTail (hw s)).
Proof.
  intros Htake Hc [Ht Htl].
  destruct (chain_take_inv _ _ _ _ Htake) as (Hm & _ & _ & Hd & Hb & _).
  pose proof (cf_channels _ Hc) as Hch. pose proof (cw_width _ Hch) as Hw.
  pose proof cbs_range as Hr. unfold LA_MAX_CHUNK_BYTES in Hr.
  pose proof (capacity_bound (hw s)) as Hcb.
  destruct (width_divides (mode (la_config s))) as [k Hk].
  assert (capacity (hw s) = k) as Hcap.
  { unfold capacity. rewrite Hm, Hk. apply Z.div_mul.
    by destruct (width_cases (mode (la_config s))) as [-> | [-> | ->]]. }
  rewrite Hcap in *. rewrite Hd, Hb, raw_first_mod, Hw by lia.
  pose proof (Z.mod_pos_bound (lastTail (hw s) - last_total (hw s) + 1) k ltac:(lia)) as Hf.
  assert ((lastTail (hw s) - last_total (hw s) + 1) mod k =
          if bool_decide (last_total (hw s) - 1 <= lastTail (hw s))
          then lastTail (hw s) - last_total (hw s) + 1
          else lastTail (hw s) - last_total (hw s) + 1 + k) as Hmod.
  { case_bool_decide; [apply Z.mod_small; lia|].
    symmetry. apply (Z.mod_unique_pos _ _ (-1)); lia. }
  rewrite Hmod in Hf |- *.
  destruct (width_cases (mode (la_config s))) as [Hw1 | [Hw1 | Hw1]]; rewrite Hw1 in *;
    rewrite !u32_small by (unfold is_u32; case_bool_decide; lia);
    case_bool_decide; lia.
Qed.

End Windows.

Section Sessions.
Context {CC : CaptureConsts} {CCO : CaptureConstsOk} {HW : Type} {CE : CaptureEngine HW}.

(** C5: in every state the bridge can reach, from power-up and through any
    interleaving of its operations with the hardware and the DMA interrupt, the
    configuration is well formed, at most one of the three sessions runs, and
    blocks and captures belong to their running session. *)
Theorem la_reachable_inv (s : la_state HW) : la_reachable s -> la_inv s.
Proof.
  intros [h Hr].
  assert (la_inv (la_init h)) as H0 by (split; [apply config_wf_init|done..]).
  induction Hr as [|s s1 s2 Hs Hr IH]; [done|].
  apply IH. by eapply la_step_inv.
Qed.

(** [la_configure_channel_mask] on every branch. While a session runs, or
    for an empty mask or one beyond the 24 channels, nothing changes and the
    current mask is returned. Otherwise the mask is stored, the channel list is
    the enabled channels in increasing order, and mode and sample width are those
    of the highest enabled channel; rate and chunk size are kept. *)
Theorem configure_channel_mask_spec (s s' : la_state HW) m v :
  la_inv s -> is_u32 m ->
  la_configure_channel_mask (Some m) s = (v, s') ->
  v = channel_mask (la_config s') /\
  if negb (la_is_busy s) && (0 <? m) && (m <? 2 ^ 24) then
    let c := la_config s' in
    s' = s <| la_config := c |> /\ v = m /\ channel_count c = zlen (enabled_channels m) /\
    take (Z.to_nat (channel_count c)) (channels c) = enabled_channels m /\
    mode c = mode_of_highest (default 0 (last (enabled_channels m))) /\
    bytes_per_sample c = la_bytes_per_sample_mode (mode c) /\
    frequency c = frequency (la_config s) /\ chunk_bytes c = chunk_bytes (la_config s)
  else s' = s.
Proof.
  intros Hi Hm. unfold la_configure_channel_mask. intros [= <- <-]. split; [done|].
  assert ((negb (m =? 0) && (Z.land m (u32 (Z.lnot (Z.shiftl 1 LA_MAX_CHANNELS - 1))) =? 0))
          = (0 <? m) && (m <? 2 ^ 24)) as ->.
  { unfold is_u32 in Hm. destruct (Z.eqb_spec m 0) as [->|Hm0]; [done|].
    destruct (Z.ltb_spec 0 m); [|lia]. cbn [negb andb]. apply eq_true_iff_eq.
    rewrite Z.eqb_eq, Z.ltb_lt. split; [by apply mask_test_range|].
    intros Hlt. change (u32 _) with (Z.shiftl 255 24). apply Z.bits_inj'. intros n Hn.
    rewrite Z.land_spec, Z.bits_0, Z.shiftl_spec by lia.
    destruct (decide (n < 24)); [rewrite (Z.testbit_neg_r 255) by lia; apply andb_false_r|].
    rewrite (Z.bits_above_log2 m); [done|lia|].
    apply Z.log2_lt_pow2; [lia|]. eapply Z.lt_le_trans; [done|]. apply Z.pow_le_mono_r; lia. }
  rewrite <- andb_assoc. case_if; [|done]. bool_prop.
  destruct Hi as [[? ? ? ? [? ? ? ? ? ?]] _ _ _ _ _ _].
  destruct (la_update_channel_config_wf ((la_config s) <| channel_mask := m |>))
    as ([Wm Wl Wc Wt Wmo Ww] & Hme & Hf & Hb); [cbn; lia|done|].
  cbn [la_config setf] in *. rewrite Hme in *. cbn in Wc, Wt, Wmo, Hf, Hb. done.
Qed.

(** While a session runs no configuration call has any effect: the state is
    unchanged and the reply is the value in force. *)
Theorem busy_config_frozen (s : la_state HW) (f n m : option Z) :
  la_is_busy s = true ->
  la_configure_frequency f s = (frequency (la_config s), s) /\
  la_configure_chunk_bytes n s = (chunk_bytes (la_config s), s) /\
  la_configure_channel_mask m s = (channel_mask (la_config s), s).
Proof.
  intros Hb. unfold la_configure_frequency, la_configure_chunk_bytes, la_configure_channel_mask.
  rewrite Hb. by destruct f, n, m.
Qed.
End Sessions.

(** ** Witnesses *)

#[export] Instance demo_consts_ok : CaptureConstsOk.
Proof. split; [done | by exists 64 | done]. Qed.

(** A finished capture of 4 one-byte samples that wrapped: tail at position 1. *)
Definition demo_wrapped : demo_hw :=
  demo_hw0 <| dm_post := 4 |> <| dm_tail := 1 |>
           <| dm_buf := [1; 0] ++ replicate (Z.to_nat 16380) 0 ++ [1; 1] |>.
Definition demo_chain : la_state demo_hw :=
  (la_init demo_wrapped) <| la_running := true |> <| la_capture_active := true |>.

Lemma raw_high_count_correct_witness : st_val la_raw_high_count demo_chain = 3.
Proof.
  rewrite (raw_high_count_correct demo_chain).
  - vm_compute. reflexivity.
  - split; vm_compute; split; congruence.
  - vm_compute. split; congruence.
Defined.

Lemma chain_block_window_witness :
  let '(o, s') := la_capture_chain_take true demo_chain in
  exists b, o = Some b /\
    (blk_data b + blk_bytes b <= CAPTURE_BUFFER_SIZE <->
     last_total demo_wrapped - 1 <= lastTail demo_wrapped).
Proof.
  destruct (la_capture_chain_take true demo_chain) as [[b|] s'] eqn:E; [|vm_compute in E; congruence].
  exists b. split; [reflexivity|].
  apply (chain_block_window demo_chain s' true b E).
  - apply config_wf_init.
  - split; vm_compute; split; congruence.
Defined.

Lemma la_reachable_inv_witness :
  la_reachable (st_end la_stream_start demo0) /\ la_inv (st_end la_stream_start demo0).
Proof.
  assert (la_reachable (st_end la_stream_start demo0)) as H
    by (exists demo_hw0; eapply rtc_l; [apply step_stream_start | apply rtc_refl]).
  split; [exact H | exact (la_reachable_inv _ H)].
Defined.

Lemma demo0_inv : la_inv demo0.
Proof. split; [apply config_wf_init|done..]. Qed.

Lemma configure_channel_mask_spec_witness :
  let '(v, s') := la_configure_channel_mask (Some 131073) demo0 in
  v = 131073 /\ mode (la_config s') = MODE_24_CHANNEL /\ channel_count (la_config s') = 2.
Proof.
  destruct (la_configure_channel_mask (Some 131073) demo0) as [v s'] eqn:E.
  destruct (configure_channel_mask_spec demo0 s' 131073 v demo0_inv) as [_ H];
    [vm_compute; split; congruence | exact E |].
  destruct H as (_ & Hv & Hn & _ & Hm & _). split; [exact Hv|].
  rewrite Hm, Hn. vm_compute. split; reflexivity.
Defined.

Lemma busy_config_frozen_witness :
  la_configure_frequency (Some 5) demo_chain = (1000, demo_chain).
Proof.
  apply (busy_config_frozen demo_chain (Some 5) None None). reflexivity.
Defined.
