(* ===== verification/LaStream.v ===== *)
(** * LaStream: continuous streaming out of the DMA ring

    The theorems about the streaming half of
    src/src/logic_analyzer_bridge.c: the progress read from the DMA registers is
    a sound, monotone lower bound of the real one; a block taken from the ring is
    exactly the next piece of the sampled stream, as long as the DMA has not
    lapped it; and the overrun count tells exactly how many chunks were skipped. *)

From stdpp Require Import sorting.
From S2P Require Import Prelude LaBridge DemoEngine LaBridgeInv.

(** ** The ping-pong DMA, as the RP2040 documents it *)

(** Channel 0 runs the even passes over the buffer, channel 1 the odd ones. *)
Definition runs_pass (ch : dma_channel) (pass : Z) : bool :=
  match ch with
  | dmaPingPong0 => Z.even pass
  | dmaPingPong1 => Z.odd pass
  end.

(** The calls that only read the hardware, while time goes on. *)
Definition is_read (c : sdk_call) : bool :=
  match c with
  | dma_channel_is_busy _ | dma_transfer_count _ | time_us_64 => true
  | _ => false
  end.

(** [T h] transfers have been made in state [h], [N] of them to a pass: reading
    does not undo transfers, a busy channel is the one whose pass is running, and
    the transfer-count register of the running channel holds what is left of the
    pass (a halted channel's holds anything up to a full pass). *)
Class StreamDma `{CE : CaptureEngine HW} (T : HW -> Z) (N : Z) : Prop := {
  dma_pass_pos : 0 < N;
  dma_nonneg : forall h, 0 <= T h;
  dma_monotone : forall c h, is_read c = true -> T h <= T (snd (hw_call c h));
  dma_busy : forall ch h,
    fst (hw_call (dma_channel_is_busy ch) h) <> 0 -> runs_pass ch (T h / N) = true;
  dma_count_range : forall ch h, 0 <= fst (hw_call (dma_transfer_count ch) h) <= N;
  dma_count : forall ch h, runs_pass ch (T h / N) = true ->
    fst (hw_call (dma_transfer_count ch) h) = N - T h mod N
}.

Section Produced.
Context {CC : CaptureConsts} {CCO : CaptureConstsOk} {HW : Type} {CE : CaptureEngine HW}.
Implicit Types s : la_state HW.

Definition pass_transfers (c : la_config_t) : Z := CAPTURE_BUFFER_SIZE / bytes_per_sample c.

(** What the bridge relies on between calls: the interrupt has run at most once
    per completed pass, and the recorded progress was real. *)
Record progress_ok (T : HW -> Z) (N : Z) s : Prop := {
  po_passes : 0 <= la_stream_completed_passes s <= T (hw s) / N;
  po_last : 0 <= la_stream_last_produced_bytes s <= T (hw s) * bytes_per_sample (la_config s)
}.

Lemma config_width c : config_wf c ->
  (bytes_per_sample c = 1 \/ bytes_per_sample c = 2 \/ bytes_per_sample c = 4) /\
  pass_transfers c * bytes_per_sample c = CAPTURE_BUFFER_SIZE /\
  0 < pass_transfers c < 2147483648.
Proof.
  intros [_ _ _ _ [_ _ _ _ _ Hw]]. unfold pass_transfers. rewrite Hw.
  destruct (width_divides (mode c)) as [k Hk]. pose proof cbs_range as Hr.
  unfold LA_MAX_CHUNK_BYTES in Hr.
  destruct (width_cases (mode c)) as [Hc | [Hc | Hc]]; rewrite Hc in *;
    rewrite Hk in *; rewrite Z.div_mul by lia; lia.
Qed.

(** The one read of the registers: [passes] completed when the busy test was
    made at [h0], the count read later at [h1] from the same channel. *)
Lemma dma_read_bound T N `{!StreamDma T N} ch h0 h1 r passes :
  T h0 <= T h1 -> 0 <= passes <= T h0 / N ->
  runs_pass ch (T h0 / N) = true -> fst (hw_call (dma_transfer_count ch) h1) = r ->
  passes * N + (N - r) <= T h1.
Proof.
  intros H01 Hp Hrun <-. pose proof dma_pass_pos as HN.
  pose proof (Z.div_le_mono _ _ N HN H01) as Hdiv.
  pose proof (Z.div_mod (T h1) N ltac:(lia)) as Hdm.
  destruct (runs_pass ch (T h1 / N)) eqn:E.
  - rewrite dma_count by done. nia.
  - pose proof (dma_count_range ch h1) as Hr.
    assert (T h0 / N <> T h1 / N) by congruence.
    pose proof (Z.mod_pos_bound (T h1) N HN). nia.
Qed.

Lemma produced_bytes_range s p s' :
  is_u64 (la_stream_last_produced_bytes s) -> la_stream_produced_bytes s = (p, s') ->
  is_u64 p /\ la_stream_last_produced_bytes s' = p /\ la_stream_last_produced_bytes s <= p.
Proof.
  intros Hl. unfold la_stream_produced_bytes, sdk, upd. st_unfold.
  destruct (hw_call _ (hw s)) as [b0 h1]. cbn.
  assert (forall x (s0 : la_state HW),
    la_stream_last_produced_bytes s0 = la_stream_last_produced_bytes s ->
    (if u64 x <? la_stream_last_produced_bytes s
     then fun s => (la_stream_last_produced_bytes s0, s)
     else fun s => (u64 x, s <| la_stream_last_produced_bytes := u64 x |>)) s0 = (p, s') ->
    is_u64 p /\ la_stream_last_produced_bytes s' = p /\ la_stream_last_produced_bytes s <= p)
    as Hend.
  { intros x s0 H0. destruct (Z.ltb_spec (u64 x) (la_stream_last_produced_bytes s)).
    - intros [= <- <-]. rewrite H0. done.
    - intros [= <- <-]. split; [apply u64_range | done]. }
  destruct (negb (b0 =? 0)); cbn.
  - destruct (hw_call _ h1) as [r h2]. intros E. eapply Hend; [|exact E]. done.
  - destruct (hw_call _ h1) as [b1 h2]. cbn. destruct (negb (b1 =? 0)); cbn.
    + destruct (hw_call _ h2) as [r h3]. intros E. eapply Hend; [|exact E]. done.
    + intros [= <- <-]. done.
Qed.

(** The final computation, from a count [r] read at transfer total [T1]. *)
Lemma produced_value c passes r T1 :
  config_wf c -> 0 <= passes -> 0 <= r <= pass_transfers c ->
  passes * pass_transfers c + (pass_transfers c - r) <= T1 ->
  T1 * bytes_per_sample c < 18446744073709551616 ->
  u64 (passes * CAPTURE_BUFFER_SIZE + u32 (pass_transfers c - u32 r) * bytes_per_sample c) =
  (passes * pass_transfers c + (pass_transfers c - r)) * bytes_per_sample c.
Proof.
  intros Hc Hp Hr Hb Ht. destruct (config_width c Hc) as (Hw & Hbuf & HN).
  rewrite (u32_small r), (u32_small (pass_transfers c - r)) by (unfold is_u32; lia).
  rewrite <- Hbuf, u64_small; [ring|].
  unfold is_u64. destruct Hw as [Hw | [Hw | Hw]]; rewrite Hw in *; nia.
Qed.

(** The two ways through [la_stream_produced_bytes]: no channel busy, or a channel
    found busy at [h0] and its count [r] read at [h1]. *)
Lemma produced_paths T N `{!StreamDma T N} s p s' :
  la_stream_produced_bytes s = (p, s') ->
  let c := la_config s in
  T (hw s) <= T (hw s') /\
  (p = la_stream_last_produced_bytes s \/
   exists ch h0 h1 r,
     T (hw s) <= T h0 <= T h1 /\ T h1 <= T (hw s') /\
     fst (hw_call (dma_channel_is_busy ch) h0) <> 0 /\
     fst (hw_call (dma_transfer_count ch) h1) = r /\
     p = Z.max (la_stream_last_produced_bytes s)
           (u64 (la_stream_completed_passes s * CAPTURE_BUFFER_SIZE +
                 u32 (pass_transfers c - u32 r) * bytes_per_sample c))).
Proof.
  unfold la_stream_produced_bytes, sdk, upd. st_unfold. fold (pass_transfers (la_config s)).
  assert (forall ch h0 h1, T (hw s) <= T h0 <= T h1 ->
    fst (hw_call (dma_channel_is_busy ch) h0) <> 0 ->
    (let (r, h) := hw_call (dma_transfer_count ch) h1 in
     (let x := u64 (la_stream_completed_passes s * CAPTURE_BUFFER_SIZE +
                 u32 (pass_transfers (la_config s) - u32 r) * bytes_per_sample (la_config s)) in
      if x <? la_stream_last_produced_bytes s
      then fun s1 => (la_stream_last_produced_bytes s, s1)
      else fun s1 => (x, s1 <| la_stream_last_produced_bytes := x |>)) (s <| hw := h |>)) = (p, s') ->
    T (hw s) <= T (hw s') /\
    exists r, T h1 <= T (hw s') /\ fst (hw_call (dma_transfer_count ch) h1) = r /\
      p = Z.max (la_stream_last_produced_bytes s)
            (u64 (la_stream_completed_passes s * CAPTURE_BUFFER_SIZE +
              u32 (pass_transfers (la_config s) - u32 r) * bytes_per_sample (la_config s))))
    as Hcount.
  { intros ch h0 h1 H01 Hb. pose proof (dma_monotone (dma_transfer_count ch) h1 eq_refl) as M.
    destruct (hw_call _ h1) as [r h]. cbn in M |- *.
    destruct (Z.ltb_spec (u64 (la_stream_completed_passes s * CAPTURE_BUFFER_SIZE +
                 u32 (pass_transfers (la_config s) - u32 r) * bytes_per_sample (la_config s)))
                (la_stream_last_produced_bytes s));
      intros [= <- <-]; cbn; (split; [lia|]); exists r; split_and!; try done; lia. }
  pose proof (dma_monotone (dma_channel_is_busy dmaPingPong0) (hw s) eq_refl) as M0.
  pose proof (Hcount dmaPingPong0 (hw s)) as H0.
  destruct (hw_call (dma_channel_is_busy dmaPingPong0) (hw s)) as [b0 h1] eqn:E0.
  cbn in M0, H0 |- *. destruct (Z.eqb_spec b0 0) as [->|Hb0]; cbn.
  - pose proof (dma_monotone (dma_channel_is_busy dmaPingPong1) h1 eq_refl) as M1.
    pose proof (Hcount dmaPingPong1 h1) as H1.
    destruct (hw_call (dma_channel_is_busy dmaPingPong1) h1) as [b1 h2] eqn:E1.
    cbn in M1, H1 |- *. destruct (Z.eqb_spec b1 0) as [->|Hb1]; cbn.
    + intros [= <- <-]. cbn. split; [lia | by left].
    + intros Hr. destruct (H1 h2 ltac:(lia) Hb1) as (? & r & ? & ? & ?);
        [revert Hr; by destruct (hw_call (dma_transfer_count dmaPingPong1) h2)|].
      split; [done|]. right. exists dmaPingPong1, h1, h2, r. rewrite E1. split_and!; try done; lia.
  - intros Hr. destruct (H0 h1 ltac:(lia) Hb0) as (? & r & ? & ? & ?);
      [revert Hr; by destruct (hw_call (dma_transfer_count dmaPingPong0) h1)|].
    split; [done|]. right. exists dmaPingPong0, (hw s), h1, r. rewrite E0. split_and!; try done; lia.
Qed.

(** The progress read from the registers is real and never goes back. *)
Lemma produced_bytes_sound T s p s' :
  let c := la_config s in
  config_wf c -> StreamDma T (pass_transfers c) -> progress_ok T (pass_transfers c) s ->
  la_stream_produced_bytes s = (p, s') ->
  T (hw s') * bytes_per_sample c < 18446744073709551616 ->
  la_stream_last_produced_bytes s <= p <= T (hw s') * bytes_per_sample c /\
  la_stream_last_produced_bytes s' = p /\ T (hw s) <= T (hw s').
Proof.
  cbn zeta. intros Hc HD [Hp Hl] Hrun Hbig.
  destruct (config_width _ Hc) as (Hw & Hbuf & HN).
  destruct (produced_paths T _ s p s' Hrun) as [Hmono Hpath].
  assert (forall x y, x <= y ->
    x * bytes_per_sample (la_config s) <= y * bytes_per_sample (la_config s)) as Hmul
    by (destruct Hw as [-> | [-> | ->]]; lia).
  pose proof (Hmul _ _ Hmono).
  destruct (produced_bytes_range s p s') as (_ & Hlast & Hge); [unfold is_u64; lia|done|].
  split_and!; [done| |done|done].
  destruct Hpath as [->|(ch & h0 & h1 & r & H0 & H1 & Hb & Hr & ->)]; [lia|].
  apply Z.max_lub; [lia|].
  pose proof (Z.div_le_mono _ _ _ (proj1 HN) (proj1 H0)).
  assert (la_stream_completed_passes s * pass_transfers (la_config s) +
          (pass_transfers (la_config s) - r) <= T h1) as Hbound.
  { eapply (dma_read_bound T _ ch h0 h1 r); [exact (proj2 H0)|lia|by apply dma_busy|done]. }
  pose proof (dma_count_range ch h1) as Hrange. rewrite Hr in Hrange.
  rewrite (produced_value _ _ _ (T h1)); [|done|lia|done|done|]; [etrans; apply Hmul; done|].
  eapply Z.le_lt_trans; [|exact Hbig]. by apply Hmul.
Qed.
End Produced.

(** ** Taking a block *)

Section Take.
Context {CC : CaptureConsts} {CCO : CaptureConstsOk} {HW : Type} {CE : CaptureEngine HW}.
Implicit Types s : la_state HW.

Definition slot_count (c : la_config_t) : Z := CAPTURE_BUFFER_SIZE / chunk_bytes c.

(** The chunk a take hands out when [completed] chunks are in: the next one, or
    the oldest that cannot be under the DMA if the reader fell behind. *)
Definition chosen_chunk (c : la_config_t) (completed next : Z) : Z :=
  if slot_count c <=? completed - next then completed - slot_count c + 1 else next.

Lemma slots_chunk c : config_wf c -> slot_count c * chunk_bytes c = CAPTURE_BUFFER_SIZE /\
  2 <= slot_count c < 2147483648.
Proof.
  intros [_ Hcb [k Hk] _ _]. unfold slot_count. pose proof cbs_range as Hr.
  unfold LA_MAX_CHUNK_BYTES in *. rewrite Hk in *. rewrite Z.div_mul by lia. nia.
Qed.

Lemma produced_bytes_frame s p s' :
  la_stream_produced_bytes s = (p, s') ->
  la_config s' = la_config s /\ la_stream_running s' = la_stream_running s /\
  la_stream_next_chunk s' = la_stream_next_chunk s /\
  la_stream_overruns s' = la_stream_overruns s.
Proof.
  set (f := fun s => (la_config s, la_stream_running s, la_stream_next_chunk s,
                      la_stream_overruns s)).
  assert (st_keeps (view_is f (f s)) la_stream_produced_bytes) as H
    by (unfold la_stream_produced_bytes; keeps).
  intros E. specialize (H s eq_refl). unfold st_end in H. rewrite E in H.
  unfold view_is, f in H. cbn in H. by injection H.
Qed.

(** A successful take, in terms of the progress read. *)
Lemma stream_take_inv s s' nn b :
  config_wf (la_config s) -> is_u64 (la_stream_last_produced_bytes s) ->
  0 <= la_stream_next_chunk s -> is_u32 (la_stream_overruns s) ->
  la_stream_take nn s = (Some b, s') ->
  exists p s1, la_stream_produced_bytes s = (p, s1) /\
  let c := la_config s in
  let completed := p / chunk_bytes c in
  let next := la_stream_next_chunk s in
  let k := chosen_chunk c completed next in
  la_stream_running s = true /\ next <= k < completed /\
  blk_data b = k mod slot_count c * chunk_bytes c /\
  blk_bytes b = chunk_bytes c /\ blk_samples b = chunk_bytes c / bytes_per_sample c /\
  blk_sequence b = u32 k /\ blk_first_sample b = u64 (k * blk_samples b) /\
  blk_overruns b = la_stream_overruns s' /\
  la_stream_overruns s' = u32 (la_stream_overruns s + u32 (k - next)) /\
  la_stream_next_chunk s' = k + 1 /\ la_stream_last_produced_bytes s' = p /\
  la_config s' = c /\ la_stream_running s' = true /\
  hw s' = snd (hw_call time_us_64 (hw s1)).
Proof.
  intros Hc Hl Hn Ho. unfold la_stream_take. st_unfold.
  destruct (la_stream_running s) eqn:Er, nn, (la_stream_block_outstanding s) eqn:Eo;
    cbn [negb orb]; try done.
  destruct (la_stream_produced_bytes s) as [p s1] eqn:Ep. cbn.
  destruct (produced_bytes_range s p s1 Hl Ep) as (Hp & Hlast & _).
  destruct (produced_bytes_frame s p s1 Ep) as (Fc & Fr & Fn & Fo).
  destruct (slots_chunk _ Hc) as (Hslots & Hsl). destruct (cf_chunk _ Hc) as [Hcb0 Hcb1].
  set (c := la_config s) in *. set (completed := p / chunk_bytes c) in *.
  assert (0 <= completed * 4 <= p) as Hcomp.
  { unfold completed, is_u64 in *. destruct (cf_chunk_4 _ Hc) as [q Hq]. fold c in Hq.
    pose proof (Z.div_pos p (chunk_bytes c) ltac:(lia) ltac:(lia)).
    pose proof (Z.mul_div_le p (chunk_bytes c) ltac:(lia)).
    pose proof (Z.mul_le_mono_nonneg_r 4 (chunk_bytes c) (p / chunk_bytes c) ltac:(lia) ltac:(lia)).
    lia. }
  rewrite Z.geb_leb. destruct (Z.leb_spec completed (la_stream_next_chunk s)) as [|Hlt];
    cbn; [done|].
  unfold is_u64 in Hp. fold (slot_count c).
  rewrite (u64_small (completed - _)) by (unfold is_u64; lia). rewrite Z.geb_leb.
  intros Hrun. exists p, s1. split; [done|]. cbn zeta. fold c. fold completed.
  unfold chosen_chunk.
  assert (forall z, 0 <= z mod slot_count c * chunk_bytes c < 4294967296) as Hoff.
  { intros z. pose proof (Z.mod_pos_bound z (slot_count c) ltac:(lia)).
    pose proof cbs_range. nia. }
  revert Hrun. unfold upd, sdk. st_unfold.
  destruct (Z.leb_spec (slot_count c) (completed - la_stream_next_chunk s)); cbn.
  - rewrite (u64_small (completed - slot_count c + 1)) by (unfold is_u64; lia).
    destruct (hw_call time_us_64 (hw s1)) as [t h2]. intros [= <- <-]; cbn.
    rewrite (u64_small (completed - slot_count c + 1 + 1)) by (unfold is_u64; lia).
    rewrite (u32_small (_ mod _ * _)) by apply Hoff.
    rewrite Fo, Fc, Fr. split_and!; try done; try lia.
  - destruct (hw_call time_us_64 (hw s1)) as [t h2]. intros [= <- <-]; cbn.
    rewrite Fn, Fo, Fc, Fr.
    rewrite (u64_small (la_stream_next_chunk s + 1)) by (unfold is_u64; lia).
    rewrite (u32_small (_ mod _ * _)) by apply Hoff.
    rewrite Z.sub_diag. change (u32 0) with 0. rewrite Z.add_0_r, (u32_small (la_stream_overruns s)) by done.
    split_and!; try done; try lia.
Qed.

(** The fields of a taken block fit the header of a frame. *)
Lemma stream_take_fields s s' nn b :
  is_u32 (la_stream_overruns s) -> la_stream_take nn s = (Some b, s') ->
  is_u32 (blk_sequence b) /\ is_u32 (blk_overruns b) /\ is_u64 (blk_first_sample b) /\
  blk_samples b = chunk_bytes (la_config s) / bytes_per_sample (la_config s) /\
  la_config s' = la_config s /\ la_stream_block_outstanding s' = true.
Proof.
  intros Ho. unfold la_stream_take. st_unfold. case_if; [done|].
  destruct (la_stream_produced_bytes s) as [p s1] eqn:Ep.
  destruct (produced_bytes_frame s p s1 Ep) as (Fc & _ & _ & Fo). cbn.
  case_if; [done|]. unfold upd, sdk. st_unfold.
  case_if; cbn; destruct (hw_call time_us_64 (hw s1)); intros [= <- <-]; cbn;
    rewrite ?Fo; split_and!; auto with fw.
Qed.
End Take.

(** ** The ring holds the tail of the sampled stream *)

Section Delivery.
Context {CC : CaptureConsts} {CCO : CaptureConstsOk} {HW : Type} {CE : CaptureEngine HW}.
Implicit Types s : la_state HW.

(** [X p] is byte [p] of everything sampled since the start. After [n] bytes the
    ring holds the last [CAPTURE_BUFFER_SIZE] of them, byte [p] at [p] modulo the
    size. *)
Definition ring_image (X : Z -> Z) (n : Z) (buf : list Z) : Prop :=
  forall p, 0 <= p -> n - CAPTURE_BUFFER_SIZE <= p < n ->
  buf !! Z.to_nat (p mod CAPTURE_BUFFER_SIZE) = Some (X p).

(** Chunk [k] of the stream. *)
Definition stream_chunk (X : Z -> Z) (chunk k : Z) : list Z := X <$> seqZ (k * chunk) chunk.

(** A chunk that is in and not yet lapped is read back from its slot. *)
Lemma ring_chunk X n buf c k :
  config_wf c -> ring_image X n buf -> 0 <= k -> (k + 1) * chunk_bytes c <= n ->
  n <= (k + slot_count c) * chunk_bytes c ->
  mem_read (k mod slot_count c * chunk_bytes c) (chunk_bytes c) buf =
  stream_chunk X (chunk_bytes c) k.
Proof.
  intros Hc Hring Hk Hin Hlap.
  destruct (slots_chunk _ Hc) as (Hs & Hs2). pose proof (cf_chunk _ Hc) as [Hcb _].
  assert (0 < slot_count c) as Hs0 by lia.
  assert (forall i, 0 <= i < chunk_bytes c ->
    buf !! Z.to_nat (k mod slot_count c * chunk_bytes c + i) =
    Some (X (k * chunk_bytes c + i))) as Hat.
  { intros i Hi. rewrite <- (Hring (k * chunk_bytes c + i)) by nia. do 2 f_equal.
    pose proof (Z_div_mod_eq_full k (slot_count c)) as Hdm.
    pose proof (Z.mod_pos_bound k _ Hs0).
    apply (Z.mod_unique_pos _ _ (k / slot_count c)); nia. }
  pose proof (Z.mod_pos_bound k _ Hs0) as Hm.
  apply list_eq. intros i. unfold stream_chunk. rewrite list_lookup_fmap.
  destruct (decide (i < Z.to_nat (chunk_bytes c))%nat) as [Hi|Hi].
  - rewrite mem_read_lookup, lookup_seqZ_lt by lia. cbn.
    rewrite <- Hat by lia. f_equal. nia.
  - rewrite lookup_seqZ_ge by lia. apply lookup_ge_None_2.
    unfold mem_read. rewrite length_take. lia.
Qed.

(** Block [b], taken between [s] and [s'], is chunk [k] of the stream [X]. *)
Record block_is_chunk (T : HW -> Z) (X : Z -> Z) s s' (b : la_analysis_block_t) (k : Z) : Prop := {
  bc_order : la_stream_next_chunk s <= k;
  bc_next : la_stream_next_chunk s' = k + 1;
  bc_sequence : blk_sequence b = u32 k;
  bc_first : blk_first_sample b * bytes_per_sample (la_config s) = k * chunk_bytes (la_config s);
  bc_samples : blk_samples b * bytes_per_sample (la_config s) = blk_bytes b;
  bc_bytes : blk_bytes b = chunk_bytes (la_config s);
  bc_low : 0 <= blk_data b;
  bc_high : blk_data b + blk_bytes b <= CAPTURE_BUFFER_SIZE;
  bc_written : (k + 1) * chunk_bytes (la_config s) <= la_stream_last_produced_bytes s'
      < (k + slot_count (la_config s)) * chunk_bytes (la_config s);
  bc_real : la_stream_last_produced_bytes s' <= T (hw s') * bytes_per_sample (la_config s);
  bc_read : forall h, T (hw s') <= T h ->
      ring_image X (T h * bytes_per_sample (la_config s)) (captureBuffer h) ->
      T h * bytes_per_sample (la_config s) <=
        (k + slot_count (la_config s)) * chunk_bytes (la_config s) ->
      mem_read (blk_data b) (blk_bytes b) (captureBuffer h) =
      stream_chunk X (chunk_bytes (la_config s)) k
}.

(** The DMA and the reader's counters are as a running stream keeps them. *)
Record stream_ok (T : HW -> Z) s : Prop := {
  so_config : config_wf (la_config s);
  so_dma : StreamDma T (pass_transfers (la_config s));
  so_progress : progress_ok T (pass_transfers (la_config s)) s;
  so_next : 0 <= la_stream_next_chunk s;
  so_overruns : is_u32 (la_stream_overruns s)
}.

Lemma stream_take_chunk (T : HW -> Z) (X : Z -> Z) s s' nn b :
  stream_ok T s -> la_stream_take nn s = (Some b, s') ->
  T (hw s') * bytes_per_sample (la_config s) < 18446744073709551616 ->
  exists k, block_is_chunk T X s s' b k.
Proof.
  intros [Hc HD Hpo Hn Ho] Htake Hbig.
  destruct (config_width _ Hc) as (Hw & Hbuf & HN).
  destruct (slots_chunk _ Hc) as (Hs & Hs2). pose proof (cf_chunk _ Hc) as [Hcb _].
  assert (0 < slot_count (la_config s)) as Hs0 by lia.
  assert (T (hw s) <= T (hw s') -> is_u64 (la_stream_last_produced_bytes s)) as Hu.
  { intros. destruct Hpo as [_ ?]. unfold is_u64. destruct Hw as [Hw|[Hw|Hw]]; rewrite Hw in *; lia. }
  assert (T (hw s) <= T (hw s')) as Hmono.
  { revert Htake. unfold la_stream_take. st_unfold. case_if; [done|].
    destruct (la_stream_produced_bytes s) as [p s1] eqn:Ep. cbn.
    destruct (produced_paths T _ s p s1 Ep) as [M _].
    pose proof (dma_monotone time_us_64 (hw s1) eq_refl) as M1.
    case_if; [done|]. unfold upd, sdk. st_unfold.
    case_if; cbn; destruct (hw_call time_us_64 (hw s1)); cbn in M1; intros [= _ <-]; cbn; lia. }
  destruct (stream_take_inv s s' nn b Hc (Hu Hmono) Hn Ho Htake)
    as (p & s1 & Ep & Hrun & Hk & Hd & Hby & Hsm & Hsq & Hfs & _ & _ & Hnx & Hlp & _ & _ & Hh).
  set (k := chosen_chunk (la_config s) (p / chunk_bytes (la_config s)) (la_stream_next_chunk s)) in *.
  pose proof (dma_monotone time_us_64 (hw s1) eq_refl) as M1. rewrite <- Hh in M1.
  assert (forall x y, x <= y ->
    x * bytes_per_sample (la_config s) <= y * bytes_per_sample (la_config s)) as Hmul
    by (destruct Hw as [-> | [-> | ->]]; lia).
  destruct (produced_bytes_sound T s p s1 Hc HD Hpo Ep) as (Hp & _ & _).
  { eapply Z.le_lt_trans; [by apply Hmul | done]. }
  pose proof (Hmul _ _ M1) as Hm1.
  pose proof (Z.div_mod p (chunk_bytes (la_config s)) ltac:(lia)) as Hdm.
  pose proof (Z.mod_pos_bound p (chunk_bytes (la_config s)) ltac:(lia)) as Hmb.
  assert ((k + 1) * chunk_bytes (la_config s) <= p < (k + slot_count (la_config s)) * chunk_bytes (la_config s))
    as Hwin.
  { split; [nia|]. assert (p / chunk_bytes (la_config s) + 1 <= k + slot_count (la_config s)); [|nia].
    unfold k, chosen_chunk. destruct (Z.leb_spec (slot_count (la_config s))
      (p / chunk_bytes (la_config s) - la_stream_next_chunk s)); lia. }
  assert (chunk_bytes (la_config s) / bytes_per_sample (la_config s) * bytes_per_sample (la_config s)
          = chunk_bytes (la_config s)) as Hdiv.
  { destruct (cf_chunk_4 _ Hc) as [q Hq]. rewrite Hq.
    destruct Hw as [-> | [-> | ->]]; zdivmod. }
  pose proof (Z.mod_pos_bound k _ Hs0) as Hkm.
  assert (0 <= k mod slot_count (la_config s) * chunk_bytes (la_config s) /\
    k mod slot_count (la_config s) * chunk_bytes (la_config s) + chunk_bytes (la_config s)
      <= CAPTURE_BUFFER_SIZE) as [Hlo Hhi].
  { rewrite <- Hs. clear - Hkm Hcb. nia. }
  exists k. split; rewrite ?Hsq, ?Hfs, ?Hsm, ?Hby, ?Hd, ?Hnx, ?Hlp, ?Hdiv; try done; try lia.
  - rewrite u64_small.
    + rewrite <- Z.mul_assoc, Hdiv. done.
    + assert (0 <= k * chunk_bytes (la_config s)) by (clear - Hk Hn Hcb; nia).
      assert (0 <= k * (chunk_bytes (la_config s) / bytes_per_sample (la_config s))
              <= k * chunk_bytes (la_config s)); [|unfold is_u64; lia].
      rewrite <- Hdiv at 3. clear - Hk Hn Hcb Hw Hdiv.
      set (q := chunk_bytes (la_config s) / bytes_per_sample (la_config s)) in *.
      destruct Hw as [Hw|[Hw|Hw]]; rewrite Hw in *; nia.
  - intros h Hth Hring Hlap. apply (ring_chunk X (T h * bytes_per_sample (la_config s))); try done; [lia|].
    pose proof (Hmul _ _ Hth). lia.
Qed.

(** C2: a block taken from the stream is a piece of what was sampled. It is
    chunk [k] of the stream, never one before those already handed out; its
    sequence number and first-sample index are those of the chunk; it was
    completely written when it was taken; its window lies inside the buffer; and
    reading it gives exactly that chunk in every later hardware state in which
    the DMA has not written past the chunk's slot again, which at the time of the
    take it has not, as far as the progress registers tell. *)
Theorem stream_take_delivers (T : HW -> Z) (X : Z -> Z) s s' nn b :
  stream_ok T s -> la_stream_take nn s = (Some b, s') ->
  T (hw s') * bytes_per_sample (la_config s) < 18446744073709551616 ->
  exists k, block_is_chunk T X s s' b k.
Proof. apply stream_take_chunk. Qed.
End Delivery.

(** ** The blocks of one streaming session *)

Section Accounting.
Context {CC : CaptureConsts} {CCO : CaptureConstsOk} {HW : Type} {CE : CaptureEngine HW}.
Implicit Types s : la_state HW.

(** [stream_session bs s]: since [la_stream_start] the blocks [bs] were taken, in
    this order, in any interleaving with the other operations of the bridge, the
    interrupt and the hardware, and the bridge is now in [s]. *)
Inductive stream_session : list la_analysis_block_t -> la_state HW -> Prop :=
| session_start s s' :
    la_inv s -> la_stream_start s = (true, s') -> stream_session [] s'
| session_other bs s s' :
    stream_session bs s -> la_other_step s s' -> stream_session bs s'
| session_none bs s s' nn :
    stream_session bs s -> la_stream_take nn s = (None, s') -> stream_session bs s'
| session_take bs s s' nn b :
    stream_session bs s -> la_stream_take nn s = (Some b, s') ->
    stream_session (bs ++ [b]) s'.

(** The reader's position in the stream. *)
Definition stream_pos s :=
  (la_stream_running s, la_stream_next_chunk s, la_stream_last_produced_bytes s,
   la_stream_overruns s).

Lemma start_chunk_pos k : st_keeps (view_is stream_pos k) la_start_chunk.
Proof. unfold la_start_chunk. keeps. Qed.
#[local] Hint Resolve start_chunk_pos : fw.

(** No other operation moves it: starting any session is refused, and nothing
    else touches it. *)
Lemma other_step_pos s s' : la_other_step s s' -> stream_pos s' = stream_pos s.
Proof.
  intros H. destruct H as [s h|s o|s f _|s n _|s m _|s pre post trig inv|s nn|s|s|s|s nn|s slot|s|s slot];
    try done.
  - unfold la_configure_frequency, st_end. destruct f; [case_if|]; done.
  - unfold la_configure_chunk_bytes, st_end. destruct n; [case_if|]; done.
  - unfold la_configure_channel_mask, st_end. destruct m; [case_if|]; done.
  - assert (st_keeps (view_is stream_pos (stream_pos s))
      (la_single_capture_start pre post trig inv)) as K
      by (unfold la_single_capture_start; keeps). by apply K.
  - assert (st_keeps (view_is stream_pos (stream_pos s)) (la_single_capture_get_result nn)) as K
      by (unfold la_single_capture_get_result; keeps). by apply K.
  - assert (st_keeps (view_is stream_pos (stream_pos s)) la_single_capture_stop) as K
      by (unfold la_single_capture_stop, la_single_capture_release; keeps). by apply K.
  - assert (st_keeps (view_is stream_pos (stream_pos s)) la_capture_chain_start) as K
      by (unfold la_capture_chain_start; keeps). by apply K.
  - assert (st_keeps (view_is stream_pos (stream_pos s)) (la_capture_chain_take nn)) as K
      by (unfold la_capture_chain_take; keeps). by apply K.
  - assert (st_keeps (view_is stream_pos (stream_pos s)) (la_capture_chain_release slot)) as K
      by (unfold la_capture_chain_release; keeps). by apply K.
  - assert (st_keeps (view_is stream_pos (stream_pos s)) la_capture_chain_stop) as K
      by (unfold la_capture_chain_stop; keeps). by apply K.
Qed.

Lemma setup_pio_pos k : st_keeps (view_is stream_pos k) stream_setup_pio.
Proof. unfold stream_setup_pio. keeps. Qed.
#[local] Hint Resolve setup_pio_pos : fw.

Lemma stream_start_pos s s' :
  la_stream_start s = (true, s') -> stream_pos s' = (true, 0, 0, 0).
Proof.
  assert (st_spec (fun _ => True) la_stream_start
            (fun ok s => ok = true -> stream_pos s = (true, 0, 0, 0))) as H.
  { unfold la_stream_start. apply st_spec_get. intros s0 _. case_if.
    { by intros ? ? H; cbn in H. }
    eapply (st_spec_bind _ (fun _ s => stream_pos s = (la_stream_running s0, 0, 0, 0))).
    { intros ? [-> _]. done. }
    intros _. eapply (st_spec_seq (view_is stream_pos _)); [keeps|]. intros _.
    apply st_spec_get. intros s1 _.
    eapply st_spec_weaken with (P' := view_is stream_pos (la_stream_running s0, 0, 0, 0));
      [|by intros ? [_ ?]|intros ? ? Hq; exact Hq].
    do 5 (apply st_spec_seq; [keeps|intros _]).
    eapply (st_spec_bind _ (fun _ => view_is stream_pos (true, 0, 0, 0))).
    { intros ? [= Hr Hn Hp Ho]. unfold view_is, stream_pos. cbn. congruence. }
    intros _. apply st_spec_seq; [keeps|]. by intros _ ? ? _. }
  intros E. specialize (H s I). st_unfold. rewrite E in H. by apply H.
Qed.

(** What is known of the reader's position all through a session. *)
Record session_pos (n : Z) s : Prop := {
  sp_inv : la_inv s;
  sp_produced : is_u64 (la_stream_last_produced_bytes s);
  sp_next : n <= la_stream_next_chunk s;
  sp_overruns : la_stream_overruns s = u32 (la_stream_next_chunk s - n)
}.

Lemma take_none_pos s s' nn n :
  0 <= n -> session_pos n s -> la_stream_take nn s = (None, s') ->
  session_pos n s' /\ la_stream_next_chunk s' = la_stream_next_chunk s.
Proof.
  intros Hn [Hi Hp Hx Ho] E.
  assert (la_inv s') as Hi'.
  { pose proof (la_step_inv _ _ Hi (step_stream_take s nn)) as H. unfold st_end in H.
    by rewrite E in H. }
  revert E. unfold la_stream_take. st_unfold. case_if; [by intros [= <-]|].
  destruct (la_stream_produced_bytes s) as [p s1] eqn:Ep.
  destruct (produced_bytes_range s p s1 Hp Ep) as (Hp1 & Hl & _).
  destruct (produced_bytes_frame s p s1 Ep) as (_ & _ & Fn & Fo).
  cbn. case_if.
  - intros [= <-]. split; [|done]. split; [done|by rewrite Hl|by rewrite Fn|by rewrite Fo, Fn].
  - unfold upd, sdk. st_unfold. by case_if; cbn; destruct (hw_call time_us_64 (hw s1)).
Qed.

Lemma take_some_pos s s' nn n b :
  0 <= n -> session_pos n s -> la_stream_take nn s = (Some b, s') ->
  exists k, la_stream_next_chunk s <= k /\ la_stream_next_chunk s' = k + 1 /\
    blk_sequence b = u32 k /\ blk_overruns b = u32 (k - n) /\ session_pos (n + 1) s'.
Proof.
  intros Hn [Hi Hp Hx Ho] E.
  assert (la_inv s') as Hi'.
  { pose proof (la_step_inv _ _ Hi (step_stream_take s nn)) as H. unfold st_end in H.
    by rewrite E in H. }
  destruct (stream_take_inv s s' nn b (inv_config _ Hi) Hp) as
    (p & s1 & Ep & _ & Hk & _ & _ & _ & Hsq & _ & Hov & Ho' & Hn' & Hl' & _);
    [lia|rewrite Ho; apply u32_range|done|].
  destruct (produced_bytes_range s p s1 Hp Ep) as (Hp1 & _ & _).
  set (k := chosen_chunk _ _ _) in *.
  assert (la_stream_overruns s' = u32 (k - n)) as Hsum.
  { rewrite Ho', Ho. unfold u32. rewrite Zplus_mod_idemp_l, Zplus_mod_idemp_r. f_equal. lia. }
  exists k. split_and!; try done; [lia|congruence|].
  split; [done|by rewrite Hl'|lia|]. rewrite Hsum, Hn'. f_equal. lia.
Qed.

(** [ks] are the chunks of the blocks [bs], all below [next]. *)
Definition accounted (bs : list la_analysis_block_t) (ks : list Z) : Prop :=
  length ks = length bs /\ StronglySorted Z.lt ks /\
  forall i b k, bs !! i = Some b -> ks !! i = Some k ->
    Z.of_nat i <= k /\ blk_sequence b = u32 k /\ blk_overruns b = u32 (k - Z.of_nat i).

Lemma accounted_snoc bs ks n b k :
  accounted bs ks -> Forall (fun k => k < n) ks -> n <= k -> zlen bs <= k ->
  blk_sequence b = u32 k -> blk_overruns b = u32 (k - zlen bs) ->
  accounted (bs ++ [b]) (ks ++ [k]).
Proof.
  intros (Hl & Hs & Ha) Hb Hn Hk Hsq Hov. split_and!.
  - rewrite !length_app, Hl. done.
  - apply StronglySorted_app. split_and!; [|done|by repeat constructor].
    intros x y Hx Hy%list_elem_of_singleton. subst y.
    rewrite Forall_forall in Hb. specialize (Hb x Hx). lia.
  - intros i b' k' Hb' Hk'. apply lookup_app_Some in Hb' as [Hb'|[Hlen Hb']].
    + apply (Ha i); [done|]. rewrite lookup_app_l in Hk'; [done|].
      rewrite Hl. by eapply lookup_lt_Some.
    + rewrite lookup_app_r in Hk' by lia. rewrite Hl in Hk'.
      assert (i - length bs = 0)%nat as Hz
        by (destruct (i - length bs)%nat; [done | cbn in Hb'; done]).
      rewrite Hz in *. injection Hb' as <-. injection Hk' as <-.
      assert (Z.of_nat i = zlen bs) as -> by (unfold zlen; lia). done.
Qed.

Lemma session_accounted bs s :
  stream_session bs s ->
  session_pos (zlen bs) s /\
  exists ks, accounted bs ks /\ Forall (fun k => k < la_stream_next_chunk s) ks.
Proof.
  induction 1 as [s s' Hi E|bs s s' _ [IHp (ks & IHa & IHb)] Hst
                 |bs s s' nn _ [IHp (ks & IHa & IHb)] E
                 |bs s s' nn b _ [IHp (ks & IHa & IHb)] E].
  - pose proof (stream_start_pos s s' E) as [= _ Hn Hp Ho].
    pose proof (la_step_inv _ _ Hi (step_stream_start s)) as Hi'. unfold st_end in Hi'.
    rewrite E in Hi'. split.
    + split; [done|by rewrite Hp|rewrite Hn; done|by rewrite Ho, Hn].
    + exists []. split; [split_and!; [done|constructor|done]|constructor].
  - pose proof (other_step_pos _ _ Hst) as [= _ Hn Hp Ho]. destruct IHp as [Hi P1 P2 P3]. split.
    + split; [by eapply la_step_inv; [|apply step_other]|by rewrite Hp|by rewrite Hn|by rewrite Ho, Hn].
    + exists ks. by rewrite Hn.
  - destruct (take_none_pos s s' nn _ (zlen_nonneg bs) IHp E) as [Hp' Hn]. split; [done|].
    exists ks. by rewrite Hn.
  - destruct (take_some_pos s s' nn _ b (zlen_nonneg bs) IHp E) as (k & Hk & Hn & Hsq & Hov & Hp').
    split; [by rewrite zlen_app|]. pose proof (sp_next _ _ IHp).
    exists (ks ++ [k]). split; [eapply accounted_snoc; try done; lia|].
    apply Forall_app. split; [|constructor; [lia|done]].
    eapply Forall_impl; [exact IHb|]. cbn. lia.
Qed.

(** C1: the accounting of a streaming session. However takes interleave with the
    other calls, the interrupt and the hardware, the blocks handed out are chunks
    [ks] of the stream in strictly increasing order, so no chunk is delivered twice
    or out of order; each block carries its chunk's sequence number; and the
    overrun count it carries is exactly the number of chunks skipped before it
    (both modulo 2^32, the width of the header fields). *)
Theorem stream_session_accounting (bs : list la_analysis_block_t) s :
  stream_session bs s ->
  exists ks : list Z, length ks = length bs /\ StronglySorted Z.lt ks /\
    forall i b k, bs !! i = Some b -> ks !! i = Some k ->
      Z.of_nat i <= k /\ blk_sequence b = u32 k /\ blk_overruns b = u32 (k - Z.of_nat i).
Proof. intros H. destruct (session_accounted bs s H) as (_ & ks & Ha & _). by exists ks. Qed.
End Accounting.

(** ** Witnesses *)

#[export] Instance demo_dma : StreamDma demo_count demo_pass.
Proof.
  assert (0 < demo_pass) as HN by done.
  assert (forall h, 0 <= demo_count h mod demo_pass < demo_pass) as Hm
    by (intros h; by apply Z.mod_pos_bound).
  split.
  - done.
  - intros h. unfold demo_count. lia.
  - intros c h. destruct c; cbn; try done; lia.
  - intros ch h. cbn. unfold demo_busy, runs_pass.
    destruct ch; [destruct (Z.even _) | destruct (Z.odd _)]; done.
  - intros ch h. cbn. specialize (Hm h). lia.
  - done.
Qed.

(** Byte [p] of the demonstration stream. *)
Definition demo_stream (p : Z) : Z := p mod 251.

(** The ring after [n] bytes: position [i] holds the last byte sampled there. *)
Definition demo_ring (n : Z) : list Z :=
  (fun i => demo_stream (i + 16384 * ((n - 1 - i) / 16384))) <$> seqZ 0 16384.

Lemma demo_ring_image n : ring_image demo_stream n (demo_ring n).
Proof.
  intros p Hp0 Hp. cbn in *. unfold demo_ring.
  pose proof (Z.mod_pos_bound p 16384 eq_refl).
  rewrite list_lookup_fmap, lookup_seqZ_lt by lia. cbn. f_equal. f_equal. zdivmod.
Qed.

(** The stream [n] bytes in, with the buffer [buf]; nothing is taken yet. *)
Definition demo_streaming (n : Z) (buf : list Z) : la_state demo_hw :=
  (st_end la_stream_start demo0)
    <| hw := demo_hw0 <| dm_count := n |> <| dm_buf := buf |> |>
    <| la_stream_completed_passes := n / 16384 |>.

(** 40000 bytes in, in the third pass over 64 chunks of 256 bytes: the reader is
    lapped, and is given chunk 93. *)
Lemma demo_take buf :
  exists b s', la_stream_take true (demo_streaming 40000 buf) = (Some b, s') /\
    hw s' = hw (demo_streaming 40000 buf) /\ blk_overruns b = 93 /\ blk_bytes b = 256 /\
    la_stream_next_chunk s' = 94.
Proof. do 2 eexists. split; [vm_compute; reflexivity|]. repeat split. Qed.

Lemma stream_take_delivers_witness :
  exists b s', la_stream_take true (demo_streaming 40000 (demo_ring 40000)) = (Some b, s') /\
    blk_sequence b = 93 /\ blk_overruns b = 93 /\
    mem_read (blk_data b) 256 (demo_ring 40000) = stream_chunk demo_stream 256 93.
Proof.
  pose proof (demo_ring_image 40000) as Himg. revert Himg. generalize (demo_ring 40000).
  intros buf Himg. destruct (demo_take buf) as (b & s' & E & Hh & Ho & Hb & Hn).
  exists b, s'. split; [exact E|].
  destruct (stream_take_delivers demo_count demo_stream (demo_streaming 40000 buf) s' true b)
    as (k & [_ Hk Hsq _ _ _ _ _ _ _ Hread]).
  - split; [apply config_wf_init | exact demo_dma | split; vm_compute; split; congruence
           | vm_compute; congruence | vm_compute; split; congruence].
  - exact E.
  - rewrite Hh. reflexivity.
  - assert (k = 93) as -> by lia. split; [exact Hsq|]. split; [exact Ho|].
    specialize (Hread (hw s') (Z.le_refl _)). rewrite Hb, Hh in Hread. apply Hread.
    + exact Himg.
    + vm_compute. congruence.
Defined.

Lemma stream_session_accounting_witness :
  exists b s', stream_session [b] s' /\ blk_overruns b = blk_sequence b.
Proof.
  pose (s0 := st_end la_stream_start demo0).
  assert (la_stream_start demo0 = (true, s0)) as E0.
  { unfold s0, st_end. rewrite (surjective_pairing (la_stream_start demo0)) at 1.
    f_equal. }
  assert (exists b s', la_stream_take true (s0 <| hw := hw (demo_streaming 16000 []) |>)
                       = (Some b, s')) as (b & s' & E)
    by (do 2 eexists; vm_compute; reflexivity).
  assert (stream_session [b] s') as Hs.
  { apply (session_take [] _ s' true b (session_other _ _ _
      (session_start demo0 s0 demo0_inv E0)
      (step_hardware s0 (hw (demo_streaming 16000 [])))) E). }
  exists b, s'. split; [exact Hs|].
  destruct (stream_session_accounting [b] s' Hs) as (ks & Hl & _ & Ha).
  destruct ks as [|k [|]]; try discriminate Hl.
  destruct (Ha 0%nat b k eq_refl eq_refl) as (_ & -> & ->). cbn. by rewrite Z.sub_0_r.
Defined.
