(* ===== verification/CText.v ===== *)
(** * CText: the C strings, [sscanf] and [snprintf] of the command interface

    The application (src/src/main.cpp) reads its numeric commands with [sscanf] and
    writes its replies with [snprintf]. This file models what it uses of them:
    format literals, [%lu] and [%lx] on input, [%lu] and [%06lx] on output, on a
    target whose [unsigned long] has 32 bits (newlib). A C string is the list of its
    bytes, without the terminator. *)

From S2P Require Import Prelude.

(** ** Bytes of string literals *)

Definition bytes_of_string (s : string) : list Z :=
  (fun c => Z.of_nat (Ascii.nat_of_ascii c)) <$> String.list_ascii_of_string s.

(** The C string in a buffer: everything before the first NUL. *)
Fixpoint c_str (buf : list Z) : list Z :=
  match buf with
  | [] => []
  | c :: buf => if c =? 0 then [] else c :: c_str buf
  end.

(** ** Scanning *)

Definition is_space (c : Z) : bool := (c =? 32) || ((9 <=? c) && (c <=? 13)).

Fixpoint skip_space (l : list Z) : list Z :=
  match l with
  | [] => []
  | c :: l' => if is_space c then skip_space l' else l
  end.

(** The literal part of a format: white space matches any amount of white space,
    any other character itself. *)
Fixpoint scan_lit (fmt l : list Z) : option (list Z) :=
  match fmt with
  | [] => Some l
  | f :: fmt =>
      if is_space f then scan_lit fmt (skip_space l)
      else match l with
           | c :: l => if c =? f then scan_lit fmt l else None
           | [] => None
           end
  end.

(** The value of a digit: 0-9, then a-f or A-F. *)
Definition digit_val (base c : Z) : option Z :=
  let v := if (48 <=? c) && (c <=? 57) then c - 48
           else if (97 <=? c) && (c <=? 102) then c - 87
           else if (65 <=? c) && (c <=? 70) then c - 55 else base in
  if v <? base then Some v else None.

(** The value of the leading digits after [acc]. *)
Fixpoint scan_digits (base : Z) (l : list Z) (acc : Z) : Z :=
  match l with
  | [] => acc
  | c :: l => match digit_val base c with
              | Some v => scan_digits base l (acc * base + v)
              | None => acc
              end
  end.

Definition ULONG_MAX : Z := 4294967295.

(** [strtoul] on an optional sign and digits. *)
Definition strtoul_val (neg : bool) (v : Z) : Z :=
  if ULONG_MAX <? v then ULONG_MAX else if neg then u32 (- v) else v.

Definition scan_sign (l : list Z) : bool * list Z :=
  match l with
  | c :: l' => if c =? 45 then (true, l') else if c =? 43 then (false, l') else (false, l)
  | [] => (false, l)
  end.

Definition starts_digit (base : Z) (l : list Z) : bool :=
  match l with
  | c :: _ => bool_decide (is_Some (digit_val base c))
  | [] => false
  end.

(** An optional [0x] in front of hexadecimal digits. *)
Definition scan_0x (l : list Z) : list Z :=
  match l with
  | z :: x :: l' =>
      if (z =? 48) && ((x =? 120) || (x =? 88)) && starts_digit 16 l' then l' else l
  | _ => l
  end.

(** [%lu] (base 10) and [%lx] (base 16). *)
Definition scan_ulong (base : Z) (l : list Z) : option Z :=
  let '(neg, l) := scan_sign (skip_space l) in
  let l := if base =? 16 then scan_0x l else l in
  if starts_digit base l then Some (strtoul_val neg (scan_digits base l 0)) else None.

(** [sscanf(s, lit "%lu" or "%lx", &value)]: [Some value] when it returns 1. *)
Definition sscanf (lit : string) (base : Z) (s : list Z) : option Z :=
  match scan_lit (bytes_of_string lit) s with
  | Some rest => scan_ulong base rest
  | None => None
  end.

(** ** Printing *)

Definition digit_char (v : Z) : Z := if v <? 10 then 48 + v else 87 + v.

(** The digits of [z], most significant first, in front of [acc]; at most
    [fuel + 1] of them. *)
Fixpoint print_base (fuel : nat) (base z : Z) (acc : list Z) : list Z :=
  let acc := digit_char (z mod base) :: acc in
  match fuel with
  | O => acc
  | S fuel => if z / base =? 0 then acc else print_base fuel base (z / base) acc
  end.

(** [%lu]: 10 digits are enough for 32 bits. *)
Definition print_lu (z : Z) : list Z := print_base 9 10 z [].

(** [%06lx]: 8 digits are enough, and at least 6 are printed. *)
Definition print_06lx (z : Z) : list Z :=
  let ds := print_base 7 16 z [] in
  replicate (6 - length ds) 48 ++ ds.

(** [snprintf(buf, size, ...)]: the characters that fit, before the NUL. *)
Definition snprintf (size : Z) (text : list Z) : list Z := take (Z.to_nat (size - 1)) text.

(** ** Printing, then scanning *)

Definition is_base (base : Z) : Prop := base = 10 \/ base = 16.

Lemma digit_val_char base v : is_base base -> 0 <= v < base -> digit_val base (digit_char v) = Some v.
Proof.
  intros Hb Hv. unfold digit_char.
  destruct (Z.ltb_spec v 10); unfold digit_val;
    repeat match goal with
    | |- context [?a <=? ?b] => destruct (Z.leb_spec a b); try (destruct Hb; lia); cbn [andb]
    end;
    (case_if; bool_prop; [f_equal; lia | lia]).
Qed.

Lemma digit_char_range v : 0 <= v < 16 -> 48 <= digit_char v <= 57 \/ 97 <= digit_char v <= 102.
Proof. intros. unfold digit_char. case_if; bool_prop; lia. Qed.

Lemma print_base_scan base fuel z acc rest :
  is_base base -> 0 <= z < base ^ (Z.of_nat fuel + 1) ->
  scan_digits base (print_base fuel base z acc ++ rest) 0 = scan_digits base (acc ++ rest) z.
Proof.
  intros Hb. assert (0 < base) as Hb0 by (destruct Hb; lia).
  revert z acc. induction fuel as [|fuel IH]; intros z acc Hz.
  - change (base ^ (Z.of_nat 0 + 1)) with (base ^ 1) in Hz. rewrite Z.pow_1_r in Hz.
    cbn. rewrite digit_val_char by (auto using Z.mod_pos_bound).
    by rewrite (Z.mod_small z), Z.add_0_l.
  - rewrite Nat2Z.inj_succ, Z.add_succ_l, Z.pow_succ_r in Hz by lia. cbn [print_base].
    pose proof (Z.mod_pos_bound z base Hb0).
    pose proof (Z_div_mod_eq_full z base).
    destruct (Z.eqb_spec (z / base) 0) as [E|E].
    + cbn. rewrite digit_val_char by done. f_equal. lia.
    + rewrite IH.
      * cbn. rewrite digit_val_char by done. f_equal. lia.
      * split; [apply Z.div_pos; lia|]. apply Z.div_lt_upper_bound; lia.
Qed.

(** The characters printed are digits, and there is at least one. *)
Lemma print_base_digits base fuel z :
  is_base base -> exists v l, 0 <= v < base /\ print_base fuel base z [] = digit_char v :: l.
Proof.
  intros Hb. assert (0 < base) as Hb0 by (destruct Hb; lia).
  assert (forall acc, exists v l, 0 <= v < base /\ print_base fuel base z acc = digit_char v :: l)
    as H; [|apply H].
  revert z. induction fuel as [|fuel IH]; intros z acc; cbn.
  - eexists _, _. split; [|done]. by apply Z.mod_pos_bound.
  - case_if; [|apply IH]. eexists _, _. split; [|done]. by apply Z.mod_pos_bound.
Qed.

Lemma print_base_length base fuel z acc :
  (length (print_base fuel base z acc) <= fuel + 1 + length acc)%nat.
Proof.
  revert z acc. induction fuel as [|fuel IH]; intros z acc; cbn; [lia|].
  case_if; cbn; [lia|]. specialize (IH (z / base) (digit_char (z mod base) :: acc)).
  cbn in IH. lia.
Qed.

(** Neither white space nor a sign starts a number. *)
Lemma digit_start base v : is_base base -> 0 <= v < base ->
  is_space (digit_char v) = false /\ (digit_char v =? 45) = false /\ (digit_char v =? 43) = false.
Proof.
  intros Hb Hv. pose proof (digit_char_range v ltac:(destruct Hb; lia)).
  unfold is_space. repeat split; repeat (apply orb_false_iff; split);
    try (apply andb_false_iff; right; apply Z.leb_gt; lia); apply Z.eqb_neq; lia.
Qed.

(** A printed number is scanned back. *)
Lemma scan_print base fuel z :
  is_base base -> 0 <= z < base ^ (Z.of_nat fuel + 1) -> is_u32 z ->
  starts_digit base (print_base fuel base z []) = true /\
  scan_digits base (print_base fuel base z []) 0 = z.
Proof.
  intros Hb Hz Hu. destruct (print_base_digits base fuel z Hb) as (v & l & Hv & E). split.
  - rewrite E. cbn. apply bool_decide_eq_true. rewrite digit_val_char by done. eauto.
  - rewrite <- (app_nil_r (print_base _ _ _ _)), print_base_scan by done. done.
Qed.

Lemma scan_lu z : is_u32 z -> scan_ulong 10 (print_lu z) = Some z.
Proof.
  intros Hu. unfold scan_ulong, print_lu.
  destruct (print_base_digits 10 9 z (or_introl eq_refl)) as (v & l & Hv & E).
  destruct (scan_print 10 9 z (or_introl eq_refl)) as [Hs Hd]; [cbn; unfold is_u32 in Hu; lia|done|].
  rewrite E in *. destruct (digit_start 10 v (or_introl eq_refl) Hv) as (H1 & H2 & H3).
  cbn [skip_space]. rewrite H1. cbn [scan_sign]. rewrite H2, H3. change (10 =? 16) with false. cbv iota.
  rewrite Hs, Hd. unfold strtoul_val. destruct (Z.ltb_spec ULONG_MAX z); [|done].
  unfold is_u32, ULONG_MAX in *. lia.
Qed.

(** The digits of a number, zero-padded, as a list of digit values. *)
Lemma print_base_all base fuel z acc :
  is_base base -> Forall (fun c => exists v, 0 <= v < base /\ c = digit_char v) acc ->
  Forall (fun c => exists v, 0 <= v < base /\ c = digit_char v) (print_base fuel base z acc).
Proof.
  intros Hb. assert (0 < base) as Hb0 by (destruct Hb; lia).
  revert z acc. induction fuel as [|fuel IH]; intros z acc Ha; cbn.
  - constructor; [|done]. eexists. split; [by apply Z.mod_pos_bound | done].
  - assert (Forall (fun c => exists v, 0 <= v < base /\ c = digit_char v)
      (digit_char (z mod base) :: acc)); [|by case_if; auto].
    constructor; [|done]. eexists. split; [by apply Z.mod_pos_bound | done].
Qed.

Lemma scan_digits_zeros base n l :
  is_base base -> scan_digits base (replicate n 48 ++ l) 0 = scan_digits base l 0.
Proof.
  intros Hb. induction n as [|n IH]; [done|]. cbn [replicate app scan_digits].
  replace (digit_val base 48) with (Some 0) by (by destruct Hb as [-> | ->]). done.
Qed.

Lemma scan_0x_digits l :
  Forall (fun c => exists v, 0 <= v < 16 /\ c = digit_char v) l -> scan_0x l = l.
Proof.
  intros Hl. destruct l as [|z [|x l]]; try done. unfold scan_0x.
  apply Forall_cons in Hl as [_ Hl]. apply Forall_cons in Hl as [(v & Hv & ->) _].
  pose proof (digit_char_range v Hv).
  destruct (Z.eqb_spec (digit_char v) 120); [lia|].
  destruct (Z.eqb_spec (digit_char v) 88); [lia|]. cbn. by rewrite andb_false_r.
Qed.

Lemma scan_06lx z : is_u32 z -> scan_ulong 16 (print_06lx z) = Some z.
Proof.
  intros Hu. unfold scan_ulong.
  assert (is_base 16) as Hb by (by right).
  destruct (scan_print 16 7 z Hb) as [Hs Hd]; [cbn; unfold is_u32 in Hu; lia|done|].
  assert (Forall (fun c => exists v, 0 <= v < 16 /\ c = digit_char v) (print_06lx z)) as Hall.
  { unfold print_06lx. apply Forall_app. split; [|by apply print_base_all].
    apply Forall_replicate. by exists 0. }
  assert (scan_digits 16 (print_06lx z) 0 = z) as Hz
    by (unfold print_06lx; rewrite scan_digits_zeros; done).
  assert (exists v l, 0 <= v < 16 /\ print_06lx z = digit_char v :: l) as (v & l & Hv & E).
  { destruct (print_06lx z) as [|c l] eqn:E.
    - unfold print_06lx in E. apply app_nil in E as [_ E]. rewrite E in Hs. done.
    - apply Forall_cons in Hall as [(v & Hv & ->) _]. eauto. }
  rewrite E in *. destruct (digit_start 16 v Hb Hv) as (H1 & H2 & H3).
  cbn [skip_space]. rewrite H1. cbn [scan_sign]. rewrite H2, H3.
  change (16 =? 16) with true. cbv iota. rewrite scan_0x_digits by done.
  cbn [starts_digit]. rewrite digit_val_char by done.
  rewrite bool_decide_eq_true_2 by eauto. rewrite Hz.
  unfold strtoul_val. destruct (Z.ltb_spec ULONG_MAX z); [|done].
  unfold is_u32, ULONG_MAX in *. lia.
Qed.

Lemma print_lu_length z : (1 <= length (print_lu z) <= 10)%nat.
Proof.
  pose proof (print_base_length 10 9 z []) as H.
  destruct (print_base_digits 10 9 z (or_introl eq_refl)) as (v & l & _ & E).
  unfold print_lu. rewrite E in *. cbn in *. lia.
Qed.

Lemma print_06lx_length z : (6 <= length (print_06lx z) <= 8)%nat.
Proof.
  unfold print_06lx. rewrite length_app, length_replicate.
  pose proof (print_base_length 16 7 z []). cbn in *. lia.
Qed.

(** Text without a NUL is its own C string. *)
Lemma c_str_id l : Forall (fun c => c <> 0) l -> c_str l = l.
Proof.
  induction 1 as [|c l Hc _ IH]; [done|]. cbn.
  destruct (Z.eqb_spec c 0); [done|]. by rewrite IH.
Qed.

Lemma print_lu_nonzero z : Forall (fun c => c <> 0) (print_lu z).
Proof.
  eapply Forall_impl; [apply (print_base_all 10); [by left|constructor]|].
  intros c (v & Hv & ->). pose proof (digit_char_range v ltac:(lia)). lia.
Qed.

Lemma print_06lx_nonzero z : Forall (fun c => c <> 0) (print_06lx z).
Proof.
  unfold print_06lx. apply Forall_app. split; [by apply Forall_replicate|].
  eapply Forall_impl; [apply (print_base_all 16); [by right|constructor]|].
  intros c (v & Hv & ->). pose proof (digit_char_range v ltac:(lia)). lia.
Qed.

(** Whatever is scanned fits the variable it is stored in. *)
Lemma digit_val_nonneg base c v : digit_val base c = Some v -> 0 <= v.
Proof.
  unfold digit_val.
  destruct (Z.leb_spec 48 c), (Z.leb_spec c 57), (Z.leb_spec 97 c), (Z.leb_spec c 102),
    (Z.leb_spec 65 c), (Z.leb_spec c 70); cbn [andb]; case_if; intros [= <-]; bool_prop; lia.
Qed.

Lemma scan_digits_nonneg base l acc : is_base base -> 0 <= acc -> 0 <= scan_digits base l acc.
Proof.
  intros Hb. revert acc. induction l as [|c l IH]; intros acc Ha; cbn; [done|].
  destruct (digit_val base c) as [v|] eqn:E; [|done].
  apply digit_val_nonneg in E. apply IH. destruct Hb as [-> | ->]; lia.
Qed.

Lemma sscanf_u32 lit base s v : is_base base -> sscanf lit base s = Some v -> is_u32 v.
Proof.
  intros Hb. unfold sscanf, scan_ulong. destruct (scan_lit _ _) as [rest|]; [|done].
  destruct (scan_sign _) as [neg l]. case_if; [|done]. intros [= <-]. unfold strtoul_val.
  destruct (Z.ltb_spec ULONG_MAX (scan_digits base (if base =? 16 then scan_0x l else l) 0)); [done|].
  destruct neg; [apply u32_range|].
  pose proof (scan_digits_nonneg base (if base =? 16 then scan_0x l else l) 0 Hb ltac:(lia)).
  unfold is_u32, ULONG_MAX in *. lia.
Qed.
