(* ===== verification/WebApp.v ===== *)
(** * WebApp: the application (src/src/main.cpp)

    The main program: a WebSocket command interface in front of the capture bridge,
    and the tasks of the main loop that send finished captures and stream blocks to
    the browser. Its state is the file's static variables over the bridge's state
    ([LaBridge]); the WebSocket server (the pico-ws-server submodule, not part of
    the repository) is the interface [WebSocket]. *)

From S2P Require Import Prelude LaBridge CText.

(** ** Data *)

(** What is sent: a text (a [const char *]) or a binary message. *)
Inductive ws_msg :=
| ws_text (text : list Z)
| ws_binary (data : list Z).

(** The WebSocket server: [sendMessage] to a connection tells whether the message
    was taken. It does not call back into the application. *)
Class WebSocket (WS : Type) := {
  ws_sendMessage : Z -> ws_msg -> WS -> bool * WS
}.

Record StreamHeader := mk_StreamHeader {
  hd_magic : Z; hd_sequence : Z; hd_sample_count : Z; hd_sample_rate : Z;
  hd_overruns : Z; hd_payload_bytes : Z; hd_first_sample : Z; hd_device_time_us : Z
}.

Definition STREAM_MAGIC : Z := 0x31414C50.
Definition MAX_STREAM_CHUNK : Z := LA_MAX_CHUNK_BYTES.
Definition sizeof_StreamHeader : Z := 40.

(** The bytes of the packed struct, in memory order. *)
Definition header_bytes (h : StreamHeader) : list Z :=
  le_bytes 4 (hd_magic h) ++ le_bytes 4 (hd_sequence h) ++ le_bytes 4 (hd_sample_count h) ++
  le_bytes 4 (hd_sample_rate h) ++ le_bytes 4 (hd_overruns h) ++
  le_bytes 4 (hd_payload_bytes h) ++ le_bytes 8 (hd_first_sample h) ++
  le_bytes 8 (hd_device_time_us h).

Inductive StreamMode := stopped | raw | analysis.

#[export] Instance stream_mode_eq_dec : EqDecision StreamMode.
Proof. solve_decision. Defined.

(** The static variables of main.cpp, the bridge and the WebSocket server. *)
Record app (HW WS : Type) := mk_app {
  la : la_state HW;
  websocket_server : WS;
  active_connection : Z;
  websocket_connected : bool;
  single_capture_pending : bool;
  single_capture_connection : Z;
  capture_chain_enabled : bool;
  capture_chain_pending : bool;
  stream_connection : Z;
  next_stream_ms : Z;
  stream_frame : list Z;
  block_pending : bool;
  pending_analysis_block : la_analysis_block_t;
  capture_chain_analysis_enabled : bool;
  stream_mode : StreamMode;
  stream_block_pending : bool
}.
Arguments mk_app {HW WS}.
Arguments la {HW WS}. Arguments websocket_server {HW WS}. Arguments active_connection {HW WS}.
Arguments websocket_connected {HW WS}. Arguments single_capture_pending {HW WS}.
Arguments single_capture_connection {HW WS}. Arguments capture_chain_enabled {HW WS}.
Arguments capture_chain_pending {HW WS}. Arguments stream_connection {HW WS}.
Arguments next_stream_ms {HW WS}. Arguments stream_frame {HW WS}.
Arguments block_pending {HW WS}. Arguments pending_analysis_block {HW WS}.
Arguments capture_chain_analysis_enabled {HW WS}. Arguments stream_mode {HW WS}.
Arguments stream_block_pending {HW WS}.

#[export] Instance eta_app HW WS : Eta (app HW WS) := fun a =>
  mk_app (la a) (websocket_server a) (active_connection a) (websocket_connected a)
    (single_capture_pending a) (single_capture_connection a) (capture_chain_enabled a)
    (capture_chain_pending a) (stream_connection a) (next_stream_ms a) (stream_frame a)
    (block_pending a) (pending_analysis_block a) (capture_chain_analysis_enabled a)
    (stream_mode a) (stream_block_pending a).

(** The statics at power-up. *)
Definition app_init {HW WS} (h : HW) (w : WS) : app HW WS := {|
  la := la_init h; websocket_server := w;
  active_connection := 0; websocket_connected := false;
  single_capture_pending := false; single_capture_connection := 0;
  capture_chain_enabled := false; capture_chain_pending := false;
  stream_connection := 0; next_stream_ms := 0;
  stream_frame := replicate (Z.to_nat (sizeof_StreamHeader + MAX_STREAM_CHUNK)) 0;
  block_pending := false;
  pending_analysis_block := mk_la_analysis_block 0 0 0 0 0 0 0 0;
  capture_chain_analysis_enabled := false;
  stream_mode := stopped; stream_block_pending := false
|}.

(** ** Operations *)

Section App.
Context {CC : CaptureConsts} {HW : Type} {CE : CaptureEngine HW}.
Context {WS : Type} {W : WebSocket WS}.

Abbreviation A := (ST (app HW WS)).

(** A call of the bridge, and an SDK call of the application itself. *)
Definition la_do {T} (m : ST (la_state HW) T) : A T := fun a =>
  let '(r, l) := m (la a) in (r, a <| la := l |>).
Definition pico (c : sdk_call) : A Z := la_do (sdk c).
Definition pico_ (c : sdk_call) : A unit := la_do (sdk_ c).

Definition sendMessage (id : Z) (m : ws_msg) : A bool := fun a =>
  let '(ok, w) := ws_sendMessage id m (websocket_server a) in
  (ok, a <| websocket_server := w |>).

(** A reply whose success is not looked at. *)
Definition reply (id : Z) (s : string) : A unit :=
  sendMessage id (ws_text (bytes_of_string s)) ;;; st_ret tt.

Definition is_busy (a : app HW WS) : bool :=
  la_is_busy (la a) || single_capture_pending a ||
  capture_chain_enabled a || capture_chain_pending a.

Definition websocket_connect (connection_id : Z) : A unit :=
  st_mod (fun a => a <| active_connection := connection_id |>
                     <| websocket_connected := true |>) ;;;
  reply connection_id "connected".

Definition websocket_disconnect (connection_id : Z) : A unit :=
  st_mod (fun a => a <| websocket_connected := false |>).

Definition start_single_capture (id : Z) : A unit :=
  pico_ (gpio_pull_up LA_TRIGGER_GPIO) ;;;
  pico_ (sleep_us 10) ;;;
  let! started := la_do (la_single_capture_start 0 64 LA_TRIGGER_CHANNEL true) in
  if started then
    st_mod (fun a => a <| single_capture_pending := true |>
                       <| single_capture_connection := id |>) ;;;
    pico_ (gpio_pull_up LA_TRIGGER_GPIO) ;;;
    reply id "SINGLE_CAPTURE_STARTED" ;;;
    pico_ (sleep_us 10) ;;;
    pico_ (gpio_pull_down LA_TRIGGER_GPIO)
  else reply id "SINGLE_CAPTURE_ERROR".

Definition start_capture_chain : A bool :=
  pico_ (gpio_pull_down LA_TRIGGER_GPIO) ;;;
  pico_ (sleep_us 50) ;;;
  let! started := la_do (la_single_capture_start 0 32 LA_TRIGGER_CHANNEL true) in
  st_when started (pico_ (gpio_pull_up LA_TRIGGER_GPIO)) ;;;
  st_ret started.

(** The bytes a block points at, in [captureBuffer] as it is now. *)
Definition block_data (b : la_analysis_block_t) (a : app HW WS) : list Z :=
  mem_read (blk_data b) (blk_bytes b) (captureBuffer (hw (la a))).

Definition send_analysis_block (b : la_analysis_block_t) : A bool :=
  if MAX_STREAM_CHUNK <? blk_bytes b then st_ret false
  else
    let! rate := la_do (la_configure_frequency None) in
    let header := {|
      hd_magic := STREAM_MAGIC; hd_sequence := blk_sequence b;
      hd_sample_count := blk_samples b; hd_sample_rate := rate;
      hd_overruns := blk_overruns b; hd_payload_bytes := blk_bytes b;
      hd_first_sample := blk_first_sample b; hd_device_time_us := blk_device_time_us b |} in
    st_mod (fun a => a <| stream_frame := mem_write 0 (header_bytes header) (stream_frame a) |>) ;;;
    st_mod (fun a => a <| stream_frame :=
                           mem_write sizeof_StreamHeader (block_data b a) (stream_frame a) |>) ;;;
    let! a := st_get in
    sendMessage (stream_connection a)
      (ws_binary (mem_read 0 (sizeof_StreamHeader + blk_bytes b) (stream_frame a))).

Definition start_stream (id : Z) (m : StreamMode) : A bool :=
  let! a := st_get in
  if is_busy a then reply id "CAPTURE_BUSY" ;;; st_ret false
  else
    let! ok := la_do la_stream_start in
    if negb ok then reply id "START_ERROR" ;;; st_ret false
    else
      st_mod (fun a => a <| stream_connection := id |> <| stream_mode := m |>
                         <| stream_block_pending := false |>) ;;;
      st_ret true.

Definition stop_stream : A unit :=
  la_do la_stream_stop ;;;
  st_mod (fun a => a <| stream_mode := stopped |> <| stream_block_pending := false |>).

(** [COMMAND_IS(s)] *)
Definition COMMAND_IS (data : list Z) (s : string) : bool :=
  bool_decide (data = bytes_of_string s).

(** The numeric commands: set, read back and reply. *)
Definition set_command (id : Z) (op : option Z -> ST (la_state HW) Z) (value : Z)
    (print : Z -> list Z) (key : string) : A unit :=
  let! value := la_do (op (Some value)) in
  sendMessage id (ws_text (c_str (snprintf 64 (bytes_of_string key ++ print value)))) ;;;
  st_ret tt.

Definition numeric_command (id : Z) (data : list Z) : A unit :=
  let command := c_str (take (Z.to_nat 63) data) in
  match sscanf "SET_FREQ " 10 command with
  | Some value => set_command id la_configure_frequency value print_lu "FREQ "
  | None =>
  match sscanf "SET_CHUNK_SIZE " 10 command with
  | Some value => set_command id la_configure_chunk_bytes value print_lu "CHUNKS_SIZE "
  | None =>
  match sscanf "SET_CHANNEL_MASK " 16 command with
  | Some value => set_command id la_configure_channel_mask value print_06lx "CHANNEL_MASK "
  | None => sendMessage id (ws_binary data) ;;; st_ret tt
  end end end.

Definition websocket_message (id : Z) (data : list Z) : A unit :=
  let! a := st_get in
  if COMMAND_IS data "STATUS" then
    reply id "We're all find here now, thank you.. How are you?"
  else if COMMAND_IS data "SINGLE_CAPTURE" then
    if is_busy a then reply id "CAPTURE_BUSY" else start_single_capture id
  else if COMMAND_IS data "CAPTURE_CHAIN_START" then
    if is_busy a then reply id "CAPTURE_BUSY"
    else
      st_mod (fun a => a <| capture_chain_enabled := true |> <| stream_connection := id |>
                         <| next_stream_ms := 0 |>) ;;;
      reply id "CAPTURE_CHAIN_STARTED"
  else if COMMAND_IS data "CAPTURE_CHAIN_STOP" then
    st_mod (fun a => a <| capture_chain_enabled := false |>) ;;;
    la_do la_single_capture_stop ;;;
    pico_ (gpio_disable_pulls LA_TRIGGER_GPIO) ;;;
    reply id "CAPTURE_CHAIN_STOPPED"
  else if COMMAND_IS data "PIN_TEST" then
    let! v := pico (gpio_get 3) in
    reply id (if negb (v =? 0) then "GPIO:HIGH" else "GPIO:LOW")
  else if COMMAND_IS data "CAPTURE_CHAIN_ANALYSIS_START" then
    if is_busy a then reply id "CAPTURE_BUSY"
    else
      let! ok := la_do la_capture_chain_start in
      if negb ok then reply id "START_ERROR"
      else
        st_mod (fun a => a <| stream_connection := id |>
                           <| capture_chain_analysis_enabled := true |>
                           <| block_pending := false |>) ;;;
        reply id "CAPTURE_CHAIN_ANALYSIS_STARTED"
  else if COMMAND_IS data "CAPTURE_CHAIN_ANALYSIS_STOP" then
    la_do la_capture_chain_stop ;;;
    st_mod (fun a => a <| capture_chain_analysis_enabled := false |>
                       <| block_pending := false |>) ;;;
    reply id "CAPTURE_CHAIN_ANALYSIS_STOPPED"
  else if COMMAND_IS data "STREAM_START" then
    let! ok := start_stream id raw in
    st_when ok (reply id "STREAM_STARTED")
  else if COMMAND_IS data "STREAM_STOP" then
    stop_stream ;;; reply id "STREAM_STOPPED"
  else if COMMAND_IS data "STREAM_ANALYSIS_START" then
    let! ok := start_stream id analysis in
    st_when ok (reply id "STREAM_ANALYSIS_STARTED")
  else if COMMAND_IS data "STREAM_ANALYSIS_STOP" then
    stop_stream ;;; reply id "STREAM_ANALYSIS_STOPPED"
  else numeric_command id data.

(** *** The tasks of the main loop *)

Definition single_capture_tasks : A unit :=
  let! a := st_get in
  st_when (single_capture_pending a && negb (la_single_capture_is_running (la a))) (
    let! result := la_do (la_single_capture_get_result true) in
    let! a := st_get in
    match result with
    | Some r =>
        let offset := u32 (res_first_sample r * res_bytes_per_sample r) in
        let len := u32 (res_samples r * res_bytes_per_sample r) in
        sendMessage (single_capture_connection a)
          (ws_binary (mem_read offset len (captureBuffer (hw (la a))))) ;;; st_ret tt
    | None => reply (single_capture_connection a) "SINGLE_CAPTURE_ERROR"
    end ;;;
    la_do la_single_capture_release ;;;
    pico_ (gpio_disable_pulls LA_TRIGGER_GPIO) ;;;
    st_mod (fun a => a <| single_capture_pending := false |>)).

(** The first half of [capture_chain_tasks]: the finished capture of a plain
    chain. [false] is the early return. *)
Definition chain_capture_done (now : Z) : A bool :=
  let! a := st_get in
  if capture_chain_pending a && negb (la_single_capture_is_running (la a)) then
    let! result := la_do (la_single_capture_get_result true) in
    match result with
    | None =>
        la_do la_single_capture_release ;;;
        st_mod (fun a => a <| capture_chain_pending := false |>) ;;;
        st_ret false
    | Some r =>
        let offset := u32 (res_first_sample r * res_bytes_per_sample r) in
        let! a := st_get in
        sendMessage (stream_connection a)
          (ws_binary (mem_read offset 32 (captureBuffer (hw (la a))))) ;;;
        la_do la_single_capture_release ;;;
        st_mod (fun a => a <| capture_chain_pending := false |>
                           <| next_stream_ms := u32 (now + 50) |>) ;;;
        st_ret true
    end
  else st_ret true.

(** Storing a taken block: [pending = take(&pending_analysis_block)]. *)
Definition store_block (o : option la_analysis_block_t) : A unit :=
  match o with
  | Some b => st_mod (fun a => a <| pending_analysis_block := b |>)
  | None => st_ret tt
  end.

Definition is_some {T} (o : option T) : bool := match o with Some _ => true | None => false end.

Definition capture_chain_tasks : A unit :=
  let! now := pico to_ms_since_boot in
  let! go := chain_capture_done now in
  st_when go (
    let! a := st_get in
    st_when (capture_chain_enabled a && negb (capture_chain_pending a) && (next_stream_ms a <=? now)) (
      let! started := start_capture_chain in
      st_mod (fun a => a <| capture_chain_pending := started |>)) ;;;
    let! a := st_get in
    st_when (capture_chain_analysis_enabled a && negb (block_pending a)) (
      let! o := la_do (la_capture_chain_take true) in
      store_block o ;;;
      st_mod (fun a => a <| block_pending := is_some o |>)) ;;;
    let! a := st_get in
    st_when (block_pending a) (
      let! sent := send_analysis_block (pending_analysis_block a) in
      st_when sent (
        la_do (la_capture_chain_release (blk_slot (pending_analysis_block a))) ;;;
        st_mod (fun a => a <| block_pending := false |>)))).

Definition stream_tasks : A unit :=
  let! a := st_get in
  st_when (negb (bool_decide (stream_mode a = stopped)) && negb (stream_block_pending a)) (
    let! o := la_do (la_stream_take true) in
    store_block o ;;;
    st_mod (fun a => a <| stream_block_pending := is_some o |>)) ;;;
  let! a := st_get in
  st_when (stream_block_pending a) (
    let b := pending_analysis_block a in
    let! sent :=
      if bool_decide (stream_mode a = analysis) then send_analysis_block b
      else sendMessage (stream_connection a) (ws_binary (block_data b a)) in
    st_when sent (
      la_do (la_stream_release (blk_slot b)) ;;;
      st_mod (fun a => a <| stream_block_pending := false |>))).

(** One turn of the main loop after the network was polled and the queued
    WebSocket events were handled. *)
Definition app_tasks : A unit :=
  single_capture_tasks ;;; capture_chain_tasks ;;; stream_tasks.

End App.
