(* ===== verification/WebAppInv.v ===== *)
(** * WebAppInv: the invariant of the application

    The application of src/src/main.cpp keeps its own flags beside those of the
    bridge. This file shows that in every reachable state, through any
    interleaving of WebSocket events, main-loop tasks, interrupts and hardware
    progress, the two agree; that one session runs at a time, so that the single
    [pending_analysis_block] is never shared; and how every command is answered. *)

From S2P Require Import Prelude LaBridge DemoEngine LaBridgeInv CText WebApp.

(** ** The flags *)

(** The flags of the bridge, then those of the application. *)
Record flags := mk_flags {
  k_run : bool; k_blk : bool; k_str : bool; k_sgl : bool; k_sblk : bool;
  k_single_pending : bool; k_chain_enabled : bool; k_chain_pending : bool;
  k_block_pending : bool; k_analysis : bool; k_mode : StreamMode; k_stream_pending : bool
}.

(** The two sets of flags tell the same story. *)
Record flags_ok (k : flags) : Prop := {
  fk_excl : k_run k = true -> k_str k = false;
  fk_blk : k_blk k = true -> k_run k = true;
  fk_sblk : k_sblk k = true -> k_str k = true;
  fk_analysis : k_analysis k = k_run k;
  fk_block : k_block_pending k = k_blk k;
  fk_mode : k_mode k <> stopped <-> k_str k = true;
  fk_stream : k_stream_pending k = k_sblk k;
  fk_single : k_single_pending k = true ->
    k_chain_enabled k = false /\ k_chain_pending k = false /\
    k_run k = false /\ k_str k = false;
  fk_chain : k_chain_enabled k = true \/ k_chain_pending k = true ->
    k_run k = false /\ k_str k = false;
  fk_owner : k_sgl k = true -> k_single_pending k = true \/ k_chain_pending k = true
}.

Section Inv.
Context {CC : CaptureConsts} {CCO : CaptureConstsOk} {HW : Type} {CE : CaptureEngine HW}.
Context {WS : Type} {W : WebSocket WS}.
Implicit Types a : app HW WS.

Definition la_flags (s : la_state HW) : bool * bool * bool * bool * bool :=
  (la_running s, la_block_outstanding s, la_stream_running s, la_single_capture_active s,
   la_stream_block_outstanding s).

Definition app_flags a : flags := {|
  k_run := la_running (la a); k_blk := la_block_outstanding (la a);
  k_str := la_stream_running (la a); k_sgl := la_single_capture_active (la a);
  k_sblk := la_stream_block_outstanding (la a);
  k_single_pending := single_capture_pending a; k_chain_enabled := capture_chain_enabled a;
  k_chain_pending := capture_chain_pending a; k_block_pending := block_pending a;
  k_analysis := capture_chain_analysis_enabled a; k_mode := stream_mode a;
  k_stream_pending := stream_block_pending a |}.

Definition app_inv a : Prop := la_inv (la a) /\ flags_ok (app_flags a).

(** *** Statements that leave the flags alone *)

Lemma wp_send id m (Q : bool -> app HW WS -> Prop) a :
  (forall ok a', la a' = la a -> app_flags a' = app_flags a -> Q ok a') ->
  st_wp (sendMessage id m) Q a.
Proof.
  intros H. unfold st_wp, sendMessage. st_unfold.
  destruct (ws_sendMessage _ _ _). by apply H.
Qed.

Lemma wp_reply id s (Q : unit -> app HW WS -> Prop) a :
  (forall a', la a' = la a -> app_flags a' = app_flags a -> Q tt a') -> st_wp (reply id s) Q a.
Proof.
  intros H. unfold reply. wp_step. apply wp_send. intros ok a' ? ?. wp_step. by apply H.
Qed.

(** A call of the bridge: it is a step of it, and the rest of the state stays. *)
Lemma wp_la {T} (m : ST (la_state HW) T) (Q : T -> app HW WS -> Prop) a :
  (forall x l, m (la a) = (x, l) -> Q x (a <| la := l |>)) -> st_wp (la_do m) Q a.
Proof.
  intros H. unfold st_wp, la_do. st_unfold. destruct (m (la a)). by apply H.
Qed.

Lemma wp_pico c (Q : Z -> app HW WS -> Prop) a :
  (forall x h, Q x (a <| la := (la a) <| hw := h |> |>)) -> st_wp (pico c) Q a.
Proof.
  intros H. apply wp_la. intros x l. unfold sdk. destruct (hw_call c (hw (la a))).
  intros [= <- <-]. apply H.
Qed.
Lemma wp_pico_ c (Q : unit -> app HW WS -> Prop) a :
  (forall h, Q tt (a <| la := (la a) <| hw := h |> |>)) -> st_wp (pico_ c) Q a.
Proof.
  intros H. apply wp_la. intros [] l. unfold sdk_, sdk. st_unfold.
  destruct (hw_call c (hw (la a))). intros [= <-]. apply H.
Qed.

Lemma wp_send_block b (Q : bool -> app HW WS -> Prop) a :
  (forall ok a', la a' = la a -> app_flags a' = app_flags a -> Q ok a') ->
  st_wp (send_analysis_block b) Q a.
Proof.
  intros H. unfold send_analysis_block. repeat wp_step; [by apply H|].
  apply wp_la. intros x l [= <- <-]. repeat wp_step. apply wp_send. intros ok a' Hl Hf.
  apply H; [by rewrite Hl | by rewrite Hf].
Qed.

(** *** The calls of the bridge, on its flags *)

(** A specification over cores, at a given run. *)
Lemma core_run {T} (m : ST (la_state HW) T) (Q : T -> la_state HW -> Prop) s x s' :
  (forall c r ca bo sr sg sb,
     view_is la_core (core_of c r ca bo sr sg sb) s ->
     r = la_running s -> ca = la_capture_active s -> bo = la_block_outstanding s ->
     sr = la_stream_running s -> sg = la_single_capture_active s ->
     sb = la_stream_block_outstanding s -> Q (st_val m s) (st_end m s)) ->
  m s = (x, s') -> Q x s'.
Proof.
  intros H E. specialize (H _ _ _ _ _ _ _ (core_refl s) eq_refl eq_refl eq_refl eq_refl eq_refl eq_refl).
  st_unfold. by rewrite E in H.
Qed.

Lemma core_flags c r ca bo sr sg sb (s : la_state HW) :
  view_is la_core (core_of c r ca bo sr sg sb) s -> la_flags s = (r, bo, sr, sg, sb).
Proof. unfold view_is, la_core, core_of, la_flags. by intros [= <- <- <- <- <- <- <-]. Qed.

Tactic Notation "core_spec" uconstr(lem) :=
  match goal with
  | |- ?m ?s = (?x, ?s') -> ?P =>
      let Q := constr:(ltac:(let f := eval pattern x, s' in P in
                             match f with ?g x s' => exact g end)) in
      apply (core_run m Q); intros c r ca bo sr sg sb Hk -> -> -> -> -> ->;
      pose proof (lem c _ _ _ _ _ _ s Hk) as Hs; cbv beta in *
  end.

Lemma single_start_flags s pre post trig inv ok s' :
  la_single_capture_start pre post trig inv s = (ok, s') ->
  la_flags s' = (la_running s, la_block_outstanding s, la_stream_running s,
                 if la_is_busy s then la_single_capture_active s else ok,
                 la_stream_block_outstanding s) /\
  (la_is_busy s = true -> ok = false).
Proof.
  core_spec (fun c r ca bo sr sg sb => single_start_core c r ca bo sr sg sb pre post trig inv).
  unfold la_is_busy. destruct Hs as [Hs Hb]. split; [|done].
  destruct (la_running s || la_stream_running s || la_single_capture_active s);
    by apply core_flags in Hs.
Qed.

Lemma single_result_flags s nn o s' :
  la_single_capture_get_result nn s = (o, s') -> la_flags s' = la_flags s.
Proof.
  core_spec (fun c r ca bo sr sg sb => single_result_core c r ca bo sr sg sb nn).
  by apply core_flags in Hs.
Qed.

Lemma single_release_flags s u s' :
  la_single_capture_release s = (u, s') ->
  la_flags s' = (la_running s, la_block_outstanding s, la_stream_running s, false,
                 la_stream_block_outstanding s).
Proof. core_spec single_release_core. by apply core_flags in Hs. Qed.

Lemma single_stop_flags s u s' :
  la_single_capture_stop s = (u, s') ->
  la_flags s' = (la_running s, la_block_outstanding s, la_stream_running s, false,
                 la_stream_block_outstanding s).
Proof. core_spec single_stop_core. by apply core_flags in Hs. Qed.

Lemma chain_start_flags s ok s' :
  la_capture_chain_start s = (ok, s') ->
  la_flags s' = (if la_is_busy s then la_running s else ok,
                 if la_is_busy s then la_block_outstanding s else false,
                 la_stream_running s, la_single_capture_active s,
                 la_stream_block_outstanding s) /\
  (la_is_busy s = true -> ok = false).
Proof.
  core_spec chain_start_core. unfold la_is_busy. destruct Hs as [Hs Hb]. split; [|done].
  destruct (la_running s || la_stream_running s || la_single_capture_active s);
    by apply core_flags in Hs.
Qed.

Lemma chain_take_flags s nn o s' :
  la_capture_chain_take nn s = (o, s') ->
  la_flags s' = (la_running s, is_some o || la_block_outstanding s, la_stream_running s,
                 la_single_capture_active s, la_stream_block_outstanding s).
Proof.
  core_spec (fun c r ca bo sr sg sb => chain_take_core c r ca bo sr sg sb nn).
  destruct Hs as [_ Hs]. destruct (st_val _ _); by apply core_flags in Hs.
Qed.

Lemma chain_release_flags s slot u s' :
  la_capture_chain_release slot s = (u, s') ->
  la_flags s' = (la_running s, negb (la_running s) && la_block_outstanding s, la_stream_running s,
                 la_single_capture_active s, la_stream_block_outstanding s).
Proof.
  core_spec (fun c r ca bo sr sg sb => chain_release_core c r ca bo sr sg sb slot).
  destruct (la_running s), (la_block_outstanding s); cbn in *;
    [destruct Hs as [ok Hs]|..]; by apply core_flags in Hs.
Qed.

Lemma chain_stop_flags s u s' :
  la_capture_chain_stop s = (u, s') ->
  la_flags s' = (false, false, la_stream_running s, la_single_capture_active s,
                 la_stream_block_outstanding s).
Proof. core_spec chain_stop_core. by apply core_flags in Hs. Qed.

Lemma stream_start_flags s ok s' :
  la_stream_start s = (ok, s') ->
  ok = negb (la_is_busy s) /\
  la_flags s' = (la_running s, la_block_outstanding s, ok || la_stream_running s,
                 la_single_capture_active s, negb ok && la_stream_block_outstanding s).
Proof.
  core_spec stream_start_core. unfold la_is_busy. destruct Hs as [Hok Hs]. split; [done|].
  destruct (st_val _ _); by apply core_flags in Hs.
Qed.

Lemma stream_take_flags s nn o s' :
  la_stream_take nn s = (o, s') ->
  la_flags s' = (la_running s, la_block_outstanding s, la_stream_running s,
                 la_single_capture_active s, is_some o || la_stream_block_outstanding s).
Proof.
  core_spec (fun c r ca bo sr sg sb => stream_take_core c r ca bo sr sg sb nn).
  destruct Hs as [_ Hs]. destruct (st_val _ _); by apply core_flags in Hs.
Qed.

Lemma stream_release_flags s slot u s' :
  la_stream_release slot s = (u, s') ->
  la_flags s' = (la_running s, la_block_outstanding s, la_stream_running s,
                 la_single_capture_active s, false).
Proof.
  core_spec (fun c r ca bo sr sg sb => stream_release_core c r ca bo sr sg sb slot).
  by apply core_flags in Hs.
Qed.

Lemma stream_stop_flags s u s' :
  la_stream_stop s = (u, s') ->
  la_flags s' = (la_running s, la_block_outstanding s, false, la_single_capture_active s,
                 negb (la_stream_running s) && la_stream_block_outstanding s).
Proof.
  core_spec stream_stop_core. destruct (la_stream_running s); by apply core_flags in Hs.
Qed.

(** *** The bridge's invariant *)

Definition la_good a : Prop := la_inv (la a).

Lemma la_do_good {T} (m : ST (la_state HW) T) :
  st_keeps la_inv m -> st_keeps la_good (la_do m).
Proof.
  intros H a Ha. unfold la_good, la_do. st_unfold. specialize (H (la a) Ha).
  unfold st_end in H. by destruct (m (la a)).
Qed.
Lemma send_good id m : st_keeps la_good (sendMessage id m).
Proof. intros a Ha. unfold la_good, sendMessage. st_unfold. by destruct (ws_sendMessage _ _ _). Qed.
Lemma mod_good f : (forall a, la (f a) = la a) -> st_keeps la_good (st_mod f).
Proof. intros H a Ha. unfold la_good. cbn. by rewrite H. Qed.
Lemma store_good o : st_keeps la_good (store_block (HW:=HW) (WS:=WS) o).
Proof. destruct o; cbn; [by apply mod_good | apply st_keeps_ret]. Qed.
Lemma step_good {T} (m : ST (la_state HW) T) :
  (forall s, la_step s (st_end m s)) -> st_keeps la_inv m.
Proof. intros H s Hs. by eapply la_step_inv. Qed.
Lemma sdk_good c : st_keeps la_inv (sdk c).
Proof.
  intros s Hs. unfold sdk. st_unfold. destruct (hw_call c (hw s)) as [r h]. cbn.
  eapply la_step_inv; [exact Hs|]. apply step_other, step_hardware.
Qed.
Lemma pico_good c : st_keeps la_good (pico c).
Proof. apply la_do_good, sdk_good. Qed.
Lemma pico__good c : st_keeps la_good (pico_ c).
Proof. apply la_do_good. apply st_keeps_bind; [apply sdk_good|]. eauto with fw. Qed.
Lemma reply_good id s : st_keeps la_good (reply id s).
Proof. apply st_keeps_bind; [apply send_good|]. eauto with fw. Qed.

#[local] Hint Resolve la_do_good send_good store_good pico_good pico__good reply_good : fw.
#[local] Hint Extern 2 (st_keeps la_good (st_mod _)) => (apply mod_good; reflexivity) : fw.
#[local] Hint Extern 3 (st_keeps la_inv _) =>
  (apply step_good; intros ?;
   first [apply step_stream_start | apply step_stream_take | apply step_stream_stop]) : fw.
#[local] Hint Extern 3 (st_keeps la_inv _) =>
  (apply step_good; intros ?; apply step_other; constructor; assumption) : fw.

Lemma set_good id op v print key :
  st_keeps la_inv (op (Some v)) -> st_keeps la_good (set_command id op v print key).
Proof. intros H. unfold set_command. keeps. Qed.

Lemma numeric_good id data : st_keeps la_good (numeric_command id data).
Proof.
  unfold numeric_command.
  repeat match goal with
  | |- context [sscanf ?lit ?b ?s] =>
      let E := fresh "E" in
      destruct (sscanf lit b s) eqn:E;
        [apply sscanf_u32 in E; [|by unfold is_base; auto]; apply set_good; eauto with fw|]
  end. keeps.
Qed.

Lemma send_block_good b : st_keeps la_good (send_analysis_block b).
Proof.
  unfold send_analysis_block. assert (is_u32 (default 0 (@None Z))) by done. keeps.
Qed.
#[local] Hint Resolve numeric_good send_block_good : fw.

Lemma message_good id data : st_keeps la_good (websocket_message id data).
Proof. unfold websocket_message, start_single_capture, start_stream, stop_stream. keeps. Qed.

Lemma tasks_good : st_keeps la_good single_capture_tasks /\
  st_keeps la_good capture_chain_tasks /\ st_keeps la_good stream_tasks.
Proof.
  split_and!; [unfold single_capture_tasks|
    unfold capture_chain_tasks, chain_capture_done, start_capture_chain|
    unfold stream_tasks]; keeps.
Qed.

(** *** The flags, handler by handler *)

Definition flags_good a : Prop := flags_ok (app_flags a).

(** Symbolic execution of a handler, down to equations between flags. *)
Ltac app_run :=
  repeat first
    [ wp_step
    | lazymatch goal with
      | |- st_wp (pico_ ?c) ?Q ?a => refine (wp_pico_ c Q a _); intros ?
      | |- st_wp (pico ?c) ?Q ?a => refine (wp_pico c Q a _); intros ? ?
      | |- st_wp (reply ?id ?s) ?Q ?a => refine (wp_reply id s Q a _); intros ? ? ?
      | |- st_wp (sendMessage ?id ?m) ?Q ?a => refine (wp_send id m Q a _); intros ? ? ? ?
      | |- st_wp (send_analysis_block ?b) ?Q ?a => refine (wp_send_block b Q a _); intros ? ? ? ?
      | |- st_wp (la_do ?m) ?Q ?a => refine (wp_la m Q a _); intros ? ? ?
      | |- st_wp (store_block ?x) _ _ => destruct x; unfold store_block
      | |- st_wp (match ?x with _ => _ end) _ _ => destruct x
      end ].

Ltac app_eqs :=
  repeat match goal with
  | H : la_single_capture_start _ _ _ _ _ = _ |- _ => apply single_start_flags in H as [H ?]
  | H : la_single_capture_get_result _ _ = _ |- _ => apply single_result_flags in H
  | H : la_single_capture_release _ = _ |- _ => apply single_release_flags in H
  | H : la_single_capture_stop _ = _ |- _ => apply single_stop_flags in H
  | H : la_capture_chain_start _ = _ |- _ => apply chain_start_flags in H as [H ?]
  | H : la_capture_chain_take _ _ = _ |- _ => apply chain_take_flags in H
  | H : la_capture_chain_release _ _ = _ |- _ => apply chain_release_flags in H
  | H : la_capture_chain_stop _ = _ |- _ => apply chain_stop_flags in H
  | H : la_stream_start _ = _ |- _ => apply stream_start_flags in H as [? H]
  | H : la_stream_take _ _ = _ |- _ => apply stream_take_flags in H
  | H : la_stream_release _ _ = _ |- _ => apply stream_release_flags in H
  | H : la_stream_stop _ = _ |- _ => apply stream_stop_flags in H
  end.

Ltac flags_solve :=
  app_eqs;
  unfold flags_good, app_flags, la_flags, is_busy, la_is_busy, is_some in *;
  cbn [setf eta eta_app eta_la_state la hw websocket_server single_capture_pending
       single_capture_connection capture_chain_enabled capture_chain_pending stream_connection
       block_pending pending_analysis_block capture_chain_analysis_enabled stream_mode
       stream_block_pending la_running la_block_outstanding la_stream_running
       la_single_capture_active la_stream_block_outstanding orb negb andb] in *;
  repeat match goal with
  | H : mk_flags _ _ _ _ _ _ _ _ _ _ _ _ = mk_flags _ _ _ _ _ _ _ _ _ _ _ _ |- _ =>
      injection H as ? ? ? ? ? ? ? ? ? ? ? ?
  | H : (_, _, _, _, _) = (_, _, _, _, _) |- _ => injection H as ? ? ? ? ?
  end;
  bool_prop;
  match goal with H : flags_ok _ |- _ => destruct H; cbn in * end;
  repeat match goal with
  | H : bool_decide _ = true |- _ => apply bool_decide_eq_true in H
  | H : bool_decide _ = false |- _ => apply bool_decide_eq_false in H
  | H : ?x = ?x |- _ => clear H
  | H : true = false |- _ => discriminate H
  | H : false = true |- _ => discriminate H
  | H : true = _ |- _ => symmetry in H
  | H : false = _ |- _ => symmetry in H
  | H : _ = _ :> la_state _ |- _ => rewrite H in *; clear H
  | H : _ = _ :> bool |- _ => rewrite H in *; clear H
  | H : _ = _ :> StreamMode |- _ => rewrite H in *; clear H
  | H : context [if ?b then _ else _] |- _ => destruct b eqn:?; bool_prop
  | |- context [if ?b then _ else _] => destruct b eqn:?; bool_prop
  end;
  split; cbn;
    repeat match goal with |- context [negb ?b] => destruct b eqn:?; cbn [negb andb] end;
    try match goal with |- ?b = false => destruct b eqn:? | |- false = ?b => destruct b eqn:? end;
    intuition congruence.

Lemma single_tasks_flags a : flags_good a -> st_wp single_capture_tasks (fun _ => flags_good) a.
Proof. intros Ha. unfold single_capture_tasks. app_run; flags_solve. Qed.

Lemma stream_tasks_flags a : flags_good a -> st_wp stream_tasks (fun _ => flags_good) a.
Proof. intros Ha. unfold stream_tasks. app_run; flags_solve. Qed.

Lemma chain_done_flags now a :
  flags_good a -> st_wp (chain_capture_done now) (fun _ => flags_good) a.
Proof. intros Ha. unfold chain_capture_done. app_run; flags_solve. Qed.

(** The three later parts of [capture_chain_tasks]. *)
Lemma chain_restart_flags (b : bool) a :
  flags_good a -> capture_chain_enabled a && negb (capture_chain_pending a) && b = true ->
  st_wp start_capture_chain
    (fun started a' => flags_good (a' <| capture_chain_pending := started |>)) a.
Proof. intros Ha Hb. unfold start_capture_chain. app_run; flags_solve. Qed.

Lemma chain_take_part_flags a :
  flags_good a -> capture_chain_analysis_enabled a && negb (block_pending a) = true ->
  st_wp (let! o := la_do (la_capture_chain_take true) in
         store_block o ;;;
         st_mod (fun a => a <| block_pending := is_some o |>)) (fun _ => flags_good) a.
Proof. intros Ha Hb. app_run; flags_solve. Qed.

Lemma chain_send_part_flags a :
  flags_good a -> block_pending a = true ->
  st_wp (let! sent := send_analysis_block (pending_analysis_block a) in
      st_when sent (
        la_do (la_capture_chain_release (blk_slot (pending_analysis_block a))) ;;;
        st_mod (fun a => a <| block_pending := false |>))) (fun _ => flags_good) a.
Proof. intros Ha Hb. app_run; flags_solve. Qed.

Lemma wp_weaken {S A} (m : ST S A) (Q Q' : A -> S -> Prop) s :
  st_wp m Q' s -> (forall x s', Q' x s' -> Q x s') -> st_wp m Q s.
Proof. unfold st_wp. auto. Qed.

Lemma chain_tasks_flags a : flags_good a -> st_wp capture_chain_tasks (fun _ => flags_good) a.
Proof.
  intros Ha. unfold capture_chain_tasks. wp_step. apply wp_pico. intros now h. wp_step.
  eapply wp_weaken; [by apply chain_done_flags|]. clear Ha. intros go a1 Ha1.
  wp_step; [|done]. do 2 wp_step. wp_step.
  assert (forall a2, flags_good a2 ->
    st_wp (let! a := st_get in
    st_when (capture_chain_analysis_enabled a && negb (block_pending a)) (
      let! o := la_do (la_capture_chain_take true) in
      store_block o ;;;
      st_mod (fun a => a <| block_pending := is_some o |>)) ;;;
    let! a := st_get in
    st_when (block_pending a) (
      let! sent := send_analysis_block (pending_analysis_block a) in
      st_when sent (
        la_do (la_capture_chain_release (blk_slot (pending_analysis_block a))) ;;;
        st_mod (fun a => a <| block_pending := false |>)))) (fun _ => flags_good) a2) as Hrest.
  { intros a2 Ha2. do 3 wp_step.
    assert (forall a3, flags_good a3 -> st_wp (let! a := st_get in
      st_when (block_pending a) (
      let! sent := send_analysis_block (pending_analysis_block a) in
      st_when sent (
        la_do (la_capture_chain_release (blk_slot (pending_analysis_block a))) ;;;
        st_mod (fun a => a <| block_pending := false |>)))) (fun _ => flags_good) a3) as Hsend.
    { intros a3 Ha3. do 3 wp_step; [by apply chain_send_part_flags | done]. }
    wp_step; [|by apply Hsend].
    eapply wp_weaken; [by apply chain_take_part_flags|]. intros u a3 Ha3. by apply Hsend. }
  wp_step; [|by apply Hrest].
  wp_step. eapply wp_weaken; [by eapply chain_restart_flags|]. cbv beta. intros started a2 Ha2.
  wp_step. by apply Hrest.
Qed.

Lemma set_flags id op v print key a :
  (op = la_configure_frequency \/ op = la_configure_chunk_bytes \/ op = la_configure_channel_mask) ->
  flags_good a -> st_wp (set_command id op v print key) (fun _ => flags_good) a.
Proof.
  intros Hop Ha. unfold set_command. wp_step. apply wp_la. intros x l E.
  assert (la_flags l = la_flags (la a)) as Hl.
  { destruct Hop as [-> | [-> | ->]]; unfold la_configure_frequency, la_configure_chunk_bytes,
      la_configure_channel_mask in E; injection E as _ <-; by case_if. }
  clear Hop E. app_run; flags_solve.
Qed.

Lemma numeric_flags id data a :
  flags_good a -> st_wp (numeric_command id data) (fun _ => flags_good) a.
Proof.
  intros Ha. unfold numeric_command.
  do 3 (destruct (sscanf _ _ _); [by apply set_flags; auto|]). app_run; flags_solve.
Qed.

Lemma message_flags id data a :
  flags_good a -> st_wp (websocket_message id data) (fun _ => flags_good) a.
Proof.
  intros Ha. unfold websocket_message, start_single_capture, start_stream, stop_stream.
  wp_step. wp_step.
  do 11 (wp_step; [clear - Ha; app_run; flags_solve|]).
  by apply numeric_flags.
Qed.

Lemma connect_flags id a : flags_good a -> st_wp (websocket_connect id) (fun _ => flags_good) a.
Proof. intros Ha. unfold websocket_connect. app_run; flags_solve. Qed.

(** *** Reachable states *)

(** The events of the program: callbacks of the WebSocket server, the tasks of
    the main loop, the DMA interrupt, the hardware, and the server working on its
    own ([popMessages], [tinyusb_network_poll]). *)
Inductive app_step : app HW WS -> app HW WS -> Prop :=
| app_hardware a h : app_step a (a <| la := (la a) <| hw := h |> |>)
| app_network a w : app_step a (a <| websocket_server := w |>)
| app_dma_irq a original : app_step a (st_end (la_do (la_stream_dma_handler original)) a)
| app_connect a id : app_step a (st_end (websocket_connect id) a)
| app_disconnect a id : app_step a (st_end (websocket_disconnect id) a)
| app_message a id data : app_step a (st_end (websocket_message id data) a)
| app_single a : app_step a (st_end single_capture_tasks a)
| app_chain a : app_step a (st_end capture_chain_tasks a)
| app_stream a : app_step a (st_end stream_tasks a).

Definition app_reachable a : Prop := exists h w, rtc app_step (app_init h w) a.

Lemma app_step_inv a a' : app_inv a -> app_step a a' -> app_inv a'.
Proof.
  intros [Hl Hf] Hs. destruct tasks_good as (G1 & G2 & G3).
  destruct Hs as [a h|a w|a original|a id|a id|a id data|a|a|a].
  - split; [|done]. eapply la_step_inv; [exact Hl|]. apply step_other, step_hardware.
  - done.
  - split; [|done]. eapply la_step_inv; [exact Hl|]. apply step_other, step_dma_irq.
  - split; [|by apply connect_flags]. assert (st_keeps la_good (websocket_connect id)) as K
      by (unfold websocket_connect; keeps). by apply K.
  - done.
  - split; [by apply message_good | by apply message_flags].
  - split; [by apply G1 | by apply single_tasks_flags].
  - split; [by apply G2 | by apply chain_tasks_flags].
  - split; [by apply G3 | by apply stream_tasks_flags].
Qed.

Lemma app_init_inv h w : app_inv (app_init h w).
Proof.
  split; [split; [apply config_wf_init|done..]|].
  split; cbn; try done; intuition congruence.
Qed.

Lemma app_reachable_ok a : app_reachable a -> app_inv a.
Proof.
  intros (h & w & Hr). pose proof (app_init_inv h w) as H0.
  induction Hr as [|a0 a1 a2 Hs Hr IH]; [done|]. apply IH. by eapply app_step_inv.
Qed.

(** C4: in every reachable state of the application the flags of main.cpp agree
    with those of the bridge: the bridge's invariant holds; chain analysis runs
    exactly when its flag is set and streaming exactly when the mode is not
    stopped; a block is pending exactly when the bridge has one outstanding; a
    single capture in the bridge belongs to a pending single capture or to a
    pending chain capture; sessions exclude one another; and, since both sessions
    keep it in the same variable, there is never a pending chain block and a
    pending stream block at once. *)
Theorem app_reachable_inv a :
  app_reachable a ->
  la_inv (la a) /\
  capture_chain_analysis_enabled a = la_running (la a) /\
  (stream_mode a <> stopped <-> la_stream_running (la a) = true) /\
  block_pending a = la_block_outstanding (la a) /\
  stream_block_pending a = la_stream_block_outstanding (la a) /\
  (la_single_capture_active (la a) = true ->
     single_capture_pending a = true \/ capture_chain_pending a = true) /\
  (single_capture_pending a = true ->
     capture_chain_enabled a = false /\ capture_chain_pending a = false /\
     la_running (la a) = false /\ la_stream_running (la a) = false) /\
  block_pending a && stream_block_pending a = false.
Proof.
  intros Hr. destruct (app_reachable_ok a Hr) as [Hl [He Hb Hsb Ha Hbp Hm Hsp Hsg Hch Ho]].
  cbn in *. split_and!; try done; [apply Hm..|].
  rewrite Hbp, Hsp. destruct (la_block_outstanding (la a)), (la_stream_block_outstanding (la a));
    try done. rewrite (He (Hb eq_refl)) in Hsb. by discriminate Hsb.
Qed.
End Inv.
