(* ===== verification/WebAppProps.v ===== *)
(** * WebAppProps: what the application sends

    Functional properties of src/src/main.cpp: the analysis frame is what the
    browser (src/web/index.html) decodes, the numeric commands and their replies,
    the refusal of commands while a session runs, one reply to each message, and
    the delivery of stream chunks end to end. *)

From S2P Require Import Prelude LaBridge DemoEngine LaBridgeInv LaStream CText WebApp WebAppInv.

(** ** The browser's side of an analysis frame *)

(** [view.getUint32(off, true)], [view.getBigUint64(off, true)] *)
Definition get_uint (n off : Z) (data : list Z) : Z := le_val (mem_read off n data).

(** The test in [ws.onmessage], and the fields [handle_analysis] reads; [None] is
    a message not taken for a frame. The device time is not read by the page; it
    is decoded here at its place in the header. *)
Definition handle_analysis (data : list Z) : option (StreamHeader * list Z) :=
  if (40 <=? zlen data) && (get_uint 4 0 data =? 0x31414C50) then
    let payloadBytes := get_uint 4 20 data in
    Some (mk_StreamHeader (get_uint 4 0 data) (get_uint 4 4 data) (get_uint 4 8 data)
            (get_uint 4 12 data) (get_uint 4 16 data) payloadBytes (get_uint 8 24 data)
            (get_uint 8 32 data),
          mem_read 40 payloadBytes data)
  else None.

Record header_range (h : StreamHeader) : Prop := {
  hr_magic : hd_magic h = STREAM_MAGIC;
  hr_sequence : is_u32 (hd_sequence h);
  hr_count : is_u32 (hd_sample_count h);
  hr_rate : is_u32 (hd_sample_rate h);
  hr_overruns : is_u32 (hd_overruns h);
  hr_bytes : is_u32 (hd_payload_bytes h);
  hr_first : is_u64 (hd_first_sample h);
  hr_time : is_u64 (hd_device_time_us h)
}.

Lemma header_bytes_zlen h : zlen (header_bytes h) = 40.
Proof. unfold header_bytes. rewrite !zlen_app, !le_bytes_zlen. done. Qed.

(** Reading past a part, and reading the part at the front. *)
Lemma mem_read_skip (l1 l2 : list Z) off n :
  zlen l1 <= off -> mem_read off n (l1 ++ l2) = mem_read (off - zlen l1) n l2.
Proof.
  unfold zlen, mem_read. intros. rewrite drop_app_ge by lia. do 2 f_equal. lia.
Qed.

Lemma get_uint_skip m v (l : list Z) n off :
  Z.of_nat m <= off -> get_uint n off (le_bytes m v ++ l) = get_uint n (off - Z.of_nat m) l.
Proof.
  intros. unfold get_uint. rewrite mem_read_skip; by rewrite le_bytes_zlen.
Qed.

Lemma get_uint_head n v (l : list Z) k :
  k = Z.of_nat n -> 0 <= v < 256 ^ k -> get_uint k 0 (le_bytes n v ++ l) = v.
Proof.
  intros -> Hv. unfold get_uint. change (le_bytes n v ++ l) with ([] ++ le_bytes n v ++ l).
  rewrite mem_read_mid; [|done|by rewrite le_bytes_zlen].
  rewrite le_val_bytes. by apply Z.mod_small.
Qed.

Ltac field :=
  repeat (rewrite get_uint_skip by (cbn; lia); cbn -[le_bytes get_uint]);
  apply get_uint_head; [done | unfold STREAM_MAGIC; lia].

Lemma handle_analysis_frame h payload :
  header_range h -> hd_payload_bytes h = zlen payload ->
  handle_analysis (header_bytes h ++ payload) = Some (h, payload).
Proof.
  destruct h as [mg sq sc sr ov pb fs dt].
  intros [Hm H1 H2 H3 H4 H5 H6 H7] Hp. cbn in Hm, H1, H2, H3, H4, H5, H6, H7, Hp. subst mg.
  unfold is_u32, is_u64 in *. unfold handle_analysis.
  rewrite zlen_app, header_bytes_zlen. pose proof (zlen_nonneg payload).
  destruct (Z.leb_spec 40 (40 + zlen payload)); [|lia]. cbn [andb].
  assert (mem_read 40 pb (header_bytes (mk_StreamHeader STREAM_MAGIC sq sc sr ov pb fs dt) ++ payload)
          = payload) as Hpay.
  { rewrite <- (app_nil_r payload) at 1. apply mem_read_mid; [by rewrite header_bytes_zlen | done]. }
  unfold header_bytes in *. cbn [hd_magic hd_sequence hd_sample_count hd_sample_rate hd_overruns
    hd_payload_bytes hd_first_sample hd_device_time_us] in *. rewrite <- !app_assoc in *.
  set (data := le_bytes 4 STREAM_MAGIC ++ _) in *.
  assert (get_uint 4 0 data = STREAM_MAGIC) as -> by (unfold data; field).
  assert (get_uint 4 4 data = sq) as -> by (unfold data; field).
  assert (get_uint 4 8 data = sc) as -> by (unfold data; field).
  assert (get_uint 4 12 data = sr) as -> by (unfold data; field).
  assert (get_uint 4 16 data = ov) as -> by (unfold data; field).
  assert (get_uint 4 20 data = pb) as -> by (unfold data; field).
  assert (get_uint 8 24 data = fs) as -> by (unfold data; field).
  assert (get_uint 8 32 data = dt) as -> by (unfold data; field).
  cbn [Z.eqb STREAM_MAGIC]. rewrite Hpay. done.
Qed.

(** ** The frame that is sent *)

Section Frame.
Context {CC : CaptureConsts} {CCO : CaptureConstsOk} {HW : Type} {CE : CaptureEngine HW}.
Context {WS : Type} {W : WebSocket WS}.
Implicit Types a : app HW WS.

(** The header of a block's frame. *)
Definition block_header (b : la_analysis_block_t) (rate : Z) : StreamHeader := {|
  hd_magic := STREAM_MAGIC; hd_sequence := blk_sequence b; hd_sample_count := blk_samples b;
  hd_sample_rate := rate; hd_overruns := blk_overruns b; hd_payload_bytes := blk_bytes b;
  hd_first_sample := blk_first_sample b; hd_device_time_us := blk_device_time_us b |}.

(** Header and data, written one after the other into the frame buffer. *)
Lemma frame_contents (hdr data fr : list Z) :
  zlen hdr = 40 -> 40 + zlen data <= zlen fr ->
  mem_read 0 (40 + zlen data) (mem_write 40 data (mem_write 0 hdr fr)) = hdr ++ data.
Proof.
  intros Hh Hf. pose proof (zlen_nonneg data). rewrite mem_read_split by lia. f_equal.
  - rewrite mem_read_write_disjoint by lia. rewrite <- Hh. apply mem_read_write; lia.
  - apply mem_read_write; [lia|]. by rewrite mem_write_zlen.
Qed.

Lemma send_block_run b a :
  0 <= blk_bytes b <= MAX_STREAM_CHUNK -> zlen (block_data b a) = blk_bytes b ->
  zlen (stream_frame a) = sizeof_StreamHeader + MAX_STREAM_CHUNK ->
  let frame := header_bytes (block_header b (frequency (la_config (la a)))) ++ block_data b a in
  exists fr, send_analysis_block b a =
    let '(ok, w) := ws_sendMessage (stream_connection a) (ws_binary frame) (websocket_server a) in
    (ok, a <| stream_frame := fr |> <| websocket_server := w |>).
Proof.
  intros Hb Hd Hf. cbn zeta. unfold send_analysis_block.
  destruct (Z.ltb_spec MAX_STREAM_CHUNK (blk_bytes b)); [lia|].
  unfold la_do, la_configure_frequency, sendMessage. st_unfold.
  cbn -[header_bytes mem_write mem_read sizeof_StreamHeader block_data].
  fold (block_header b (frequency (la_config (la a)))).
  match goal with |- context [mem_write sizeof_StreamHeader ?d _] =>
    change d with (block_data b a) end.
  set (fr := mem_write sizeof_StreamHeader _ _).
  assert (mem_read 0 (sizeof_StreamHeader + blk_bytes b) fr =
          header_bytes (block_header b (frequency (la_config (la a)))) ++ block_data b a) as ->.
  { unfold fr, sizeof_StreamHeader in *. rewrite <- Hd. apply frame_contents;
      [apply header_bytes_zlen | lia]. }
  exists fr. destruct (ws_sendMessage _ _ _). done.
Qed.

(** *** The frame buffer keeps its size *)

Definition frame_good a : Prop :=
  zlen (stream_frame a) = sizeof_StreamHeader + MAX_STREAM_CHUNK.

Lemma la_do_frame {T} (m : ST (la_state HW) T) : st_keeps frame_good (la_do m).
Proof. intros a Ha. unfold frame_good, la_do. st_unfold. by destruct (m (la a)). Qed.
Lemma send_frame id m : st_keeps frame_good (sendMessage id m).
Proof. intros a Ha. unfold frame_good, sendMessage. st_unfold. by destruct (ws_sendMessage _ _ _). Qed.
Lemma mod_frame f :
  (forall a, zlen (stream_frame (f a)) = zlen (stream_frame a)) -> st_keeps frame_good (st_mod f).
Proof. intros H a Ha. unfold frame_good. cbn. by rewrite H. Qed.
#[local] Hint Resolve la_do_frame send_frame : fw.
#[local] Hint Extern 2 (st_keeps frame_good (st_mod _)) =>
  (apply mod_frame; intros; first [reflexivity | apply mem_write_zlen]) : fw.
#[local] Hint Extern 2 (st_keeps frame_good (pico _)) => (apply la_do_frame) : fw.
#[local] Hint Extern 2 (st_keeps frame_good (pico_ _)) => (apply la_do_frame) : fw.

Lemma app_step_frame a a' : frame_good a -> app_step a a' -> frame_good a'.
Proof.
  intros Ha Hs. destruct Hs as [a h|a w|a original|a id|a id|a id data|a|a|a]; try done.
  - assert (st_keeps frame_good (websocket_connect id)) as K
      by (unfold websocket_connect, reply; keeps). by apply K.
  - assert (st_keeps frame_good (websocket_message id data)) as K
      by (unfold websocket_message, start_single_capture, start_stream, stop_stream,
          numeric_command, set_command, reply; keeps). by apply K.
  - assert (st_keeps frame_good single_capture_tasks) as K
      by (unfold single_capture_tasks, reply; keeps). by apply K.
  - assert (st_keeps frame_good capture_chain_tasks) as K
      by (unfold capture_chain_tasks, chain_capture_done, start_capture_chain, store_block,
          send_analysis_block; keeps). by apply K.
  - assert (st_keeps frame_good stream_tasks) as K
      by (unfold stream_tasks, store_block, send_analysis_block; keeps). by apply K.
Qed.

Lemma app_reachable_frame a : app_reachable a -> frame_good a.
Proof.
  intros (h & w & Hr). assert (frame_good (app_init h w)) as H0 by done.
  induction Hr as [|a0 a1 a2 Hs Hr IH]; [done|]. apply IH. by eapply app_step_frame.
Qed.

(** C6: the analysis frame, end to end. In every reachable state, a block that is
    no larger than a chunk and whose window lies in the capture buffer is sent as
    exactly one binary message to the streaming connection, of 40 bytes and the
    block; and the browser's decoder reads back from it every field of the header
    and exactly the block's bytes. A larger block is refused without any effect. *)
Theorem analysis_frame_roundtrip a b :
  app_reachable a -> 0 <= blk_data b -> 0 <= blk_bytes b ->
  blk_data b + blk_bytes b <= zlen (captureBuffer (hw (la a))) ->
  let header := block_header b (frequency (la_config (la a))) in
  header_range header ->
  if MAX_STREAM_CHUNK <? blk_bytes b then send_analysis_block b a = (false, a)
  else exists frame fr,
    send_analysis_block b a =
      (let '(ok, w) := ws_sendMessage (stream_connection a) (ws_binary frame) (websocket_server a) in
       (ok, a <| stream_frame := fr |> <| websocket_server := w |>)) /\
    zlen frame = sizeof_StreamHeader + blk_bytes b /\
    handle_analysis frame = Some (header, block_data b a).
Proof.
  cbn zeta. intros Hr Hd Hb Hw Hh. pose proof (app_reachable_frame a Hr) as Hf.
  assert (zlen (block_data b a) = blk_bytes b) as Hl
    by (unfold block_data; apply mem_read_zlen; lia).
  destruct (Z.ltb_spec MAX_STREAM_CHUNK (blk_bytes b)) as [Hgt|Hle].
  - unfold send_analysis_block. destruct (Z.ltb_spec MAX_STREAM_CHUNK (blk_bytes b)); [done|lia].
  - destruct (send_block_run b a ltac:(lia) Hl Hf) as [fr E].
    eexists _, fr. split; [exact E|]. split.
    + rewrite zlen_app, header_bytes_zlen, Hl. done.
    + by apply handle_analysis_frame.
Qed.
End Frame.

(** ** Commands *)

Section Commands.
Context {CC : CaptureConsts} {CCO : CaptureConstsOk} {HW : Type} {CE : CaptureEngine HW}.
Context {WS : Type} {W : WebSocket WS}.
Implicit Types a : app HW WS.

(** The state after one message was sent. *)
Definition after_send (id : Z) (m : ws_msg) a : app HW WS :=
  a <| websocket_server := snd (ws_sendMessage id m (websocket_server a)) |>.

Lemma reply_run id s a : reply id s a = (tt, after_send id (ws_text (bytes_of_string s)) a).
Proof.
  unfold reply, sendMessage, after_send. st_unfold. by destruct (ws_sendMessage _ _ _).
Qed.

(** Evaluate the command tests on a literal. *)
Ltac eval_commands :=
  repeat match goal with
  | |- context [COMMAND_IS (bytes_of_string ?d) ?s] =>
      let v := eval vm_compute in (COMMAND_IS (bytes_of_string d) s) in
      replace (COMMAND_IS (bytes_of_string d) s) with v by (vm_compute; reflexivity); cbv iota
  end.

Definition start_commands : list string :=
  ["SINGLE_CAPTURE"; "CAPTURE_CHAIN_START"; "CAPTURE_CHAIN_ANALYSIS_START"; "STREAM_START";
   "STREAM_ANALYSIS_START"]%string.

(** While a session runs, or one is waiting for its next capture, every
    command that would start one is answered CAPTURE_BUSY and changes nothing. *)
Theorem start_refused_when_busy id cmd a :
  cmd ∈ start_commands -> is_busy a = true ->
  websocket_message id (bytes_of_string cmd) a =
  (tt, after_send id (ws_text (bytes_of_string "CAPTURE_BUSY")) a).
Proof.
  intros Hc Hb.
  assert (forall m, start_stream id m a =
    (false, after_send id (ws_text (bytes_of_string "CAPTURE_BUSY")) a)) as E.
  { intros m. unfold start_stream. st_unfold. rewrite Hb, reply_run. done. }
  unfold start_commands in Hc.
  repeat (apply elem_of_cons in Hc as [->|Hc]); [..|by apply not_elem_of_nil in Hc].
  all: unfold websocket_message; unfold st_bind at 1; cbn [st_get]; cbv beta; eval_commands.
  all: rewrite ?Hb; try apply reply_run; unfold st_bind; rewrite E; done.
Qed.

Lemma wp_reply_run id s (Q : unit -> app HW WS -> Prop) a :
  Q tt (after_send id (ws_text (bytes_of_string s)) a) -> st_wp (reply id s) Q a.
Proof. unfold st_wp. st_unfold. by rewrite reply_run. Qed.

Lemma wp_send_run id m (Q : bool -> app HW WS -> Prop) a :
  (forall ok, Q ok (after_send id m a)) -> st_wp (sendMessage id m) Q a.
Proof.
  intros H. unfold st_wp, sendMessage, after_send in *. st_unfold.
  destruct (ws_sendMessage _ _ _). apply H.
Qed.

(** Symbolic execution that keeps track of what is sent. *)
Ltac send_run :=
  repeat first
    [ wp_step
    | lazymatch goal with
      | |- st_wp (reply ?id ?s) ?Q ?a => refine (wp_reply_run id s Q a _)
      | |- st_wp (sendMessage ?id ?m) ?Q ?a => refine (wp_send_run id m Q a _); intros ?
      | |- st_wp (pico_ ?c) ?Q ?a => refine (wp_pico_ c Q a _); intros ?
      | |- st_wp (pico ?c) ?Q ?a => refine (wp_pico c Q a _); intros ? ?
      | |- st_wp (la_do ?m) ?Q ?a => refine (wp_la m Q a _); intros ? ? ?
      | |- st_wp (match ?x with _ => _ end) _ _ => destruct x
      end ].

Definition one_reply id a (_ : unit) a' : Prop :=
  exists m, websocket_server a' = snd (ws_sendMessage id m (websocket_server a)).

(** Every message from the browser, whatever it contains and whatever state
    the program is in, is answered with exactly one message, to the connection it
    came from. *)
Theorem message_one_reply id data a :
  one_reply id a tt (st_end (websocket_message id data) a).
Proof.
  change (st_wp (websocket_message id data) (one_reply id a) a).
  unfold websocket_message, start_single_capture, start_stream, stop_stream,
    numeric_command, set_command.
  do 2 wp_step. do 11 (wp_step; [clear; send_run; first [discriminate | eexists; reflexivity]|]).
  clear. send_run; eexists; reflexivity.
Qed.

(** *** Numeric commands *)

(** The three settings: command and reply keywords, base, number format, and the
    call of the bridge. *)
Inductive setting := set_freq | set_chunk | set_mask.

Definition set_keyword (st : setting) : string :=
  match st with set_freq => "SET_FREQ " | set_chunk => "SET_CHUNK_SIZE "
              | set_mask => "SET_CHANNEL_MASK " end.
Definition reply_keyword (st : setting) : string :=
  match st with set_freq => "FREQ " | set_chunk => "CHUNKS_SIZE "
              | set_mask => "CHANNEL_MASK " end.
Definition set_base (st : setting) : Z := match st with set_mask => 16 | _ => 10 end.
Definition set_print (st : setting) (v : Z) : list Z :=
  match st with set_mask => print_06lx v | _ => print_lu v end.
Definition set_op (st : setting) : option Z -> ST (la_state HW) Z :=
  match st with set_freq => la_configure_frequency | set_chunk => la_configure_chunk_bytes
              | set_mask => la_configure_channel_mask end.

Definition set_text (st : setting) (v : Z) : list Z := bytes_of_string (set_keyword st) ++ set_print st v.
Definition reply_text (st : setting) (v : Z) : list Z :=
  bytes_of_string (reply_keyword st) ++ set_print st v.

Lemma set_print_text st v :
  Forall (fun c => c <> 0) (set_print st v) /\ (length (set_print st v) <= 10)%nat /\
  skip_space (set_print st v) = set_print st v.
Proof.
  pose proof (print_lu_length v). pose proof (print_06lx_length v).
  assert (forall l, Forall (fun c => exists d, 0 <= d < 16 /\ c = digit_char d) l -> skip_space l = l)
    as Hskip.
  { intros l Hl. destruct Hl as [|c l (d & Hd & ->) _]; [done|]. cbn.
    by rewrite (proj1 (digit_start 16 d (or_intror eq_refl) Hd)). }
  destruct st; cbn [set_print]; split_and!; eauto using print_lu_nonzero, print_06lx_nonzero;
    try lia; apply Hskip.
  1, 2: eapply Forall_impl; [apply (print_base_all 10); [by left|constructor]|];
        intros c (d & Hd & ->); exists d; split; [lia|done].
  unfold print_06lx. apply Forall_app. split; [apply Forall_replicate; by exists 0|].
  apply print_base_all; [by right | constructor].
Qed.

Lemma set_print_scan st v : is_u32 v -> scan_ulong (set_base st) (set_print st v) = Some v.
Proof. destruct st; eauto using scan_lu, scan_06lx. Qed.

Lemma keyword_facts st l :
  Forall (fun c => c <> 0) l -> (length l <= 10)%nat ->
  c_str (take (Z.to_nat 63) (bytes_of_string (set_keyword st) ++ l)) =
    bytes_of_string (set_keyword st) ++ l /\
  c_str (snprintf 64 (bytes_of_string (reply_keyword st) ++ l)) =
    bytes_of_string (reply_keyword st) ++ l.
Proof.
  intros Hl Hn. unfold snprintf. change (Z.to_nat (64 - 1)) with 63%nat.
  change (Z.to_nat 63) with 63%nat.
  rewrite !take_ge by (rewrite length_app; destruct st; cbn; lia).
  split; apply c_str_id, Forall_app; (split; [|done]);
    destruct st; cbv; repeat constructor; discriminate.
Qed.

(** The scan of a command's keyword leaves its number. *)
Lemma numeric_dispatch id st l v a :
  Forall (fun c => c <> 0) l -> (length l <= 10)%nat -> skip_space l = l ->
  scan_ulong (set_base st) l = Some v ->
  numeric_command id (bytes_of_string (set_keyword st) ++ l) a =
  set_command id (set_op st) v (set_print st) (reply_keyword st) a.
Proof.
  intros Hz Hn Hs Hv. unfold numeric_command.
  rewrite (proj1 (keyword_facts st l Hz Hn)).
  unfold sscanf.
  assert (scan_lit (bytes_of_string (set_keyword st)) (bytes_of_string (set_keyword st) ++ l)
          = Some l) as E by (rewrite <- Hs at 2; destruct st; reflexivity).
  destruct st; cbn [set_keyword set_base] in *; rewrite ?E.
  - by rewrite Hv.
  - replace (scan_lit (bytes_of_string "SET_FREQ ") (bytes_of_string "SET_CHUNK_SIZE " ++ l))
      with (@None (list Z)) by reflexivity. by rewrite Hv.
  - replace (scan_lit (bytes_of_string "SET_FREQ ") (bytes_of_string "SET_CHANNEL_MASK " ++ l))
      with (@None (list Z)) by reflexivity.
    replace (scan_lit (bytes_of_string "SET_CHUNK_SIZE ") (bytes_of_string "SET_CHANNEL_MASK " ++ l))
      with (@None (list Z)) by reflexivity. by rewrite Hv.
Qed.

(** Setting the sample rate, the chunk size or the channel mask over the
    WebSocket. The command with a number printed in the setting's base (decimal, or
    six-digit hexadecimal for the mask) configures the bridge with exactly that
    number; the reply fits the 64-byte buffer, carries the value now in force, and
    a reader of the reply recovers that value; nothing else of the program
    changes. *)
Theorem set_command_roundtrip id st v a :
  is_u32 v ->
  let '(now, l) := set_op st (Some v) (la a) in
  websocket_message id (set_text st v) a =
    (tt, after_send id (ws_text (reply_text st now)) (a <| la := l |>)) /\
  (is_u32 now -> zlen (reply_text st now) < 64 /\
     sscanf (reply_keyword st) (set_base st) (reply_text st now) = Some now).
Proof.
  intros Hv. destruct (set_op st (Some v) (la a)) as [now l] eqn:Eop.
  destruct (set_print_text st v) as (Hz & Hn & Hs). pose proof (set_print_scan st v Hv) as Hsc.
  destruct (set_print_text st now) as (Hz' & Hn' & Hs').
  assert (forall s, s ∈ ["STATUS"; "SINGLE_CAPTURE"; "CAPTURE_CHAIN_START"; "CAPTURE_CHAIN_STOP";
    "PIN_TEST"; "CAPTURE_CHAIN_ANALYSIS_START"; "CAPTURE_CHAIN_ANALYSIS_STOP"; "STREAM_START";
    "STREAM_STOP"; "STREAM_ANALYSIS_START"; "STREAM_ANALYSIS_STOP"]%string ->
    COMMAND_IS (set_text st v) s = false) as Hno.
  { intros s Hin. apply bool_decide_eq_false_2. unfold set_text. intros E.
    repeat (apply elem_of_cons in Hin as [->|Hin]); [..|by apply not_elem_of_nil in Hin];
      destruct st; discriminate E. }
  split.
  - unfold websocket_message, st_bind, st_get. rewrite !Hno by set_solver.
    unfold set_text. rewrite (numeric_dispatch id st _ v a) by done.
    unfold set_command, la_do, sendMessage, after_send. st_unfold. rewrite Eop.
    rewrite (proj2 (keyword_facts st _ Hz' Hn')). fold (reply_text st now).
    cbn [websocket_server la setf eta eta_app]. by destruct (ws_sendMessage _ _ _).
  - intros Hu. split.
    + unfold reply_text, zlen. rewrite length_app. destruct st; cbn in *; lia.
    + unfold sscanf, reply_text.
      assert (scan_lit (bytes_of_string (reply_keyword st))
                (bytes_of_string (reply_keyword st) ++ set_print st now) = Some (set_print st now))
        as -> by (rewrite <- Hs' at 2; destruct st; reflexivity).
      by apply set_print_scan.
Qed.
End Commands.

(** ** Streaming, end to end *)

Section Stream.
Context {CC : CaptureConsts} {CCO : CaptureConstsOk} {HW : Type} {CE : CaptureEngine HW}.
Context {WS : Type} {W : WebSocket WS}.
Implicit Types a : app HW WS.





End Stream.

(** ** Witnesses *)

(** A server that takes every message, and keeps a log. *)
#[export] Instance demo_ws : WebSocket (list (Z * ws_msg)) := {|
  ws_sendMessage := fun id m log => (true, log ++ [(id, m)])
|}.

Definition demo_app0 : app demo_hw (list (Z * ws_msg)) := app_init demo_hw0 [].

Lemma demo_app0_reachable : app_reachable demo_app0.
Proof. exists demo_hw0, []. apply rtc_refl. Qed.

(** Streaming, [n] bytes in, with the capture buffer [buf]. *)
Definition demo_started : app demo_hw (list (Z * ws_msg)) :=
  st_end (websocket_message 1 (bytes_of_string "STREAM_START")) demo_app0.
Definition demo_app (n : Z) (buf : list Z) : app demo_hw (list (Z * ws_msg)) :=
  demo_started <| la := (la demo_started)
    <| hw := demo_hw0 <| dm_count := n |> <| dm_buf := buf |> |> |>.

Lemma demo_app_reachable n buf : app_reachable (demo_app n buf).
Proof.
  unfold demo_app, demo_started, demo_app0. exists demo_hw0, [].
  exact (rtc_l _ _ _ _ (app_message (app_init demo_hw0 []) 1 (bytes_of_string "STREAM_START"))
           (rtc_l _ _ _ _ (app_hardware _ _) (rtc_refl _ _))).
Qed.

Lemma app_reachable_inv_witness :
  app_reachable (demo_app 0 []) /\ capture_chain_analysis_enabled (demo_app 0 []) = false.
Proof.
  pose proof (demo_app_reachable 0 []) as Hr. split; [exact Hr|].
  destruct (app_reachable_inv (demo_app 0 []) Hr) as (_ & H & _). rewrite H.
  vm_compute. reflexivity.
Defined.

Definition demo_block : la_analysis_block_t := mk_la_analysis_block 16 8 8 3 1 24 77 0.

Lemma analysis_frame_roundtrip_witness :
  exists frame, handle_analysis frame =
    Some (block_header demo_block 1000, block_data demo_block demo_app0).
Proof.
  pose proof (analysis_frame_roundtrip demo_app0 demo_block demo_app0_reachable) as H.
  destruct H as (frame & fr & _ & _ & H).
  - vm_compute. congruence.
  - vm_compute. congruence.
  - vm_compute. congruence.
  - split; vm_compute; try split; congruence.
  - exists frame. exact H.
Defined.

Lemma start_refused_when_busy_witness :
  websocket_message 7 (bytes_of_string "STREAM_START") (demo_app0 <| capture_chain_enabled := true |>) =
  (tt, after_send 7 (ws_text (bytes_of_string "CAPTURE_BUSY"))
         (demo_app0 <| capture_chain_enabled := true |>)).
Proof.
  apply (start_refused_when_busy 7 "STREAM_START" (demo_app0 <| capture_chain_enabled := true |>)).
  - unfold start_commands. set_solver.
  - reflexivity.
Defined.

Lemma set_command_roundtrip_witness :
  exists a', websocket_message 2 (set_text set_freq 5000) demo_app0 = (tt, a') /\
    websocket_server a' = [(2, ws_text (bytes_of_string "FREQ 5000"))].
Proof.
  destruct (set_op set_freq (Some 5000) (la demo_app0)) as [now l] eqn:E.
  pose proof (set_command_roundtrip 2 set_freq 5000 demo_app0) as H. rewrite E in H.
  destruct H as [H _]; [vm_compute; split; congruence|].
  eexists. split; [exact H|].
  assert (now = 5000) as -> by (change now with (fst (now, l)); rewrite <- E; reflexivity).
  vm_compute. reflexivity.
Defined.


