(* ===== verification/Fifo.v ===== *)
(** * Fifo: TinyUSB's byte FIFO (src/src/common/tusb_fifo.c, tusb_fifo.h)

    A ring of [depth] bytes with two indices that run over [0, 2*depth), so that a
    full ring is told from an empty one and a single overflow can be recovered.
    Built without the hardware-FIFO API and without mutexes, as the firmware
    configures it. The theorems show that the FIFO refines a bounded queue. *)

From S2P Require Import Prelude.

(** ** Data *)

Record tu_fifo_t := mk_tu_fifo {
  ff_buffer : list Z;
  ff_depth : Z;
  ff_overwritable : bool;
  ff_wr_idx : Z;
  ff_rd_idx : Z
}.
#[export] Instance eta_fifo : Eta tu_fifo_t := fun f =>
  mk_tu_fifo (ff_buffer f) (ff_depth f) (ff_overwritable f) (ff_wr_idx f) (ff_rd_idx f).

(** A piece of the ring: its length and, unless NULL, its offset in the buffer. *)
Record ff_info := mk_ff_info { info_len : Z; info_ptr : option Z }.

Record tu_fifo_buffer_info_t := mk_ff_buffer_info { linear : ff_info; wrapped : ff_info }.

(** ** Index arithmetic *)

Definition tu_ff_overflow_count (depth wr rd : Z) : Z :=
  let diff := wr - rd in
  if 0 <=? diff then u16 diff else u16 (2 * depth + diff).

Definition tu_ff_remaining_local (depth wr rd : Z) : Z :=
  let ovf := tu_ff_overflow_count depth wr rd in
  if ovf <? depth then depth - ovf else 0.

Definition advance_index (depth idx offset : Z) : Z :=
  let new_idx := u16 (idx + offset) in
  if (new_idx <? idx) || (2 * depth <=? new_idx) then
    let non_used_index_space := u16 (65535 - (2 * depth - 1)) in
    u16 (new_idx + non_used_index_space)
  else new_idx.

(** [while (idx >= depth) idx -= depth;] with one more turn than it can make for a
    positive depth. *)
Fixpoint idx2ptr_loop (fuel : nat) (depth idx : Z) : Z :=
  match fuel with
  | O => idx
  | S fuel => if depth <=? idx then idx2ptr_loop fuel depth (idx - depth) else idx
  end.
Definition idx2ptr (depth idx : Z) : Z := idx2ptr_loop (S (Z.to_nat idx)) depth idx.

Definition tu_min16 (a b : Z) : Z := if a <? b then a else b.

(** ** Operations *)

Definition tu_fifo_config (f : tu_fifo_t) (buffer : list Z) (depth : Z) (overwritable : bool)
    : bool * tu_fifo_t :=
  if 0x8000 <? depth then (false, f)
  else (true, f <| ff_buffer := buffer |> <| ff_depth := depth |>
                <| ff_overwritable := overwritable |> <| ff_rd_idx := 0 |> <| ff_wr_idx := 0 |>).

Definition tu_fifo_clear (f : tu_fifo_t) : tu_fifo_t :=
  f <| ff_rd_idx := 0 |> <| ff_wr_idx := 0 |>.

Definition tu_fifo_set_overwritable (f : tu_fifo_t) (overwritable : bool) : tu_fifo_t :=
  if eqb (ff_overwritable f) overwritable then f else f <| ff_overwritable := overwritable |>.

Definition tu_fifo_empty (f : tu_fifo_t) : bool := ff_wr_idx f =? ff_rd_idx f.
Definition tu_fifo_count (f : tu_fifo_t) : Z :=
  tu_min16 (tu_ff_overflow_count (ff_depth f) (ff_wr_idx f) (ff_rd_idx f)) (ff_depth f).
Definition tu_fifo_full (f : tu_fifo_t) : bool :=
  ff_depth f <=? tu_ff_overflow_count (ff_depth f) (ff_wr_idx f) (ff_rd_idx f).
Definition tu_fifo_remaining (f : tu_fifo_t) : Z :=
  tu_ff_remaining_local (ff_depth f) (ff_wr_idx f) (ff_rd_idx f).

(** The buffer after [n] bytes of [app_buf] were copied in at [wr_ptr]. *)
Definition ff_push_n (f : tu_fifo_t) (app_buf : list Z) (n wr_ptr : Z) : list Z :=
  let lin_bytes := u16 (ff_depth f - wr_ptr) in
  let wrap_bytes := u16 (n - lin_bytes) in
  if n <=? lin_bytes then mem_write wr_ptr (mem_read 0 n app_buf) (ff_buffer f)
  else
    mem_write 0 (mem_read lin_bytes wrap_bytes app_buf)
      (mem_write wr_ptr (mem_read 0 lin_bytes app_buf) (ff_buffer f)).

(** The [n] bytes copied out from [rd_ptr]. *)
Definition ff_pull_n (f : tu_fifo_t) (n rd_ptr : Z) : list Z :=
  let lin_bytes := u16 (ff_depth f - rd_ptr) in
  let wrap_bytes := u16 (n - lin_bytes) in
  if n <=? lin_bytes then mem_read rd_ptr n (ff_buffer f)
  else mem_read rd_ptr lin_bytes (ff_buffer f) ++ mem_read 0 wrap_bytes (ff_buffer f).

Definition correct_read_index (f : tu_fifo_t) (wr_idx : Z) : Z * tu_fifo_t :=
  let rd_idx := if ff_depth f <=? wr_idx then u16 (wr_idx - ff_depth f)
                else u16 (wr_idx + ff_depth f) in
  (rd_idx, f <| ff_rd_idx := rd_idx |>).

(** The bytes copied to the caller (as many as the return value), and the FIFO. *)
Definition tu_fifo_peek_n_access_mode (f : tu_fifo_t) (n wr_idx rd_idx : Z) : list Z * tu_fifo_t :=
  let count := tu_ff_overflow_count (ff_depth f) wr_idx rd_idx in
  if count =? 0 then ([], f)
  else
    let '(rd_idx, count, f) :=
      if ff_depth f <? count
      then let '(rd_idx, f) := correct_read_index f wr_idx in (rd_idx, ff_depth f, f)
      else (rd_idx, count, f) in
    let n := if count <? n then count else n in
    let rd_ptr := idx2ptr (ff_depth f) rd_idx in
    (ff_pull_n f n rd_ptr, f).

Definition tu_fifo_peek_n (f : tu_fifo_t) (n : Z) : list Z * tu_fifo_t :=
  tu_fifo_peek_n_access_mode f n (ff_wr_idx f) (ff_rd_idx f).

Definition tu_fifo_read_n (f : tu_fifo_t) (n : Z) : list Z * tu_fifo_t :=
  let '(data, f) := tu_fifo_peek_n_access_mode f n (ff_wr_idx f) (ff_rd_idx f) in
  (data, f <| ff_rd_idx := advance_index (ff_depth f) (ff_rd_idx f) (zlen data) |>).

(** [n] bytes at [data]; the value is the number written. *)
Definition tu_fifo_write_n (f : tu_fifo_t) (data : list Z) (n : Z) : Z * tu_fifo_t :=
  if n =? 0 then (0, f)
  else
    let wr_idx := ff_wr_idx f in
    let rd_idx := ff_rd_idx f in
    let depth := ff_depth f in
    let '(n, wr_idx, buf8) :=
      if negb (ff_overwritable f) then
        (tu_min16 n (tu_ff_remaining_local depth wr_idx rd_idx), wr_idx, data)
      else if depth <=? n then
        (depth, rd_idx, drop (Z.to_nat (n - depth)) data)
      else
        let overflowable_count := tu_ff_overflow_count depth wr_idx rd_idx in
        if 2 * depth <=? overflowable_count + n
        then (n, advance_index depth rd_idx (depth - n), data)
        else (n, wr_idx, data) in
    if negb (n =? 0) then
      let wr_ptr := idx2ptr depth wr_idx in
      (n, f <| ff_buffer := ff_push_n f buf8 n wr_ptr |>
            <| ff_wr_idx := advance_index depth wr_idx n |>)
    else (n, f).

Definition tu_fifo_discard_n (f : tu_fifo_t) (n : Z) : Z * tu_fifo_t :=
  let count := tu_min16 n (tu_fifo_count f) in
  (count, f <| ff_rd_idx := advance_index (ff_depth f) (ff_rd_idx f) count |>).

(** The one-byte API; [None] is [false]. *)
Definition ff_peek_local (f : tu_fifo_t) (wr_idx rd_idx : Z) : option Z * tu_fifo_t :=
  let ovf_count := tu_ff_overflow_count (ff_depth f) wr_idx rd_idx in
  if ovf_count =? 0 then (None, f)
  else
    let '(rd_idx, f) :=
      if ff_depth f <? ovf_count then correct_read_index f wr_idx else (rd_idx, f) in
    (Some (mem_get (ff_buffer f) (idx2ptr (ff_depth f) rd_idx)), f).

Definition tu_fifo_read (f : tu_fifo_t) : option Z * tu_fifo_t :=
  let '(ret, f) := ff_peek_local f (ff_wr_idx f) (ff_rd_idx f) in
  match ret with
  | Some b => (Some b, f <| ff_rd_idx := advance_index (ff_depth f) (ff_rd_idx f) 1 |>)
  | None => (None, f)
  end.

Definition tu_fifo_peek (f : tu_fifo_t) : option Z * tu_fifo_t :=
  ff_peek_local f (ff_wr_idx f) (ff_rd_idx f).

Definition tu_fifo_write (f : tu_fifo_t) (b : Z) : bool * tu_fifo_t :=
  let wr_idx := ff_wr_idx f in
  if tu_fifo_full f && negb (ff_overwritable f) then (false, f)
  else
    let wr_ptr := idx2ptr (ff_depth f) wr_idx in
    (true, f <| ff_buffer := mem_set wr_ptr b (ff_buffer f) |>
             <| ff_wr_idx := advance_index (ff_depth f) wr_idx 1 |>).

Definition tu_fifo_advance_write_pointer (f : tu_fifo_t) (n : Z) : tu_fifo_t :=
  f <| ff_wr_idx := advance_index (ff_depth f) (ff_wr_idx f) n |>.
Definition tu_fifo_advance_read_pointer (f : tu_fifo_t) (n : Z) : tu_fifo_t :=
  f <| ff_rd_idx := advance_index (ff_depth f) (ff_rd_idx f) n |>.
Definition tu_fifo_correct_read_pointer (f : tu_fifo_t) : tu_fifo_t :=
  snd (correct_read_index f (ff_wr_idx f)).

Definition no_info : tu_fifo_buffer_info_t :=
  mk_ff_buffer_info (mk_ff_info 0 None) (mk_ff_info 0 None).

Definition tu_fifo_get_read_info (f : tu_fifo_t) : tu_fifo_buffer_info_t * tu_fifo_t :=
  let wr_idx := ff_wr_idx f in
  let rd_idx := ff_rd_idx f in
  let cnt := tu_ff_overflow_count (ff_depth f) wr_idx rd_idx in
  let '(rd_idx, cnt, f) :=
    if ff_depth f <? cnt
    then let '(rd_idx, f) := correct_read_index f wr_idx in (rd_idx, ff_depth f, f)
    else (rd_idx, cnt, f) in
  if cnt =? 0 then (no_info, f)
  else
    let wr_ptr := idx2ptr (ff_depth f) wr_idx in
    let rd_ptr := idx2ptr (ff_depth f) rd_idx in
    if rd_ptr <? wr_ptr
    then (mk_ff_buffer_info (mk_ff_info cnt (Some rd_ptr)) (mk_ff_info 0 None), f)
    else
      let lin := u16 (ff_depth f - rd_ptr) in
      (mk_ff_buffer_info (mk_ff_info lin (Some rd_ptr))
         (mk_ff_info (u16 (cnt - lin)) (Some 0)), f).

Definition tu_fifo_get_write_info (f : tu_fifo_t) : tu_fifo_buffer_info_t :=
  let wr_idx := ff_wr_idx f in
  let rd_idx := ff_rd_idx f in
  let remain := tu_ff_remaining_local (ff_depth f) wr_idx rd_idx in
  if remain =? 0 then no_info
  else
    let wr_ptr := idx2ptr (ff_depth f) wr_idx in
    let rd_ptr := idx2ptr (ff_depth f) rd_idx in
    if wr_ptr <? rd_ptr
    then mk_ff_buffer_info (mk_ff_info (rd_ptr - wr_ptr) (Some wr_ptr)) (mk_ff_info 0 None)
    else
      let lin := u16 (ff_depth f - wr_ptr) in
      mk_ff_buffer_info (mk_ff_info lin (Some wr_ptr))
        (mk_ff_info (u16 (remain - lin)) (Some 0)).

(** ** Well-formed FIFOs and what they hold *)

Record fifo_ok (f : tu_fifo_t) : Prop := {
  fo_depth : 0 < ff_depth f <= 32768;
  fo_buffer : zlen (ff_buffer f) = ff_depth f;
  fo_wr : 0 <= ff_wr_idx f < 2 * ff_depth f;
  fo_rd : 0 <= ff_rd_idx f < 2 * ff_depth f
}.

Lemma advance_index_spec d i o :
  0 < d <= 32768 -> 0 <= i < 2 * d -> 0 <= o < 2 * d -> advance_index d i o = (i + o) mod (2 * d).
Proof.
  intros Hd Hi Ho. unfold advance_index.
  assert ((i + o) mod (2 * d) = if i + o <? 2 * d then i + o else i + o - 2 * d) as ->.
  { destruct (Z.ltb_spec (i + o) (2 * d)); [apply Z.mod_small; lia|].
    symmetry. apply (Z.mod_unique_pos _ _ 1); lia. }
  unfold u16.
  assert ((i + o) mod 65536 = if i + o <? 65536 then i + o else i + o - 65536) as ->.
  { destruct (Z.ltb_spec (i + o) 65536); [apply Z.mod_small; lia|].
    symmetry. apply (Z.mod_unique_pos _ _ 1); lia. }
  assert ((65535 - (2 * d - 1)) mod 65536 = 65536 - 2 * d) as -> by (apply Z.mod_small || zdivmod; lia).
  destruct (Z.ltb_spec (i + o) 65536), (Z.ltb_spec (i + o) (2 * d)); try lia.
  - destruct (Z.ltb_spec (i + o) i), (Z.leb_spec (2 * d) (i + o)); cbn [orb]; lia.
  - destruct (Z.leb_spec (2 * d) (i + o)); [|lia]. rewrite orb_true_r.
    symmetry. apply (Z.mod_unique_pos _ _ 1); lia.
  - destruct (Z.ltb_spec (i + o - 65536) i); [|lia]. cbn [orb]. symmetry. apply (Z.mod_unique_pos _ _ 0); lia.
Qed.

Lemma overflow_count_spec d wr rd :
  0 < d <= 32768 -> 0 <= wr < 2 * d -> 0 <= rd < 2 * d ->
  tu_ff_overflow_count d wr rd = (wr - rd) mod (2 * d).
Proof.
  intros Hd Hw Hr. unfold tu_ff_overflow_count, u16.
  destruct (Z.leb_spec 0 (wr - rd)).
  - rewrite !Z.mod_small by lia. done.
  - rewrite (Z.mod_small _ 65536) by lia. apply (Z.mod_unique_pos _ _ (-1)); lia.
Qed.

Lemma idx2ptr_loop_spec fuel d i :
  0 < d -> 0 <= i < Z.of_nat fuel -> idx2ptr_loop fuel d i = i mod d.
Proof.
  intros Hd. revert i. induction fuel as [|fuel IH]; intros i Hi; [lia|]. cbn [idx2ptr_loop].
  destruct (Z.leb_spec d i).
  - rewrite IH by lia. replace i with (i - d + 1 * d) at 2 by lia. rewrite Z.mod_add by lia. done.
  - rewrite Z.mod_small by lia. done.
Qed.

(** The loop of [idx2ptr] ends, with the remainder. *)
Lemma idx2ptr_spec d i : 0 < d -> 0 <= i -> idx2ptr d i = i mod d.
Proof. intros. apply idx2ptr_loop_spec; lia. Qed.

(** The bytes written and not yet read, at most [depth], and the FIFO's content:
    that many bytes before the write index. *)
Definition fifo_count (f : tu_fifo_t) : Z :=
  Z.min ((ff_wr_idx f - ff_rd_idx f) mod (2 * ff_depth f)) (ff_depth f).
Definition fifo_content (f : tu_fifo_t) : list Z :=
  ring_read (ff_buffer f) (ff_depth f) (ff_wr_idx f - fifo_count f) (fifo_count f).

(** The bytes written past the read index, up to twice the depth. *)
Definition fifo_ovf (f : tu_fifo_t) : Z :=
  (ff_wr_idx f - ff_rd_idx f) mod (2 * ff_depth f).

(** Newer data pushed into a ring of [d]: the last [k] bytes. *)
Definition last_n (k : Z) (l : list Z) : list Z := drop (Z.to_nat (zlen l - k)) l.

Lemma mod_near d p j : 0 < d -> 0 <= p < d -> 0 <= j <= d ->
  (p + j) mod d = if p + j <? d then p + j else p + j - d.
Proof.
  intros. destruct (Z.ltb_spec (p + j) d); [apply Z.mod_small; lia|].
  symmetry. apply (Z.mod_unique_pos _ _ 1); lia.
Qed.

Lemma ff_push_zlen f data n p : zlen (ff_push_n f data n p) = zlen (ff_buffer f).
Proof. unfold ff_push_n. case_if; by rewrite !mem_write_zlen. Qed.

(** What the two copies of [ff_push_n] leave at every position of the ring. *)
Lemma ff_push_get f data n p j :
  let d := ff_depth f in
  0 < d <= 32768 -> zlen (ff_buffer f) = d -> 0 <= p < d -> 0 <= n <= d -> n <= zlen data ->
  0 <= j < d ->
  mem_get (ff_push_n f data n p) ((p + j) mod d) =
  if j <? n then mem_get data j else mem_get (ff_buffer f) ((p + j) mod d).
Proof.
  cbn zeta. intros Hd Hb Hp Hn Hdata Hj. unfold ff_push_n.
  rewrite (u16_small (_ - p)) by (unfold is_u16; lia).
  rewrite (mod_near _ p j) by lia.
  destruct (Z.leb_spec n (ff_depth f - p)) as [Hlin|Hwrap].
  - rewrite mem_get_write, mem_read_zlen by (try case_if; bool_prop; lia).
    destruct (Z.ltb_spec (p + j) (ff_depth f)), (Z.ltb_spec j n); try lia.
    + destruct (Z.leb_spec p (p + j)), (Z.ltb_spec (p + j) (p + n)); try lia. cbn [andb].
      rewrite mem_get_read by lia. f_equal. lia.
    + destruct (Z.leb_spec p (p + j)), (Z.ltb_spec (p + j) (p + n)); try lia. done.
    + destruct (Z.leb_spec p (p + j - ff_depth f)); [lia|]. done.
  - rewrite (u16_small (n - _)) by (unfold is_u16; lia).
    assert (0 <= (if p + j <? ff_depth f then p + j else p + j - ff_depth f) < ff_depth f)
      by (case_if; bool_prop; lia).
    rewrite mem_get_write by (rewrite ?mem_write_zlen; lia).
    rewrite mem_get_write, !mem_read_zlen by (rewrite ?mem_write_zlen; lia).
    destruct (Z.ltb_spec (p + j) (ff_depth f)), (Z.ltb_spec j n); try lia.
    + destruct (Z.leb_spec 0 (p + j)), (Z.ltb_spec (p + j) (0 + (n - (ff_depth f - p))));
        try lia; cbn [andb].
      destruct (Z.leb_spec p (p + j)), (Z.ltb_spec (p + j) (p + (ff_depth f - p))); try lia.
      cbn [andb]. rewrite mem_get_read by lia. f_equal. lia.
    + destruct (Z.leb_spec 0 (p + j - ff_depth f)),
        (Z.ltb_spec (p + j - ff_depth f) (0 + (n - (ff_depth f - p)))); try lia; cbn [andb].
      rewrite mem_get_read by lia. f_equal. lia.
    + destruct (Z.leb_spec 0 (p + j - ff_depth f)),
        (Z.ltb_spec (p + j - ff_depth f) (0 + (n - (ff_depth f - p)))); try lia; cbn [andb].
      destruct (Z.leb_spec p (p + j - ff_depth f)); [lia|]. done.
Qed.

Lemma last_n_zlen k l : 0 <= k <= zlen l -> zlen (last_n k l) = k.
Proof. intros. unfold last_n. rewrite zlen_drop by lia. lia. Qed.

Lemma last_n_all l : last_n (zlen l) l = l.
Proof. unfold last_n. rewrite Z.sub_diag. done. Qed.

Lemma mod_shift d w t : 0 < d -> (w mod d + (t + d)) mod d = (w + t) mod d.
Proof.
  intros. rewrite Zplus_mod_idemp_l. replace (w + (t + d)) with (w + t + 1 * d) by lia.
  rewrite Z.mod_add by lia. done.
Qed.

(** Pushing [n] bytes at write index [w], seen through the window of the last [k]
    bytes: the newest [k] of the old content and the data. *)
Lemma push_window f data n c k w :
  let d := ff_depth f in
  0 < d <= 32768 -> zlen (ff_buffer f) = d -> 0 <= n <= d -> n <= zlen data ->
  0 <= c <= d -> 0 <= k <= d -> k <= c + n ->
  ring_read (ff_push_n f data n (w mod d)) d (w + n - k) k =
  last_n k (ring_read (ff_buffer f) d (w - c) c ++ take (Z.to_nat n) data).
Proof.
  cbn zeta. intros Hd Hb Hn Hdata Hc Hk Hck. set (d := ff_depth f) in *.
  pose proof (Z.mod_pos_bound w d ltac:(lia)) as Hp.
  assert (zlen (ring_read (ff_buffer f) d (w - c) c ++ take (Z.to_nat n) data) = c + n) as Hlen
    by (rewrite zlen_app, ring_read_zlen, zlen_take by lia; done).
  apply mem_get_ext.
  { rewrite ring_read_zlen, last_n_zlen by lia. done. }
  rewrite ring_read_zlen by lia. intros i Hi. rewrite ring_read_get by lia.
  unfold last_n. rewrite Hlen, mem_get_drop, mem_get_app, ring_read_zlen by lia.
  replace (w + n - k + i) with (w + (n - k + i)) by lia. set (t := n - k + i) in *.
  destruct (Z.ltb_spec (c + n - k + i) c).
  - rewrite ring_read_get by lia.
    replace (w - c + (c + n - k + i)) with (w + t) by lia.
    rewrite <- (mod_shift d w t) by lia. subst d. rewrite ff_push_get by lia.
    destruct (Z.ltb_spec (t + ff_depth f) n); [lia|]. done.
  - rewrite mem_get_take by lia. rewrite <- Zplus_mod_idemp_l. subst d.
    rewrite ff_push_get by lia. destruct (Z.ltb_spec t n); [|lia]. f_equal. lia.
Qed.

Lemma ff_pull_window f n p s :
  let d := ff_depth f in
  0 < d <= 32768 -> zlen (ff_buffer f) = d -> p = s mod d -> 0 <= n <= d ->
  ff_pull_n f n p = ring_read (ff_buffer f) d s n.
Proof.
  cbn zeta. intros Hd Hb -> Hn. set (d := ff_depth f) in *.
  pose proof (Z.mod_pos_bound s d ltac:(lia)) as Hp. unfold ff_pull_n. fold d.
  rewrite (u16_small (_ - _ mod _)) by (unfold is_u16; lia).
  apply mem_get_ext.
  { rewrite ring_read_zlen by lia. case_if; bool_prop; [by rewrite mem_read_zlen by lia|].
    rewrite u16_small, zlen_app, !mem_read_zlen by (unfold is_u16; lia). lia. }
  assert (zlen (if n <=? d - s mod d then mem_read (s mod d) n (ff_buffer f)
    else mem_read (s mod d) (d - s mod d) (ff_buffer f) ++
         mem_read 0 (u16 (n - (d - s mod d))) (ff_buffer f)) = n) as ->.
  { case_if; bool_prop; [by rewrite mem_read_zlen by lia|].
    rewrite u16_small, zlen_app, !mem_read_zlen by (unfold is_u16; lia). lia. }
  intros i Hi. rewrite ring_read_get by lia. rewrite <- Zplus_mod_idemp_l, mod_near by lia.
  destruct (Z.leb_spec n (d - s mod d)).
  - rewrite mem_get_read by lia. destruct (Z.ltb_spec (s mod d + i) d); [done|lia].
  - rewrite u16_small by (unfold is_u16; lia).
    rewrite mem_get_app, mem_read_zlen by lia.
    destruct (Z.ltb_spec i (d - s mod d)), (Z.ltb_spec (s mod d + i) d); try lia;
      rewrite mem_get_read by lia; f_equal; lia.
Qed.

(** *** The indices *)

Lemma fifo_count_range f : fifo_ok f -> 0 <= fifo_count f <= ff_depth f.
Proof.
  intros [Hd _ _ _]. unfold fifo_count.
  pose proof (Z.mod_pos_bound (ff_wr_idx f - ff_rd_idx f) (2 * ff_depth f) ltac:(lia)). lia.
Qed.

Lemma fifo_content_zlen f : fifo_ok f -> zlen (fifo_content f) = fifo_count f.
Proof. intros H. unfold fifo_content. apply ring_read_zlen. pose proof (fifo_count_range f H). lia. Qed.

(** Starting positions that agree modulo the depth read the same bytes. *)
Lemma ring_read_start buf d s s' n :
  s mod d = s' mod d -> ring_read buf d s n = ring_read buf d s' n.
Proof.
  intros H. unfold ring_read. apply list_fmap_ext. intros i x _.
  rewrite <- Zplus_mod_idemp_l, H, Zplus_mod_idemp_l. done.
Qed.

(** A write of [n] bytes at index [w] leaves the count the code tracks. *)
Lemma mod_2d_d d x : 0 < d -> (x mod (2 * d)) mod d = x mod d.
Proof.
  intros. rewrite Z.mul_comm, Z.rem_mul_r by lia.
  rewrite (Z.mul_comm d), Z.mod_add, Z.mod_mod by lia. done.
Qed.

(** Fields of an updated FIFO. *)
Ltac ff_simpl :=
  cbn [ff_buffer ff_depth ff_wr_idx ff_rd_idx ff_overwritable setf eta eta_fifo] in *.

(** The write at index [w], where [c] bytes before [w] are to be kept. *)
Lemma write_at f data n w c :
  fifo_ok f -> 0 <= n <= ff_depth f -> n <= zlen data -> 0 <= w < 2 * ff_depth f ->
  0 <= c <= ff_depth f ->
  let f' := f <| ff_buffer := ff_push_n f data n (idx2ptr (ff_depth f) w) |>
              <| ff_wr_idx := advance_index (ff_depth f) w n |> in
  let k := Z.min ((w + n - ff_rd_idx f) mod (2 * ff_depth f)) (ff_depth f) in
  k <= c + n ->
  fifo_ok f' /\
  fifo_content f' =
    last_n k (ring_read (ff_buffer f) (ff_depth f) (w - c) c ++ take (Z.to_nat n) data).
Proof.
  intros Hok Hn Hdata Hw Hc f' k Hk. destruct Hok as [Hd Hb Hwr Hrd].
  assert (fifo_ok f') as Hok'.
  { split; cbn; [done|by rewrite ff_push_zlen| |done].
    rewrite advance_index_spec by lia. apply Z.mod_pos_bound. lia. }
  split; [done|]. unfold fifo_content.
  assert (fifo_count f' = k) as ->.
  { unfold fifo_count, k, f'. ff_simpl. rewrite advance_index_spec by lia. rewrite Zminus_mod_idemp_l. done. }
  unfold f'. ff_simpl. rewrite advance_index_spec, idx2ptr_spec by lia.
  rewrite (ring_read_start _ _ _ (w + n - k)).
  - apply push_window; unfold k in *; try lia.
    pose proof (Z.mod_pos_bound (w + n - ff_rd_idx f) (2 * ff_depth f) ltac:(lia)). lia.
  - rewrite <- (mod_2d_d _ (_ - k)), <- (mod_2d_d _ (w + n - k)) by lia.
    by rewrite Zminus_mod_idemp_l.
Qed.

Lemma remaining_spec f : fifo_ok f ->
  tu_ff_remaining_local (ff_depth f) (ff_wr_idx f) (ff_rd_idx f) = ff_depth f - fifo_count f.
Proof.
  intros [Hd Hb Hw Hr]. unfold tu_ff_remaining_local, fifo_count.
  rewrite overflow_count_spec by done. case_if; bool_prop; lia.
Qed.

(** The write index seen from the read index. *)
Lemma count_after f n :
  fifo_ok f -> 0 <= n -> (ff_wr_idx f - ff_rd_idx f) mod (2 * ff_depth f) + n < 2 * ff_depth f ->
  (ff_wr_idx f + n - ff_rd_idx f) mod (2 * ff_depth f) =
  (ff_wr_idx f - ff_rd_idx f) mod (2 * ff_depth f) + n.
Proof.
  intros [Hd _ _ _] Hn Hb.
  replace (ff_wr_idx f + n - ff_rd_idx f) with (ff_wr_idx f - ff_rd_idx f + n) by lia.
  rewrite <- Zplus_mod_idemp_l. apply Z.mod_small.
  pose proof (Z.mod_pos_bound (ff_wr_idx f - ff_rd_idx f) (2 * ff_depth f) ltac:(lia)). lia.
Qed.

Lemma last_n_app k (l m : list Z) : k <= zlen m -> last_n k (l ++ m) = last_n k m.
Proof.
  intros H. unfold last_n. rewrite zlen_app. unfold zlen in *.
  rewrite drop_app_ge by lia. f_equal. lia.
Qed.

(** [tu_fifo_write_n] on a FIFO that is not overwritable. *)
Lemma write_n_plain f data n m f' :
  fifo_ok f -> ff_overwritable f = false -> 0 <= n <= zlen data -> n < 65536 ->
  tu_fifo_write_n f data n = (m, f') ->
  m = Z.min n (ff_depth f - fifo_count f) /\ fifo_ok f' /\
  fifo_content f' = fifo_content f ++ take (Z.to_nat m) data /\
  ff_depth f' = ff_depth f /\ ff_overwritable f' = false /\
  (fifo_ovf f <= ff_depth f -> fifo_ovf f' <= ff_depth f).
Proof.
  intros Hok How Hn Hn16. pose proof (fifo_count_range f Hok) as Hc.
  unfold tu_fifo_write_n. rewrite How. cbn [negb].
  destruct (Z.eqb_spec n 0) as [->|Hn0].
  { intros [= <- <-]. split_and!; try done; [lia|]. by rewrite take_0, app_nil_r. }
  rewrite remaining_spec by done. unfold tu_min16.
  assert ((if n <? ff_depth f - fifo_count f then n else ff_depth f - fifo_count f) =
          Z.min n (ff_depth f - fifo_count f)) as -> by (case_if; bool_prop; lia).
  set (r := Z.min n _) in *. destruct (Z.eqb_spec r 0) as [Hr|Hr]; cbn [negb]; intros [= <- <-].
  { split_and!; try done. rewrite Hr. by rewrite take_0, app_nil_r. }
  split; [done|].
  pose proof (Z.mod_pos_bound (ff_wr_idx f - ff_rd_idx f) (2 * ff_depth f)
    ltac:(destruct Hok; lia)) as Hm.
  assert (fifo_count f = (ff_wr_idx f - ff_rd_idx f) mod (2 * ff_depth f)) as Hcnt
    by (unfold fifo_count in *; lia).
  assert (Z.min ((ff_wr_idx f + r - ff_rd_idx f) mod (2 * ff_depth f)) (ff_depth f)
          = fifo_count f + r) as Hk.
  { rewrite count_after by (try done; destruct Hok; lia). lia. }
  destruct (write_at f data r (ff_wr_idx f) (fifo_count f)) as [Hok' Hcont];
    try done; try lia; [apply Hok|].
  split_and!; try done.
  2:{ intros _. unfold fifo_ovf. ff_simpl. pose proof (fo_depth f Hok). pose proof (fo_wr f Hok).
      rewrite advance_index_spec, Zminus_mod_idemp_l by lia.
      rewrite count_after by (try done; lia). lia. }
  rewrite Hcont, Hk. fold (fifo_content f).
  rewrite <- (fifo_content_zlen f Hok).
  assert (zlen (fifo_content f ++ take (Z.to_nat r) data) = zlen (fifo_content f) + r) as <-
    by (rewrite zlen_app, zlen_take by lia; done).
  apply last_n_all.
Qed.

(** [tu_fifo_write_n] on an overwritable FIFO, unless it is overflowed twice. *)
Lemma write_n_over f data n m f' :
  fifo_ok f -> ff_overwritable f = true -> 0 <= n <= zlen data -> n < 65536 ->
  ff_depth f <= n \/
    (ff_wr_idx f - ff_rd_idx f) mod (2 * ff_depth f) + n < 2 * ff_depth f ->
  tu_fifo_write_n f data n = (m, f') ->
  m = Z.min n (ff_depth f) /\ fifo_ok f' /\
  fifo_content f' = last_n (Z.min (ff_depth f) (fifo_count f + n))
                      (fifo_content f ++ take (Z.to_nat n) data).
Proof.
  intros Hok How Hn Hn16 Hovf. pose proof (fifo_count_range f Hok) as Hc.
  pose proof (fifo_content_zlen f Hok) as Hlen.
  unfold tu_fifo_write_n. rewrite How. cbn [negb].
  destruct (Z.eqb_spec n 0) as [->|Hn0].
  { intros [= <- <-]. split; [lia|]. split; [done|]. rewrite take_0, app_nil_r.
    rewrite Z.add_0_r, Z.min_r by lia. rewrite <- Hlen. symmetry. apply last_n_all. }
  pose proof (fo_depth _ Hok) as Hd.
  destruct (Z.leb_spec (ff_depth f) n) as [Hbig|Hsmall].
  - destruct (Z.eqb_spec (ff_depth f) 0); [lia|]. cbn [negb]. intros [= <- <-].
    split; [lia|].
    assert (Z.min ((ff_rd_idx f + ff_depth f - ff_rd_idx f) mod (2 * ff_depth f)) (ff_depth f)
            = ff_depth f) as Hk.
    { replace (ff_rd_idx f + ff_depth f - ff_rd_idx f) with (ff_depth f) by lia.
      rewrite Z.mod_small by lia. lia. }
    destruct (write_at f (drop (Z.to_nat (n - ff_depth f)) data) (ff_depth f) (ff_rd_idx f) 0)
      as [Hok' Hcont]; try done; try lia; [rewrite zlen_drop by lia; lia|apply Hok|].
    split; [done|]. rewrite Hcont, Hk. cbn [ring_read].
    replace (Z.min (ff_depth f) (fifo_count f + n)) with (ff_depth f) by lia.
    rewrite !last_n_app by (rewrite zlen_take; rewrite ?zlen_drop; lia).
    unfold last_n. rewrite !zlen_take by (rewrite ?zlen_drop; lia).
    rewrite Z.sub_diag, drop_0, take_drop_commute. f_equal. f_equal. lia.
  - destruct Hovf as [?|Hovf]; [lia|].
    rewrite overflow_count_spec by apply Hok.
    destruct (Z.leb_spec (2 * ff_depth f)
      ((ff_wr_idx f - ff_rd_idx f) mod (2 * ff_depth f) + n)); [lia|].
    destruct (Z.eqb_spec n 0); [lia|]. cbn [negb]. intros [= <- <-]. split; [lia|].
    assert (Z.min ((ff_wr_idx f + n - ff_rd_idx f) mod (2 * ff_depth f)) (ff_depth f)
            = Z.min (ff_depth f) (fifo_count f + n)) as Hk.
    { rewrite count_after by (try done; lia). unfold fifo_count. lia. }
    destruct (write_at f data n (ff_wr_idx f) (fifo_count f)) as [Hok' Hcont];
      try done; try lia; [apply Hok|].
    split; [done|]. by rewrite Hcont, Hk.
Qed.

(** *** Reading *)

(** The FIFO a peek leaves: an overflow is corrected, the content is the same. *)
Record peeked (f f' : tu_fifo_t) : Prop := {
  pk_ok : fifo_ok f';
  pk_buffer : ff_buffer f' = ff_buffer f;
  pk_depth : ff_depth f' = ff_depth f;
  pk_over : ff_overwritable f' = ff_overwritable f;
  pk_wr : ff_wr_idx f' = ff_wr_idx f;
  pk_count : (ff_wr_idx f' - ff_rd_idx f') mod (2 * ff_depth f') = fifo_count f
}.

Lemma peeked_content f f' : fifo_ok f -> peeked f f' -> fifo_content f' = fifo_content f.
Proof.
  intros Hok [Hok' Hb Hd _ Hw Hc]. pose proof (fifo_count_range f Hok).
  assert (fifo_count f' = fifo_count f) as E by (unfold fifo_count at 1; rewrite Hc, Hd; lia).
  unfold fifo_content. by rewrite E, Hb, Hd, Hw.
Qed.

Lemma correct_read_peeked f rd' f' :
  fifo_ok f -> ff_depth f < (ff_wr_idx f - ff_rd_idx f) mod (2 * ff_depth f) ->
  correct_read_index f (ff_wr_idx f) = (rd', f') ->
  peeked f f' /\ ff_rd_idx f' = rd' /\ rd' mod ff_depth f = (ff_wr_idx f - fifo_count f) mod ff_depth f.
Proof.
  intros [Hd Hb Hw Hr] Ho. unfold correct_read_index. intros [= <- <-].
  assert (fifo_count f = ff_depth f) as Hc by (unfold fifo_count; lia). rewrite Hc.
  destruct (Z.leb_spec (ff_depth f) (ff_wr_idx f)).
  - rewrite u16_small by (unfold is_u16; lia).
    split; [|done]. split; ff_simpl; try done.
    + split; ff_simpl; try done; lia.
    + rewrite Hc. replace (ff_wr_idx f - (ff_wr_idx f - ff_depth f)) with (ff_depth f) by lia.
      apply Z.mod_small. lia.
  - rewrite u16_small by (unfold is_u16; lia).
    split; [|split; [done|]].
    + split; ff_simpl; try done.
      * split; ff_simpl; try done; lia.
      * rewrite Hc. symmetry. apply (Z.mod_unique_pos _ _ (-1)); lia.
    + replace (ff_wr_idx f + ff_depth f) with (ff_wr_idx f - ff_depth f + 2 * ff_depth f) by lia.
      by rewrite Z.mod_add by lia.
Qed.

(** No overflow: the read index is where the content starts. *)
Lemma read_index_start f :
  fifo_ok f -> (ff_wr_idx f - ff_rd_idx f) mod (2 * ff_depth f) <= ff_depth f ->
  ff_rd_idx f mod ff_depth f = (ff_wr_idx f - fifo_count f) mod ff_depth f.
Proof.
  intros [Hd Hb Hw Hr] Ho. unfold fifo_count. rewrite Z.min_l by lia.
  rewrite <- (mod_2d_d _ (_ - _ mod _)) by lia. rewrite Zminus_mod_idemp_r, mod_2d_d by lia.
  f_equal. lia.
Qed.

Lemma not_overflowed_peeked f :
  fifo_ok f -> (ff_wr_idx f - ff_rd_idx f) mod (2 * ff_depth f) <= ff_depth f -> peeked f f.
Proof.
  intros Hok Ho. split; try done. unfold fifo_count. lia.
Qed.

Lemma ring_read_take buf d s n k :
  0 <= n <= k -> ring_read buf d s n = take (Z.to_nat n) (ring_read buf d s k).
Proof.
  intros Hn. apply mem_get_ext.
  - rewrite zlen_take; rewrite !ring_read_zlen; lia.
  - rewrite ring_read_zlen by lia. intros i Hi.
    rewrite mem_get_take, !ring_read_get by lia. done.
Qed.

Lemma take_all (n : Z) (l : list Z) : zlen l <= n -> take (Z.to_nat n) l = l.
Proof. unfold zlen. intros. apply take_ge. lia. Qed.

Lemma peek_n_spec f n data f' :
  fifo_ok f -> 0 <= n -> tu_fifo_peek_n_access_mode f n (ff_wr_idx f) (ff_rd_idx f) = (data, f') ->
  data = take (Z.to_nat n) (fifo_content f) /\ peeked f f'.
Proof.
  intros Hok Hn. pose proof (fifo_count_range f Hok) as Hc. pose proof (fo_depth f Hok) as Hd.
  unfold tu_fifo_peek_n_access_mode. rewrite overflow_count_spec by apply Hok.
  destruct (Z.eqb_spec ((ff_wr_idx f - ff_rd_idx f) mod (2 * ff_depth f)) 0) as [E0|E0].
  { intros [= <- <-]. split; [|apply not_overflowed_peeked; [done|lia]].
    assert (fifo_count f = 0) as E by (unfold fifo_count; lia).
    unfold fifo_content. rewrite E. symmetry. apply take_nil. }
  assert (forall g rd cnt, peeked f g -> cnt = fifo_count f ->
    rd mod ff_depth f = (ff_wr_idx f - fifo_count f) mod ff_depth f -> 0 <= rd ->
    ff_pull_n g (if cnt <? n then cnt else n) (idx2ptr (ff_depth g) rd) =
    take (Z.to_nat n) (fifo_content f)) as Hpull.
  { intros g rd cnt [Hg Hgb Hgd _ _ _] -> Hrd Hrd0. rewrite Hgd.
    rewrite (ff_pull_window g _ _ (ff_wr_idx f - fifo_count f)); rewrite ?Hgd, ?Hgb; try done.
    - unfold fifo_content. destruct (Z.ltb_spec (fifo_count f) n).
      + symmetry. apply take_all. rewrite ring_read_zlen; lia.
      + apply ring_read_take. lia.
    - apply Hok.
    - rewrite idx2ptr_spec by lia. done.
    - case_if; bool_prop; lia. }
  destruct (Z.ltb_spec (ff_depth f) ((ff_wr_idx f - ff_rd_idx f) mod (2 * ff_depth f))).
  - destruct (correct_read_index f (ff_wr_idx f)) as [rd' g] eqn:E.
    destruct (correct_read_peeked f rd' g Hok ltac:(lia) E) as (Hg & Hrd & Hmod).
    intros [= <- <-]. split; [|done]. apply Hpull; try done.
    + rewrite (pk_depth _ _ Hg). unfold fifo_count. lia.
    + rewrite <- Hrd. apply (pk_ok _ _ Hg).
  - intros [= <- <-]. pose proof (not_overflowed_peeked f Hok ltac:(lia)) as Hg.
    split; [|done]. apply Hpull; try done.
    + unfold fifo_count. lia.
    + apply read_index_start; [done|lia].
    + apply Hok.
Qed.

(** Moving the read index past [m] of the bytes held. *)
Lemma advance_read f m :
  fifo_ok f -> (ff_wr_idx f - ff_rd_idx f) mod (2 * ff_depth f) = fifo_count f ->
  0 <= m <= fifo_count f ->
  let f' := f <| ff_rd_idx := advance_index (ff_depth f) (ff_rd_idx f) m |> in
  fifo_ok f' /\ fifo_content f' = drop (Z.to_nat m) (fifo_content f) /\
  fifo_ovf f' = fifo_count f - m.
Proof.
  intros Hok Hovf Hm f'. pose proof (fifo_count_range f Hok) as Hc.
  pose proof (fo_depth f Hok) as Hd.
  assert (ff_rd_idx f' = (ff_rd_idx f + m) mod (2 * ff_depth f)) as Hrd
    by (unfold f'; ff_simpl; apply advance_index_spec; [lia|apply Hok|lia]).
  assert (fifo_ok f') as Hok'.
  { split; [apply Hok|apply Hok|apply Hok|]. rewrite Hrd. change (ff_depth f') with (ff_depth f). apply Z.mod_pos_bound. lia. }
  assert (fifo_ovf f' = fifo_count f - m) as Ho.
  { unfold fifo_ovf. rewrite Hrd. unfold f'. ff_simpl. rewrite Zminus_mod_idemp_r.
    replace (ff_wr_idx f - (ff_rd_idx f + m)) with (ff_wr_idx f - ff_rd_idx f - m) by lia.
    rewrite <- Zminus_mod_idemp_l, Hovf, Z.mod_small by lia. lia. }
  split; [done|]. split; [|done].
  assert (fifo_count f' = fifo_count f - m) as Hcnt.
  { unfold fifo_count at 1. fold (fifo_ovf f'). rewrite Ho. unfold f'. ff_simpl. lia. }
  unfold fifo_content. rewrite Hcnt. unfold f'. ff_simpl. apply mem_get_ext.
  - rewrite zlen_drop, !ring_read_zlen by (rewrite ?ring_read_zlen; lia). done.
  - rewrite ring_read_zlen by lia. intros i Hi.
    rewrite mem_get_drop, !ring_read_get by lia. do 2 f_equal. lia.
Qed.

(** [tu_fifo_read_n] hands out the oldest bytes and removes them. *)
Lemma read_n_spec f n data f' :
  fifo_ok f -> 0 <= n -> tu_fifo_read_n f n = (data, f') ->
  data = take (Z.to_nat n) (fifo_content f) /\ fifo_ok f' /\
  fifo_content f' = drop (Z.to_nat n) (fifo_content f) /\
  ff_depth f' = ff_depth f /\ ff_overwritable f' = ff_overwritable f /\
  fifo_ovf f' <= ff_depth f'.
Proof.
  intros Hok Hn. unfold tu_fifo_read_n.
  destruct (tu_fifo_peek_n_access_mode f n (ff_wr_idx f) (ff_rd_idx f)) as [d g] eqn:E.
  destruct (peek_n_spec f n d g Hok Hn E) as [Hd Hg]. intros [= -> <-].
  pose proof (peeked_content f g Hok Hg) as Hcont. destruct Hg as [Hgo _ Hgd How _ Hgc].
  assert (zlen data = Z.min n (fifo_count f)) as Hlen.
  { rewrite Hd, <- (fifo_content_zlen f Hok). unfold zlen. rewrite length_take. lia. }
  assert (fifo_count g = fifo_count f) as Hcg
    by (pose proof (fifo_count_range f Hok); unfold fifo_count at 1; rewrite Hgc, Hgd; lia).
  pose proof (fifo_count_range f Hok) as Hr.
  destruct (advance_read g (zlen data)) as (Hok' & Hc' & Ho'); try done; try lia.
  split_and!; try done; [|rewrite Ho'; ff_simpl; lia]. rewrite Hc', Hcont, Hlen.
  destruct (Z.le_ge_cases n (fifo_count f)); [by rewrite Z.min_l by lia|].
  rewrite Z.min_r by lia. pose proof (fifo_content_zlen f Hok) as HL. unfold zlen in HL.
  rewrite !drop_ge by lia. done.
Qed.

Lemma tu_fifo_count_spec f : fifo_ok f -> tu_fifo_count f = fifo_count f.
Proof.
  intros Hok. unfold tu_fifo_count, tu_min16, fifo_count. rewrite overflow_count_spec by apply Hok.
  case_if; bool_prop; lia.
Qed.

Lemma discard_n_spec f n m f' :
  fifo_ok f -> 0 <= n -> (ff_wr_idx f - ff_rd_idx f) mod (2 * ff_depth f) <= ff_depth f ->
  tu_fifo_discard_n f n = (m, f') ->
  m = Z.min n (zlen (fifo_content f)) /\ fifo_ok f' /\
  fifo_content f' = drop (Z.to_nat m) (fifo_content f) /\ fifo_ovf f' <= ff_depth f.
Proof.
  intros Hok Hn Hovf. unfold tu_fifo_discard_n. rewrite tu_fifo_count_spec by done.
  pose proof (fifo_count_range f Hok). unfold tu_min16.
  assert ((if n <? fifo_count f then n else fifo_count f) = Z.min n (fifo_count f)) as ->
    by (case_if; bool_prop; lia).
  intros [= <- <-]. rewrite fifo_content_zlen by done. split; [done|].
  destruct (advance_read f (Z.min n (fifo_count f))) as (? & ? & ->); try done; try lia.
  - unfold fifo_count. lia.
  - split_and!; try done. lia.
Qed.

(** The one-byte API in terms of the n-byte one. *)
Lemma ff_peek_local_n f o f' :
  fifo_ok f -> ff_peek_local f (ff_wr_idx f) (ff_rd_idx f) = (o, f') ->
  tu_fifo_peek_n_access_mode f 1 (ff_wr_idx f) (ff_rd_idx f) =
    (match o with Some b => [b] | None => [] end, f').
Proof.
  intros Hok. pose proof (fo_depth f Hok) as Hd. unfold ff_peek_local, tu_fifo_peek_n_access_mode.
  rewrite overflow_count_spec by apply Hok.
  pose proof (Z.mod_pos_bound (ff_wr_idx f - ff_rd_idx f) (2 * ff_depth f) ltac:(lia)).
  destruct (Z.eqb_spec ((ff_wr_idx f - ff_rd_idx f) mod (2 * ff_depth f)) 0).
  { by intros [= <- <-]. }
  assert (forall g rd, ff_depth g = ff_depth f -> zlen (ff_buffer g) = ff_depth f -> 0 <= rd ->
    ff_pull_n g 1 (idx2ptr (ff_depth g) rd) = [mem_get (ff_buffer g) (idx2ptr (ff_depth g) rd)]) as Hone.
  { intros g rd Hgd Hgb Hrd. rewrite Hgd, idx2ptr_spec by lia.
    rewrite (ff_pull_window g 1 _ rd); rewrite ?Hgd; try done; [|lia].
    unfold ring_read. change (seqZ 0 1) with [0]. cbn [fmap list_fmap]. by rewrite Z.add_0_r. }
  destruct (Z.ltb_spec (ff_depth f) ((ff_wr_idx f - ff_rd_idx f) mod (2 * ff_depth f))).
  - destruct (correct_read_index f (ff_wr_idx f)) as [rd' g] eqn:E.
    destruct (correct_read_peeked f rd' g Hok ltac:(lia) E) as (Hg & Hrd & _).
    intros [= <- <-]. rewrite (pk_depth _ _ Hg).
    destruct (Z.ltb_spec (ff_depth f) 1); [lia|]. rewrite <- (pk_depth _ _ Hg).
    rewrite Hone; [done|apply Hg| |].
    + rewrite (pk_buffer _ _ Hg). apply Hok.
    + rewrite <- Hrd. apply (pk_ok _ _ Hg).
  - intros [= <- <-].
    destruct (Z.ltb_spec ((ff_wr_idx f - ff_rd_idx f) mod (2 * ff_depth f)) 1); [lia|].
    rewrite Hone; [done|done|apply Hok|apply Hok].
Qed.

Lemma read_one_spec f o f' :
  fifo_ok f -> tu_fifo_read f = (o, f') ->
  o = head (fifo_content f) /\ fifo_ok f' /\ fifo_content f' = tail (fifo_content f) /\
  ff_depth f' = ff_depth f /\ ff_overwritable f' = ff_overwritable f /\ fifo_ovf f' <= ff_depth f'.
Proof.
  intros Hok. unfold tu_fifo_read.
  destruct (ff_peek_local f (ff_wr_idx f) (ff_rd_idx f)) as [r g] eqn:E.
  pose proof (ff_peek_local_n f r g Hok E) as Ep.
  destruct (peek_n_spec f 1 _ g Hok ltac:(lia) Ep) as [Hd Hg].
  assert (forall l : list Z, take (Z.to_nat 1) l = match head l with Some b => [b] | None => [] end) as Ht
    by (intros [|x l]; done).
  rewrite Ht in Hd. pose proof (peeked_content f g Hok Hg) as Hcont.
  pose proof (fifo_count_range f Hok) as Hr. pose proof (fifo_content_zlen f Hok) as Hlen.
  destruct r as [b|]; intros [= <- <-].
  - destruct (fifo_content f) as [|x l] eqn:Ec; [done|]. cbn in Hd. injection Hd as ->.
    split; [done|]. unfold zlen in Hlen. cbn in Hlen.
    destruct (advance_read g 1) as (Hok' & Hc' & Ho').
    + apply Hg.
    + rewrite (pk_count _ _ Hg). unfold fifo_count at 2. rewrite (pk_count _ _ Hg), (pk_depth _ _ Hg). lia.
    + unfold fifo_count. rewrite (pk_count _ _ Hg), (pk_depth _ _ Hg). lia.
    + split_and!; [done|by rewrite Hc', Hcont|apply Hg|apply Hg|].
      rewrite Ho'. ff_simpl. pose proof (fifo_count_range g (pk_ok _ _ Hg)). lia.
  - destruct (fifo_content f) as [|x l] eqn:Ec; [|done].
    split_and!; [done|apply Hg|by rewrite Hcont|apply Hg|apply Hg|].
    unfold fifo_ovf. rewrite (pk_count _ _ Hg), (pk_depth _ _ Hg). lia.
Qed.

(** ** The queue the FIFO implements *)

Inductive fifo_op :=
| op_write_n (data : list Z)
| op_write (b : Z)
| op_read_n (n : Z)
| op_read
| op_peek_n (n : Z)
| op_peek
| op_discard_n (n : Z)
| op_clear.

Inductive fifo_out :=
| out_count (n : Z)
| out_bytes (data : list Z)
| out_byte (b : option Z)
| out_ok (b : bool)
| out_none.

(** The arguments are 16-bit lengths. *)
Definition op_ok (op : fifo_op) : Prop :=
  match op with
  | op_write_n data => zlen data < 65536
  | op_read_n n | op_peek_n n | op_discard_n n => 0 <= n < 65536
  | _ => True
  end.

Definition fifo_exec (op : fifo_op) (f : tu_fifo_t) : fifo_out * tu_fifo_t :=
  match op with
  | op_write_n data => let '(n, f) := tu_fifo_write_n f data (zlen data) in (out_count n, f)
  | op_write b => let '(ok, f) := tu_fifo_write f b in (out_ok ok, f)
  | op_read_n n => let '(data, f) := tu_fifo_read_n f n in (out_bytes data, f)
  | op_read => let '(b, f) := tu_fifo_read f in (out_byte b, f)
  | op_peek_n n => let '(data, f) := tu_fifo_peek_n f n in (out_bytes data, f)
  | op_peek => let '(b, f) := tu_fifo_peek f in (out_byte b, f)
  | op_discard_n n => let '(n, f) := tu_fifo_discard_n f n in (out_count n, f)
  | op_clear => (out_none, tu_fifo_clear f)
  end.

(** The same operations on a queue of at most [cap] bytes. *)
Definition queue_exec (cap : Z) (op : fifo_op) (q : list Z) : fifo_out * list Z :=
  match op with
  | op_write_n data =>
      let n := Z.min (zlen data) (cap - zlen q) in (out_count n, q ++ take (Z.to_nat n) data)
  | op_write b => if zlen q <? cap then (out_ok true, q ++ [b]) else (out_ok false, q)
  | op_read_n n => (out_bytes (take (Z.to_nat n) q), drop (Z.to_nat n) q)
  | op_read => (out_byte (head q), tail q)
  | op_peek_n n => (out_bytes (take (Z.to_nat n) q), q)
  | op_peek => (out_byte (head q), q)
  | op_discard_n n =>
      let m := Z.min n (zlen q) in (out_count m, drop (Z.to_nat m) q)
  | op_clear => (out_none, [])
  end.

Fixpoint run {S} (exec : fifo_op -> S -> fifo_out * S) (ops : list fifo_op) (s : S)
    : list fifo_out * S :=
  match ops with
  | [] => ([], s)
  | op :: ops =>
      let '(o, s) := exec op s in
      let '(os, s) := run exec ops s in (o :: os, s)
  end.

(** The simulation relation. *)
Record fifo_rel (cap : Z) (f : tu_fifo_t) (q : list Z) : Prop := {
  fr_ok : fifo_ok f;
  fr_plain : ff_overwritable f = false;
  fr_cap : ff_depth f = cap;
  fr_ovf : fifo_ovf f <= ff_depth f;
  fr_content : fifo_content f = q
}.

Lemma write_one_n f b :
  fifo_ok f -> ff_overwritable f = false -> fifo_ovf f <= ff_depth f ->
  tu_fifo_write f b = let '(n, f') := tu_fifo_write_n f [b] 1 in (n =? 1, f').
Proof.
  intros Hok How Ho. pose proof (fo_depth f Hok) as Hd. unfold tu_fifo_write, tu_fifo_write_n, tu_fifo_full.
  rewrite How, remaining_spec by done. rewrite overflow_count_spec by apply Hok.
  fold (fifo_ovf f). cbn [negb]. rewrite andb_true_r.
  assert (fifo_count f = fifo_ovf f) as Hc by (unfold fifo_count, fifo_ovf in *; lia).
  rewrite Hc. change (1 =? 0) with false. cbv iota. unfold tu_min16.
  destruct (Z.leb_spec (ff_depth f) (fifo_ovf f)).
  - assert (ff_depth f - fifo_ovf f = 0) as -> by lia. done.
  - assert ((if 1 <? ff_depth f - fifo_ovf f then 1 else ff_depth f - fifo_ovf f) = 1) as ->
      by (case_if; bool_prop; lia).
    cbn [Z.eqb negb Pos.eqb]. do 2 f_equal. unfold ff_push_n.
    pose proof (Z.mod_pos_bound (ff_wr_idx f) (ff_depth f) ltac:(lia)).
    rewrite idx2ptr_spec by (try lia; apply Hok).
    rewrite (u16_small (_ - _ mod _)) by (unfold is_u16; lia).
    destruct (Z.leb_spec 1 (ff_depth f - ff_wr_idx f mod ff_depth f)); [|lia].
    done.
Qed.

(** Each operation answers as the queue does. *)
Lemma fifo_exec_sim cap op f q :
  fifo_rel cap f q -> op_ok op ->
  let '(o, f') := fifo_exec op f in
  exists q', queue_exec cap op q = (o, q') /\ fifo_rel cap f' q'.
Proof.
  intros [Hok Hpl Hcap Hovf <-] Hop. pose proof (fifo_content_zlen f Hok) as Hlen.
  pose proof (fifo_count_range f Hok) as Hr.
  destruct op as [data|b|n| |n| |n|]; cbn [fifo_exec queue_exec op_ok] in *.
  - destruct (tu_fifo_write_n f data (zlen data)) as [m f'] eqn:E.
    destruct (write_n_plain f data (zlen data) m f') as (-> & Ho & Hc & Hd & Hw & Hv);
      auto using zlen_nonneg; [pose proof (zlen_nonneg data); lia|].
    rewrite Hlen, <- Hcap. eexists. split; [done|]. split; auto; rewrite Hd; auto.
  - rewrite write_one_n by done. destruct (tu_fifo_write_n f [b] 1) as [m f'] eqn:E.
    destruct (write_n_plain f [b] 1 m f') as (Hm & Ho & Hc & Hd & Hw & Hv); try done.
    rewrite Hlen, <- Hcap. destruct (Z.ltb_spec (fifo_count f) (ff_depth f)).
    + assert (m = 1) as -> by lia. eexists. split; [done|].
      split; auto; rewrite Hd; auto.
    + assert (m = 0) as -> by lia. eexists. split; [done|].
      split; auto; [rewrite Hd; auto|]. rewrite Hc. by rewrite app_nil_r.
  - destruct (tu_fifo_read_n f n) as [d f'] eqn:E.
    destruct (read_n_spec f n d f') as (-> & Ho & Hc & Hd & Hw & Hv); auto; [lia|].
    eexists. split; [done|]. split; auto; congruence.
  - destruct (tu_fifo_read f) as [d f'] eqn:E.
    destruct (read_one_spec f d f') as (-> & Ho & Hc & Hd & Hw & Hv); auto.
    eexists. split; [done|]. split; auto; congruence.
  - unfold tu_fifo_peek_n. destruct (tu_fifo_peek_n_access_mode _ _ _ _) as [d f'] eqn:E.
    destruct (peek_n_spec f n d f') as (-> & Hg); auto; [lia|].
    pose proof (peeked_content f f' Hok Hg). destruct Hg as [Ho _ Hd Hw _ Hc].
    eexists. split; [done|]. split; auto; try congruence. unfold fifo_ovf. rewrite Hc, Hd. lia.
  - unfold tu_fifo_peek. destruct (ff_peek_local f _ _) as [d f'] eqn:E.
    pose proof (ff_peek_local_n f d f' Hok E) as Ep.
    destruct (peek_n_spec f 1 _ f' Hok ltac:(lia) Ep) as (Ht & Hg).
    pose proof (peeked_content f f' Hok Hg). destruct Hg as [Ho _ Hd Hw _ Hc].
    exists (fifo_content f). split.
    + clear Hlen. change (Z.to_nat 1) with 1%nat in Ht.
      destruct d, (fifo_content f); cbn in Ht |- *; congruence.
    + split; auto; try congruence. unfold fifo_ovf. rewrite Hc, Hd. lia.
  - destruct (tu_fifo_discard_n f n) as [m f'] eqn:E.
    destruct (discard_n_spec f n m f') as (-> & Ho & Hc & Hv); auto; [lia|].
    eexists. split; [done|]. unfold tu_fifo_discard_n in E. injection E as _ <-.
    split; auto.
  - exists []. split; [done|]. pose proof (fo_depth f Hok).
    assert (fifo_ovf (tu_fifo_clear f) = 0) as Ho
      by (unfold fifo_ovf, tu_fifo_clear; ff_simpl; rewrite Z.mod_0_l; lia).
    split; [split; cbn; try lia; apply Hok|done|done|rewrite Ho; cbn; lia|].
    unfold fifo_content, fifo_count. fold (fifo_ovf (tu_fifo_clear f)). rewrite Ho.
    cbn. rewrite Z.min_l by lia. done.
Qed.

Lemma run_sim cap ops f q :
  fifo_rel cap f q -> Forall op_ok ops ->
  fst (run fifo_exec ops f) = fst (run (queue_exec cap) ops q) /\
  fifo_rel cap (snd (run fifo_exec ops f)) (snd (run (queue_exec cap) ops q)).
Proof.
  intros Hrel Hops. revert f q Hrel. induction Hops as [|op ops Hop Hops IH]; intros f q Hrel; [done|].
  cbn [run]. pose proof (fifo_exec_sim cap op f q Hrel Hop) as Hs.
  destruct (fifo_exec op f) as [o f']. destruct Hs as (q' & Eq & Hrel'). rewrite Eq.
  destruct (IH f' q' Hrel') as [Ho Hr].
  destruct (run fifo_exec ops f') as [os f1], (run (queue_exec cap) ops q') as [os' q1].
  cbn in *. by rewrite Ho.
Qed.

(** C7: a FIFO that is not overwritable, of positive depth, refines a bounded queue. From
    [tu_fifo_config] on (with [overwritable] false, as here), in every
    sequence of reads, peeks, writes and discards, of one byte or many, every
    answer (bytes, counts and failures) is that of a queue of [depth] bytes: no byte
    is lost, duplicated or reordered, and a write takes what fits. *)
Theorem fifo_refines_queue f0 buf depth f ops :
  tu_fifo_config f0 buf depth false = (true, f) -> 0 < depth -> zlen buf = depth ->
  Forall op_ok ops ->
  fst (run fifo_exec ops f) = fst (run (queue_exec depth) ops []) /\
  fifo_content (snd (run fifo_exec ops f)) = snd (run (queue_exec depth) ops []).
Proof.
  intros Hcfg Hd Hb Hops.
  assert (fifo_rel depth f []) as Hrel.
  { unfold tu_fifo_config in Hcfg. destruct (Z.ltb_spec 0x8000 depth); [done|].
    injection Hcfg as <-. split; try done; [split; cbn; lia|..].
    - unfold fifo_ovf. cbn. rewrite Z.mod_0_l by lia. lia.
    - unfold fifo_content, fifo_count. cbn. rewrite Z.mod_0_l, Z.min_l by lia. done. }
  destruct (run_sim depth ops f [] Hrel Hops) as [Ho [_ _ _ _ Hc]]. done.
Qed.

(** An overwritable FIFO keeps the newest bytes. A write of [n] bytes is taken
    whole (the last [depth] of them if there are more), and afterwards the FIFO
    holds the last [depth] bytes of what it held followed by the data, as long as
    it is not overflowed twice: [n] is at least the depth, or the bytes written
    since the read index stay below twice the depth. *)
Theorem fifo_overwrite_keeps_newest f data n m f' :
  fifo_ok f -> ff_overwritable f = true -> 0 <= n <= zlen data -> n < 65536 ->
  ff_depth f <= n \/ fifo_ovf f + n < 2 * ff_depth f ->
  tu_fifo_write_n f data n = (m, f') ->
  m = Z.min n (ff_depth f) /\ fifo_ok f' /\
  fifo_content f' = last_n (Z.min (ff_depth f) (zlen (fifo_content f) + n))
                      (fifo_content f ++ take (Z.to_nat n) data).
Proof.
  intros Hok How Hn H16 Hv E. rewrite fifo_content_zlen by done. by apply write_n_over.
Qed.

(** *** Linear pieces for DMA *)

(** The bytes of the two pieces, one after the other. *)
Definition piece_bytes (buf : list Z) (i : ff_info) : list Z :=
  match info_ptr i with Some p => mem_read p (info_len i) buf | None => [] end.

(** [tu_fifo_get_read_info] describes exactly the content: the linear piece
    followed by the wrapped piece are the bytes held, oldest first, also when the
    FIFO had overflowed. *)
Theorem read_info_is_content f info f' :
  fifo_ok f -> tu_fifo_get_read_info f = (info, f') ->
  piece_bytes (ff_buffer f) (linear info) ++ piece_bytes (ff_buffer f) (wrapped info) =
    fifo_content f /\
  info_len (linear info) + info_len (wrapped info) = zlen (fifo_content f) /\
  peeked f f'.
Proof.
  intros Hok. pose proof (fifo_count_range f Hok) as Hr. pose proof (fo_depth f Hok) as Hd.
  rewrite fifo_content_zlen by done. unfold tu_fifo_get_read_info.
  rewrite overflow_count_spec by apply Hok. fold (fifo_ovf f).
  assert (forall g rd cnt, peeked f g -> cnt = fifo_count f -> 0 <= rd ->
    rd mod ff_depth f = (ff_wr_idx f - fifo_count f) mod ff_depth f ->
    (if cnt =? 0 then (no_info, g)
     else let wr_ptr := idx2ptr (ff_depth g) (ff_wr_idx f) in
      let rd_ptr := idx2ptr (ff_depth g) rd in
      if rd_ptr <? wr_ptr
      then (mk_ff_buffer_info (mk_ff_info cnt (Some rd_ptr)) (mk_ff_info 0 None), g)
      else
        let lin := u16 (ff_depth g - rd_ptr) in
        (mk_ff_buffer_info (mk_ff_info lin (Some rd_ptr))
           (mk_ff_info (u16 (cnt - lin)) (Some 0)), g)) = (info, f') ->
    piece_bytes (ff_buffer f) (linear info) ++ piece_bytes (ff_buffer f) (wrapped info) =
      fifo_content f /\
    info_len (linear info) + info_len (wrapped info) = fifo_count f /\ peeked f f') as Hmain.
  { intros g rd cnt Hg -> Hrd0 Hrd. destruct (Z.eqb_spec (fifo_count f) 0) as [E0|E0].
    { intros [= <- <-]. split_and!; try done. unfold fifo_content. by rewrite E0. }
    rewrite (pk_depth _ _ Hg). cbv zeta. rewrite !idx2ptr_spec by (try lia; apply Hok).
    rewrite Hrd. set (p := (ff_wr_idx f - fifo_count f) mod ff_depth f).
    pose proof (Z.mod_pos_bound (ff_wr_idx f - fifo_count f) (ff_depth f) ltac:(lia)) as Hp. fold p in Hp.
    assert (ff_wr_idx f mod ff_depth f =
      if p + fifo_count f <? ff_depth f then p + fifo_count f else p + fifo_count f - ff_depth f) as ->.
    { rewrite <- mod_near by lia. unfold p. rewrite Zplus_mod_idemp_l. f_equal. lia. }
    assert (ff_pull_n f (fifo_count f) p = fifo_content f) as Hpull.
    { unfold fifo_content. apply ff_pull_window; try done; first [lia | apply Hok]. }
    unfold ff_pull_n in Hpull. rewrite (u16_small (ff_depth f - p)) in Hpull by (unfold is_u16; lia).
    rewrite (u16_small (ff_depth f - p)) by (unfold is_u16; lia).
    destruct (Z.ltb_spec p (if p + fifo_count f <? ff_depth f then p + fifo_count f
                            else p + fifo_count f - ff_depth f)) as [Hlt|Hge].
    - destruct (Z.ltb_spec (p + fifo_count f) (ff_depth f)); [|lia].
      destruct (Z.leb_spec (fifo_count f) (ff_depth f - p)); [|lia].
      intros [= <- <-]. cbn. rewrite app_nil_r. split_and!; try done; lia.
    - destruct (Z.ltb_spec (p + fifo_count f) (ff_depth f)); [lia|].
      rewrite (u16_small (fifo_count f - (ff_depth f - p))) in * by (unfold is_u16; lia).
      intros [= <- <-]. cbn. split_and!; try done; [|lia].
      destruct (Z.leb_spec (fifo_count f) (ff_depth f - p)); [|done].
      rewrite <- Hpull. replace (fifo_count f - (ff_depth f - p)) with 0 by lia.
      replace (ff_depth f - p) with (fifo_count f) by lia. apply app_nil_r. }
  destruct (Z.ltb_spec (ff_depth f) (fifo_ovf f)).
  - destruct (correct_read_index f (ff_wr_idx f)) as [rd' g] eqn:E.
    destruct (correct_read_peeked f rd' g Hok ltac:(done) E) as (Hg & Hrd & Hmod).
    apply Hmain; try done.
    + rewrite (pk_depth _ _ Hg). unfold fifo_count. unfold fifo_ovf in *. lia.
    + rewrite <- Hrd. apply (pk_ok _ _ Hg).
  - apply Hmain; [by apply not_overflowed_peeked| |apply Hok|by apply read_index_start].
    unfold fifo_count. unfold fifo_ovf in *. lia.
Qed.

(** Filling the two pieces of [tu_fifo_get_write_info] with [data], as a DMA
    would, and then moving the write index. *)
Definition fill_pieces (f : tu_fifo_t) (info : tu_fifo_buffer_info_t) (data : list Z) : tu_fifo_t :=
  let lin := info_len (linear info) in
  let buf := match info_ptr (linear info) with
             | Some p => mem_write p (mem_read 0 (Z.min lin (zlen data)) data) (ff_buffer f)
             | None => ff_buffer f
             end in
  let buf := match info_ptr (wrapped info) with
             | Some p => mem_write p (mem_read lin (zlen data - lin) data) buf
             | None => buf
             end in
  tu_fifo_advance_write_pointer (f <| ff_buffer := buf |>) (zlen data).

(** [tu_fifo_get_write_info] describes exactly the free space: the two pieces
    have the free bytes together, and up to that many bytes copied into them (with
    the write index advanced after) have the same effect as [tu_fifo_write_n]. *)
Theorem write_info_fill f data :
  fifo_ok f -> ff_overwritable f = false -> fifo_ovf f <= ff_depth f ->
  let info := tu_fifo_get_write_info f in
  info_len (linear info) + info_len (wrapped info) = tu_fifo_remaining f /\
  (0 < zlen data <= tu_fifo_remaining f ->
   tu_fifo_write_n f data (zlen data) = (zlen data, fill_pieces f info data)).
Proof.
  intros Hok How Hovf. cbv zeta. pose proof (fifo_count_range f Hok) as Hr.
  pose proof (fo_depth f Hok) as Hd.
  assert (fifo_count f = fifo_ovf f) as Hc by (unfold fifo_count, fifo_ovf in *; lia).
  unfold tu_fifo_remaining, tu_fifo_get_write_info, tu_fifo_write_n. rewrite How.
  rewrite remaining_spec by done. set (r := ff_depth f - fifo_count f) in *.
  destruct (Z.eqb_spec r 0) as [E0|E0]; [split; [done|lia]|].
  rewrite !idx2ptr_spec by (try lia; apply Hok).
  pose proof (read_index_start f Hok ltac:(done)) as Hrd.
  set (p := ff_wr_idx f mod ff_depth f). set (q := ff_rd_idx f mod ff_depth f) in *.
  pose proof (Z.mod_pos_bound (ff_wr_idx f) (ff_depth f) ltac:(lia)) as Hp. fold p in Hp.
  assert (q = if p + r <? ff_depth f then p + r else p + r - ff_depth f) as Hq.
  { rewrite Hrd. rewrite <- mod_near by lia. unfold p, r. rewrite Zplus_mod_idemp_l.
    replace (ff_wr_idx f + (ff_depth f - fifo_count f))
      with (ff_wr_idx f - fifo_count f + 1 * ff_depth f) by lia.
    by rewrite Z.mod_add by lia. }
  rewrite (u16_small (ff_depth f - p)) by (unfold is_u16; lia).
  assert (forall info, (info = mk_ff_buffer_info (mk_ff_info r (Some p)) (mk_ff_info 0 None) /\
                        r <= ff_depth f - p) \/
     (info = mk_ff_buffer_info (mk_ff_info (ff_depth f - p) (Some p))
        (mk_ff_info (r - (ff_depth f - p)) (Some 0)) /\ ff_depth f - p <= r) ->
    info_len (linear info) + info_len (wrapped info) = r /\
    (0 < zlen data <= r ->
     (let '(n, wr_idx, buf8) := (tu_min16 (zlen data) r, ff_wr_idx f, data) in
      if negb (n =? 0) then
        let wr_ptr := idx2ptr (ff_depth f) wr_idx in
        (n, f <| ff_buffer := ff_push_n f buf8 n wr_ptr |>
              <| ff_wr_idx := advance_index (ff_depth f) wr_idx n |>)
      else (n, f)) = (zlen data, fill_pieces f info data))) as Hmain.
  { intros info Hinfo. split; [destruct Hinfo as [[-> _]|[-> _]]; cbn; lia|]. intros Hlen.
    assert (tu_min16 (zlen data) r = zlen data) as -> by (unfold tu_min16; case_if; bool_prop; lia).
    destruct (Z.eqb_spec (zlen data) 0); [lia|]. cbn [negb].
    rewrite idx2ptr_spec by (try lia; apply Hok). fold p.
    unfold fill_pieces, tu_fifo_advance_write_pointer. f_equal.
    assert (forall b, b = ff_push_n f data (zlen data) p ->
      f <| ff_buffer := ff_push_n f data (zlen data) p |>
        <| ff_wr_idx := advance_index (ff_depth f) (ff_wr_idx f) (zlen data) |> =
      (f <| ff_buffer := b |>) <| ff_wr_idx := advance_index (ff_depth (f <| ff_buffer := b |>))
        (ff_wr_idx (f <| ff_buffer := b |>)) (zlen data) |>) as Hb by (by intros b ->).
    apply Hb. unfold ff_push_n. rewrite (u16_small (ff_depth f - p)) by (unfold is_u16; lia).
    destruct Hinfo as [[-> Hi]|[-> Hi]]; cbn -[mem_read mem_write].
    - rewrite Z.min_r by lia. destruct (Z.leb_spec (zlen data) (ff_depth f - p)); [done|lia].
    - destruct (Z.leb_spec (zlen data) (ff_depth f - p)).
      + rewrite Z.min_r by lia. unfold mem_read at 1.
        replace (Z.to_nat (zlen data - (ff_depth f - p))) with 0%nat by lia. done.
      + rewrite Z.min_l by lia. rewrite u16_small by (unfold is_u16; lia). done. }
  destruct (Z.eqb_spec (zlen data) 0) as [El|El].
  - split; [|lia]. destruct (Z.ltb_spec p q), (Z.ltb_spec (p + r) (ff_depth f)); cbn;
      rewrite ?u16_small by (unfold is_u16; lia); lia.
  - cbn [negb]. destruct (Z.ltb_spec p q).
    + destruct (Z.ltb_spec (p + r) (ff_depth f)); [|lia].
      replace (q - p) with r by lia. apply Hmain. left. split; [done|lia].
    + destruct (Z.ltb_spec (p + r) (ff_depth f)); [lia|].
      rewrite u16_small by (unfold is_u16; lia). apply Hmain. right. split; [done|lia].
Qed.

(** *** Where an overwritable FIFO goes wrong *)

(** Discarding from an overflowed FIFO. [tu_fifo_discard_n] reports the bytes
    as discarded but, unlike every reader, does not correct the read index first:
    as long as the bytes lost to the overflow are at least as many, the FIFO still
    holds exactly the same bytes afterwards. *)
Theorem discard_overflowed_keeps_content f n m f' :
  fifo_ok f -> 0 <= n -> ff_depth f + n <= fifo_ovf f ->
  tu_fifo_discard_n f n = (m, f') ->
  m = n /\ fifo_content f' = fifo_content f.
Proof.
  intros Hok Hn Hovf. pose proof (fo_depth f Hok) as Hd.
  assert (fifo_ovf f < 2 * ff_depth f) as Hlt by (apply Z.mod_pos_bound; lia).
  unfold tu_fifo_discard_n. rewrite tu_fifo_count_spec by done.
  assert (fifo_count f = ff_depth f) as Hc by (unfold fifo_count; fold (fifo_ovf f); lia).
  assert (tu_min16 n (fifo_count f) = n) as -> by (unfold tu_min16; case_if; bool_prop; lia).
  intros [= <- <-]. split; [done|].
  set (f' := f <| ff_rd_idx := _ |>).
  assert (fifo_count f' = ff_depth f) as Hc'.
  { unfold fifo_count, f'. ff_simpl.
    rewrite advance_index_spec, Zminus_mod_idemp_r by (try apply Hok; lia).
    replace (ff_wr_idx f - (ff_rd_idx f + n)) with (ff_wr_idx f - ff_rd_idx f - n) by lia.
    rewrite <- Zminus_mod_idemp_l. fold (fifo_ovf f). rewrite Z.mod_small by lia. lia. }
  unfold fifo_content. by rewrite Hc, Hc'.
Qed.

(** The one-byte write has no guard against a second overflow. On an
    overwritable FIFO into which one byte less than twice the depth was written
    since the read index, one more byte makes the FIFO appear empty. *)
Theorem write_one_double_overflow f b :
  fifo_ok f -> ff_overwritable f = true -> fifo_ovf f = 2 * ff_depth f - 1 ->
  let '(ok, f') := tu_fifo_write f b in
  ok = true /\ tu_fifo_empty f' = true /\ fifo_content f' = [].
Proof.
  intros Hok How Hovf. pose proof (fo_depth f Hok) as Hd. unfold tu_fifo_write.
  rewrite How, andb_false_r.
  set (f' := setf _ _). assert (ff_wr_idx f' = ff_rd_idx f') as E.
  { unfold f'. ff_simpl. rewrite advance_index_spec by (try apply Hok; lia).
    pose proof (fo_wr f Hok). pose proof (fo_rd f Hok). unfold fifo_ovf in Hovf.
    destruct (Z.le_gt_cases (ff_rd_idx f) (ff_wr_idx f)).
    - rewrite Z.mod_small in Hovf by lia. assert (ff_rd_idx f = 0) by lia.
      replace (ff_wr_idx f + 1) with (2 * ff_depth f) by lia. rewrite Z.mod_same; lia.
    - replace (ff_wr_idx f - ff_rd_idx f) with
        (ff_wr_idx f - ff_rd_idx f + 2 * ff_depth f + (-1) * (2 * ff_depth f)) in Hovf by lia.
      rewrite Z.mod_add, Z.mod_small in Hovf by lia. rewrite Z.mod_small by lia. lia. }
  split_and!; [done|unfold tu_fifo_empty; by rewrite E, Z.eqb_refl|].
  unfold fifo_content, fifo_count. rewrite E, Z.sub_diag, Z.mod_0_l, Z.min_l by (unfold f'; ff_simpl; lia).
  done.
Qed.

(** ** Witnesses *)

Definition demo_fifo (ow : bool) (wr rd : Z) : tu_fifo_t := mk_tu_fifo [10; 11; 12; 13] 4 ow wr rd.

Lemma demo_fifo_ok ow wr rd : 0 <= wr < 8 -> 0 <= rd < 8 -> fifo_ok (demo_fifo ow wr rd).
Proof. intros. split; cbn; lia || done. Qed.

Lemma fifo_refines_queue_witness :
  fst (run fifo_exec [op_write_n [1; 2; 3]; op_read; op_write_n [4; 5; 6]; op_read_n 9]
         (snd (tu_fifo_config (demo_fifo true 1 1) [0; 0; 0; 0] 4 false))) =
  [out_count 3; out_byte (Some 1); out_count 2; out_bytes [2; 3; 4; 5]].
Proof.
  destruct (fifo_refines_queue (demo_fifo true 1 1) [0; 0; 0; 0] 4
    (snd (tu_fifo_config (demo_fifo true 1 1) [0; 0; 0; 0] 4 false))
    [op_write_n [1; 2; 3]; op_read; op_write_n [4; 5; 6]; op_read_n 9]) as [H _].
  - reflexivity.
  - lia.
  - reflexivity.
  - repeat constructor; cbn; lia || done.
  - rewrite H. reflexivity.
Defined.

Lemma fifo_overwrite_keeps_newest_witness :
  fifo_content (snd (tu_fifo_write_n (demo_fifo true 3 0) [1; 2; 3] 3)) = [12; 1; 2; 3].
Proof.
  destruct (tu_fifo_write_n (demo_fifo true 3 0) [1; 2; 3] 3) as [m f'] eqn:E.
  destruct (fifo_overwrite_keeps_newest (demo_fifo true 3 0) [1; 2; 3] 3 m f') as (_ & _ & H).
  - apply demo_fifo_ok; lia.
  - reflexivity.
  - vm_compute. split; congruence.
  - lia.
  - right. reflexivity.
  - exact E.
  - cbn [snd]. rewrite H. reflexivity.
Defined.

Lemma read_info_is_content_witness :
  let '(info, _) := tu_fifo_get_read_info (demo_fifo true 6 3) in
  piece_bytes [10; 11; 12; 13] (linear info) ++ piece_bytes [10; 11; 12; 13] (wrapped info) =
  [13; 10; 11].
Proof.
  destruct (tu_fifo_get_read_info (demo_fifo true 6 3)) as [info f'] eqn:E.
  destruct (read_info_is_content (demo_fifo true 6 3) info f') as [H _];
    [apply demo_fifo_ok; lia | exact E |].
  cbn [ff_buffer demo_fifo] in H. rewrite H. reflexivity.
Defined.

Lemma write_info_fill_witness :
  tu_fifo_write_n (demo_fifo false 3 2) [7; 8] 2 =
  (2, fill_pieces (demo_fifo false 3 2) (tu_fifo_get_write_info (demo_fifo false 3 2)) [7; 8]).
Proof.
  apply (write_info_fill (demo_fifo false 3 2) [7; 8]).
  - apply demo_fifo_ok; lia.
  - reflexivity.
  - vm_compute. congruence.
  - vm_compute. split; congruence.
Defined.

Lemma discard_overflowed_keeps_content_witness :
  fifo_content (snd (tu_fifo_discard_n (demo_fifo true 6 0) 2)) = fifo_content (demo_fifo true 6 0).
Proof.
  destruct (tu_fifo_discard_n (demo_fifo true 6 0) 2) as [m f'] eqn:E.
  destruct (discard_overflowed_keeps_content (demo_fifo true 6 0) 2 m f') as [_ H].
  - apply demo_fifo_ok; lia.
  - lia.
  - vm_compute. congruence.
  - exact E.
  - exact H.
Defined.

Lemma write_one_double_overflow_witness :
  tu_fifo_empty (snd (tu_fifo_write (demo_fifo true 7 0) 99)) = true.
Proof.
  pose proof (write_one_double_overflow (demo_fifo true 7 0) 99) as H.
  destruct (tu_fifo_write (demo_fifo true 7 0) 99) as [ok f'].
  apply H; [apply demo_fifo_ok; lia | reflexivity | reflexivity].
Defined.
