(* ===== verification/Dhcp.v ===== *)
(** * Dhcp: the DHCP server (src/lib/networking/dhserver.c)

    The server that gives the USB host its address. It answers DISCOVER and
    REQUEST out of a fixed table of leases. Packets are the bytes of the static
    [dhcp_data]; addresses are the 32-bit words that hold their four bytes in
    memory order. The UDP layer below it (lwIP) is seen as: the payload of the
    first buffer of the packet received, whether [pbuf_alloc] succeeds, and what is
    handed to [udp_sendto]. *)

From S2P Require Import Prelude.

(** ** Data *)

Definition DHCP_DISCOVER : Z := 1.
Definition DHCP_OFFER : Z := 2.
Definition DHCP_REQUEST : Z := 3.
Definition DHCP_ACK : Z := 5.

Definition DHCP_SUBNETMASK : Z := 1.
Definition DHCP_ROUTER : Z := 3.
Definition DHCP_DNSSERVER : Z := 6.
Definition DHCP_DNSDOMAIN : Z := 15.
Definition DHCP_IPADDRESS : Z := 50.
Definition DHCP_LEASETIME : Z := 51.
Definition DHCP_MESSAGETYPE : Z := 53.
Definition DHCP_SERVERID : Z := 54.
Definition DHCP_END : Z := 255.

(** [DHCP_TYPE]: the offsets of the fields used, the size of the options area and
    of the struct (one byte of padding at its end). *)
Definition dp_op : Z := 0.
Definition dp_secs : Z := 8.
Definition dp_flags : Z := 10.
Definition dp_ciaddr : Z := 12.
Definition dp_yiaddr : Z := 16.
Definition dp_giaddr : Z := 24.
Definition dp_chaddr : Z := 28.
Definition dp_magic : Z := 236.
Definition dp_options : Z := 240.
Definition sizeof_options : Z := 275.
Definition sizeof_dhcp_data : Z := 516.

Definition magic_cookie : list Z := [0x63; 0x82; 0x53; 0x63].

Record dhcp_entry := mk_dhcp_entry { de_mac : list Z; de_addr : Z; de_lease : Z }.
#[export] Instance eta_entry : Eta dhcp_entry := fun e =>
  mk_dhcp_entry (de_mac e) (de_addr e) (de_lease e).

(** The constant part of the configuration ([entries] is the mutable one). *)
Record dhcp_config := mk_dhcp_config {
  dc_router : Z; dc_dns : Z; dc_domain : option (list Z); dc_port : Z
}.

(** The static variables the handler works on. *)
Record dhserver := mk_dhserver { dhcp_data : list Z; entries : list dhcp_entry }.
#[export] Instance eta_dhserver : Eta dhserver := fun s =>
  mk_dhserver (dhcp_data s) (entries s).

(** The interface the packet came in on: address and netmask. *)
Record netif := mk_netif { netif_ip : Z; netif_mask : Z }.

(** ** Operations *)

Definition get_ip (buf : list Z) (off : Z) : Z := le_val (mem_read off 4 buf).
Definition set_ip (off value : Z) (buf : list Z) : list Z := mem_write off (le_bytes 4 value) buf.

(** The loops over the table: the index of the first entry that passes. *)
Fixpoint first_entry (p : dhcp_entry -> bool) (i : nat) (es : list dhcp_entry) : option nat :=
  match es with
  | [] => None
  | e :: es => if p e then Some i else first_entry p (S i) es
  end.

Definition entry_by_ip (ip : Z) (es : list dhcp_entry) : option nat :=
  first_entry (fun e => de_addr e =? ip) 0 es.
Definition entry_by_mac (mac : list Z) (es : list dhcp_entry) : option nat :=
  first_entry (fun e => bool_decide (de_mac e = mac)) 0 es.
Definition zero_mac : list Z := replicate 6 0.
Definition is_vacant (e : dhcp_entry) : bool := bool_decide (de_mac e = zero_mac).
Definition vacant_address (es : list dhcp_entry) : option nat := first_entry is_vacant 0 es.
Definition free_entry (i : nat) (es : list dhcp_entry) : list dhcp_entry :=
  alter (fun e => e <| de_mac := zero_mac |>) i es.

(** The walk over the options, from offset [i]: the option found or NULL; [None] is
    running out of turns. [next] moves by at least two, so [size] turns are more than
    enough: [find_option_returns]. *)
Fixpoint find_option_from (fuel : nat) (attrs : list Z) (size attr i : Z) : option (option Z) :=
  match fuel with
  | O => None
  | S fuel =>
      if i + 1 <? size then
        let next := i + mem_get attrs (i + 1) + 2 in
        if size <? next then Some None
        else if mem_get attrs i =? attr then Some (Some i)
        else find_option_from fuel attrs size attr next
      else Some None
  end.
Definition find_dhcp_option (attrs : list Z) (size attr : Z) : option Z :=
  default None (find_option_from (S (Z.to_nat size)) attrs size attr 0).

(** [(lease_time >> k) & 0xFF] *)
Definition lease_byte (lease_time k : Z) : Z := Z.land (Z.shiftr lease_time k) 255.

(** The option bytes, in the order they are written. *)
Definition fill_options (msg_type : Z) (domain : option (list Z)) (dns lease_time serverid router
    subnet : Z) : list Z :=
  [53; 1; msg_type] ++
  [DHCP_SERVERID; 4] ++ le_bytes 4 serverid ++
  [DHCP_LEASETIME; 4; lease_byte lease_time 24; lease_byte lease_time 16; lease_byte lease_time 8;
   lease_byte lease_time 0] ++
  [DHCP_SUBNETMASK; 4] ++ le_bytes 4 subnet ++
  (if negb (router =? 0) then [DHCP_ROUTER; 4] ++ le_bytes 4 router else []) ++
  (match domain with
   | Some d => [DHCP_DNSDOMAIN; u8 (zlen d)] ++ d
   | None => []
   end) ++
  (if negb (dns =? 0) then [DHCP_DNSSERVER; 4] ++ le_bytes 4 dns else []) ++
  [DHCP_END].

(** [~x] on 32 bits. *)
Definition bnot32 (z : Z) : Z := u32 (Z.lnot z).

Definition subnet_broadcast (n : netif) : Z := Z.lor (netif_ip n) (bnot32 (netif_mask n)).

Definition get_dhcp_destination (n : netif) (dhcp : list Z) (yiaddr : Z) (is_nak : bool) : Z :=
  let giaddr := get_ip dhcp dp_giaddr in
  let ciaddr := get_ip dhcp dp_ciaddr in
  let broadcast_flag := negb (Z.land (le_val (mem_read dp_flags 2 dhcp)) 0x80 =? 0) in
  if negb (giaddr =? 0) then giaddr
  else if is_nak then subnet_broadcast n
  else if negb (ciaddr =? 0) then ciaddr
  else if broadcast_flag then subnet_broadcast n
  else if negb (yiaddr =? 0) then subnet_broadcast n
  else subnet_broadcast n.

(** The reply common to OFFER and ACK, from the packet [d] with [yiaddr] set:
    header fields, cookie, and the option area cleared and filled. *)
Definition reply_packet (c : dhcp_config) (n : netif) (msg_type lease : Z) (d : list Z) : list Z :=
  let d := mem_set dp_op 2 d in
  let d := mem_write dp_secs (le_bytes 2 0) d in
  let d := mem_write dp_flags (le_bytes 2 0) d in
  let d := mem_write dp_magic magic_cookie d in
  let d := mem_write dp_options (replicate (Z.to_nat sizeof_options) 0) d in
  mem_write dp_options
    (fill_options msg_type (dc_domain c) (dc_dns c) (s32 lease) (netif_ip n) (dc_router c)
       (netif_mask n)) d.

(** A datagram: destination, port, payload. *)
Definition datagram : Type := Z * Z * list Z.

Definition chaddr_mac (d : list Z) : list Z := mem_read dp_chaddr 6 d.

(** The DISCOVER branch; [alloc] tells whether [pbuf_alloc] succeeds. *)
Definition handle_discover (c : dhcp_config) (n : netif) (alloc : bool) (port : Z)
    : ST dhserver (option datagram) := fun s =>
  let d := dhcp_data s in
  let found := match entry_by_mac (chaddr_mac d) (entries s) with
               | Some i => Some i
               | None => vacant_address (entries s)
               end in
  match found with
  | None => (None, s)
  | Some i =>
      match entries s !! i with
      | None => (None, s)
      | Some e =>
          let d := set_ip dp_yiaddr (de_addr e) d in
          let d := reply_packet c n DHCP_OFFER (de_lease e) d in
          let s := s <| dhcp_data := d |> in
          if alloc
          then (Some (get_dhcp_destination n d (de_addr e) false, port, d), s)
          else (None, s)
      end
  end.

Definition handle_request (c : dhcp_config) (n : netif) (alloc : bool) (port : Z)
    : ST dhserver (option datagram) := fun s =>
  let d := dhcp_data s in
  let opts := mem_read dp_options sizeof_options d in
  match find_dhcp_option opts sizeof_options DHCP_IPADDRESS with
  | None => (None, s)
  | Some o =>
      if negb (mem_get opts (o + 1) =? 4) then (None, s)
      else
        let ip_off := dp_options + o + 2 in
        let s := match entry_by_mac (chaddr_mac d) (entries s) with
                 | Some i => s <| entries := free_entry i (entries s) |>
                 | None => s
                 end in
        match entry_by_ip (get_ip d ip_off) (entries s) with
        | None => (None, s)
        | Some i =>
            match entries s !! i with
            | None => (None, s)
            | Some e =>
                if negb (is_vacant e) then (None, s)
                else
                  let d := mem_write dp_yiaddr (mem_read ip_off 4 d) d in
                  let d := reply_packet c n DHCP_ACK (de_lease e) d in
                  let s := s <| dhcp_data := d |> in
                  if alloc then
                    let s := s <| entries :=
                      alter (fun e => e <| de_mac := chaddr_mac d |>) i (entries s) |> in
                    (Some (get_dhcp_destination n d (de_addr e) false, port, d), s)
                  else (None, s)
            end
        end
  end.

Definition udp_recv_proc (c : dhcp_config) (n : netif) (alloc : bool) (payload : list Z) (port : Z)
    : ST dhserver (option datagram) := fun s =>
  let s := s <| dhcp_data :=
    mem_write 0 (take (Z.to_nat sizeof_dhcp_data) payload) (dhcp_data s) |> in
  let opts := mem_read dp_options sizeof_options (dhcp_data s) in
  match find_dhcp_option opts sizeof_options DHCP_MESSAGETYPE with
  | None => (None, s)
  | Some o =>
      let msg := mem_get (dhcp_data s) (dp_options + o + 2) in
      if msg =? DHCP_DISCOVER then handle_discover c n alloc port s
      else if msg =? DHCP_REQUEST then handle_request c n alloc port s
      else (None, s)
  end.

(** The static variables at power-up. *)
Definition dhserver_start (es : list dhcp_entry) : dhserver :=
  mk_dhserver (replicate (Z.to_nat sizeof_dhcp_data) 0) es.

(** ** Options *)

(** An option list as RFC 2132 encodes it. *)
Definition encode_option (o : Z * list Z) : list Z := fst o :: zlen (snd o) :: snd o.
Definition encode_options (os : list (Z * list Z)) : list Z := mjoin (encode_option <$> os).

(** The data of the first option with a code. *)
Fixpoint lookup_option (code : Z) (os : list (Z * list Z)) : option (list Z) :=
  match os with
  | [] => None
  | (k, d) :: os => if k =? code then Some d else lookup_option code os
  end.

Lemma find_option_step fuel (pre data post : list Z) code size attr :
  zlen pre + 2 + zlen data <= size ->
  find_option_from (S fuel) (pre ++ encode_option (code, data) ++ post) size attr (zlen pre) =
  if code =? attr then Some (Some (zlen pre))
  else find_option_from fuel (pre ++ encode_option (code, data) ++ post) size attr
         (zlen pre + 2 + zlen data).
Proof.
  intros Hs. pose proof (zlen_nonneg pre). pose proof (zlen_nonneg data).
  set (l := pre ++ encode_option (code, data) ++ post).
  assert (mem_get l (zlen pre) = code /\ mem_get l (zlen pre + 1) = zlen data) as [E0 E1].
  { unfold l. rewrite !mem_get_app by lia.
    destruct (Z.ltb_spec (zlen pre + 1) (zlen pre)), (Z.ltb_spec (zlen pre) (zlen pre)); try lia.
    replace (zlen pre + 1 - zlen pre) with 1 by lia. rewrite Z.sub_diag.
    unfold encode_option. cbn [fst snd]. rewrite !zlen_cons.
    destruct (Z.ltb_spec 1 (1 + (1 + zlen data))), (Z.ltb_spec 0 (1 + (1 + zlen data))); try lia.
    done. }
  cbn [find_option_from]. rewrite E0, E1.
  destruct (Z.ltb_spec (zlen pre + 1) size); [|lia].
  replace (zlen pre + zlen data + 2) with (zlen pre + 2 + zlen data) by lia.
  destruct (Z.ltb_spec size (zlen pre + 2 + zlen data)); [lia|]. done.
Qed.

Lemma encode_options_cons o os : encode_options (o :: os) = encode_option o ++ encode_options os.
Proof. done. Qed.

Lemma encode_option_zlen k d : zlen (encode_option (k, d)) = 2 + zlen d.
Proof. unfold encode_option. cbn [fst snd]. rewrite !zlen_cons. lia. Qed.

(** Encoded options are found, each with its data. *)
Lemma find_option_encoded fuel (pre post : list Z) os size code d :
  zlen (pre ++ encode_options os) <= size -> (length os <= fuel)%nat ->
  lookup_option code os = Some d ->
  exists o, find_option_from fuel (pre ++ encode_options os ++ post) size code (zlen pre) = Some (Some o) /\
    mem_read (o + 1) (1 + zlen d) (pre ++ encode_options os ++ post) = zlen d :: d.
Proof.
  revert fuel pre. induction os as [|[k dk] os IH]; intros fuel pre Hs Hf Hl; [done|].
  destruct fuel as [|fuel]; [cbn in Hf; lia|].
  cbn [lookup_option] in Hl. rewrite encode_options_cons in *.
  rewrite <- app_assoc. rewrite !zlen_app, encode_option_zlen in Hs.
  pose proof (zlen_nonneg (encode_options os)).
  rewrite find_option_step by lia. destruct (Z.eqb_spec k code) as [->|Hne].
  - injection Hl as ->. exists (zlen pre). split; [done|].
    change (encode_option (code, d)) with ([code] ++ (zlen d :: d)).
    rewrite <- app_assoc, app_assoc. apply mem_read_mid.
    + rewrite zlen_app. done.
    + rewrite zlen_cons. done.
  - assert (zlen pre + 2 + zlen dk = zlen (pre ++ encode_option (k, dk))) as E
      by (rewrite zlen_app, encode_option_zlen; lia).
    rewrite E, app_assoc. apply IH; [|cbn in Hf; lia|done].
    rewrite zlen_app, <- E. lia.
Qed.

(** The walk always returns: [find_dhcp_option] never runs out of turns. *)
Lemma find_option_returns fuel attrs size attr i :
  Forall is_u8 attrs -> (Z.to_nat (size - i) < fuel)%nat ->
  exists r, find_option_from fuel attrs size attr i = Some r.
Proof.
  intros Hb. revert i. induction fuel as [|fuel IH]; intros i Hf; cbn [find_option_from]; [lia|].
  pose proof (mem_get_u8 attrs (i + 1) Hb) as Hg. unfold is_u8 in Hg.
  destruct (Z.ltb_spec (i + 1) size); [|eauto]. case_if; [eauto|]. case_if; [eauto|]. apply IH. lia.
Qed.

Lemma find_dhcp_option_returns attrs size attr r :
  Forall is_u8 attrs -> find_dhcp_option attrs size attr = r <->
  find_option_from (S (Z.to_nat size)) attrs size attr 0 = Some r.
Proof.
  intros Hb. unfold find_dhcp_option.
  destruct (find_option_returns (S (Z.to_nat size)) attrs size attr 0 Hb) as [r' ->]; [lia|].
  cbn. split; congruence.
Qed.

(** The walk stays inside the area: an option found is complete in it. *)
Lemma find_option_bounds fuel attrs size attr i o :
  0 <= i -> Forall is_u8 attrs -> find_option_from fuel attrs size attr i = Some (Some o) ->
  i <= o /\ o + 2 + mem_get attrs (o + 1) <= size /\ mem_get attrs o = attr.
Proof.
  intros Hi Hb. revert i Hi. induction fuel as [|fuel IH]; intros i Hi; cbn; [done|].
  assert (0 <= mem_get attrs (i + 1)) as Hg.
  { unfold mem_get. destruct (attrs !! Z.to_nat (i + 1)) as [b|] eqn:E; [|cbn; lia].
    rewrite Forall_lookup in Hb. specialize (Hb _ _ E). unfold is_u8 in Hb. cbn. lia. }
  destruct (Z.ltb_spec (i + 1) size); [|done].
  destruct (Z.ltb_spec size (i + mem_get attrs (i + 1) + 2)); [done|].
  destruct (Z.eqb_spec (mem_get attrs i) attr).
  - intros [= <-]. split_and!; [lia|lia|done].
  - intros E. destruct (IH (i + mem_get attrs (i + 1) + 2) ltac:(lia) E) as (? & ? & ?).
    split_and!; [lia|lia|done].
Qed.

(** What [fill_options] writes, as a list of options. *)
Definition reply_options (msg_type : Z) (domain : option (list Z)) (dns lease serverid router subnet : Z)
    : list (Z * list Z) :=
  [(DHCP_MESSAGETYPE, [msg_type]); (DHCP_SERVERID, le_bytes 4 serverid);
   (DHCP_LEASETIME, [lease_byte lease 24; lease_byte lease 16; lease_byte lease 8; lease_byte lease 0]);
   (DHCP_SUBNETMASK, le_bytes 4 subnet)] ++
  (if negb (router =? 0) then [(DHCP_ROUTER, le_bytes 4 router)] else []) ++
  (match domain with Some d => [(DHCP_DNSDOMAIN, d)] | None => [] end) ++
  (if negb (dns =? 0) then [(DHCP_DNSSERVER, le_bytes 4 dns)] else []).

Definition domain_ok (domain : option (list Z)) : Prop :=
  match domain with Some d => zlen d <= 239 | None => True end.

Lemma encode_options_app os os' : encode_options (os ++ os') = encode_options os ++ encode_options os'.
Proof. unfold encode_options. rewrite fmap_app, join_app. done. Qed.

Lemma fill_options_encoded msg_type domain dns lease serverid router subnet :
  domain_ok domain ->
  fill_options msg_type domain dns lease serverid router subnet =
  encode_options (reply_options msg_type domain dns lease serverid router subnet) ++ [DHCP_END].
Proof.
  intros Hd. unfold fill_options, reply_options. rewrite !encode_options_app.
  assert (forall k v, encode_options [(k, le_bytes 4 v)] = [k; 4] ++ le_bytes 4 v) as Hip
    by (intros; unfold encode_options; cbn; rewrite ?app_nil_r; done).
  assert (encode_options (if negb (router =? 0) then [(DHCP_ROUTER, le_bytes 4 router)] else []) =
    if negb (router =? 0) then [DHCP_ROUTER; 4] ++ le_bytes 4 router else []) as -> by (by case_if).
  assert (encode_options (if negb (dns =? 0) then [(DHCP_DNSSERVER, le_bytes 4 dns)] else []) =
    if negb (dns =? 0) then [DHCP_DNSSERVER; 4] ++ le_bytes 4 dns else []) as -> by (by case_if).
  assert (encode_options (match domain with Some d => [(DHCP_DNSDOMAIN, d)] | None => [] end) =
    match domain with Some d => [DHCP_DNSDOMAIN; u8 (zlen d)] ++ d | None => [] end) as ->.
  { destruct domain as [d|]; [|done]. cbn in Hd. pose proof (zlen_nonneg d).
    rewrite u8_small by (unfold is_u8; lia). unfold encode_options. cbn. by rewrite app_nil_r. }
  rewrite <- !app_assoc. done.
Qed.

Lemma fill_options_zlen msg_type domain dns lease serverid router subnet :
  domain_ok domain ->
  zlen (fill_options msg_type domain dns lease serverid router subnet) <= sizeof_options.
Proof.
  intros Hd. unfold fill_options, sizeof_options.
  rewrite !zlen_app, !le_bytes_zlen.
  assert (zlen (match domain with Some d => [DHCP_DNSDOMAIN; u8 (zlen d)] ++ d | None => [] end) <= 241).
  { destruct domain; [|done]. rewrite zlen_app. cbn in Hd |- *. unfold zlen at 1. cbn. lia. }
  assert (zlen (if negb (router =? 0) then [DHCP_ROUTER; 4] ++ le_bytes 4 router else []) <= 6)
    by (case_if; done).
  assert (zlen (if negb (dns =? 0) then [DHCP_DNSSERVER; 4] ++ le_bytes 4 dns else []) <= 6)
    by (case_if; done).
  unfold zlen in *. cbn [length] in *. lia.
Qed.

(** ** The reply packet *)

Lemma mem_set_write k v buf : mem_set k v buf = mem_write k [v] buf.
Proof. done. Qed.

Lemma reply_packet_zlen c n msg lease d : zlen (reply_packet c n msg lease d) = zlen d.
Proof. unfold reply_packet. rewrite !mem_write_zlen, mem_set_zlen. done. Qed.

(** The reply keeps the transaction id and everything from [ciaddr] to the cookie. *)
Lemma reply_packet_keeps c n msg lease d off k :
  0 <= off -> 0 <= k -> (1 <= off /\ off + k <= dp_secs) \/ (dp_ciaddr <= off /\ off + k <= dp_magic) ->
  mem_read off k (reply_packet c n msg lease d) = mem_read off k d.
Proof.
  intros Ho Hk H. unfold reply_packet, dp_op, dp_secs, dp_flags, dp_ciaddr, dp_magic, dp_options in *.
  rewrite mem_set_write.
  repeat (rewrite mem_read_write_disjoint;
    [|lia|lia|rewrite ?le_bytes_zlen; unfold zlen, magic_cookie; cbn [length]; lia]).
  done.
Qed.

Lemma reply_packet_area c n msg lease d :
  domain_ok (dc_domain c) -> zlen d = sizeof_dhcp_data ->
  exists rest, mem_read dp_options sizeof_options (reply_packet c n msg lease d) =
    fill_options msg (dc_domain c) (dc_dns c) (s32 lease) (netif_ip n) (dc_router c) (netif_mask n)
      ++ rest.
Proof.
  intros Hd Hl. unfold reply_packet. set (fo := fill_options _ _ _ _ _ _ _).
  pose proof (fill_options_zlen msg (dc_domain c) (dc_dns c) (s32 lease) (netif_ip n) (dc_router c)
    (netif_mask n) Hd) as Hfo. fold fo in Hfo. pose proof (zlen_nonneg fo).
  unfold dp_options, sizeof_options, sizeof_dhcp_data in *.
  match goal with |- context [mem_write 240 fo ?b] => set (X := b) end.
  assert (zlen X = 516) as HX by (unfold X; rewrite !mem_write_zlen, mem_set_zlen; done).
  replace 275 with (zlen fo + (275 - zlen fo)) by lia.
  rewrite mem_read_split by lia. rewrite mem_read_write by lia. eauto.
Qed.

(** The options of an OFFER or ACK are what a client reads. For a domain name
    of at most 239 bytes the options fit their area, and walking the area of the
    reply with the option parser finds every option of the reply (message type,
    server, lease time, netmask and, where configured, router, domain and DNS
    server) with exactly its data; the header identifies the transaction and the
    client by the bytes of the request. *)
Theorem dhcp_reply_readable c n msg lease d code data :
  domain_ok (dc_domain c) -> zlen d = sizeof_dhcp_data ->
  lookup_option code (reply_options msg (dc_domain c) (dc_dns c) (s32 lease) (netif_ip n)
                        (dc_router c) (netif_mask n)) = Some data ->
  let r := reply_packet c n msg lease d in
  let area := mem_read dp_options sizeof_options r in
  (exists o, find_dhcp_option area sizeof_options code = Some o /\
     mem_read (o + 1) (1 + zlen data) area = zlen data :: data) /\
  mem_read 4 4 r = mem_read 4 4 d /\ chaddr_mac r = chaddr_mac d.
Proof.
  intros Hd Hl Hlook. cbv zeta. destruct (reply_packet_area c n msg lease d Hd Hl) as [rest E].
  pose proof (fill_options_zlen msg (dc_domain c) (dc_dns c) (s32 lease) (netif_ip n) (dc_router c)
    (netif_mask n) Hd) as Hfo.
  rewrite E. rewrite fill_options_encoded in * by done. rewrite zlen_app in Hfo.
  split_and!.
  - rewrite <- app_assoc. edestruct (fun Hs Hf => find_option_encoded (S (Z.to_nat sizeof_options)) [] ([DHCP_END] ++ rest)
      _ sizeof_options code data Hs Hf Hlook) as (o & Ho & Hr).
    + unfold zlen at 2 in Hfo. cbn in Hfo |- *. lia.
    + unfold sizeof_options, reply_options. rewrite !length_app. repeat case_if; destruct (dc_domain c); cbn; lia.
    + exists o. split; [|exact Hr]. unfold find_dhcp_option. change (zlen []) with 0 in Ho. rewrite app_nil_l in Ho. by rewrite Ho.
  - apply reply_packet_keeps; unfold dp_secs, dp_ciaddr; lia.
  - apply reply_packet_keeps; unfold dp_secs, dp_ciaddr, dp_chaddr, dp_magic; lia.
Qed.

(** ** The lease table *)

Record table_ok (es : list dhcp_entry) : Prop := {
  to_mac : forall i e, es !! i = Some e -> length (de_mac e) = 6%nat;
  to_unique : forall i j e e', es !! i = Some e -> es !! j = Some e' ->
    de_mac e = de_mac e' -> de_mac e <> zero_mac -> i = j
}.

Record dhserver_ok (s : dhserver) : Prop := {
  ds_data : zlen (dhcp_data s) = sizeof_dhcp_data;
  ds_table : table_ok (entries s)
}.

Lemma first_entry_spec p i es k :
  first_entry p i es = Some k ->
  (i <= k)%nat /\ exists e, es !! (k - i)%nat = Some e /\ p e = true /\
  forall j e', (j < k - i)%nat -> es !! j = Some e' -> p e' = false.
Proof.
  revert i. induction es as [|e es IH]; intros i; cbn; [done|].
  destruct (p e) eqn:Ep.
  - intros [= <-]. split; [lia|]. exists e. rewrite Nat.sub_diag. split_and!; try done. lia.
  - intros H. destruct (IH (S i) H) as (Hi & e' & He & Hp & Hf). split; [lia|]. exists e'.
    replace (k - i)%nat with (S (k - S i)) by lia. split_and!; [done..|].
    intros [|j] e1 Hj; cbn; [congruence|]. intros. apply (Hf j); [lia|done].
Qed.

Lemma first_entry_none p i es : first_entry p i es = None -> forall j e, es !! j = Some e -> p e = false.
Proof.
  revert i. induction es as [|e es IH]; intros i; cbn; [done|].
  destruct (p e) eqn:Ep; [done|]. intros H [|j] e'; cbn; [congruence|]. by apply (IH (S i)).
Qed.

Lemma first_entry_0 p es k :
  first_entry p 0 es = Some k -> exists e, es !! k = Some e /\ p e = true /\
  forall j e', (j < k)%nat -> es !! j = Some e' -> p e' = false.
Proof.
  intros H. destruct (first_entry_spec p 0 es k H) as (_ & e & H'). rewrite Nat.sub_0_r in H'. eauto.
Qed.

Lemma lookup_alter_mac i j m (es : list dhcp_entry) e :
  alter (fun e => e <| de_mac := m |>) i es !! j = Some e ->
  exists e0, es !! j = Some e0 /\ de_addr e = de_addr e0 /\ de_lease e = de_lease e0 /\
  de_mac e = if decide (i = j) then m else de_mac e0.
Proof.
  destruct (decide (i = j)) as [->|Hne].
  - rewrite list_lookup_alter_eq. intros (e0 & -> & E)%fmap_Some. exists e0. by subst.
  - rewrite list_lookup_alter_ne by done. eauto.
Qed.

Lemma free_entry_ok i es : table_ok es -> table_ok (free_entry i es).
Proof.
  intros [Hm Hu]. split.
  - intros j e (e0 & He & _ & _ & ->)%lookup_alter_mac. case_decide; [done|eauto].
  - intros j k e e' (e0 & He & _ & _ & Hx)%lookup_alter_mac (e1 & He1 & _ & _ & Hy)%lookup_alter_mac Heq Hz.
    repeat case_decide; subst; try congruence. rewrite Hx in *. rewrite Hy in *. by eapply Hu.
Qed.

(** Binding an address to a client no other entry is bound to. *)
Lemma bind_entry_ok i m es :
  table_ok es -> length m = 6%nat -> (m <> zero_mac -> forall j e, es !! j = Some e -> de_mac e <> m) ->
  table_ok (alter (fun e => e <| de_mac := m |>) i es).
Proof.
  intros [Hm Hu] Hl Hfree. split.
  - intros j e (e0 & He & _ & _ & ->)%lookup_alter_mac. case_decide; [done|eauto].
  - intros j k e e' (e0 & He & _ & _ & Hx)%lookup_alter_mac (e1 & He1 & _ & _ & Hy)%lookup_alter_mac Heq Hz.
    destruct (decide (i = j)) as [Hij|Hij], (decide (i = k)) as [Hik|Hik].
    + congruence.
    + exfalso. assert (m <> zero_mac) as Hmz by congruence.
      apply (Hfree Hmz k e1 He1). congruence.
    + exfalso. assert (m <> zero_mac) as Hmz by congruence.
      apply (Hfree Hmz j e0 He). congruence.
    + apply (Hu j k e0 e1); congruence.
Qed.

(** After the client's entry was freed, nobody has its address. *)
Lemma freed_absent m es :
  table_ok es -> m <> zero_mac ->
  let es' := match entry_by_mac m es with Some i => free_entry i es | None => es end in
  forall j e, es' !! j = Some e -> de_mac e <> m.
Proof.
  intros [Hm Hu] Hz. cbv zeta. unfold entry_by_mac.
  destruct (first_entry _ 0 es) as [i|] eqn:E.
  - apply first_entry_0 in E as (e0 & He0 & Hp & _). apply bool_decide_eq_true in Hp.
    intros j e (e1 & He1 & _ & _ & Hx)%lookup_alter_mac. rewrite Hx. case_decide as Hd; [congruence|].
    intros Heq. apply Hd. apply (Hu i j e0 e1); congruence.
  - intros j e He Heq. pose proof (first_entry_none _ _ _ E j e He) as H. cbn in H.
    by apply bool_decide_eq_false in H.
Qed.

Ltac ds_simpl := cbn [fst snd entries dhcp_data setf eta eta_dhserver].

Lemma chaddr_mac_length d : zlen d = sizeof_dhcp_data -> length (chaddr_mac d) = 6%nat.
Proof.
  intros H. unfold chaddr_mac, sizeof_dhcp_data, dp_chaddr in *.
  pose proof (mem_read_zlen 28 6 d ltac:(lia) ltac:(lia) ltac:(lia)) as E. unfold zlen in E. lia.
Qed.

(** The client's hardware address survives in the reply. *)
Lemma reply_chaddr c n msg lease d x :
  zlen x = 4 -> chaddr_mac (reply_packet c n msg lease (mem_write dp_yiaddr x d)) = chaddr_mac d.
Proof.
  intros Hx. unfold chaddr_mac. rewrite reply_packet_keeps by (unfold dp_secs, dp_ciaddr, dp_chaddr, dp_magic; lia).
  apply mem_read_write_disjoint; unfold dp_yiaddr, dp_chaddr; lia.
Qed.

Lemma reply_yiaddr c n msg lease d x :
  zlen d = sizeof_dhcp_data -> zlen x = 4 ->
  mem_read dp_yiaddr 4 (reply_packet c n msg lease (mem_write dp_yiaddr x d)) = x.
Proof.
  intros Hd Hx. rewrite reply_packet_keeps by (unfold dp_secs, dp_ciaddr, dp_yiaddr, dp_magic; lia).
  rewrite <- Hx. apply mem_read_write; unfold dp_yiaddr, sizeof_dhcp_data in *; lia.
Qed.

Lemma handle_discover_ok c n alloc port s :
  dhserver_ok s -> let s' := st_end (handle_discover c n alloc port) s in
  dhserver_ok s' /\ entries s' = entries s.
Proof.
  intros [Hd Ht]. cbv zeta. unfold handle_discover, st_end.
  destruct (match entry_by_mac _ _ with Some _ => _ | None => _ end) as [i|]; [|by split].
  destruct (entries s !! i) as [e|]; [|by split].
  destruct alloc; ds_simpl; (split; [split; ds_simpl; [|done]|done]);
    rewrite reply_packet_zlen; unfold set_ip; by rewrite mem_write_zlen.
Qed.

Lemma handle_request_ok c n alloc port s :
  dhserver_ok s -> dhserver_ok (st_end (handle_request c n alloc port) s).
Proof.
  intros [Hd Ht]. unfold handle_request, st_end.
  destruct (find_dhcp_option _ _ _) as [o|]; [|by split]. case_if; [by split|].
  set (m := chaddr_mac (dhcp_data s)).
  set (es1 := match entry_by_mac m (entries s) with
              | Some i => free_entry i (entries s) | None => entries s end).
  assert (table_ok es1) as Ht1
    by (unfold es1; destruct (entry_by_mac _ _); [by apply free_entry_ok | done]).
  assert (match entry_by_mac m (entries s) with
          | Some i => s <| entries := free_entry i (entries s) |> | None => s end
          = mk_dhserver (dhcp_data s) es1) as ->
    by (unfold es1; destruct s, (entry_by_mac _ _); done).
  cbn [entries]. destruct (entry_by_ip _ es1) as [i|]; [|by split].
  destruct (es1 !! i) as [e|] eqn:He; [|by split]. case_if; [by split|].
  assert (zlen (mem_read (dp_options + o + 2) 4 (dhcp_data s)) <= 4) as Hx
    by (unfold zlen, mem_read; rewrite length_take; lia).
  destruct alloc; ds_simpl; split; ds_simpl;
    try (by rewrite reply_packet_zlen, mem_write_zlen); [|done].
  assert (chaddr_mac (reply_packet c n DHCP_ACK (de_lease e)
    (mem_write dp_yiaddr (mem_read (dp_options + o + 2) 4 (dhcp_data s)) (dhcp_data s))) = m) as ->.
  { unfold chaddr_mac at 1.
    rewrite reply_packet_keeps by (unfold dp_secs, dp_ciaddr, dp_chaddr, dp_magic; lia).
    apply mem_read_write_disjoint; unfold dp_yiaddr, dp_chaddr; lia. }
  apply bind_entry_ok; [done|by apply chaddr_mac_length|].
  intros Hz. by apply freed_absent.
Qed.

Definition dh_step (s s' : dhserver) : Prop :=
  exists c n alloc payload port, s' = st_end (udp_recv_proc c n alloc payload port) s.

Lemma dh_step_ok s s' : dhserver_ok s -> dh_step s s' -> dhserver_ok s'.
Proof.
  intros [Hd Ht] (c & n & alloc & payload & port & ->). unfold udp_recv_proc, st_end.
  set (s1 := s <| dhcp_data := _ |>).
  assert (dhserver_ok s1) as H1 by (split; [cbn; by rewrite mem_write_zlen | done]).
  destruct (find_dhcp_option _ _ _) as [o|]; [|done].
  case_if; [by apply handle_discover_ok|]. case_if; [by apply handle_request_ok|done].
Qed.

(** C36: no two addresses are ever leased to one client. Starting with an empty
    table, whatever packets arrive (malformed ones included), every hardware
    address other than zero is bound to at most one entry, and the packet buffer
    keeps its size. *)
Theorem dhcp_leases_unique es s :
  Forall (fun e => de_mac e = zero_mac) es -> rtc dh_step (dhserver_start es) s ->
  zlen (dhcp_data s) = sizeof_dhcp_data /\
  forall i j e e', entries s !! i = Some e -> entries s !! j = Some e' ->
    de_mac e = de_mac e' -> de_mac e <> zero_mac -> i = j.
Proof.
  intros Hz Hr. assert (dhserver_ok (dhserver_start es)) as H0.
  { rewrite Forall_lookup in Hz. split; [done|]. split; cbn.
    - intros i e He. by rewrite (Hz i e He).
    - intros i j e e' He He' _ Hne. by rewrite (Hz i e He) in Hne. }
  assert (dhserver_ok s) as [Hd [_ Hu]].
  { induction Hr as [|s0 s1 s2 Hs Hr IH]; [done|]. apply IH. by eapply dh_step_ok. }
  done.
Qed.

(** A DISCOVER. The client is offered the address it already holds or else the
    first vacant one, in a packet that carries that address; the table does not
    change; and without an answer either no buffer was available or the client is
    unknown and every address is taken. *)
Theorem dhcp_discover_spec c n alloc port s o s' :
  dhserver_ok s -> Forall (fun e => is_u32 (de_addr e)) (entries s) ->
  handle_discover c n alloc port s = (o, s') ->
  entries s' = entries s /\
  let m := chaddr_mac (dhcp_data s) in
  match o with
  | Some (dest, p, pkt) =>
      p = port /\ exists i e, entries s !! i = Some e /\ get_ip pkt dp_yiaddr = de_addr e /\
      (de_mac e = m \/
       de_mac e = zero_mac /\ (forall j e', entries s !! j = Some e' -> de_mac e' <> m) /\
       forall j e', (j < i)%nat -> entries s !! j = Some e' -> de_mac e' <> zero_mac)
  | None => alloc = false \/
      forall j e', entries s !! j = Some e' -> de_mac e' <> m /\ de_mac e' <> zero_mac
  end.
Proof.
  intros Hok Ha E. split.
  { destruct (handle_discover_ok c n alloc port s Hok) as [_ H]. unfold st_end in H. by rewrite E in H. }
  destruct Hok as [Hd Ht]. cbv zeta. revert E. unfold handle_discover, entry_by_mac, vacant_address.
  set (m := chaddr_mac (dhcp_data s)).
  destruct (first_entry (fun e => bool_decide (de_mac e = m)) 0 (entries s)) as [i|] eqn:Em.
  - destruct (first_entry_0 _ _ _ Em) as (e & He & Hp & _). apply bool_decide_eq_true in Hp. rewrite He.
    destruct alloc; intros [= <- <-]; [|by left]. split; [done|]. exists i, e. split_and!; try done; [|by left].
    unfold get_ip, set_ip. rewrite reply_yiaddr by done. rewrite le_val_bytes. apply Z.mod_small.
    rewrite Forall_lookup in Ha. apply (Ha _ _ He).
  - assert (forall j e', entries s !! j = Some e' -> de_mac e' <> m) as Hno.
    { intros j e' He'. pose proof (first_entry_none _ _ _ Em j e' He') as H. cbn in H.
      by apply bool_decide_eq_false in H. }
    destruct (first_entry is_vacant 0 (entries s)) as [i|] eqn:Ev.
    + destruct (first_entry_0 _ _ _ Ev) as (e & He & Hp & Hf). apply bool_decide_eq_true in Hp. rewrite He.
      destruct alloc; intros [= <- <-]; [|by left]. split; [done|]. exists i, e. split_and!; try done.
      * unfold get_ip, set_ip. rewrite reply_yiaddr by done. rewrite le_val_bytes. apply Z.mod_small.
        rewrite Forall_lookup in Ha. apply (Ha _ _ He).
      * right. split_and!; try done. intros j e' Hj He'. specialize (Hf j e' Hj He').
        by apply bool_decide_eq_false in Hf.
    + intros [= <- <-]. right. intros j e' He'. split; [by eapply Hno|].
      pose proof (first_entry_none _ _ _ Ev j e' He') as H. by apply bool_decide_eq_false in H.
Qed.

(** The address a REQUEST asks for: offset of its four bytes, if the option is
    there and has four bytes. *)
Definition requested_ip (d : list Z) : option Z :=
  let opts := mem_read dp_options sizeof_options d in
  match find_dhcp_option opts sizeof_options DHCP_IPADDRESS with
  | Some o => if mem_get opts (o + 1) =? 4 then Some (dp_options + o + 2) else None
  | None => None
  end.

(** The table after the client gave up its entry. *)
Definition released (s : dhserver) : list dhcp_entry :=
  match entry_by_mac (chaddr_mac (dhcp_data s)) (entries s) with
  | Some i => free_entry i (entries s)
  | None => entries s
  end.

Lemma handle_request_run c n alloc port s :
  handle_request c n alloc port s =
  match requested_ip (dhcp_data s) with
  | None => (None, s)
  | Some ip_off =>
      let d := dhcp_data s in
      match entry_by_ip (get_ip d ip_off) (released s) with
      | None => (None, mk_dhserver d (released s))
      | Some i =>
          match released s !! i with
          | None => (None, mk_dhserver d (released s))
          | Some e =>
              if negb (is_vacant e) then (None, mk_dhserver d (released s))
              else
                let d' := reply_packet c n DHCP_ACK (de_lease e)
                            (mem_write dp_yiaddr (mem_read ip_off 4 d) d) in
                if alloc
                then (Some (get_dhcp_destination n d' (de_addr e) false, port, d'),
                      mk_dhserver d' (alter (fun e => e <| de_mac := chaddr_mac d' |>) i (released s)))
                else (None, mk_dhserver d' (released s))
          end
      end
  end.
Proof.
  unfold handle_request, requested_ip, released.
  destruct (find_dhcp_option _ _ _) as [o|]; [|done].
  destruct (mem_get _ _ =? 4); cbn [negb]; [|done].
  destruct s as [d es]. ds_simpl.
  destruct (entry_by_mac (chaddr_mac d) es); ds_simpl; repeat (done || case_match).
Qed.

(** The four bytes lie in the packet. *)
Lemma requested_ip_bounds d ip_off :
  Forall is_u8 d -> requested_ip d = Some ip_off ->
  0 <= ip_off /\ ip_off + 4 <= sizeof_dhcp_data.
Proof.
  intros Hb. unfold requested_ip. destruct (find_dhcp_option _ _ _) as [o|] eqn:Eo; [|done].
  destruct (Z.eqb_spec (mem_get (mem_read dp_options sizeof_options d) (o + 1)) 4) as [E4|]; [|done].
  intros [= <-]. apply find_dhcp_option_returns, find_option_bounds in Eo as (H0 & H1 & _); [|lia|..].
  - unfold dp_options, sizeof_options, sizeof_dhcp_data in *. lia.
  - unfold mem_read. by apply Forall_take, Forall_drop.
  - unfold mem_read. by apply Forall_take, Forall_drop.
Qed.

(** A REQUEST that is acknowledged. The address asked for belongs to the
    table; it is then bound to the client and to nobody else (nor is any other
    address bound to that client); every other entry is as before, except that an
    address the client held before is vacant; and the ACK carries the address. *)
Theorem dhcp_request_ack c n alloc port s dest p pkt s' :
  dhserver_ok s -> Forall is_u8 (dhcp_data s) ->
  handle_request c n alloc port s = (Some (dest, p, pkt), s') ->
  let m := chaddr_mac (dhcp_data s) in
  exists ip_off i e, requested_ip (dhcp_data s) = Some ip_off /\
    entries s' !! i = Some e /\ de_addr e = get_ip (dhcp_data s) ip_off /\ de_mac e = m /\
    get_ip pkt dp_yiaddr = de_addr e /\ p = port /\
    (m <> zero_mac -> forall j e', entries s' !! j = Some e' -> de_mac e' = m -> j = i) /\
    (forall j e', j <> i -> entries s' !! j = Some e' ->
       entries s !! j = Some e' \/
       de_mac e' = zero_mac /\ exists e0, entries s !! j = Some e0 /\ de_mac e0 = m).
Proof.
  intros Hok Hb E. pose proof (handle_request_ok c n alloc port s Hok) as Hok'.
  unfold st_end in Hok'. rewrite E in Hok'. cbn in Hok'. cbv zeta. revert E.
  rewrite handle_request_run. destruct (requested_ip (dhcp_data s)) as [ip_off|] eqn:Hip; [|done].
  cbv zeta. destruct (entry_by_ip (get_ip (dhcp_data s) ip_off) (released s)) as [i|] eqn:Ei; [|done].
  destruct (released s !! i) as [e|] eqn:He; [|done].
  destruct (is_vacant e) eqn:Hv; cbn [negb]; [|done].
  destruct alloc; [|done]. intros [= <- <- <- <-].
  destruct Hok as [Hd Ht]. unfold sizeof_dhcp_data in Hd.
  assert (zlen (mem_read ip_off 4 (dhcp_data s)) = 4) as Hx.
  { destruct (requested_ip_bounds _ _ Hb Hip). apply mem_read_zlen; unfold sizeof_dhcp_data in *; lia. }
  rewrite reply_chaddr in * by done.
  exists ip_off, i, (e <| de_mac := chaddr_mac (dhcp_data s) |>).
  apply first_entry_0 in Ei as (e1 & He1 & Hp1 & _). rewrite He in He1. injection He1 as <-.
  apply Z.eqb_eq in Hp1. ds_simpl. split_and!; try done.
  - by rewrite list_lookup_alter_eq, He.
  - cbn [de_addr setf eta eta_entry]. unfold get_ip at 1. rewrite reply_yiaddr by done. done.
  - intros Hz j e' He' Hm. destruct Hok' as [_ [_ Hu]]. ds_simpl.
    apply (Hu j i e' (e <| de_mac := chaddr_mac (dhcp_data s) |>)); try done; [|congruence].
    ds_simpl. by rewrite list_lookup_alter_eq, He.
  - intros j e' Hj. rewrite list_lookup_alter_ne by done. unfold released.
    destruct (entry_by_mac _ _) as [k|] eqn:Ek; [|by left].
    apply first_entry_0 in Ek as (e0 & He0 & Hm0 & _). apply bool_decide_eq_true in Hm0.
    destruct (decide (k = j)) as [->|Hkj].
    + unfold free_entry. rewrite list_lookup_alter_eq, He0. intros [= <-]. right. split; [done|]. eauto.
    + unfold free_entry. rewrite list_lookup_alter_ne by done. by left.
Qed.

(** A REQUEST that is not acknowledged still costs the client its lease: when
    the address asked for is not in the table or is another client's, no reply is
    sent (there is no NAK), and the entry the client held is vacant afterwards. *)
Theorem dhcp_refused_request_drops_lease c n alloc port s ip_off i e :
  dhserver_ok s -> requested_ip (dhcp_data s) = Some ip_off ->
  entries s !! i = Some e -> de_mac e = chaddr_mac (dhcp_data s) -> de_mac e <> zero_mac ->
  (forall j e', entries s !! j = Some e' -> de_addr e' = get_ip (dhcp_data s) ip_off ->
     de_mac e' <> zero_mac /\ de_mac e' <> chaddr_mac (dhcp_data s)) ->
  let '(o, s') := handle_request c n alloc port s in
  o = None /\ exists e', entries s' !! i = Some e' /\ de_mac e' = zero_mac.
Proof.
  intros [Hd [Hm6 Hu]] Hip Hi Hmac Hz Hother. rewrite handle_request_run, Hip. cbv zeta.
  assert (entry_by_mac (chaddr_mac (dhcp_data s)) (entries s) = Some i) as Ek.
  { unfold entry_by_mac. destruct (first_entry _ 0 (entries s)) as [k|] eqn:Ek.
    - apply first_entry_0 in Ek as (e0 & He0 & Hm0 & _). apply bool_decide_eq_true in Hm0.
      f_equal. apply (Hu k i e0 e); congruence.
    - pose proof (first_entry_none _ _ _ Ek i e Hi) as H. cbn in H.
      by apply bool_decide_eq_false in H. }
  assert (released s !! i = Some (e <| de_mac := zero_mac |>)) as Hrel.
  { unfold released. rewrite Ek. unfold free_entry. by rewrite list_lookup_alter_eq, Hi. }
  assert (forall k, entry_by_ip (get_ip (dhcp_data s) ip_off) (released s) = Some k ->
    exists e', released s !! k = Some e' /\ is_vacant e' = false) as Hk.
  { intros k Hk. apply first_entry_0 in Hk as (e' & He' & Hp & _). apply Z.eqb_eq in Hp.
    exists e'. split; [done|]. apply bool_decide_eq_false_2.
    revert He'. unfold released. rewrite Ek. unfold free_entry. destruct (decide (i = k)) as [->|Hne].
    - rewrite list_lookup_alter_eq, Hi. intros [= <-]. cbn in Hp.
      destruct (Hother k e Hi Hp) as [_ Hx]. done.
    - rewrite list_lookup_alter_ne by done. intros He'. by apply (Hother k e' He' Hp). }
  destruct (entry_by_ip _ (released s)) as [k|].
  - destruct (Hk k eq_refl) as (e' & -> & ->). cbn [negb]. split; [done|]. eauto.
  - split; [done|]. eauto.
Qed.

(** Where replies go. To the relay agent if the request came through one, else
    to the address the client already has, else to the broadcast address of the
    interface's subnet; the client's broadcast flag plays no part, since it is
    cleared before the destination is chosen. *)
Theorem dhcp_destination c n msg lease d yiaddr :
  zlen d = sizeof_dhcp_data ->
  get_dhcp_destination n (reply_packet c n msg lease d) yiaddr false =
  if negb (get_ip d dp_giaddr =? 0) then get_ip d dp_giaddr
  else if negb (get_ip d dp_ciaddr =? 0) then get_ip d dp_ciaddr
  else Z.lor (netif_ip n) (bnot32 (netif_mask n)).
Proof.
  intros Hd. unfold get_dhcp_destination.
  assert (get_ip (reply_packet c n msg lease d) dp_giaddr = get_ip d dp_giaddr) as ->.
  { unfold get_ip. rewrite reply_packet_keeps; [done|..];
      unfold dp_secs, dp_ciaddr, dp_giaddr, dp_magic; lia. }
  assert (get_ip (reply_packet c n msg lease d) dp_ciaddr = get_ip d dp_ciaddr) as ->.
  { unfold get_ip. rewrite reply_packet_keeps; [done|..];
      unfold dp_secs, dp_ciaddr, dp_giaddr, dp_magic; lia. }
  repeat case_if; done.
Qed.

(** ** Witnesses *)

Definition demo_ip (d : Z) : Z := le_val [192; 168; 7; d].
Definition demo_table : list dhcp_entry :=
  [mk_dhcp_entry zero_mac (demo_ip 2) 86400; mk_dhcp_entry zero_mac (demo_ip 3) 86400].
Definition demo_dhcp_config : dhcp_config := mk_dhcp_config 0 (demo_ip 1) (Some [117; 115; 98]) 67.
Definition demo_netif : netif := mk_netif (demo_ip 1) (le_val [255; 255; 255; 0]).
Definition demo_mac : list Z := [2; 2; 132; 106; 150; 1].

(** A packet from [demo_mac] with the given options. *)
Definition demo_packet (opts : list Z) : list Z :=
  mem_write dp_options opts
    (mem_write dp_chaddr demo_mac (replicate (Z.to_nat sizeof_dhcp_data) 0)).
Definition demo_discover : list Z := demo_packet [53; 1; 1; 255].
Definition demo_request (d : Z) : list Z := demo_packet [53; 1; 3; 50; 4; 192; 168; 7; d; 255].

Definition demo_step (p : list Z) (s : dhserver) : dhserver :=
  st_end (udp_recv_proc demo_dhcp_config demo_netif true p 68) s.

Lemma demo_dh_step p s : dh_step s (demo_step p s).
Proof. by exists demo_dhcp_config, demo_netif, true, p, 68. Qed.

(** The client gets .3, and asks for .2 later. *)
Definition demo_bound : dhserver :=
  demo_step (demo_request 2) (demo_step (demo_request 3) (demo_step demo_discover (dhserver_start demo_table))).

Lemma dhcp_leases_unique_witness :
  exists e, entries demo_bound !! 0%nat = Some e /\ de_mac e = demo_mac /\
    forall j e', entries demo_bound !! j = Some e' -> de_mac e' = demo_mac -> j = 0%nat.
Proof.
  destruct (dhcp_leases_unique demo_table demo_bound) as [_ Hu].
  - repeat constructor.
  - do 3 (eapply rtc_l; [apply demo_dh_step|]). apply rtc_refl.
  - exists (mk_dhcp_entry demo_mac (demo_ip 2) 86400). split_and!; [vm_compute; reflexivity|reflexivity|].
    intros j e' He' Hm. symmetry. eapply (Hu 0%nat j (mk_dhcp_entry demo_mac (demo_ip 2) 86400) e'); [vm_compute; reflexivity|exact He'| |vm_compute; discriminate].
    symmetry. exact Hm.
Defined.

Definition demo_got (p : list Z) : dhserver := mk_dhserver p demo_table.

Lemma demo_got_ok p : zlen p = sizeof_dhcp_data -> dhserver_ok (demo_got p).
Proof.
  intros Hp. split; [done|]. split; cbn.
  - intros [|[|]] e; cbn; intros [= <-]; done.
  - intros [|[|i]] [|[|j]] e e'; cbn; intros [= <-] [= <-]; done.
Qed.

Lemma dhcp_discover_spec_witness :
  exists dest pkt s', handle_discover demo_dhcp_config demo_netif true 68 (demo_got demo_discover) =
    (Some (dest, 68, pkt), s') /\ get_ip pkt dp_yiaddr = demo_ip 2.
Proof.
  destruct (handle_discover demo_dhcp_config demo_netif true 68 (demo_got demo_discover))
    as [o s'] eqn:E.
  destruct (dhcp_discover_spec demo_dhcp_config demo_netif true 68 (demo_got demo_discover) o s')
    as [_ H].
  - apply demo_got_ok. vm_compute. reflexivity.
  - repeat constructor; vm_compute; congruence.
  - exact E.
  - destruct o as [[[dest p] pkt]|].
    + destruct H as (-> & i & e & He & Hip & Hm). exists dest, pkt, s'. split; [reflexivity|].
      rewrite Hip. destruct Hm as [Hm|(_ & _ & Hf)].
      * destruct i as [|[|i]]; cbn in He; [injection He as <-; vm_compute in Hm; discriminate Hm..|
          discriminate He].
      * destruct i as [|[|i]]; cbn in He; [injection He as <-; reflexivity| |discriminate He].
        exfalso. apply (Hf 0%nat (mk_dhcp_entry zero_mac (demo_ip 2) 86400)); [lia|reflexivity|reflexivity].
    + exfalso. destruct H as [H|H]; [discriminate H|].
      apply (H 0%nat (mk_dhcp_entry zero_mac (demo_ip 2) 86400)); reflexivity.
Defined.

Lemma demo_bytes opts : Forall is_u8 opts -> Forall is_u8 (demo_packet opts).
Proof.
  intros Ho. unfold demo_packet. assert (forall off (data buf : list Z), Forall is_u8 data ->
    Forall is_u8 buf -> Forall is_u8 (mem_write off data buf)) as Hw.
  { intros off data buf Hd Hb. unfold mem_write. generalize (Z.to_nat off). induction Hd; intros k; cbn; [done|].
    apply Forall_insert; [|done]. apply IHHd. }
  apply Hw; [done|]. apply Hw; [repeat constructor; unfold is_u8; lia|]. by apply Forall_replicate.
Qed.

Lemma dhcp_request_ack_witness :
  exists dest pkt s', handle_request demo_dhcp_config demo_netif true 68 (demo_got (demo_request 3)) =
    (Some (dest, 68, pkt), s') /\ exists i e, entries s' !! i = Some e /\ de_mac e = demo_mac.
Proof.
  destruct (handle_request demo_dhcp_config demo_netif true 68 (demo_got (demo_request 3)))
    as [[[[dest p] pkt]|] s'] eqn:E; [|vm_compute in E; discriminate E].
  destruct (dhcp_request_ack demo_dhcp_config demo_netif true 68 (demo_got (demo_request 3)) dest p pkt s')
    as (ip_off & i & e & _ & He & _ & Hm & _ & -> & _).
  - apply demo_got_ok. vm_compute. reflexivity.
  - apply demo_bytes. repeat constructor; unfold is_u8; lia.
  - exact E.
  - exists dest, pkt, s'. split; [reflexivity|]. exists i, e. split; [exact He|].
    rewrite Hm. vm_compute. reflexivity.
Defined.

(** [demo_mac] holds .2 and asks for .3, which another client has. *)
Definition demo_taken : dhserver := mk_dhserver (demo_request 3)
  [mk_dhcp_entry demo_mac (demo_ip 2) 86400; mk_dhcp_entry [9; 9; 9; 9; 9; 9] (demo_ip 3) 86400].

Lemma dhcp_refused_request_drops_lease_witness :
  let '(o, s') := handle_request demo_dhcp_config demo_netif true 68 demo_taken in
  o = None /\ exists e', entries s' !! 0%nat = Some e' /\ de_mac e' = zero_mac.
Proof.
  apply (dhcp_refused_request_drops_lease demo_dhcp_config demo_netif true 68 demo_taken 245 0%nat
    (mk_dhcp_entry demo_mac (demo_ip 2) 86400)).
  - split; [vm_compute; reflexivity|]. split; cbn.
    + intros [|[|]] e; cbn; intros [= <-]; reflexivity.
    + intros [|[|i]] [|[|j]] e e'; cbn; intros [= <-] [= <-]; vm_compute; congruence.
  - vm_compute. reflexivity.
  - reflexivity.
  - vm_compute. reflexivity.
  - vm_compute. congruence.
  - intros [|[|j]] e'; cbn; intros [= <-].
    + vm_compute. congruence.
    + intros _. split; vm_compute; congruence.
Defined.

Lemma dhcp_reply_readable_witness :
  let area := mem_read dp_options sizeof_options
    (reply_packet demo_dhcp_config demo_netif DHCP_ACK 86400 demo_discover) in
  exists o, find_dhcp_option area sizeof_options DHCP_SUBNETMASK = Some o /\
    mem_read (o + 1) 5 area = [4; 255; 255; 255; 0].
Proof.
  destruct (dhcp_reply_readable demo_dhcp_config demo_netif DHCP_ACK 86400 demo_discover DHCP_SUBNETMASK
    [255; 255; 255; 0]) as [H _].
  - vm_compute. congruence.
  - vm_compute. reflexivity.
  - vm_compute. reflexivity.
  - exact H.
Defined.

Lemma dhcp_destination_witness :
  get_dhcp_destination demo_netif
    (reply_packet demo_dhcp_config demo_netif DHCP_OFFER 86400 demo_discover) (demo_ip 2) false
  = demo_ip 255.
Proof.
  rewrite (dhcp_destination demo_dhcp_config demo_netif DHCP_OFFER 86400 demo_discover (demo_ip 2)).
  - vm_compute. reflexivity.
  - vm_compute. reflexivity.
Defined.
