(* ===== verification/Dns.v ===== *)
(** * Dns: the DNS server (src/lib/networking/dnserver.c)

    The server that resolves the device's own name for the USB host. It parses one
    question, asks [query_proc] for the address, and answers with one A record.
    The UDP layer is seen as in [Dhcp]. *)

From S2P Require Import Prelude CText.

(** ** Data *)

Definition DNS_MAX_HOST_NAME_LEN : Z := 128.
Definition sizeof_dns_header : Z := 12.
Definition sizeof_dns_answer : Z := 16.

Record dns_query := mk_dns_query { q_name : list Z; q_type : Z; q_class : Z }.
#[export] Instance eta_query : Eta dns_query := fun q =>
  mk_dns_query (q_name q) (q_type q) (q_class q).

Definition get_uint16 (buf : list Z) (off : Z) : Z := le_val (mem_read off 2 buf).

(** [htons], [htonl] as bytes in memory; [ntohs] of a 16-bit field. *)
Definition be_bytes (n : nat) (v : Z) : list Z := rev (le_bytes n v).
Definition be_val (l : list Z) : Z := le_val (rev l).

(** ** Operations *)

(** The loop over the labels: the return code on an error, otherwise the offset of
    the rest, its size and the length of the name. A turn consumes at least a
    byte of the [size] left, so that one turn more than [size] is enough; [None] is
    running out of turns. *)
Fixpoint parse_labels (fuel : nat) (data : list Z) (ptr size len labels : Z) (name : list Z)
    : option ((Z + Z * Z * Z) * list Z) :=
  match fuel with
  | O => None
  | S fuel =>
      if size <=? 0 then Some (inl (-1), name)
      else
        let lable_len := mem_get data ptr in
        let ptr := ptr + 1 in
        let size := size - 1 in
        if lable_len =? 0 then Some (inr (ptr, size, len), name)
        else if (0 <? labels) && (len =? DNS_MAX_HOST_NAME_LEN) then Some (inl (-2), name)
        else
          let '(name, len) := if 0 <? labels then (mem_set len 46 name, len + 1) else (name, len) in
          if size <? lable_len then Some (inl (-1), name)
          else if DNS_MAX_HOST_NAME_LEN <=? len + lable_len then Some (inl (-2), name)
          else
            parse_labels fuel data (ptr + lable_len) (size - lable_len) (len + lable_len) (labels + 1)
              (mem_write len (mem_read ptr lable_len data) name)
  end.

(** The return value: the bytes used, or a negative error. *)
Definition parse_next_query (data : list Z) (size : Z) (query : dns_query) : option (Z * dns_query) :=
  match parse_labels (S (Z.to_nat size)) data 0 size 0 0 (q_name query) with
  | None => None
  | Some (r, name) =>
      let query := query <| q_name := name |> in
      match r with
      | inl err => Some (err, query)
      | inr (ptr, size, len) =>
          if size <? 4 then Some (-1, query)
          else
            Some (ptr + 4, query <| q_name := mem_set len 0 name |> <| q_type := get_uint16 data ptr |>
                                 <| q_class := get_uint16 data (ptr + 2) |>)
      end
  end.

(** The 16 bytes of the answer record. *)
Definition dns_answer_bytes (addr : Z) : list Z :=
  be_bytes 2 0xC00C ++ be_bytes 2 1 ++ be_bytes 2 1 ++ be_bytes 4 32 ++ be_bytes 2 4 ++
  le_bytes 4 addr.

(** The handler: the packet handed to [udp_sendto], if any, and the static [query];
    [None] if the parser does not return. *)
Definition dns_recv_proc (query_proc : list Z -> option Z) (alloc : bool) (payload : list Z)
    (query : dns_query) : option (option (list Z) * dns_query) :=
  if zlen payload <=? sizeof_dns_header then Some (None, query)
  else if Z.testbit (mem_get payload 2) 7 then Some (None, query)
  else if negb (be_val (mem_read 4 2 payload) =? 1) then Some (None, query)
  else
    match parse_next_query (drop (Z.to_nat sizeof_dns_header) payload)
            (zlen payload - sizeof_dns_header) query with
    | None => None
    | Some (len, query) =>
        if len <? 0 then Some (None, query)
        else
          match query_proc (c_str (q_name query)) with
          | None => Some (None, query)
          | Some host_addr =>
              let len := len + sizeof_dns_header in
              if negb alloc then Some (None, query)
              else
                let out := mem_write 0 (mem_read 0 len payload)
                             (replicate (Z.to_nat (len + sizeof_dns_answer)) 0) in
                let out := mem_set 2 (Z.lor (mem_get out 2) 128) out in
                let out := mem_write 6 (be_bytes 2 1) out in
                let out := mem_write len (dns_answer_bytes host_addr) out in
                Some (Some out, query)
          end
    end.

(** main.c's [query_proc]: the one name the device resolves, "tiny.usb", and its own
    address 192.168.7.1, which [INIT_IP4] lays out in network order. *)
Definition INIT_IP4 (a b c d : Z) : Z := le_val [a; b; c; d].
Definition ipaddr : Z := INIT_IP4 192 168 7 1.
Definition dns_query_proc (name : list Z) : option Z :=
  if bool_decide (name = bytes_of_string "tiny.usb") then Some ipaddr else None.

(** ** The question as it is encoded *)

(** A name: its labels with their lengths, and the zero at the end. *)
Definition encode_label (l : list Z) : list Z := zlen l :: l.
Definition encode_name (ls : list (list Z)) : list Z := mjoin (encode_label <$> ls) ++ [0].

(** The labels as text, after [first] labels: a dot before each but the first. *)
Fixpoint dotted (first : bool) (ls : list (list Z)) : list Z :=
  match ls with
  | [] => []
  | l :: ls => (if first then [] else [46]) ++ l ++ dotted false ls
  end.

Definition label_ok (l : list Z) : Prop := 0 < zlen l < 256.

(** What one label of the wire format does to the loop. *)
Lemma parse_labels_step fuel (pre l post : list Z) size len labels name :
  label_ok l -> 0 <= labels -> 0 <= len -> len <= 127 ->
  let len' := if 0 <? labels then len + 1 else len in
  len' + zlen l < 128 -> zlen l + 1 <= size ->
  parse_labels (S fuel) (pre ++ encode_label l ++ post) (zlen pre) size len labels name =
  parse_labels fuel (pre ++ encode_label l ++ post) (zlen pre + 1 + zlen l) (size - 1 - zlen l)
    (len' + zlen l) (labels + 1)
    (mem_write len' l (if 0 <? labels then mem_set len 46 name else name)).
Proof.
  intros [Hl0 Hl1] Hlab Hlen0 Hlen len' Hlen' Hsize. pose proof (zlen_nonneg pre).
  set (data := pre ++ encode_label l ++ post).
  assert (mem_get data (zlen pre) = zlen l) as E0.
  { unfold data. rewrite mem_get_app by lia. destruct (Z.ltb_spec (zlen pre) (zlen pre)); [lia|].
    rewrite Z.sub_diag. done. }
  assert (mem_read (zlen pre + 1) (zlen l) data = l) as E1.
  { unfold data. change (encode_label l) with ([zlen l] ++ l). rewrite <- app_assoc, app_assoc.
    apply mem_read_mid; [|done]. rewrite zlen_app. done. }
  cbn [parse_labels]. rewrite E0. destruct (Z.leb_spec size 0); [lia|].
  destruct (Z.eqb_spec (zlen l) 0); [lia|].
  unfold DNS_MAX_HOST_NAME_LEN. destruct (Z.eqb_spec len 128); [lia|]. rewrite andb_false_r.
  unfold len' in *. destruct (Z.ltb_spec 0 labels);
    (destruct (Z.ltb_spec (size - 1) (zlen l)); [lia|]);
    (match goal with |- context [128 <=? ?x] => destruct (Z.leb_spec 128 x); [lia|] end);
    rewrite E1; done.
Qed.

(** Appending to what is already in the name buffer. *)
Lemma write_next len l name :
  0 <= len -> len + zlen l <= zlen name ->
  mem_read 0 (len + zlen l) (mem_write len l name) = mem_read 0 len name ++ l.
Proof.
  intros Hl Hn. pose proof (zlen_nonneg l). rewrite mem_read_split by lia. f_equal.
  - apply mem_read_write_disjoint; lia.
  - apply mem_read_write; lia.
Qed.

Lemma parse_labels_encoded ls fuel (pre post : list Z) size len labels name :
  Forall label_ok ls -> (length ls < fuel)%nat -> 0 <= labels -> 0 <= len -> zlen name = 128 ->
  (labels = 0 -> len = 0) -> (0 < labels -> len <= 127) ->
  len + zlen (dotted (labels =? 0) ls) <= 127 ->
  zlen (encode_name ls) <= size ->
  exists name', parse_labels fuel (pre ++ encode_name ls ++ post) (zlen pre) size len labels name =
    Some (inr (zlen pre + zlen (encode_name ls), size - zlen (encode_name ls),
          len + zlen (dotted (labels =? 0) ls)), name') /\ zlen name' = 128 /\
    mem_read 0 (len + zlen (dotted (labels =? 0) ls)) name' =
    mem_read 0 len name ++ dotted (labels =? 0) ls.
Proof.
  intros Hls. revert fuel pre size len labels name.
  induction Hls as [|l ls Hl Hls IH]; intros fuel pre size len labels name Hf Hlab Hlen0 Hn H0 H1 Hlen Hs;
    (destruct fuel as [|fuel]; [cbn in Hf; lia|]).
  - pose proof (zlen_nonneg pre).
    exists name. change (encode_name []) with [0] in *. change (zlen [0]) with 1 in *.
    cbn [dotted parse_labels]. destruct (Z.leb_spec size 0); [lia|].
    rewrite mem_get_app by lia. destruct (Z.ltb_spec (zlen pre) (zlen pre)); [lia|].
    rewrite Z.sub_diag. change (mem_get ([0] ++ post) 0) with 0. rewrite Z.eqb_refl.
    change (zlen (@nil Z)) with 0. rewrite !Z.add_0_r, app_nil_r. split_and!; done.
  - assert (encode_name (l :: ls) = encode_label l ++ encode_name ls) as El
      by (unfold encode_name; cbn [fmap list_fmap mjoin list_join]; by rewrite <- app_assoc).
    assert (zlen (encode_label l) = 1 + zlen l) as Ell by (unfold encode_label; apply zlen_cons).
    rewrite El, zlen_app, Ell in Hs |- *. rewrite <- app_assoc. cbn [dotted] in Hlen |- *.
    rewrite !zlen_app in Hlen |- *.
    pose proof (zlen_nonneg (dotted false ls)) as Hd0. pose proof (zlen_nonneg (encode_name ls)) as He0.
    destruct (Hl) as [Hl0 Hl1].
    set (len' := if 0 <? labels then len + 1 else len).
    assert (len' = len + zlen (if labels =? 0 then [] else [46])) as Elen.
    { unfold len'. destruct (Z.ltb_spec 0 labels), (Z.eqb_spec labels 0); unfold zlen; cbn [length]; lia. }
    assert (len <= len' <= len + 1) as Hle by (unfold len'; case_if; lia).
    rewrite parse_labels_step by first [done | lia | fold len'; lia | destruct (Z.eqb_spec labels 0); lia].
    fold len'.
    set (name1 := mem_write len' l (if 0 <? labels then mem_set len 46 name else name)).
    assert (zlen name1 = 128) as Hn1.
    { unfold name1. rewrite mem_write_zlen. case_if; [by rewrite mem_set_zlen|done]. }
    assert (mem_read 0 (len' + zlen l) name1 =
            mem_read 0 len name ++ (if labels =? 0 then [] else [46]) ++ l) as Hr1.
    { unfold name1. rewrite write_next; [|lia|case_if; rewrite ?mem_set_zlen; lia].
      unfold len'. destruct (Z.ltb_spec 0 labels), (Z.eqb_spec labels 0); try lia.
      - change (mem_set len 46 name) with (mem_write len [46] name).
        change (len + 1) with (len + zlen [46]). rewrite write_next by (unfold zlen in *; cbn; lia).
        by rewrite <- app_assoc.
      - done. }
    destruct (IH fuel (pre ++ encode_label l) (size - 1 - zlen l) (len' + zlen l) (labels + 1) name1)
      as (name' & E & Hn' & Hr'); try lia; try done; [cbn in Hf; lia|..].
    { destruct (Z.eqb_spec (labels + 1) 0); lia. }
    exists name'. replace (labels + 1 =? 0) with false in E, Hr' by (symmetry; apply Z.eqb_neq; lia).
    rewrite zlen_app, Ell in E. rewrite <- app_assoc in E.
    replace (zlen pre + 1 + zlen l) with (zlen pre + (1 + zlen l)) by lia. rewrite E.
    split_and!; [|done|].
    + do 3 f_equal. f_equal; [f_equal; lia|]. lia.
    + replace (len + (zlen (if labels =? 0 then [] else [46]) + (zlen l + zlen (dotted false ls))))
        with (len' + zlen l + zlen (dotted false ls)) by lia.
      rewrite Hr', Hr1. by rewrite <- !app_assoc.
Qed.

Lemma c_str_app l t : Forall (fun c => c <> 0) l -> c_str (l ++ [0] ++ t) = l.
Proof.
  induction 1 as [|c l Hc _ IH]; [done|].
  change ((c :: l) ++ [0] ++ t) with (c :: (l ++ [0] ++ t)). cbn [c_str].
  destruct (Z.eqb_spec c 0); [done|]. by rewrite IH.
Qed.

(** The question parser reads what a client writes. A question with a name of
    labels of 1 to 255 bytes, at most 127 characters when dotted, followed by type
    and class, is parsed whole: the return value is its length, the name stored is
    the dotted name (NUL-terminated, inside the 128-byte field), and type and class
    are those of the question. *)
Lemma parse_question ls type class rest query :
  Forall label_ok ls -> Forall (fun l => Forall (fun c => c <> 0) l) ls ->
  zlen (dotted true ls) <= 127 -> zlen type = 2 -> zlen class = 2 -> zlen (q_name query) = 128 ->
  let question := encode_name ls ++ type ++ class in
  exists r q, parse_next_query (question ++ rest) (zlen (question ++ rest)) query = Some (r, q) /\
  r = zlen question /\ c_str (q_name q) = dotted true ls /\ zlen (q_name q) = 128 /\
  q_type q = le_val type /\ q_class q = le_val class.
Proof.
  intros Hls Hnz Hlen Ht Hc Hq. cbv zeta. unfold parse_next_query.
  set (size := zlen ((encode_name ls ++ type ++ class) ++ rest)).
  pose proof (zlen_nonneg rest). pose proof (zlen_nonneg (encode_name ls)).
  assert (size = zlen (encode_name ls) + 4 + zlen rest) as Hs
    by (unfold size; rewrite !zlen_app; lia).
  assert ((length ls < S (Z.to_nat size))%nat) as Hfuel.
  { assert (Z.of_nat (length ls) <= zlen (encode_name ls)); [|lia].
    unfold encode_name. rewrite zlen_app. clear. pose proof (zlen_nonneg [0]).
    assert (Z.of_nat (length ls) <= zlen (mjoin (encode_label <$> ls))); [|lia].
    induction ls as [|l ls IH]; [done|].
    change (mjoin (encode_label <$> l :: ls)) with (encode_label l ++ mjoin (encode_label <$> ls)).
    rewrite zlen_app. unfold encode_label at 1. rewrite zlen_cons. pose proof (zlen_nonneg l).
    cbn [length]. lia. }
  destruct (parse_labels_encoded ls (S (Z.to_nat size)) [] (type ++ class ++ rest) size 0 0 (q_name query))
    as (name' & E & Hn' & Hr'); try done; try lia.
  cbn [app] in E. change (zlen (@nil Z)) with 0 in E.
  assert (encode_name ls ++ type ++ class ++ rest = (encode_name ls ++ type ++ class) ++ rest) as Ea
    by (by rewrite <- !app_assoc).
  rewrite Ea in E. rewrite E. rewrite !Z.add_0_l.
  destruct (Z.ltb_spec (size - zlen (encode_name ls)) 4); [lia|].
  change (0 =? 0) with true in *. rewrite Z.add_0_l in Hr'. change (mem_read 0 0 (q_name query)) with (@nil Z) in Hr'.
  cbn [app] in Hr'. set (D := dotted true ls) in *. pose proof (zlen_nonneg D).
  eexists _, _. split; [reflexivity|].
  cbn [q_name q_type q_class setf eta eta_query]. split_and!.
  - rewrite !zlen_app. lia.
  - assert (mem_set (zlen D) 0 name' = D ++ [0] ++ drop (Z.to_nat (zlen D + 1)) name') as ->.
    { change (mem_set (zlen D) 0 name') with (mem_write (zlen D) [0] name').
      assert (mem_read 0 (zlen D + zlen [0]) (mem_write (zlen D) [0] name') = D ++ [0]) as Hw
        by (rewrite write_next, Hr'; [done|lia|unfold zlen in *; cbn; lia]).
      rewrite <- (take_drop (Z.to_nat (zlen D + 1)) (mem_write (zlen D) [0] name')).
      rewrite app_assoc. f_equal; [exact Hw|]. apply mem_get_ext.
      - rewrite !zlen_drop by (rewrite ?mem_write_zlen; lia). by rewrite mem_write_zlen.
      - rewrite zlen_drop by (rewrite mem_write_zlen; lia). rewrite mem_write_zlen. intros i Hi.
        rewrite !mem_get_drop, mem_get_write by lia. change (zlen [0]) with 1.
        destruct (Z.ltb_spec (zlen D + 1 + i) (zlen D + 1)); [lia|]. by rewrite andb_false_r. }
    assert (Forall (fun c => c <> 0) D) as HD.
    { unfold D. generalize true. clear - Hnz. induction Hnz as [|l ls Hl _ IH]; intros f; cbn; [done|].
      apply Forall_app. split; [destruct f; [done|by repeat constructor]|]. apply Forall_app. auto. }
    by apply c_str_app.
  - by rewrite mem_set_zlen.
  - unfold get_uint16. rewrite <- Ea. rewrite mem_read_mid; done.
  - unfold get_uint16. rewrite <- Ea. rewrite app_assoc. rewrite mem_read_mid; [done| |done].
    rewrite zlen_app. lia.
Qed.

(** ** Bounds *)

(** The loop returns within its turns, and neither reads past the packet nor writes past
    the name. *)
Lemma parse_labels_bounds fuel (data junk name ext : list Z) ptr size len labels :
  Forall is_u8 data -> zlen name = 128 -> 0 <= ptr -> ptr + size <= zlen data ->
  0 <= len < 128 -> (Z.to_nat size < fuel)%nat ->
  exists r name', parse_labels fuel data ptr size len labels name = Some (r, name') /\
  parse_labels fuel (data ++ junk) ptr size len labels (name ++ ext) = Some (r, name' ++ ext) /\
  zlen name' = 128 /\
  match r with
  | inl e => e = -1 \/ e = -2
  | inr (p, s, l) => ptr < p /\ p + s = ptr + size /\ 0 <= s /\ len <= l < 128
  end.
Proof.
  intros Hb. revert name ptr size len labels.
  induction fuel as [|fuel IH]; intros name ptr size len labels Hn Hp Hs Hl Hf; cbn [parse_labels]; [lia|].
  destruct (Z.leb_spec size 0); [eexists _, _; split_and!; [done|done|done|cbn; auto]|].
  pose proof (mem_get_u8 data ptr Hb) as Hb0. unfold is_u8 in Hb0.
  rewrite mem_get_app by lia. destruct (Z.ltb_spec ptr (zlen data)); [|lia].
  destruct (Z.eqb_spec (mem_get data ptr) 0).
  { eexists _, _. split_and!; [done|done|done|cbn; lia..]. }
  unfold DNS_MAX_HOST_NAME_LEN. destruct (Z.eqb_spec len 128); [lia|]. rewrite andb_false_r.
  assert (forall nm ln, zlen nm = 128 -> len <= ln <= 128 ->
    let go d n := if size - 1 <? mem_get data ptr then Some (inl (-1), n)
      else if 128 <=? ln + mem_get data ptr then Some (inl (-2), n)
      else parse_labels fuel d (ptr + 1 + mem_get data ptr) (size - 1 - mem_get data ptr)
             (ln + mem_get data ptr) (labels + 1)
             (mem_write ln (mem_read (ptr + 1) (mem_get data ptr) d) n) in
    exists r name', go data nm = Some (r, name') /\
    go (data ++ junk) (nm ++ ext) = Some (r, name' ++ ext) /\ zlen name' = 128 /\
    match r with
    | inl e => e = -1 \/ e = -2
    | inr (p, s, l) => ptr < p /\ p + s = ptr + size /\ 0 <= s /\ len <= l < 128
    end) as Hgo.
  { intros nm ln Hnm Hln. cbv zeta. destruct (Z.ltb_spec (size - 1) (mem_get data ptr)); [eexists _, _; split_and!; [done|done|done|cbn; auto]|].
    destruct (Z.leb_spec 128 (ln + mem_get data ptr)); [eexists _, _; split_and!; [done|done|done|cbn; auto]|].
    rewrite mem_read_app by lia.
    assert (zlen (mem_read (ptr + 1) (mem_get data ptr) data) = mem_get data ptr) as Hr
      by (apply mem_read_zlen; lia).
    rewrite mem_write_app by lia.
    destruct (IH (mem_write ln (mem_read (ptr + 1) (mem_get data ptr) data) nm)
      (ptr + 1 + mem_get data ptr) (size - 1 - mem_get data ptr) (ln + mem_get data ptr) (labels + 1))
      as (r & name' & E & E' & Hz & Hr'); [by rewrite mem_write_zlen|lia..|].
    exists r, name'. split_and!; [done|done|done|]. destruct r as [e|[[p s] l]]; [done|]. lia. }
  destruct (0 <? labels).
  - rewrite mem_set_app by lia. apply (Hgo (mem_set len 46 name) (len + 1)); [by rewrite mem_set_zlen|lia].
  - apply (Hgo name len); [done|lia].
Qed.

(** C38: parsing any packet at all is memory safe. Whatever bytes the packet holds,
    the parser gives the same result with other bytes after the packet, and leaves
    what follows the 128-byte name untouched: it reads only the [size] bytes it was
    given and writes only inside [name]. It always returns (running out of turns would be
    [None]), with an error or with the number of bytes used, never more than there are;
    and the stored name is then terminated inside the field. *)
Theorem dns_parse_in_bounds data junk name ext type class :
  Forall is_u8 data -> zlen name = 128 ->
  exists r q, parse_next_query data (zlen data) (mk_dns_query name type class) = Some (r, q) /\
  parse_next_query (data ++ junk) (zlen data) (mk_dns_query (name ++ ext) type class) =
    Some (r, q <| q_name := q_name q ++ ext |>) /\
  zlen (q_name q) = 128 /\
  (r = -1 \/ r = -2 \/ (0 < r <= zlen data /\ zlen (c_str (q_name q)) <= 127)).
Proof.
  intros Hb Hn. unfold parse_next_query. cbn [q_name].
  pose proof (parse_labels_bounds (S (Z.to_nat (zlen data))) data junk name ext 0 (zlen data) 0 0 Hb Hn) as H.
  destruct H as (r & name' & -> & -> & Hn' & Hr); [lia..|].
  destruct r as [e|[[p s] l]]; cbn [q_name q_type q_class setf eta eta_query].
  - eexists _, _. split_and!; [done|done|done|]. destruct Hr as [-> | ->]; auto.
  - destruct (Z.ltb_spec s 4); [eexists _, _; split_and!; [done|done|done|auto]|].
    eexists _, _. split; [done|]. cbn [q_name q_type q_class setf eta eta_query].
    unfold get_uint16. rewrite !mem_read_app by lia. rewrite mem_set_app by lia.
    split_and!; [done|by rewrite mem_set_zlen|]. right. right. split; [lia|].
    (* the NUL at [l] ends the string *)
    assert (forall (nm : list Z) k, 0 <= k < zlen nm -> mem_get nm k = 0 -> zlen (c_str nm) <= k) as Hc.
    { clear. intros nm. induction nm as [|c nm IH]; intros k Hk H0; [change (zlen []) with 0 in Hk; lia|].
      rewrite zlen_cons in Hk. cbn [c_str]. destruct (Z.eqb_spec c 0); [change (zlen []) with 0; lia|].
      rewrite zlen_cons. destruct (Z.eq_dec k 0) as [->|]; [done|].
      assert (zlen (c_str nm) <= k - 1); [|lia]. apply IH; [lia|].
      change (c :: nm) with ([c] ++ nm) in H0. rewrite mem_get_app in H0 by lia.
      change (zlen [c]) with 1 in H0. destruct (Z.ltb_spec k 1); [lia|]. done. }
    pose proof (Hc (mem_set l 0 name') l) as Hlast. rewrite mem_set_zlen, mem_get_set, Z.eqb_refl in Hlast by lia.
    specialize (Hlast ltac:(lia) eq_refl). lia.
Qed.

(** ** The answer *)

(** A query as a client sends it: the 12-byte header with QR clear and QDCOUNT 1,
    the question, and whatever follows (additional records, say). *)
Definition dns_header (id0 id1 f0 f1 an0 an1 ns0 ns1 ar0 ar1 : Z) : list Z :=
  [id0; id1; f0; f1; 0; 1; an0; an1; ns0; ns1; ar0; ar1].

(** C37: a query for a name the device knows gets the answer of the protocol. For a
    query that holds a name of labels of 1 to 255 bytes, at most 127 characters when
    dotted, [query_proc] is asked about exactly the dotted name; when it gives an address,
    the response is the query's header with the same id, QR set, QDCOUNT and ANCOUNT 1,
    then the question byte for byte, then one record: a pointer to the name at offset
    12, type A, class IN, ttl 32, length 4, the address. NSCOUNT and ARCOUNT are the
    query's own, though what followed the question is not copied. When it gives none, or
    there is no buffer, nothing is sent. In every case the handler returns. *)
Theorem dns_response query_proc alloc id0 id1 f0 f1 an0 an1 ns0 ns1 ar0 ar1
    ls type class rest query :
  Z.testbit f0 7 = false ->
  Forall label_ok ls -> Forall (fun l => Forall (fun c => c <> 0) l) ls ->
  zlen (dotted true ls) <= 127 -> zlen type = 2 -> zlen class = 2 -> zlen (q_name query) = 128 ->
  let question := encode_name ls ++ type ++ class in
  fst <$> dns_recv_proc query_proc alloc
            (dns_header id0 id1 f0 f1 an0 an1 ns0 ns1 ar0 ar1 ++ question ++ rest) query =
  Some (match query_proc (dotted true ls) with
        | Some addr =>
            if alloc then
              Some ([id0; id1; Z.lor f0 128; f1; 0; 1; 0; 1; ns0; ns1; ar0; ar1] ++ question ++
                    [0xC0; 0x0C; 0; 1; 0; 1; 0; 0; 0; 32; 0; 4] ++ le_bytes 4 addr)
            else None
        | None => None
        end).
Proof.
  intros Hqr Hls Hnz Hlen Ht Hc Hq. cbv zeta. unfold dns_recv_proc, sizeof_dns_header, sizeof_dns_answer.
  pose proof (parse_question ls type class rest query Hls Hnz Hlen Ht Hc Hq) as HP. cbv zeta in HP.
  set (question := encode_name ls ++ type ++ class) in *.
  pose proof (zlen_nonneg question) as Hq0. pose proof (zlen_nonneg rest).
  assert (0 < zlen question) as Hq1.
  { unfold question. rewrite !zlen_app. pose proof (zlen_nonneg (encode_name ls)). lia. }
  set (hdr := dns_header id0 id1 f0 f1 an0 an1 ns0 ns1 ar0 ar1).
  set (payload := hdr ++ question ++ rest).
  assert (zlen payload = 12 + zlen (question ++ rest)) as Hz
    by (unfold payload; rewrite zlen_app; done).
  rewrite zlen_app in Hz. destruct (Z.leb_spec (zlen payload) 12); [lia|].
  change (mem_get payload 2) with f0. rewrite Hqr.
  change (be_val (mem_read 4 2 payload)) with 1. cbn [negb Z.eqb Pos.eqb].
  change (drop (Z.to_nat 12) payload) with (question ++ rest).
  replace (zlen payload - 12) with (zlen (question ++ rest)) by (rewrite zlen_app; lia).
  destruct HP as (r & q & -> & -> & Hname & _). destruct (Z.ltb_spec (zlen question) 0); [lia|]. rewrite Hname.
  destruct (query_proc (dotted true ls)) as [addr|]; [|done]. destruct alloc; [|done].
  cbn [negb fst fmap option_fmap option_map]. do 2 f_equal.
  replace (mem_read 0 (zlen question + 12) payload) with (hdr ++ question)
    by (unfold payload; rewrite app_assoc; symmetry; apply (mem_read_mid [] (hdr ++ question) rest);
        [done|rewrite zlen_app; change (zlen hdr) with 12; lia]).
  set (n := zlen question) in *.
  assert (zlen (hdr ++ question) = 12 + n) as Hhz by (rewrite zlen_app; done).
  replace (replicate (Z.to_nat (n + 12 + 16)) 0)
    with (replicate (Z.to_nat (12 + n)) 0 ++ replicate 16 0)
    by (rewrite <- replicate_add; f_equal; lia).
  assert (zlen (replicate (Z.to_nat (12 + n)) 0) = 12 + n) as Hrz
    by (unfold zlen; rewrite length_replicate; lia).
  pose proof (mem_write_mid [] (hdr ++ question) (replicate (Z.to_nat (12 + n)) 0) (replicate 16 0) 0
    eq_refl ltac:(lia)) as Hcopy. cbn [app] in Hcopy. rewrite Hcopy.
  rewrite <- app_assoc. unfold hdr, dns_header. cbn [app].
  change (mem_get (id0 :: _) 2) with f0.
  change (mem_write 6 (be_bytes 2 1) (mem_set 2 (Z.lor f0 128)
      (id0 :: id1 :: f0 :: f1 :: 0 :: 1 :: an0 :: an1 :: ns0 :: ns1 :: ar0 :: ar1 :: question ++ replicate 16 0)))
    with (([id0; id1; Z.lor f0 128; f1; 0; 1; 0; 1; ns0; ns1; ar0; ar1] ++ question) ++ replicate 16 0 ++ []).
  rewrite mem_write_mid by (rewrite ?zlen_app; unfold n, zlen; cbn [length]; first [done | lia]).
  rewrite app_nil_r, <- app_assoc. done.
Qed.

(** ** Witnesses *)

Definition tiny_usb_query : list Z :=
  dns_header 0x12 0x34 1 0 0 0 0 0 0 1 ++
  (encode_name [bytes_of_string "tiny"; bytes_of_string "usb"] ++ [0; 1] ++ [0; 1]) ++
  [0; 0; 41; 2; 0; 0; 0; 0; 0; 0; 0].

(** A query for tiny.usb with an EDNS record gets 192.168.7.1, and ARCOUNT 1. *)
Lemma dns_response_witness :
  fst <$> dns_recv_proc dns_query_proc true tiny_usb_query (mk_dns_query (replicate 128 0) 0 0) =
  Some (Some ([0x12; 0x34; 129; 0; 0; 1; 0; 1; 0; 0; 0; 1] ++
        (encode_name [bytes_of_string "tiny"; bytes_of_string "usb"] ++ [0; 1] ++ [0; 1]) ++
        [0xC0; 0x0C; 0; 1; 0; 1; 0; 0; 0; 32; 0; 4] ++ [192; 168; 7; 1])).
Proof.
  refine (eq_trans (dns_response dns_query_proc true 0x12 0x34 1 0 0 0 0 0 0 1
    [bytes_of_string "tiny"; bytes_of_string "usb"] [0; 1] [0; 1] [0; 0; 41; 2; 0; 0; 0; 0; 0; 0; 0]
    (mk_dns_query (replicate 128 0) 0 0) eq_refl _ _ _ eq_refl eq_refl eq_refl) _).
  - repeat constructor.
  - repeat constructor; vm_compute; discriminate.
  - vm_compute. discriminate.
  - vm_compute. reflexivity.
Defined.

(** A packet whose first label claims more than the packet holds. *)
Lemma dns_parse_in_bounds_witness :
  exists q, parse_next_query [5; 97; 98] 3 (mk_dns_query (replicate 128 0) 0 0) = Some (-1, q) /\
    zlen (q_name q) = 128.
Proof.
  pose proof (dns_parse_in_bounds [5; 97; 98] [99; 100; 101; 0; 0; 1; 0; 1] (replicate 128 0) [7] 0 0
    ltac:(repeat first [apply Forall_nil_2 | apply Forall_cons_2; [unfold is_u8; lia|]]) eq_refl) as H.
  change (zlen [5; 97; 98]) with 3 in H. destruct H as (r & q & E & _ & Hz & _). exists q. split; [|exact Hz].
  rewrite E. vm_compute in E. congruence.
Defined.
