(* ===== verification/UsbDev.v ===== *)
(** * UsbDev: the state of the USB device stack, its endpoints and control transfers

    The static variables of src/src/device/usbd.c, of the network class driver
    src/src/class/net/ecm_rndis_device.c and of src/lib/networking/rndis_reports.c as
    one record [usb]; the endpoint helpers of src/src/tusb.c; and the parts of usbd.c
    that class drivers call: the endpoint API ([usbd_edpt_*]) and the control
    transfers ([tud_control_xfer], [tud_control_status]).

    Buffers that C passes by address are named: a pointer is a [region] and an
    offset in it. The device controller driver below usbd.c is seen through its
    API: what it is told to do is recorded in [u_calls], and whether it accepts a
    transfer is decided by [u_refusals] (dcd_rp2040.c accepts every one). *)

From S2P Require Import Prelude.

(** ** Requests and events *)

Record control_request := mk_request {
  bmRequestType : Z; bRequest : Z; wValue : Z; wIndex : Z; wLength : Z }.
#[export] Instance eta_request : Eta control_request := fun r =>
  mk_request (bmRequestType r) (bRequest r) (wValue r) (wIndex r) (wLength r).

(** The bit fields [bmRequestType_bit]. *)
Definition req_recipient (r : control_request) : Z := Z.land (bmRequestType r) 31.
Definition req_type (r : control_request) : Z := Z.land (Z.shiftr (bmRequestType r) 5) 3.
Definition req_direction (r : control_request) : Z := Z.land (Z.shiftr (bmRequestType r) 7) 1.

Definition TUSB_DIR_OUT : Z := 0.
Definition TUSB_DIR_IN : Z := 1.
Definition TU_EP0_OUT : Z := 0.
Definition TU_EP0_IN : Z := 128.

Definition TUSB_REQ_TYPE_STANDARD : Z := 0.
Definition TUSB_REQ_TYPE_CLASS : Z := 1.
Definition TUSB_REQ_TYPE_VENDOR : Z := 2.
Definition TUSB_REQ_TYPE_INVALID : Z := 3.

Definition TUSB_REQ_GET_STATUS : Z := 0.
Definition TUSB_REQ_CLEAR_FEATURE : Z := 1.
Definition TUSB_REQ_SET_FEATURE : Z := 3.
Definition TUSB_REQ_SET_ADDRESS : Z := 5.
Definition TUSB_REQ_GET_DESCRIPTOR : Z := 6.
Definition TUSB_REQ_GET_CONFIGURATION : Z := 8.
Definition TUSB_REQ_SET_CONFIGURATION : Z := 9.
Definition TUSB_REQ_GET_INTERFACE : Z := 10.
Definition TUSB_REQ_SET_INTERFACE : Z := 11.

Inductive control_stage := STAGE_SETUP | STAGE_DATA | STAGE_ACK.

(** [dcd_event_t]; [USBD_EVENT_FUNC_CALL] has no sender in this firmware. *)
Inductive dcd_event :=
  | EV_BUS_RESET_START
  | EV_BUS_RESET_END (speed : Z)
  | EV_UNPLUGGED
  | EV_SOF (frame_count : Z)
  | EV_SUSPEND
  | EV_RESUME
  | EV_SETUP_RECEIVED (r : control_request)
  | EV_XFER_COMPLETE (ep_addr result len : Z).

(** ** Memory *)

(** What a [uint8_t*] of the stack points into. [RStack] is a local variable of a
    function, which has returned by the time a data stage completes; [RFlash] a
    constant descriptor. *)
Inductive region :=
  | RStack (l : list Z)
  | RFlash (l : list Z)
  | RDescStr                    (* _desc_str of usb_descriptors.c *)
  | RItfAlt                     (* _netd_itf.itf_data_alt *)
  | REp0                        (* _ctrl_epbuf.buf *)
  | RRx | RTx | RNotify | RCtrl (* the members of _netd_epbuf *).

Definition ptr : Type := option (region * Z).

(** What the stack tells the controller driver and the application. *)
Inductive usb_call :=
  | DcdXfer (ep : Z) (buf : ptr) (data : list Z) (len : Z)
  | DcdStall (ep : Z)
  | DcdClearStall (ep : Z)
  | DcdOpen (ep size : Z)
  | DcdCloseAll
  | DcdSetAddress (addr : Z)
  | DcdStatusComplete (r : control_request)
  | DcdSofEnable (en : bool)
  | DcdInit
  | DcdDeinit
  | DcdRemoteWakeup
  | StackWrite (data : list Z)   (* a write through a dangling stack pointer *)
  | FlashWrite (data : list Z).  (* a write to a constant *)

(** ** State *)

Inductive ctrl_cb := CB_NONE | CB_DRIVER (drv_id : Z) | CB_VENDOR.

(** [usbd_control_xfer_t] *)
Record usbd_control_xfer := mk_control_xfer {
  cx_request : control_request; cx_buffer : ptr;
  cx_data_len : Z; cx_total_xferred : Z; cx_complete_cb : ctrl_cb }.
#[export] Instance eta_control_xfer : Eta usbd_control_xfer := fun c =>
  mk_control_xfer (cx_request c) (cx_buffer c) (cx_data_len c) (cx_total_xferred c)
    (cx_complete_cb c).

(** [usbd_device_t]. The two-dimensional arrays are indexed by [ep_index]. *)
Record usbd_device := mk_device {
  ctrl_xfer : usbd_control_xfer;
  connected : bool; addressed : bool; suspended : bool;
  self_powered : bool; remote_wakeup_en : bool;
  cfg_num : Z; speed : Z; sof_consumer : Z;
  itf2drv : list Z; ep2drv : list Z; ep_status : list Z }.
#[export] Instance eta_device : Eta usbd_device := fun d =>
  mk_device (ctrl_xfer d) (connected d) (addressed d) (suspended d) (self_powered d)
    (remote_wakeup_en d) (cfg_num d) (speed d) (sof_consumer d) (itf2drv d) (ep2drv d)
    (ep_status d).

(** [netd_interface_t]; [ecm_desc_epdata] holds the descriptors it points to. *)
Record netd_interface := mk_interface {
  itf_num : Z; itf_data_alt : Z; ep_in : Z; ep_out : Z; ep_size : Z; ep_notif : Z;
  ecm_mode : bool; ecm_desc_epdata : option (list Z) }.
#[export] Instance eta_interface : Eta netd_interface := fun i =>
  mk_interface (itf_num i) (itf_data_alt i) (ep_in i) (ep_out i) (ep_size i) (ep_notif i)
    (ecm_mode i) (ecm_desc_epdata i).

Record netd_epbuf := mk_epbuf { nb_rx : list Z; nb_tx : list Z; nb_notify : list Z; nb_ctrl : list Z }.
#[export] Instance eta_epbuf : Eta netd_epbuf := fun b =>
  mk_epbuf (nb_rx b) (nb_tx b) (nb_notify b) (nb_ctrl b).

Inductive rndis_state_t := rndis_uninitialized | rndis_initialized | rndis_data_initialized.

Record usb := mk_usb {
  u_dev : usbd_device;                (* _usbd_dev *)
  u_queued_setup : Z;                 (* _usbd_queued_setup *)
  u_inited : bool;                    (* _usbd_rhport != RHPORT_INVALID *)
  u_ctrl_buf : list Z;                (* _ctrl_epbuf.buf *)
  u_queue : list dcd_event;           (* _usbd_q *)
  u_itf : netd_interface;             (* _netd_itf *)
  u_epbuf : netd_epbuf;               (* _netd_epbuf *)
  u_can_xmit : bool;                  (* can_xmit *)
  u_link_up : bool;                   (* ecm_link_is_up *)
  u_packet_filter : Z;                (* oid_packet_filter *)
  u_rndis_state : rndis_state_t;      (* rndis_state *)
  u_desc_str : list Z;                (* _desc_str *)
  u_blink : Z;                        (* blink_interval_ms of main.c *)
  u_refusals : list bool;             (* which of the next transfers are refused *)
  u_calls : list usb_call             (* newest first *) }.
#[export] Instance eta_usb : Eta usb := fun u =>
  mk_usb (u_dev u) (u_queued_setup u) (u_inited u) (u_ctrl_buf u) (u_queue u) (u_itf u)
    (u_epbuf u) (u_can_xmit u) (u_link_up u) (u_packet_filter u) (u_rndis_state u)
    (u_desc_str u) (u_blink u) (u_refusals u) (u_calls u).

Definition CFG_TUD_ENDPOINT0_BUFSIZE : Z := 64.
Definition CFG_TUD_INTERFACE_MAX : Z := 16.
Definition CFG_TUD_ENDPPOINT_MAX : Z := 16.
Definition CFG_TUD_TASK_QUEUE_SZ : Z := 16.
Definition CFG_TUD_NET_MTU : Z := 1514.
Definition sizeof_rndis_data_packet : Z := 44.
Definition NETD_PACKET_SIZE : Z := sizeof_rndis_data_packet + CFG_TUD_NET_MTU + sizeof_rndis_data_packet.
Definition NETD_CONTROL_SIZE : Z := 120.
Definition sizeof_ecm_notify : Z := 16.
Definition TUSB_INDEX_INVALID_8 : Z := 255.

Definition zeros (n : Z) : list Z := replicate (Z.to_nat n) 0.

(** [tu_varclr(&_usbd_dev)] and [tu_memclr(&_netd_itf)]. *)
Definition zero_request : control_request := mk_request 0 0 0 0 0.
Definition zero_device : usbd_device :=
  mk_device (mk_control_xfer zero_request None 0 0 CB_NONE) false false false false false 0 0 0
    (zeros CFG_TUD_INTERFACE_MAX) (zeros (2 * CFG_TUD_ENDPPOINT_MAX))
    (zeros (2 * CFG_TUD_ENDPPOINT_MAX)).
Definition zero_interface : netd_interface := mk_interface 0 0 0 0 0 0 false None.

(** The static variables at power-up. *)
Definition usb_start : usb :=
  mk_usb zero_device 0 false (zeros CFG_TUD_ENDPOINT0_BUFSIZE) [] zero_interface
    (mk_epbuf (zeros NETD_PACKET_SIZE) (zeros NETD_PACKET_SIZE) (zeros sizeof_ecm_notify)
       (zeros NETD_CONTROL_SIZE))
    false true 0 rndis_uninitialized (zeros 66) 250 [] [].

Definition mod_dev (f : usbd_device -> usbd_device) : ST usb unit :=
  st_mod (fun u => u <| u_dev := f (u_dev u) |>).
Definition mod_ctrl (f : usbd_control_xfer -> usbd_control_xfer) : ST usb unit :=
  mod_dev (fun d => d <| ctrl_xfer := f (ctrl_xfer d) |>).
Definition mod_itf (f : netd_interface -> netd_interface) : ST usb unit :=
  st_mod (fun u => u <| u_itf := f (u_itf u) |>).
Definition mod_epbuf (f : netd_epbuf -> netd_epbuf) : ST usb unit :=
  st_mod (fun u => u <| u_epbuf := f (u_epbuf u) |>).
Definition call (c : usb_call) : ST usb unit := st_mod (fun u => u <| u_calls := c :: u_calls u |>).

(** The bytes of a region, and a write through a pointer. *)
Definition region_bytes (u : usb) (r : region) : list Z :=
  match r with
  | RStack l | RFlash l => l
  | RDescStr => u_desc_str u
  | RItfAlt => [itf_data_alt (u_itf u)]
  | REp0 => u_ctrl_buf u
  | RRx => nb_rx (u_epbuf u)
  | RTx => nb_tx (u_epbuf u)
  | RNotify => nb_notify (u_epbuf u)
  | RCtrl => nb_ctrl (u_epbuf u)
  end.

Definition ptr_read (u : usb) (p : ptr) (n : Z) : list Z :=
  match p with Some (r, off) => mem_read off n (region_bytes u r) | None => [] end.

Definition region_write (r : region) (off : Z) (data : list Z) : ST usb unit :=
  match r with
  | RStack _ => call (StackWrite data)
  | RFlash _ => call (FlashWrite data)
  | RDescStr => st_mod (fun u => u <| u_desc_str := mem_write off data (u_desc_str u) |>)
  | RItfAlt => mod_itf (fun i => i <| itf_data_alt := mem_get (mem_write off data [itf_data_alt i]) 0 |>)
  | REp0 => st_mod (fun u => u <| u_ctrl_buf := mem_write off data (u_ctrl_buf u) |>)
  | RRx => mod_epbuf (fun b => b <| nb_rx := mem_write off data (nb_rx b) |>)
  | RTx => mod_epbuf (fun b => b <| nb_tx := mem_write off data (nb_tx b) |>)
  | RNotify => mod_epbuf (fun b => b <| nb_notify := mem_write off data (nb_notify b) |>)
  | RCtrl => mod_epbuf (fun b => b <| nb_ctrl := mem_write off data (nb_ctrl b) |>)
  end.

Definition ptr_write (p : ptr) (data : list Z) : ST usb unit :=
  match p with Some (r, off) => region_write r off data | None => st_ret tt end.

Definition ptr_add (p : ptr) (n : Z) : ptr :=
  match p with Some (r, off) => Some (r, off + n) | None => None end.

(** [p != _ctrl_epbuf.buf] *)
Definition not_ep0_buf (p : ptr) : bool :=
  match p with Some (REp0, off) => negb (off =? 0) | _ => true end.

(** ** Endpoint addresses and status bytes *)

Definition tu_edpt_dir (addr : Z) : Z := if Z.testbit addr 7 then TUSB_DIR_IN else TUSB_DIR_OUT.
Definition tu_edpt_number (addr : Z) : Z := Z.land addr 15.
Definition ep_index (addr : Z) : Z := 2 * tu_edpt_number addr + tu_edpt_dir addr.

Definition TU_EDPT_STATE_BUSY : Z := 1.
Definition TU_EDPT_STATE_STALLED : Z := 2.
Definition TU_EDPT_STATE_CLAIMED : Z := 4.

Definition ep_state (u : usb) (addr : Z) : Z := mem_get (ep_status (u_dev u)) (ep_index addr).
Definition mod_ep_state (addr : Z) (f : Z -> Z) : ST usb unit :=
  mod_dev (fun d => d <| ep_status :=
    mem_set (ep_index addr) (f (mem_get (ep_status d) (ep_index addr))) (ep_status d) |>).

(** tusb.c, on one status byte: the answer and the new byte. On this target the
    mutex is the caller's. *)
Definition tu_edpt_claim (s : Z) : bool * Z :=
  if negb (Z.land s (Z.lor TU_EDPT_STATE_BUSY TU_EDPT_STATE_CLAIMED) =? 0) then (false, s)
  else
    let available := Z.land s (Z.lor TU_EDPT_STATE_BUSY TU_EDPT_STATE_CLAIMED) =? 0 in
    (available, if available then Z.lor s TU_EDPT_STATE_CLAIMED else s).

Definition tu_edpt_release (s : Z) : bool * Z :=
  let ret := Z.land s (Z.lor TU_EDPT_STATE_CLAIMED TU_EDPT_STATE_BUSY) =? TU_EDPT_STATE_CLAIMED in
  (ret, if ret then Z.ldiff s TU_EDPT_STATE_CLAIMED else s).

(** Descriptors: [p] is an offset into the configuration descriptor's bytes. *)
Definition tu_desc_len (d : list Z) (p : Z) : Z := mem_get d p.
Definition tu_desc_type (d : list Z) (p : Z) : Z := mem_get d (p + 1).
Definition tu_desc_next (d : list Z) (p : Z) : Z := p + tu_desc_len d p.
Definition tu_desc_in_bounds (d : list Z) (p e : Z) : bool := (p <? e) && (tu_desc_next d p <=? e).

Definition TUSB_DESC_INTERFACE : Z := 4.
Definition TUSB_DESC_ENDPOINT : Z := 5.
Definition TUSB_DESC_INTERFACE_ASSOCIATION : Z := 11.
Definition TUSB_DESC_CS_INTERFACE : Z := 36.
Definition TUSB_XFER_BULK : Z := 2.

(** [tusb_desc_endpoint_t] *)
Definition bEndpointAddress (d : list Z) (p : Z) : Z := mem_get d (p + 2).
Definition ep_bmAttributes_xfer (d : list Z) (p : Z) : Z := Z.land (mem_get d (p + 3)) 3.
Definition tu_edpt_packet_size (d : list Z) (p : Z) : Z := Z.land (le_val (mem_read (p + 4) 2 d)) 0x7FF.
Definition tu_edpt_validate (d : list Z) (p : Z) : bool := 0 <? tu_edpt_packet_size d p.

(** tusb.c: the driver of each endpoint and interface among the descriptors from
    [p] to [e]. The fuel counts descriptors; a descriptor of length 0 makes the C
    loop forever, and the walk is cut off. *)
Fixpoint bind_driver_loop (fuel : nat) (driver_id itf_max : Z) (d : list Z) (p e : Z)
    (eps itfs : list Z) : bool * list Z * list Z :=
  match fuel with
  | O => (false, eps, itfs)
  | S fuel =>
      if negb (tu_desc_in_bounds d p e) then (true, eps, itfs)
      else if tu_desc_type d p =? TUSB_DESC_ENDPOINT then
        bind_driver_loop fuel driver_id itf_max d (tu_desc_next d p) e
          (mem_set (ep_index (bEndpointAddress d p)) driver_id eps) itfs
      else if (tu_desc_type d p =? TUSB_DESC_INTERFACE) && (mem_get d (p + 3) =? 0) then
        if mem_get d (p + 2) <? itf_max then
          bind_driver_loop fuel driver_id itf_max d (tu_desc_next d p) e eps
            (mem_set (mem_get d (p + 2)) driver_id itfs)
        else (false, eps, itfs)
      else bind_driver_loop fuel driver_id itf_max d (tu_desc_next d p) e eps itfs
  end.
Definition tu_bind_driver_to_ep_itf (driver_id : Z) (eps itfs : list Z) (itf_max : Z)
    (d : list Z) (p desc_len : Z) : bool * list Z * list Z :=
  bind_driver_loop (S (length d)) driver_id itf_max d p (p + desc_len) eps itfs.

(** ** The controller driver, as usbd.c calls it *)

Definition dcd_edpt_xfer (ep : Z) (buf : ptr) (total_bytes : Z) : ST usb bool := fun u =>
  let data := if tu_edpt_dir ep =? TUSB_DIR_IN then ptr_read u buf total_bytes else [] in
  let u := u <| u_calls := DcdXfer ep buf data total_bytes :: u_calls u |> in
  match u_refusals u with
  | [] => (true, u)
  | refused :: rest => (negb refused, u <| u_refusals := rest |>)
  end.
Definition dcd_edpt_open (d : list Z) (p : Z) : ST usb bool :=
  call (DcdOpen (bEndpointAddress d p) (tu_edpt_packet_size d p)) ;;; st_ret true.

(** ** Endpoint API (usbd.c) *)

Definition usbd_edpt_open (d : list Z) (p : Z) : ST usb bool :=
  if negb (tu_edpt_number (bEndpointAddress d p) <? CFG_TUD_ENDPPOINT_MAX) then st_ret false
  else if negb (tu_edpt_validate d p) then st_ret false
  else dcd_edpt_open d p.

Definition usbd_edpt_claim (ep : Z) : ST usb bool :=
  let! u := st_get in
  mod_ep_state ep (fun s => snd (tu_edpt_claim s)) ;;;
  st_ret (fst (tu_edpt_claim (ep_state u ep))).

Definition usbd_edpt_release (ep : Z) : ST usb bool :=
  let! u := st_get in
  mod_ep_state ep (fun s => snd (tu_edpt_release s)) ;;;
  st_ret (fst (tu_edpt_release (ep_state u ep))).

Definition usbd_edpt_xfer (ep : Z) (buf : ptr) (total_bytes : Z) : ST usb bool :=
  let! u := st_get in
  if negb (Z.land (ep_state u ep) TU_EDPT_STATE_BUSY =? 0) then st_ret false
  else
    mod_ep_state ep (fun s => Z.lor s TU_EDPT_STATE_BUSY) ;;;
    let! ok := dcd_edpt_xfer ep buf total_bytes in
    if ok then st_ret true
    else
      mod_ep_state ep (fun s => Z.ldiff s (Z.lor TU_EDPT_STATE_BUSY TU_EDPT_STATE_CLAIMED)) ;;;
      st_ret false.

Definition usbd_edpt_busy (u : usb) (ep : Z) : bool :=
  negb (Z.land (ep_state u ep) TU_EDPT_STATE_BUSY =? 0).

Definition usbd_edpt_stall (ep : Z) : ST usb unit :=
  call (DcdStall ep) ;;;
  mod_ep_state ep (fun s => Z.lor s (Z.lor TU_EDPT_STATE_STALLED TU_EDPT_STATE_BUSY)).

Definition usbd_edpt_stalled (u : usb) (ep : Z) : bool :=
  negb (Z.land (ep_state u ep) TU_EDPT_STATE_STALLED =? 0).

Definition usbd_edpt_clear_stall (ep : Z) : ST usb unit :=
  let! u := st_get in
  let was_stalled := usbd_edpt_stalled u ep in
  call (DcdClearStall ep) ;;;
  let clear_mask := Z.lor TU_EDPT_STATE_STALLED TU_EDPT_STATE_BUSY in
  let clear_mask := if was_stalled then Z.lor clear_mask TU_EDPT_STATE_CLAIMED else clear_mask in
  mod_ep_state ep (fun s => Z.ldiff s clear_mask).

(** Two consecutive endpoint descriptors; [ep_out] and [ep_in] are the addresses to
    set. The C leaves them as they were when it fails, except for one already set. *)
Fixpoint open_edpt_loop (n : nat) (d : list Z) (p xfer_type : Z) (eps : Z * Z)
    : ST usb (bool * (Z * Z)) :=
  match n with
  | O => st_ret (true, eps)
  | S n =>
      if negb ((tu_desc_type d p =? TUSB_DESC_ENDPOINT) && (xfer_type =? ep_bmAttributes_xfer d p))
      then st_ret (false, eps)
      else
        let! ok := usbd_edpt_open d p in
        if negb ok then st_ret (false, eps)
        else
          let addr := bEndpointAddress d p in
          let eps := if tu_edpt_dir addr =? TUSB_DIR_IN then (fst eps, addr) else (addr, snd eps) in
          open_edpt_loop n d (tu_desc_next d p) xfer_type eps
  end.
Definition usbd_open_edpt_pair (d : list Z) (p ep_count xfer_type : Z) : ST usb bool :=
  let! u := st_get in
  let! r := open_edpt_loop (Z.to_nat ep_count) d p xfer_type (ep_out (u_itf u), ep_in (u_itf u)) in
  mod_itf (fun i => i <| ep_out := fst (snd r) |> <| ep_in := snd (snd r) |>) ;;;
  st_ret (fst r).

(** ** Control transfers (usbd.c) *)

Definition status_stage_ep (r : control_request) : Z :=
  if negb (wLength r =? 0) && negb (req_direction r =? 0) then TU_EP0_OUT else TU_EP0_IN.

Definition status_stage_xact (ep : Z) : ST usb bool := usbd_edpt_xfer ep None 0.

Definition data_stage_xact : ST usb bool :=
  let! u := st_get in
  let c := ctrl_xfer (u_dev u) in
  let xact_len := Z.min (u16 (cx_data_len c - cx_total_xferred c)) CFG_TUD_ENDPOINT0_BUFSIZE in
  let buf := if negb (xact_len =? 0) then Some (REp0, 0) else None in
  if req_direction (cx_request c) =? TUSB_DIR_IN then
    if negb (xact_len =? 0) && not_ep0_buf (cx_buffer c) then
      (* tu_memcpy_s *)
      match cx_buffer c with
      | None => st_ret false
      | Some _ =>
          region_write REp0 0 (ptr_read u (cx_buffer c) xact_len) ;;;
          usbd_edpt_xfer TU_EP0_IN buf xact_len
      end
    else usbd_edpt_xfer TU_EP0_IN buf xact_len
  else usbd_edpt_xfer TU_EP0_OUT buf xact_len.

Definition tud_control_status : ST usb bool :=
  let! u := st_get in
  status_stage_xact (status_stage_ep (cx_request (ctrl_xfer (u_dev u)))).

Definition tud_control_xfer (buffer : ptr) (len : Z) : ST usb bool :=
  let! u := st_get in
  let wlen := wLength (cx_request (ctrl_xfer (u_dev u))) in
  let data_len := Z.min len wlen in
  mod_ctrl (fun c => c <| cx_buffer := buffer |> <| cx_data_len := data_len |>) ;;;
  if 0 <? wlen then
    if (0 <? data_len) && bool_decide (buffer = None) then st_ret false
    else data_stage_xact
  else status_stage_xact TU_EP0_IN.
