(* ===== verification/Rndis.v ===== *)
(** * Rndis: RNDIS control messages (src/lib/networking/rndis_reports.c)

    The host writes a message into the control buffer of the class driver
    ([nb_ctrl], what [encapsulated_buffer] points to); the handler overwrites it in
    place with the completion and asks for a notification. [netd_report] of
    ecm_rndis_device.c, which sends the notification, is here because the handlers
    call it.

    A SET of the packet filter reads four bytes at an offset the host chose, without
    a check. What such a read finds outside the control buffer is the parameter
    [ram_at]. *)

From S2P Require Import Prelude CText UsbDev.

(** The four bytes at an offset from the control buffer that is not inside it. *)
Class Ram := ram_at : Z -> list Z.

(** ** Constants *)

Definition RNDIS_STATUS_SUCCESS : Z := 0.
Definition RNDIS_STATUS_FAILURE : Z := 0xC0000001.
Definition RNDIS_STATUS_NOT_SUPPORTED : Z := 0xC00000BB.
Definition REMOTE_NDIS_PACKET_MSG : Z := 1.
Definition REMOTE_NDIS_INITIALIZE_MSG : Z := 2.
Definition REMOTE_NDIS_QUERY_MSG : Z := 4.
Definition REMOTE_NDIS_SET_MSG : Z := 5.
Definition REMOTE_NDIS_RESET_MSG : Z := 6.
Definition REMOTE_NDIS_KEEPALIVE_MSG : Z := 8.
Definition REMOTE_NDIS_INITIALIZE_CMPLT : Z := 0x80000002.
Definition REMOTE_NDIS_QUERY_CMPLT : Z := 0x80000004.
Definition REMOTE_NDIS_SET_CMPLT : Z := 0x80000005.
Definition REMOTE_NDIS_RESET_CMPLT : Z := 0x80000006.
Definition REMOTE_NDIS_KEEPALIVE_CMPLT : Z := 0x80000008.

Definition OID_GEN_SUPPORTED_LIST : Z := 0x00010101.
Definition OID_GEN_HARDWARE_STATUS : Z := 0x00010102.
Definition OID_GEN_MEDIA_SUPPORTED : Z := 0x00010103.
Definition OID_GEN_MEDIA_IN_USE : Z := 0x00010104.
Definition OID_GEN_MAXIMUM_FRAME_SIZE : Z := 0x00010106.
Definition OID_GEN_LINK_SPEED : Z := 0x00010107.
Definition OID_GEN_TRANSMIT_BLOCK_SIZE : Z := 0x0001010A.
Definition OID_GEN_RECEIVE_BLOCK_SIZE : Z := 0x0001010B.
Definition OID_GEN_VENDOR_ID : Z := 0x0001010C.
Definition OID_GEN_VENDOR_DESCRIPTION : Z := 0x0001010D.
Definition OID_GEN_CURRENT_PACKET_FILTER : Z := 0x0001010E.
Definition OID_GEN_CURRENT_LOOKAHEAD : Z := 0x0001010F.
Definition OID_GEN_MAXIMUM_TOTAL_SIZE : Z := 0x00010111.
Definition OID_GEN_PROTOCOL_OPTIONS : Z := 0x00010112.
Definition OID_GEN_MAC_OPTIONS : Z := 0x00010113.
Definition OID_GEN_MEDIA_CONNECT_STATUS : Z := 0x00010114.
Definition OID_GEN_MAXIMUM_SEND_PACKETS : Z := 0x00010115.
Definition OID_GEN_VENDOR_DRIVER_VERSION : Z := 0x00010116.
Definition OID_GEN_RNDIS_CONFIG_PARAMETER : Z := 0x0001021B.
Definition OID_GEN_PHYSICAL_MEDIUM : Z := 0x00010202.
Definition OID_GEN_XMIT_OK : Z := 0x00020101.
Definition OID_GEN_RCV_OK : Z := 0x00020102.
Definition OID_GEN_XMIT_ERROR : Z := 0x00020103.
Definition OID_GEN_RCV_ERROR : Z := 0x00020104.
Definition OID_GEN_RCV_NO_BUFFER : Z := 0x00020105.
Definition OID_802_3_PERMANENT_ADDRESS : Z := 0x01010101.
Definition OID_802_3_CURRENT_ADDRESS : Z := 0x01010102.
Definition OID_802_3_MULTICAST_LIST : Z := 0x01010103.
Definition OID_802_3_MAXIMUM_LIST_SIZE : Z := 0x01010104.
Definition OID_802_3_MAC_OPTIONS : Z := 0x01010105.
Definition OID_802_3_RCV_ERROR_ALIGNMENT : Z := 0x01020101.
Definition OID_802_3_XMIT_ONE_COLLISION : Z := 0x01020102.
Definition OID_802_3_XMIT_MORE_COLLISIONS : Z := 0x01020103.

Definition OIDSupportedList : list Z :=
  [ OID_GEN_SUPPORTED_LIST; OID_GEN_HARDWARE_STATUS; OID_GEN_MEDIA_SUPPORTED;
    OID_GEN_MEDIA_IN_USE; OID_GEN_MAXIMUM_FRAME_SIZE; OID_GEN_LINK_SPEED;
    OID_GEN_TRANSMIT_BLOCK_SIZE; OID_GEN_RECEIVE_BLOCK_SIZE; OID_GEN_VENDOR_ID;
    OID_GEN_VENDOR_DESCRIPTION; OID_GEN_VENDOR_DRIVER_VERSION;
    OID_GEN_CURRENT_PACKET_FILTER; OID_GEN_MAXIMUM_TOTAL_SIZE; OID_GEN_PROTOCOL_OPTIONS;
    OID_GEN_MAC_OPTIONS; OID_GEN_MEDIA_CONNECT_STATUS; OID_GEN_MAXIMUM_SEND_PACKETS;
    OID_802_3_PERMANENT_ADDRESS; OID_802_3_CURRENT_ADDRESS; OID_802_3_MULTICAST_LIST;
    OID_802_3_MAXIMUM_LIST_SIZE; OID_802_3_MAC_OPTIONS ].

(** main.c *)
Definition tud_network_mac_address : list Z := [0x02; 0x02; 0x84; 0x6A; 0x96; 0x00].

Definition RNDIS_VENDOR : list Z := bytes_of_string "TinyUSB".
Definition TUSB_SPEED_HIGH : Z := 2.
Definition SIZEOF_ETH_HDR : Z := 14.

(** ** The control buffer as a struct *)

Definition field (u : usb) (off : Z) : Z := le_val (mem_read off 4 (nb_ctrl (u_epbuf u))).
Definition ctrl_write (off : Z) (data : list Z) : ST usb unit :=
  mod_epbuf (fun b => b <| nb_ctrl := mem_write off data (nb_ctrl b) |>).
Definition set_field (off v : Z) : ST usb unit := ctrl_write off (le_bytes 4 v).

Definition MessageType : Z := 0.
Definition MessageLength : Z := 4.
Definition RequestId : Z := 8.
(** in a completion *)
Definition Status : Z := 12.
(** in a query or a set message *)
Definition Oid : Z := 12.
Definition InformationBufferLength : Z := 16.
Definition InformationBufferOffset : Z := 20.
Definition sizeof_query_cmplt : Z := 24.
Definition sizeof_set_cmplt : Z := 16.
Definition sizeof_initialize_cmplt : Z := 52.
Definition sizeof_reset_cmplt : Z := 16.
Definition sizeof_keepalive_cmplt : Z := 16.

(** ** Operations *)

(** ecm_rndis_device.c *)
Definition netd_report (buf : list Z) (len : Z) : ST usb unit :=
  let len := Z.min len sizeof_ecm_notify in
  let! u := st_get in
  let! ok := usbd_edpt_claim (ep_notif (u_itf u)) in
  if negb ok then st_ret tt
  else
    region_write RNotify 0 (take (Z.to_nat len) buf) ;;;
    usbd_edpt_xfer (ep_notif (u_itf u)) (Some (RNotify, 0)) len ;;;
    st_ret tt.

Definition rndis_report : ST usb unit := netd_report [1; 0; 0; 0; 0; 0; 0; 0] 8.

Definition rndis_link_speed_bps (u : usb) : Z :=
  if speed (u_dev u) =? TUSB_SPEED_HIGH then 480000000 else 12000000.

Definition rndis_query_cmplt (status : Z) (data : list Z) (size : Z) : ST usb unit :=
  set_field MessageType REMOTE_NDIS_QUERY_CMPLT ;;;
  set_field MessageLength (sizeof_query_cmplt + size) ;;;
  set_field InformationBufferLength size ;;;
  set_field InformationBufferOffset 16 ;;;
  set_field Status status ;;;
  ctrl_write sizeof_query_cmplt data ;;;
  rndis_report.

Definition rndis_query_cmplt32 (status data : Z) : ST usb unit :=
  set_field MessageType REMOTE_NDIS_QUERY_CMPLT ;;;
  set_field MessageLength (sizeof_query_cmplt + 4) ;;;
  set_field InformationBufferLength 4 ;;;
  set_field InformationBufferOffset 16 ;;;
  set_field Status status ;;;
  ctrl_write sizeof_query_cmplt (le_bytes 4 data) ;;;
  rndis_report.

(** What the switch of [rndis_query] answers with: 32 bits, or bytes. *)
Inductive oid_reply := Reply32 (status data : Z) | ReplyBytes (status : Z) (data : list Z).

(** The cases of the switch. The statistics are statics that nothing writes: 0. *)
Definition oid_answer (u : usb) (oid : Z) : oid_reply :=
  let ok32 := Reply32 RNDIS_STATUS_SUCCESS in
  if oid =? OID_GEN_SUPPORTED_LIST
  then ReplyBytes RNDIS_STATUS_SUCCESS (mjoin (le_bytes 4 <$> OIDSupportedList))
  else if oid =? OID_GEN_VENDOR_DRIVER_VERSION then ok32 0x00001000
  else if oid =? OID_802_3_CURRENT_ADDRESS then ReplyBytes RNDIS_STATUS_SUCCESS tud_network_mac_address
  else if oid =? OID_802_3_PERMANENT_ADDRESS then ReplyBytes RNDIS_STATUS_SUCCESS tud_network_mac_address
  else if oid =? OID_GEN_MEDIA_SUPPORTED then ok32 0
  else if oid =? OID_GEN_MEDIA_IN_USE then ok32 0
  else if oid =? OID_GEN_PHYSICAL_MEDIUM then ok32 0
  else if oid =? OID_GEN_HARDWARE_STATUS then ok32 0
  else if oid =? OID_GEN_LINK_SPEED then ok32 (rndis_link_speed_bps u / 100)
  else if oid =? OID_GEN_VENDOR_ID then ok32 0x00FFFFFF
  else if oid =? OID_GEN_VENDOR_DESCRIPTION then ReplyBytes RNDIS_STATUS_SUCCESS (RNDIS_VENDOR ++ [0])
  else if oid =? OID_GEN_CURRENT_PACKET_FILTER then ok32 (u_packet_filter u)
  else if oid =? OID_GEN_MAXIMUM_FRAME_SIZE then ok32 (CFG_TUD_NET_MTU - SIZEOF_ETH_HDR)
  else if oid =? OID_GEN_MAXIMUM_TOTAL_SIZE then ok32 CFG_TUD_NET_MTU
  else if oid =? OID_GEN_TRANSMIT_BLOCK_SIZE then ok32 CFG_TUD_NET_MTU
  else if oid =? OID_GEN_RECEIVE_BLOCK_SIZE then ok32 CFG_TUD_NET_MTU
  else if oid =? OID_GEN_MEDIA_CONNECT_STATUS then ok32 0
  else if oid =? OID_GEN_RNDIS_CONFIG_PARAMETER then ok32 0
  else if oid =? OID_802_3_MAXIMUM_LIST_SIZE then ok32 1
  else if oid =? OID_802_3_MULTICAST_LIST then Reply32 RNDIS_STATUS_NOT_SUPPORTED 0
  else if oid =? OID_802_3_MAC_OPTIONS then Reply32 RNDIS_STATUS_NOT_SUPPORTED 0
  else if oid =? OID_GEN_MAC_OPTIONS then ok32 0
  else if oid =? OID_802_3_RCV_ERROR_ALIGNMENT then ok32 0
  else if oid =? OID_802_3_XMIT_ONE_COLLISION then ok32 0
  else if oid =? OID_802_3_XMIT_MORE_COLLISIONS then ok32 0
  else if oid =? OID_GEN_XMIT_OK then ok32 0
  else if oid =? OID_GEN_RCV_OK then ok32 0
  else if oid =? OID_GEN_RCV_ERROR then ok32 0
  else if oid =? OID_GEN_XMIT_ERROR then ok32 0
  else if oid =? OID_GEN_RCV_NO_BUFFER then ok32 0
  else ReplyBytes RNDIS_STATUS_FAILURE [].

Definition rndis_query : ST usb unit :=
  let! u := st_get in
  match oid_answer u (field u Oid) with
  | Reply32 status data => rndis_query_cmplt32 status data
  | ReplyBytes status data => rndis_query_cmplt status data (zlen data)
  end.

(** [memcpy(&oid_packet_filter, INFBUF, 4)]: four bytes at the host's offset from
    [RequestId]. *)
Definition infbuf_read `{Ram} (u : usb) : list Z :=
  let off := RequestId + field u InformationBufferOffset in
  if off + 4 <=? NETD_CONTROL_SIZE then mem_read off 4 (nb_ctrl (u_epbuf u)) else ram_at off.

Definition rndis_handle_set_msg `{Ram} : ST usb unit :=
  let! m := st_get in
  let oid := field m Oid in
  set_field MessageType REMOTE_NDIS_SET_CMPLT ;;;
  set_field MessageLength sizeof_set_cmplt ;;;
  set_field Status RNDIS_STATUS_SUCCESS ;;;
  (if oid =? OID_GEN_RNDIS_CONFIG_PARAMETER then st_ret tt
   else if oid =? OID_GEN_CURRENT_PACKET_FILTER then
     let! u := st_get in
     let filter := le_val (infbuf_read u) in
     st_mod (fun u => u <| u_packet_filter := filter |>
       <| u_rndis_state := if negb (filter =? 0) then rndis_data_initialized else rndis_initialized |>)
   else if oid =? OID_GEN_CURRENT_LOOKAHEAD then st_ret tt
   else if oid =? OID_GEN_PROTOCOL_OPTIONS then st_ret tt
   else if oid =? OID_802_3_MULTICAST_LIST then st_ret tt
   else set_field Status RNDIS_STATUS_FAILURE) ;;;
  rndis_report.

Definition rndis_initialize : ST usb unit :=
  set_field MessageType REMOTE_NDIS_INITIALIZE_CMPLT ;;;
  set_field MessageLength sizeof_initialize_cmplt ;;;
  set_field 16 1 ;;;                       (* MajorVersion *)
  set_field 20 0 ;;;                       (* MinorVersion *)
  set_field Status RNDIS_STATUS_SUCCESS ;;;
  set_field 24 1 ;;;                       (* DeviceFlags *)
  set_field 28 0 ;;;                       (* Medium *)
  set_field 32 1 ;;;                       (* MaxPacketsPerTransfer *)
  set_field 36 (CFG_TUD_NET_MTU + sizeof_rndis_data_packet) ;;; (* MaxTransferSize *)
  set_field 40 0 ;;;                       (* PacketAlignmentFactor *)
  set_field 44 0 ;;;                       (* AfListOffset *)
  set_field 48 0 ;;;                       (* AfListSize *)
  st_mod (fun u => u <| u_rndis_state := rndis_initialized |>) ;;;
  rndis_report.

Definition rndis_reset : ST usb unit :=
  st_mod (fun u => u <| u_rndis_state := rndis_uninitialized |>) ;;;
  set_field MessageType REMOTE_NDIS_RESET_CMPLT ;;;
  set_field MessageLength sizeof_reset_cmplt ;;;
  set_field 8 RNDIS_STATUS_SUCCESS ;;;     (* Status *)
  set_field 12 1 ;;;                       (* AddressingReset *)
  rndis_report.

Definition rndis_keepalive : ST usb unit :=
  set_field MessageType REMOTE_NDIS_KEEPALIVE_CMPLT ;;;
  set_field MessageLength sizeof_keepalive_cmplt ;;;
  set_field Status RNDIS_STATUS_SUCCESS ;;;
  rndis_report.

Definition rndis_class_set_handler `{Ram} : ST usb unit :=
  let! u := st_get in
  let t := field u MessageType in
  if t =? REMOTE_NDIS_INITIALIZE_MSG then rndis_initialize
  else if t =? REMOTE_NDIS_QUERY_MSG then rndis_query
  else if t =? REMOTE_NDIS_SET_MSG then rndis_handle_set_msg
  else if t =? REMOTE_NDIS_RESET_MSG then rndis_reset
  else if t =? REMOTE_NDIS_KEEPALIVE_MSG then rndis_keepalive
  else st_ret tt.
