(* ===== verification/Netd.v ===== *)
(** * Netd: the CDC-ECM/RNDIS class driver (src/src/class/net/ecm_rndis_device.c)

    Ethernet frames over two bulk endpoints, in ECM mode as they are, in RNDIS mode
    behind a 44-byte header; the management interface is on the control endpoint.
    The application's receive callback [tud_network_recv_cb] is the interface
    [NetApp], implemented in [NetGlue] by src/src/main.c's. *)

From S2P Require Import Prelude UsbDev Rndis.

(** What the application gives the driver: its answer to a received packet. *)
Class NetApp := tud_network_recv_cb : list Z -> ST usb bool.

Definition TUD_RNDIS_ITF_CLASS : Z := 0xE0.
Definition TUD_RNDIS_ITF_SUBCLASS : Z := 1.
Definition TUD_RNDIS_ITF_PROTOCOL : Z := 3.
Definition TUSB_CLASS_CDC : Z := 2.
Definition TUSB_CLASS_CDC_DATA : Z := 10.
Definition CDC_COMM_SUBCLASS_ETHERNET_CONTROL_MODEL : Z := 6.
Definition CFG_TUD_NET_PACKET_PREFIX_LEN : Z := sizeof_rndis_data_packet.
(** [offsetof(rndis_data_packet_t, DataOffset)] *)
Definition rndis_hdr : Z := 8.

(** ** Transfers *)

Definition tud_network_recv_renew : ST usb unit :=
  let! u := st_get in
  usbd_edpt_xfer (ep_out (u_itf u)) (Some (RRx, 0)) NETD_PACKET_SIZE ;;; st_ret tt.

Definition do_in_xfer (buf : ptr) (len : Z) : ST usb unit :=
  st_mod (fun u => u <| u_can_xmit := false |>) ;;;
  let! u := st_get in
  usbd_edpt_xfer (ep_in (u_itf u)) buf len ;;; st_ret tt.

(** ** Driver API *)

Definition netd_init : ST usb unit := mod_itf (fun _ => zero_interface).
Definition netd_reset : ST usb unit := netd_init.

(** The functional descriptors after the management interface: the driver length and
    the next descriptor. Both loops below advance in the descriptor bytes, of which
    there are fewer than the fuel; the C does not check for a zero length. *)
Fixpoint skip_functional (fuel : nat) (d : list Z) (p drv_len max_len : Z) : Z * Z :=
  match fuel with
  | O => (drv_len, p)
  | S fuel =>
      if (tu_desc_type d p =? TUSB_DESC_CS_INTERFACE) && (drv_len <=? max_len)
      then skip_functional fuel d (tu_desc_next d p) (u16 (drv_len + tu_desc_len d p)) max_len
      else (drv_len, p)
  end.

(** The data interface and, in ECM mode, its alternate settings. *)
Fixpoint skip_data_itf (fuel : nat) (ecm : bool) (d : list Z) (p drv_len max_len : Z) : option (Z * Z) :=
  match fuel with
  | O => None
  | S fuel =>
      if negb (mem_get d (p + 5) =? TUSB_CLASS_CDC_DATA) then None
      else
        let drv_len := u16 (drv_len + tu_desc_len d p) in
        let p := tu_desc_next d p in
        if ecm && (tu_desc_type d p =? TUSB_DESC_INTERFACE) && (drv_len <=? max_len)
        then skip_data_itf fuel ecm d p drv_len max_len
        else Some (drv_len, p)
  end.

(** [itf_desc] is the offset [p] in the configuration descriptor [d]; the return
    value is the length of the descriptors the driver takes, 0 if it refuses. *)
Definition netd_open (d : list Z) (p max_len : Z) : ST usb Z :=
  let cls := mem_get d (p + 5) in
  let sub := mem_get d (p + 6) in
  let pro := mem_get d (p + 7) in
  let is_rndis := (TUD_RNDIS_ITF_CLASS =? cls) && (TUD_RNDIS_ITF_SUBCLASS =? sub) &&
                  (TUD_RNDIS_ITF_PROTOCOL =? pro) in
  let is_ecm := (TUSB_CLASS_CDC =? cls) && (CDC_COMM_SUBCLASS_ETHERNET_CONTROL_MODEL =? sub) &&
                (0 =? pro) in
  let! u := st_get in
  if negb (is_rndis || is_ecm) then st_ret 0
  else if negb (0 =? ep_notif (u_itf u)) then st_ret 0
  else
    mod_itf (fun i => i <| ecm_mode := is_ecm |> <| itf_num := mem_get d (p + 2) |>) ;;;
    let '(drv_len, p) := skip_functional (length d) d (tu_desc_next d p) 9 max_len in
    let! r :=
      if tu_desc_type d p =? TUSB_DESC_ENDPOINT then
        let! ok := usbd_edpt_open d p in
        if negb ok then st_ret None
        else
          mod_itf (fun i => i <| ep_notif := bEndpointAddress d p |>) ;;;
          st_ret (Some (u16 (drv_len + tu_desc_len d p), tu_desc_next d p))
      else st_ret (Some (drv_len, p)) in
    match r with
    | None => st_ret 0
    | Some (drv_len, p) =>
        if negb (tu_desc_type d p =? TUSB_DESC_INTERFACE) then st_ret 0
        else
          match skip_data_itf (length d) is_ecm d p drv_len max_len with
          | None => st_ret 0
          | Some (drv_len, p) =>
              if negb (tu_desc_type d p =? TUSB_DESC_ENDPOINT) then st_ret 0
              else
                mod_itf (fun i => i <| ep_size := tu_edpt_packet_size d p |>) ;;;
                if is_ecm then
                  mod_itf (fun i => i <| ecm_desc_epdata := Some (drop (Z.to_nat p) d) |>) ;;;
                  st_ret (u16 (drv_len + 14))
                else
                  let! ok := usbd_open_edpt_pair d p 2 TUSB_XFER_BULK in
                  if negb ok then st_ret 0
                  else
                    st_mod (fun u => u <| u_can_xmit := true |>) ;;;
                    tud_network_recv_renew ;;;
                    st_ret (u16 (drv_len + 14))
          end
    end.

(** [tusb_control_request_t] in memory. *)
Definition request_bytes (r : control_request) : list Z :=
  [bmRequestType r; bRequest r] ++ le_bytes 2 (wValue r) ++ le_bytes 2 (wIndex r) ++
  le_bytes 2 (wLength r).

(** [ecm_notify_t] *)
Definition ecm_notify_bytes (r : control_request) (downlink uplink : Z) : list Z :=
  request_bytes r ++ le_bytes 4 downlink ++ le_bytes 4 uplink.

Definition ecm_report (nc : bool) : ST usb unit :=
  let! u := st_get in
  let link_bps := if speed (u_dev u) =? TUSB_SPEED_HIGH then 480000000 else 12000000 in
  let itf := itf_num (u_itf u) in
  if nc
  then netd_report (ecm_notify_bytes (mk_request 0xA1 0 (if u_link_up u then 1 else 0) itf 0) 0 0) 8
  else netd_report (ecm_notify_bytes (mk_request 0xA1 0x2A 0 itf 8) link_bps link_bps) sizeof_ecm_notify.

(** SET_INTERFACE, after its checks. *)
Definition netd_set_interface (req_alt : Z) : ST usb bool :=
  mod_itf (fun i => i <| itf_data_alt := req_alt |>) ;;;
  let! u := st_get in
  let! ok :=
    if negb (req_alt =? 0) && (ep_in (u_itf u) =? 0) && (ep_out (u_itf u) =? 0) then
      match ecm_desc_epdata (u_itf u) with
      | None => st_ret false
      | Some d =>
          let! ok := usbd_open_edpt_pair d 0 2 TUSB_XFER_BULK in
          if negb ok then st_ret false
          else
            st_mod (fun u => u <| u_can_xmit := true |>) ;;;
            tud_network_recv_renew ;;;
            st_ret true
      end
    else st_ret true in
  if ok then tud_control_status ;;; st_ret true else st_ret false.

Definition netd_control_setup (r : control_request) : ST usb bool :=
  let! u := st_get in
  let itf := u_itf u in
  if req_type r =? TUSB_REQ_TYPE_STANDARD then
    if bRequest r =? TUSB_REQ_GET_INTERFACE then
      if negb (itf_num itf + 1 =? u8 (wIndex r)) then st_ret false
      else tud_control_xfer (Some (RItfAlt, 0)) 1 ;;; st_ret true
    else if bRequest r =? TUSB_REQ_SET_INTERFACE then
      let req_alt := u8 (wValue r) in
      if negb ((itf_num itf + 1 =? u8 (wIndex r)) && (req_alt <? 2)) then st_ret false
      else if negb (ecm_mode itf) then st_ret false
      else netd_set_interface req_alt
    else st_ret false
  else if req_type r =? TUSB_REQ_TYPE_CLASS then
    if negb (itf_num itf =? wIndex r) then st_ret false
    else if ecm_mode itf then
      (if bRequest r =? 0x43 then
         tud_control_xfer None 0 ;;;
         let! u := st_get in
         st_when (u_link_up u) (ecm_report true)
       else st_ret tt) ;;;
      st_ret true
    else if req_direction r =? TUSB_DIR_IN then
      let msglen := field u MessageLength in
      if negb (msglen <=? NETD_CONTROL_SIZE) then st_ret false
      else tud_control_xfer (Some (RCtrl, 0)) (u16 msglen) ;;; st_ret true
    else tud_control_xfer (Some (RCtrl, 0)) NETD_CONTROL_SIZE ;;; st_ret true
  else st_ret false.

Definition netd_control_xfer_cb `{Ram} (stage : control_stage) (r : control_request) : ST usb bool :=
  match stage with
  | STAGE_SETUP => netd_control_setup r
  | STAGE_DATA =>
      let! u := st_get in
      st_when ((req_type r =? TUSB_REQ_TYPE_CLASS) && (req_direction r =? TUSB_DIR_OUT) &&
               (itf_num (u_itf u) =? wIndex r) && negb (ecm_mode (u_itf u)))
        rndis_class_set_handler ;;;
      st_ret true
  | STAGE_ACK => st_ret true
  end.

(** ** Packets *)

(** A field of the header of a received packet. *)
Definition rx_field (rx : list Z) (off : Z) : Z := le_val (mem_read off 4 rx).

(** Where the packet is in the receive buffer: offset and size. *)
Definition packet_window (ecm : bool) (rx : list Z) (len : Z) : Z * Z :=
  if ecm then (0, len)
  else if sizeof_rndis_data_packet <=? len then
    if (rx_field rx 0 =? REMOTE_NDIS_PACKET_MSG) && (rx_field rx 4 <=? len) then
      if (rx_field rx 8 <=? len - rndis_hdr) && (rx_field rx 12 <=? len - rndis_hdr - rx_field rx 8)
      then (rndis_hdr + rx_field rx 8, rx_field rx 12)
      else (0, 0)
    else (0, 0)
  else (0, 0).

Definition handle_incoming_packet `{NetApp} (len : Z) : ST usb unit :=
  let! u := st_get in
  let rx := nb_rx (u_epbuf u) in
  let '(pnt, size) := packet_window (ecm_mode (u_itf u)) rx len in
  let! handled := tud_network_recv_cb (mem_read pnt (u16 size) rx) in
  st_when (negb handled) tud_network_recv_renew.

Definition netd_xfer_cb `{NetApp} (ep_addr xferred_bytes : Z) : ST usb bool :=
  let! u := st_get in
  st_when (ep_addr =? ep_out (u_itf u)) (handle_incoming_packet xferred_bytes) ;;;
  let! u := st_get in
  st_when (ep_addr =? ep_in (u_itf u))
    (if (0 <? xferred_bytes) && (0 =? Z.land xferred_bytes (ep_size (u_itf u) - 1))
     then do_in_xfer None 0
     else st_mod (fun u => u <| u_can_xmit := true |>)) ;;;
  st_ret true.

Definition tud_network_can_xmit (u : usb) : bool := u_can_xmit u.

(** [frame] is what the application's [tud_network_xmit_cb] copies out. *)
Definition tud_network_xmit (frame : list Z) : ST usb unit :=
  let! u := st_get in
  if negb (u_can_xmit u) then st_ret tt
  else
    let ecm := ecm_mode (u_itf u) in
    let prefix := if ecm then 0 else CFG_TUD_NET_PACKET_PREFIX_LEN in
    region_write RTx prefix frame ;;;
    let len := u16 (prefix + zlen frame) in
    st_when (negb ecm)
      (region_write RTx 0 (zeros sizeof_rndis_data_packet) ;;;
       region_write RTx 0 (le_bytes 4 REMOTE_NDIS_PACKET_MSG) ;;;
       region_write RTx 4 (le_bytes 4 len) ;;;
       region_write RTx 8 (le_bytes 4 (sizeof_rndis_data_packet - rndis_hdr)) ;;;
       region_write RTx 12 (le_bytes 4 (len - sizeof_rndis_data_packet))) ;;;
    do_in_xfer (Some (RTx, 0)) len.

Definition tud_network_link_state (is_up : bool) : ST usb unit :=
  let! u := st_get in
  if ecm_mode (u_itf u) then
    st_mod (fun u => u <| u_link_up := is_up |>) ;;;
    netd_report (ecm_notify_bytes
      (mk_request 0xA1 0 (if is_up then 1 else 0) (itf_num (u_itf u)) 0) 0 0) 8
  else st_ret tt.
