(* ===== verification/Rp2040.v ===== *)
(** * Rp2040: the USB device controller driver

    src/src/portable/raspberrypi/rp2040/dcd_rp2040.c and rp2040_usb.c, the driver
    below usbd.c, as configured here: device mode only ([CFG_TUH_ENABLED] is 0), the
    workarounds for the errata E2 and E15 compiled in, no hardware fifo API, VBUS
    detection forced.

    The registers and the DPRAM of the controller are fields of the state [rp2],
    register words as records of the fields the code names. What the Pico SDK and
    the controller itself do is the class [Usbctrl]: the layout of the DPRAM, the
    chip revision, the microsecond timer, how the controller leaves a buffer after a
    transaction and after an abort.

    Each definition runs to its end before the interrupt handler does. The code has no
    lock for that: [hw_endpoint_lock_update] (rp2040_usb.h), called around the accesses to
    an endpoint, is empty, and the interrupt stays enabled in [dcd_edpt_xfer]; an
    interrupt in the middle of that function is outside the model. *)

From S2P Require Import Prelude UsbDev.

(** ** Registers *)

(** One half of a buffer control register: the 16 bits of one buffer. The length is
    that of a packet and stays below the 10 bits of its field. *)
Record buf_ctrl16 := mk_bc {
  bc_full : bool; bc_last : bool; bc_data1 : bool; bc_sel : bool; bc_stall : bool;
  bc_avail : bool; bc_len : Z }.
#[export] Instance eta_bc : Eta buf_ctrl16 := fun b =>
  mk_bc (bc_full b) (bc_last b) (bc_data1 b) (bc_sel b) (bc_stall b) (bc_avail b) (bc_len b).
#[export] Instance bc_eq_dec : EqDecision buf_ctrl16.
Proof. solve_decision. Defined.

Definition bc_zero : buf_ctrl16 := mk_bc false false false false false false 0.

(** A whole register: the halves of buffer 0 and of buffer 1. *)
Definition buf_ctrl32 : Type := buf_ctrl16 * buf_ctrl16.
Definition bc_half (r : buf_ctrl32) (buf_id : Z) : buf_ctrl16 :=
  if buf_id =? 0 then fst r else snd r.
Definition bc_set_half (buf_id : Z) (h : buf_ctrl16) (r : buf_ctrl32) : buf_ctrl32 :=
  if buf_id =? 0 then (h, snd r) else (fst r, h).

(** An endpoint control register. *)
Record ep_ctrl := mk_ec {
  ec_enable : bool; ec_double : bool; ec_int_per_buf : bool; ec_type : Z; ec_offset : Z }.
#[export] Instance eta_ec : Eta ep_ctrl := fun e =>
  mk_ec (ec_enable e) (ec_double e) (ec_int_per_buf e) (ec_type e) (ec_offset e).
Definition ec_zero : ep_ctrl := mk_ec false false false 0 0.

(** The interrupt sources the driver uses. *)
Record ints := mk_ints {
  i_sof : bool; i_buff_status : bool; i_setup : bool; i_bus_reset : bool;
  i_suspend : bool; i_resume : bool }.
#[export] Instance eta_ints : Eta ints := fun i =>
  mk_ints (i_sof i) (i_buff_status i) (i_setup i) (i_bus_reset i) (i_suspend i) (i_resume i).

(** ** State *)

Definition TUSB_SPEED_FULL : Z := 0.
Definition TUSB_XFER_CONTROL : Z := 0.
Definition TUSB_XFER_ISOCHRONOUS : Z := 1.
Definition TUSB_XFER_INTERRUPT : Z := 3.

Inductive epstate := EPSTATE_IDLE | EPSTATE_ACTIVE | EPSTATE_PENDING | EPSTATE_PENDING_SETUP.
#[export] Instance epstate_eq_dec : EqDecision epstate.
Proof. solve_decision. Defined.

(** [hw_endpoint_t]. [dpram_buf] is an offset into the DPRAM, where 0 (the setup
    packet's place) stands for NULL; [user_buf] is an address in main memory. *)
Record hw_endpoint := mk_he {
  he_ep_addr : Z; next_pid : Z; he_state : epstate;
  future_bufid : Z; future_len : Z; e15_bulk_in : bool;
  max_packet_size : Z; dpram_buf : Z; user_buf : Z;
  remaining_len : Z; xferred_len : Z }.
#[export] Instance eta_he : Eta hw_endpoint := fun e =>
  mk_he (he_ep_addr e) (next_pid e) (he_state e) (future_bufid e) (future_len e)
    (e15_bulk_in e) (max_packet_size e) (dpram_buf e) (user_buf e) (remaining_len e)
    (xferred_len e).
Definition he_zero : hw_endpoint := mk_he 0 0 EPSTATE_IDLE 0 0 false 0 0 0 0 0.

Definition USB_MAX_ENDPOINTS : Z := 16.

(** The driver's variables, the registers, the DPRAM and main memory. The
    two-dimensional arrays are indexed by [ep_index]: twice the endpoint number, plus
    1 for IN. [r_pending] holds, for each endpoint, the buffers the controller has
    finished with and the driver has not acknowledged yet, oldest first: BUFF_STATUS
    has the endpoint's bit set while there is one, and BUFF_CPU_SHOULD_HANDLE names
    the oldest. *)
Record rp2 := mk_rp2 {
  hw_endpoints : list hw_endpoint;
  hw_buffer_ptr : Z;
  _sof_enable : bool;
  e15_last_sof : Z;
  r_ep_ctrl : list ep_ctrl;
  r_buf_ctrl : list buf_ctrl32;
  r_pending : list (list Z);
  r_sel : list Z;                     (* the buffer the controller uses next *)
  r_inte : ints;
  r_raw : ints;                       (* the sources before the enable mask *)
  r_host : bool;                      (* MAIN_CTRL.HOST_NDEVICE *)
  r_controller_en : bool;             (* MAIN_CTRL.CONTROLLER_EN *)
  r_pullup : bool;                    (* SIE_CTRL.PULLUP_EN *)
  r_resume : bool;                    (* SIE_CTRL.RESUME *)
  r_vbus : bool;                      (* VBUS detection forced *)
  r_dev_addr : Z;
  r_stall_arm : list Z;               (* EP_STALL_ARM: directions armed *)
  r_aborts : list Z;                  (* bits written to ABORT, newest first *)
  r_irq : bool * bool;                (* handler installed, interrupt enabled *)
  dpram : list Z;
  ram : list Z;
  clock_reads : Z;                    (* how often the timer was read *)
  events : list dcd_event             (* reported to usbd, oldest first *) }.
#[export] Instance eta_rp2 : Eta rp2 := fun s =>
  mk_rp2 (hw_endpoints s) (hw_buffer_ptr s) (_sof_enable s) (e15_last_sof s) (r_ep_ctrl s)
    (r_buf_ctrl s) (r_pending s) (r_sel s) (r_inte s) (r_raw s) (r_host s) (r_controller_en s)
    (r_pullup s) (r_resume s) (r_vbus s) (r_dev_addr s) (r_stall_arm s) (r_aborts s)
    (r_irq s) (dpram s) (ram s) (clock_reads s) (events s).

(** The static variables and the reset values of the registers. *)
Definition no_ints : ints := mk_ints false false false false false false.
Definition rp2_start (mem : list Z) : rp2 :=
  mk_rp2 (replicate 32 he_zero) 0 false 0 (replicate 32 ec_zero) (replicate 32 (bc_zero, bc_zero))
    (replicate 32 []) (replicate 32 0) no_ints no_ints false false false false false 0 [] []
    (false, false) [] mem 0 [].

(** What the SDK and the controller provide. *)
Class Usbctrl := {
  EP0_BUF_A : Z;                      (* usb_dpram->ep0_buf_a *)
  EPX_DATA : Z;                       (* usb_dpram->epx_data *)
  DPRAM_END : Z;                      (* the end of epx_data *)
  rp2040_chip_version : Z;
  time_at : Z -> Z;                   (* the n-th reading of time_us_32() *)
  in_done : buf_ctrl16 -> buf_ctrl16; (* after the host has taken the packet *)
  out_done : Z -> buf_ctrl16 -> buf_ctrl16; (* after the host has sent n bytes *)
  abort_settle : Z -> rp2 -> option rp2;    (* ABORT_DONE seen for a bit; None: never *)
  usbctrl_reset : rp2 -> rp2;               (* reset_block, unreset_block_wait *)
  rp2040_usb_device_enumeration_fix : rp2 -> rp2 }.

Section driver.
Context `{Usbctrl}.

Definition HW (A : Type) : Type := STO rp2 A.

(** Array accesses. *)
Definition get_ep (s : rp2) (i : Z) : hw_endpoint := default he_zero (hw_endpoints s !! Z.to_nat i).
Definition mod_ep (i : Z) (f : hw_endpoint -> hw_endpoint) : HW unit :=
  sto_mod (fun s => s <| hw_endpoints := alter f (Z.to_nat i) (hw_endpoints s) |>).
Definition get_ec (s : rp2) (i : Z) : ep_ctrl := default ec_zero (r_ep_ctrl s !! Z.to_nat i).
Definition set_ec (i : Z) (e : ep_ctrl) : HW unit :=
  sto_mod (fun s => s <| r_ep_ctrl := <[Z.to_nat i := e]> (r_ep_ctrl s) |>).
Definition get_bc (s : rp2) (i : Z) : buf_ctrl32 :=
  default (bc_zero, bc_zero) (r_buf_ctrl s !! Z.to_nat i).
(** Writing SEL makes the controller start again with buffer 0; the bit reads as 0. *)
Definition set_bc (i : Z) (r : buf_ctrl32) : HW unit :=
  sto_mod (fun s =>
    s <| r_buf_ctrl := <[Z.to_nat i := ((fst r) <| bc_sel := false |>, snd r)]> (r_buf_ctrl s) |>
      <| r_sel := if bc_sel (fst r) then <[Z.to_nat i := 0]> (r_sel s) else r_sel s |>).
Definition get_pending (s : rp2) (i : Z) : list Z := default [] (r_pending s !! Z.to_nat i).

(** [hw_endpoint_get], [get_ep_ctrl], [get_buf_ctrl] *)
Definition hw_endpoint_get (epnum dir : Z) : Z := 2 * epnum + dir.
Definition get_ep_ctrl (epnum dir : Z) : option Z :=
  if epnum =? 0 then None else Some (2 * epnum + dir).
Definition get_buf_ctrl (epnum dir : Z) : Z := 2 * epnum + dir.

Definition rp2usb_is_host_mode (s : rp2) : bool := r_host s.

Definition dcd_event_xfer_complete (ep_addr len : Z) : HW unit :=
  sto_mod (fun s => s <| events := events s ++ [EV_XFER_COMPLETE ep_addr 0 len] |>).
Definition dcd_report (e : dcd_event) : HW unit :=
  sto_mod (fun s => s <| events := events s ++ [e] |>).

Definition time_us_32 : HW Z := fun s =>
  Some (time_at (clock_reads s), s <| clock_reads := clock_reads s + 1 |>).

(** ** rp2040_usb.c *)

Definition rp2usb_init : HW unit :=
  sto_mod usbctrl_reset ;?;
  sto_mod (fun s => s <| dpram := zeros DPRAM_END |>
                      <| r_ep_ctrl := replicate 32 ec_zero |>
                      <| r_buf_ctrl := replicate 32 (bc_zero, bc_zero) |>).

Definition rp2usb_reset_transfer (ep : Z) : HW unit :=
  mod_ep ep (fun e => e <| he_state := EPSTATE_IDLE |> <| remaining_len := 0 |>
                        <| xferred_len := 0 |> <| user_buf := 0 |>).

Definition clear_avail (h : buf_ctrl16) : buf_ctrl16 := h <| bc_avail := false |>.

Definition bufctrl_write32 (buf_reg : Z) (value : buf_ctrl32) : HW unit :=
  let? s := sto_get in
  let current := get_bc s buf_reg in
  if (bc_avail (fst current) && bc_avail (fst value)) ||
     (bc_avail (snd current) && bc_avail (snd value)) then sto_stop
  else
    set_bc buf_reg (clear_avail (fst value), clear_avail (snd value)) ;?;
    sto_when (bc_avail (fst value) || bc_avail (snd value)) (set_bc buf_reg value).

Definition bufctrl_write16 (buf_reg buf_id : Z) (value : buf_ctrl16) : HW unit :=
  let? s := sto_get in
  let current := get_bc s buf_reg in
  if bc_avail (bc_half current buf_id) && bc_avail value then sto_stop
  else
    set_bc buf_reg (bc_set_half buf_id (clear_avail value) current) ;?;
    sto_when (bc_avail value) (set_bc buf_reg (bc_set_half buf_id value current)).

(** [buf] is the offset of the hardware buffer. *)
Definition bufctrl_prepare16 (ep buf : Z) (is_rx : bool) : HW buf_ctrl16 :=
  let? s := sto_get in
  let e := get_ep s ep in
  let buflen := Z.min (remaining_len e) (max_packet_size e) in
  mod_ep ep (fun e => e <| remaining_len := u16 (remaining_len e - buflen) |>
                        <| next_pid := Z.lxor (next_pid e) 1 |>) ;?;
  sto_when (negb is_rx && negb (buflen =? 0))
    (sto_mod (fun s => s <| dpram := mem_write buf (mem_read (user_buf e) buflen (ram s)) (dpram s) |>) ;?;
     mod_ep ep (fun e => e <| user_buf := user_buf e + buflen |>)) ;?;
  let? s := sto_get in
  sto_ret (mk_bc (negb is_rx) (remaining_len (get_ep s ep) =? 0) (negb (next_pid e =? 0))
             false false true buflen).

Definition rp2usb_buffer_start (ep : Z) (ep_reg : option Z) (buf_reg : Z) (is_rx : bool) : HW unit :=
  let? s := sto_get in
  let buf := dpram_buf (get_ep s ep) in
  let? buf0 := bufctrl_prepare16 ep buf is_rx in
  let buf0 := buf0 <| bc_sel := true |> in
  let? buf1 :=
    match ep_reg with
    | None => sto_ret bc_zero
    | Some r =>
        let? s := sto_get in
        let ec := get_ec s r in
        let is_iso := ec_type ec =? TUSB_XFER_ISOCHRONOUS in
        if negb (remaining_len (get_ep s ep) =? 0) && negb is_iso then
          let? buf1 := bufctrl_prepare16 ep (buf + 64) is_rx in
          set_ec r (ec <| ec_double := true |>) ;?;
          sto_ret buf1
        else
          set_ec r (ec <| ec_double := false |>) ;?;
          sto_ret bc_zero
    end in
  bufctrl_write32 buf_reg (buf0, buf1).

(** The last fifth of a USB frame. *)
Definition e15_is_critical_frame_period : HW bool :=
  let? now := time_us_32 in
  let? s := sto_get in
  let delta := u32 (now - e15_last_sof s) in
  sto_ret (negb ((delta <? 800) || (998 <? delta))).

Definition rp2usb_xfer_start (ep : Z) (ep_reg : option Z) (buf_reg buffer total_len : Z) : HW unit :=
  let? s := sto_get in
  sto_when (bool_decide (he_state (get_ep s ep) = EPSTATE_ACTIVE)) (rp2usb_reset_transfer ep) ;?;
  mod_ep ep (fun e => e <| remaining_len := total_len |> <| xferred_len := 0 |>
                        <| he_state := EPSTATE_ACTIVE |> <| user_buf := buffer |>) ;?;
  let is_host := rp2usb_is_host_mode s in
  let is_rx := Bool.eqb is_host (tu_edpt_dir (he_ep_addr (get_ep s ep)) =? TUSB_DIR_IN) in
  let? completed :=
    if negb is_host && (0 <? future_len (get_ep s ep)) then
      let e := get_ep s ep in
      let len := future_len e in
      sto_mod (fun s => s <| ram := mem_write buffer
        (mem_read (dpram_buf e + Z.shiftl (future_bufid e) 6) len (dpram s)) (ram s) |>) ;?;
      mod_ep ep (fun e => e <| xferred_len := u16 (xferred_len e + len) |>
                            <| remaining_len := u16 (remaining_len e - len) |>
                            <| user_buf := user_buf e + len |>
                            <| future_len := 0 |> <| future_bufid := 0 |>) ;?;
      let? s := sto_get in
      if remaining_len (get_ep s ep) =? 0 then
        rp2usb_reset_transfer ep ;?;
        dcd_event_xfer_complete (he_ep_addr e) (xferred_len (get_ep s ep)) ;?;
        sto_ret true
      else sto_ret false
    else sto_ret false in
  if completed then sto_ret tt
  else
    let? s := sto_get in
    let? deferred :=
      if e15_bulk_in (get_ep s ep) then
        sto_mod (fun s => s <| r_inte := (r_inte s) <| i_sof := true |> |>) ;?;
        let? critical := e15_is_critical_frame_period in
        sto_when critical (mod_ep ep (fun e => e <| he_state := EPSTATE_PENDING |>)) ;?;
        sto_ret critical
      else sto_ret false in
    if deferred then sto_ret tt else rp2usb_buffer_start ep ep_reg buf_reg is_rx.

(** The bytes moved by one buffer; a failed [assert] stops. *)
Definition bufctrl_sync16 (ep : Z) (is_rx : bool) (buf_ctrl : buf_ctrl16) (buf : Z) : HW Z :=
  let xferred_bytes := bc_len buf_ctrl in
  let? s := sto_get in
  (if is_rx then
     if negb (bc_full buf_ctrl) then sto_stop
     else
       sto_mod (fun s => s <| ram := mem_write (user_buf (get_ep s ep))
         (mem_read buf xferred_bytes (dpram s)) (ram s) |>) ;?;
       mod_ep ep (fun e => e <| user_buf := user_buf e + xferred_bytes |>)
   else if bc_full buf_ctrl then sto_stop else sto_ret tt) ;?;
  mod_ep ep (fun e => e <| xferred_len := u16 (xferred_len e + xferred_bytes) |>) ;?;
  sto_when (xferred_bytes <? max_packet_size (get_ep s ep))
    (mod_ep ep (fun e => e <| remaining_len := 0 |>)) ;?;
  sto_ret xferred_bytes.

Definition hw_abort (b : Z) : HW unit := fun s =>
  match abort_settle b (s <| r_aborts := b :: r_aborts s |>) with
  | Some s => Some (tt, s)
  | None => None
  end.

(** The abort of the other half after a short packet. *)
Definition abort_other_half (ep buf_reg buf_id : Z) : HW unit :=
  let? s := sto_get in
  let abort_bit := Z.shiftl (tu_edpt_number (he_ep_addr (get_ep s ep))) 1 in
  sto_when (2 <=? rp2040_chip_version) (hw_abort abort_bit) ;?;
  let? s := sto_get in
  let other := bc_half (get_bc s buf_reg) (Z.lxor buf_id 1) in
  (if bc_full other
   then mod_ep ep (fun e => e <| future_len := u8 (bc_len other) |>
                              <| future_bufid := Z.lxor buf_id 1 |>)
   else mod_ep ep (fun e => e <| next_pid := Z.lxor (next_pid e) 1 |>)) ;?;
  set_bc buf_reg (bc_zero, bc_zero).

(** In device mode; whether the transfer is complete. *)
Definition rp2usb_xfer_continue (ep : Z) (ep_reg : option Z) (buf_reg buf_id : Z) (is_rx : bool)
    : HW bool :=
  let? s := sto_get in
  if bool_decide (he_state (get_ep s ep) = EPSTATE_IDLE) then sto_ret false
  else
    let is_double := match ep_reg with None => false | Some r => ec_double (get_ec s r) end in
    let buf := if negb (buf_id =? 0) then dpram_buf (get_ep s ep) + 64 else dpram_buf (get_ep s ep) in
    let ctrl := bc_half (get_bc s buf_reg) buf_id in
    let? xact_bytes := bufctrl_sync16 ep is_rx ctrl buf in
    let is_last := bc_last ctrl in
    let is_short := xact_bytes <? max_packet_size (get_ep s ep) in
    let is_done := is_short || is_last in
    if is_short && is_double && is_rx && negb is_last then
      abort_other_half ep buf_reg buf_id ;?;
      sto_ret true
    else
      let? s := sto_get in
      sto_when (negb is_done && (0 <? remaining_len (get_ep s ep)))
        (let need_e15 := e15_bulk_in (get_ep s ep) in
         let? critical := if need_e15 then e15_is_critical_frame_period else sto_ret false in
         if need_e15 && critical then
           mod_ep ep (fun e => e <| he_state := EPSTATE_PENDING |>)
         else if need_e15 && bool_decide (he_state (get_ep s ep) = EPSTATE_PENDING) then sto_ret tt
         else
           let? new := bufctrl_prepare16 ep buf is_rx in
           bufctrl_write16 buf_reg buf_id new) ;?;
      sto_ret is_done.

(** ** dcd_rp2040.c: endpoints *)

Definition tu_round_up (v f : Z) : Z := (v + f - 1) / f * f.

Definition hw_endpoint_open (ep_addr wMaxPacketSize transfer_type : Z) (ep_enabled : bool) : HW unit :=
  let epnum := tu_edpt_number ep_addr in
  let dir := tu_edpt_dir ep_addr in
  let ep := hw_endpoint_get epnum dir in
  mod_ep ep (fun e => e <| he_ep_addr := ep_addr |> <| next_pid := 0 |>
                        <| max_packet_size := wMaxPacketSize |>) ;?;
  set_bc (get_buf_ctrl epnum dir) (bc_zero, bc_zero) ;?;
  match get_ep_ctrl epnum dir with
  | None => mod_ep ep (fun e => e <| dpram_buf := EP0_BUF_A |>)
  | Some r =>
      let size := u16 (tu_round_up wMaxPacketSize 64) in
      let is_bulk := transfer_type =? TUSB_XFER_BULK in
      let size := if is_bulk then u16 (size * 2) else size in
      sto_when (is_bulk && (dir =? TUSB_DIR_IN)) (mod_ep ep (fun e => e <| e15_bulk_in := true |>)) ;?;
      let? s := sto_get in
      let buf := hw_buffer_ptr s in
      mod_ep ep (fun e => e <| dpram_buf := buf |>) ;?;
      sto_mod (fun s => s <| hw_buffer_ptr := buf + size |>) ;?;
      set_ec r (mk_ec ep_enabled false true transfer_type buf) ;?;
      (* hard_assert *)
      if buf + size <? DPRAM_END then sto_ret tt else sto_stop
  end.

Definition hw_endpoint_abort_xfer (ep : Z) : HW unit :=
  let? s := sto_get in
  let dir := tu_edpt_dir (he_ep_addr (get_ep s ep)) in
  let epnum := tu_edpt_number (he_ep_addr (get_ep s ep)) in
  let abort_bit := Z.lor (Z.shiftl epnum 1) (if negb (dir =? 0) then 0 else 1) in
  sto_when (2 <=? rp2040_chip_version) (hw_abort abort_bit) ;?;
  set_bc (get_buf_ctrl epnum dir) (bc_zero, bc_zero) ;?;
  rp2usb_reset_transfer ep.

(** Bit [i] of BUFF_STATUS: IN for even [i], OUT for odd. *)
Definition status_ep (i : Z) : Z :=
  hw_endpoint_get (Z.shiftr i 1) (if Z.odd i then TUSB_DIR_OUT else TUSB_DIR_IN).

(** [while (usb_hw->buf_status & bit)]; clearing the bit acknowledges the oldest
    finished buffer, and the bit is set again while there is another. *)
Fixpoint buff_status_bit (fuel : nat) (i : Z) : HW unit := fun s =>
  let epnum := Z.shiftr i 1 in
  let dir := if Z.odd i then TUSB_DIR_OUT else TUSB_DIR_IN in
  let ep := hw_endpoint_get epnum dir in
  match get_pending s ep with
  | [] => Some (tt, s)
  | buf_id :: rest =>
      match fuel with
      | O => None
      | S fuel =>
          (sto_mod (fun s => s <| r_pending := <[Z.to_nat ep := rest]> (r_pending s) |>) ;?;
           let? complete := rp2usb_xfer_continue ep (get_ep_ctrl epnum dir) (get_buf_ctrl epnum dir)
                              buf_id (dir =? TUSB_DIR_OUT) in
           let? s := sto_get in
           sto_when complete
             (rp2usb_reset_transfer ep ;?;
              dcd_event_xfer_complete (he_ep_addr (get_ep s ep)) (xferred_len (get_ep s ep))) ;?;
           buff_status_bit fuel i) s
      end
  end.

(** The set bits of BUFF_STATUS are taken in ascending order. *)
Definition buf_status (s : rp2) : list Z :=
  filter (fun i => get_pending s (status_ep i) <> []) (seqZ 0 32).

Definition handle_hw_buff_status : HW unit :=
  let? s := sto_get in
  sto_iter (fun i =>
    let? s := sto_get in
    buff_status_bit (length (get_pending s (status_ep i)) + 2) i) (buf_status s).

Definition reset_ep0 : HW unit :=
  sto_iter (fun dir =>
    mod_ep (hw_endpoint_get 0 dir) (fun e => e <| next_pid := 1 |>) ;?;
    let? s := sto_get in
    sto_when (bool_decide (he_state (get_ep s (hw_endpoint_get 0 dir)) = EPSTATE_ACTIVE))
      (hw_endpoint_abort_xfer (hw_endpoint_get 0 dir))) [0; 1].

Definition reset_non_control_endpoints : HW unit :=
  sto_mod (fun s =>
    s <| r_ep_ctrl := take 2 (r_ep_ctrl s) ++ replicate 30 ec_zero |>
      <| hw_endpoints := take 2 (hw_endpoints s) ++ replicate 30 he_zero |>
      <| hw_buffer_ptr := EPX_DATA |>).

(** ** The interrupt handler *)

Definition setup_request (b : list Z) : control_request :=
  mk_request (mem_get b 0) (mem_get b 1) (le_val (mem_read 2 2 b)) (le_val (mem_read 4 2 b))
    (le_val (mem_read 6 2 b)).

(** Start of frame: what a deferred Bulk IN endpoint had to send is made available. *)
Definition bc_idle (h : buf_ctrl16) : bool := negb (bc_full h || bc_avail h).

Definition e15_resume (i : Z) : HW unit :=
  let ep := hw_endpoint_get i TUSB_DIR_IN in
  let buf_reg := get_buf_ctrl i TUSB_DIR_IN in
  mod_ep ep (fun e => e <| he_state := EPSTATE_ACTIVE |>) ;?;
  let? s := sto_get in
  let e := get_ep s ep in
  let buf0_idle := bc_idle (fst (get_bc s buf_reg)) in
  let buf1_idle := (0 <? remaining_len e) && bc_idle (snd (get_bc s buf_reg)) in
  if buf0_idle && buf1_idle then
    rp2usb_buffer_start ep (get_ep_ctrl i TUSB_DIR_IN) buf_reg false
  else if buf0_idle then
    let? buf0 := bufctrl_prepare16 ep (dpram_buf e) false in
    bufctrl_write16 buf_reg 0 buf0
  else if buf1_idle then
    let? buf1 := bufctrl_prepare16 ep (dpram_buf e + 64) false in
    bufctrl_write16 buf_reg 1 buf1
  else sto_ret tt.

(** The loop over the endpoints; whether the SOF interrupt is still needed. *)
Fixpoint e15_sof_loop (l : list Z) (keep_sof_alive : bool) : HW bool :=
  match l with
  | [] => sto_ret keep_sof_alive
  | i :: l =>
      let? s := sto_get in
      let e := get_ep s (hw_endpoint_get i TUSB_DIR_IN) in
      if e15_bulk_in e && negb (bool_decide (he_state e = EPSTATE_IDLE)) then
        sto_when (bool_decide (he_state e = EPSTATE_PENDING)) (e15_resume i) ;?;
        e15_sof_loop l true
      else e15_sof_loop l keep_sof_alive
  end.

Definition ints_and (a b : ints) : ints :=
  mk_ints (i_sof a && i_sof b) (i_buff_status a && i_buff_status b) (i_setup a && i_setup b)
    (i_bus_reset a && i_bus_reset b) (i_suspend a && i_suspend b) (i_resume a && i_resume b).

(** INTS: the sources that are raised and enabled. *)
Definition ints_status (s : rp2) : ints :=
  ints_and ((r_raw s) <| i_buff_status := negb (bool_decide (buf_status s = [])) |>) (r_inte s).

Definition clear_raw (f : ints -> ints) : HW unit := sto_mod (fun s => s <| r_raw := f (r_raw s) |>).

(** [sof_rd] is the frame number the controller holds. *)
Definition dcd_rp2040_irq (sof_rd : Z) : HW unit :=
  let? s := sto_get in
  let status := ints_status s in
  sto_when (i_sof status)
    (clear_raw (fun r => r <| i_sof := false |>) ;?;
     let? now := time_us_32 in
     sto_mod (fun s => s <| e15_last_sof := now |>) ;?;
     dcd_report (EV_SOF sof_rd)) ;?;
  sto_when (i_buff_status status) handle_hw_buff_status ;?;
  sto_when (i_setup status)
    (reset_ep0 ;?;
     let? s := sto_get in
     dcd_report (EV_SETUP_RECEIVED (setup_request (mem_read 0 8 (dpram s)))) ;?;
     clear_raw (fun r => r <| i_setup := false |>)) ;?;
  sto_when (i_sof status)
    (let? keep_sof_alive := e15_sof_loop (seqZ 0 16) false in
     let? s := sto_get in
     sto_when (negb keep_sof_alive && negb (_sof_enable s))
       (sto_mod (fun s => s <| r_inte := (r_inte s) <| i_sof := false |> |>))) ;?;
  sto_when (i_bus_reset status)
    (sto_mod (fun s => s <| r_dev_addr := 0 |>) ;?;
     reset_non_control_endpoints ;?;
     dcd_report (EV_BUS_RESET_END TUSB_SPEED_FULL) ;?;
     clear_raw (fun r => r <| i_bus_reset := false |>) ;?;
     let? s := sto_get in
     sto_when (r_pullup s) (sto_mod rp2040_usb_device_enumeration_fix)) ;?;
  sto_when (i_suspend status)
    (dcd_report EV_SUSPEND ;?; clear_raw (fun r => r <| i_suspend := false |>)) ;?;
  sto_when (i_resume status)
    (dcd_report EV_RESUME ;?; clear_raw (fun r => r <| i_resume := false |>)).

(** ** The controller API *)

Definition dcd_connect : HW unit := sto_mod (fun s => s <| r_pullup := true |>).
Definition dcd_disconnect : HW unit := sto_mod (fun s => s <| r_pullup := false |>).
Definition dcd_int_enable : HW unit := sto_mod (fun s => s <| r_irq := (fst (r_irq s), true) |>).
Definition dcd_int_disable : HW unit := sto_mod (fun s => s <| r_irq := (fst (r_irq s), false) |>).

Definition dcd_init : HW bool :=
  rp2usb_init ;?;
  sto_mod (fun s => s <| r_vbus := true |> <| r_irq := (true, snd (r_irq s)) |>
                      <| hw_endpoints := replicate 2 he_zero ++ drop 2 (hw_endpoints s) |>) ;?;
  hw_endpoint_open 0 64 TUSB_XFER_CONTROL false ;?;
  hw_endpoint_open 128 64 TUSB_XFER_CONTROL false ;?;
  reset_non_control_endpoints ;?;
  sto_mod (fun s => s <| r_host := false |> <| r_controller_en := true |>
                      <| r_pullup := false |> <| r_resume := false |>
                      <| r_inte := mk_ints false true true true true true |>) ;?;
  dcd_connect ;?;
  sto_ret true.

Definition dcd_deinit : HW bool :=
  reset_non_control_endpoints ;?;
  sto_mod (fun s => s <| r_irq := (false, snd (r_irq s)) |>) ;?;
  sto_mod usbctrl_reset ;?;
  sto_ret true.

Definition dcd_edpt_xfer (ep_addr buffer total_bytes : Z) : HW bool :=
  let epnum := tu_edpt_number ep_addr in
  let dir := tu_edpt_dir ep_addr in
  rp2usb_xfer_start (hw_endpoint_get epnum dir) (get_ep_ctrl epnum dir) (get_buf_ctrl epnum dir)
    buffer total_bytes ;?;
  sto_ret true.

Definition dcd_set_address (dev_addr : Z) : HW unit :=
  dcd_edpt_xfer 128 0 0 ;?; sto_ret tt.

Definition dcd_remote_wakeup : HW unit :=
  sto_mod (fun s => s <| r_inte := (r_inte s) <| i_sof := true |> |> <| r_resume := true |>).

Definition dcd_sof_enable (en : bool) : HW unit :=
  sto_mod (fun s => s <| _sof_enable := en |>) ;?;
  sto_when en (sto_mod (fun s => s <| r_inte := (r_inte s) <| i_sof := true |> |>)).

Definition dcd_edpt0_status_complete (r : control_request) : HW unit :=
  sto_when ((req_recipient r =? 0) && (req_type r =? TUSB_REQ_TYPE_STANDARD) &&
            (bRequest r =? TUSB_REQ_SET_ADDRESS))
    (sto_mod (fun s => s <| r_dev_addr := u8 (wValue r) |>)).

(** [d] holds the endpoint descriptor at [p]. *)
Definition dcd_edpt_open (d : list Z) (p : Z) : HW bool :=
  hw_endpoint_open (bEndpointAddress d p) (tu_edpt_packet_size d p) (ep_bmAttributes_xfer d p) true ;?;
  sto_ret true.

Definition dcd_edpt_iso_alloc (ep_addr largest_packet_size : Z) : HW bool :=
  hw_endpoint_open ep_addr largest_packet_size TUSB_XFER_ISOCHRONOUS false ;?; sto_ret true.

Definition dcd_edpt_iso_activate (d : list Z) (p : Z) : HW bool :=
  let epnum := tu_edpt_number (bEndpointAddress d p) in
  let dir := tu_edpt_dir (bEndpointAddress d p) in
  let ep := hw_endpoint_get epnum dir in
  let? s := sto_get in
  if dpram_buf (get_ep s ep) =? 0 then sto_ret false
  else
    sto_when (bool_decide (he_state (get_ep s ep) = EPSTATE_ACTIVE)) (hw_endpoint_abort_xfer ep) ;?;
    mod_ep ep (fun e => e <| max_packet_size := le_val (mem_read (p + 4) 2 d) |>) ;?;
    match get_ep_ctrl epnum dir with
    | None => sto_ret true
    | Some r =>
        let? s := sto_get in
        set_ec r ((get_ec s r) <| ec_enable := true |>) ;?; sto_ret true
    end.

Definition dcd_edpt_close_all : HW unit := reset_non_control_endpoints.

Definition dcd_edpt_stall (ep_addr : Z) : HW unit :=
  let epnum := tu_edpt_number ep_addr in
  let dir := tu_edpt_dir ep_addr in
  sto_when (epnum =? 0) (sto_mod (fun s => s <| r_stall_arm := dir :: r_stall_arm s |>)) ;?;
  hw_endpoint_abort_xfer (hw_endpoint_get epnum dir) ;?;
  set_bc (get_buf_ctrl epnum dir) (bc_zero <| bc_stall := true |>, bc_zero).

(** The bytes of the buffers still armed. *)
Definition staged_bytes (r : buf_ctrl32) : Z :=
  let staged := if bc_avail (fst r) then bc_len (fst r) else 0 in
  if bc_avail (snd r) then u16 (staged + bc_len (snd r)) else staged.

Definition dcd_edpt_clear_stall (ep_addr : Z) : HW unit :=
  let epnum := tu_edpt_number ep_addr in
  let dir := tu_edpt_dir ep_addr in
  let ep := hw_endpoint_get epnum dir in
  if epnum =? 0 then sto_ret tt
  else
    let? s := sto_get in
    let e := get_ep s ep in
    if bool_decide (he_state e = EPSTATE_ACTIVE) then
      let staged := staged_bytes (get_bc s (get_buf_ctrl epnum dir)) in
      let remaining := u16 (remaining_len e + staged) in
      let buf := if dir =? TUSB_DIR_IN then user_buf e - staged else user_buf e in
      hw_endpoint_abort_xfer ep ;?;
      mod_ep ep (fun e => e <| next_pid := 0 |>) ;?;
      rp2usb_xfer_start ep (get_ep_ctrl epnum dir) (get_buf_ctrl epnum dir) buf remaining ;?;
      mod_ep ep (fun e' => e' <| xferred_len := u16 (xferred_len e' + xferred_len e) |>)
    else
      mod_ep ep (fun e => e <| next_pid := 0 |>) ;?;
      set_bc (get_buf_ctrl epnum dir) (bc_zero, bc_zero).

End driver.
