(* ===== verification/Rp2040View.v ===== *)
(** * Rp2040View: the controller driver seen from one endpoint

    A transfer touches one endpoint's slot of each array of [rp2] and the global
    fields. [view] gathers these, [put i v s] is the state [s] with endpoint [i]'s
    view replaced by [v], and each operation of the driver on endpoint [i] is shown
    to take [put i v s] to [put i v' s]: what is outside the view is untouched by
    construction. The laws of the controller that the proofs use are [UsbctrlOk]. *)

From S2P Require Import Prelude UsbDev Rp2040.

(** What the data sheet says of the controller, as far as the driver relies on it. *)
Class UsbctrlOk `{Usbctrl} : Prop := {
  dpram_layout : 8 <= EP0_BUF_A /\ EP0_BUF_A + 64 <= EPX_DATA /\ EPX_DATA <= DPRAM_END;
  in_done_spec h :
    bc_full (in_done h) = false /\ bc_avail (in_done h) = false /\
    bc_len (in_done h) = bc_len h /\ bc_last (in_done h) = bc_last h /\
    bc_sel (in_done h) = bc_sel h;
  out_done_spec n h :
    bc_full (out_done n h) = true /\ bc_avail (out_done n h) = false /\
    bc_len (out_done n h) = n /\ bc_last (out_done n h) = bc_last h /\
    bc_sel (out_done n h) = bc_sel h;
  abort_idle b s :
    bc_avail (fst (get_bc s (status_ep b))) = false -> bc_avail (snd (get_bc s (status_ep b))) = false ->
    abort_settle b s = Some s }.

(** The RP2040's layout, with a controller that does no more than these laws say: a
    timer that runs 300 microseconds between readings, and aborts that find nothing
    to finish. *)
#[export] Instance demo_ctrl : Usbctrl := {|
  EP0_BUF_A := 256; EPX_DATA := 384; DPRAM_END := 4096; rp2040_chip_version := 2;
  time_at := fun k => 300 * k;
  in_done := fun h => h <| bc_full := false |> <| bc_avail := false |>;
  out_done := fun n h => h <| bc_full := true |> <| bc_avail := false |> <| bc_len := n |>;
  abort_settle := fun _ s => Some s;
  usbctrl_reset := fun s => s <| r_inte := no_ints |> <| r_raw := no_ints |>;
  rp2040_usb_device_enumeration_fix := fun s => s |}.
#[export] Instance demo_ctrl_ok : UsbctrlOk.
Proof. by split. Qed.

Record view := mk_view {
  v_ep : hw_endpoint; v_ec : ep_ctrl; v_bc : buf_ctrl32; v_pend : list Z; v_sel : Z;
  v_dpram : list Z; v_ram : list Z; v_events : list dcd_event; v_inte : ints; v_raw : ints;
  v_last_sof : Z; v_clock : Z; v_aborts : list Z }.
#[export] Instance eta_view : Eta view := fun v =>
  mk_view (v_ep v) (v_ec v) (v_bc v) (v_pend v) (v_sel v) (v_dpram v) (v_ram v) (v_events v)
    (v_inte v) (v_raw v) (v_last_sof v) (v_clock v) (v_aborts v).

Definition put (i : Z) (v : view) (s : rp2) : rp2 :=
  mk_rp2 (<[Z.to_nat i := v_ep v]> (hw_endpoints s)) (hw_buffer_ptr s) (_sof_enable s) (v_last_sof v)
    (<[Z.to_nat i := v_ec v]> (r_ep_ctrl s)) (<[Z.to_nat i := v_bc v]> (r_buf_ctrl s))
    (<[Z.to_nat i := v_pend v]> (r_pending s)) (<[Z.to_nat i := v_sel v]> (r_sel s))
    (v_inte v) (v_raw v) (r_host s) (r_controller_en s) (r_pullup s) (r_resume s) (r_vbus s)
    (r_dev_addr s) (r_stall_arm s) (v_aborts v) (r_irq s) (v_dpram v) (v_ram v) (v_clock v)
    (v_events v).

(** The arrays have their 32 slots. *)
Definition sized (s : rp2) : Prop :=
  length (hw_endpoints s) = 32%nat /\ length (r_ep_ctrl s) = 32%nat /\
  length (r_buf_ctrl s) = 32%nat /\ length (r_pending s) = 32%nat /\ length (r_sel s) = 32%nat.

Definition get_sel (s : rp2) (i : Z) : Z := default 0 (r_sel s !! Z.to_nat i).
Definition view_of (i : Z) (s : rp2) : view :=
  mk_view (get_ep s i) (get_ec s i) (get_bc s i) (get_pending s i) (get_sel s i)
    (dpram s) (ram s) (events s) (r_inte s) (r_raw s) (e15_last_sof s) (clock_reads s) (r_aborts s).

Lemma alter_insert_eq {A} (f : A -> A) k x (l : list A) : alter f k (<[k := x]> l) = <[k := f x]> l.
Proof. revert k. induction l as [|y l IH]; intros [|k]; cbn; [done..|]. f_equal. apply IH. Qed.

Section view.
Context `{Usbctrl} (i : Z) (s : rp2) (Hi : 0 <= i < 32) (Hs : sized s).

Lemma put_view_of : put i (view_of i s) s = s.
Proof.
  assert (forall A (l : list A) d, length l = 32%nat -> <[Z.to_nat i:=default d (l !! Z.to_nat i)]> l = l) as E.
  { intros A l d Hl. apply list_insert_id.
    destruct (lookup_lt_is_Some_2 l (Z.to_nat i)) as [x Hx]; [lia|]. by rewrite Hx. }
  destruct Hs as (H1 & H2 & H3 & H4 & H5). unfold put, view_of, get_ep, get_ec, get_bc, get_pending, get_sel.
  destruct s; cbn in *. rewrite !E by done. done.
Qed.

Ltac slots :=
  destruct Hs as (? & ? & ? & ? & ?); unfold get_ep, get_ec, get_bc, get_pending, get_sel, put; cbn;
  rewrite list_lookup_insert_eq by (unfold buf_ctrl32 in *; lia); done.

Lemma get_ep_put v : get_ep (put i v s) i = v_ep v.
Proof using Hi Hs. slots. Qed.
Lemma get_ec_put v : get_ec (put i v s) i = v_ec v.
Proof using Hi Hs. slots. Qed.
Lemma get_bc_put v : get_bc (put i v s) i = v_bc v.
Proof using Hi Hs. slots. Qed.
Lemma get_pending_put v : get_pending (put i v s) i = v_pend v.
Proof using Hi Hs. slots. Qed.
Lemma get_sel_put v : get_sel (put i v s) i = v_sel v.
Proof using Hi Hs. slots. Qed.

(** The writes of the driver, on views. *)
Lemma put_dpram v x : (put i v s) <| dpram := x |> = put i (v <| v_dpram := x |>) s.
Proof using. done. Qed.
Lemma put_ram v x : (put i v s) <| ram := x |> = put i (v <| v_ram := x |>) s.
Proof using. done. Qed.
Lemma put_events v x : (put i v s) <| events := x |> = put i (v <| v_events := x |>) s.
Proof using. done. Qed.
Lemma put_inte v x : (put i v s) <| r_inte := x |> = put i (v <| v_inte := x |>) s.
Proof using. done. Qed.
Lemma put_raw v x : (put i v s) <| r_raw := x |> = put i (v <| v_raw := x |>) s.
Proof using. done. Qed.
Lemma put_aborts v x : (put i v s) <| r_aborts := x |> = put i (v <| v_aborts := x |>) s.
Proof using. done. Qed.
Lemma put_last_sof v x : (put i v s) <| e15_last_sof := x |> = put i (v <| v_last_sof := x |>) s.
Proof using. done. Qed.

Lemma swp_mod_ep f v (Q : unit -> rp2 -> Prop) :
  Q tt (put i (v <| v_ep := f (v_ep v) |>) s) -> sto_wp (mod_ep i f) Q (put i v s).
Proof using Hi Hs.
  intros HQ. unfold mod_ep. swp_step. destruct Hs as (? & ? & ? & ? & ?).
  unfold put in *; cbn in *. rewrite alter_insert_eq. done.
Qed.

Lemma swp_set_ec e v (Q : unit -> rp2 -> Prop) :
  Q tt (put i (v <| v_ec := e |>) s) -> sto_wp (set_ec i e) Q (put i v s).
Proof using. intros HQ. unfold set_ec. swp_step. unfold put in *; cbn in *. by rewrite list_insert_insert_eq. Qed.

Definition bc_written (r : buf_ctrl32) (v : view) : view :=
  v <| v_bc := ((fst r) <| bc_sel := false |>, snd r) |>
    <| v_sel := if bc_sel (fst r) then 0 else v_sel v |>.

Lemma swp_set_bc r v (Q : unit -> rp2 -> Prop) :
  Q tt (put i (bc_written r v) s) -> sto_wp (set_bc i r) Q (put i v s).
Proof using.
  intros HQ. unfold set_bc. swp_step. unfold put, bc_written in *; cbn in *. rewrite list_insert_insert_eq.
  destruct (bc_sel (fst r)); rewrite ?list_insert_insert_eq; done.
Qed.

Lemma swp_set_pending l v (Q : unit -> rp2 -> Prop) :
  Q tt (put i (v <| v_pend := l |>) s) ->
  sto_wp (sto_mod (fun s => s <| r_pending := <[Z.to_nat i := l]> (r_pending s) |>)) Q (put i v s).
Proof using. intros HQ. swp_step. unfold put in *; cbn in *. by rewrite list_insert_insert_eq. Qed.

Lemma swp_time_us_32 v (Q : Z -> rp2 -> Prop) :
  Q (time_at (v_clock v)) (put i (v <| v_clock := v_clock v + 1 |>) s) -> sto_wp time_us_32 Q (put i v s).
Proof using. intros HQ. exact HQ. Qed.

Lemma swp_e15_critical v (Q : bool -> rp2 -> Prop) :
  (forall b, Q b (put i (v <| v_clock := v_clock v + 1 |>) s)) ->
  sto_wp e15_is_critical_frame_period Q (put i v s).
Proof using. intros HQ. unfold e15_is_critical_frame_period. swp_step. apply swp_time_us_32. repeat swp_step. apply HQ. Qed.

(** [bufctrl_prepare16] *)
Definition prepared_len (v : view) : Z := Z.min (remaining_len (v_ep v)) (max_packet_size (v_ep v)).
Definition prepared_half (v : view) (is_rx : bool) : buf_ctrl16 :=
  let n := prepared_len v in
  mk_bc (negb is_rx) (u16 (remaining_len (v_ep v) - n) =? 0) (negb (next_pid (v_ep v) =? 0))
    false false true n.
Definition prepared (v : view) (buf : Z) (is_rx : bool) : view :=
  let n := prepared_len v in
  let e := v_ep v in
  v <| v_ep := e <| remaining_len := u16 (remaining_len e - n) |> <| next_pid := Z.lxor (next_pid e) 1 |>
                 <| user_buf := if is_rx then user_buf e else user_buf e + n |> |>
    <| v_dpram := if is_rx then v_dpram v else mem_write buf (mem_read (user_buf e) n (v_ram v)) (v_dpram v) |>.

Lemma swp_prepare16 v buf is_rx (Q : buf_ctrl16 -> rp2 -> Prop) :
  Q (prepared_half v is_rx) (put i (prepared v buf is_rx) s) ->
  sto_wp (bufctrl_prepare16 i buf is_rx) Q (put i v s).
Proof using Hi Hs.
  intros HQ. unfold bufctrl_prepare16. swp_step. swp_step. rewrite get_ep_put.
  swp_step. apply swp_mod_ep. swp_step. swp_step.
  - bool_prop. destruct is_rx; [done|]. swp_step. swp_step.
    rewrite put_dpram. apply swp_mod_ep. swp_step. swp_step. rewrite get_ep_put.
    swp_step. exact HQ.
  - swp_step. swp_step. rewrite get_ep_put. swp_step.
    match goal with |- Q ?h (put i ?w s) => cut (h = prepared_half v is_rx /\ w = prepared v buf is_rx) end.
    { intros [-> ->]. exact HQ. }
    split; [done|]. unfold prepared. destruct is_rx; [by destruct v as [[]]|].
    bool_prop. destruct H0 as [?|H0]; [done|]. bool_prop. fold (prepared_len v) in H0.
    fold (prepared_len v). rewrite H0. destruct v as [[]]; cbn. rewrite Z.add_0_r.
    unfold mem_read, mem_write; cbn. done.
Qed.

(** [bufctrl_write32] and [bufctrl_write16] of a word that makes no armed buffer
    available again. *)
Lemma swp_write32 v r (Q : unit -> rp2 -> Prop) :
  bc_avail (fst (v_bc v)) = false -> bc_avail (snd (v_bc v)) = false ->
  Q tt (put i (bc_written r v) s) -> sto_wp (bufctrl_write32 i r) Q (put i v s).
Proof using Hi Hs.
  intros H0 H1 HQ. unfold bufctrl_write32. swp_step. swp_step. rewrite get_bc_put, H0, H1. cbn [andb orb].
  swp_step. apply swp_set_bc. swp_step.
  - apply swp_set_bc. unfold bc_written in *; cbn in *. destruct (bc_sel (fst r)); exact HQ.
  - bool_prop. destruct r as [r0 r1]. cbn [fst snd] in *.
    unfold bc_written in *; cbn in *. unfold clear_avail.
    destruct r0, r1; cbn in *; subst; exact HQ.
Qed.

Lemma swp_write16 v b h (Q : unit -> rp2 -> Prop) :
  bc_avail (bc_half (v_bc v) b) = false -> bc_sel (fst (v_bc v)) = false -> bc_sel h = false ->
  bc_avail h = true ->
  Q tt (put i (v <| v_bc := bc_set_half b h (v_bc v) |>) s) ->
  sto_wp (bufctrl_write16 i b h) Q (put i v s).
Proof using Hi Hs.
  intros H0 Hsel Hsel' Hav HQ. unfold bufctrl_write16. swp_step. swp_step. rewrite get_bc_put, H0. cbn [andb].
  swp_step. apply swp_set_bc. rewrite Hav. cbn [sto_when]. apply swp_set_bc.
  match goal with |- Q tt (put i ?w s) => cut (w = v <| v_bc := bc_set_half b h (v_bc v) |>) end.
  { intros ->. exact HQ. }
  destruct v as [? ? [[] []] ? ? ? ? ? ? ? ? ? ?], h. unfold bc_written, bc_set_half; cbn in *. subst.
  by destruct (b =? 0).
Qed.

End view.

(** One statement of the driver on a view. *)
Ltac vstep :=
  cbv beta zeta;
  lazymatch goal with
  | |- sto_wp (mod_ep _ _) _ (put _ _ _) => apply swp_mod_ep; [assumption..|]
  | |- sto_wp (set_ec _ _) _ (put _ _ _) => apply swp_set_ec
  | |- sto_wp (set_bc _ _) _ (put _ _ _) => apply swp_set_bc
  | |- sto_wp (bufctrl_prepare16 _ _ _) _ (put _ _ _) => apply swp_prepare16; [assumption..|]
  | |- sto_wp e15_is_critical_frame_period _ (put _ _ _) => apply swp_e15_critical; intros ?
  | |- sto_wp sto_get _ (put _ _ _) => apply swp_get;
         rewrite ?get_ep_put, ?get_ec_put, ?get_bc_put, ?get_pending_put by assumption
  | |- _ => swp_step
  end;
  rewrite ?put_dpram, ?put_ram, ?put_events, ?put_inte, ?put_raw, ?put_last_sof, ?put_aborts.

(** *** BUFF_STATUS with one busy endpoint *)

Lemma status_ep_eq x : 0 <= x -> status_ep x = if Z.odd x then x - 1 else x + 1.
Proof.
  intros. unfold status_ep, hw_endpoint_get, TUSB_DIR_IN, TUSB_DIR_OUT. rewrite Z.shiftr_div_pow2 by lia.
  change (2 ^ 1) with 2. pose proof (Zmod_odd x). destruct (Z.odd x); zdivmod.
Qed.

Lemma status_ep_range x : 0 <= x < 32 -> 0 <= status_ep x < 32.
Proof.
  intros. rewrite status_ep_eq by lia. pose proof (Zmod_odd x). destruct (Z.odd x); [zdivmod|].
  destruct (decide (x = 31)) as [->|]; [done|lia].
Qed.

Lemma status_ep_inv x : 0 <= x -> status_ep (status_ep x) = x.
Proof.
  intros. rewrite (status_ep_eq x) by lia. pose proof (Zmod_odd x) as E.
  destruct (Z.odd x) eqn:Eo; rewrite status_ep_eq by zdivmod.
  - rewrite Z.odd_sub, Eo. cbn. lia.
  - rewrite Z.odd_add, Eo. cbn. lia.
Qed.

Lemma get_pending_put_ne i v s k : 0 <= i -> 0 <= k -> k <> i -> get_pending (put i v s) k = get_pending s k.
Proof. intros. unfold get_pending, put. cbn. rewrite list_lookup_insert_ne by lia. done. Qed.
Lemma get_ep_put_ne i v s k : 0 <= i -> 0 <= k -> k <> i -> get_ep (put i v s) k = get_ep s k.
Proof. intros. unfold get_ep, put. cbn. rewrite list_lookup_insert_ne by lia. done. Qed.

Lemma filter_none {A} (P : A -> Prop) `{forall x, Decision (P x)} (l : list A) :
  (forall x, x ∈ l -> ~ P x) -> filter P l = [].
Proof.
  induction l as [|x l IH]; intros Hn; [done|]. rewrite filter_cons_False by (apply Hn; left).
  apply IH. intros y Hy. apply Hn. by right.
Qed.

Lemma buf_status_one `{Usbctrl} i v s :
  0 <= i < 32 -> sized s -> (forall k, 0 <= k < 32 -> k <> i -> get_pending s k = []) ->
  buf_status (put i v s) = match v_pend v with [] => [] | _ => [status_ep i] end.
Proof.
  intros Hi Hs Hq. pose proof (status_ep_range i Hi) as Hb. unfold buf_status.
  assert (seqZ 0 32 = seqZ 0 (status_ep i) ++ status_ep i :: seqZ (status_ep i + 1) (31 - status_ep i)) as ->.
  { replace 32 with (status_ep i + (32 - status_ep i)) at 1 by lia. rewrite seqZ_app, (seqZ_cons (0 + _)) by lia.
    rewrite Z.add_0_l. do 2 f_equal. f_equal; lia. }
  assert (forall l, (forall x, x ∈ l -> 0 <= x < 32 /\ x <> status_ep i) ->
    filter (fun x => get_pending (put i v s) (status_ep x) <> []) l = []) as Hnone.
  { intros l Hl. apply filter_none. intros x Hx E. destruct (Hl x Hx) as [Hr Hne]. apply E.
    pose proof (status_ep_range x Hr).
    assert (status_ep x <> i) by (intros <-; by rewrite status_ep_inv in Hne by lia).
    rewrite get_pending_put_ne by lia. by apply Hq. }
  rewrite filter_app, filter_cons, !Hnone by (intros x; rewrite elem_of_seqZ; lia).
  rewrite status_ep_inv, get_pending_put by (done || lia). destruct (v_pend v); case_decide; done.
Qed.
