(* ===== verification/Rp2040In.v ===== *)
(** * Rp2040In: a transfer to the host, packet by packet

    [dcd_edpt_xfer] on an IN endpoint hands the driver a buffer of [n] bytes. From
    then on three things happen in any order: the host takes the packet of an armed
    buffer, a start of frame passes, the interrupt handler runs. [in_step] is this
    interleaving, [in_inv] the invariant of all its states: the packets sent, the
    packets armed and the packets acknowledged are always prefixes, in this order, of
    the cutting of the data into packets, whatever the double buffering and the
    deferrals of the E15 workaround do. *)

From S2P Require Import Prelude UsbDev Rp2040 Rp2040View.

(** ** The controller's side *)

Section host.
Context `{Usbctrl}.

(** The register of an endpoint, none for endpoint 0. *)
Definition ep_reg_of (i : Z) : option Z := get_ep_ctrl (Z.shiftr i 1) (i mod 2).

(** The buffer the next transaction uses, and its place. *)
Definition hw_buf (s : rp2) (i : Z) : Z :=
  match ep_reg_of i with
  | Some r => if ec_double (get_ec s r) then get_sel s i else 0
  | None => 0
  end.
Definition hw_addr (s : rp2) (i : Z) : Z :=
  match ep_reg_of i with
  | Some r => ec_offset (get_ec s r) + 64 * hw_buf s i
  | None => EP0_BUF_A
  end.

(** A transaction has finished with a buffer: its half of the register becomes [h],
    the endpoint's status bit is set, and with double buffering the other buffer is
    next. *)
Definition hw_finish (i : Z) (h : buf_ctrl16) (s : rp2) : rp2 :=
  let b := hw_buf s i in
  s <| r_buf_ctrl := <[Z.to_nat i := bc_set_half b h (get_bc s i)]> (r_buf_ctrl s) |>
    <| r_pending := <[Z.to_nat i := get_pending s i ++ [b]]> (r_pending s) |>
    <| r_sel := <[Z.to_nat i := 1 - b]> (r_sel s) |>.

Definition packet : Type := bool * list Z.   (* DATA1?, payload *)

(** The half the next transaction uses. *)
Definition hw_half (s : rp2) (i : Z) : buf_ctrl16 := bc_half (get_bc s i) (hw_buf s i).

Inductive in_step (i : Z) : rp2 * list packet -> rp2 * list packet -> Prop :=
  | in_token s sent :
      bc_avail (hw_half s i) = true -> bc_full (hw_half s i) = true ->
      in_step i (s, sent)
        (hw_finish i (in_done (hw_half s i)) s,
         sent ++ [(bc_data1 (hw_half s i), mem_read (hw_addr s i) (bc_len (hw_half s i)) (dpram s))])
  | in_sof s sent : in_step i (s, sent) (s <| r_raw := (r_raw s) <| i_sof := true |> |>, sent)
  | in_irq s s' sent frame :
      dcd_rp2040_irq frame s = Some (tt, s') -> in_step i (s, sent) (s', sent).

End host.

(** ** Cutting data into packets *)

Section packets.
Context (n M : Z) (Hn : 0 <= n) (HM : 0 < M).

(** How many packets: at least one, of no bytes when there is nothing to send. *)
Definition packet_count : Z := Z.max 1 ((n + M - 1) / M).
Definition packet_off (k : Z) : Z := Z.min (k * M) n.
Definition packet_len (k : Z) : Z := packet_off (k + 1) - packet_off k.

Lemma packet_count_spec : 
  (packet_count - 1) * M <= n /\ n <= packet_count * M /\ 1 <= packet_count /\
  (packet_count <> 1 -> (packet_count - 1) * M < n).
Proof using Hn HM.
  unfold packet_count. pose proof (Z.div_mod (n + M - 1) M ltac:(lia)) as E.
  pose proof (Z.mod_pos_bound (n + M - 1) M HM). set (q := (n + M - 1) / M) in *.
  destruct (Z.max_spec 1 q) as [[? ->]|[? ->]]; nia.
Qed.

Lemma packet_off_0 : packet_off 0 = 0.
Proof using Hn. unfold packet_off. lia. Qed.
Lemma packet_off_range k : 0 <= k -> 0 <= packet_off k <= n.
Proof using Hn HM. unfold packet_off. nia. Qed.
Lemma packet_off_end k : packet_count <= k -> packet_off k = n.
Proof using Hn HM. intros. pose proof packet_count_spec. unfold packet_off. nia. Qed.
Lemma packet_len_full k : 0 <= k -> k + 1 < packet_count -> packet_len k = M.
Proof using Hn HM. intros. pose proof packet_count_spec. unfold packet_len, packet_off. nia. Qed.
Lemma packet_len_min k : 0 <= k -> packet_len k = Z.min (n - packet_off k) M.
Proof using Hn HM. intros. unfold packet_len, packet_off. nia. Qed.
Lemma packet_len_range k : 0 <= k -> 0 <= packet_len k <= M.
Proof using Hn HM. intros. unfold packet_len, packet_off. nia. Qed.
Lemma packet_off_full k : 0 <= k -> k + 1 < packet_count -> packet_off k + M < n.
Proof using Hn HM. intros. pose proof packet_count_spec. unfold packet_off. nia. Qed.
Lemma packet_is_last k :
  0 <= k < packet_count -> (n - packet_off (k + 1) =? 0) = (k + 1 =? packet_count).
Proof using Hn HM.
  intros. pose proof packet_count_spec.
  destruct (Z.eqb_spec (k + 1) packet_count) as [E|E].
  - rewrite E, packet_off_end by lia. apply Z.eqb_eq. lia.
  - apply Z.eqb_neq. unfold packet_off. nia.
Qed.
Lemma packet_remains k : 0 <= k < packet_count -> 0 < n -> 0 < n - packet_off k.
Proof using Hn HM. intros. pose proof packet_count_spec. unfold packet_off. nia. Qed.

End packets.

(** ** The invariant *)

Definition is_completion (e : dcd_event) : bool :=
  match e with EV_XFER_COMPLETE _ _ _ => true | _ => false end.
Definition completions (l : list dcd_event) : list dcd_event := filter is_completion l.

Lemma completions_app l k : completions (l ++ k) = completions l ++ completions k.
Proof. apply filter_app. Qed.

(** A transfer: endpoint, packet size, hardware buffer, memory, address, length, the
    first PID, whether the E15 workaround applies, the completions reported before,
    and how much of it had been moved before it was reissued (0 for a new one). *)
Record transfer := mk_transfer {
  t_ep : Z; t_mps : Z; t_base : Z; t_dpram : Z; t_ram : list Z; t_addr : Z; t_len : Z;
  t_pid : Z; t_e15 : bool; t_done : list dcd_event; t_moved : Z }.

Section transfer.
Context `{Hok : UsbctrlOk} (t : transfer) (s0 : rp2).

Abbreviation i := (t_ep t).
Abbreviation M := (t_mps t).
Abbreviation base := (t_base t).
Abbreviation n := (t_len t).
Abbreviation N := (packet_count n M).
Abbreviation off := (packet_off n M).
Abbreviation plen := (packet_len n M).

(** How many buffers the endpoint has. *)
Definition buffers : Z := match ep_reg_of i with Some _ => 2 | None => 1 end.

(** The transfer and the rest of the driver's state allow the transfer. *)
Record transfer_ok : Prop := {
  t_i : 0 <= i < 32 /\ i mod 2 = 1;
  t_sized : sized s0;
  t_host : r_host s0 = false;
  t_M : 0 < M <= 64;
  t_n : 0 <= n /\ 0 <= t_moved t /\ t_moved t + n < 65536;
  t_a : 0 <= t_addr t /\ t_addr t + n <= zlen (t_ram t);
  t_window : 0 <= base /\ base + 64 * buffers <= t_dpram t;
  t_ep0 : ep_reg_of i = None -> base = EP0_BUF_A;
  t_pid01 : t_pid t = 0 \/ t_pid t = 1;
  t_e15_reg : t_e15 t = true -> buffers = 2;
  t_quiet : forall k, 0 <= k < 32 -> k <> i ->
    get_pending s0 k = [] /\ he_state (get_ep s0 k) = EPSTATE_IDLE }.

Definition pid_of (q : Z) : Z := (t_pid t + q) mod 2.
Definition packet_of (q : Z) : packet :=
  (negb (pid_of q =? 0), mem_read (t_addr t + off q) (plen q) (t_ram t)).

(** The buffer of a packet: they alternate, from a parity [p] that changes when both
    buffers are started afresh. *)
Definition buf_of (p q : Z) : Z := if buffers =? 1 then 0 else (q + p) mod 2.

Definition armed_half (q : Z) : buf_ctrl16 :=
  mk_bc true (q + 1 =? N) (negb (pid_of q =? 0)) false false true (plen q).

Definition v_double (v : view) : bool :=
  match ep_reg_of i with Some _ => ec_double (v_ec v) | None => false end.
Definition v_hw_buf (v : view) : Z := if v_double v then v_sel v else 0.

(** What does not change during the transfer. *)
Record in_static (v : view) : Prop := {
  st_mps : max_packet_size (v_ep v) = M;
  st_buf : dpram_buf (v_ep v) = base;
  st_addr : he_ep_addr (v_ep v) = 128 + i / 2;
  st_e15 : e15_bulk_in (v_ep v) = t_e15 t;
  st_ram : v_ram v = t_ram t;
  st_dpram : zlen (v_dpram v) = t_dpram t;
  st_offset : ec_offset (v_ec v) = base;
  st_type : (ec_type (v_ec v) =? TUSB_XFER_ISOCHRONOUS) = false;
  st_inte : i_buff_status (v_inte v) = true;
  st_raw : i_setup (v_raw v) = false /\ i_bus_reset (v_raw v) = false /\
           i_suspend (v_raw v) = false /\ i_resume (v_raw v) = false;
  st_future : future_len (v_ep v) = 0 }.

(** [j] packets acknowledged, [k] sent, [m] armed. *)
Record in_inv (v : view) (p j k m : Z) : Prop := {
  inv_order : 0 <= j <= k /\ k <= m <= N /\ m <= j + buffers;
  inv_xferred : xferred_len (v_ep v) = t_moved t + off j;
  inv_remaining : remaining_len (v_ep v) = n - off m;
  inv_user : user_buf (v_ep v) = t_addr t + off m;
  inv_pid : next_pid (v_ep v) = pid_of m;
  inv_pend : v_pend v = buf_of p <$> seqZ j (k - j);
  inv_sel : j < m -> k < N -> v_hw_buf v = buf_of p k /\ (k + 1 < N -> buffers = 2 -> v_double v = true);
  inv_armed : forall q, k <= q < m ->
    bc_half (v_bc v) (buf_of p q) = armed_half q /\
    mem_read (base + 64 * buf_of p q) (plen q) (v_dpram v) = snd (packet_of q);
  inv_sent : forall q, j <= q < k ->
    bc_full (bc_half (v_bc v) (buf_of p q)) = false /\
    bc_len (bc_half (v_bc v) (buf_of p q)) = plen q /\
    bc_last (bc_half (v_bc v) (buf_of p q)) = (q + 1 =? N);
  inv_idle : forall b, b = 0 \/ b = 1 -> (forall q, k <= q < m -> buf_of p q <> b) ->
    bc_idle (bc_half (v_bc v) b) = true;
  inv_nosel : bc_sel (fst (v_bc v)) = false;
  inv_events : completions (v_events v) = t_done t }.

(** A transfer under way: both buffers are armed as long as there is data, unless the
    workaround has deferred the next one to the start of the next frame. *)
Definition in_mode (v : view) (j m : Z) : Prop :=
  (he_state (v_ep v) = EPSTATE_ACTIVE /\ j < N /\ m = Z.min N (j + buffers)) \/
  (he_state (v_ep v) = EPSTATE_PENDING /\ t_e15 t = true /\ m < N /\ 0 < n /\ m <= j + 1).

Definition in_sof_on (v : view) : Prop := t_e15 t = true -> i_sof (v_inte v) = true.

Definition in_running (v : view) (p j k m : Z) : Prop :=
  in_static v /\ in_inv v p j k m /\ in_mode v j m /\ in_sof_on v.

(** A transfer that has been reported complete. *)
Definition in_complete (v : view) : Prop :=
  in_static v /\ he_state (v_ep v) = EPSTATE_IDLE /\ v_pend v = [] /\
  (forall b, b = 0 \/ b = 1 -> bc_idle (bc_half (v_bc v) b) = true) /\
  next_pid (v_ep v) = pid_of N /\
  completions (v_events v) = t_done t ++ [EV_XFER_COMPLETE (128 + i / 2) 0 (t_moved t + n)].

Context (Ht : transfer_ok).

Lemma buffers_cases : buffers = 1 \/ buffers = 2.
Proof using. unfold buffers. destruct (ep_reg_of i); auto. Qed.

Lemma buf_of_01 p q : buf_of p q = 0 \/ buf_of p q = 1.
Proof using. unfold buf_of. destruct (buffers =? 1); [auto|]. pose proof (Z.mod_pos_bound (q + p) 2); lia. Qed.
Lemma buf_of_next p q : buffers = 2 -> buf_of p (q + 1) = 1 - buf_of p q.
Proof using. unfold buf_of. intros ->. cbn. zdivmod. Qed.
Lemma buf_of_reuse p q : buf_of p (q + buffers) = buf_of p q.
Proof using. unfold buf_of. destruct buffers_cases as [->| ->]; cbn; [done|]. zdivmod. Qed.

Lemma pid_of_next q : Z.lxor (pid_of q) 1 = pid_of (q + 1).
Proof using.
  unfold pid_of. assert ((t_pid t + q) mod 2 = 0 \/ (t_pid t + q) mod 2 = 1) as [E|E] by zdivmod; rewrite E.
  - replace ((t_pid t + (q + 1)) mod 2) with 1 by zdivmod. done.
  - replace ((t_pid t + (q + 1)) mod 2) with 0 by zdivmod. done.
Qed.

Lemma N_pos : 1 <= N.
Proof using Ht. destruct (packet_count_spec n M); destruct Ht; lia. Qed.

(** Arming the next packet. *)
Lemma prepared_arms v p j k m b :
  in_static v -> in_inv v p j k m -> m < N ->
  prepared_len v = plen m /\
  prepared_half v false = armed_half m /\
  in_static (prepared v b false) /\
  remaining_len (v_ep (prepared v b false)) = n - off (m + 1) /\
  user_buf (v_ep (prepared v b false)) = t_addr t + off (m + 1) /\
  next_pid (v_ep (prepared v b false)) = pid_of (m + 1) /\
  v_dpram (prepared v b false) = mem_write b (snd (packet_of m)) (v_dpram v).
Proof using Ht.
  intros Hst Hinv Hm. destruct Hst, Hinv, Ht.
  assert (prepared_len v = plen m) as El.
  { unfold prepared_len. rewrite st_mps0, inv_remaining0. rewrite packet_len_min by lia. done. }
  assert (u16 (n - off m - plen m) = n - off (m + 1)) as Er.
  { pose proof (packet_off_range n M ltac:(lia) ltac:(lia) (m + 1) ltac:(lia)).
    unfold packet_len in *. rewrite u16_small by (unfold is_u16; lia). lia. }
  split_and!; try done.
  - unfold prepared_half, armed_half. rewrite El, inv_remaining0, inv_pid0, Er, packet_is_last by lia. done.
  - split; cbn; try done. by rewrite mem_write_zlen.
  - cbn. by rewrite El, inv_remaining0, Er.
  - cbn. rewrite El, inv_user0. unfold packet_len. lia.
  - cbn. rewrite inv_pid0. apply pid_of_next.
  - cbn. rewrite El, inv_user0, st_ram0. done.
Qed.

Lemma buf_of_other p q q' : q <> q' -> q - buffers < q' < q + buffers -> buf_of p q <> buf_of p q'.
Proof using.
  unfold buf_of. destruct buffers_cases as [-> | ->]; cbn; intros Hne Hr; [lia|].
  assert (q' = q + 1 \/ q' = q - 1) as [-> | ->] by lia; zdivmod.
Qed.

Lemma bc_half_set b b' h r :
  b = 0 \/ b = 1 -> b' = 0 \/ b' = 1 ->
  bc_half (bc_set_half b h r) b' = if b =? b' then h else bc_half r b'.
Proof using. intros [-> | ->] [-> | ->]; done. Qed.

Lemma plen_buffer q : 0 <= q -> 0 <= plen q <= 64.
Proof using Ht. intros. destruct Ht. pose proof (packet_len_range n M ltac:(lia) ltac:(lia) q ltac:(lia)). lia. Qed.

Lemma packet_zlen q : 0 <= q -> zlen (snd (packet_of q)) = plen q.
Proof using Ht.
  intros. destruct Ht. pose proof (plen_buffer q ltac:(lia)).
  pose proof (packet_off_range n M ltac:(lia) ltac:(lia) q ltac:(lia)).
  pose proof (packet_off_range n M ltac:(lia) ltac:(lia) (q + 1) ltac:(lia)).
  unfold packet_len in *. apply mem_read_zlen; lia.
Qed.

(** A packet in one buffer is not touched by filling the other. *)
Lemma armed_data_kept p q m d :
  0 <= q -> 0 <= m -> zlen d = t_dpram t -> buf_of p m <> buf_of p q ->
  mem_read (base + 64 * buf_of p q) (plen q) (mem_write (base + 64 * buf_of p m) (snd (packet_of m)) d) =
  mem_read (base + 64 * buf_of p q) (plen q) d.
Proof using Ht.
  intros Hq Hm Hd Hne. destruct Ht. pose proof (plen_buffer q Hq). pose proof (plen_buffer m Hm).
  pose proof (packet_zlen m Hm).
  destruct (buf_of_01 p q), (buf_of_01 p m); apply mem_read_write_disjoint; lia.
Qed.

Lemma buf_window p q : 0 <= buf_of p q /\ 64 * buf_of p q + 64 <= 64 * buffers.
Proof using.
  unfold buf_of. destruct buffers_cases as [-> | ->]; cbn; [lia|].
  pose proof (Z.mod_pos_bound (q + p) 2). lia.
Qed.

Lemma armed_data_written p m d :
  0 <= m -> zlen d = t_dpram t ->
  mem_read (base + 64 * buf_of p m) (plen m) (mem_write (base + 64 * buf_of p m) (snd (packet_of m)) d) =
  snd (packet_of m).
Proof using Ht.
  intros Hm Hd. destruct Ht. pose proof (plen_buffer m Hm). pose proof (packet_zlen m Hm) as Hz.
  pose proof (buf_window p m). rewrite <- Hz. apply mem_read_write; lia.
Qed.

(** Arming one buffer, as the interrupt handler does. *)
Lemma inv_arm v p j k m :
  in_static v -> in_inv v p j k m -> m < N -> m < j + buffers ->
  (j = m -> v_hw_buf v = buf_of p k /\ (k + 1 < N -> buffers = 2 -> v_double v = true)) ->
  let v' := (prepared v (base + 64 * buf_of p m) false)
              <| v_bc := bc_set_half (buf_of p m) (prepared_half v false) (v_bc v) |> in
  in_static v' /\ in_inv v' p j k (m + 1).
Proof using Ht.
  intros Hst Hinv Hm Hw Hsel.
  destruct (prepared_arms v p j k m (base + 64 * buf_of p m) Hst Hinv Hm) as (Hl & Hh & Hst' & Hr & Hu & Hp & Hd).
  pose proof Hst as [? ? ? ? ? Hzd ? ? ? ? ?]. pose proof Hinv as []. rewrite Hh. intros v'.
  assert (v_bc v' = bc_set_half (buf_of p m) (armed_half m) (v_bc v)) as Ebc by done.
  assert (v_dpram v' = mem_write (base + 64 * buf_of p m) (snd (packet_of m)) (v_dpram v)) as Edp by exact Hd.
  split; [by destruct Hst'; split|].
  split; try done; rewrite ?Ebc, ?Edp.
  - lia.
  - intros Hjm Hk. destruct (decide (j = m)) as [E|E]; [by apply Hsel|]. apply inv_sel0; lia.
  - intros q Hq. rewrite bc_half_set by apply buf_of_01.
    destruct (decide (q = m)) as [-> |Hne].
    + rewrite Z.eqb_refl. split; [done|]. apply armed_data_written; [lia|done].
    + assert (buf_of p m <> buf_of p q) as Hb by (apply buf_of_other; lia).
      destruct (Z.eqb_spec (buf_of p m) (buf_of p q)); [done|].
      destruct (inv_armed0 q) as [Ha Hdata]; [lia|]. split; [done|]. rewrite <- Hdata.
      apply armed_data_kept; lia || done.
  - intros q Hq. rewrite bc_half_set by apply buf_of_01.
    assert (buf_of p m <> buf_of p q) by (apply buf_of_other; lia).
    destruct (Z.eqb_spec (buf_of p m) (buf_of p q)); [done|]. by apply inv_sent0.
  - intros b Hb Hfree. rewrite bc_half_set by (apply buf_of_01 || done).
    destruct (Z.eqb_spec (buf_of p m) b) as [E|E]; [by destruct (Hfree m); [lia|]|].
    apply inv_idle0; [done|]. intros q Hq. apply Hfree. lia.
  - unfold bc_set_half. by destruct (buf_of p m =? 0).
Qed.

(** With nothing armed, the parity is free to choose. *)
Definition fresh (d : bool) (v : view) : view :=
  v <| v_sel := 0 |> <| v_bc := (bc_zero, bc_zero) |> <| v_ec := (v_ec v) <| ec_double := d |> |>.

Lemma inv_fresh v p j d :
  in_static v -> in_inv v p j j j -> in_static (fresh d v) /\ in_inv (fresh d v) (- j) j j j.
Proof using.
  intros [] []. split; split; try done; cbn; try lia.
  - rewrite inv_pend0. by rewrite Z.sub_diag.
  - intros b [-> | ->] _; done.
Qed.

Lemma buf_of_fresh j : buf_of (- j) j = 0.
Proof using. unfold buf_of. destruct (buffers =? 1); [done|]. zdivmod. Qed.

(** The endpoint's register is its own slot, for all but endpoint 0. *)
Lemma ep_reg_cases :
  (ep_reg_of i = None /\ i = 1 /\ buffers = 1) \/ (ep_reg_of i = Some i /\ i <> 1 /\ buffers = 2).
Proof using Ht.
  destruct Ht as [[Hi Hodd] _ _ _ _ _ _ _ _ _ _]. unfold buffers, ep_reg_of, get_ep_ctrl in *.
  rewrite Z.shiftr_div_pow2 by lia. change (2 ^ 1) with 2.
  destruct (Z.eqb_spec (i / 2) 0); [left|right]; split_and!; try done; try (f_equal); zdivmod.
Qed.

(** Both buffers started afresh, or the one that is needed. *)
Lemma buffer_start_ok v p j (Q : unit -> rp2 -> Prop) :
  in_static v -> in_inv v p j j j -> j < N ->
  (forall v', in_static v' -> in_inv v' (- j) j j (Z.min N (j + buffers)) ->
     he_state (v_ep v') = he_state (v_ep v) -> v_inte v' = v_inte v -> Q tt (put i v' s0)) ->
  sto_wp (rp2usb_buffer_start i (ep_reg_of i) i false) Q (put i v s0).
Proof using Ht.
  intros Hst Hinv Hj HQ. pose proof Ht as [[Hi Hodd] Hs _ _ _ _ _ _ _ _ _].
  assert (0 <= j) as Hj0 by (destruct Hinv; lia).
  assert (bc_avail (fst (v_bc v)) = false /\ bc_avail (snd (v_bc v)) = false) as [Ha0 Ha1].
  { destruct Hinv. pose proof (inv_idle0 0 ltac:(auto) ltac:(lia)) as I0.
    pose proof (inv_idle0 1 ltac:(auto) ltac:(lia)) as I1. unfold bc_idle in *. cbn in *. bool_prop. done. }
  destruct (prepared_arms v p j j j base Hst Hinv Hj) as (_ & _ & Hst1 & Hr1 & _).
  pose proof Hst as [_ Hbuf _ _ _ _ _ Hty _ _ _].
  assert ((n - off (j + 1) =? 0) = (j + 1 =? N)) as Elast by (destruct Ht; apply packet_is_last; lia).
  set (two := if buffers =? 1 then ec_double (v_ec v) else negb (j + 1 =? N)).
  destruct (inv_fresh v p j two Hst Hinv) as [Hst0 Hinv0].
  assert (v_hw_buf (fresh two v) = buf_of (- j) j /\
          (j + 1 < N -> buffers = 2 -> v_double (fresh two v) = true)) as Hsel.
  { rewrite buf_of_fresh. unfold v_hw_buf, v_double. cbn. split.
    - destruct (ep_reg_of i); [|done]. by destruct two.
    - intros Hk Hb2. unfold two. rewrite Hb2. destruct ep_reg_cases as [(-> & ? & ?)|(-> & ? & _)]; [lia|].
      cbn. destruct (Z.eqb_spec (j + 1) N); [lia|done]. }
  destruct (inv_arm _ _ _ _ _ Hst0 Hinv0 Hj) as [HstA HinvA]; [destruct buffers_cases; lia|done|].
  rewrite buf_of_fresh in HstA, HinvA.
  unfold rp2usb_buffer_start. vstep. vstep. rewrite Hbuf. vstep. vstep. vstep.
  destruct ep_reg_cases as [(Er & _ & Hb)|(Er & _ & Hb)]; unfold two in *; rewrite Er; rewrite Hb in *;
    cbn [Z.eqb Pos.eqb] in *; clear two.
  - vstep. apply swp_write32; [assumption..|].
    replace (Z.min N (j + 1)) with (j + 1) in HQ by lia. rewrite Z.mul_0_r, Z.add_0_r in *.
    apply HQ; [destruct v as [? [] ? ? ? ? ? ? ? ? ? ? ?]; assumption..|done|done].
  - vstep. vstep. rewrite Hr1, Elast.
    change (v_ec (prepared v base false)) with (v_ec v). rewrite Hty. cbn [negb]. rewrite andb_true_r.
    destruct (Z.eqb_spec (j + 1) N) as [El|El]; cbn [negb] in *.
    + vstep. vstep. vstep. apply swp_write32; [assumption..|].
      replace (Z.min N (j + 2)) with (j + 1) in HQ by lia. rewrite Z.mul_0_r, Z.add_0_r in *.
      apply HQ; [destruct v as [? [] ? ? ? ? ? ? ? ? ? ? ?]; assumption..|done|done].
    + destruct (inv_arm _ _ _ _ _ HstA HinvA) as [HstB HinvB]; [lia..|].
      replace (Z.min N (j + 2)) with (j + 2) in HQ by lia.
      replace (buf_of (- j) (j + 1)) with 1 in * by (rewrite buf_of_next, buf_of_fresh by done; lia).
      replace (j + 1 + 1) with (j + 2) in HinvB by lia. rewrite Z.mul_0_r, Z.add_0_r in *.
      vstep. vstep. vstep. vstep. vstep. apply swp_write32; [assumption..|].
      apply HQ; [destruct v as [? [] ? ? ? ? ? ? ? ? ? ? ?]; assumption..|done|done].
Qed.

(** The acknowledgement of a packet. *)
Definition synced (len : Z) (v : view) : view :=
  let e := (v_ep v) <| xferred_len := u16 (xferred_len (v_ep v) + len) |> in
  v <| v_ep := if len <? max_packet_size (v_ep v) then e <| remaining_len := 0 |> else e |>.

Lemma sync16_in v h buf (Q : Z -> rp2 -> Prop) :
  bc_full h = false -> Q (bc_len h) (put i (synced (bc_len h) v) s0) ->
  sto_wp (bufctrl_sync16 i false h buf) Q (put i v s0).
Proof using Ht.
  intros Hf HQ. pose proof Ht as [[Hi Hodd] Hs _ _ _ _ _ _ _ _ _].
  unfold bufctrl_sync16, synced in *. vstep. vstep. rewrite Hf. vstep. vstep. vstep. vstep. vstep.
  destruct (bc_len h <? max_packet_size (v_ep v)); cbn [sto_when].
  - vstep. exact HQ.
  - vstep. exact HQ.
Qed.

Lemma inv_ack v p j k m rest :
  in_static v -> in_inv v p j k m -> j < k -> v_pend v = buf_of p j :: rest ->
  let v' := synced (plen j) (v <| v_pend := rest |>) in
  in_static v' /\ in_inv v' p (j + 1) k m.
Proof using Ht.
  intros Hst Hinv Hj Hp v'. pose proof Hst as []. pose proof Hinv as []. pose proof Ht as [].
  assert (u16 (t_moved t + off j + plen j) = t_moved t + off (j + 1)) as Ex.
  { pose proof (packet_off_range n M ltac:(lia) ltac:(lia) (j + 1) ltac:(lia)).
    unfold packet_len. rewrite u16_small by (unfold is_u16; lia). lia. }
  assert (plen j < M -> n - off m = 0) as Hshort.
  { intros Hs. destruct (decide (j + 1 < N)).
    - rewrite packet_len_full in Hs by lia. lia.
    - rewrite packet_off_end by lia. lia. }
  assert (rest = buf_of p <$> seqZ (j + 1) (k - (j + 1))) as Hrest.
  { rewrite inv_pend0, seqZ_cons in Hp by lia. injection Hp as <-. do 2 f_equal; lia. }
  assert (remaining_len (v_ep v') = n - off m) as Hrem.
  { unfold v', synced. cbn. rewrite st_mps0. destruct (Z.ltb_spec (plen j) M); cbn; [|done].
    rewrite Hshort; lia. }
  assert (xferred_len (v_ep v') = t_moved t + off (j + 1)) as Hx.
  { unfold v', synced. cbn. rewrite st_mps0, inv_xferred0, Ex. by destruct (plen j <? M). }
  assert (forall A (f : hw_endpoint -> A), (forall e x, f (e <| xferred_len := x |>) = f e) ->
            (forall e x, f (e <| remaining_len := x |>) = f e) -> f (v_ep v') = f (v_ep v)) as Hf.
  { intros A f H1 H2. unfold v', synced. cbn. destruct (_ <? _); rewrite ?H2; apply H1. }
  split.
  - split; cbn [v' v_ec v_inte v_raw]; rewrite ?Hf by done; done.
  - split; rewrite ?Hf by done; try done; try lia.
    + intros Hjm. apply inv_sel0. lia.
    + intros q Hq. apply inv_sent0. lia.
Qed.

Lemma hw_buf_single v p k :
  buffers = 1 -> v_hw_buf v = buf_of p k /\ (k + 1 < N -> buffers = 2 -> v_double v = true).
Proof using.
  intros Hb. unfold v_hw_buf, v_double, buf_of. rewrite Hb. unfold buffers in Hb.
  destruct (ep_reg_of i); [lia|]. split; [done|lia].
Qed.

(** One finished buffer handled by the interrupt: the last one completes the
    transfer, any other leaves it running. *)
Lemma continue_ok v p j k m rest (Q : bool -> rp2 -> Prop) :
  in_running v p j k m -> j < k -> v_pend v = buf_of p j :: rest ->
  (j + 1 = N -> forall v', in_static v' -> in_inv v' p N k m -> Q true (put i v' s0)) ->
  (j + 1 < N -> forall v' m', in_running v' p (j + 1) k m' -> Q false (put i v' s0)) ->
  sto_wp (rp2usb_xfer_continue i (ep_reg_of i) i (buf_of p j) false) Q (put i (v <| v_pend := rest |>) s0).
Proof using Ht.
  intros (Hst & Hinv & Hmode & Hsof) Hjk Hp HQ1 HQ2. pose proof Ht as [[Hi Hodd] Hs _ _ _ _ _ _ _ _ _].
  assert (0 <= j /\ k <= m <= N /\ m <= j + buffers) as (Hj0 & Hm & Hmj) by (destruct Hinv; lia).
  assert (he_state (v_ep v) <> EPSTATE_IDLE) as Hst_ne by (destruct Hmode as [(-> & _)|(-> & _)]; done).
  destruct (inv_sent _ _ _ _ _ Hinv j ltac:(lia)) as (Hfull & Hlen & Hlast).
  destruct (inv_ack _ _ _ _ _ _ Hst Hinv Hjk Hp) as [Hst' Hinv'].
  unfold rp2usb_xfer_continue. vstep. vstep. cbn [v_ep v_bc v_ec setf].
  rewrite bool_decide_eq_false_2 by exact Hst_ne. vstep.
  apply sync16_in; [exact Hfull|]. rewrite Hlen, (st_mps _ Hst), (st_buf _ Hst), Hlast, andb_false_r.
  cbn [andb]. set (v1 := synced _ _) in *.
  assert (he_state (v_ep v1) = he_state (v_ep v)) as Est by (unfold v1, synced; cbn; by destruct (_ <? _)).
  assert (in_sof_on v1) as Hsof1 by done.
  vstep. vstep. rewrite (st_e15 _ Hst'), Est, (inv_remaining _ _ _ _ _ Hinv').
  destruct (Z.eqb_spec (j + 1) N) as [El|El].
  { rewrite orb_true_r. cbn [negb andb sto_when]. vstep. vstep. apply HQ1; [done..|]. by rewrite <- El. }
  assert (0 < n /\ plen j = M) as [Hn0 HpM].
  { destruct Ht. pose proof (packet_off_full n M ltac:(lia) ltac:(lia) j ltac:(lia) ltac:(lia)).
    pose proof (packet_off_range n M ltac:(lia) ltac:(lia) j ltac:(lia)).
    split; [lia|]. apply packet_len_full; lia. }
  rewrite HpM, Z.ltb_irrefl. cbn [orb negb andb].
  destruct (decide (m = N)) as [->|Hne].
  { rewrite packet_off_end, Z.sub_diag by (destruct Ht; lia). cbn [Z.ltb Z.compare sto_when]. vstep. vstep.
    apply (HQ2 ltac:(lia) v1 N). split_and!; try done. destruct Hmode as [(? & ? & ?)|(? & ? & ? & ?)]; [|lia].
    left. split_and!; [congruence|lia|lia]. }
  rewrite (proj2 (Z.ltb_lt 0 (n - off m))) by (destruct Ht; apply packet_remains; lia). cbn [sto_when].
  vstep. vstep.
  apply swp_mono with (Q := fun critical s' => exists c, s' = put i (v1 <| v_clock := c |>) s0 /\
                              (t_e15 t = false -> critical = false)).
  { destruct (t_e15 t).
    - vstep. by eexists.
    - vstep. exists (v_clock v1). split; [|done]. by destruct v1. }
  intros critical s' (c & -> & Hcrit). set (v2 := v1 <| v_clock := c |>).
  assert (in_static v2 /\ in_inv v2 p (j + 1) k m) as [Hst2 Hinv2] by (split; [by destruct Hst'|by destruct Hinv']).
  vstep; [|vstep].
  - bool_prop. repeat vstep. apply (HQ2 ltac:(lia) _ m). split_and!; [by destruct Hst2|by destruct Hinv2| |done].
    right. split_and!; try done; try lia. destruct Ht. rewrite t_e15_reg0 in Hmj by done.
    destruct Hmode as [(? & ? & ?)|(? & ? & ? & ?)]; lia.
  - bool_prop. match goal with E : bool_decide _ = true |- _ => apply bool_decide_eq_true_1 in E end.
    repeat vstep. apply (HQ2 ltac:(lia) v2 m). split_and!; try done. right.
    split_and!; try done; try lia; [etrans; [exact Est|done]|]. destruct Hmode as [(? & _)|(? & ? & ? & ?)]; [congruence|lia].
  - assert (he_state (v_ep v) = EPSTATE_ACTIVE /\ m = j + buffers) as [Hact ->].
    { destruct Hmode as [(? & ? & ?)|(Hpd & He & _)]; [split; [done|lia]|].
      match goal with E : t_e15 t && bool_decide _ = false |- _ =>
        rewrite He, Hpd, bool_decide_eq_true_2 in E by done; discriminate E end. }
    replace (if negb (buf_of p j =? 0) then base + 64 else base) with (base + 64 * buf_of p (j + buffers))
      by (rewrite buf_of_reuse; destruct (buf_of_01 p j) as [-> | ->]; cbn; lia).
    rewrite <- (buf_of_reuse p j). vstep. vstep.
    destruct (inv_arm _ _ _ _ _ Hst2 Hinv2) as [Hst3 Hinv3]; [lia|lia|by intros; apply hw_buf_single; lia|].
    cbv beta. apply swp_write16; try done.
    + change (v_bc _) with (v_bc v2). pose proof (inv_idle _ _ _ _ _ Hinv2 (buf_of p (j + buffers)) (buf_of_01 _ _)) as Hid.
      unfold bc_idle in Hid. lapply Hid; [intros; bool_prop; done|]. intros q Hq. apply buf_of_other; lia.
    + apply (inv_nosel _ _ _ _ _ Hinv2).
    + vstep. apply (HQ2 ltac:(lia) _ (j + buffers + 1)). split_and!; [exact Hst3|exact Hinv3| |done].
      left. split_and!; [etrans; [exact Est|exact Hact]|lia|lia].
Qed.

(** *** The buffer status interrupt *)

Lemma status_bit_ep :
  Z.shiftr (i - 1) 1 = Z.shiftr i 1 /\ Z.odd (i - 1) = false /\
  hw_endpoint_get (Z.shiftr i 1) TUSB_DIR_IN = i /\ get_buf_ctrl (Z.shiftr i 1) TUSB_DIR_IN = i /\
  get_ep_ctrl (Z.shiftr i 1) TUSB_DIR_IN = ep_reg_of i.
Proof using Ht.
  destruct Ht as [[Hi Hodd] _ _ _ _ _ _ _ _ _ _]. unfold ep_reg_of, hw_endpoint_get, get_buf_ctrl, TUSB_DIR_IN.
  rewrite !Z.shiftr_div_pow2 by lia. change (2 ^ 1) with 2. rewrite Hodd. split_and!; try done; try zdivmod.
  pose proof (Zmod_odd (i - 1)) as E. destruct (Z.odd (i - 1)); [zdivmod|done].
Qed.

Lemma status_ep_bit : status_ep (i - 1) = i.
Proof using Ht. unfold status_ep. destruct status_bit_ep as (-> & -> & -> & _). done. Qed.

(** The state after the handler has dealt with the buffers of the first [k] packets. *)
Definition in_handled (k : Z) (v : view) : Prop :=
  (k = N /\ in_complete v) \/ exists p m, in_running v p k k m.

Lemma complete_ok v p k m (Q : unit -> rp2 -> Prop) :
  in_static v -> in_inv v p N k m ->
  (forall v', in_complete v' -> Q tt (put i v' s0)) ->
  sto_wp (rp2usb_reset_transfer i ;?; dcd_event_xfer_complete (he_ep_addr (v_ep v)) (xferred_len (v_ep v)))
    Q (put i v s0).
Proof using Ht.
  intros Hst Hinv HQ. pose proof Ht as [[Hi Hodd] Hs _ _ _ _ _ _ _ _ _].
  pose proof Hinv as []. assert (k = N /\ m = N) as [-> ->] by lia.
  unfold rp2usb_reset_transfer, dcd_event_xfer_complete. vstep. vstep. vstep. apply HQ.
  destruct Hst. split_and!; cbn.
  - done.
  - done.
  - rewrite inv_pend0. by rewrite Z.sub_diag.
  - intros b Hb. apply inv_idle0; [done|lia].
  - done.
  - cbn. rewrite completions_app, inv_events0, st_addr0, inv_xferred0, packet_off_end by (destruct Ht; lia). done.
Qed.

Lemma buff_status_bit_ok fuel v p j k m (Q : unit -> rp2 -> Prop) :
  in_running v p j k m -> (length (v_pend v) < fuel)%nat ->
  (forall v', in_handled k v' -> Q tt (put i v' s0)) ->
  sto_wp (buff_status_bit fuel (i - 1)) Q (put i v s0).
Proof using Ht.
  pose proof Ht as [[Hi Hodd] Hs _ _ _ _ _ _ _ _ _].
  revert v p j m. induction fuel as [|fuel IH]; intros v p j m Hrun Hlen HQ; [lia|].
  pose proof Hrun as (Hst & Hinv & _). pose proof (inv_order _ _ _ _ _ Hinv) as Hord.
  unfold sto_wp. cbn [buff_status_bit]. destruct status_bit_ep as (-> & -> & -> & -> & ->).
  rewrite get_pending_put by done. destruct (v_pend v) as [|b rest] eqn:Ep.
  { assert (k = j) as ->.
    { rewrite (inv_pend _ _ _ _ _ Hinv) in Ep. destruct (decide (j < k)); [|lia].
      rewrite seqZ_cons in Ep by lia. done. }
    apply HQ. right. eauto. }
  assert (j < k /\ b = buf_of p j) as [Hjk ->].
  { rewrite (inv_pend _ _ _ _ _ Hinv) in Ep. destruct (decide (j < k)).
    - rewrite seqZ_cons in Ep by lia. by injection Ep as ->.
    - replace (k - j) with 0 in Ep by lia. done. }
  match goal with |- match ?c ?s with _ => _ end => change (sto_wp c Q s) end.
  vstep. apply swp_set_pending. vstep. eapply continue_ok; [done..| |].
  - intros HN v' Hst' Hinv'. vstep. vstep. vstep. cbn [sto_when]. eapply complete_ok; [done..|].
    intros v'' Hc. cbv beta. unfold sto_wp. destruct fuel as [|fuel].
    { rewrite (inv_pend _ _ _ _ _ Hinv), seqZ_cons in Ep by lia.
      cbn [length] in Hlen. lia. }
    cbn [buff_status_bit]. destruct status_bit_ep as (-> & -> & -> & -> & ->).
    rewrite get_pending_put by done. pose proof Hc as (_ & _ & -> & _). apply HQ. left. split; [lia|done].
  - intros HN v' m' Hrun'. vstep. vstep. vstep. cbn [sto_when]. vstep. eapply IH; [done| |done].
    assert (length (v_pend v') = length rest) as ->.
    { destruct Hrun' as (_ & Hinv' & _). rewrite (inv_pend _ _ _ _ _ Hinv').
      rewrite (inv_pend _ _ _ _ _ Hinv), seqZ_cons in Ep by lia. injection Ep as <-.
      rewrite !length_fmap, !length_seqZ. lia. }
    cbn [length] in Hlen. lia.
Qed.

(** *** Start of frame *)

(** A deferred transfer goes on. *)
Lemma e15_resume_ok v p k m (Q : unit -> rp2 -> Prop) :
  in_running v p k k m -> he_state (v_ep v) = EPSTATE_PENDING ->
  (forall v' p' m', in_running v' p' k k m' -> he_state (v_ep v') = EPSTATE_ACTIVE -> Q tt (put i v' s0)) ->
  sto_wp (e15_resume (Z.shiftr i 1)) Q (put i v s0).
Proof using Ht.
  intros (Hst & Hinv & Hmode & Hsof) Hpd HQ. pose proof Ht as [[Hi Hodd] Hs _ _ _ _ _ _ _ _ _].
  destruct Hmode as [(? & _)|(_ & He & Hm & Hn0 & Hmk)]; [congruence|].
  assert (0 <= k <= m) as Hk by (destruct Hinv; lia).
  assert (buffers = 2) as Hb by (by destruct Ht; auto).
  set (v1 := v <| v_ep := (v_ep v) <| he_state := EPSTATE_ACTIVE |> |>).
  assert (in_static v1 /\ in_inv v1 p k k m) as [Hst1 Hinv1] by (split; [by destruct Hst|by destruct Hinv]).
  unfold e15_resume. destruct status_bit_ep as (_ & _ & -> & -> & ->).
  vstep. vstep. fold v1. vstep. vstep. rewrite (inv_remaining _ _ _ _ _ Hinv1), (st_buf _ Hst1).
  rewrite (proj2 (Z.ltb_lt 0 (n - off m))) by (destruct Ht; apply packet_remains; lia). cbn [andb].
  destruct (decide (m = k)) as [->|Hne].
  - pose proof (inv_idle _ _ _ _ _ Hinv1 0 ltac:(auto) ltac:(lia)) as I0.
    pose proof (inv_idle _ _ _ _ _ Hinv1 1 ltac:(auto) ltac:(lia)) as I1. cbn [bc_half Z.eqb] in I0, I1.
    rewrite I0, I1. cbn [andb]. eapply buffer_start_ok; [done..|]. intros v' Hst' Hinv' Est Eint.
    eapply HQ; [split_and!; [done|done| |]|done].
    + left. split_and!; [by rewrite Est|lia|done].
    + unfold in_sof_on in *. by rewrite Eint.
  - assert (m = k + 1) as -> by lia.
    destruct (inv_armed _ _ _ _ _ Hinv1 k ltac:(lia)) as [Hbusy _].
    pose proof (inv_idle _ _ _ _ _ Hinv1 (buf_of p (k + 1)) (buf_of_01 _ _)) as Hid.
    lapply Hid; [clear Hid; intros Hid|intros q Hq; apply buf_of_other; lia].
    destruct (inv_arm _ _ _ _ _ Hst1 Hinv1) as [Hst2 Hinv2]; [lia..|].
    assert (bc_avail (bc_half (v_bc v1) (buf_of p (k + 1))) = false) as Hav
      by (unfold bc_idle in Hid; bool_prop; done).
    pose proof (inv_nosel _ _ _ _ _ Hinv1) as Hns.
    assert (Q tt (put i ((prepared v1 (base + 64 * buf_of p (k + 1)) false)
              <| v_bc := bc_set_half (buf_of p (k + 1)) (prepared_half v1 false) (v_bc v1) |>) s0)) as HQ'.
    { eapply HQ; [split_and!; [exact Hst2|exact Hinv2| |done]|done]. left. split_and!; [done|lia|lia]. }
    rewrite (buf_of_next p k Hb) in *.
    destruct (buf_of_01 p k) as [E|E]; rewrite E in *; change (1 - 0) with 1 in *; change (1 - 1) with 0 in *;
      unfold bc_half in Hid, Hbusy; cbn [Z.eqb] in Hid, Hbusy;
      rewrite Hid, Hbusy; cbn [bc_idle armed_half bc_full orb negb andb].
    + vstep. vstep. apply swp_write16; done.
    + rewrite Z.mul_0_r, Z.add_0_r in HQ'. vstep. vstep. apply swp_write16; done.
Qed.

(** The other endpoints are skipped. *)
Lemma e15_loop_skip l v b :
  (forall x, x ∈ l -> 0 <= x < 16 /\ 2 * x + 1 <> i) ->
  e15_sof_loop l b (put i v s0) = Some (b, put i v s0).
Proof using Ht.
  induction l as [|x l IH]; intros Hl; [done|]. cbn [e15_sof_loop]. unfold sto_bind, sto_get.
  destruct (Hl x ltac:(left)) as [Hx Hne]. unfold hw_endpoint_get, TUSB_DIR_IN.
  destruct Ht. rewrite get_ep_put_ne by lia. destruct (t_quiet0 (2 * x + 1)) as [_ ->]; [lia..|].
  rewrite bool_decide_eq_true_2, andb_false_r by done. apply IH. intros y Hy. apply Hl. by right.
Qed.

Lemma e15_loop_app l l' b s :
  e15_sof_loop (l ++ l') b s = (let? b' := e15_sof_loop l b in e15_sof_loop l' b') s.
Proof using.
  revert b s. induction l as [|x l IH]; intros b s; [done|]. cbn [e15_sof_loop app]. unfold sto_bind, sto_get.
  destruct (_ && _); [|apply IH]. destruct (sto_when _ _ s) as [[? s']|]; [apply IH|done].
Qed.

Lemma e15_loop_split :
  exists l l', seqZ 0 16 = l ++ Z.shiftr i 1 :: l' /\
    (forall x, x ∈ l ++ l' -> 0 <= x < 16 /\ 2 * x + 1 <> i).
Proof using Ht.
  destruct Ht as [[Hi Hodd] _ _ _ _ _ _ _ _ _ _]. rewrite Z.shiftr_div_pow2 by lia. change (2 ^ 1) with 2.
  assert (0 <= i / 2 < 16 /\ i = 2 * (i / 2) + 1) as [Hq Ei] by zdivmod. set (q := i / 2) in *.
  exists (seqZ 0 q), (seqZ (q + 1) (15 - q)). split.
  - replace 16 with (q + (16 - q)) by lia. rewrite seqZ_app by lia. f_equal. rewrite seqZ_cons by lia.
    rewrite Z.add_0_l. f_equal. f_equal; lia.
  - intros x. rewrite elem_of_app, !elem_of_seqZ. lia.
Qed.

(** No transfer is left deferred. *)
Definition in_resumed (k : Z) (v : view) : Prop :=
  (k = N /\ in_complete v) \/
  exists p m, in_running v p k k m /\ he_state (v_ep v) = EPSTATE_ACTIVE.

Lemma e15_loop_ok v k (Q : bool -> rp2 -> Prop) :
  in_handled k v ->
  (forall keep v', in_resumed k v' -> (keep = false -> in_complete v' \/ t_e15 t = false) ->
     Q keep (put i v' s0)) ->
  sto_wp (e15_sof_loop (seqZ 0 16) false) Q (put i v s0).
Proof using Ht.
  intros Hh HQ. pose proof Ht as [[Hi Hodd] Hs _ _ _ _ _ _ _ _ _].
  destruct e15_loop_split as (l & l' & -> & Hl). unfold sto_wp. rewrite e15_loop_app. unfold sto_bind.
  rewrite e15_loop_skip by (intros x Hx; apply Hl, elem_of_app; by left).
  match goal with |- match ?c ?s with _ => _ end => change (sto_wp c Q s) end.
  assert (forall keep v', in_resumed k v' -> (keep = false -> in_complete v' \/ t_e15 t = false) ->
            sto_wp (e15_sof_loop l' keep) Q (put i v' s0)) as Hrest.
  { intros keep v' Hr Hc. unfold sto_wp. rewrite e15_loop_skip by (intros x Hx; apply Hl, elem_of_app; by right).
    by apply HQ. }
  cbn [e15_sof_loop]. destruct status_bit_ep as (_ & _ & -> & _ & _). vstep. vstep.
  destruct Hh as [[-> Hc]|(p & m & Hrun)].
  - pose proof Hc as (_ & -> & _). rewrite (bool_decide_eq_true_2 (EPSTATE_IDLE = _)), andb_false_r by done.
    apply Hrest; [by left|by left].
  - pose proof Hrun as (Hst & _ & Hmode & _). rewrite (st_e15 _ Hst).
    destruct Hmode as [(Hact & _)|(Hpd & He & _)].
    + rewrite Hact, bool_decide_eq_false_2, andb_true_r by done. destruct (t_e15 t).
      * vstep. rewrite bool_decide_eq_false_2 by done. cbn [sto_when]. vstep. apply Hrest; [|done]. right. eauto.
      * apply Hrest; [|by right]. right. eauto.
    + rewrite Hpd, He, bool_decide_eq_false_2 by done. cbn [andb negb]. vstep.
      rewrite bool_decide_eq_true_2 by done. cbn [sto_when]. eapply e15_resume_ok; [done..|].
      intros v' p' m' Hr Ha. apply Hrest; [|done]. right. eauto.
Qed.

(** *** The whole interrupt handler *)

Lemma buf_status_put v : buf_status (put i v s0) = match v_pend v with [] => [] | _ => [i - 1] end.
Proof using Ht.
  pose proof Ht as [[Hi Hodd] Hs _ _ _ _ _ _ _ _ Hq].
  rewrite buf_status_one by (done || (intros; by apply Hq)).
  rewrite (status_ep_eq i) by lia. pose proof (Zmod_odd i). destruct (Z.odd i); [done|lia].
Qed.

Lemma handle_hw_ok v p j k m (Q : unit -> rp2 -> Prop) :
  in_running v p j k m -> (forall v', in_handled k v' -> Q tt (put i v' s0)) ->
  sto_wp handle_hw_buff_status Q (put i v s0).
Proof using Ht.
  intros Hrun HQ. pose proof Ht as [[Hi Hodd] Hs _ _ _ _ _ _ _ _ _].
  unfold handle_hw_buff_status. vstep. apply swp_get. rewrite buf_status_put.
  destruct (v_pend v) as [|b l] eqn:Ep; cbn [sto_iter].
  - vstep. apply HQ. right. exists p, m. pose proof Hrun as (_ & Hinv & _).
    pose proof (inv_order _ _ _ _ _ Hinv). rewrite (inv_pend _ _ _ _ _ Hinv) in Ep.
    destruct (decide (j < k)); [rewrite seqZ_cons in Ep by lia; done|]. by replace j with k in Hrun by lia.
  - vstep. vstep. vstep. rewrite status_ep_bit. eapply buff_status_bit_ok; [done| |].
    + rewrite get_pending_put by done. lia.
    + intros v' Hh. vstep. by apply HQ.
Qed.

(** The states of a transfer of which [k] packets have been sent. *)
Definition in_state (k : Z) (v : view) : Prop :=
  (k = N /\ in_complete v) \/ exists p j m, in_running v p j k m.

Lemma handled_state k v : in_handled k v -> in_state k v.
Proof using. intros [?|(p & m & ?)]; [by left|right; eauto]. Qed.
Lemma resumed_handled k v : in_resumed k v -> in_handled k v.
Proof using. intros [?|(p & m & ? & ?)]; [by left|right; eauto]. Qed.

(** The timer, the raised interrupts and what else is reported do not matter. *)
Definition env_change (r : ints) (c l : Z) (ev : list dcd_event) (v : view) : view :=
  v <| v_raw := r |> <| v_clock := c |> <| v_last_sof := l |> <| v_events := ev |>.
Definition quiet_raw (r : ints) : Prop :=
  i_setup r = false /\ i_bus_reset r = false /\ i_suspend r = false /\ i_resume r = false.

Lemma in_state_raw k v : in_state k v -> quiet_raw (v_raw v) /\ i_buff_status (v_inte v) = true.
Proof using. intros [(_ & [] & _)|(p & j & m & [] & _)]; done. Qed.

Lemma in_state_env k v r c l ev :
  in_state k v -> quiet_raw r -> completions ev = completions (v_events v) ->
  in_state k (env_change r c l ev v).
Proof using.
  intros [[-> ([] & H2 & H3 & H4 & H5 & H6)]|(p & j & m & [] & [] & Hm & Hs)] Hr Hev.
  - left. split; [done|]. split; [by split|]. split_and!; try done. by etrans.
  - right. exists p, j, m. split; [by split|]. split_and!; try done. split; try done. by etrans.
Qed.

Lemma handled_no_sof k v :
  in_resumed k v -> in_complete v \/ t_e15 t = false ->
  in_resumed k (v <| v_inte := (v_inte v) <| i_sof := false |> |>).
Proof using.
  intros [[-> ([] & H2 & H3 & H4 & H5 & H6)]|(p & m & ([] & [] & Hm & Hs) & Ha)] Hc.
  - left. split; [done|]. split; [by split|]. split_and!; done.
  - destruct Hc as [(_ & Hi & _)|He]; [congruence|]. right. exists p, m. split; [|done].
    split; [by split|]. split; [by split|]. split; [done|].
    intros He'. congruence.
Qed.

Lemma buff_phase_ok v k b (Q : unit -> rp2 -> Prop) :
  in_state k v -> (b = false -> v_pend v = []) ->
  (forall v', in_handled k v' -> Q tt (put i v' s0)) ->
  sto_wp (sto_when b handle_hw_buff_status) Q (put i v s0).
Proof using Ht.
  intros Hst Hb HQ. destruct Hst as [[-> Hc]|(p & j & m & Hrun)].
  - destruct b; cbn [sto_when].
    + pose proof Hc as (_ & _ & Hp & _). unfold handle_hw_buff_status. vstep. apply swp_get.
      rewrite buf_status_put, Hp. cbn [sto_iter]. vstep. apply HQ. by left.
    + vstep. apply HQ. by left.
  - destruct b; cbn [sto_when].
    + by eapply handle_hw_ok.
    + vstep. apply HQ. right. exists p, m. pose proof Hrun as (_ & Hinv & _).
      specialize (Hb eq_refl). pose proof (inv_order _ _ _ _ _ Hinv). rewrite (inv_pend _ _ _ _ _ Hinv) in Hb.
      destruct (decide (j < k)); [rewrite seqZ_cons in Hb by lia; done|]. by replace j with k in Hrun by lia.
Qed.

Lemma irq_ok v k frame :
  in_state k v ->
  sto_wp (dcd_rp2040_irq frame)
    (fun _ s' => exists v', s' = put i v' s0 /\ in_handled k v' /\
       (i_sof (v_raw v) = true -> i_sof (v_inte v) = true -> in_resumed k v')) (put i v s0).
Proof using Ht.
  intros Hst. pose proof Ht as [[Hi Hodd] Hs _ _ _ _ _ _ _ _ _].
  destruct (in_state_raw k v Hst) as [(R1 & R2 & R3 & R4) Hint].
  unfold dcd_rp2040_irq. vstep. apply swp_get.
  assert (ints_status (put i v s0) = mk_ints (i_sof (v_raw v) && i_sof (v_inte v))
            (negb (bool_decide (v_pend v = []))) false false false false) as ->.
  { unfold ints_status, ints_and. rewrite buf_status_put. cbn. rewrite R1, R2, R3, R4, Hint, andb_true_r.
    cbn. f_equal. by destruct (v_pend v). }
  cbn [i_sof i_buff_status i_setup i_bus_reset i_suspend i_resume].
  set (sof := i_sof (v_raw v) && i_sof (v_inte v)).
  vstep. apply swp_mono with (Q := fun _ s' => exists r c l ev, quiet_raw r /\
    completions ev = completions (v_events v) /\ s' = put i (env_change r c l ev v) s0).
  { vstep.
    - unfold clear_raw, dcd_report. vstep. vstep. vstep. apply swp_time_us_32. repeat vstep.
      exists ((v_raw v) <| i_sof := false |>). do 3 eexists. split_and!; [done| |reflexivity].
      by rewrite completions_app, app_nil_r.
    - exists (v_raw v), (v_clock v), (v_last_sof v), (v_events v). split_and!; [done|done|by destruct v]. }
  intros _ s' (r & c & l & ev & Hr & Hev & ->). cbv beta. set (v1 := env_change r c l ev v).
  assert (in_state k v1) as Hst1 by (by apply in_state_env).
  vstep. eapply buff_phase_ok; [exact Hst1| |].
  { intros E. bool_prop. by apply bool_decide_eq_true in E. }
  intros v2 Hh. vstep. cbn [sto_when]. vstep. vstep. vstep; [vstep|].
  - eapply e15_loop_ok; [exact Hh|]. intros keep v3 Hres Hkeep. vstep. vstep. vstep.
    + bool_prop. destruct keep; [done|]. repeat vstep. eexists. split; [reflexivity|].
      pose proof (handled_no_sof k v3 Hres (Hkeep eq_refl)). split; [by apply resumed_handled|done].
    + repeat vstep. eexists. split; [reflexivity|]. split; [by apply resumed_handled|done].
  - repeat vstep. eexists. split; [reflexivity|]. split; [done|].
    intros E1 E2. unfold sof in *. rewrite E1, E2 in *. done.
Qed.

(** *** The host takes a packet *)

Lemma hw_buf_put v : hw_buf (put i v s0) i = v_hw_buf v.
Proof using Ht.
  pose proof Ht as [[Hi Hodd] Hs _ _ _ _ _ _ _ _ _]. unfold hw_buf, v_hw_buf, v_double.
  destruct ep_reg_cases as [(-> & _)|(-> & _)]; [done|]. by rewrite get_ec_put, get_sel_put by done.
Qed.

Definition taken (h : buf_ctrl16) (v : view) : view :=
  let b := v_hw_buf v in
  v <| v_bc := bc_set_half b h (v_bc v) |> <| v_pend := v_pend v ++ [b] |> <| v_sel := 1 - b |>.

Lemma hw_finish_put h v : hw_finish i h (put i v s0) = put i (taken h v) s0.
Proof using Ht.
  pose proof Ht as [[Hi Hodd] Hs _ _ _ _ _ _ _ _ _]. unfold hw_finish. rewrite hw_buf_put.
  rewrite get_bc_put, get_pending_put by done. unfold taken, put. cbn. by rewrite !list_insert_insert_eq.
Qed.

Lemma inv_take v p j k m :
  in_running v p j k m -> k < m -> in_running (taken (in_done (armed_half k)) v) p j (k + 1) m.
Proof using Ht Hok.
  intros (Hst & Hinv & Hmode & Hsof) Hkm. pose proof Hinv as [].
  destruct (inv_sel0 ltac:(lia) ltac:(lia)) as [Hb Hd].
  destruct (in_done_spec (armed_half k)) as (D1 & D2 & D3 & D4 & D5).
  split_and!; [by destruct Hst| |done|done]. unfold taken. rewrite Hb.
  split; cbn [v_ep v_bc v_pend v_events v_dpram setf]; try done; try lia.
  - rewrite inv_pend0. replace (k + 1 - j) with (k - j + 1) by lia.
    rewrite seqZ_app, fmap_app by lia. replace (j + (k - j)) with k by lia. done.
  - intros _ Hk1. destruct buffers_cases as [B|B]; [by apply hw_buf_single|].
    specialize (Hd ltac:(lia) B). change (v_double _) with (v_double v). unfold v_hw_buf.
    change (v_double _) with (v_double v). rewrite Hd. cbn. rewrite buf_of_next by done. done.
  - intros q Hq. rewrite bc_half_set by apply buf_of_01.
    assert (buf_of p k <> buf_of p q) by (apply buf_of_other; lia).
    destruct (Z.eqb_spec (buf_of p k) (buf_of p q)); [done|]. apply inv_armed0. lia.
  - intros q Hq. rewrite bc_half_set by apply buf_of_01.
    destruct (decide (q = k)) as [->|Hne].
    + rewrite Z.eqb_refl, D1, D3, D4. done.
    + assert (buf_of p k <> buf_of p q) by (apply buf_of_other; lia).
      destruct (Z.eqb_spec (buf_of p k) (buf_of p q)); [done|]. apply inv_sent0. lia.
  - intros b Hb01 Hfree. rewrite bc_half_set by (done || apply buf_of_01).
    destruct (Z.eqb_spec (buf_of p k) b) as [E|E].
    + unfold bc_idle. by rewrite D1, D2.
    + apply inv_idle0; [done|]. intros q Hq. destruct (decide (q = k)) as [->|]; [done|]. apply Hfree. lia.
  - unfold bc_set_half. destruct (buf_of p k =? 0); [|done]. cbn. by rewrite D5.
Qed.

Lemma token_ok k v :
  in_state k v ->
  bc_avail (hw_half (put i v s0) i) = true -> bc_full (hw_half (put i v s0) i) = true ->
  k < N /\
  (exists v', hw_finish i (in_done (hw_half (put i v s0) i)) (put i v s0) = put i v' s0 /\
     in_state (k + 1) v') /\
  (bc_data1 (hw_half (put i v s0) i),
   mem_read (hw_addr (put i v s0) i) (bc_len (hw_half (put i v s0) i)) (v_dpram v)) = packet_of k.
Proof using Ht Hok.
  pose proof Ht as [[Hi Hodd] Hs _ _ _ _ _ Hep0 _ _ _].
  intros Hst Hav Hfull. rewrite hw_finish_put. unfold hw_half, hw_addr in *. rewrite hw_buf_put in *.
  rewrite get_bc_put in * by done.
  assert (~ (forall b, b = 0 \/ b = 1 -> bc_idle (bc_half (v_bc v) b) = true)) as Hbusy.
  { intros Hid. assert (bc_idle (bc_half (v_bc v) (v_hw_buf v)) = true) as E.
    { unfold bc_half in *. destruct (v_hw_buf v =? 0); [by apply (Hid 0); left|by apply (Hid 1); right]. }
    unfold bc_idle in E. by rewrite Hav, Hfull in E. }
  destruct Hst as [[-> Hc]|(p & j & m & Hrun)]; [by destruct Hc as (_ & _ & _ & Hid & _)|].
  pose proof Hrun as (Hst & Hinv & _). pose proof (inv_order _ _ _ _ _ Hinv) as Hord.
  assert (k < m) as Hkm.
  { destruct (decide (k < m)); [done|]. destruct Hbusy. intros b Hb. eapply inv_idle; [done..|lia]. }
  destruct (inv_sel _ _ _ _ _ Hinv ltac:(lia) ltac:(lia)) as [Hb _].
  destruct (inv_armed _ _ _ _ _ Hinv k ltac:(lia)) as [Ha Hd]. rewrite Hb, Ha in *.
  split_and!; [lia| |].
  - eexists. split; [reflexivity|]. right. exists p, j, m. by apply inv_take.
  - unfold packet_of. f_equal. cbn [armed_half bc_len].
    transitivity (snd (packet_of k)); [|done]. rewrite <- Hd. f_equal.
    destruct ep_reg_cases as [(E & _ & B)|(-> & _ & B)].
    + rewrite E. unfold buf_of. rewrite B, Hep0 by done. cbn. lia.
    + rewrite get_ec_put by done. by rewrite (st_offset _ Hst).
Qed.

(** ** The start of the transfer *)

(** The endpoint is free. *)
Record in_ready (v : view) : Prop := {
  rd_static : in_static v;
  rd_new : t_moved t = 0;
  rd_idle : he_state (v_ep v) = EPSTATE_IDLE;
  rd_pid : next_pid (v_ep v) = t_pid t;
  rd_pend : v_pend v = [];
  rd_free : forall b, b = 0 \/ b = 1 -> bc_idle (bc_half (v_bc v) b) = true;
  rd_nosel : bc_sel (fst (v_bc v)) = false;
  rd_events : completions (v_events v) = t_done t }.

(** The driver would find itself in the last fifth of a frame. *)
Definition frame_ending (v : view) : bool :=
  let delta := u32 (time_at (v_clock v) - v_last_sof v) in negb ((delta <? 800) || (998 <? delta)).

Definition started (v : view) : view :=
  v <| v_ep := (v_ep v) <| remaining_len := n |> <| xferred_len := 0 |>
                        <| he_state := EPSTATE_ACTIVE |> <| user_buf := t_addr t |> |>.

Lemma inv_start v : in_ready v -> in_static (started v) /\ in_inv (started v) 0 0 0 0.
Proof using Ht.
  pose proof Ht as []. pose proof N_pos. intros [[]]. split; split; rewrite ?packet_off_0 by lia; try done; cbn; try lia.
  - destruct buffers_cases; lia.
  - unfold pid_of. rewrite Z.add_0_r, Z.mod_small by lia. done.
  - auto.
Qed.

Lemma edpt_addr : tu_edpt_number (128 + i / 2) = Z.shiftr i 1 /\ tu_edpt_dir (128 + i / 2) = TUSB_DIR_IN.
Proof using Ht.
  destruct Ht as [[Hi Hodd] _ _ _ _ _ _ _ _ _ _]. rewrite Z.shiftr_div_pow2 by lia. change (2 ^ 1) with 2.
  assert (0 <= i / 2 < 16) as Hq by zdivmod. set (q := i / 2) in *. clearbody q. clear Hi Hodd.
  assert (q ∈ seqZ 0 16) as Hin by (apply elem_of_seqZ; lia).
  cbn in Hin. repeat (apply elem_of_cons in Hin as [->|Hin]; [done|]). by apply elem_of_nil in Hin.
Qed.

Lemma swp_e15_exact v (Q : bool -> rp2 -> Prop) :
  Q (frame_ending v) (put i (v <| v_clock := v_clock v + 1 |>) s0) ->
  sto_wp e15_is_critical_frame_period Q (put i v s0).
Proof using.
  intros HQ. unfold e15_is_critical_frame_period. vstep. apply swp_time_us_32. vstep. vstep. vstep. exact HQ.
Qed.

Lemma start_ok v :
  in_ready v -> (n = 0 -> t_e15 t = true -> frame_ending v = false) ->
  sto_wp (dcd_edpt_xfer (128 + i / 2) (t_addr t) n)
    (fun ok s' => ok = true /\ exists v', s' = put i v' s0 /\ in_state 0 v') (put i v s0).
Proof using Ht.
  intros Hrd Hz. pose proof Ht as [[Hi Hodd] Hs Hhost _ _ _ _ _ _ _ _].
  destruct (inv_start v Hrd) as [Hst1 Hinv1]. pose proof N_pos.
  unfold dcd_edpt_xfer. destruct edpt_addr as [-> ->]. destruct status_bit_ep as (_ & _ & -> & -> & ->).
  vstep. unfold rp2usb_xfer_start. vstep. vstep. vstep.
  rewrite (rd_idle _ Hrd), bool_decide_eq_false_2 by done. cbn [sto_when]. vstep.
  vstep. vstep. unfold rp2usb_is_host_mode. change (r_host (put i v s0)) with (r_host s0).
  rewrite Hhost, (st_future _ (rd_static _ Hrd)). cbn [negb andb Z.ltb Z.compare]. vstep.
  fold (started v). rewrite (st_addr _ (rd_static _ Hrd)). destruct edpt_addr as [_ ->].
  change (Bool.eqb false (TUSB_DIR_IN =? TUSB_DIR_IN)) with false.
  vstep. vstep. vstep. rewrite (st_e15 _ Hst1).
  assert (forall v1, in_static v1 -> in_inv v1 0 0 0 0 -> he_state (v_ep v1) = EPSTATE_ACTIVE -> in_sof_on v1 ->
    sto_wp (rp2usb_buffer_start i (ep_reg_of i) i false)
      (fun _ s' => exists v', s' = put i v' s0 /\ in_state 0 v') (put i v1 s0)) as Hgo.
  { intros v1 Hs1 Hi1 Ha1 Hso1. eapply buffer_start_ok; [done..|lia|]. intros v2 Hs2 Hi2 Ha2 Hint2.
    eexists. split; [reflexivity|]. right. exists (- 0), 0, (Z.min N (0 + buffers)). split_and!; [done..| |].
    - left. split_and!; [congruence|lia|done].
    - unfold in_sof_on in *. by rewrite Hint2. }
  destruct (t_e15 t) eqn:He.
  - vstep. vstep. vstep. vstep. apply swp_e15_exact. set (v1 := _ <| v_clock := _ |>).
    assert (in_static v1 /\ in_inv v1 0 0 0 0 /\ in_sof_on v1) as (Hs1 & Hi1 & Hso1)
      by (split_and!; [by destruct Hst1|by destruct Hinv1|done]).
    change (frame_ending _) with (frame_ending v). destruct (frame_ending v) eqn:Ef; cbn [sto_when].
    + vstep. vstep. vstep. vstep. vstep. split; [done|]. eexists. split; [reflexivity|]. right.
      exists 0, 0, 0. split_and!; [by destruct Hs1|by destruct Hi1| |done]. right.
      assert (n <> 0) by (intros E; specialize (Hz E eq_refl); congruence).
      destruct Ht. split_and!; try done; lia.
    + repeat vstep. eapply swp_mono; [by apply Hgo|]. intros [] s' Hv. by vstep.
  - vstep. vstep. cbv beta iota. eapply swp_mono; [apply Hgo; [done..|]|].
    + intros E. congruence.
    + intros [] s' Hv. by vstep.
Qed.

End transfer.

(** ** The transfer as a whole *)

Lemma seqZ_snoc k : 0 <= k -> seqZ 0 (k + 1) = seqZ 0 k ++ [k].
Proof. intros. rewrite seqZ_app, (seqZ_cons (0 + k)) by lia. by rewrite Z.add_0_l. Qed.

Definition transfer_packets (t : transfer) : list packet :=
  packet_of t <$> seqZ 0 (packet_count (t_len t) (t_mps t)).

Section theorems.
Context `{Hok : UsbctrlOk} (t : transfer) (s0 : rp2).
Context (Ht : transfer_ok t s0).

Abbreviation i := (t_ep t).
Abbreviation N := (packet_count (t_len t) (t_mps t)).

Definition sent_upto (k : Z) : list packet := packet_of t <$> seqZ 0 k.

Lemma sent_prefix k : 0 <= k <= N -> sent_upto k `prefix_of` transfer_packets t.
Proof using.
  intros Hk. exists (packet_of t <$> seqZ k (N - k)). unfold transfer_packets, sent_upto.
  rewrite <- fmap_app. f_equal. replace N with (k + (N - k)) at 1 by lia. rewrite seqZ_app by lia. done.
Qed.

(** The invariant of the interleavings. *)
Definition in_config (c : rp2 * list packet) : Prop :=
  exists k v, c.1 = put i v s0 /\ in_state t k v /\ c.2 = sent_upto k /\ 0 <= k <= N.

Lemma in_config_step c c' : in_config c -> in_step i c c' -> in_config c'.
Proof using Ht Hok.
  intros (k & v & Hs & Hst & Hsent & Hk) Hstep. destruct Hstep as [s sent Ha Hf|s sent|s s' sent frame E]; cbn [fst snd] in *; subst.
  - destruct (token_ok t s0 Ht k v Hst Ha Hf) as (HkN & (v' & Hv' & Hst') & Hp).
    exists (k + 1), v'. cbn. rewrite Hv'. split_and!; try done; try lia.
    unfold sent_upto. rewrite seqZ_snoc, fmap_app by lia. f_equal. cbn. by rewrite <- Hp.
  - exists k, (env_change ((v_raw v) <| i_sof := true |>) (v_clock v) (v_last_sof v) (v_events v) v).
    split_and!; try done; try lia. destruct (in_state_raw t k v Hst) as [Hq _]. by apply in_state_env.
  - pose proof (irq_ok t s0 Ht v k frame Hst) as Hirq. unfold sto_wp in Hirq. rewrite E in Hirq.
    destruct Hirq as (v' & -> & Hh & _). exists k, v'. split_and!; try done; try lia. by apply handled_state.
Qed.

Lemma in_config_reach c c' : in_config c -> rtc (in_step i) c c' -> in_config c'.
Proof using Ht Hok. intros Hc Hr. induction Hr; [done|]. eauto using in_config_step. Qed.

Lemma packets_data_upto k :
  0 <= k -> concat (snd <$> sent_upto k) = mem_read (t_addr t) (packet_off (t_len t) (t_mps t) k) (t_ram t).
Proof using Ht.
  destruct Ht. intros Hk. pattern k. apply natlike_ind; [|intros x Hx IH|done].
  - by rewrite packet_off_0 by lia.
  - unfold sent_upto in *. rewrite <- Z.add_1_r, seqZ_snoc, !fmap_app, concat_app, IH by lia.
    pose proof (packet_len_range (t_len t) (t_mps t) ltac:(lia) ltac:(lia) x ltac:(lia)).
    pose proof (packet_off_range (t_len t) (t_mps t) ltac:(lia) ltac:(lia) x ltac:(lia)).
    replace (packet_off (t_len t) (t_mps t) (x + 1)) with
      (packet_off (t_len t) (t_mps t) x + packet_len (t_len t) (t_mps t) x) by (unfold packet_len; lia).
    rewrite mem_read_split by lia. f_equal. cbn. rewrite app_nil_r. done.
Qed.

Lemma packets_data : concat (snd <$> transfer_packets t) = mem_read (t_addr t) (t_len t) (t_ram t).
Proof using Ht.
  pose proof (N_pos t s0 Ht). unfold transfer_packets. fold (sent_upto N). rewrite packets_data_upto by lia.
  by rewrite packet_off_end by (destruct Ht; lia).
Qed.

(** One round: a frame starts, the handler runs, the host asks for a packet, the
    handler runs. *)
Definition raise_sof (s : rp2) : rp2 := s <| r_raw := (r_raw s) <| i_sof := true |> |>.

Definition host_take (c : rp2 * list packet) : rp2 * list packet :=
  let '(s, sent) := c in
  let h := hw_half s i in
  if bc_avail h && bc_full h
  then (hw_finish i (in_done h) s, sent ++ [(bc_data1 h, mem_read (hw_addr s i) (bc_len h) (dpram s))])
  else (s, sent).

Definition round (c : rp2 * list packet) : option (rp2 * list packet) :=
  match dcd_rp2040_irq 0 (raise_sof (fst c)) with
  | Some (_, s) =>
      let '(s, sent) := host_take (s, snd c) in
      match dcd_rp2040_irq 0 s with Some (_, s) => Some (s, sent) | None => None end
  | None => None
  end.

Fixpoint rounds (n : nat) (c : rp2 * list packet) : option (rp2 * list packet) :=
  match n with
  | O => Some c
  | S n => match round c with Some c => rounds n c | None => None end
  end.

Lemma round_ok k v :
  in_state t k v -> 0 <= k < N ->
  exists v', round (put i v s0, sent_upto k) = Some (put i v' s0, sent_upto (k + 1)) /\ in_handled t (k + 1) v'.
Proof using Ht Hok.
  intros Hst Hk. unfold round. cbn [fst snd].
  set (v1 := env_change ((v_raw v) <| i_sof := true |>) (v_clock v) (v_last_sof v) (v_events v) v).
  assert (in_state t k v1) as Hst1.
  { destruct (in_state_raw t k v Hst) as [Hq _]. by apply in_state_env. }
  change (raise_sof (put i v s0)) with (put i v1 s0).
  pose proof (irq_ok t s0 Ht v1 k 0 Hst1) as Hirq. apply swp_run in Hirq as ([] & s1 & -> & v2 & -> & Hh & Hres).
  assert (exists p m, in_running t v2 p k k m /\ he_state (v_ep v2) = EPSTATE_ACTIVE) as (p & m & Hrun & Hact).
  { destruct Hst1 as [[? _]|(p & j & m & _ & _ & _ & Hsof)]; [lia|].
    destruct Hh as [[? _]|(p' & m' & Hrun)]; [lia|]. pose proof Hrun as (_ & _ & Hmode & _).
    destruct Hmode as [(? & _)|(_ & He & _)]; [eauto|].
    destruct Hres as [[? _]|?]; [done|by apply Hsof|lia|done]. }
  pose proof Hrun as (_ & Hinv & Hmode & _).
  assert (k < m) as Hkm.
  { destruct Hmode as [(_ & _ & ->)|(? & _)]; [|congruence]. destruct (buffers_cases t); lia. }
  assert (hw_half (put i v2 s0) i = armed_half t k) as Hhalf.
  { unfold hw_half. rewrite hw_buf_put by done. destruct Ht as [[? ?] ? _ _ _ _ _ _ _ _ _].
    rewrite get_bc_put by done. destruct (inv_sel _ _ _ _ _ _ Hinv Hkm ltac:(lia)) as [-> _].
    by destruct (inv_armed _ _ _ _ _ _ Hinv k ltac:(lia)). }
  assert (in_state t k v2) as Hst2 by (right; eauto).
  destruct (token_ok t s0 Ht k v2 Hst2) as (_ & (v3 & Ev3 & Hst3) & Hp); [by rewrite Hhalf..|].
  unfold host_take. rewrite Hhalf in *. cbn [armed_half bc_avail bc_full andb]. rewrite Ev3.
  change (dpram (put i v2 s0)) with (v_dpram v2). rewrite Hp.
  pose proof (irq_ok t s0 Ht v3 (k + 1) 0 Hst3) as Hirq.
  apply swp_run in Hirq as ([] & s4 & -> & v4 & -> & Hh4 & _).
  exists v4. split; [|done]. do 2 f_equal. unfold sent_upto. by rewrite seqZ_snoc, fmap_app by lia.
Qed.

Lemma rounds_ok n k v :
  in_state t k v -> 0 <= k -> (0 < n)%nat -> k + Z.of_nat n <= N ->
  exists v', rounds n (put i v s0, sent_upto k) = Some (put i v' s0, sent_upto (k + Z.of_nat n)) /\
    in_handled t (k + Z.of_nat n) v'.
Proof using Ht Hok.
  revert k v. induction n as [|n IH]; intros k v Hst Hk Hn HN; [lia|]. cbn [rounds].
  destruct (round_ok k v Hst) as (v1 & -> & Hh); [lia|].
  destruct n as [|n]; [cbn [rounds]; eauto|].
  destruct (IH (k + 1) v1) as (v2 & -> & Hh2); [by apply handled_state|lia..|].
  replace (k + Z.of_nat (S (S n))) with (k + 1 + Z.of_nat (S n)) by lia. eauto.
Qed.

Lemma handled_all v : in_handled t N v -> in_complete t v.
Proof using.
  intros [[_ Hc]|(p & m & _ & Hinv & Hmode & _)]; [done|]. pose proof (inv_order _ _ _ _ _ _ Hinv).
  destruct Hmode as [(_ & ? & _)|(_ & _ & ? & _)]; lia.
Qed.

End theorems.

(** C29: a transfer to the host is exact whatever the interleaving. Once
    [dcd_edpt_xfer] has accepted a buffer on a free IN endpoint, with the host, the
    start-of-frame signal and the interrupt handler taking turns in any order: the
    handler never panics, the packets on the bus are always a prefix of the cutting of
    the buffer into packets with alternating PIDs, and the stack is told of the
    completion exactly once, with the full length, after the last packet. This is about
    one transfer at a time: [transfer_ok] asks that every other endpoint is idle with
    nothing waiting ([t_quiet]), and no bus reset, suspend, resume or SETUP packet comes
    in between ([in_step]). A transfer of no bytes that starts in the last part of a
    frame, which the E15 workaround defers, is excluded: see [zlp_deferred_stuck]. *)
Theorem in_transfer_safe `{UsbctrlOk} (t : transfer) (s : rp2) :
  transfer_ok t s -> in_ready t (view_of (t_ep t) s) ->
  (t_len t = 0 -> t_e15 t = true -> frame_ending (view_of (t_ep t) s) = false) ->
  exists s1, dcd_edpt_xfer (128 + t_ep t / 2) (t_addr t) (t_len t) s = Some (true, s1) /\
  forall s2 sent, rtc (in_step (t_ep t)) (s1, []) (s2, sent) ->
    (forall frame, dcd_rp2040_irq frame s2 <> None) /\
    sent `prefix_of` transfer_packets t /\
    (if bool_decide (he_state (get_ep s2 (t_ep t)) = EPSTATE_IDLE)
     then sent = transfer_packets t /\
          completions (events s2) = t_done t ++ [EV_XFER_COMPLETE (128 + t_ep t / 2) 0 (t_len t)]
     else completions (events s2) = t_done t).
Proof.
  intros Ht Hrd Hz. pose proof (start_ok t s Ht _ Hrd Hz) as Hstart.
  pose proof (t_i _ _ Ht) as [Hi _]. pose proof (t_sized _ _ Ht) as Hs. rewrite put_view_of in Hstart by done.
  apply swp_run in Hstart as (ok & s1 & Es & -> & v1 & -> & Hst). eexists. split; [exact Es|].
  intros s2 sent Hr. pose proof (N_pos t s Ht) as HN.
  assert (in_config t s (s2, sent)) as (k & v & Hs2 & Hst2 & Hsent & Hk).
  { eapply in_config_reach; [done| |exact Hr]. exists 0, v1. split_and!; done || lia. }
  cbn [fst snd] in *. subst. split_and!.
  - intros frame E. pose proof (irq_ok t s Ht v k frame Hst2) as Hirq. unfold sto_wp in Hirq. by rewrite E in Hirq.
  - by apply sent_prefix.
  - rewrite get_ep_put by done. destruct Hst2 as [[-> Hc]|(p & j & m & Hst' & Hinv & Hmode & _)].
    + pose proof Hc as (_ & -> & _ & _ & _ & Hev). rewrite bool_decide_eq_true_2 by done.
      rewrite (rd_new _ _ Hrd) in Hev. done.
    + rewrite bool_decide_eq_false_2 by (destruct Hmode as [(-> & _)|(-> & _)]; done).
      exact (inv_events _ _ _ _ _ _ Hinv).
Qed.

(** C30: a transfer to the host is completed. As many rounds of start of frame,
    interrupt, host request, interrupt as there are packets send the whole buffer and
    report the completion; the bytes on the bus are the bytes of the buffer. Under the
    conditions of [in_transfer_safe]: the other endpoints idle, no other bus event, no
    deferred transfer of no bytes. *)
Theorem in_transfer_completes `{UsbctrlOk} (t : transfer) (s : rp2) :
  transfer_ok t s -> in_ready t (view_of (t_ep t) s) ->
  (t_len t = 0 -> t_e15 t = true -> frame_ending (view_of (t_ep t) s) = false) ->
  exists s1 s2 sent, dcd_edpt_xfer (128 + t_ep t / 2) (t_addr t) (t_len t) s = Some (true, s1) /\
    rounds t (Z.to_nat (packet_count (t_len t) (t_mps t))) (s1, []) = Some (s2, sent) /\
    concat (snd <$> sent) = mem_read (t_addr t) (t_len t) (t_ram t) /\
    he_state (get_ep s2 (t_ep t)) = EPSTATE_IDLE /\
    completions (events s2) = t_done t ++ [EV_XFER_COMPLETE (128 + t_ep t / 2) 0 (t_len t)].
Proof.
  intros Ht Hrd Hz. pose proof (start_ok t s Ht _ Hrd Hz) as Hstart.
  pose proof (t_i _ _ Ht) as [Hi _]. pose proof (t_sized _ _ Ht) as Hs. rewrite put_view_of in Hstart by done.
  apply swp_run in Hstart as (ok & s1 & Es & -> & v1 & -> & Hst). pose proof (N_pos t s Ht) as HN.
  destruct (rounds_ok t s Ht (Z.to_nat (packet_count (t_len t) (t_mps t))) 0 v1 Hst) as (v2 & Er & Hh); [lia..|].
  rewrite Z2Nat.id, Z.add_0_l in * by lia. apply handled_all in Hh. pose proof Hh as (_ & Hid & _ & _ & _ & Hev).
  rewrite (rd_new _ _ Hrd) in Hev. do 3 eexists. split_and!; [exact Es|exact Er| | |done].
  - by apply packets_data with s.
  - by rewrite get_ep_put.
Qed.

(** ** A concrete transfer *)

(** The driver after initialisation and the opening of the network interface's
    endpoints, with 300 bytes of memory. *)
Definition demo_opened : option rp2 :=
  match (dcd_init ;?; hw_endpoint_open 129 64 TUSB_XFER_INTERRUPT true ;?;
         hw_endpoint_open 2 64 TUSB_XFER_BULK true ;?;
         hw_endpoint_open 130 64 TUSB_XFER_BULK true)
        (rp2_start ((fun k => k mod 256) <$> seqZ 0 300)) with
  | Some (_, s) => Some s
  | None => None
  end.
Definition demo_rp2 : rp2 := default (rp2_start []) demo_opened.

(** 150 bytes from address 20 on the Bulk IN endpoint 0x82. *)
Definition demo_transfer : transfer :=
  mk_transfer 5 64 (dpram_buf (get_ep demo_rp2 5)) 4096 (ram demo_rp2) 20 150 0 true [] 0.

Lemma quiet_check (i : Z) (s : rp2) :
  Forall (fun k => k = i \/ get_pending s k = [] /\ he_state (get_ep s k) = EPSTATE_IDLE) (seqZ 0 32) ->
  forall k, 0 <= k < 32 -> k <> i -> get_pending s k = [] /\ he_state (get_ep s k) = EPSTATE_IDLE.
Proof.
  intros HF k Hk Hne. rewrite Forall_forall in HF. destruct (HF k) as [->|?]; [|done..].
  apply elem_of_seqZ. lia.
Qed.

Lemma demo_transfer_ok : transfer_ok demo_transfer demo_rp2.
Proof.
  split; try (vm_compute; intuition congruence).
  - apply quiet_check. apply (bool_decide_unpack _). vm_compute. done.
Qed.

Lemma demo_ready : in_ready demo_transfer (view_of 5 demo_rp2).
Proof.
  split; [split|..]; try (intros b [-> | ->]); vm_compute; intuition congruence.
Qed.

Lemma in_transfer_safe_witness :
  exists s1, dcd_edpt_xfer 130 20 150 demo_rp2 = Some (true, s1) /\
  forall s2 sent, rtc (in_step 5) (s1, []) (s2, sent) ->
    (forall frame, dcd_rp2040_irq frame s2 <> None) /\
    sent `prefix_of` transfer_packets demo_transfer /\
    (if bool_decide (he_state (get_ep s2 5) = EPSTATE_IDLE)
     then sent = transfer_packets demo_transfer /\ completions (events s2) = [EV_XFER_COMPLETE 130 0 150]
     else completions (events s2) = []).
Proof.
  exact (in_transfer_safe demo_transfer demo_rp2 demo_transfer_ok demo_ready
           (fun E => match Bool.diff_false_true (f_equal (Z.eqb 0) E) with end)).
Defined.

Lemma in_transfer_completes_witness :
  exists s1 s2 sent, dcd_edpt_xfer 130 20 150 demo_rp2 = Some (true, s1) /\
    rounds demo_transfer 3 (s1, []) = Some (s2, sent) /\
    concat (snd <$> sent) = mem_read 20 150 (ram demo_rp2) /\
    he_state (get_ep s2 5) = EPSTATE_IDLE /\
    completions (events s2) = [EV_XFER_COMPLETE 130 0 150].
Proof.
  exact (in_transfer_completes demo_transfer demo_rp2 demo_transfer_ok demo_ready
           (fun E => match Bool.diff_false_true (f_equal (Z.eqb 0) E) with end)).
Defined.
