(* ===== verification/Rp2040Out.v ===== *)
(** * Rp2040Out: a transfer from the host

    The receiving side of Rp2040In: [dcd_edpt_xfer] on an OUT endpoint arms one
    buffer, or two; the host fills them, packet by packet, until a short packet or the
    last one the transfer has room for; the interrupt handler copies them out. The
    theorems below are for a host that waits for the completion after a short packet.
    What the driver does with data that arrives in the other buffer before that, the
    [future_len] logic, is a subject of Rp2040Props. *)

From S2P Require Import Prelude UsbDev Rp2040 Rp2040View Rp2040In.

Section host.
Context `{Usbctrl} (M : Z).

(** The bytes received so far are kept with the state. The host sends no packet
    after a short one. *)
Inductive out_step (i : Z) : rp2 * list (list Z) -> rp2 * list (list Z) -> Prop :=
  | out_token s got data :
      bc_avail (hw_half s i) = true -> bc_full (hw_half s i) = false ->
      zlen data <= bc_len (hw_half s i) -> Forall (fun p => zlen p = M) got ->
      out_step i (s, got)
        (hw_finish i (out_done (zlen data) (hw_half s i))
           (s <| dpram := mem_write (hw_addr s i) data (dpram s) |>), got ++ [data])
  | out_irq s s' got frame :
      dcd_rp2040_irq frame s = Some (tt, s') -> out_step i (s, got) (s', got).

End host.

Section out.
Context `{Hok : UsbctrlOk} (t : transfer) (s0 : rp2).

Abbreviation i := (t_ep t).
Abbreviation M := (t_mps t).
Abbreviation base := (t_base t).
Abbreviation n := (t_len t).
Abbreviation N := (packet_count n M).
Abbreviation off := (packet_off n M).
Abbreviation plen := (packet_len n M).
Abbreviation buf := (buf_of t 0).

Record out_ok : Prop := {
  o_i : 0 <= i < 32 /\ i mod 2 = 0;
  o_sized : sized s0;
  o_host : r_host s0 = false;
  o_M : 0 < M <= 64;
  o_n : 0 <= n < 65536;
  o_a : 0 <= t_addr t /\ t_addr t + n <= zlen (t_ram t);
  o_window : 0 <= base /\ base + 64 * buffers t <= t_dpram t;
  o_ep0 : ep_reg_of i = None -> base = EP0_BUF_A;
  o_pid01 : t_pid t = 0 \/ t_pid t = 1;
  o_sibling : bc_avail (fst (get_bc s0 (i + 1))) = false /\ bc_avail (snd (get_bc s0 (i + 1))) = false;
  o_quiet : forall k, 0 <= k < 32 -> k <> i ->
    get_pending s0 k = [] /\ he_state (get_ep s0 k) = EPSTATE_IDLE }.

Record out_static (v : view) : Prop := {
  os_mps : max_packet_size (v_ep v) = M;
  os_buf : dpram_buf (v_ep v) = base;
  os_addr : he_ep_addr (v_ep v) = i / 2;
  os_e15 : e15_bulk_in (v_ep v) = false;
  os_future : future_len (v_ep v) = 0;
  os_dpram : zlen (v_dpram v) = t_dpram t;
  os_offset : ec_offset (v_ec v) = base;
  os_type : (ec_type (v_ec v) =? TUSB_XFER_ISOCHRONOUS) = false;
  os_inte : i_buff_status (v_inte v) = true /\ i_sof (v_inte v) = false;
  os_raw : quiet_raw (v_raw v) }.

(** Packet [q] of what was received. *)
Definition nth_packet (got : list (list Z)) (q : Z) : list Z := default [] (got !! Z.to_nat q).
Definition taken_upto (got : list (list Z)) (j : Z) : list Z := concat (take (Z.to_nat j) got).

(** The host's packets: none longer than its buffer, and only the last may be short. *)
Record out_packets (got : list (list Z)) (k : Z) : Prop := {
  op_count : zlen got = k /\ 0 <= k <= N;
  op_fits : forall q, 0 <= q < k -> zlen (nth_packet got q) <= plen q;
  op_full : forall q, 0 <= q -> q + 1 < k -> zlen (nth_packet got q) = M }.

(** [j] packets copied out, [k] received, [m] buffers armed in all. *)
Record out_inv (got : list (list Z)) (v : view) (j k m : Z) : Prop := {
  oi_order : 0 <= j <= k /\ k <= m <= N /\ m <= j + buffers t;
  oi_handled : forall q, 0 <= q < j -> zlen (nth_packet got q) = M;
  oi_xferred : xferred_len (v_ep v) = j * M;
  oi_remaining : remaining_len (v_ep v) = n - off m;
  oi_user : user_buf (v_ep v) = t_addr t + j * M;
  oi_pid : next_pid (v_ep v) = pid_of t m;
  oi_ram : v_ram v = mem_write (t_addr t) (taken_upto got j) (t_ram t);
  oi_pend : v_pend v = buf <$> seqZ j (k - j);
  oi_sel : k < N -> v_hw_buf t v = buf k;
  oi_double : 1 < N -> buffers t = 2 -> v_double t v = true;
  oi_armed : forall q, k <= q < m ->
    bc_half (v_bc v) (buf q) = mk_bc false (q + 1 =? N) (negb (pid_of t q =? 0)) false false true (plen q);
  oi_received : forall q, j <= q < k ->
    bc_full (bc_half (v_bc v) (buf q)) = true /\ bc_avail (bc_half (v_bc v) (buf q)) = false /\
    bc_len (bc_half (v_bc v) (buf q)) = zlen (nth_packet got q) /\
    bc_last (bc_half (v_bc v) (buf q)) = (q + 1 =? N) /\
    mem_read (base + 64 * buf q) (zlen (nth_packet got q)) (v_dpram v) = nth_packet got q;
  oi_free : forall b, b = 0 \/ b = 1 -> (forall q, k <= q < m -> buf q <> b) ->
    bc_avail (bc_half (v_bc v) b) = false;
  oi_nosel : bc_sel (fst (v_bc v)) = false;
  oi_events : completions (v_events v) = t_done t }.

Definition out_running (got : list (list Z)) (v : view) (j k m : Z) : Prop :=
  out_static v /\ out_inv got v j k m /\ he_state (v_ep v) = EPSTATE_ACTIVE /\
  j < N /\ m = Z.min N (j + buffers t) /\ out_packets got k.

(** The host has ended the transfer. *)
Definition out_over (got : list (list Z)) : bool :=
  (zlen got =? N) || existsb (fun p => zlen p <? M) got.

Definition out_complete (got : list (list Z)) (v : view) : Prop :=
  out_over got = true /\ zlen (concat got) <= n /\
  out_static v /\ he_state (v_ep v) = EPSTATE_IDLE /\ v_pend v = [] /\
  (forall b, b = 0 \/ b = 1 -> bc_avail (bc_half (v_bc v) b) = false) /\
  bc_sel (fst (v_bc v)) = false /\
  next_pid (v_ep v) = pid_of t (zlen got) /\
  v_ram v = mem_write (t_addr t) (concat got) (t_ram t) /\
  completions (v_events v) = t_done t ++ [EV_XFER_COMPLETE (i / 2) 0 (zlen (concat got))].

Context (Ho : out_ok).

Lemma out_N_pos : 1 <= N.
Proof using Ho. destruct (packet_count_spec n M); destruct Ho; lia. Qed.

Lemma out_reg_cases :
  (ep_reg_of i = None /\ i = 0 /\ buffers t = 1) \/ (ep_reg_of i = Some i /\ i <> 0 /\ buffers t = 2).
Proof using Ho.
  destruct Ho as [[Hi Hev] _ _ _ _ _ _ _ _ _ _]. unfold buffers, ep_reg_of, get_ep_ctrl in *.
  rewrite Z.shiftr_div_pow2 by lia. change (2 ^ 1) with 2.
  destruct (Z.eqb_spec (i / 2) 0); [left|right]; split_and!; try done; try (f_equal); zdivmod.
Qed.

Lemma out_plen q : 0 <= q -> 0 <= plen q <= 64.
Proof using Ho. intros. destruct Ho. pose proof (packet_len_range n M ltac:(lia) ltac:(lia) q ltac:(lia)). lia. Qed.

Lemma off_handled j : 0 <= j -> j + 1 <= N -> off j = j * M.
Proof using Ho.
  destruct Ho. intros. pose proof (packet_count_spec n M ltac:(lia) ltac:(lia)). unfold packet_off. nia.
Qed.

(** The bytes of full packets. *)
Lemma taken_upto_len got j :
  0 <= j <= zlen got -> (forall q, 0 <= q < j -> zlen (nth_packet got q) = M) -> zlen (taken_upto got j) = j * M.
Proof using.
  intros [Hj0 Hj]. revert Hj. pattern j. apply natlike_ind; [done| |done]. intros x Hx IH Hj Hall.
  unfold taken_upto in *. rewrite Z2Nat.inj_succ by lia.
  destruct (lookup_lt_is_Some_2 got (Z.to_nat x)) as [p Hp]; [unfold zlen in *; lia|].
  rewrite (take_S_r _ _ _ Hp), concat_app, zlen_app, IH by (lia || (intros; apply Hall; lia)).
  specialize (Hall x ltac:(lia)). unfold nth_packet in Hall. rewrite Hp in Hall. cbn in *. rewrite app_nil_r. lia.
Qed.

Lemma taken_upto_next got j :
  0 <= j < zlen got -> taken_upto got (j + 1) = taken_upto got j ++ nth_packet got j.
Proof using.
  intros Hj. unfold taken_upto, nth_packet. replace (Z.to_nat (j + 1)) with (S (Z.to_nat j)) by lia.
  destruct (lookup_lt_is_Some_2 got (Z.to_nat j)) as [p Hp]; [unfold zlen in *; lia|].
  rewrite (take_S_r _ _ _ Hp), concat_app, Hp. cbn. by rewrite app_nil_r.
Qed.

Lemma taken_upto_all got : taken_upto got (zlen got) = concat got.
Proof using. unfold taken_upto, zlen. by rewrite Nat2Z.id, take_ge by lia. Qed.

(** Writing a packet after those already written. *)
Lemma mem_write_next a (x y m : list Z) :
  0 <= a -> mem_write (a + zlen x) y (mem_write a x m) = mem_write a (x ++ y) m.
Proof using.
  intros Ha. apply mem_get_ext; rewrite !mem_write_zlen; [done|]. intros k Hk.
  pose proof (zlen_nonneg x). pose proof (zlen_nonneg y).
  rewrite !mem_get_write, zlen_app by (rewrite ?mem_write_zlen; lia).
  destruct (Z.leb_spec (a + zlen x) k), (Z.ltb_spec k (a + zlen x + zlen y)), (Z.leb_spec a k),
    (Z.ltb_spec k (a + zlen x)), (Z.ltb_spec k (a + (zlen x + zlen y))); cbn [andb]; try lia; try done;
    rewrite mem_get_app by lia; case_if; bool_prop; try lia; f_equal; lia.
Qed.

(** Arming a buffer. *)
Lemma out_prepared got v j k m b :
  out_static v -> out_inv got v j k m -> m < N ->
  prepared_len v = plen m /\
  prepared_half v true = mk_bc false (m + 1 =? N) (negb (pid_of t m =? 0)) false false true (plen m) /\
  out_static (prepared v b true) /\
  remaining_len (v_ep (prepared v b true)) = n - off (m + 1) /\
  next_pid (v_ep (prepared v b true)) = pid_of t (m + 1).
Proof using Ho.
  intros [] [] Hm. destruct Ho.
  assert (prepared_len v = plen m) as El.
  { unfold prepared_len. rewrite os_mps0, oi_remaining0. rewrite packet_len_min by lia. done. }
  assert (u16 (n - off m - plen m) = n - off (m + 1)) as Er.
  { pose proof (packet_off_range n M ltac:(lia) ltac:(lia) (m + 1) ltac:(lia)).
    unfold packet_len in *. rewrite u16_small by (unfold is_u16; lia). lia. }
  split_and!; try done.
  - unfold prepared_half. rewrite El, oi_remaining0, oi_pid0, Er, packet_is_last by lia. done.
  - cbn. by rewrite El, oi_remaining0, Er.
  - cbn. rewrite oi_pid0. apply pid_of_next.
Qed.

Lemma out_arm got v j k m :
  out_static v -> out_inv got v j k m -> m < N -> m < j + buffers t ->
  let v' := (prepared v (base + 64 * buf m) true)
              <| v_bc := bc_set_half (buf m) (prepared_half v true) (v_bc v) |> in
  out_static v' /\ out_inv got v' j k (m + 1).
Proof using Ho.
  intros Hst Hinv Hm Hw.
  destruct (out_prepared got v j k m (base + 64 * buf m) Hst Hinv Hm) as (Hl & Hh & Hst' & Hr & Hp).
  pose proof Hinv as []. rewrite Hh. intros v'.
  assert (v_bc v' = bc_set_half (buf m)
    (mk_bc false (m + 1 =? N) (negb (pid_of t m =? 0)) false false true (plen m)) (v_bc v)) as Ebc by done.
  split; [by destruct Hst'; split|]. split; try done; rewrite ?Ebc.
  - lia.
  - intros q Hq. rewrite (bc_half_set) by apply buf_of_01. destruct (decide (q = m)) as [->|Hne].
    + by rewrite Z.eqb_refl.
    + assert (buf m <> buf q) by (apply buf_of_other; lia).
      destruct (Z.eqb_spec (buf m) (buf q)); [done|]. apply oi_armed0. lia.
  - intros q Hq. rewrite (bc_half_set) by apply buf_of_01.
    assert (buf m <> buf q) by (apply buf_of_other; lia).
    destruct (Z.eqb_spec (buf m) (buf q)); [done|]. by apply oi_received0.
  - intros b Hb Hfree. rewrite (bc_half_set) by (apply buf_of_01 || done).
    destruct (Z.eqb_spec (buf m) b) as [E|E]; [by destruct (Hfree m); [lia|]|].
    apply oi_free0; [done|]. intros q Hq. apply Hfree. lia.
  - unfold bc_set_half. by destruct (buf m =? 0).
Qed.

(** *** The start *)

(** The endpoint is free. *)
Record out_ready (v : view) : Prop := {
  or_static : out_static v;
  or_idle : he_state (v_ep v) = EPSTATE_IDLE;
  or_pid : next_pid (v_ep v) = t_pid t;
  or_pend : v_pend v = [];
  or_free : forall b, b = 0 \/ b = 1 -> bc_avail (bc_half (v_bc v) b) = false;
  or_ram : v_ram v = t_ram t;
  or_events : completions (v_events v) = t_done t }.

Definition out_started (v : view) : view :=
  v <| v_ep := (v_ep v) <| remaining_len := n |> <| xferred_len := 0 |>
                        <| he_state := EPSTATE_ACTIVE |> <| user_buf := t_addr t |> |>.

Lemma buf_0 : buf 0 = 0.
Proof using. unfold buf_of. by destruct (buffers t =? 1). Qed.

Lemma out_inv_start v :
  out_ready v ->
  let d := if buffers t =? 1 then ec_double (v_ec v) else negb (1 =? N) in
  out_static (fresh d (out_started v)) /\ out_inv [] (fresh d (out_started v)) 0 0 0.
Proof using Ho.
  pose proof out_N_pos. destruct Ho. intros [[]] d.
  split; [by split|]. split; rewrite ?packet_off_0 by lia; cbn; try done; try lia.
  - destruct (buffers_cases t); lia.
  - unfold pid_of. rewrite Z.add_0_r, Z.mod_small by lia. done.
  - intros Hk. rewrite buf_0.
    unfold v_hw_buf, v_double, d. cbn [fresh v_ec v_sel ec_double setf].
    destruct (ep_reg_of i); [|done]. by case_if.
  - intros Hk1 Hb. unfold v_double, d. cbn [fresh v_ec v_sel ec_double setf].
    destruct out_reg_cases as [(? & ? & ?)|(-> & _)]; [lia|]. rewrite Hb.
    change (2 =? 1) with false. by destruct (Z.eqb_spec 1 N); [lia|].
  - intros b [-> | ->] _; done.
Qed.

Lemma out_buffer_start v (Q : unit -> rp2 -> Prop) :
  out_ready v ->
  (forall v', out_static v' -> out_inv [] v' 0 0 (Z.min N (buffers t)) ->
     he_state (v_ep v') = EPSTATE_ACTIVE -> Q tt (put i v' s0)) ->
  sto_wp (rp2usb_buffer_start i (ep_reg_of i) i true) Q (put i (out_started v) s0).
Proof using Ho.
  intros Hrd HQ. pose proof Ho as [[Hi Hev] Hs _ _ _ _ _ _ _ _ _]. pose proof out_N_pos as HN.
  pose proof (or_free _ Hrd 0 ltac:(auto)) as Ha0. pose proof (or_free _ Hrd 1 ltac:(auto)) as Ha1.
  cbn [bc_half Z.eqb] in Ha0, Ha1.
  assert ((n - off (0 + 1) =? 0) = (0 + 1 =? N)) as Elast by (destruct Ho; apply packet_is_last; lia).
  destruct (out_inv_start v Hrd) as [Hst0 Hinv0].
  assert (out_static (out_started v)) as Hst by (by destruct Hrd as [[]]).
  assert (he_state (v_ep (out_started v)) = EPSTATE_ACTIVE) as Hact by done.
  change (v_bc v) with (v_bc (out_started v)) in Ha0, Ha1. change (v_ec v) with (v_ec (out_started v)) in Hst0, Hinv0.
  set (w := out_started v) in *. clearbody w. clear Hrd v.
  destruct (out_prepared _ _ _ _ _ base Hst0 Hinv0 ltac:(lia)) as (_ & _ & _ & Hr1 & _).
  destruct (out_arm _ _ _ _ _ Hst0 Hinv0) as [HstA HinvA]; [lia|destruct (buffers_cases t); lia|].
  rewrite buf_0 in HstA, HinvA.
  unfold rp2usb_buffer_start. vstep. vstep. rewrite (os_buf _ Hst). vstep. vstep. vstep.
  destruct out_reg_cases as [(Er & _ & Hb)|(Er & _ & Hb)]; rewrite Er; rewrite Hb in *;
    change (1 =? 1) with true in *; change (2 =? 1) with false in *; cbv iota in HstA, HinvA, Hr1.
  - vstep. apply swp_write32; [assumption..|].
    replace (Z.min N 1) with (0 + 1) in HQ by lia. rewrite Z.mul_0_r, Z.add_0_r in *.
    apply HQ; [destruct w as [? [] ? ? ? ? ? ? ? ? ? ? ?]; assumption..|done].
  - vstep. vstep. change (remaining_len (v_ep (prepared w base true))) with
      (remaining_len (v_ep (prepared (fresh (negb (1 =? N)) w) base true))).
    rewrite Hr1, Elast.
    change (v_ec (prepared w base true)) with (v_ec w). rewrite (os_type _ Hst).
    cbn [negb]. rewrite andb_true_r. change (0 + 1) with 1 in *.
    destruct (Z.eqb_spec 1 N) as [El|El]; cbn [negb] in *.
    + vstep. vstep. vstep. apply swp_write32; [assumption..|].
      replace (Z.min N 2) with 1 in HQ by lia. rewrite Z.mul_0_r, Z.add_0_r in *.
      apply HQ; [destruct w as [? [] ? ? ? ? ? ? ? ? ? ? ?]; assumption..|done].
    + destruct (out_arm _ _ _ _ _ HstA HinvA) as [HstB HinvB]; [lia..|].
      replace (Z.min N 2) with (1 + 1) in HQ by lia.
      replace (buf 1) with 1 in * by (unfold buf_of; by rewrite Hb). rewrite Z.mul_0_r, Z.add_0_r in *.
      vstep. vstep. vstep. vstep. vstep. apply swp_write32; [assumption..|].
      apply HQ; [destruct w as [? [] ? ? ? ? ? ? ? ? ? ? ?]; exact HstB|
        destruct w as [? [] ? ? ? ? ? ? ? ? ? ? ?]; exact HinvB|done].
Qed.

(** *** Copying a packet out *)

Definition copied (len b : Z) (v : view) : view :=
  let e := (v_ep v) <| user_buf := user_buf (v_ep v) + len |>
                    <| xferred_len := u16 (xferred_len (v_ep v) + len) |> in
  v <| v_ep := if len <? max_packet_size (v_ep v) then e <| remaining_len := 0 |> else e |>
    <| v_ram := mem_write (user_buf (v_ep v)) (mem_read b len (v_dpram v)) (v_ram v) |>.

Lemma sync16_out v h b (Q : Z -> rp2 -> Prop) :
  bc_full h = true -> Q (bc_len h) (put i (copied (bc_len h) b v) s0) ->
  sto_wp (bufctrl_sync16 i true h b) Q (put i v s0).
Proof using Ho.
  intros Hf HQ. pose proof Ho as [[Hi Hev] Hs _ _ _ _ _ _ _ _ _].
  unfold bufctrl_sync16. vstep. vstep. rewrite Hf. cbn [negb]. vstep. vstep. vstep.
  rewrite get_ep_put by done. vstep. vstep. vstep. vstep.
  unfold copied in HQ. destruct (bc_len h <? max_packet_size (v_ep v)); cbn [sto_when]; vstep; vstep; exact HQ.
Qed.

(** What is left to do when the last packet has been copied. *)
Record out_finished (got : list (list Z)) (v : view) : Prop := {
  of_over : out_over got = true;
  of_fits : zlen (concat got) <= n;
  of_static : out_static v;
  of_xferred : xferred_len (v_ep v) = zlen (concat got);
  of_pend : v_pend v = [];
  of_free : forall b, b = 0 \/ b = 1 -> bc_avail (bc_half (v_bc v) b) = false;
  of_nosel : bc_sel (fst (v_bc v)) = false;
  of_pid : next_pid (v_ep v) = pid_of t (zlen got);
  of_ram : v_ram v = mem_write (t_addr t) (concat got) (t_ram t);
  of_events : completions (v_events v) = t_done t }.

Lemma copied_facts got v j k m rest :
  out_running got v j k m -> j < k -> v_pend v = buf j :: rest ->
  let L := zlen (nth_packet got j) in
  let v1 := copied L (base + 64 * buf j) (v <| v_pend := rest |>) in
  0 <= L <= plen j /\ j * M + L <= n /\
  out_static v1 /\ v_bc v1 = v_bc v /\ he_state (v_ep v1) = EPSTATE_ACTIVE /\
  next_pid (v_ep v1) = pid_of t m /\
  v_ram v1 = mem_write (t_addr t) (taken_upto got (j + 1)) (t_ram t) /\
  xferred_len (v_ep v1) = j * M + L /\ user_buf (v_ep v1) = t_addr t + j * M + L /\
  remaining_len (v_ep v1) = (if L <? M then 0 else n - off m) /\
  v_pend v1 = buf <$> seqZ (j + 1) (k - (j + 1)) /\ zlen (taken_upto got j) = j * M.
Proof using Ho.
  intros (Hst & Hinv & Hact & HjN & Hm & Hpk) Hjk Hp L v1. pose proof Hst as []. pose proof Hinv as []. pose proof Hpk as [].
  assert (0 <= L <= plen j) as HL by (split; [apply zlen_nonneg|apply op_fits0; lia]).
  assert (zlen (taken_upto got j) = j * M) as Hlen by (apply taken_upto_len; [lia|done]).
  assert (j * M + L <= n) as Hbound.
  { destruct Ho. rewrite <- off_handled by lia. pose proof (packet_off_range n M ltac:(lia) ltac:(lia) (j + 1) ltac:(lia)).
    unfold packet_len in HL. lia. }
  assert (forall A (f : hw_endpoint -> A), (forall e x, f (e <| xferred_len := x |>) = f e) ->
            (forall e x, f (e <| remaining_len := x |>) = f e) ->
            (forall e x, f (e <| user_buf := x |>) = f e) -> f (v_ep v1) = f (v_ep v)) as Hf.
  { intros A f H1 H2 H3. unfold v1, copied. cbn. destruct (_ <? _); rewrite ?H2, H1; apply H3. }
  split_and!; try done.
  - lia.
  - lia.
  - split; rewrite ?Hf by done; done.
  - by rewrite Hf.
  - by rewrite Hf.
  - transitivity (mem_write (user_buf (v_ep v)) (mem_read (base + 64 * buf j) L (v_dpram v)) (v_ram v)); [done|].
    unfold L. rewrite taken_upto_next by lia. rewrite oi_user0, oi_ram0. destruct (oi_received0 j ltac:(lia)) as (_ & _ & _ & _ & ->).
    rewrite <- Hlen. apply mem_write_next. destruct Ho; lia.
  - unfold v1, copied. cbn. destruct Ho. rewrite oi_xferred0, u16_small by (unfold is_u16; nia). by destruct (_ <? _).
  - unfold v1, copied. cbn. rewrite oi_user0. by destruct (_ <? _).
  - unfold v1, copied. cbn. rewrite os_mps0. by destruct (L <? M).
  - change (v_pend v1) with rest. rewrite oi_pend0, seqZ_cons in Hp by lia. injection Hp as <-. do 2 f_equal; lia.
Qed.

Lemma out_sibling_idle v :
  bc_avail (fst (get_bc (put i v s0) (i + 1))) = false /\ bc_avail (snd (get_bc (put i v s0) (i + 1))) = false.
Proof using Ho.
  destruct Ho as [[Hi Hev] _ _ _ _ _ _ _ _ Hsib _]. unfold get_bc, put. cbn.
  rewrite list_lookup_insert_ne by lia. exact Hsib.
Qed.

Lemma sibling_bit : status_ep i = i + 1.
Proof using Ho.
  destruct Ho as [[Hi Hev] _ _ _ _ _ _ _ _ _ _].
  unfold status_ep, hw_endpoint_get, TUSB_DIR_IN, TUSB_DIR_OUT. rewrite Z.shiftr_div_pow2 by lia.
  change (2 ^ 1) with 2. pose proof (Zmod_odd i). destruct (Z.odd i); zdivmod.
Qed.

(** The abort after a short packet: the other buffer is taken back, with its PID. *)
Lemma abort_other_ok v b (Q : unit -> rp2 -> Prop) :
  out_static v -> bc_full (bc_half (v_bc v) (Z.lxor b 1)) = false ->
  (forall a, Q tt (put i (v <| v_ep := (v_ep v) <| next_pid := Z.lxor (next_pid (v_ep v)) 1 |> |>
                            <| v_bc := (bc_zero, bc_zero) |> <| v_aborts := a |>) s0)) ->
  sto_wp (abort_other_half i i b) Q (put i v s0).
Proof using Ho Hok.
  intros Hst Hfull HQ. pose proof Ho as [[Hi Hev] Hs _ _ _ _ _ _ _ _ _].
  unfold abort_other_half. vstep. vstep. rewrite (os_addr _ Hst).
  assert (Z.shiftl (tu_edpt_number (i / 2)) 1 = i) as ->.
  { assert (0 <= i / 2 < 16 /\ i = 2 * (i / 2)) as [Hq Ei] by zdivmod. unfold tu_edpt_number.
    change 15 with (Z.ones 4). rewrite Z.land_ones, Z.shiftl_mul_pow2, Z.mod_small by lia. lia. }
  vstep. apply swp_mono with (Q := fun _ s' => exists a, s' = put i (v <| v_aborts := a |>) s0).
  { vstep.
    - unfold hw_abort, sto_wp. rewrite put_aborts, abort_idle.
      + by eexists.
      + rewrite sibling_bit. apply out_sibling_idle.
      + rewrite sibling_bit. apply out_sibling_idle.
    - exists (v_aborts v). by destruct v. }
  intros [] s' (a & ->). vstep. vstep. change (v_bc (v <| v_aborts := a |>)) with (v_bc v). rewrite Hfull.
  vstep. vstep. vstep. exact (HQ a).
Qed.

Lemma pid_of_back q : Z.lxor (pid_of t (q + 2)) 1 = pid_of t (q + 1).
Proof using. rewrite pid_of_next. unfold pid_of. zdivmod. Qed.

Lemma out_continue got v j k m rest (Q : bool -> rp2 -> Prop) :
  out_running got v j k m -> j < k -> v_pend v = buf j :: rest ->
  (forall v', out_finished got v' -> Q true (put i v' s0)) ->
  (forall v' m', out_running got v' (j + 1) k m' -> Q false (put i v' s0)) ->
  sto_wp (rp2usb_xfer_continue i (ep_reg_of i) i (buf j) true) Q (put i (v <| v_pend := rest |>) s0).
Proof using Ho Hok.
  intros Hrun Hjk Hp HQ1 HQ2. pose proof Ho as [[Hi Hev] Hs _ _ _ _ _ _ _ _ _].
  pose proof (copied_facts got v j k m rest Hrun Hjk Hp) as Hfacts. cbv zeta in Hfacts.
  pose proof Hrun as (Hst & Hinv & Hact & HjN & Hm & Hpk).
  destruct (oi_received _ _ _ _ _ Hinv j ltac:(lia)) as (Hfull & _ & Hlen & Hlast & _).
  unfold rp2usb_xfer_continue. vstep. vstep. cbn [v_ep v_bc v_ec setf].
  rewrite bool_decide_eq_false_2 by (rewrite Hact; done). vstep. rewrite (os_buf _ Hst), (os_mps _ Hst).
  replace (if negb (buf j =? 0) then base + 64 else base) with (base + 64 * buf j)
    by (destruct (buf_of_01 t 0 j) as [-> | ->]; cbn; lia).
  apply sync16_out; [exact Hfull|]. rewrite Hlen, Hlast. set (L := zlen (nth_packet got j)) in *.
  set (v1 := copied _ _ _) in *. destruct Hfacts as (HL & HLn & Hst1 & Ebc & Hact1 & Hpid1 & Hram1 & Hx1 & Hu1 & Hr1 & Hp1 & Hlenj).
  pose proof (oi_order _ _ _ _ _ Hinv) as Hord. destruct (op_count _ _ Hpk) as [Hgot Hk].
  assert (zlen (taken_upto got (j + 1)) = j * M + L) as Hlen1.
  { rewrite taken_upto_next, zlen_app, Hlenj by lia. done. }
  assert (forall v', k = N \/ L < M -> out_static v' -> k = j + 1 -> xferred_len (v_ep v') = xferred_len (v_ep v1) ->
    v_pend v' = v_pend v1 -> v_ram v' = v_ram v1 -> v_events v' = v_events v1 ->
    (forall b, b = 0 \/ b = 1 -> bc_avail (bc_half (v_bc v') b) = false) -> bc_sel (fst (v_bc v')) = false ->
    next_pid (v_ep v') = pid_of t (j + 1) -> out_finished got v') as Hfin.
  { intros v' H0 H1 H2 H3 H4 H5 H6 H7 H8 H9.
    split; rewrite ?H3, ?H4, ?H5, ?H6, ?H9; try done.
    - unfold out_over. apply orb_true_iff. destruct H0 as [->|Hsh]; [left; by apply Z.eqb_eq|right].
      apply existsb_exists. exists (nth_packet got j). split; [|by apply Z.ltb_lt].
      unfold nth_packet. destruct (lookup_lt_is_Some_2 got (Z.to_nat j)) as [p Hpj]; [unfold zlen in *; lia|].
      rewrite Hpj. cbn. by eapply list_elem_of_In, list_elem_of_lookup_2.
    - rewrite <- taken_upto_all, Hgot, H2. lia.
    - rewrite <- taken_upto_all, Hgot, H2. lia.
    - rewrite Hp1, H2. by rewrite Z.sub_diag.
    - by rewrite Hgot, H2.
    - by rewrite <- taken_upto_all, Hgot, H2.
    - exact (oi_events _ _ _ _ _ Hinv). }
  destruct (Z.eqb_spec (j + 1) N) as [El|El].
  { rewrite andb_false_r, orb_true_r. vstep. vstep. cbn [negb andb sto_when]. vstep. vstep. apply HQ1, Hfin; try done.
    - left. lia.
    - lia.
    - intros b Hb. rewrite Ebc. eapply oi_free; [done..|lia].
    - rewrite Ebc. exact (oi_nosel _ _ _ _ _ Hinv).
    - rewrite Hpid1. f_equal. lia. }
  destruct (Z.ltb_spec L M) as [Hsh|Hfl]; cbn [negb orb andb].
  - assert (k = j + 1) as Hkj by (destruct (decide (j + 1 < k)); [pose proof (op_full _ _ Hpk j); lia|lia]).
    destruct out_reg_cases as [(Er & _ & Hb)|(Er & _ & Hb)]; rewrite Er; cbn [andb].
    + vstep. vstep. cbn [sto_when]. vstep. vstep. apply HQ1, Hfin; try done.
      * by right.
      * intros b Hb01. rewrite Ebc. eapply oi_free; [done..|lia].
      * rewrite Ebc. exact (oi_nosel _ _ _ _ _ Hinv).
      * rewrite Hpid1. f_equal. lia.
    + rewrite get_ec_put by done. pose proof (oi_double _ _ _ _ _ Hinv ltac:(lia) Hb) as Hd.
      unfold v_double in Hd. rewrite Er in Hd. cbn [v_ec setf]. rewrite Hd. cbn [andb]. vstep.
      assert (m = j + 2) as -> by lia.
      apply abort_other_ok; [done| |].
      * replace (Z.lxor (buf j) 1) with (buf (j + 1)).
        { rewrite Ebc. by rewrite (oi_armed _ _ _ _ _ Hinv (j + 1)) by lia. }
        rewrite buf_of_next by done. by destruct (buf_of_01 t 0 j) as [-> | ->].
      * intros a. vstep. apply HQ1, Hfin; try done; [by right|by destruct Hst1| |].
        -- intros b [-> | ->]; done.
        -- transitivity (Z.lxor (next_pid (v_ep v1)) 1); [done|]. rewrite Hpid1. apply pid_of_back.
  - assert (L = M /\ plen j = M) as [HLM HpM].
    { pose proof (packet_len_range n M ltac:(destruct Ho; lia) ltac:(destruct Ho; lia) j ltac:(lia)). lia. }
    vstep. vstep. rewrite Hr1, (os_e15 _ Hst1), Hact1.
    assert (out_inv got v1 (j + 1) k m) as Hinv1.
    { destruct Hinv. split; rewrite ?Ebc; try done; try lia.
      - intros q Hq. destruct (decide (q = j)) as [->|]; [done|]. apply oi_handled0. lia.
      - intros q Hq. apply oi_received0. lia. }
    destruct (decide (m = N)) as [->|Hne].
    + rewrite packet_off_end, Z.sub_diag by (destruct Ho; lia). cbn [Z.ltb Z.compare sto_when andb]. vstep. vstep.
      apply (HQ2 v1 N). split_and!; try done; lia.
    + assert (0 < n) as Hn0.
      { destruct Ho. pose proof (packet_off_full n M ltac:(lia) ltac:(lia) j ltac:(lia) ltac:(lia)).
        pose proof (packet_off_range n M ltac:(lia) ltac:(lia) j ltac:(lia)). lia. }
      rewrite (proj2 (Z.ltb_lt 0 (n - off m))) by (destruct Ho; apply packet_remains; lia).
      cbn [sto_when andb]. assert (m = j + buffers t) as -> by lia.
      vstep. vstep. vstep. vstep. rewrite <- (buf_of_reuse t 0 j). vstep.
      destruct (out_arm _ _ _ _ _ Hst1 Hinv1) as [Hst3 Hinv3]; [lia..|].
      apply swp_write16; try done.
      * change (v_bc _) with (v_bc v1). eapply oi_free; [exact Hinv1|apply buf_of_01|]. intros q Hq. apply buf_of_other; lia.
      * exact (oi_nosel _ _ _ _ _ Hinv1).
      * vstep. apply (HQ2 _ (j + buffers t + 1)). split_and!; [exact Hst3|exact Hinv3|exact Hact1|lia|lia|done].
Qed.

(** *** The interrupt handler *)

Lemma out_bit :
  status_ep i = i + 1 /\ Z.shiftr (i + 1) 1 = Z.shiftr i 1 /\ Z.odd (i + 1) = true /\
  hw_endpoint_get (Z.shiftr i 1) TUSB_DIR_OUT = i /\ get_buf_ctrl (Z.shiftr i 1) TUSB_DIR_OUT = i /\
  get_ep_ctrl (Z.shiftr i 1) TUSB_DIR_OUT = ep_reg_of i.
Proof using Ho.
  split; [apply sibling_bit|]. destruct Ho as [[Hi Hev] _ _ _ _ _ _ _ _ _ _].
  unfold ep_reg_of, hw_endpoint_get, get_buf_ctrl, TUSB_DIR_OUT.
  rewrite !Z.shiftr_div_pow2 by lia. change (2 ^ 1) with 2. rewrite Hev. split_and!; try done; try zdivmod.
  pose proof (Zmod_odd (i + 1)) as E. destruct (Z.odd (i + 1)); [done|zdivmod].
Qed.

Lemma out_status_ep : status_ep (i + 1) = i.
Proof using Ho. rewrite <- sibling_bit. apply status_ep_inv. destruct Ho; lia. Qed.

(** Everything received has been dealt with. *)
Definition out_handled (got : list (list Z)) (v : view) : Prop :=
  out_complete got v \/ exists m, out_running got v (zlen got) (zlen got) m.

Lemma out_finish got v (Q : unit -> rp2 -> Prop) :
  out_finished got v -> (forall v', out_complete got v' -> Q tt (put i v' s0)) ->
  sto_wp (rp2usb_reset_transfer i ;?; dcd_event_xfer_complete (he_ep_addr (v_ep v)) (xferred_len (v_ep v)))
    Q (put i v s0).
Proof using Ho.
  intros [] HQ. pose proof Ho as [[Hi Hev] Hs _ _ _ _ _ _ _ _ _].
  unfold rp2usb_reset_transfer, dcd_event_xfer_complete. vstep. vstep. vstep. apply HQ.
  split_and!; try done; [by destruct of_static0|]. cbn -[completions].
  rewrite completions_app, of_events0, (os_addr _ of_static0), of_xferred0. done.
Qed.

Lemma out_bit_done got v fuel : out_complete got v -> buff_status_bit (S fuel) (i + 1) (put i v s0) = Some (tt, put i v s0).
Proof using Ho.
  intros (_ & _ & _ & _ & Hp & _). pose proof Ho as [[Hi Hev] Hs _ _ _ _ _ _ _ _ _]. cbn [buff_status_bit].
  destruct out_bit as (_ & -> & -> & -> & _). by rewrite get_pending_put, Hp by done.
Qed.

Lemma out_bit_ok fuel got v j m (Q : unit -> rp2 -> Prop) :
  out_running got v j (zlen got) m -> (length (v_pend v) < fuel)%nat ->
  (forall v', out_handled got v' -> Q tt (put i v' s0)) ->
  sto_wp (buff_status_bit fuel (i + 1)) Q (put i v s0).
Proof using Ho Hok.
  pose proof Ho as [[Hi Hev] Hs _ _ _ _ _ _ _ _ _].
  revert v j m. induction fuel as [|fuel IH]; intros v j m Hrun Hlen HQ; [lia|].
  pose proof Hrun as (Hst & Hinv & _). pose proof (oi_order _ _ _ _ _ Hinv) as Hord.
  unfold sto_wp. cbn [buff_status_bit]. destruct out_bit as (_ & -> & -> & -> & -> & ->).
  rewrite get_pending_put by done. destruct (v_pend v) as [|b rest] eqn:Ep.
  { assert (j = zlen got) as ->; [|apply HQ; right; eauto].
    rewrite (oi_pend _ _ _ _ _ Hinv) in Ep. destruct (decide (j < zlen got)); [|lia].
    rewrite seqZ_cons in Ep by lia. done. }
  assert (j < zlen got /\ b = buf j) as [Hjk ->].
  { rewrite (oi_pend _ _ _ _ _ Hinv) in Ep. destruct (decide (j < zlen got)).
    - rewrite seqZ_cons in Ep by lia. by injection Ep as ->.
    - replace (zlen got - j) with 0 in Ep by lia. done. }
  match goal with |- match ?c ?s with _ => _ end => change (sto_wp c Q s) end.
  vstep. apply swp_set_pending. vstep. eapply out_continue; [done..| |].
  - intros v' Hf. vstep. vstep. vstep. cbn [sto_when]. eapply out_finish; [done|]. intros v'' Hc. cbv beta.
    unfold sto_wp. destruct fuel as [|fuel]; [cbn [length] in Hlen; lia|].
    rewrite (out_bit_done got) by done. apply HQ. by left.
  - intros v' m' Hrun'. vstep. vstep. vstep. cbn [sto_when]. vstep. eapply IH; [done| |done].
    assert (length (v_pend v') = length rest) as ->; [|cbn [length] in Hlen; lia].
    destruct Hrun' as (_ & Hinv' & _). rewrite (oi_pend _ _ _ _ _ Hinv').
    rewrite (oi_pend _ _ _ _ _ Hinv), seqZ_cons in Ep by lia. injection Ep as <-.
    rewrite !length_fmap, !length_seqZ. lia.
Qed.

Definition out_state (got : list (list Z)) (v : view) : Prop :=
  out_complete got v \/ exists j m, out_running got v j (zlen got) m.

Lemma out_state_static got v : out_state got v -> out_static v.
Proof using. intros [(_ & _ & ? & _)|(j & m & ? & _)]; done. Qed.

Lemma out_irq_ok got v frame :
  out_state got v ->
  sto_wp (dcd_rp2040_irq frame) (fun _ s' => exists v', s' = put i v' s0 /\ out_handled got v') (put i v s0).
Proof using Ho Hok.
  intros Hst. pose proof Ho as [[Hi Hev] Hs _ _ _ _ _ _ _ _ Hq].
  destruct (out_state_static got v Hst) as [_ _ _ _ _ _ _ _ [Hb Hsof] (R1 & R2 & R3 & R4)].
  assert (buf_status (put i v s0) = match v_pend v with [] => [] | _ => [i + 1] end) as Hbs.
  { rewrite buf_status_one by (done || (intros; by apply Hq)). by rewrite sibling_bit. }
  unfold dcd_rp2040_irq. vstep. apply swp_get.
  assert (ints_status (put i v s0) = mk_ints false (negb (bool_decide (v_pend v = []))) false false false false) as ->.
  { unfold ints_status, ints_and. rewrite Hbs. cbn. rewrite R1, R2, R3, R4, Hb, Hsof, andb_true_r, andb_false_r.
    cbn. f_equal. by destruct (v_pend v). }
  cbn [i_sof i_buff_status i_setup i_bus_reset i_suspend i_resume sto_when]. vstep. vstep. vstep.
  apply swp_mono with (Q := fun _ s' => exists v', s' = put i v' s0 /\ out_handled got v').
  2: { intros [] s' (v' & -> & Hh). repeat vstep. eauto. }
  destruct Hst as [Hc|(j & m & Hrun)].
  - pose proof Hc as (_ & _ & _ & _ & -> & _). rewrite bool_decide_eq_true_2 by done. cbn [negb sto_when]. vstep. eexists. split; [done|by left].
  - vstep.
    + unfold handle_hw_buff_status. vstep. apply swp_get. rewrite Hbs.
      destruct (v_pend v) as [|b l] eqn:Ep; [by rewrite bool_decide_eq_true_2 in * by done|].
      cbn [sto_iter]. vstep. vstep. apply swp_get. rewrite out_status_ep. eapply out_bit_ok; [done| |].
      * rewrite get_pending_put by done. lia.
      * intros v' Hh. vstep. eauto.
    + bool_prop. match goal with E : bool_decide _ = true |- _ => apply bool_decide_eq_true_1 in E; rename E into Ep end.
      eexists. split; [done|]. right. exists m. pose proof Hrun as (_ & Hinv & _).
      pose proof (oi_order _ _ _ _ _ Hinv). rewrite (oi_pend _ _ _ _ _ Hinv) in Ep.
      destruct (decide (j < zlen got)); [rewrite seqZ_cons in Ep by lia; done|].
      by replace j with (zlen got) in Hrun by lia.
Qed.

(** *** The host sends a packet *)

Lemma nth_packet_app got data q :
  0 <= q <= zlen got -> nth_packet (got ++ [data]) q = if q =? zlen got then data else nth_packet got q.
Proof using.
  unfold nth_packet, zlen. intros Hq. destruct (Z.eqb_spec q (Z.of_nat (length got))) as [->|Hne].
  - rewrite Nat2Z.id, lookup_app_r, Nat.sub_diag by lia. done.
  - rewrite lookup_app_l by lia. done.
Qed.

Lemma taken_upto_app got data j : j <= zlen got -> taken_upto (got ++ [data]) j = taken_upto got j.
Proof using. unfold taken_upto, zlen. intros. rewrite take_app_le by lia. done. Qed.

Lemma out_hw_buf v : hw_buf (put i v s0) i = v_hw_buf t v.
Proof using Ho.
  pose proof Ho as [[Hi Hev] Hs _ _ _ _ _ _ _ _ _]. unfold hw_buf, v_hw_buf, v_double.
  destruct out_reg_cases as [(-> & _)|(-> & _)]; [done|]. by rewrite get_ec_put, get_sel_put by done.
Qed.

Lemma out_hw_finish h v : hw_finish i h (put i v s0) = put i (taken t h v) s0.
Proof using Ho.
  pose proof Ho as [[Hi Hev] Hs _ _ _ _ _ _ _ _ _]. unfold hw_finish. rewrite out_hw_buf.
  rewrite get_bc_put, get_pending_put by done. unfold taken, put. cbn. by rewrite !list_insert_insert_eq.
Qed.

Lemma out_take got v j m data :
  out_running got v j (zlen got) m -> zlen got < m -> zlen data <= plen (zlen got) ->
  Forall (fun p => zlen p = M) got ->
  out_running (got ++ [data])
    (taken t (out_done (zlen data) (bc_half (v_bc v) (buf (zlen got))))
       (v <| v_dpram := mem_write (base + 64 * buf (zlen got)) data (v_dpram v) |>))
    j (zlen got + 1) m.
Proof using Ho Hok.
  remember (zlen got) as k eqn:Ek. intros (Hst & Hinv & Hact & HjN & Hm & Hpk) Hkm Hdata Hfull.
  pose proof Hinv as []. pose proof Hpk as []. pose proof Hst as [].
  pose proof (oi_sel0 ltac:(lia)) as Hb. pose proof (zlen_nonneg data).
  destruct (out_done_spec (zlen data) (bc_half (v_bc v) (buf k))) as (D1 & D2 & D3 & D4 & D5).
  pose proof (oi_armed0 k ltac:(lia)) as Ha. pose proof (out_plen k ltac:(lia)).
  assert (zlen (got ++ [data]) = k + 1) as Hz by (rewrite zlen_app, <- Ek; done).
  assert (forall q, 0 <= q < k -> nth_packet (got ++ [data]) q = nth_packet got q) as Hnth.
  { intros q Hq. rewrite nth_packet_app by lia. destruct (Z.eqb_spec q (zlen got)); [lia|done]. }
  assert (nth_packet (got ++ [data]) k = data) as Hnk.
  { rewrite nth_packet_app by lia. by rewrite <- Ek, Z.eqb_refl. }
  split_and!; try done.
  - split; try done. cbn. by rewrite mem_write_zlen.
  - unfold taken. change (v_hw_buf t (v <| v_dpram := _ |>)) with (v_hw_buf t v). rewrite Hb.
    split; cbn [v_ep v_bc v_pend v_events v_dpram v_ram setf]; try done; try lia.
    + intros q Hq. rewrite Hnth by lia. by apply oi_handled0.
    + rewrite taken_upto_app by lia. done.
    + rewrite oi_pend0. replace (k + 1 - j) with (k - j + 1) by lia.
      rewrite seqZ_app, fmap_app by lia. replace (j + (k - j)) with k by lia. done.
    + intros Hk1. destruct (buffers_cases t) as [B|B].
      * by apply (hw_buf_single t _ 0 (k + 1) B).
      * specialize (oi_double0 ltac:(lia) B). unfold v_hw_buf. change (v_double t _) with (v_double t v).
        rewrite oi_double0. cbn. by rewrite buf_of_next.
    + intros q Hq. rewrite bc_half_set by apply buf_of_01.
      assert (buf k <> buf q) by (apply buf_of_other; lia).
      destruct (Z.eqb_spec (buf k) (buf q)); [done|]. apply oi_armed0. lia.
    + intros q Hq. rewrite bc_half_set by apply buf_of_01. destruct (decide (q = k)) as [->|Hne].
      * rewrite Z.eqb_refl, D1, D2, D3, D4, Hnk, Ha. split_and!; try done.
        destruct Ho. pose proof (buf_window t 0 k). apply mem_read_write; lia.
      * assert (buf k <> buf q) as Hbne by (apply buf_of_other; lia).
        destruct (Z.eqb_spec (buf k) (buf q)); [done|]. rewrite Hnth by lia.
        destruct (oi_received0 q ltac:(lia)) as (E1 & E2 & E3 & E4 & E5). split_and!; try done. rewrite <- E5 at 2.
        pose proof (out_plen q ltac:(lia)). pose proof (op_fits0 q ltac:(lia)).
        destruct Ho. destruct (buf_of_01 t 0 q), (buf_of_01 t 0 k); apply mem_read_write_disjoint; lia.
    + intros b Hb01 Hfree. rewrite bc_half_set by (done || apply buf_of_01).
      destruct (Z.eqb_spec (buf k) b) as [E|E]; [done|]. apply oi_free0; [done|]. intros q Hq.
      destruct (decide (q = k)) as [->|]; [done|]. apply Hfree. lia.
    + unfold bc_set_half. destruct (buf k =? 0) eqn:Eb; [|done]. cbn. rewrite D5, Ha. done.
  - split; [lia|..].
    + intros q Hq. destruct (decide (q = k)) as [->|]; [by rewrite Hnk|]. rewrite Hnth by lia. apply op_fits0. lia.
    + intros q Hq Hqk. rewrite Hnth by lia. unfold nth_packet.
      destruct (lookup_lt_is_Some_2 got (Z.to_nat q)) as [p Hp]; [unfold zlen in *; lia|]. rewrite Hp. cbn.
      rewrite Forall_lookup in Hfull. by apply (Hfull _ _ Hp).
Qed.

Lemma out_token_ok got v data :
  out_state got v ->
  bc_avail (hw_half (put i v s0) i) = true -> zlen data <= bc_len (hw_half (put i v s0) i) ->
  Forall (fun p => zlen p = M) got ->
  exists v', hw_finish i (out_done (zlen data) (hw_half (put i v s0) i))
      ((put i v s0) <| dpram := mem_write (hw_addr (put i v s0) i) data (v_dpram v) |>) = put i v' s0 /\
    out_state (got ++ [data]) v'.
Proof using Ho Hok.
  pose proof Ho as [[Hi Hev] Hs _ _ _ _ _ Hep0 _ _ _].
  intros Hst Hav Hlen Hfull. rewrite put_dpram, out_hw_finish. unfold hw_half, hw_addr in *. rewrite out_hw_buf in *.
  rewrite get_bc_put in * by done.
  assert (~ (forall b, b = 0 \/ b = 1 -> bc_avail (bc_half (v_bc v) b) = false)) as Hbusy.
  { intros Hid. assert (bc_avail (bc_half (v_bc v) (v_hw_buf t v)) = false) as E; [|congruence].
    unfold bc_half in *. destruct (v_hw_buf t v =? 0); [by apply (Hid 0); left|by apply (Hid 1); right]. }
  destruct Hst as [Hc|(j & m & Hrun)]; [by destruct Hc as (_ & _ & _ & _ & _ & Hid & _)|].
  pose proof Hrun as (Hst & Hinv & _). pose proof (oi_order _ _ _ _ _ Hinv) as Hord.
  assert (zlen got < m) as Hkm.
  { destruct (decide (zlen got < m)); [done|]. destruct Hbusy. intros b Hb. eapply oi_free; [done..|lia]. }
  pose proof (oi_sel _ _ _ _ _ Hinv ltac:(lia)) as Hb. rewrite Hb in *.
  eexists. split; [reflexivity|]. right. exists j, m. rewrite zlen_app.
  assert (match ep_reg_of i with Some r => ec_offset (get_ec (put i v s0) r) + 64 * buf (zlen got)
          | None => EP0_BUF_A end = base + 64 * buf (zlen got)) as ->.
  { destruct out_reg_cases as [(E & _ & B)|(-> & _ & B)].
    - rewrite E. unfold buf_of. rewrite B, Hep0 by done. cbn. lia.
    - rewrite get_ec_put by done. by rewrite (os_offset _ Hst). }
  apply out_take; try done. by rewrite (oi_armed _ _ _ _ _ Hinv (zlen got) ltac:(lia)) in Hlen.
Qed.

(** *** The start of the transfer *)

Lemma out_edpt_addr : tu_edpt_number (i / 2) = Z.shiftr i 1 /\ tu_edpt_dir (i / 2) = TUSB_DIR_OUT.
Proof using Ho.
  destruct Ho as [[Hi Hev] _ _ _ _ _ _ _ _ _ _]. rewrite Z.shiftr_div_pow2 by lia. change (2 ^ 1) with 2.
  assert (0 <= i / 2 < 16) as Hq by zdivmod. set (q := i / 2) in *. clearbody q. clear Hi Hev.
  assert (q ∈ seqZ 0 16) as Hin by (apply elem_of_seqZ; lia).
  cbn in Hin. repeat (apply elem_of_cons in Hin as [->|Hin]; [done|]). by apply elem_of_nil in Hin.
Qed.

Lemma out_start_ok v :
  out_ready v ->
  sto_wp (dcd_edpt_xfer (i / 2) (t_addr t) n)
    (fun ok s' => ok = true /\ exists v', s' = put i v' s0 /\ out_state [] v') (put i v s0).
Proof using Ho.
  intros Hrd. pose proof Ho as [[Hi Hev] Hs Hhost _ _ _ _ _ _ _ _]. pose proof out_N_pos.
  unfold dcd_edpt_xfer. destruct out_edpt_addr as [-> ->]. destruct out_bit as (_ & _ & _ & -> & -> & ->).
  vstep. unfold rp2usb_xfer_start. vstep. vstep. vstep.
  rewrite (or_idle _ Hrd), bool_decide_eq_false_2 by done. cbn [sto_when]. vstep.
  vstep. vstep. unfold rp2usb_is_host_mode. change (r_host (put i v s0)) with (r_host s0).
  pose proof (or_static _ Hrd) as Hst. rewrite Hhost, (os_future _ Hst), (os_addr _ Hst).
  destruct out_edpt_addr as [_ ->]. change (Bool.eqb false (TUSB_DIR_OUT =? TUSB_DIR_IN)) with true.
  cbn [negb andb Z.ltb Z.compare]. vstep. fold (out_started v).
  vstep. vstep. vstep. change (e15_bulk_in (v_ep (out_started v))) with (e15_bulk_in (v_ep v)).
  rewrite (os_e15 _ Hst). vstep. vstep. cbv beta iota. apply out_buffer_start; [done|].
  intros v' Hst' Hinv' Hact'. vstep. split; [done|]. eexists. split; [reflexivity|]. right.
  exists 0, (Z.min N (buffers t)). change (zlen []) with 0. split_and!; try done; try lia.
  split; [split; [done|lia]|intros; lia..].
Qed.

(** The invariant of the interleavings. *)
Definition out_config (c : rp2 * list (list Z)) : Prop := exists v, c.1 = put i v s0 /\ out_state c.2 v.

Lemma out_handled_state got v : out_handled got v -> out_state got v.
Proof using. intros [?|(m & ?)]; [by left|right; eauto]. Qed.

Lemma out_config_step c c' : out_config c -> out_step M i c c' -> out_config c'.
Proof using Ho Hok.
  intros (v & Hs & Hst) Hstep. destruct Hstep as [s got data Ha Hf Hl Hfull|s s' got frame E]; cbn [fst snd] in *; subst.
  - destruct (out_token_ok got v data Hst Ha Hl Hfull) as (v' & E & Hst'). exists v'. done.
  - pose proof (out_irq_ok got v frame Hst) as Hirq. unfold sto_wp in Hirq. rewrite E in Hirq.
    destruct Hirq as (v' & -> & Hh). exists v'. split; [done|]. by apply out_handled_state.
Qed.

Lemma out_config_reach c c' : out_config c -> rtc (out_step M i) c c' -> out_config c'.
Proof using Ho Hok. intros Hc Hr. induction Hr; [done|]. eauto using out_config_step. Qed.

Lemma out_running_not_over got v m : out_running got v (zlen got) (zlen got) m -> out_over got = false.
Proof using.
  intros (_ & Hinv & _ & Hlt & _). unfold out_over. apply orb_false_iff. split; [apply Z.eqb_neq; lia|].
  apply not_true_iff_false. rewrite existsb_exists. intros (p & Hin & Hp). apply Z.ltb_lt in Hp.
  apply list_elem_of_In, list_elem_of_lookup_1 in Hin as [k Hk].
  pose proof (lookup_lt_Some _ _ _ Hk). pose proof (oi_handled _ _ _ _ _ Hinv (Z.of_nat k)) as HM.
  unfold nth_packet in HM. rewrite Nat2Z.id, Hk in HM. cbn in HM. unfold zlen in *. lia.
Qed.

End out.

(** C31: a transfer from the host is exact whatever the interleaving, for a host that
    waits after a short packet. Once [dcd_edpt_xfer] has accepted a buffer on a free OUT
    endpoint, with the host and the interrupt handler taking turns in any order, the
    handler always returns; it reports the completion exactly when the host has ended
    the transfer by a short packet or by the last packet there is room for, and then
    the buffer holds the bytes sent, in order, no byte outside it has changed, and the
    length reported is theirs. As for the other direction this is about one transfer at a
    time: every other endpoint is idle with nothing waiting ([out_ok]), the
    start-of-frame interrupt is disabled ([out_static]), and no other bus event comes in
    between. *)
Theorem out_transfer_exact `{UsbctrlOk} (t : transfer) (s : rp2) :
  out_ok t s -> out_ready t (view_of (t_ep t) s) ->
  exists s1, dcd_edpt_xfer (t_ep t / 2) (t_addr t) (t_len t) s = Some (true, s1) /\
  forall s2 got frame, rtc (out_step (t_mps t) (t_ep t)) (s1, []) (s2, got) ->
    exists s3, dcd_rp2040_irq frame s2 = Some (tt, s3) /\
    if out_over t got
    then he_state (get_ep s3 (t_ep t)) = EPSTATE_IDLE /\ zlen (concat got) <= t_len t /\
         ram s3 = mem_write (t_addr t) (concat got) (t_ram t) /\
         completions (events s3) = t_done t ++ [EV_XFER_COMPLETE (t_ep t / 2) 0 (zlen (concat got))]
    else he_state (get_ep s3 (t_ep t)) = EPSTATE_ACTIVE /\ completions (events s3) = t_done t.
Proof.
  intros Ho Hrd. pose proof (out_start_ok t s Ho _ Hrd) as Hstart.
  pose proof (o_i _ _ Ho) as [Hi _]. pose proof (o_sized _ _ Ho) as Hs. rewrite put_view_of in Hstart by done.
  apply swp_run in Hstart as (ok & s1 & Es & -> & v1 & -> & Hst). eexists. split; [exact Es|].
  intros s2 got frame Hr.
  assert (out_config t s (s2, got)) as (v & Hs2 & Hst2).
  { eapply out_config_reach; [done| |exact Hr]. by exists v1. }
  cbn [fst snd] in *. subst. pose proof (out_irq_ok t s Ho got v frame Hst2) as Hirq.
  apply swp_run in Hirq as ([] & s3 & E3 & v3 & -> & Hh). eexists. split; [exact E3|].
  rewrite get_ep_put by done. destruct Hh as [Hc|(m & Hrun)].
  - destruct Hc as (-> & Hf & _ & Hid & _ & _ & _ & _ & Hram & Hev). done.
  - rewrite (out_running_not_over _ _ _ _ Hrun). destruct Hrun as (_ & Hinv & Hact & _).
    split; [done|]. exact (oi_events _ _ _ _ _ _ Hinv).
Qed.

(** 150 bytes of room from address 100 on the Bulk OUT endpoint 0x02. *)
Definition demo_out : transfer :=
  mk_transfer 4 64 (dpram_buf (get_ep demo_rp2 4)) 4096 (ram demo_rp2) 100 150 0 false [] 0.

Lemma demo_out_ok : out_ok demo_out demo_rp2.
Proof.
  split; try (vm_compute; intuition congruence).
  - apply quiet_check. apply (bool_decide_unpack _). vm_compute. done.
Qed.

Lemma demo_out_ready : out_ready demo_out (view_of 4 demo_rp2).
Proof. split; [split|..]; try (intros b [-> | ->]); vm_compute; intuition congruence. Qed.

Lemma out_transfer_exact_witness :
  exists s1, dcd_edpt_xfer 2 100 150 demo_rp2 = Some (true, s1) /\
  forall s2 got frame, rtc (out_step 64 4) (s1, []) (s2, got) ->
    exists s3, dcd_rp2040_irq frame s2 = Some (tt, s3) /\
    if out_over demo_out got
    then he_state (get_ep s3 4) = EPSTATE_IDLE /\ zlen (concat got) <= 150 /\
         ram s3 = mem_write 100 (concat got) (ram demo_rp2) /\
         completions (events s3) = [EV_XFER_COMPLETE 2 0 (zlen (concat got))]
    else he_state (get_ep s3 4) = EPSTATE_ACTIVE /\ completions (events s3) = [].
Proof. exact (out_transfer_exact demo_out demo_rp2 demo_out_ok demo_out_ready). Defined.
