(* ===== verification/Rp2040Props.v ===== *)
(** * Rp2040Props: the corners of the controller driver

    Saved packets, deferred empty packets, aborts and cleared stalls: the paths of the
    driver outside the plain transfers of Rp2040In and Rp2040Out. *)

From S2P Require Import Prelude UsbDev Rp2040 Rp2040View Rp2040In Rp2040Out.

(** ** Data that arrived early *)

(** An idle OUT endpoint that holds a packet received during the transfer before. *)
Record saved_packet (i : Z) (s : rp2) : Prop := {
  sp_i : 0 <= i < 32 /\ i mod 2 = 0;
  sp_sized : sized s;
  sp_host : r_host s = false;
  sp_addr : he_ep_addr (get_ep s i) = i / 2;
  sp_idle : he_state (get_ep s i) = EPSTATE_IDLE;
  sp_e15 : e15_bulk_in (get_ep s i) = false;
  sp_M : 0 < max_packet_size (get_ep s i) <= 1023;
  sp_len : 0 < future_len (get_ep s i) < 256;
  sp_free : bc_avail (fst (get_bc s i)) = false /\ bc_avail (snd (get_bc s i)) = false }.

Section saved.
Context `{Hok : UsbctrlOk} (i : Z) (s : rp2) (Hsp : saved_packet i s).

Lemma saved_addr :
  tu_edpt_number (i / 2) = Z.shiftr i 1 /\ tu_edpt_dir (i / 2) = TUSB_DIR_OUT /\
  hw_endpoint_get (Z.shiftr i 1) TUSB_DIR_OUT = i /\ get_buf_ctrl (Z.shiftr i 1) TUSB_DIR_OUT = i /\
  (get_ep_ctrl (Z.shiftr i 1) TUSB_DIR_OUT = None \/ get_ep_ctrl (Z.shiftr i 1) TUSB_DIR_OUT = Some i).
Proof using Hsp.
  destruct Hsp as [[Hi Hev] _ _ _ _ _ _ _ _]. unfold hw_endpoint_get, get_buf_ctrl, get_ep_ctrl, TUSB_DIR_OUT.
  rewrite !Z.shiftr_div_pow2 by lia. change (2 ^ 1) with 2.
  assert (0 <= i / 2 < 16 /\ 2 * (i / 2) + 0 = i) as [Hq ->] by zdivmod. set (q := i / 2) in *. clearbody q.
  assert (q ∈ seqZ 0 16) as Hin by (apply elem_of_seqZ; lia).
  assert (tu_edpt_number q = q /\ tu_edpt_dir q = 0) as [-> ->].
  { cbn in Hin. repeat (apply elem_of_cons in Hin as [->|Hin]; [done|]). by apply elem_of_nil in Hin. }
  split_and!; try done. destruct (q =? 0); auto.
Qed.

(** What starting the buffers leaves: nothing of the remaining length is lost. *)
Lemma buffer_start_rx v reg (Q : unit -> rp2 -> Prop) :
  reg = None \/ reg = Some i ->
  bc_avail (fst (v_bc v)) = false -> bc_avail (snd (v_bc v)) = false ->
  0 < max_packet_size (v_ep v) <= 1023 -> 0 <= remaining_len (v_ep v) < 65536 ->
  (forall v', v_ram v' = v_ram v -> v_events v' = v_events v ->
     he_state (v_ep v') = he_state (v_ep v) -> xferred_len (v_ep v') = xferred_len (v_ep v) ->
     future_len (v_ep v') = future_len (v_ep v) ->
     remaining_len (v_ep v') + staged_bytes (v_bc v') = remaining_len (v_ep v) -> Q tt (put i v' s)) ->
  sto_wp (rp2usb_buffer_start i reg i true) Q (put i v s).
Proof using Hsp.
  intros Hreg H0 H1 HM Hr HQ. pose proof Hsp as [[Hi _] Hs _ _ _ _ _ _ _].
  set (r := remaining_len (v_ep v)) in *. set (M := max_packet_size (v_ep v)) in *.
  assert (u16 (r - Z.min r M) = r - Z.min r M) as Er by (apply u16_small; unfold is_u16; lia).
  unfold rp2usb_buffer_start. vstep. vstep. vstep. vstep. vstep.
  destruct Hreg as [-> | ->].
  - vstep. apply swp_write32; [assumption..|]. apply HQ; try done.
    unfold staged_bytes, prepared_half, prepared, prepared_len. cbn -[Z.min]. fold r M. rewrite Er. lia.
  - vstep. vstep. destruct (negb _ && negb _).
    + vstep. vstep. vstep. vstep. vstep. apply swp_write32; [assumption..|]. apply HQ; try done.
      unfold staged_bytes, prepared_half, prepared, prepared_len. cbn -[Z.min]. fold r M. rewrite Er.
      rewrite !u16_small by (unfold is_u16; lia). lia.
    + vstep. vstep. vstep. apply swp_write32; [assumption..|]. apply HQ; try done.
      unfold staged_bytes, prepared_half, prepared, prepared_len. cbn -[Z.min]. fold r M. rewrite Er. lia.
Qed.

End saved.

(** A packet that arrived early is handed to the next transfer without regard to
    its own length or to the room in the buffer. Whatever the saved length [f] and
    the new transfer's length [n <> f], the saved bytes are copied to the buffer, no
    completion is reported even when the packet was short and so ended a transfer of
    its own, and the driver goes on to receive [n - f] bytes modulo 65536: more than
    65000 of them when the buffer was too small. *)
Theorem saved_packet_merged `{UsbctrlOk} (i a n : Z) (s : rp2) :
  saved_packet i s -> 0 <= n < 65536 -> n <> future_len (get_ep s i) ->
  exists s', dcd_edpt_xfer (i / 2) a n s = Some (true, s') /\
    ram s' = mem_write a (mem_read (dpram_buf (get_ep s i) + 64 * future_bufid (get_ep s i))
                                   (future_len (get_ep s i)) (dpram s)) (ram s) /\
    events s' = events s /\
    he_state (get_ep s' i) = EPSTATE_ACTIVE /\ future_len (get_ep s' i) = 0 /\
    xferred_len (get_ep s' i) = future_len (get_ep s i) /\
    remaining_len (get_ep s' i) + staged_bytes (get_bc s' i) = u16 (n - future_len (get_ep s i)).
Proof.
  intros Hsp Hn Hne. pose proof Hsp as [[Hi Hev] Hs Hhost Hadr Hid He15 HM Hf [Hf0 Hf1]].
  set (v := view_of i s). assert (put i v s = s) as Eput by (by apply put_view_of).
  change (get_ep s i) with (v_ep v) in *. change (get_bc s i) with (v_bc v) in Hf0, Hf1.
  enough (sto_wp (dcd_edpt_xfer (i / 2) a n) (fun ok s' => ok = true /\ exists v', s' = put i v' s /\
    v_ram v' = mem_write a (mem_read (dpram_buf (v_ep v) + 64 * future_bufid (v_ep v)) (future_len (v_ep v)) (v_dpram v)) (v_ram v) /\
    v_events v' = v_events v /\ he_state (v_ep v') = EPSTATE_ACTIVE /\ future_len (v_ep v') = 0 /\
    xferred_len (v_ep v') = future_len (v_ep v) /\
    remaining_len (v_ep v') + staged_bytes (v_bc v') = u16 (n - future_len (v_ep v))) (put i v s)) as Hwp.
  { rewrite Eput in Hwp. apply swp_run in Hwp as (ok & s' & E & -> & v' & -> & Hp).
    exists (put i v' s). rewrite get_ep_put, get_bc_put by done. split; [exact E|]. exact Hp. }
  clear Eput. clearbody v. destruct (saved_addr i s Hsp) as (E1 & E2 & E3 & E4 & Hreg).
  unfold dcd_edpt_xfer. rewrite E1, E2, E3, E4. set (reg := get_ep_ctrl _ _) in *. clearbody reg.
  vstep. unfold rp2usb_xfer_start. vstep. vstep. vstep.
  rewrite Hid, bool_decide_eq_false_2 by done. cbn [sto_when]. vstep.
  vstep. vstep. unfold rp2usb_is_host_mode. change (r_host (put i v s)) with (r_host s).
  rewrite Hhost, Hadr, E2. cbn [negb andb]. rewrite (proj2 (Z.ltb_lt 0 (future_len (v_ep v)))) by lia.
  change (Bool.eqb false (TUSB_DIR_OUT =? TUSB_DIR_IN)) with true. vstep. vstep. vstep.
  assert (u16 (n - future_len (v_ep v)) <> 0) as Hr by (unfold u16; zdivmod).
  assert (u16 (0 + future_len (v_ep v)) = future_len (v_ep v)) as Ex by (apply u16_small; unfold is_u16; lia).
  vstep. vstep. vstep. vstep. cbn [v_ep remaining_len setf]. rewrite (proj2 (Z.eqb_neq _ 0) Hr).
  vstep. vstep. vstep. vstep. cbn [v_ep e15_bulk_in setf]. rewrite He15. cbv iota. vstep. cbv beta iota.
  apply (buffer_start_rx i s Hsp); [done..|pose proof (u16_range (n - future_len (v_ep v))); cbn; unfold is_u16 in *; lia|].
  intros v' Hram Hev' Hst' Hx' Hfl' Hrem. vstep. split; [done|]. exists v'.
  rewrite Hram, Hev', Hst', Hx', Hfl'. cbn [v_ep v_ram v_events xferred_len setf]. rewrite Ex, Z.shiftl_mul_pow2 by lia.
  split_and!; try done. by rewrite (Z.mul_comm 64).
Qed.

(** The host's packets in the controller, for concrete runs. *)
Definition host_send `{Usbctrl} (i : Z) (data : list Z) (s : rp2) : rp2 :=
  hw_finish i (out_done (zlen data) (hw_half s i)) (s <| dpram := mem_write (hw_addr s i) data (dpram s) |>).

(** Two short packets arrive before the handler runs: the second is saved. *)
Definition demo_saved : rp2 :=
  default demo_rp2
    (match dcd_edpt_xfer 2 100 150 demo_rp2 with
     | Some (_, s) =>
         match dcd_rp2040_irq 0 (host_send 4 (replicate 20 7) (host_send 4 (replicate 10 9) s)) with
         | Some (_, s) => Some s
         | None => None
         end
     | None => None
     end).

Lemma saved_packet_merged_witness :
  future_len (get_ep demo_saved 4) = 20 /\ events demo_saved = [EV_XFER_COMPLETE 2 0 10] /\
  exists s', dcd_edpt_xfer 2 100 150 demo_saved = Some (true, s') /\
    ram s' = mem_write 100 (mem_read (dpram_buf (get_ep demo_saved 4) + 64 * future_bufid (get_ep demo_saved 4))
                                     20 (dpram demo_saved)) (ram demo_saved) /\
    events s' = events demo_saved /\
    he_state (get_ep s' 4) = EPSTATE_ACTIVE /\ future_len (get_ep s' 4) = 0 /\
    xferred_len (get_ep s' 4) = 20 /\
    remaining_len (get_ep s' 4) + staged_bytes (get_bc s' 4) = u16 (150 - 20).
Proof.
  split; [by vm_compute|]. split; [by vm_compute|].
  refine (saved_packet_merged 4 100 150 demo_saved _ _ _).
  - split; vm_compute; intuition congruence.
  - lia.
  - vm_compute. discriminate.
Defined.

(** ** An empty packet deferred to the next frame *)

Section stuck.
Context `{Hok : UsbctrlOk} (t : transfer) (s0 : rp2).
Abbreviation i := (t_ep t).

(** The controller looks at buffer 1; the packet is to go, or went, to buffer 0. *)
Record zlp_stuck (v : view) : Prop := {
  zs_static : in_static t v;
  zs_state : he_state (v_ep v) = EPSTATE_PENDING /\ bc_idle (fst (v_bc v)) = true \/
             he_state (v_ep v) = EPSTATE_ACTIVE;
  zs_remaining : remaining_len (v_ep v) = 0;
  zs_buf1 : bc_idle (snd (v_bc v)) = true;
  zs_nosel : bc_sel (fst (v_bc v)) = false;
  zs_pend : v_pend v = [];
  zs_hw : ec_double (v_ec v) = true /\ v_sel v = 1;
  zs_sof : i_sof (v_inte v) = true;
  zs_events : completions (v_events v) = t_done t }.

Context (Ht : transfer_ok t s0) (He : t_e15 t = true).

Lemma zlp_resume v (Q : unit -> rp2 -> Prop) :
  zlp_stuck v -> he_state (v_ep v) = EPSTATE_PENDING ->
  (forall v', zlp_stuck v' -> Q tt (put i v' s0)) -> sto_wp (e15_resume (Z.shiftr i 1)) Q (put i v s0).
Proof using Ht.
  intros [] Hpd HQ. pose proof Ht as [[Hi Hodd] Hs _ _ _ _ _ _ _ _ _]. pose proof zs_static0 as [].
  destruct zs_state0 as [[_ H0]|?]; [|congruence].
  unfold e15_resume. destruct (status_bit_ep t s0 Ht) as (_ & _ & -> & -> & _).
  vstep. vstep. vstep. vstep. cbn [v_ep v_bc remaining_len dpram_buf setf]. rewrite H0, zs_remaining0.
  change (0 <? 0) with false. cbn [andb]. vstep. vstep.
  apply swp_write16; try done.
  { cbn. unfold bc_idle in H0. bool_prop. done. }
  apply HQ. split; cbn; try done; [|by right|].
  - split; cbn; try done. by rewrite mem_write_zlen.
  - unfold prepared_len. cbn. rewrite zs_remaining0. unfold u16. destruct Ht. rewrite st_mps. replace (0 `min` t_mps t) with 0 by lia. done.
Qed.

Lemma zlp_loop v (Q : bool -> rp2 -> Prop) :
  zlp_stuck v -> (forall v', zlp_stuck v' -> Q true (put i v' s0)) ->
  sto_wp (e15_sof_loop (seqZ 0 16) false) Q (put i v s0).
Proof using Ht He.
  intros Hz HQ. pose proof Ht as [[Hi Hodd] Hs _ _ _ _ _ _ _ _ _].
  destruct (e15_loop_split t s0 Ht) as (l & l' & -> & Hl). unfold sto_wp. rewrite e15_loop_app. unfold sto_bind.
  rewrite (e15_loop_skip t s0 Ht) by (intros x Hx; apply Hl, elem_of_app; by left).
  match goal with |- match ?c ?s with _ => _ end => change (sto_wp c Q s) end.
  assert (forall v', zlp_stuck v' -> sto_wp (e15_sof_loop l' true) Q (put i v' s0)) as Hrest.
  { intros v' Hz'. unfold sto_wp. rewrite (e15_loop_skip t s0 Ht) by (intros x Hx; apply Hl, elem_of_app; by right).
    by apply HQ. }
  cbn [e15_sof_loop]. destruct (status_bit_ep t s0 Ht) as (_ & _ & -> & _ & _). vstep. vstep.
  pose proof (zs_static _ Hz) as []. rewrite st_e15, He.
  rewrite (bool_decide_eq_false_2 (he_state (v_ep v) = EPSTATE_IDLE))
    by (destruct (zs_state _ Hz) as [[-> _]| ->]; done). cbn [andb negb]. vstep. vstep.
  - eapply zlp_resume; [done|by eapply bool_decide_eq_true_1|]. intros v' Hz'. by apply Hrest.
  - by apply Hrest.
Qed.

Lemma zlp_irq v frame :
  zlp_stuck v -> sto_wp (dcd_rp2040_irq frame) (fun _ s' => exists v', s' = put i v' s0 /\ zlp_stuck v') (put i v s0).
Proof using Ht He.
  intros Hz. pose proof Hz as [[] _ _ _ _ Hp _ Hsof _]. destruct st_raw as (R1 & R2 & R3 & R4).
  unfold dcd_rp2040_irq. vstep. apply swp_get.
  assert (ints_status (put i v s0) = mk_ints (i_sof (v_raw v)) false false false false false) as ->.
  { unfold ints_status, ints_and. rewrite (buf_status_put t s0 Ht), Hp. cbn. rewrite R1, R2, R3, R4, Hsof, andb_true_r. done. }
  cbn [i_sof i_buff_status i_setup i_bus_reset i_suspend i_resume sto_when].
  destruct (i_sof (v_raw v)); cbn [sto_when].
  - unfold clear_raw, dcd_report. vstep. vstep. vstep. vstep. apply swp_time_us_32. vstep. vstep. vstep.
    vstep. vstep. vstep. vstep. vstep. vstep.
    eapply zlp_loop.
    { destruct Hz as [[] ? ? ? ? ? ? ? Hev]. split; try done. cbn -[completions].
      rewrite completions_app, app_nil_r. exact Hev. }
    intros v' Hz'. vstep. vstep. cbn [negb andb sto_when]. repeat vstep. eauto.
  - repeat vstep. eauto.
Qed.

Lemma zlp_start v :
  in_ready t v -> t_len t = 0 -> frame_ending v = true -> ec_double (v_ec v) = true -> v_sel v = 1 ->
  sto_wp (dcd_edpt_xfer (128 + i / 2) (t_addr t) 0)
    (fun ok s' => ok = true /\ exists v', s' = put i v' s0 /\ zlp_stuck v') (put i v s0).
Proof using Ht He.
  intros [] Hn Hf Hd Hsel. pose proof Ht as [[Hi Hodd] Hs Hhost _ _ _ _ _ _ _ _]. pose proof rd_static as [].
  unfold dcd_edpt_xfer. destruct (edpt_addr t s0 Ht) as [-> ->]. destruct (status_bit_ep t s0 Ht) as (_ & _ & -> & -> & ->).
  vstep. unfold rp2usb_xfer_start. vstep. vstep. vstep.
  rewrite rd_idle, bool_decide_eq_false_2 by done. cbn [sto_when]. vstep.
  vstep. vstep. unfold rp2usb_is_host_mode. change (r_host (put i v s0)) with (r_host s0).
  rewrite Hhost, st_future. cbn [negb andb Z.ltb Z.compare]. vstep.
  vstep. vstep. vstep. cbn [v_ep e15_bulk_in setf]. rewrite st_e15, He. cbv iota.
  vstep. vstep. vstep. vstep. apply swp_e15_exact. change (frame_ending _) with (frame_ending v). rewrite Hf.
  cbn [sto_when]. vstep. vstep. vstep. vstep. vstep. split; [done|]. eexists. split; [reflexivity|].
  split; try done.
  - left. split; [done|]. apply (rd_free 0). by left.
  - apply (rd_free 1). by right.
Qed.

Lemma zlp_reach c c' :
  (exists v, c.1 = put i v s0 /\ zlp_stuck v) /\ c.2 = [] -> rtc (in_step i) c c' ->
  (exists v, c'.1 = put i v s0 /\ zlp_stuck v) /\ c'.2 = [].
Proof using Ht He.
  intros Hc Hr. induction Hr as [|c c1 c2 Hstep _ IH]; [done|]. apply IH. clear IH.
  destruct Hc as [(v & Hs & Hz) Hsent].
  destruct Hstep as [s sent Ha Hf|s sent|s s' sent frame E]; cbn [fst snd] in *; subst.
  - exfalso. unfold hw_half in Ha. rewrite (hw_buf_put t s0 Ht) in Ha.
    pose proof Ht as [[Hi Hodd] Hs _ _ _ _ _ _ _ Hreg _]. rewrite get_bc_put in Ha by done.
    destruct Hz as [_ _ _ H1 _ _ [Hd Hsel] _ _]. specialize (Hreg He).
    unfold v_hw_buf, v_double, buffers in *. destruct (ep_reg_of i); [|lia]. rewrite Hd, Hsel in Ha.
    unfold bc_idle in H1. bool_prop. cbn in Ha. congruence.
  - split; [|done]. exists (v <| v_raw := (v_raw v) <| i_sof := true |> |>). split; [done|].
    by destruct Hz as [[]].
  - split; [|done]. pose proof (zlp_irq v frame Hz) as Hirq. unfold sto_wp in Hirq. by rewrite E in Hirq.
Qed.

End stuck.

(** C40: an empty packet asked for in the last fifth of a frame can be lost for good.
    When the transfer before left the controller double buffering with buffer 1 next
    (an odd number of packets), an empty transfer that the E15 workaround defers is
    later armed in buffer 0 without telling the controller to start there again:
    whatever the host, the frames and the handler do, no packet is ever sent, no
    completion is ever reported and the endpoint stays busy. *)
Theorem zlp_deferred_stuck `{UsbctrlOk} (t : transfer) (s : rp2) :
  transfer_ok t s -> in_ready t (view_of (t_ep t) s) -> t_e15 t = true -> t_len t = 0 ->
  frame_ending (view_of (t_ep t) s) = true ->
  ec_double (get_ec s (t_ep t)) = true -> get_sel s (t_ep t) = 1 ->
  exists s1, dcd_edpt_xfer (128 + t_ep t / 2) (t_addr t) 0 s = Some (true, s1) /\
  forall s2 sent, rtc (in_step (t_ep t)) (s1, []) (s2, sent) ->
    sent = [] /\ completions (events s2) = t_done t /\ he_state (get_ep s2 (t_ep t)) <> EPSTATE_IDLE.
Proof.
  intros Ht Hrd He Hn Hf Hd Hsel. pose proof (zlp_start t s Ht He _ Hrd Hn Hf Hd Hsel) as Hstart.
  pose proof (t_i _ _ Ht) as [Hi _]. pose proof (t_sized _ _ Ht) as Hs. rewrite put_view_of in Hstart by done.
  apply swp_run in Hstart as (ok & s1 & Es & -> & v1 & -> & Hz). eexists. split; [exact Es|].
  intros s2 sent Hr. destruct (zlp_reach t s Ht He (put (t_ep t) v1 s, []) (s2, sent)) as [(v & Hs2 & Hz2) Hsent];
    [by eauto|done|]. cbn [fst snd] in *. subst. split; [done|]. rewrite get_ep_put by done.
  destruct Hz2. split; [done|]. destruct zs_state0 as [[-> _]| ->]; done.
Qed.

(** 192 bytes sent as three packets. *)
Definition demo_three : transfer :=
  mk_transfer 5 64 (dpram_buf (get_ep demo_rp2 5)) 4096 (ram demo_rp2) 20 192 0 true [] 0.
Definition demo_odd : rp2 :=
  default demo_rp2
    (match dcd_edpt_xfer 130 20 192 demo_rp2 with
     | Some (_, s) => match rounds demo_three 3 (s, []) with Some (s, _) => Some s | None => None end
     | None => None
     end).
(** The last fifth of a frame: 900 microseconds after its start. *)
Definition demo_late : rp2 := demo_odd <| e15_last_sof := time_at (clock_reads demo_odd) - 900 |>.
Definition demo_zlp : transfer :=
  mk_transfer 5 64 (dpram_buf (get_ep demo_rp2 5)) 4096 (ram demo_rp2) 0 0 1 true (completions (events demo_late)) 0.

Lemma demo_zlp_ok : transfer_ok demo_zlp demo_late.
Proof.
  split; try (vm_compute; intuition congruence). apply quiet_check. apply (bool_decide_unpack _). by vm_compute.
Qed.
Lemma demo_zlp_ready : in_ready demo_zlp (view_of 5 demo_late).
Proof. split; [split|..]; try (intros b [-> | ->]); vm_compute; intuition congruence. Qed.
Lemma demo_zlp_late : frame_ending (view_of 5 demo_late) = true.
Proof. by vm_compute. Qed.
Lemma demo_zlp_double : ec_double (get_ec demo_late 5) = true.
Proof. by vm_compute. Qed.
Lemma demo_zlp_sel : get_sel demo_late 5 = 1.
Proof. by vm_compute. Qed.

Lemma zlp_deferred_stuck_witness :
  exists s1, dcd_edpt_xfer (128 + t_ep demo_zlp / 2) (t_addr demo_zlp) 0 demo_late = Some (true, s1) /\
  forall s2 sent, rtc (in_step (t_ep demo_zlp)) (s1, []) (s2, sent) ->
    sent = [] /\ completions (events s2) = t_done demo_zlp /\
    he_state (get_ep s2 (t_ep demo_zlp)) <> EPSTATE_IDLE.
Proof.
  exact (zlp_deferred_stuck demo_zlp demo_late demo_zlp_ok demo_zlp_ready eq_refl eq_refl demo_zlp_late
           demo_zlp_double demo_zlp_sel).
Defined.

(** ** A halt cleared in the middle of a transfer *)

(** What is left of a transfer when [k] packets have been sent: from DATA0 again,
    with the bytes already moved on record. *)
Definition resumed (moved : Z) (t : transfer) (k : Z) : transfer :=
  let off := packet_off (t_len t) (t_mps t) k in
  mk_transfer (t_ep t) (t_mps t) (t_base t) (t_dpram t) (t_ram t) (t_addr t + off) (t_len t - off)
    0 (t_e15 t) (t_done t) moved.

Section halt.
Context `{Hok : UsbctrlOk} (t : transfer) (s0 : rp2) (Ht : transfer_ok t s0).
Abbreviation i := (t_ep t).
Abbreviation off := (packet_off (t_len t) (t_mps t)).
Abbreviation N := (packet_count (t_len t) (t_mps t)).

Lemma resumed_ok k d : 0 <= k -> d = 0 \/ d = off k -> t_moved t = 0 -> transfer_ok (resumed d t k) s0.
Proof using Ht.
  intros Hk Hd Hm. destruct Ht. pose proof (packet_off_range (t_len t) (t_mps t) ltac:(lia) ltac:(lia) k Hk).
  split; try done; cbn; try lia.
Qed.

(** The armed buffers hold what has been taken from the buffer and not been sent. *)
Lemma staged_armed v p k m : in_inv t v p k k m -> staged_bytes (v_bc v) = off m - off k.
Proof using Ht.
  intros Hinv. pose proof Hinv as [Hord _ _ _ _ _ _ Ha _ Hid _ _]. pose proof Ht as [].
  assert (forall q, k <= q < m -> bc_avail (bc_half (v_bc v) (buf_of t p q)) = true /\
            bc_len (bc_half (v_bc v) (buf_of t p q)) = off (q + 1) - off q) as Hq.
  { intros q Hq. destruct (Ha q Hq) as [-> _]. done. }
  assert (forall b, b = 0 \/ b = 1 -> (forall q, k <= q < m -> buf_of t p q <> b) ->
            bc_avail (bc_half (v_bc v) b) = false) as Hf.
  { intros b Hb Hne. specialize (Hid b Hb Hne). unfold bc_idle in Hid. bool_prop. done. }
  unfold staged_bytes. destruct (decide (m = k)) as [->|Hmk].
  { pose proof (Hf 0 ltac:(auto) ltac:(lia)) as F0. pose proof (Hf 1 ltac:(auto) ltac:(lia)) as F1.
    cbn in F0, F1. rewrite F0, F1. lia. }
  destruct (Hq k ltac:(lia)) as [A0 L0]. destruct (decide (m = k + 1)) as [->|Hmk1].
  - pose proof (packet_off_range (t_len t) (t_mps t) ltac:(lia) ltac:(lia) k ltac:(lia)).
    pose proof (packet_off_range (t_len t) (t_mps t) ltac:(lia) ltac:(lia) (k + 1) ltac:(lia)).
    pose proof (packet_len_range (t_len t) (t_mps t) ltac:(lia) ltac:(lia) k ltac:(lia)). unfold packet_len in *.
    destruct (buf_of_01 t p k) as [E|E]; rewrite E in *; cbn in A0, L0.
    + pose proof (Hf 1 ltac:(auto)) as F. lapply F; [cbn; intros ->|intros q ?; replace q with k by lia; lia].
      rewrite A0. lia.
    + pose proof (Hf 0 ltac:(auto)) as F. lapply F; [cbn; intros ->|intros q ?; replace q with k by lia; lia].
      rewrite A0, u16_small by (unfold is_u16; lia). lia.
  - assert (buffers t = 2 /\ m = k + 1 + 1) as [Hb ->] by (destruct (buffers_cases t); lia).
    destruct (Hq (k + 1) ltac:(lia)) as [A1 L1]. rewrite buf_of_next in * by done.
    pose proof (packet_off_range (t_len t) (t_mps t) ltac:(lia) ltac:(lia) k ltac:(lia)).
    pose proof (packet_off_range (t_len t) (t_mps t) ltac:(lia) ltac:(lia) (k + 1 + 1) ltac:(lia)).
    pose proof (packet_len_range (t_len t) (t_mps t) ltac:(lia) ltac:(lia) k ltac:(lia)).
    pose proof (packet_len_range (t_len t) (t_mps t) ltac:(lia) ltac:(lia) (k + 1) ltac:(lia)). unfold packet_len in *.
    destruct (buf_of_01 t p k) as [E|E]; rewrite E in *; change (1 - 0) with 1 in *; change (1 - 1) with 0 in *;
      unfold bc_half in A0, L0, A1, L1; cbn [Z.eqb] in A0, L0, A1, L1; rewrite A0, A1, u16_small by (unfold is_u16; lia); lia.
Qed.

(** A reissued transfer, once the bytes moved before are added. *)
Lemma in_state_moved k d v :
  in_state (resumed 0 t k) 0 v -> 0 <= d < 65536 -> d = off k ->
  in_state (resumed d t k) 0 (v <| v_ep := (v_ep v) <| xferred_len := u16 (xferred_len (v_ep v) + d) |> |>).
Proof using Ht.
  intros Hst Hd Ed. destruct Hst as [[HN _]|(p & j & m & Hs & Hi & Hmode & Hsof)].
  { exfalso. destruct Ht. pose proof (packet_off_range (t_len t) (t_mps t) ltac:(lia) ltac:(lia)).
    unfold resumed, packet_count in HN. cbn in HN. lia. }
  right. exists p, j, m. assert (j = 0) as -> by (pose proof (inv_order _ _ _ _ _ _ Hi); lia).
  split; [by destruct Hs|]. split; [|by split].
  pose proof (inv_xferred _ _ _ _ _ _ Hi) as Ex. destruct Hi.
  split; try done. cbn [v_ep setf xferred_len]. rewrite Ex. cbn [t_moved resumed].
  rewrite !packet_off_0 by (destruct Ht; cbn; pose proof (packet_off_range (t_len t) (t_mps t)); unfold packet_off; lia).
  rewrite u16_small by (unfold is_u16; lia). cbn. lia.
Qed.

(** The endpoint after the abort. *)
Definition halted (v : view) : view :=
  v <| v_ep := (v_ep v) <| he_state := EPSTATE_IDLE |> <| remaining_len := 0 |> <| xferred_len := 0 |>
                        <| user_buf := 0 |> <| next_pid := 0 |> |>
    <| v_bc := (bc_zero, bc_zero) |>.

Lemma halted_ready v p k m a :
  in_static t v -> in_inv t v p k k m ->
  in_ready (resumed 0 t k) ((halted v) <| v_aborts := a |>).
Proof using.
  intros [] []. split; try done.
  - change (v_pend v = []). rewrite inv_pend, Z.sub_diag. done.
  - intros b [-> | ->]; done.
Qed.

Lemma clear_stall_ok v p k m :
  in_running t v p k k m -> he_state (v_ep v) = EPSTATE_ACTIVE ->
  t_moved t = 0 -> 0 < t_len t -> i <> 1 -> (forall x, abort_settle (i - 1) x = Some x) ->
  sto_wp (dcd_edpt_clear_stall (128 + i / 2))
    (fun _ s' => exists v', s' = put i v' s0 /\ in_state (resumed (off k) t k) 0 v') (put i v s0).
Proof using Ht.
  intros (Hst & Hinv & Hmode & Hsof) Hact Hmv Hn Hi1 Habort.
  pose proof Ht as [[Hi Hodd] Hs _ _ Hnn _ _ _ _ _ _]. pose proof (inv_order _ _ _ _ _ _ Hinv) as Hord.
  assert (k < N) as HkN by (destruct Hmode as [(_ & ? & _)|(? & _)]; [lia|congruence]).
  pose proof (packet_off_range (t_len t) (t_mps t) ltac:(lia) ltac:(destruct Ht; lia) k ltac:(lia)) as Hok1.
  pose proof (packet_remains (t_len t) (t_mps t) ltac:(lia) ltac:(destruct Ht; lia) k ltac:(lia) Hn) as Hrem.
  unfold dcd_edpt_clear_stall. destruct (edpt_addr t s0 Ht) as [-> ->].
  destruct (status_bit_ep t s0 Ht) as (_ & _ & -> & -> & ->).
  rewrite (proj2 (Z.eqb_neq (Z.shiftr i 1) 0)) by (rewrite Z.shiftr_div_pow2 by lia; change (2 ^ 1) with 2; zdivmod).
  vstep. vstep. rewrite Hact, bool_decide_eq_true_2 by done. change (TUSB_DIR_IN =? TUSB_DIR_IN) with true. cbv iota.
  rewrite (staged_armed v p k m Hinv), (inv_remaining _ _ _ _ _ _ Hinv), (inv_user _ _ _ _ _ _ Hinv), (inv_xferred _ _ _ _ _ _ Hinv).
  rewrite u16_small by (unfold is_u16; lia).
  replace (t_len t - off m + (off m - off k)) with (t_len t - off k) by lia.
  replace (t_addr t + off m - (off m - off k)) with (t_addr t + off k) by lia.
  vstep. unfold hw_endpoint_abort_xfer. vstep. vstep. rewrite (st_addr _ _ Hst).
  destruct (edpt_addr t s0 Ht) as [-> ->]. destruct (status_bit_ep t s0 Ht) as (_ & _ & _ & -> & _).
  vstep. apply swp_mono with (Q := fun _ s' => exists a, s' = put i (v <| v_aborts := a |>) s0).
  { vstep.
    - unfold hw_abort, sto_wp. change (negb (TUSB_DIR_IN =? 0)) with true. cbv iota.
      replace (Z.lor (Z.shiftl (Z.shiftr i 1) 1) 0) with (i - 1).
      + rewrite Habort. eexists. apply put_aborts.
      + rewrite Z.lor_0_r, Z.shiftr_div_pow2, Z.shiftl_mul_pow2 by lia. change (2 ^ 1) with 2. zdivmod.
    - exists (v_aborts v). by destruct v. }
  intros [] s' (a & ->). vstep. vstep. unfold rp2usb_reset_transfer. vstep. vstep. vstep.
  set (v1 := _ <| v_ep := _ |>). assert (v1 = (halted v) <| v_aborts := a |>) as -> by done.
  pose proof (resumed_ok k 0 ltac:(lia) ltac:(auto) Hmv) as Hok'.
  pose proof (halted_ready v p k m a Hst Hinv) as Hrd.
  pose proof (start_ok _ _ Hok' _ Hrd) as Hstart. cbn [resumed t_len t_addr t_ep] in Hstart.
  unfold dcd_edpt_xfer in Hstart. destruct (edpt_addr t s0 Ht) as [E1 E2].
  destruct (status_bit_ep t s0 Ht) as (_ & _ & E3 & E4 & E5). rewrite E1, E2, E3, E4, E5 in Hstart.
  apply swp_run in Hstart as (ok & s1 & Es & -> & w & -> & Hw); [|intros Hz; lia].
  assert (rp2usb_xfer_start i (ep_reg_of i) i (t_addr t + off k) (t_len t - off k)
            (put i ((halted v) <| v_aborts := a |>) s0) = Some (tt, put i w s0)) as Erun.
  { unfold sto_bind in Es. destruct (rp2usb_xfer_start _ _ _ _ _ _) as [[[] ?]|]; [|done]. by injection Es as ->. }
  vstep. unfold sto_wp at 1. rewrite Erun. cbv beta. vstep. eexists. split; [reflexivity|].
  rewrite Hmv, Z.add_0_l. apply in_state_moved; done || lia.
Qed.

End halt.

(** Clearing a halt in the middle of a transfer loses nothing. When the host clears
    the halt of an IN endpoint whose transfer is under way, with every packet sent so
    far acknowledged and no transaction in progress, the driver takes back the armed
    packets and restarts with DATA0; then, whatever the interleaving, what is sent is
    a prefix of the packets of the bytes not sent yet, and when the endpoint is free
    again the packets before and after carry the whole buffer and one completion with
    the full length has been reported. *)
Theorem clear_halt_resumes `{UsbctrlOk} (t : transfer) (s s1 s2 : rp2) (sent : list packet) :
  transfer_ok t s -> in_ready t (view_of (t_ep t) s) -> 0 < t_len t -> t_ep t <> 1 ->
  (forall x, abort_settle (t_ep t - 1) x = Some x) ->
  dcd_edpt_xfer (128 + t_ep t / 2) (t_addr t) (t_len t) s = Some (true, s1) ->
  rtc (in_step (t_ep t)) (s1, []) (s2, sent) ->
  get_pending s2 (t_ep t) = [] -> he_state (get_ep s2 (t_ep t)) = EPSTATE_ACTIVE ->
  exists s3, dcd_edpt_clear_stall (128 + t_ep t / 2) s2 = Some (tt, s3) /\
  forall s4 sent', rtc (in_step (t_ep t)) (s3, []) (s4, sent') ->
    (forall frame, dcd_rp2040_irq frame s4 <> None) /\
    sent' `prefix_of` transfer_packets (resumed 0 t (zlen sent)) /\
    (he_state (get_ep s4 (t_ep t)) = EPSTATE_IDLE ->
     concat (snd <$> sent ++ sent') = mem_read (t_addr t) (t_len t) (t_ram t) /\
     completions (events s4) = t_done t ++ [EV_XFER_COMPLETE (128 + t_ep t / 2) 0 (t_len t)]).
Proof.
  intros Ht Hrd Hn Hi1 Hab Es1 Hr Hp Hact.
  pose proof (start_ok t s Ht _ Hrd ltac:(lia)) as Hstart. pose proof (rd_new _ _ Hrd) as Hmv.
  pose proof (t_i _ _ Ht) as [Hi _]. pose proof (t_sized _ _ Ht) as Hs. rewrite put_view_of in Hstart by done.
  unfold sto_wp in Hstart. rewrite Es1 in Hstart. destruct Hstart as (_ & v1 & -> & Hst). pose proof (N_pos t s Ht) as HN.
  assert (in_config t s (s2, sent)) as (k & v & Hs2 & Hst2 & Hsent & Hk).
  { eapply in_config_reach; [done| |exact Hr]. exists 0, v1. split_and!; done || lia. }
  cbn [fst snd] in *. subst. rewrite get_pending_put in Hp by done. rewrite get_ep_put in Hact by done.
  destruct Hst2 as [[-> Hc]|(p & j & m & Hrun)].
  { destruct Hc as (_ & Hid & _). congruence. }
  assert (j = k) as ->.
  { pose proof Hrun as (_ & Hinv & _). pose proof (inv_order _ _ _ _ _ _ Hinv).
    rewrite (inv_pend _ _ _ _ _ _ Hinv) in Hp. destruct (decide (j < k)); [|lia]. by rewrite seqZ_cons in Hp by lia. }
  assert (zlen (sent_upto t k) = k) as Hlen.
  { unfold zlen, sent_upto. rewrite length_fmap, length_seqZ. lia. }
  rewrite Hlen. pose proof (clear_stall_ok t s Ht v p k m Hrun Hact Hmv Hn Hi1 Hab) as Hclear.
  apply swp_run in Hclear as ([] & s3 & Es3 & v3 & -> & Hst3). eexists. split; [exact Es3|].
  set (t' := resumed (packet_off (t_len t) (t_mps t) k) t k) in *.
  assert (transfer_ok t' s) as Ht' by (apply resumed_ok; auto; lia).
  pose proof (N_pos t' s Ht') as HN'.
  intros s4 sent' Hr'. assert (in_config t' s (s4, sent')) as (k' & v4 & Hs4 & Hst4 & Hsent' & Hk').
  { eapply (in_config_reach t' s Ht'); [|exact Hr']. exists 0, v3. split_and!; done || lia. }
  cbn [fst snd] in *. change (t_ep t) with (t_ep t') in *. subst. split_and!.
  - intros frame E. pose proof (irq_ok t' s Ht' v4 k' frame Hst4) as Hirq. unfold sto_wp in Hirq. by rewrite E in Hirq.
  - by apply (sent_prefix t').
  - rewrite get_ep_put by done. intros Hid. destruct Hst4 as [[-> Hc]|(? & ? & ? & _ & _ & Hmode & _)].
    + pose proof Hc as (_ & _ & _ & _ & _ & Hev). split.
      * rewrite fmap_app, concat_app, (packets_data_upto t s Ht) by lia.
        change (packet_of t' <$> _) with (transfer_packets t'). 
        pose proof (packets_data t' s Ht') as Hd. unfold sent_upto, transfer_packets in *. rewrite Hd. cbn [t' resumed t_addr t_len t_ram].
        pose proof (packet_off_range (t_len t) (t_mps t) ltac:(lia) ltac:(destruct Ht; lia) k ltac:(lia)).
        rewrite <- mem_read_split by (destruct Ht; lia). f_equal. lia.
      * etrans; [exact Hev|]. do 3 f_equal. cbn. lia.
    + destruct Hmode as [(? & _)|(? & _)]; congruence.
Qed.

(** One packet of the concrete transfer has been sent and acknowledged. *)
Definition demo_begun : rp2 :=
  match dcd_edpt_xfer 130 20 150 demo_rp2 with Some (_, s) => s | None => demo_rp2 end.
Definition demo_one : rp2 * list packet := host_take demo_transfer (demo_begun, []).
Definition demo_mid : rp2 :=
  match dcd_rp2040_irq 0 (fst demo_one) with Some (_, s) => s | None => demo_rp2 end.

Lemma demo_mid_reached : rtc (in_step 5) (demo_begun, []) (demo_mid, snd demo_one).
Proof.
  apply rtc_l with demo_one.
  - replace demo_one with
      (hw_finish 5 (in_done (hw_half demo_begun 5)) demo_begun,
       [] ++ [(bc_data1 (hw_half demo_begun 5),
               mem_read (hw_addr demo_begun 5) (bc_len (hw_half demo_begun 5)) (dpram demo_begun))])
      by (vm_compute; reflexivity).
    apply in_token; vm_compute; reflexivity.
  - apply rtc_once. rewrite (surjective_pairing demo_one) at 1. apply in_irq with 0. vm_compute. reflexivity.
Qed.

Lemma clear_halt_resumes_witness :
  exists s3, dcd_edpt_clear_stall (128 + t_ep demo_transfer / 2) demo_mid = Some (tt, s3) /\
  forall s4 sent', rtc (in_step (t_ep demo_transfer)) (s3, []) (s4, sent') ->
    (forall frame, dcd_rp2040_irq frame s4 <> None) /\
    sent' `prefix_of` transfer_packets (resumed 0 demo_transfer (zlen (snd demo_one))) /\
    (he_state (get_ep s4 (t_ep demo_transfer)) = EPSTATE_IDLE ->
     concat (snd <$> snd demo_one ++ sent') =
       mem_read (t_addr demo_transfer) (t_len demo_transfer) (t_ram demo_transfer) /\
     completions (events s4) =
       t_done demo_transfer ++ [EV_XFER_COMPLETE (128 + t_ep demo_transfer / 2) 0 (t_len demo_transfer)]).
Proof.
  refine (clear_halt_resumes demo_transfer demo_rp2 demo_begun demo_mid (snd demo_one)
            demo_transfer_ok demo_ready _ _ (fun x => eq_refl) _ demo_mid_reached _ _).
  - reflexivity.
  - discriminate.
  - vm_compute. reflexivity.
  - vm_compute. reflexivity.
  - vm_compute. reflexivity.
Defined.

(** ** Which endpoint an abort names *)

(** After a short packet on a double-buffered OUT endpoint the driver aborts the
    IN endpoint of the same number. The bit it writes to ABORT is the one that the
    buffer status register, and the driver's own abort of an endpoint, use for IN. *)
Theorem short_packet_aborts_in `{UsbctrlOk} (i b : Z) (s s1 s2 : rp2) :
  (forall k x y, abort_settle k x = Some y -> r_aborts y = r_aborts x) ->
  2 <= rp2040_chip_version -> 0 <= i < 32 -> i mod 2 = 0 -> he_ep_addr (get_ep s i) = i / 2 ->
  abort_other_half i i b s = Some (tt, s1) -> hw_endpoint_abort_xfer i s = Some (tt, s2) ->
  exists x y, r_aborts s1 = x :: r_aborts s /\ status_ep x = i + 1 /\
              r_aborts s2 = y :: r_aborts s /\ status_ep y = i.
Proof.
  intros Hlog Hchip Hi Hev Hadr E1 E2.
  assert (tu_edpt_number (i / 2) = i / 2 /\ tu_edpt_dir (i / 2) = 0) as [Hnum Hdir].
  { assert (i / 2 ∈ seqZ 0 16) as Hin by (apply elem_of_seqZ; zdivmod). cbn in Hin.
    repeat (apply elem_of_cons in Hin as [->|Hin]; [done|]). by apply elem_of_nil in Hin. }
  assert (Z.shiftl (i / 2) 1 = i) as Hsh by (rewrite Z.shiftl_mul_pow2 by lia; change (2 ^ 1) with 2; zdivmod).
  assert (Z.lor i 1 = i + 1) as Hor.
  { rewrite <- Z.add_lor_land. replace (Z.land i 1) with 0; [lia|]. symmetry.
    change 1 with (Z.ones 1). rewrite Z.land_ones by lia. exact Hev. }
  exists i, (i + 1). pose proof (Zmod_odd i) as Ho. destruct (Z.odd i) eqn:Eo; [lia|].
  assert (Z.odd (i + 1) = true) as Eo' by (rewrite Z.odd_add, Eo; done).
  rewrite !status_ep_eq, Eo, Eo' by lia.
  unfold abort_other_half, hw_endpoint_abort_xfer in *. rewrite (proj2 (Z.leb_le 2 _) Hchip) in *.
  unfold sto_bind, sto_get, sto_when, hw_abort in E1, E2. rewrite Hadr, Hnum, Hsh in E1.
  rewrite Hadr, Hdir, Hnum, Hsh in E2. change (if negb (0 =? 0) then 0 else 1) with 1 in E2. rewrite Hor in E2.
  destruct (abort_settle i _) as [x1|] eqn:A1; [|done]. destruct (abort_settle (i + 1) _) as [x2|] eqn:A2; [|done].
  apply Hlog in A1, A2. split_and!; try done; try lia.
  - destruct (bc_full _); injection E1 as <-; exact A1.
  - injection E2 as <-. exact A2.
Qed.

Definition demo_short : rp2 * rp2 :=
  (match abort_other_half 4 4 0 demo_rp2 with Some (_, s) => s | None => demo_rp2 end,
   match hw_endpoint_abort_xfer 4 demo_rp2 with Some (_, s) => s | None => demo_rp2 end).

Lemma short_packet_aborts_in_witness :
  exists x y, r_aborts (fst demo_short) = x :: r_aborts demo_rp2 /\ status_ep x = 4 + 1 /\
              r_aborts (snd demo_short) = y :: r_aborts demo_rp2 /\ status_ep y = 4.
Proof.
  refine (short_packet_aborts_in 4 0 demo_rp2 (fst demo_short) (snd demo_short) _ _ _ _ _ _ _).
  - intros k x y [= ->]. reflexivity.
  - vm_compute. discriminate.
  - lia.
  - reflexivity.
  - vm_compute. reflexivity.
  - vm_compute. reflexivity.
  - vm_compute. reflexivity.
Defined.
