(* ===== verification/UsbDesc.v ===== *)
(** * UsbDesc: the USB descriptors (src/src/usb_descriptors.c)

    The device descriptor, the two configurations (ECM first, RNDIS second, full
    speed) with the descriptor templates of src/src/device/usbd.h they are built
    from, and the string descriptors, which are written into the static [_desc_str].
    The board's serial number is read through hw/bsp/board_api.h; the chip's unique id
    is the parameter [Board]. *)

From S2P Require Import Prelude CText UsbDev Rndis Netd.

(** The bytes [board_get_unique_id] gives. *)
Class Board := board_unique_id : list Z.

Definition USB_PID : Z := 0x4018.
Definition STRID_LANGID : Z := 0.
Definition STRID_MANUFACTURER : Z := 1.
Definition STRID_PRODUCT : Z := 2.
Definition STRID_SERIAL : Z := 3.
Definition STRID_INTERFACE : Z := 4.
Definition STRID_MAC : Z := 5.
Definition STRID_COUNT : Z := 6.
Definition ITF_NUM_CDC : Z := 0.
Definition ITF_NUM_TOTAL : Z := 2.
Definition CONFIG_ID_ECM : Z := 0.
Definition CONFIG_ID_RNDIS : Z := 1.
Definition CONFIG_ID_COUNT : Z := 2.
Definition EPNUM_NET_NOTIF : Z := 0x81.
Definition EPNUM_NET_OUT : Z := 0x02.
Definition EPNUM_NET_IN : Z := 0x82.
Definition CFG_TUD_ENDPOINT0_SIZE : Z := 64.

Definition TUSB_DESC_DEVICE : Z := 1.
Definition TUSB_DESC_CONFIGURATION : Z := 2.
Definition TUSB_DESC_STRING : Z := 3.
Definition TUSB_DESC_DEVICE_QUALIFIER : Z := 6.
Definition TUSB_DESC_OTHER_SPEED_CONFIG : Z := 7.
Definition TUSB_DESC_BOS : Z := 15.
Definition sizeof_desc_device : Z := 18.

Definition desc_device : list Z :=
  [sizeof_desc_device; TUSB_DESC_DEVICE] ++ le_bytes 2 0x0200 ++
  [0xEF; 2; 1; CFG_TUD_ENDPOINT0_SIZE] ++ le_bytes 2 0xCafe ++ le_bytes 2 USB_PID ++
  le_bytes 2 0x0101 ++ [STRID_MANUFACTURER; STRID_PRODUCT; STRID_SERIAL; CONFIG_ID_COUNT].

Definition tud_descriptor_device_cb : ptr := Some (RFlash desc_device, 0).

(** usbd.h: the templates. *)
Definition TUD_CONFIG_DESC_LEN : Z := 9.
Definition TUD_RNDIS_DESC_LEN : Z := 8 + 9 + 5 + 5 + 4 + 5 + 7 + 9 + 7 + 7.
Definition TUD_CDC_ECM_DESC_LEN : Z := 8 + 9 + 5 + 5 + 13 + 7 + 9 + 9 + 7 + 7.

Definition TUD_CONFIG_DESCRIPTOR (config_num itfcount stridx total_len attribute power_ma : Z) : list Z :=
  [9; TUSB_DESC_CONFIGURATION] ++ le_bytes 2 total_len ++
  [itfcount; config_num; stridx; Z.lor 128 attribute; Z.min (power_ma / 2) 255].

Definition TUD_CDC_ECM_DESCRIPTOR
    (itfnum desc_stridx mac_stridx ep_notif ep_notif_size epout epin epsize maxsegmentsize : Z) : list Z :=
  [8; TUSB_DESC_INTERFACE_ASSOCIATION; itfnum; 2; TUSB_CLASS_CDC;
   CDC_COMM_SUBCLASS_ETHERNET_CONTROL_MODEL; 0; 0] ++
  [9; TUSB_DESC_INTERFACE; itfnum; 0; 1; TUSB_CLASS_CDC;
   CDC_COMM_SUBCLASS_ETHERNET_CONTROL_MODEL; 0; desc_stridx] ++
  [5; TUSB_DESC_CS_INTERFACE; 0] ++ le_bytes 2 0x0120 ++
  [5; TUSB_DESC_CS_INTERFACE; 6; itfnum; u8 (itfnum + 1)] ++
  [13; TUSB_DESC_CS_INTERFACE; 15; mac_stridx; 0; 0; 0; 0] ++ le_bytes 2 maxsegmentsize ++
  le_bytes 2 0 ++ [0] ++
  [7; TUSB_DESC_ENDPOINT; ep_notif; 3] ++ le_bytes 2 ep_notif_size ++ [1] ++
  [9; TUSB_DESC_INTERFACE; u8 (itfnum + 1); 0; 0; TUSB_CLASS_CDC_DATA; 0; 0; 0] ++
  [9; TUSB_DESC_INTERFACE; u8 (itfnum + 1); 1; 2; TUSB_CLASS_CDC_DATA; 0; 0; 0] ++
  [7; TUSB_DESC_ENDPOINT; epin; TUSB_XFER_BULK] ++ le_bytes 2 epsize ++ [0] ++
  [7; TUSB_DESC_ENDPOINT; epout; TUSB_XFER_BULK] ++ le_bytes 2 epsize ++ [0].

Definition TUD_RNDIS_DESCRIPTOR
    (itfnum stridx ep_notif ep_notif_size epout epin epsize : Z) : list Z :=
  [8; TUSB_DESC_INTERFACE_ASSOCIATION; itfnum; 2; TUD_RNDIS_ITF_CLASS; TUD_RNDIS_ITF_SUBCLASS;
   TUD_RNDIS_ITF_PROTOCOL; 0] ++
  [9; TUSB_DESC_INTERFACE; itfnum; 0; 1; TUD_RNDIS_ITF_CLASS; TUD_RNDIS_ITF_SUBCLASS;
   TUD_RNDIS_ITF_PROTOCOL; stridx] ++
  [5; TUSB_DESC_CS_INTERFACE; 0] ++ le_bytes 2 0x0110 ++
  [5; TUSB_DESC_CS_INTERFACE; 1; 0; u8 (itfnum + 1)] ++
  [4; TUSB_DESC_CS_INTERFACE; 2; 0] ++
  [5; TUSB_DESC_CS_INTERFACE; 6; itfnum; u8 (itfnum + 1)] ++
  [7; TUSB_DESC_ENDPOINT; ep_notif; 3] ++ le_bytes 2 ep_notif_size ++ [1] ++
  [9; TUSB_DESC_INTERFACE; u8 (itfnum + 1); 0; 2; TUSB_CLASS_CDC_DATA; 0; 0; 0] ++
  [7; TUSB_DESC_ENDPOINT; epin; TUSB_XFER_BULK] ++ le_bytes 2 epsize ++ [0] ++
  [7; TUSB_DESC_ENDPOINT; epout; TUSB_XFER_BULK] ++ le_bytes 2 epsize ++ [0].

Definition MAIN_CONFIG_TOTAL_LEN : Z := TUD_CONFIG_DESC_LEN + TUD_RNDIS_DESC_LEN.
Definition ALT_CONFIG_TOTAL_LEN : Z := TUD_CONFIG_DESC_LEN + TUD_CDC_ECM_DESC_LEN.

Definition rndis_fs_configuration : list Z :=
  TUD_CONFIG_DESCRIPTOR (CONFIG_ID_RNDIS + 1) ITF_NUM_TOTAL 0 MAIN_CONFIG_TOTAL_LEN 0 100 ++
  TUD_RNDIS_DESCRIPTOR ITF_NUM_CDC STRID_INTERFACE EPNUM_NET_NOTIF 8 EPNUM_NET_OUT EPNUM_NET_IN 64.

Definition ecm_fs_configuration : list Z :=
  TUD_CONFIG_DESCRIPTOR (CONFIG_ID_ECM + 1) ITF_NUM_TOTAL 0 ALT_CONFIG_TOTAL_LEN 0 100 ++
  TUD_CDC_ECM_DESCRIPTOR ITF_NUM_CDC STRID_INTERFACE STRID_MAC EPNUM_NET_NOTIF 64 EPNUM_NET_OUT
    EPNUM_NET_IN 64 CFG_TUD_NET_MTU.

Definition configuration_fs_arr (index : Z) : list Z :=
  if index =? CONFIG_ID_RNDIS then rndis_fs_configuration else ecm_fs_configuration.

Definition tud_descriptor_configuration_cb (index : Z) : option (list Z) :=
  if CONFIG_ID_COUNT <=? index then None else Some (configuration_fs_arr index).

(** ** Strings *)

(** [string_desc_arr]; the serial number and the MAC address have no entry. *)
Definition string_desc_arr (index : Z) : option (list Z) :=
  if index =? STRID_LANGID then Some [0x09; 0x04]
  else if index =? STRID_MANUFACTURER then Some (bytes_of_string "TinyUSB")
  else if index =? STRID_PRODUCT then Some (bytes_of_string "TinyUSB Device")
  else if index =? STRID_INTERFACE then Some (bytes_of_string "TinyUSB Network Interface")
  else None.

Definition hex_digit (nibble : Z) : Z := mem_get (bytes_of_string "0123456789ABCDEF") nibble.
Definition hex_byte (b : Z) : list Z :=
  [hex_digit (Z.land (Z.shiftr b 4) 15); hex_digit (Z.land b 15)].

(** board_api.h: the id in hexadecimal, at most [max_chars] characters. *)
Definition board_usb_get_serial `{Board} (max_chars : Z) : list Z :=
  mjoin (hex_byte <$> take (Z.to_nat (max_chars / 2)) (take 16 board_unique_id)).

(** Characters as UTF-16. *)
Definition utf16 (chars : list Z) : list Z := mjoin (le_bytes 2 <$> chars).

(** The characters put after the header of [_desc_str]. *)
Definition string_chars `{Board} (index : Z) : option (list Z) :=
  if index =? STRID_SERIAL then Some (board_usb_get_serial 32)
  else if index =? STRID_MAC then Some (mjoin (hex_byte <$> tud_network_mac_address))
  else if STRID_COUNT <=? index then None
  else take 32 <$> string_desc_arr index.

(** [_desc_str\[0\] = (TUSB_DESC_STRING << 8) | (2 * chr_count + 2)] over the
    characters. The language id is copied as two bytes. *)
Definition tud_descriptor_string_cb `{Board} (index : Z) : ST usb ptr :=
  let write chr_count body :=
    region_write RDescStr 2 body ;;;
    region_write RDescStr 0 (le_bytes 2 (u16 (Z.lor (Z.shiftl TUSB_DESC_STRING 8) (2 * chr_count + 2)))) ;;;
    st_ret (Some (RDescStr, 0)) in
  if index =? STRID_LANGID then write 1 [0x09; 0x04]
  else
    match string_chars index with
    | None => st_ret None
    | Some chars => write (zlen chars) (utf16 chars)
    end.
