(* ===== verification/Usbd.v ===== *)
(** * Usbd: the USB device stack (src/src/device/usbd.c)

    The requests of enumeration, the event queue between the interrupt handler
    ([dcd_event_handler]) and the task ([tud_task]), and the dispatch to the class
    drivers. A class driver is a record of operations, [usbd_class_driver]; the table
    of drivers is the interface [Drivers], whose one instance in this firmware is
    [netd_drivers]. The fields [xfer_isr] and [sof] of the C table are NULL for it
    and are left out. *)

From S2P Require Import Prelude UsbDev Rndis Netd UsbDesc.

(** ** Class drivers *)

Record usbd_class_driver := mk_driver {
  drv_init : ST usb unit;
  drv_reset : ST usb unit;
  drv_open : list Z -> Z -> Z -> ST usb Z;
  drv_control_xfer_cb : control_stage -> control_request -> ST usb bool;
  drv_xfer_cb : Z -> Z -> ST usb bool }.

Class Drivers := _usbd_driver : list usbd_class_driver.

#[export] Instance netd_drivers `{Ram, NetApp} : Drivers :=
  [ mk_driver netd_init netd_reset netd_open netd_control_xfer_cb netd_xfer_cb ].

Section usbd.
Context `{Drivers, Board}.

Definition get_driver (drvid : Z) : option usbd_class_driver := _usbd_driver !! Z.to_nat drvid.

(** ** main.c: the callbacks of the device state *)

Definition BLINK_NOT_MOUNTED : Z := 250.
Definition BLINK_MOUNTED : Z := 1000.
Definition BLINK_SUSPENDED : Z := 2500.

Definition tud_mounted (u : usb) : bool := negb (cfg_num (u_dev u) =? 0).
Definition tud_suspended (u : usb) : bool := suspended (u_dev u).
Definition tud_ready (u : usb) : bool := tud_mounted u && negb (tud_suspended u).

Definition set_blink (ms : Z) : ST usb unit := st_mod (fun u => u <| u_blink := ms |>).
Definition tud_mount_cb : ST usb unit := set_blink BLINK_MOUNTED.
Definition tud_umount_cb : ST usb unit := set_blink BLINK_NOT_MOUNTED.
Definition tud_suspend_cb : ST usb unit := set_blink BLINK_SUSPENDED.
Definition tud_resume_cb : ST usb unit :=
  let! u := st_get in set_blink (if tud_mounted u then BLINK_MOUNTED else BLINK_NOT_MOUNTED).

(** ** Configuration *)

Definition invalid_map (n : Z) : list Z := replicate (Z.to_nat n) TUSB_INDEX_INVALID_8.

Definition configuration_reset : ST usb unit :=
  st_iter drv_reset _usbd_driver ;;;
  mod_dev (fun _ => zero_device <| itf2drv := invalid_map CFG_TUD_INTERFACE_MAX |>
                                <| ep2drv := invalid_map (2 * CFG_TUD_ENDPPOINT_MAX) |>).

Definition usbd_reset : ST usb unit :=
  configuration_reset ;;; st_mod (fun u => u <| u_queued_setup := 0 |>).

(** The search for a driver that opens the interface at [p]: the length it takes, or
    [None] when the stack gives up. *)
Fixpoint open_driver (drvs : list usbd_class_driver) (drv_id : Z) (d : list Z) (p remaining_len : Z)
    : ST usb (option Z) :=
  match drvs with
  | [] => st_ret None
  | drv :: drvs =>
      let! drv_len := drv_open drv d p remaining_len in
      if (9 <=? drv_len) && (drv_len <=? remaining_len) then
        let! u := st_get in
        let '(ok, eps, itfs) := tu_bind_driver_to_ep_itf drv_id (ep2drv (u_dev u)) (itf2drv (u_dev u))
                                  CFG_TUD_INTERFACE_MAX d p drv_len in
        mod_dev (fun dv => dv <| ep2drv := eps |> <| itf2drv := itfs |>) ;;;
        st_ret (if ok then Some drv_len else None)
      else open_driver drvs (drv_id + 1) d p remaining_len
  end.

(** The walk over the interfaces of a configuration: each turn consumes at least a
    byte, unless a descriptor has length 0, where the C loops forever. *)
Fixpoint open_interfaces (fuel : nat) (d : list Z) (p desc_end : Z) : ST usb bool :=
  match fuel with
  | O => st_ret false
  | S fuel =>
      if negb (tu_desc_in_bounds d p desc_end) then st_ret true
      else if tu_desc_type d p =? TUSB_DESC_INTERFACE_ASSOCIATION
      then open_interfaces fuel d (tu_desc_next d p) desc_end
      else if negb (tu_desc_type d p =? TUSB_DESC_INTERFACE) then st_ret false
      else
        let! r := open_driver _usbd_driver 0 d p (u16 (desc_end - p)) in
        match r with
        | None => st_ret false
        | Some drv_len => open_interfaces fuel d (p + drv_len) desc_end
        end
  end.

Definition process_set_config (cfg : Z) : ST usb bool :=
  match tud_descriptor_configuration_cb (u8 (cfg - 1)) with
  | None => st_ret false
  | Some d =>
      if negb (mem_get d 1 =? TUSB_DESC_CONFIGURATION) then st_ret false
      else
        mod_dev (fun dv => dv <| self_powered := Z.testbit (mem_get d 7) 6 |>) ;;;
        open_interfaces (S (length d)) d 9 (le_val (mem_read 2 2 d))
  end.

(** ** Requests *)

Definition invoke_class_control (drv_id : Z) (drv : usbd_class_driver) (r : control_request)
    : ST usb bool :=
  mod_ctrl (fun c => c <| cx_complete_cb := CB_DRIVER drv_id |>) ;;;
  drv_control_xfer_cb drv STAGE_SETUP r.

Definition process_get_status (r : control_request) (status : Z) : ST usb bool :=
  if negb (req_direction r =? TUSB_DIR_IN) then st_ret false
  else tud_control_xfer (Some (RStack (le_bytes 2 status), 0)) 2.

Definition process_get_descriptor (r : control_request) : ST usb bool :=
  let desc_type := Z.shiftr (wValue r) 8 in
  let desc_index := u8 (wValue r) in
  if desc_type =? TUSB_DESC_DEVICE then
    let! u := st_get in
    if (CFG_TUD_ENDPOINT0_SIZE <? sizeof_desc_device) && negb (addressed (u_dev u)) &&
       (sizeof_desc_device <? wLength r)
    then
      mod_ctrl (fun c => c <| cx_request := (cx_request c) <| wLength := CFG_TUD_ENDPOINT0_SIZE |> |>) ;;;
      tud_control_xfer tud_descriptor_device_cb CFG_TUD_ENDPOINT0_SIZE
    else tud_control_xfer tud_descriptor_device_cb sizeof_desc_device
  else if desc_type =? TUSB_DESC_BOS then st_ret false
  else if desc_type =? TUSB_DESC_CONFIGURATION then
    match tud_descriptor_configuration_cb desc_index with
    | None => st_ret false
    | Some d => tud_control_xfer (Some (RFlash d, 0)) (le_val (mem_read 2 2 d))
    end
  else if desc_type =? TUSB_DESC_OTHER_SPEED_CONFIG then st_ret false
  else if desc_type =? TUSB_DESC_STRING then
    let! p := tud_descriptor_string_cb desc_index in
    let! u := st_get in
    match p with
    | None => st_ret false
    | Some _ => tud_control_xfer p (mem_get (ptr_read u p 1) 0)
    end
  else st_ret false.

Definition set_configuration (cfg : Z) : ST usb bool :=
  let! u := st_get in
  let! ok :=
    if negb (cfg_num (u_dev u) =? cfg) then
      st_when (negb (cfg_num (u_dev u) =? 0))
        (call (DcdSofEnable false) ;;;
         call DcdCloseAll ;;;
         configuration_reset ;;;
         mod_dev (fun d => d <| speed := speed (u_dev u) |>)) ;;;
      mod_dev (fun d => d <| cfg_num := cfg |>) ;;;
      if cfg =? 0 then tud_umount_cb ;;; st_ret true
      else
        let! ok := process_set_config cfg in
        if negb ok then mod_dev (fun d => d <| cfg_num := 0 |>) ;;; st_ret false
        else tud_mount_cb ;;; st_ret true
    else st_ret true in
  if ok then tud_control_status ;;; st_ret true else st_ret false.

Definition process_std_device_request (r : control_request) : ST usb bool :=
  let! u := st_get in
  if bRequest r =? TUSB_REQ_SET_ADDRESS then
    call (DcdSetAddress (u8 (wValue r))) ;;;
    mod_dev (fun d => d <| addressed := true |>) ;;;
    st_ret true
  else if bRequest r =? TUSB_REQ_GET_CONFIGURATION then
    tud_control_xfer (Some (RStack [cfg_num (u_dev u)], 0)) 1 ;;; st_ret true
  else if bRequest r =? TUSB_REQ_SET_CONFIGURATION then set_configuration (u8 (wValue r))
  else if bRequest r =? TUSB_REQ_GET_DESCRIPTOR then process_get_descriptor r
  else if bRequest r =? TUSB_REQ_SET_FEATURE then
    if wValue r =? 1 then
      mod_dev (fun d => d <| remote_wakeup_en := true |>) ;;; tud_control_status ;;; st_ret true
    else st_ret false
  else if bRequest r =? TUSB_REQ_CLEAR_FEATURE then
    if wValue r =? 1 then
      mod_dev (fun d => d <| remote_wakeup_en := false |>) ;;; tud_control_status ;;; st_ret true
    else st_ret false
  else if bRequest r =? TUSB_REQ_GET_STATUS then
    process_get_status r ((if self_powered (u_dev u) then 1 else 0) +
                          (if remote_wakeup_en (u_dev u) then 2 else 0))
  else st_ret false.

(** Requests to an interface: the class driver's, or the mandatory answers. *)
Definition process_itf_request (r : control_request) : ST usb bool :=
  let! u := st_get in
  let itf := u8 (wIndex r) in
  if negb (itf <? CFG_TUD_INTERFACE_MAX) then st_ret false
  else
    let drv_id := mem_get (itf2drv (u_dev u)) itf in
    match get_driver drv_id with
    | None => st_ret false
    | Some drv =>
        let! ok := invoke_class_control drv_id drv r in
        if ok then st_ret true
        else if negb (req_type r =? TUSB_REQ_TYPE_STANDARD) then st_ret false
        else
          mod_ctrl (fun c => c <| cx_complete_cb := CB_NONE |>) ;;;
          if bRequest r =? TUSB_REQ_GET_INTERFACE then
            tud_control_xfer (Some (RStack [0], 0)) 1 ;;; st_ret true
          else if bRequest r =? TUSB_REQ_SET_INTERFACE then
            if negb (u8 (wValue r) =? 0) then st_ret false
            else tud_control_status ;;; st_ret true
          else if bRequest r =? TUSB_REQ_GET_STATUS then process_get_status r 0
          else st_ret false
    end.

Definition process_ep_request (r : control_request) : ST usb bool :=
  let! u := st_get in
  let ep_addr := u8 (wIndex r) in
  if negb (tu_edpt_number ep_addr <? CFG_TUD_ENDPPOINT_MAX) then st_ret false
  else
    let drv_id := mem_get (ep2drv (u_dev u)) (ep_index ep_addr) in
    if negb (req_type r =? TUSB_REQ_TYPE_STANDARD) then
      match get_driver drv_id with
      | None => st_ret false
      | Some drv => invoke_class_control drv_id drv r
      end
    else if bRequest r =? TUSB_REQ_GET_STATUS then
      process_get_status r (if usbd_edpt_stalled u ep_addr then 1 else 0)
    else if (bRequest r =? TUSB_REQ_CLEAR_FEATURE) || (bRequest r =? TUSB_REQ_SET_FEATURE) then
      if negb (wValue r =? 0) then st_ret false
      else if tu_edpt_number ep_addr =? 0 then st_ret false
      else
        match get_driver drv_id with
        | None => st_ret false
        | Some drv =>
            (if bRequest r =? TUSB_REQ_CLEAR_FEATURE then usbd_edpt_clear_stall ep_addr
             else usbd_edpt_stall ep_addr) ;;;
            invoke_class_control drv_id drv r ;;;
            mod_ctrl (fun c => c <| cx_complete_cb := CB_NONE |>) ;;;
            let! u := st_get in
            (if usbd_edpt_busy u TU_EP0_IN then st_ret true else tud_control_status) ;;;
            st_ret true
        end
    else st_ret false.

Definition process_setup_received (r : control_request) : ST usb bool :=
  mod_ctrl (fun _ => mk_control_xfer r None 0 0 CB_NONE) ;;;
  let! u := st_get in
  if negb (req_type r <? TUSB_REQ_TYPE_INVALID) then st_ret false
  else if req_type r =? TUSB_REQ_TYPE_VENDOR then
    mod_ctrl (fun c => c <| cx_complete_cb := CB_VENDOR |>) ;;; st_ret false
  else if req_recipient r =? 0 then
    if req_type r =? TUSB_REQ_TYPE_CLASS then
      let itf := u8 (wIndex r) in
      if negb (itf <? CFG_TUD_INTERFACE_MAX) then st_ret false
      else
        let drv_id := mem_get (itf2drv (u_dev u)) itf in
        match get_driver drv_id with
        | None => st_ret false
        | Some drv => invoke_class_control drv_id drv r
        end
    else if negb (req_type r =? TUSB_REQ_TYPE_STANDARD) then st_ret false
    else process_std_device_request r
  else if req_recipient r =? 1 then process_itf_request r
  else if req_recipient r =? 2 then process_ep_request r
  else st_ret false.

(** ** Completion of a transaction on the control endpoint *)

Definition complete_cb (cb : ctrl_cb) (stage : control_stage) (r : control_request) : ST usb bool :=
  match cb with
  | CB_NONE => st_ret true
  | CB_VENDOR => st_ret false
  | CB_DRIVER drv_id =>
      match get_driver drv_id with
      | Some drv => drv_control_xfer_cb drv stage r
      | None => st_ret true
      end
  end.

Definition stall_ep0 : ST usb unit := call (DcdStall TU_EP0_OUT) ;;; call (DcdStall TU_EP0_IN).

Definition usbd_control_xfer_cb (ep_addr xferred_bytes : Z) : ST usb bool :=
  let! u := st_get in
  let c := ctrl_xfer (u_dev u) in
  let r := cx_request c in
  let ep_status := status_stage_ep r in
  if ep_addr =? ep_status then
    if negb (0 =? xferred_bytes) then st_ret false
    else
      call (DcdStatusComplete r) ;;;
      complete_cb (cx_complete_cb c) STAGE_ACK r ;;;
      st_ret true
  else if (req_direction r =? TUSB_DIR_OUT) && bool_decide (cx_buffer c = None) then st_ret false
  else
    let xferred_bytes :=
      if req_direction r =? TUSB_DIR_OUT
      then Z.min xferred_bytes (u32 (cx_data_len c - cx_total_xferred c)) else xferred_bytes in
    st_when ((req_direction r =? TUSB_DIR_OUT) && not_ep0_buf (cx_buffer c))
      (ptr_write (cx_buffer c) (mem_read 0 xferred_bytes (u_ctrl_buf u))) ;;;
    mod_ctrl (fun c => c <| cx_total_xferred := u16 (cx_total_xferred c + u16 xferred_bytes) |>
                         <| cx_buffer := ptr_add (cx_buffer c) xferred_bytes |>) ;;;
    let! u := st_get in
    if (wLength r =? cx_total_xferred (ctrl_xfer (u_dev u))) ||
       (xferred_bytes <? CFG_TUD_ENDPOINT0_BUFSIZE)
    then
      let! is_ok := complete_cb (cx_complete_cb c) STAGE_DATA r in
      if is_ok then status_stage_xact ep_status
      else stall_ep0 ;;; st_ret true
    else data_stage_xact.

(** ** The task *)

(** One event; [false] when the task returns at once. *)
Definition handle_event (e : dcd_event) : ST usb bool :=
  match e with
  | EV_BUS_RESET_START => usbd_reset ;;; st_ret true
  | EV_BUS_RESET_END sp =>
      usbd_reset ;;; mod_dev (fun d => d <| speed := sp |>) ;;; st_ret true
  | EV_UNPLUGGED => usbd_reset ;;; tud_umount_cb ;;; st_ret true
  | EV_SETUP_RECEIVED r =>
      let! u := st_get in
      if u_queued_setup u =? 0 then st_ret true
      else
        st_mod (fun u => u <| u_queued_setup := u8 (u_queued_setup u - 1) |>) ;;;
        let! u := st_get in
        if negb (u_queued_setup u =? 0) then st_ret true
        else
          mod_dev (fun d => d <| connected := true |>) ;;;
          mod_ep_state TU_EP0_OUT (fun _ => 0) ;;;
          mod_ep_state TU_EP0_IN (fun _ => 0) ;;;
          let! ok := process_setup_received r in
          st_when (negb ok) stall_ep0 ;;; st_ret true
  | EV_XFER_COMPLETE ep_addr _ len =>
      mod_ep_state ep_addr (fun s => Z.ldiff s (Z.lor TU_EDPT_STATE_BUSY TU_EDPT_STATE_CLAIMED)) ;;;
      if tu_edpt_number ep_addr =? 0 then usbd_control_xfer_cb ep_addr len ;;; st_ret true
      else
        let! u := st_get in
        match get_driver (mem_get (ep2drv (u_dev u)) (ep_index ep_addr)) with
        | None => st_ret false
        | Some drv => drv_xfer_cb drv ep_addr len ;;; st_ret true
        end
  | EV_SUSPEND => let! u := st_get in st_when (connected (u_dev u)) tud_suspend_cb ;;; st_ret true
  | EV_RESUME => let! u := st_get in st_when (connected (u_dev u)) tud_resume_cb ;;; st_ret true
  | EV_SOF _ => st_ret true
  end.

Definition CFG_TUD_TASK_EVENTS_PER_RUN : Z := 16.

Fixpoint task_loop (epr : nat) : ST usb unit := fun u =>
  match epr with
  | O => (tt, u)
  | S epr =>
      match u_queue u with
      | [] => (tt, u)
      | e :: q =>
          let '(continue, u) := handle_event e (u <| u_queue := q |>) in
          if continue then task_loop epr u else (tt, u)
      end
  end.

Definition tud_task : ST usb unit :=
  let! u := st_get in
  st_when (u_inited u) (task_loop (Z.to_nat CFG_TUD_TASK_EVENTS_PER_RUN)).

(** ** The interrupt handler *)

Definition queue_event (e : dcd_event) : ST usb bool := fun u =>
  if zlen (u_queue u) <? CFG_TUD_TASK_QUEUE_SZ
  then (true, u <| u_queue := u_queue u ++ [e] |>) else (false, u).

(** What the handler does before queueing: whether to queue the event. *)
Definition dcd_event_pre (e : dcd_event) : ST usb bool :=
  let! u := st_get in
  match e with
  | EV_UNPLUGGED =>
      mod_dev (fun d => d <| connected := false |> <| addressed := false |> <| cfg_num := 0 |>
                          <| suspended := false |>) ;;;
      st_ret true
  | EV_SUSPEND =>
      if connected (u_dev u) then mod_dev (fun d => d <| suspended := true |>) ;;; st_ret true
      else st_ret false
  | EV_RESUME =>
      if connected (u_dev u) then mod_dev (fun d => d <| suspended := false |>) ;;; st_ret true
      else st_ret false
  | EV_SOF n =>
      (if suspended (u_dev u) then
         mod_dev (fun d => d <| suspended := false |>) ;;; queue_event EV_RESUME
       else st_ret true) ;;;
      (if Z.testbit (sof_consumer (u_dev u)) 0 then queue_event (EV_SOF n) else st_ret true) ;;;
      st_ret false
  | EV_SETUP_RECEIVED _ =>
      st_mod (fun u => u <| u_queued_setup := u8 (u_queued_setup u + 1) |>) ;;; st_ret true
  | _ => st_ret true
  end.

Definition dcd_event_handler (e : dcd_event) : ST usb unit :=
  let! send := dcd_event_pre e in
  if negb send then st_ret tt
  else
    let! queued := queue_event e in
    if queued then st_ret tt
    else
      match e with
      | EV_SETUP_RECEIVED _ =>
          st_mod (fun u => u <| u_queued_setup := u8 (u_queued_setup u - 1) |>)
      | EV_XFER_COMPLETE ep_addr _ _ =>
          mod_ep_state ep_addr (fun s => Z.ldiff s (Z.lor TU_EDPT_STATE_BUSY TU_EDPT_STATE_CLAIMED))
      | _ => st_ret tt
      end.

(** ** Initialisation *)

Definition tud_rhport_init : ST usb bool :=
  let! u := st_get in
  if u_inited u then st_ret true
  else
    mod_dev (fun _ => zero_device) ;;;
    st_mod (fun u => u <| u_queued_setup := 0 |> <| u_queue := [] |>) ;;;
    st_iter drv_init _usbd_driver ;;;
    st_mod (fun u => u <| u_inited := true |>) ;;;
    call DcdInit ;;;
    st_ret true.

Definition tud_deinit : ST usb bool :=
  let! u := st_get in
  if negb (u_inited u) then st_ret true
  else
    call DcdDeinit ;;;
    mod_dev (fun _ => zero_device) ;;;
    st_mod (fun u => u <| u_inited := false |>) ;;;
    st_when (0 <? cfg_num (u_dev u)) tud_umount_cb ;;;
    st_ret true.

Definition tud_remote_wakeup : ST usb bool :=
  let! u := st_get in
  if negb (suspended (u_dev u) && remote_wakeup_en (u_dev u)) then st_ret false
  else call DcdRemoteWakeup ;;; st_ret true.

Definition usbd_sof_enable (consumer : Z) (en : bool) : ST usb unit :=
  let! u := st_get in
  let old := sof_consumer (u_dev u) in
  let new := if en then Z.lor old (Z.shiftl 1 consumer) else Z.ldiff old (Z.shiftl 1 consumer) in
  mod_dev (fun d => d <| sof_consumer := new |>) ;;;
  st_when (negb (Bool.eqb (new =? 0) (old =? 0))) (call (DcdSofEnable (negb (new =? 0)))).

End usbd.
