(* ===== verification/UsbInv.v ===== *)
(** * UsbInv: what holds in every state of the USB device stack

    The invariant [usb_inv] of the stack: every buffer and table keeps its size, the
    event queue stays within its 16 entries, and the counter of queued SETUP packets
    never exceeds the number that is queued. It is kept by every operation, for any
    class drivers and any application that keep it ([DriversOk], [NetAppOk]); the
    network driver is shown to be such a driver. *)

From S2P Require Import Prelude UsbDev Rndis Netd UsbDesc Usbd.

Definition is_setup (e : dcd_event) : bool :=
  match e with EV_SETUP_RECEIVED _ => true | _ => false end.
Definition setups (q : list dcd_event) : Z := zlen (filter (fun e => is_setup e = true) q).

Record usb_inv (u : usb) : Prop := {
  ui_setup : 0 <= u_queued_setup u <= setups (u_queue u);
  ui_queue : zlen (u_queue u) <= CFG_TUD_TASK_QUEUE_SZ;
  ui_ctrl_buf : zlen (u_ctrl_buf u) = CFG_TUD_ENDPOINT0_BUFSIZE;
  ui_rx : zlen (nb_rx (u_epbuf u)) = NETD_PACKET_SIZE;
  ui_tx : zlen (nb_tx (u_epbuf u)) = NETD_PACKET_SIZE;
  ui_notify : zlen (nb_notify (u_epbuf u)) = sizeof_ecm_notify;
  ui_ctrl : zlen (nb_ctrl (u_epbuf u)) = NETD_CONTROL_SIZE;
  ui_desc_str : zlen (u_desc_str u) = 66;
  ui_itf2drv : zlen (itf2drv (u_dev u)) = CFG_TUD_INTERFACE_MAX;
  ui_ep2drv : zlen (ep2drv (u_dev u)) = 2 * CFG_TUD_ENDPPOINT_MAX;
  ui_ep_status : zlen (ep_status (u_dev u)) = 2 * CFG_TUD_ENDPPOINT_MAX
}.

(** ** Automation *)

(** Projections of updated records. *)
Ltac usb_simpl :=
  cbn [setf eta eta_usb eta_device eta_control_xfer eta_interface eta_epbuf eta_request
       u_dev u_queued_setup u_inited u_ctrl_buf u_queue u_itf u_epbuf u_can_xmit u_link_up
       u_packet_filter u_rndis_state u_desc_str u_blink u_refusals u_calls
       ctrl_xfer connected addressed suspended self_powered remote_wakeup_en cfg_num speed
       sof_consumer itf2drv ep2drv ep_status
       cx_request cx_buffer cx_data_len cx_total_xferred cx_complete_cb
       itf_num itf_data_alt ep_in ep_out ep_size ep_notif ecm_mode ecm_desc_epdata
       nb_rx nb_tx nb_notify nb_ctrl bmRequestType bRequest wValue wIndex wLength fst snd].

(** A single update keeps the invariant. *)
Ltac inv_mod :=
  apply st_keeps_mod; let u := fresh "u" in let Hu := fresh "Hu" in
  intros u Hu; destruct Hu; constructor; usb_simpl;
  rewrite ?mem_write_zlen, ?mem_set_zlen; first [assumption | reflexivity | lia].

(** A statement that keeps the invariant: by the rules of the monad, by the lemmas
    in [fw], or as an update. *)
Ltac inv_keep :=
  repeat first
  [ progress intros
  | assumption
  | solve [auto with fw nocore]
  | apply st_keeps_bind
  | apply st_keeps_when
  | apply st_keeps_get
  | apply st_keeps_ret
  | lazymatch goal with
    | |- st_keeps _ (let '(_, _) := ?x in _) => destruct x
    | |- st_keeps _ (match ?x with _ => _ end) => destruct x
    end
  | inv_mod ].

(** ** The endpoint API *)

Lemma mod_dev_inv f :
  (forall d, zlen (itf2drv d) = 16 -> zlen (ep2drv d) = 32 -> zlen (ep_status d) = 32 ->
    zlen (itf2drv (f d)) = 16 /\ zlen (ep2drv (f d)) = 32 /\ zlen (ep_status (f d)) = 32) ->
  st_keeps usb_inv (mod_dev f).
Proof.
  intros Hf. apply st_keeps_mod. intros u Hu.
  destruct (Hf (u_dev u)) as (H1 & H2 & H3); [apply Hu..|].
  destruct Hu. constructor; usb_simpl; assumption.
Qed.

Lemma mod_ctrl_inv f : st_keeps usb_inv (mod_ctrl f).
Proof. unfold mod_ctrl, mod_dev. inv_mod. Qed.
Lemma mod_itf_inv f : st_keeps usb_inv (mod_itf f).
Proof. unfold mod_itf. inv_mod. Qed.
Lemma call_inv c : st_keeps usb_inv (call c).
Proof. unfold call. inv_mod. Qed.
Lemma mod_ep_state_inv ep f : st_keeps usb_inv (mod_ep_state ep f).
Proof. unfold mod_ep_state, mod_dev. inv_mod. Qed.
Lemma region_write_inv r off data : st_keeps usb_inv (region_write r off data).
Proof.
  destruct r; cbn [region_write]; [apply call_inv..| |apply mod_itf_inv| | | | |];
    try unfold mod_epbuf; inv_mod.
Qed.
#[export] Hint Resolve mod_ctrl_inv mod_itf_inv call_inv mod_ep_state_inv region_write_inv : fw.

Lemma ptr_write_inv p data : st_keeps usb_inv (ptr_write p data).
Proof. destruct p as [[r off]|]; cbn [ptr_write]; auto with fw. Qed.

Lemma dcd_edpt_xfer_inv ep buf n : st_keeps usb_inv (dcd_edpt_xfer ep buf n).
Proof.
  intros u Hu. unfold st_end, dcd_edpt_xfer. usb_simpl.
  destruct (u_refusals u); destruct Hu; constructor; usb_simpl; assumption.
Qed.
#[export] Hint Resolve ptr_write_inv dcd_edpt_xfer_inv : fw.

Lemma usbd_edpt_open_inv d p : st_keeps usb_inv (usbd_edpt_open d p).
Proof. unfold usbd_edpt_open, dcd_edpt_open. inv_keep. Qed.
Lemma usbd_edpt_claim_inv ep : st_keeps usb_inv (usbd_edpt_claim ep).
Proof. unfold usbd_edpt_claim. inv_keep. Qed.
Lemma usbd_edpt_release_inv ep : st_keeps usb_inv (usbd_edpt_release ep).
Proof. unfold usbd_edpt_release. inv_keep. Qed.
Lemma usbd_edpt_xfer_inv ep buf n : st_keeps usb_inv (usbd_edpt_xfer ep buf n).
Proof. unfold usbd_edpt_xfer. inv_keep. Qed.
Lemma usbd_edpt_stall_inv ep : st_keeps usb_inv (usbd_edpt_stall ep).
Proof. unfold usbd_edpt_stall. inv_keep. Qed.
Lemma usbd_edpt_clear_stall_inv ep : st_keeps usb_inv (usbd_edpt_clear_stall ep).
Proof. unfold usbd_edpt_clear_stall. inv_keep. Qed.
#[export] Hint Resolve usbd_edpt_open_inv usbd_edpt_claim_inv usbd_edpt_release_inv
  usbd_edpt_xfer_inv usbd_edpt_stall_inv usbd_edpt_clear_stall_inv : fw.

Lemma open_edpt_loop_inv n d p t eps : st_keeps usb_inv (open_edpt_loop n d p t eps).
Proof.
  revert p eps. induction n as [|n IH]; intros p eps; cbn [open_edpt_loop]; inv_keep.
Qed.
#[export] Hint Resolve open_edpt_loop_inv : fw.
Lemma usbd_open_edpt_pair_inv d p n t : st_keeps usb_inv (usbd_open_edpt_pair d p n t).
Proof. unfold usbd_open_edpt_pair. inv_keep. Qed.

Lemma data_stage_xact_inv : st_keeps usb_inv data_stage_xact.
Proof. unfold data_stage_xact. inv_keep. Qed.
Lemma status_stage_xact_inv ep : st_keeps usb_inv (status_stage_xact ep).
Proof. unfold status_stage_xact. inv_keep. Qed.
#[export] Hint Resolve usbd_open_edpt_pair_inv data_stage_xact_inv status_stage_xact_inv : fw.
Lemma tud_control_status_inv : st_keeps usb_inv tud_control_status.
Proof. unfold tud_control_status. inv_keep. Qed.
Lemma tud_control_xfer_inv b n : st_keeps usb_inv (tud_control_xfer b n).
Proof. unfold tud_control_xfer. inv_keep. Qed.
#[export] Hint Resolve tud_control_status_inv tud_control_xfer_inv : fw.

(** ** RNDIS *)

Lemma netd_report_inv buf n : st_keeps usb_inv (netd_report buf n).
Proof. unfold netd_report. inv_keep. Qed.
Lemma set_field_inv off v : st_keeps usb_inv (set_field off v).
Proof. apply (region_write_inv RCtrl). Qed.
Lemma ctrl_write_inv off data : st_keeps usb_inv (ctrl_write off data).
Proof. apply (region_write_inv RCtrl). Qed.
#[export] Hint Resolve netd_report_inv set_field_inv ctrl_write_inv : fw.

Lemma rndis_class_set_handler_inv `{Ram} : st_keeps usb_inv rndis_class_set_handler.
Proof.
  unfold rndis_class_set_handler, rndis_initialize, rndis_query, rndis_handle_set_msg, rndis_reset,
    rndis_keepalive, rndis_query_cmplt, rndis_query_cmplt32, rndis_report.
  inv_keep.
Qed.
#[export] Hint Resolve rndis_class_set_handler_inv : fw.

(** ** The network driver *)

(** What the driver relies on of the application: its receive callback keeps the
    invariant. *)
Class NetAppOk `{NetApp} : Prop := recv_cb_inv : forall l, st_keeps usb_inv (tud_network_recv_cb l).

(** What the stack relies on of a class driver. *)
Record driver_ok (d : usbd_class_driver) : Prop := {
  dk_init : st_keeps usb_inv (drv_init d);
  dk_reset : st_keeps usb_inv (drv_reset d);
  dk_open : forall c p n, st_keeps usb_inv (drv_open d c p n);
  dk_control : forall s r, st_keeps usb_inv (drv_control_xfer_cb d s r);
  dk_xfer : forall ep n, st_keeps usb_inv (drv_xfer_cb d ep n) }.
Class DriversOk `{Drivers} : Prop := drivers_ok : Forall driver_ok _usbd_driver.

Lemma netd_init_inv : st_keeps usb_inv netd_init.
Proof. apply mod_itf_inv. Qed.
Lemma recv_renew_inv : st_keeps usb_inv tud_network_recv_renew.
Proof. unfold tud_network_recv_renew. inv_keep. Qed.
Lemma do_in_xfer_inv b n : st_keeps usb_inv (do_in_xfer b n).
Proof. unfold do_in_xfer. inv_keep. Qed.
#[export] Hint Resolve netd_init_inv recv_renew_inv do_in_xfer_inv : fw.

Lemma netd_open_inv d p n : st_keeps usb_inv (netd_open d p n).
Proof. unfold netd_open. inv_keep. Qed.
Lemma ecm_report_inv b : st_keeps usb_inv (ecm_report b).
Proof. unfold ecm_report. inv_keep. Qed.
Lemma netd_set_interface_inv a : st_keeps usb_inv (netd_set_interface a).
Proof. unfold netd_set_interface. inv_keep. Qed.
#[export] Hint Resolve netd_open_inv ecm_report_inv netd_set_interface_inv : fw.
Lemma netd_control_xfer_cb_inv `{Ram} s r : st_keeps usb_inv (netd_control_xfer_cb s r).
Proof. unfold netd_control_xfer_cb, netd_control_setup. inv_keep. Qed.

Lemma netd_xfer_cb_inv `{NetAppOk} ep n : st_keeps usb_inv (netd_xfer_cb ep n).
Proof.
  unfold netd_xfer_cb, handle_incoming_packet.
  inv_keep.
Qed.
Lemma tud_network_xmit_inv f : st_keeps usb_inv (tud_network_xmit f).
Proof. unfold tud_network_xmit. inv_keep. Qed.
Lemma tud_network_link_state_inv b : st_keeps usb_inv (tud_network_link_state b).
Proof. unfold tud_network_link_state. inv_keep. Qed.
#[export] Hint Resolve netd_control_xfer_cb_inv netd_xfer_cb_inv tud_network_xmit_inv
  tud_network_link_state_inv : fw.

(** The table of this firmware. *)
#[export] Instance netd_drivers_ok `{Ram, NetAppOk} : DriversOk.
Proof.
  apply Forall_cons_2; [|apply Forall_nil_2]. split; intros;
    cbn [drv_init drv_reset drv_open drv_control_xfer_cb drv_xfer_cb]; unfold netd_reset;
    auto with fw.
Qed.

(** ** The stack *)

Section stack.
Context `{DriversOk, Board}.

Lemma get_driver_ok i d : get_driver i = Some d -> driver_ok d.
Proof. apply Forall_lookup_1, drivers_ok. Qed.

Lemma configuration_reset_inv : st_keeps usb_inv configuration_reset.
Proof.
  unfold configuration_reset. apply st_keeps_bind; [|intros _; by apply mod_dev_inv].
  generalize drivers_ok. induction 1 as [|d l Hd Hl IH]; cbn [st_iter]; [apply st_keeps_ret|].
  apply st_keeps_bind; [apply Hd | intros _; apply IH].
Qed.
#[local] Hint Resolve configuration_reset_inv : fw.
Lemma st_mod_setup_0 : st_keeps usb_inv (st_mod (fun u => u <| u_queued_setup := 0 |>)).
Proof.
  apply st_keeps_mod. intros u [[? ?]]. constructor; usb_simpl; try assumption.
  split; [lia|apply zlen_nonneg].
Qed.
#[local] Hint Resolve st_mod_setup_0 : fw.
Lemma usbd_reset_inv : st_keeps usb_inv usbd_reset.
Proof. unfold usbd_reset. inv_keep. Qed.
#[local] Hint Resolve usbd_reset_inv : fw.

(** Binding a driver keeps the sizes of the two tables. *)
Lemma bind_driver_loop_len fuel id m d p e eps itfs :
  let '(_, eps', itfs') := bind_driver_loop fuel id m d p e eps itfs in
  zlen eps' = zlen eps /\ zlen itfs' = zlen itfs.
Proof.
  revert p eps itfs. induction fuel as [|fuel IH]; intros p eps itfs; cbn [bind_driver_loop]; [done|].
  repeat case_if; try done;
    match goal with |- context [bind_driver_loop fuel id m d ?q e ?a ?b] =>
      specialize (IH q a b); destruct (bind_driver_loop fuel id m d q e a b) as [[? ?] ?] end;
    rewrite ?mem_set_zlen in IH; done.
Qed.

Lemma open_driver_inv drvs i d p n : Forall driver_ok drvs -> st_keeps usb_inv (open_driver drvs i d p n).
Proof.
  intros Hd. revert i. induction Hd as [|drv drvs Hdrv _ IH]; intros i; cbn [open_driver]; [inv_keep|].
  apply st_keeps_bind; [apply Hdrv|]. intros len. apply st_keeps_if; [|apply IH].
  (* the tables come from the state they are put back into *)
  intros u Hu. rewrite st_bind_end. cbn [st_val st_end st_get fst snd].
  unfold tu_bind_driver_to_ep_itf. cbv beta.
  pose proof (bind_driver_loop_len (S (length d)) i CFG_TUD_INTERFACE_MAX d p (p + len)
    (ep2drv (u_dev u)) (itf2drv (u_dev u))) as Hl.
  destruct (bind_driver_loop _ _ _ _ _ _ _ _) as [[ok eps] itfs]. destruct Hl as [Hl1 Hl2].
  destruct Hu. constructor; unfold mod_dev, st_end, st_bind, st_mod, st_ret; usb_simpl; congruence.
Qed.

Lemma open_interfaces_inv fuel d p e : st_keeps usb_inv (open_interfaces fuel d p e).
Proof.
  revert p. induction fuel as [|fuel IH]; intros p; cbn [open_interfaces]; [inv_keep|].
  inv_keep. apply open_driver_inv, drivers_ok.
Qed.
#[local] Hint Resolve open_interfaces_inv : fw.

Lemma mod_dev_flags_inv f :
  (forall d, itf2drv (f d) = itf2drv d /\ ep2drv (f d) = ep2drv d /\ ep_status (f d) = ep_status d) ->
  st_keeps usb_inv (mod_dev f).
Proof. intros Hf. apply mod_dev_inv. intros d. destruct (Hf d) as (-> & -> & ->). auto. Qed.
#[local] Hint Extern 2 (st_keeps usb_inv (mod_dev _)) =>
  (apply mod_dev_flags_inv; intros ?; usb_simpl; auto; fail) : fw.
Lemma set_blink_inv ms : st_keeps usb_inv (set_blink ms).
Proof. unfold set_blink. inv_mod. Qed.
#[local] Hint Resolve set_blink_inv : fw.

Lemma set_configuration_inv cfg : st_keeps usb_inv (set_configuration cfg).
Proof. unfold set_configuration, process_set_config, tud_umount_cb, tud_mount_cb. inv_keep. Qed.
#[local] Hint Resolve set_configuration_inv : fw.

Lemma process_get_descriptor_inv r : st_keeps usb_inv (process_get_descriptor r).
Proof. unfold process_get_descriptor, tud_descriptor_string_cb. inv_keep. Qed.
#[local] Hint Resolve process_get_descriptor_inv : fw.

Lemma process_get_status_inv r s : st_keeps usb_inv (process_get_status r s).
Proof. unfold process_get_status. inv_keep. Qed.
#[local] Hint Resolve process_get_status_inv : fw.

Lemma process_std_device_request_inv r : st_keeps usb_inv (process_std_device_request r).
Proof. unfold process_std_device_request. inv_keep. Qed.

Lemma invoke_class_control_inv i d r : driver_ok d -> st_keeps usb_inv (invoke_class_control i d r).
Proof. intros Hd. unfold invoke_class_control. inv_keep. apply Hd. Qed.
#[local] Hint Resolve process_std_device_request_inv invoke_class_control_inv get_driver_ok : fw.

Lemma process_itf_request_inv r : st_keeps usb_inv (process_itf_request r).
Proof.
  unfold process_itf_request. apply st_keeps_bind; [inv_keep|]. intros u. case_if; [inv_keep|].
  destruct (get_driver _) eqn:Ed; [|inv_keep].
  apply get_driver_ok in Ed. inv_keep.
Qed.
Lemma process_ep_request_inv r : st_keeps usb_inv (process_ep_request r).
Proof.
  unfold process_ep_request. apply st_keeps_bind; [inv_keep|]. intros u. case_if; [inv_keep|].
  destruct (get_driver _) eqn:Ed; [apply get_driver_ok in Ed|]; inv_keep.
Qed.
#[local] Hint Resolve process_itf_request_inv process_ep_request_inv : fw.

Lemma process_setup_received_inv r : st_keeps usb_inv (process_setup_received r).
Proof.
  unfold process_setup_received. apply st_keeps_bind; [inv_keep|]. intros _.
  apply st_keeps_bind; [inv_keep|]. intros u.
  destruct (get_driver _) eqn:Ed; [apply get_driver_ok in Ed|]; inv_keep.
Qed.
Lemma complete_cb_inv cb s r : st_keeps usb_inv (complete_cb cb s r).
Proof.
  destruct cb as [|i|]; cbn [complete_cb]; [apply st_keeps_ret| |apply st_keeps_ret].
  destruct (get_driver i) eqn:E; [apply get_driver_ok in E; apply E|inv_keep].
Qed.
#[local] Hint Resolve process_setup_received_inv complete_cb_inv : fw.
Lemma usbd_control_xfer_cb_inv ep n : st_keeps usb_inv (usbd_control_xfer_cb ep n).
Proof. unfold usbd_control_xfer_cb, stall_ep0. inv_keep. Qed.
#[local] Hint Resolve usbd_control_xfer_cb_inv : fw.


(** *** The queue *)

Lemma setups_cons e q : setups (e :: q) = (if is_setup e then 1 else 0) + setups q.
Proof.
  unfold setups. rewrite filter_cons. destruct (is_setup e); case_decide; try done.
  rewrite zlen_cons. lia.
Qed.
Lemma setups_snoc q e : setups (q ++ [e]) = setups q + (if is_setup e then 1 else 0).
Proof.
  induction q as [|x q IH]; cbn [app]; rewrite !setups_cons; [unfold setups; cbn; lia|]. lia.
Qed.
Lemma setups_le q : 0 <= setups q <= zlen q.
Proof.
  induction q as [|x q IH]; [done|]. rewrite setups_cons, zlen_cons. destruct (is_setup x); lia.
Qed.

(** Taking an event off the queue. A SETUP is taken with one that may be counted. *)
Lemma pop_inv u e q :
  usb_inv u -> u_queue u = e :: q -> is_setup e = false -> usb_inv (u <| u_queue := q |>).
Proof.
  intros Hu Hq He. pose proof (ui_setup u Hu) as Hs. pose proof (ui_queue u Hu) as Hl.
  rewrite Hq, setups_cons, He in Hs. rewrite Hq, zlen_cons in Hl. unfold CFG_TUD_TASK_QUEUE_SZ in Hl.
  destruct Hu. constructor; usb_simpl; try assumption; unfold CFG_TUD_TASK_QUEUE_SZ; lia.
Qed.

(** The part of [handle_event] that takes a SETUP into account. *)
Lemma pop_setup_inv u r q :
  usb_inv u -> u_queue u = EV_SETUP_RECEIVED r :: q ->
  usb_inv (u <| u_queue := q |>
             <| u_queued_setup := if u_queued_setup u =? 0 then 0 else u8 (u_queued_setup u - 1) |>).
Proof.
  intros Hu Hq. pose proof (ui_setup u Hu) as Hs. pose proof (ui_queue u Hu) as Hl.
  rewrite Hq, setups_cons in Hs. rewrite Hq, zlen_cons in Hl. unfold CFG_TUD_TASK_QUEUE_SZ in Hl.
  cbn [is_setup] in Hs. pose proof (setups_le q).
  destruct Hu. constructor; usb_simpl; try assumption; [|unfold CFG_TUD_TASK_QUEUE_SZ; lia].
  destruct (Z.eqb_spec (u_queued_setup u) 0); [lia|]. rewrite u8_small by (unfold is_u8; lia). lia.
Qed.

(** Handling an event that is not a SETUP. *)
Lemma handle_event_inv e : is_setup e = false -> st_keeps usb_inv (handle_event e).
Proof.
  intros He. destruct e; cbn [handle_event]; try discriminate;
    unfold tud_umount_cb, tud_suspend_cb, tud_resume_cb; try solve [inv_keep].
  apply st_keeps_bind; [inv_keep|]. intros _. apply st_keeps_if; [inv_keep|].
  apply st_keeps_bind; [inv_keep|]. intros u.
  destruct (get_driver _) eqn:Ed; [apply get_driver_ok in Ed|]; inv_keep. apply Ed.
Qed.

Lemma task_turn_inv u e q :
  usb_inv u -> u_queue u = e :: q -> usb_inv (snd (handle_event e (u <| u_queue := q |>))).
Proof.
  intros Hu Hq. destruct (is_setup e) eqn:He.
  - destruct e as [| | | | | |r|]; try discriminate.
    pose proof (pop_setup_inv u r q Hu Hq) as Hp. cbn [handle_event].
    unfold st_bind at 1, st_get at 1. cbn iota beta. usb_simpl.
    destruct (Z.eqb_spec (u_queued_setup u) 0) as [E0|E0].
    + unfold st_ret. usb_simpl. replace (u <| u_queue := q |>) with
        (u <| u_queue := q |> <| u_queued_setup := 0 |>) by (rewrite <- E0; destruct u; reflexivity).
      exact Hp.
    + unfold st_bind at 1, st_mod at 1. cbn iota beta. usb_simpl.
      match goal with |- usb_inv (snd (?m ?s)) => change (usb_inv (st_end m s)) end.
      match goal with |- usb_inv (st_end ?m _) => cut (st_keeps usb_inv m); [intros Hk; exact (Hk _ Hp)|] end.
      unfold stall_ep0. inv_keep.
  - apply (handle_event_inv e He), (pop_inv u e q Hu Hq He).
Qed.

Lemma tud_task_inv : st_keeps usb_inv tud_task.
Proof.
  unfold tud_task. inv_keep. generalize (Z.to_nat CFG_TUD_TASK_EVENTS_PER_RUN). intros n.
  induction n as [|n IH]; intros u Hu; unfold st_end; cbn [task_loop]; [exact Hu|].
  destruct (u_queue u) as [|e q] eqn:Hq; [exact Hu|].
  pose proof (task_turn_inv u e q Hu Hq) as Ht.
  destruct (handle_event e _) as [c u']. destruct c; [apply IH, Ht|exact Ht].
Qed.

(** *** The interrupt handler *)

Lemma queue_event_inv e : is_setup e = false -> st_keeps usb_inv (queue_event e).
Proof.
  intros He u Hu. unfold st_end, queue_event. destruct (Z.ltb_spec (zlen (u_queue u)) CFG_TUD_TASK_QUEUE_SZ);
    [|exact Hu].
  destruct Hu. constructor; usb_simpl; try assumption.
  - rewrite setups_snoc, He. lia.
  - rewrite zlen_app. change (zlen [e]) with 1. lia.
Qed.

Lemma dcd_event_handler_inv e : st_keeps usb_inv (dcd_event_handler e).
Proof.
  destruct (is_setup e) eqn:He.
  - destruct e as [| | | | | |r|]; try discriminate. intros u Hu. clear He.
    pose proof Hu as Hu'. destruct Hu as [Hs Hq ?????????]. pose proof (setups_le (u_queue u)).
    unfold CFG_TUD_TASK_QUEUE_SZ in Hq.
    unfold st_end, dcd_event_handler, dcd_event_pre, st_bind, st_get, st_mod, st_ret. cbn iota beta.
    cbn [negb]. unfold queue_event. usb_simpl. unfold CFG_TUD_TASK_QUEUE_SZ.
    rewrite u8_small by (unfold is_u8; lia).
    destruct (Z.ltb_spec (zlen (u_queue u)) 16); usb_simpl.
    + constructor; usb_simpl; try assumption.
      * rewrite setups_snoc. cbn [is_setup]. lia.
      * rewrite zlen_app. change (zlen [_]) with 1. unfold CFG_TUD_TASK_QUEUE_SZ. lia.
    + replace (u_queued_setup u + 1 - 1) with (u_queued_setup u) by lia.
      rewrite u8_small by (unfold is_u8; lia). destruct u; exact Hu'.
  - unfold dcd_event_handler. apply st_keeps_bind.
    + destruct e; cbn [dcd_event_pre]; try discriminate; inv_keep; by apply queue_event_inv.
    + intros send. apply st_keeps_if; [inv_keep|]. apply st_keeps_bind; [by apply queue_event_inv|].
      intros queued. apply st_keeps_if; [inv_keep|]. destruct e; try discriminate; inv_keep.
Qed.

Lemma tud_rhport_init_inv : st_keeps usb_inv tud_rhport_init.
Proof.
  unfold tud_rhport_init. apply st_keeps_bind; [inv_keep|]. intros u. apply st_keeps_if; [inv_keep|].
  apply st_keeps_bind; [by apply mod_dev_inv|]. intros _. apply st_keeps_bind.
  { apply st_keeps_mod. intros v Hv. destruct Hv. constructor; usb_simpl; try assumption; done. }
  intros _. apply st_keeps_bind; [|intros _; inv_keep].
  generalize drivers_ok. induction 1 as [|d l Hd Hl IH]; cbn [st_iter]; [apply st_keeps_ret|].
  apply st_keeps_bind; [apply Hd | intros _; apply IH].
Qed.

Lemma tud_deinit_inv : st_keeps usb_inv tud_deinit.
Proof.
  unfold tud_deinit, tud_umount_cb. inv_keep.
Qed.

(** ** Reachable states *)

(** What can happen next: the application initialises or shuts the stack down, runs
    the task, sends a frame or changes the link state; the controller puts received
    bytes into a receive buffer, or its interrupt reports an event. *)
Inductive usb_step (u : usb) : usb -> Prop :=
  | step_init : usb_step u (st_end tud_rhport_init u)
  | step_deinit : usb_step u (st_end tud_deinit u)
  | step_task : usb_step u (st_end tud_task u)
  | step_xmit frame : usb_step u (st_end (tud_network_xmit frame) u)
  | step_link b : usb_step u (st_end (tud_network_link_state b) u)
  | step_receive r data : r = REp0 \/ r = RRx -> usb_step u (st_end (region_write r 0 data) u)
  | step_isr e : usb_step u (st_end (dcd_event_handler e) u).

Definition usb_reachable : usb -> Prop := rtc usb_step usb_start.

(** C25: in every reachable state of the USB stack, through any interleaving of
    interrupts, task runs, transmissions and initialisations, with any class drivers and
    application that keep the invariant themselves: every buffer and table has its
    size, the event queue holds at most 16 events, and the counter of pending SETUP
    packets is at most the number of SETUP packets in the queue. So a queue without
    a SETUP has counter 0, and the next SETUP is not skipped as superseded: the control
    endpoint cannot go deaf. *)
Theorem usb_reachable_inv u : usb_reachable u -> usb_inv u /\ (setups (u_queue u) = 0 -> u_queued_setup u = 0).
Proof.
  intros Hr. assert (usb_inv u) as Hu; [|split; [done|]; intros E; destruct Hu; lia].
  assert (usb_inv usb_start) as Hstart by (constructor; vm_compute; try split; congruence).
  revert Hstart. unfold usb_reachable in Hr. induction Hr as [|x y z Hs _ IH]; intros Hx; [done|]. apply IH.
  destruct Hs; [apply tud_rhport_init_inv|apply tud_deinit_inv|apply tud_task_inv|
    apply tud_network_xmit_inv|apply tud_network_link_state_inv|apply region_write_inv|
    apply dcd_event_handler_inv]; done.
Qed.

End stack.

(** ** An instance of the parameters *)

Definition demo_ram : Ram := fun _ => [0xDE; 0xAD; 0xBE; 0xEF].
Definition demo_app : NetApp := fun _ => st_ret true.
Definition demo_board : Board := [0xE6; 0x60; 0x58; 0x38; 0x83; 0x2C; 0x8B; 0x2F].
Definition demo_drivers : Drivers := @netd_drivers demo_ram demo_app.

Lemma demo_app_ok : @NetAppOk demo_app.
Proof. intros l. apply st_keeps_ret. Qed.
Lemma demo_drivers_ok : @DriversOk demo_drivers.
Proof. apply @netd_drivers_ok, demo_app_ok. Qed.

(** The invariant of a closed state. *)
Ltac inv_closed := constructor; vm_compute; try split; congruence.

(** After initialisation and a SETUP packet from the host. *)
Lemma usb_reachable_inv_witness :
  let u := st_end (@dcd_event_handler (EV_SETUP_RECEIVED (mk_request 0x80 6 0x100 0 64)))
             (st_end (@tud_rhport_init demo_drivers) usb_start) in
  usb_inv u /\ u_queued_setup u = 1.
Proof.
  intros u.
  assert (@usb_reachable demo_drivers demo_board u) as Hr.
  { eapply rtc_l; [apply step_init|]. eapply rtc_l; [apply step_isr|]. apply rtc_refl. }
  split; [exact (proj1 (@usb_reachable_inv demo_drivers demo_drivers_ok demo_board u Hr))|].
  vm_compute. reflexivity.
Defined.
