(* ===== verification/UsbdProps.v ===== *)
(** * UsbdProps: control transfers, SETUP handling and enumeration

    What the stack of [Usbd] shows the host: a control read delivers exactly the
    bytes asked for, in the packets the protocol wants; a control write stores
    exactly what the host sent; and the descriptors of this firmware configure the
    network driver. *)

From S2P Require Import Prelude UsbDev Rndis Netd UsbDesc Usbd UsbInv.

(** ** One transaction *)

Lemma land_clear_busy s : Z.land (Z.ldiff s 5) 1 = 0.
Proof.
  apply Z.bits_inj'. intros n Hn. rewrite Z.land_spec, Z.ldiff_spec, Z.bits_0.
  destruct (Z.eq_dec n 0) as [->|Hn0]; [by rewrite andb_false_r|].
  replace (Z.testbit 1 n) with false; [by rewrite andb_false_r|].
  symmetry. change 1 with (2 ^ 0). apply Z.pow2_bits_false. lia.
Qed.

(** A transfer on an idle endpoint that the controller accepts. *)
Lemma usbd_edpt_xfer_ok ep buf n u :
  Z.land (ep_state u ep) TU_EDPT_STATE_BUSY = 0 -> u_refusals u = [] ->
  usbd_edpt_xfer ep buf n u =
  (true, u <| u_dev := (u_dev u) <| ep_status :=
             mem_set (ep_index ep) (Z.lor (ep_state u ep) TU_EDPT_STATE_BUSY) (ep_status (u_dev u)) |> |>
           <| u_calls := DcdXfer ep buf (if tu_edpt_dir ep =? TUSB_DIR_IN then ptr_read u buf n else []) n
                         :: u_calls u |>).
Proof.
  intros Hb Hr. unfold usbd_edpt_xfer, st_bind, st_get. cbn iota beta. rewrite Hb. cbn [Z.eqb negb].
  unfold mod_ep_state, mod_dev, st_mod, dcd_edpt_xfer. cbn iota beta. usb_simpl. rewrite Hr.
  unfold st_ret. destruct buf as [[[] off]|]; reflexivity.
Qed.

(** ** Control reads *)

Section control.
Context `{Drivers, Board}.

(** The controller completes the packet last given to the IN side of the control
    endpoint, until something else is pending: the packets the host reads. *)
Fixpoint host_read (fuel : nat) (u : usb) : list (list Z) * usb :=
  match fuel with
  | O => ([], u)
  | S fuel =>
      match u_calls u with
      | DcdXfer ep _ data len :: _ =>
          if ep =? TU_EP0_IN then
            let '(packets, u) := host_read fuel (st_end (handle_event (EV_XFER_COMPLETE TU_EP0_IN 0 len)) u) in
            (data :: packets, u)
          else ([], u)
      | _ => ([], u)
      end
  end.

(** A control read in progress: [t] of [L] bytes of [B] have been sent. *)
Record in_xfer (r : control_request) (cb : ctrl_cb) (reg : region) (B : list Z) (L t : Z) (u : usb)
    : Prop := {
  ix_req : cx_request (ctrl_xfer (u_dev u)) = r;
  ix_cb : cx_complete_cb (ctrl_xfer (u_dev u)) = cb;
  ix_len : cx_data_len (ctrl_xfer (u_dev u)) = L;
  ix_total : cx_total_xferred (ctrl_xfer (u_dev u)) = t;
  ix_buf : cx_buffer (ctrl_xfer (u_dev u)) = Some (reg, t);
  ix_bytes : region_bytes u reg = B;
  ix_in : Z.land (ep_state u TU_EP0_IN) TU_EDPT_STATE_BUSY = 0;
  ix_out : Z.land (ep_state u TU_EP0_OUT) TU_EDPT_STATE_BUSY = 0;
  ix_refusals : u_refusals u = [];
  ix_status : zlen (ep_status (u_dev u)) = 32;
  ix_ep0 : zlen (u_ctrl_buf u) = 64 }.

Lemma region_bytes_frame u u' reg :
  reg <> REp0 -> u_desc_str u' = u_desc_str u -> u_itf u' = u_itf u -> u_epbuf u' = u_epbuf u ->
  region_bytes u' reg = region_bytes u reg.
Proof. intros Hr E1 E2 E3. destruct reg; cbn [region_bytes]; congruence. Qed.

Context (r : control_request) (cb : ctrl_cb) (reg : region) (B : list Z) (L : Z).
Context (Hdir : req_direction r = TUSB_DIR_IN) (Hreg : reg <> REp0)
        (HL : 0 <= L <= zlen B) (HLw : L <= wLength r < 65536) (Hw : 0 < wLength r)
        (Hcb : forall u, complete_cb cb STAGE_DATA r u = (true, u)).

(** The packet sent from [t]: its length, and the state with it pending. *)
Definition xact_len (t : Z) : Z := Z.min (L - t) 64.

Lemma data_stage_in t u :
  in_xfer r cb reg B L t u -> 0 <= t <= L ->
  exists u', data_stage_xact u = (true, u') /\
    u_calls u' = DcdXfer TU_EP0_IN (if negb (xact_len t =? 0) then Some (REp0, 0) else None)
                   (mem_read t (xact_len t) B) (xact_len t) :: u_calls u /\
    cx_request (ctrl_xfer (u_dev u')) = r /\ cx_complete_cb (ctrl_xfer (u_dev u')) = cb /\
    cx_data_len (ctrl_xfer (u_dev u')) = L /\ cx_total_xferred (ctrl_xfer (u_dev u')) = t /\
    cx_buffer (ctrl_xfer (u_dev u')) = Some (reg, t) /\ region_bytes u' reg = B /\
    Z.land (ep_state u' TU_EP0_OUT) TU_EDPT_STATE_BUSY = 0 /\ u_refusals u' = [] /\
    zlen (ep_status (u_dev u')) = 32 /\ zlen (u_ctrl_buf u') = 64.
Proof.
  intros [Er Ecb El Et Eb EB Ei Eo Eref Es Ee] Ht.
  unfold data_stage_xact. unfold st_bind at 1, st_get at 1. cbn iota beta.
  rewrite Er, El, Et, Eb, Hdir. cbn [TUSB_DIR_IN Z.eqb Pos.eqb not_ep0_buf].
  rewrite u16_small by (unfold is_u16; lia). change CFG_TUD_ENDPOINT0_BUFSIZE with 64.
  fold (xact_len t). set (k := xact_len t).
  assert (0 <= k <= 64 /\ k <= L - t) as Hk by (unfold k, xact_len; lia).
  assert (not_ep0_buf (Some (reg, t)) = true) as Hne by (by destruct reg).
  destruct (Z.eqb_spec k 0) as [E0|E0].
  - cbn [negb andb]. rewrite usbd_edpt_xfer_ok by assumption.
    eexists. split; [reflexivity|]. usb_simpl. rewrite E0. cbn [negb Z.eqb].
    split_and!; try assumption; try done.
    + unfold ep_state. usb_simpl. rewrite mem_get_set by (rewrite ?Es; done). exact Eo.
    + by rewrite mem_set_zlen.
  - cbn [negb andb]. replace (match reg with REp0 => negb (t =? 0) | _ => true end) with true
      by (by destruct reg).
    set (u1 := u <| u_ctrl_buf := mem_write 0 (mem_read t k (region_bytes u reg)) (u_ctrl_buf u) |>).
    unfold st_bind at 1. cbn [region_write]. unfold st_mod at 1. cbn iota beta.
    change (ptr_read u (Some (reg, t)) k) with (mem_read t k (region_bytes u reg)). fold u1.
    rewrite usbd_edpt_xfer_ok by assumption.
    eexists. split; [reflexivity|]. usb_simpl. cbn [tu_edpt_dir TU_EP0_IN].
    assert (ptr_read u1 (Some (REp0, 0)) k = mem_read t k B) as Ek.
    { cbn [ptr_read region_bytes]. unfold u1. usb_simpl. rewrite EB.
      assert (zlen (mem_read t k B) = k) as Hz by (apply mem_read_zlen; lia).
      rewrite <- Hz at 1. apply mem_read_write; lia. }
    change (tu_edpt_dir TU_EP0_IN =? TUSB_DIR_IN) with true. cbn iota. rewrite Ek.
    split_and!; try assumption; try done.
    + by rewrite <- EB; apply region_bytes_frame.
    + unfold ep_state. usb_simpl. rewrite mem_get_set by (unfold u1; usb_simpl; rewrite ?Es; done).
      exact Eo.
    + by rewrite mem_set_zlen.
    + unfold u1. usb_simpl. by rewrite mem_write_zlen.
Qed.

(** The callback for a data packet that was read. *)
Lemma control_xfer_cb_in t k v :
  cx_request (ctrl_xfer (u_dev v)) = r -> cx_complete_cb (ctrl_xfer (u_dev v)) = cb ->
  cx_total_xferred (ctrl_xfer (u_dev v)) = t -> cx_buffer (ctrl_xfer (u_dev v)) = Some (reg, t) ->
  0 <= t -> 0 <= k <= 64 -> t + k < 65536 ->
  usbd_control_xfer_cb TU_EP0_IN k v =
  (if (wLength r =? t + k) || (k <? 64) then status_stage_xact TU_EP0_OUT else data_stage_xact)
    (v <| u_dev := (u_dev v) <| ctrl_xfer := (ctrl_xfer (u_dev v))
              <| cx_total_xferred := t + k |> <| cx_buffer := Some (reg, t + k) |> |> |>).
Proof.
  intros Er Ecb Et Eb Ht Hk Hs. unfold usbd_control_xfer_cb.
  unfold st_bind at 1, st_get at 1. cbn iota beta. rewrite Er, Ecb, Eb, Hdir.
  assert (status_stage_ep r = TU_EP0_OUT) as ->.
  { unfold status_stage_ep. rewrite Hdir. destruct (Z.eqb_spec (wLength r) 0); [lia|done]. }
  change (TU_EP0_IN =? TU_EP0_OUT) with false. cbn [TUSB_DIR_IN TUSB_DIR_OUT Z.eqb Pos.eqb andb].
  unfold st_when, mod_ctrl, mod_dev, st_bind at 1 2 3, st_mod, st_get, st_ret at 1. cbn iota beta. usb_simpl.
  rewrite Et, Eb, (u16_small k) by (unfold is_u16; lia). rewrite u16_small by (unfold is_u16; lia).
  cbn [ptr_add]. change CFG_TUD_ENDPOINT0_BUFSIZE with 64.
  destruct (wLength r =? t + k), (k <? 64); cbn [orb]; try reflexivity;
    unfold st_bind at 1; rewrite Hcb; reflexivity.
Qed.

(** The completion of that packet: the status stage, or the next packet. *)
Lemma data_stage_in_complete t u :
  in_xfer r cb reg B L t u -> 0 <= t <= L ->
  let k := xact_len t in
  let u1 := st_end data_stage_xact u in
  let u2 := st_end (handle_event (EV_XFER_COMPLETE TU_EP0_IN 0 k)) u1 in
  (wLength r = t + k \/ k < 64 -> exists calls, u_calls u2 = DcdXfer TU_EP0_OUT None [] 0 :: calls) /\
  (wLength r <> t + k -> k = 64 ->
    exists u', in_xfer r cb reg B L (t + k) u' /\ u2 = st_end data_stage_xact u').
Proof.
  intros Hx Ht k u1 u2.
  destruct (data_stage_in t u Hx Ht) as (u1' & E1 & Hc & Er & Ecb & El & Et & Eb & EB & Eo & Eref & Es & Ee).
  assert (u1 = u1') as -> by (unfold u1, st_end; by rewrite E1). clear E1. fold k in Hc.
  assert (0 <= k <= 64 /\ k <= L - t) as Hk by (unfold k, xact_len; lia).
  set (v := u1' <| u_dev := (u_dev u1') <| ep_status :=
              mem_set 1 (Z.ldiff (mem_get (ep_status (u_dev u1')) 1) 5) (ep_status (u_dev u1')) |> |>) in *.
  set (w := v <| u_dev := (u_dev v) <| ctrl_xfer := (ctrl_xfer (u_dev v))
              <| cx_total_xferred := t + k |> <| cx_buffer := Some (reg, t + k) |> |> |>).
  assert (in_xfer r cb reg B L (t + k) w) as Hw'.
  { constructor; unfold w, v; usb_simpl; try assumption; try done.
    - unfold ep_state. usb_simpl. change (ep_index TU_EP0_IN) with 1.
      rewrite mem_get_set by (rewrite ?Es; lia). apply land_clear_busy.
    - unfold ep_state. usb_simpl. change (ep_index TU_EP0_OUT) with 0.
      rewrite mem_get_set by (rewrite ?Es; lia). exact Eo.
    - by rewrite mem_set_zlen. }
  assert (u2 = st_end (if (wLength r =? t + k) || (k <? 64) then status_stage_xact TU_EP0_OUT
                       else data_stage_xact) w) as ->.
  { unfold u2, st_end. cbn [handle_event]. unfold mod_ep_state, mod_dev, st_bind at 1, st_mod at 1.
    cbn iota beta. change (ep_index TU_EP0_IN) with 1.
    change (Z.lor TU_EDPT_STATE_BUSY TU_EDPT_STATE_CLAIMED) with 5. fold v.
    change (tu_edpt_number TU_EP0_IN =? 0) with true. cbn iota.
    unfold st_bind at 1. rewrite (control_xfer_cb_in t k) by (first [assumption | lia]). fold w.
    destruct ((wLength r =? t + k) || (k <? 64)); cbn iota;
      [by destruct (status_stage_xact TU_EP0_OUT w)|by destruct (data_stage_xact w)]. }
  split.
  - intros Hd. replace ((wLength r =? t + k) || (k <? 64)) with true by lia.
    unfold status_stage_xact, st_end. destruct Hw'. rewrite usbd_edpt_xfer_ok by assumption.
    eexists. reflexivity.
  - intros Hne Hk64. replace ((wLength r =? t + k) || (k <? 64)) with false by lia. eauto.
Qed.

(** The packets of a data stage of [n] bytes, as the protocol wants them: full ones,
    then one that is short or that reaches the length asked for. *)
Definition data_stage_packets (data : list Z) (packets : list (list Z)) : Prop :=
  mjoin packets = data /\
  exists full last, packets = full ++ [last] /\ Forall (fun p => zlen p = 64) full /\
    (zlen last < 64 \/ zlen last = 64 /\ zlen data = wLength r).

Lemma host_read_data fuel t u :
  in_xfer r cb reg B L t u -> 0 <= t <= L -> L - t < 64 * (Z.of_nat fuel - 1) ->
  exists packets u2 calls,
    host_read fuel (st_end data_stage_xact u) = (packets, u2) /\
    u_calls u2 = DcdXfer TU_EP0_OUT None [] 0 :: calls /\
    mjoin packets = mem_read t (L - t) B /\
    exists full last, packets = full ++ [last] /\ Forall (fun p => zlen p = 64) full /\
      (zlen last < 64 \/ zlen last = 64 /\ L = wLength r).
Proof.
  revert t u. induction fuel as [|fuel IH]; intros t u Hx Ht Hf; [lia|].
  destruct (data_stage_in t u Hx Ht) as (u1 & E1 & Hc & _).
  pose proof (data_stage_in_complete t u Hx Ht) as HC. cbv zeta in HC.
  assert (st_end data_stage_xact u = u1) as Eu by (unfold st_end; by rewrite E1). rewrite Eu in HC |- *.
  set (k := xact_len t) in *. assert (k = Z.min (L - t) 64) as Hk by done.
  assert (zlen (mem_read t k B) = k) as Hz by (apply mem_read_zlen; lia).
  cbn [host_read]. rewrite Hc. change (TU_EP0_IN =? TU_EP0_IN) with true. cbn iota.
  destruct HC as [Hdone Hnext].
  destruct (decide (wLength r = t + k \/ k < 64)) as [Hd|Hd].
  - destruct (Hdone Hd) as [calls Hcalls].
    exists [mem_read t k B], (st_end (handle_event (EV_XFER_COMPLETE TU_EP0_IN 0 k)) u1), calls.
    assert (k = L - t) as HkL by lia. rewrite <- HkL.
    split_and!; [|done|cbn; by rewrite app_nil_r|].
    + destruct fuel as [|fuel]; cbn [host_read]; [done|]. by rewrite Hcalls.
    + exists [], (mem_read t k B). split_and!; [done|constructor|]. rewrite Hz. lia.
  - destruct Hnext as (u' & Hx' & ->); [lia|lia|].
    destruct (IH (t + k) u' Hx') as (ps & u2 & calls & -> & Hcalls & Hj & full & last & -> & Hfull & Hlast);
      [lia|lia|].
    exists (mem_read t k B :: full ++ [last]), u2, calls. split_and!; [done|done| |].
    + change (mjoin (mem_read t k B :: full ++ [last])) with (mem_read t k B ++ mjoin (full ++ [last])).
      rewrite Hj. replace (L - t) with (k + (L - (t + k))) by lia. rewrite mem_read_split by lia. done.
    + exists (mem_read t k B :: full), last. split_and!; [done| |done]. constructor; [lia|done].
Qed.

End control.

(** C26: a control read delivers exactly what was asked for. For any request with an IN
    data stage, [tud_control_xfer] from a buffer of [n] bytes, followed by the host
    reading packet after packet, transfers the first [min n wLength] bytes of the
    buffer, in order, in packets of 64 bytes except the last, which is shorter unless
    the full [wLength] was reached (so a reply shorter than asked for that fills its
    packets exactly is ended by an empty packet), and leaves the status stage pending
    on the OUT side. The callback of the request must accept the data stage, and
    the controller the transfers. One unit of fuel is one packet: the transfer ends. *)
Theorem control_read_delivers `{Drivers, Board} r cb reg n u :
  req_direction r = TUSB_DIR_IN -> reg <> REp0 -> 0 < wLength r < 65536 ->
  0 <= n <= zlen (region_bytes u reg) ->
  (forall v, complete_cb cb STAGE_DATA r v = (true, v)) ->
  cx_request (ctrl_xfer (u_dev u)) = r -> cx_complete_cb (ctrl_xfer (u_dev u)) = cb ->
  cx_total_xferred (ctrl_xfer (u_dev u)) = 0 ->
  Z.land (ep_state u TU_EP0_IN) TU_EDPT_STATE_BUSY = 0 ->
  Z.land (ep_state u TU_EP0_OUT) TU_EDPT_STATE_BUSY = 0 ->
  u_refusals u = [] -> usb_inv u ->
  let L := Z.min n (wLength r) in
  forall fuel, L < 64 * (Z.of_nat fuel - 1) ->
  exists packets u2 calls,
    host_read fuel (st_end (tud_control_xfer (Some (reg, 0)) n) u) = (packets, u2) /\
    data_stage_packets r (mem_read 0 L (region_bytes u reg)) packets /\
    u_calls u2 = DcdXfer TU_EP0_OUT None [] 0 :: calls.
Proof.
  intros Hdir Hreg Hw Hn Hcb Er Ecb Et Ei Eo Eref Hu L fuel Hf.
  set (v := u <| u_dev := (u_dev u) <| ctrl_xfer := (ctrl_xfer (u_dev u))
              <| cx_buffer := Some (reg, 0) |> <| cx_data_len := L |> |> |>).
  assert (in_xfer r cb reg (region_bytes u reg) L 0 v) as Hx.
  { constructor; unfold v; usb_simpl; try assumption; try done; apply Hu. }
  assert (st_end (tud_control_xfer (Some (reg, 0)) n) u = st_end data_stage_xact v) as ->.
  { unfold st_end, tud_control_xfer, mod_ctrl, mod_dev, st_bind, st_get, st_mod. cbn iota beta.
    rewrite Er. fold L. fold v. destruct (Z.ltb_spec 0 (wLength r)); [|lia].
    rewrite (bool_decide_eq_false_2 (Some (reg, 0) = None)) by done. by rewrite andb_false_r. }
  destruct (host_read_data r cb reg (region_bytes u reg) L Hdir Hreg ltac:(lia) ltac:(lia) ltac:(lia) Hcb
    fuel 0 v Hx) as (ps & u2 & calls & Eh & Hc & Hj & full & last & Hps & Hfull & Hlast); [lia|lia|].
  exists ps, u2, calls. split_and!; [done| |done]. rewrite Z.sub_0_r in Hj.
  split; [done|]. exists full, last. split_and!; [done|done|].
  rewrite mem_read_zlen by lia. done.
Qed.

(** ** Control writes *)

Section control_write.
Context `{Drivers, Board}.

(** The host sends [data] in packets of 64 bytes: the controller puts each into the
    buffer of the control endpoint and reports it. *)
Fixpoint host_write (fuel : nat) (data : list Z) (u : usb) : usb :=
  match fuel with
  | O => u
  | S fuel =>
      let p := take 64 data in
      let u := st_end (region_write REp0 0 p) u in
      let u := st_end (handle_event (EV_XFER_COMPLETE TU_EP0_OUT 0 (zlen p))) u in
      if bool_decide (drop 64 data = []) then u else host_write fuel (drop 64 data) u
  end.

Context (r : control_request) (cb : ctrl_cb).
Context (Hdir : req_direction r = TUSB_DIR_OUT) (Hw : 0 < wLength r <= NETD_CONTROL_SIZE).

(** What follows the data stage: the class driver, then the status stage. *)
Definition after_data_stage : ST usb bool :=
  let! is_ok := complete_cb cb STAGE_DATA r in
  if is_ok then status_stage_xact TU_EP0_IN else stall_ep0 ;;; st_ret true.

(** A control write into the driver's control buffer, of which [t] bytes are done. *)
Record out_xfer (t : Z) (u : usb) : Prop := {
  ox_req : cx_request (ctrl_xfer (u_dev u)) = r;
  ox_cb : cx_complete_cb (ctrl_xfer (u_dev u)) = cb;
  ox_len : cx_data_len (ctrl_xfer (u_dev u)) = wLength r;
  ox_total : cx_total_xferred (ctrl_xfer (u_dev u)) = t;
  ox_buf : cx_buffer (ctrl_xfer (u_dev u)) = Some (RCtrl, t);
  ox_refusals : u_refusals u = [];
  ox_status : zlen (ep_status (u_dev u)) = 32;
  ox_ep0 : zlen (u_ctrl_buf u) = 64;
  ox_ctrl : zlen (nb_ctrl (u_epbuf u)) = NETD_CONTROL_SIZE }.

(** The state after [p] was stored. *)
Definition stored (t : Z) (p : list Z) (v : usb) : usb :=
  v <| u_epbuf := (u_epbuf v) <| nb_ctrl := mem_write t p (nb_ctrl (u_epbuf v)) |> |>
    <| u_dev := (u_dev v) <| ctrl_xfer := (ctrl_xfer (u_dev v))
         <| cx_total_xferred := t + zlen p |> <| cx_buffer := Some (RCtrl, t + zlen p) |> |> |>.

Lemma control_xfer_cb_out t p v :
  out_xfer t v -> 0 <= t -> zlen p <= 64 -> t + zlen p <= wLength r ->
  mem_read 0 (zlen p) (u_ctrl_buf v) = p ->
  usbd_control_xfer_cb TU_EP0_OUT (zlen p) v =
  (if (wLength r =? t + zlen p) || (zlen p <? 64) then after_data_stage else data_stage_xact)
    (stored t p v).
Proof.
  intros [Er Ecb El Et Eb Eref Es Ee Ec] Ht Hp Hl Hm. pose proof (zlen_nonneg p) as Hp0.
  unfold NETD_CONTROL_SIZE in Hw. unfold usbd_control_xfer_cb.
  unfold st_bind at 1, st_get at 1. cbn iota beta. rewrite Er, Ecb, Eb, El, Et, Hdir.
  assert (status_stage_ep r = TU_EP0_IN) as ->.
  { unfold status_stage_ep. rewrite Hdir. by rewrite andb_false_r. }
  change (TU_EP0_OUT =? TU_EP0_IN) with false. cbn [TUSB_DIR_OUT Z.eqb].
  rewrite (bool_decide_eq_false_2 (Some (RCtrl, t) = None)) by done. cbn [andb not_ep0_buf].
  rewrite u32_small by (unfold is_u32; lia). rewrite Z.min_l by lia. rewrite Hm.
  cbn [ptr_write region_write st_when]. unfold mod_epbuf, mod_ctrl, mod_dev, st_mod, st_bind at 1 2 3, st_get.
  cbn iota beta. usb_simpl. rewrite Et, Eb, (u16_small (zlen p)) by (unfold is_u16; lia).
  rewrite u16_small by (unfold is_u16; lia). cbn [ptr_add]. change CFG_TUD_ENDPOINT0_BUFSIZE with 64.
  reflexivity.
Qed.

Lemma data_stage_out t v :
  out_xfer t v -> 0 <= t <= wLength r -> Z.land (ep_state v TU_EP0_OUT) TU_EDPT_STATE_BUSY = 0 ->
  out_xfer t (st_end data_stage_xact v) /\ u_epbuf (st_end data_stage_xact v) = u_epbuf v.
Proof.
  intros [Er Ecb El Et Eb Eref Es Ee Ec] Ht Hb. unfold data_stage_xact, st_end.
  unfold st_bind, st_get. cbn iota beta. rewrite Er, Hdir.
  change (TUSB_DIR_OUT =? TUSB_DIR_IN) with false. cbn iota.
  rewrite usbd_edpt_xfer_ok by assumption. usb_simpl.
  split; [|done]. constructor; usb_simpl; rewrite ?mem_set_zlen; assumption.
Qed.

(** One packet. *)
Lemma host_write_packet t p u :
  out_xfer t u -> 0 <= t -> zlen p <= 64 -> t + zlen p <= wLength r ->
  let u1 := st_end (handle_event (EV_XFER_COMPLETE TU_EP0_OUT 0 (zlen p)))
              (st_end (region_write REp0 0 p) u) in
  exists v, out_xfer (t + zlen p) v /\
    Z.land (ep_state v TU_EP0_OUT) TU_EDPT_STATE_BUSY = 0 /\
    nb_ctrl (u_epbuf v) = mem_write t p (nb_ctrl (u_epbuf u)) /\
    u1 = st_end (if (wLength r =? t + zlen p) || (zlen p <? 64) then after_data_stage
                 else data_stage_xact) v.
Proof.
  intros Hx Ht Hp Hl u1.
  set (v1 := u <| u_ctrl_buf := mem_write 0 p (u_ctrl_buf u) |>).
  set (v2 := v1 <| u_dev := (u_dev v1) <| ep_status :=
              mem_set 0 (Z.ldiff (mem_get (ep_status (u_dev v1)) 0) 5) (ep_status (u_dev v1)) |> |>).
  pose proof Hx as [Er Ecb El Et Eb Eref Es Ee Ec].
  assert (out_xfer t v2) as Hx2.
  { constructor; unfold v2, v1; usb_simpl; rewrite ?mem_set_zlen, ?mem_write_zlen; assumption. }
  exists (stored t p v2). split_and!.
  - constructor; unfold stored, v2, v1; usb_simpl; rewrite ?mem_set_zlen, ?mem_write_zlen; done.
  - unfold ep_state, stored, v2, v1. usb_simpl. change (ep_index TU_EP0_OUT) with 0.
    rewrite mem_get_set by lia. apply land_clear_busy.
  - done.
  - unfold u1. change (st_end (region_write REp0 0 p) u) with v1. unfold st_end. cbn [handle_event].
    unfold mod_ep_state, mod_dev, st_bind at 1, st_mod at 1. cbn iota beta.
    change (ep_index TU_EP0_OUT) with 0. change (Z.lor TU_EDPT_STATE_BUSY TU_EDPT_STATE_CLAIMED) with 5.
    fold v2. change (tu_edpt_number TU_EP0_OUT =? 0) with true. cbn iota.
    unfold st_bind at 1. rewrite (control_xfer_cb_out t p v2 Hx2) by (try assumption;
      unfold v2, v1; usb_simpl; apply mem_read_write; lia).
    destruct ((wLength r =? t + zlen p) || (zlen p <? 64)); cbn iota;
      [by destruct (after_data_stage (stored t p v2))|by destruct (data_stage_xact (stored t p v2))].
Qed.

Lemma host_write_all fuel t data u :
  out_xfer t u -> 0 <= t -> t + zlen data = wLength r -> data <> [] -> zlen data <= 64 * Z.of_nat fuel ->
  exists v, out_xfer (wLength r) v /\
    nb_ctrl (u_epbuf v) = mem_write t data (nb_ctrl (u_epbuf u)) /\
    host_write fuel data u = st_end after_data_stage v.
Proof.
  revert t data u. induction fuel as [|fuel IH]; intros t data u Hx Ht Hl Hne Hf.
  { destruct data; [done|]. rewrite zlen_cons in Hf. pose proof (zlen_nonneg data). lia. }
  assert (zlen (take 64 data) = Z.min (zlen data) 64) as Hz.
  { unfold zlen. rewrite length_take. lia. }
  cbn [host_write]. destruct (decide (zlen data <= 64)) as [Hs|Hs].
  - assert (take 64 data = data) as Et by (apply take_ge; unfold zlen in Hs; lia).
    assert (drop 64 data = []) as Ed by (apply drop_ge; unfold zlen in Hs; lia).
    rewrite Et, Ed. destruct (host_write_packet t data u Hx Ht Hs) as (v & Hv & _ & Hc & E); [lia|].
    exists v. rewrite Hl in *. split_and!; [done|done|]. rewrite bool_decide_eq_true_2 by done.
    rewrite E. by rewrite Z.eqb_refl.
  - destruct (host_write_packet t (take 64 data) u Hx Ht) as (v & Hv & Hb & Hc & E); [lia|lia|].
    assert (zlen (take 64 data) = 64) as Hz' by lia. rewrite Hz' in *.
    replace ((wLength r =? t + 64) || (64 <? 64)) with false in E by lia.
    destruct (data_stage_out (t + 64) v Hv) as [Hv' He]; [lia|done|].
    assert (zlen (drop 64 data) = zlen data - 64) as Hd by (unfold zlen in *; rewrite length_drop; lia).
    rewrite E. rewrite bool_decide_eq_false_2
      by (intros E'; rewrite E' in Hd; change (zlen (@nil Z)) with 0 in Hd; lia).
    destruct (IH (t + 64) (drop 64 data) _ Hv') as (v2 & Hv2 & Hc2 & E2); [lia|lia| |lia|].
    { intros E'. rewrite E' in Hd. change (zlen (@nil Z)) with 0 in Hd. lia. }
    exists v2. split_and!; [done| |done].
    rewrite Hc2, He, Hc. rewrite <- Hz' at 1. rewrite mem_write_split.
    + by rewrite take_drop.
    + done.
    + pose proof (ox_ctrl _ _ Hx). unfold NETD_CONTROL_SIZE in *. lia.
Qed.

End control_write.

(** A control write into the driver's 120-byte control buffer stores exactly what
    the host sent. When a request with an OUT data stage of at most 120 bytes is
    accepted with [tud_control_xfer] on that buffer, and the host sends [wLength] bytes
    in packets of 64, then when the class driver's callback runs the buffer starts with
    these bytes and is unchanged after them; the callback's answer decides between the
    status stage and a stall. *)
Theorem control_write_stores `{Drivers, Board} r cb data u :
  req_direction r = TUSB_DIR_OUT -> 0 < wLength r <= NETD_CONTROL_SIZE -> zlen data = wLength r ->
  cx_request (ctrl_xfer (u_dev u)) = r -> cx_complete_cb (ctrl_xfer (u_dev u)) = cb ->
  cx_total_xferred (ctrl_xfer (u_dev u)) = 0 ->
  Z.land (ep_state u TU_EP0_OUT) TU_EDPT_STATE_BUSY = 0 ->
  u_refusals u = [] -> usb_inv u ->
  exists v,
    host_write 2 data (st_end (tud_control_xfer (Some (RCtrl, 0)) NETD_CONTROL_SIZE) u) =
      st_end (after_data_stage r cb) v /\
    nb_ctrl (u_epbuf v) = data ++ drop (length data) (nb_ctrl (u_epbuf u)).
Proof.
  intros Hdir Hw Hd Er Ecb Et Eo Eref Hu. pose proof Hu as [_ _ Hcb _ _ _ Hctl _ _ _ Hst].
  unfold NETD_CONTROL_SIZE in *.
  set (v0 := u <| u_dev := (u_dev u) <| ctrl_xfer := (ctrl_xfer (u_dev u))
              <| cx_buffer := Some (RCtrl, 0) |> <| cx_data_len := wLength r |> |> |>).
  assert (out_xfer r cb 0 v0) as Hx by (constructor; unfold v0; usb_simpl; done).
  assert (st_end (tud_control_xfer (Some (RCtrl, 0)) 120) u = st_end data_stage_xact v0) as ->.
  { unfold st_end, tud_control_xfer, mod_ctrl, mod_dev, st_bind, st_get, st_mod. cbn iota beta.
    rewrite Er. replace (Z.min 120 (wLength r)) with (wLength r) by lia. fold v0.
    destruct (Z.ltb_spec 0 (wLength r)); [|lia].
    rewrite (bool_decide_eq_false_2 (Some (RCtrl, 0) = None)) by done. by rewrite andb_false_r. }
  destruct (data_stage_out r cb Hdir 0 v0 Hx) as [Hx' He]; [lia|exact Eo|].
  destruct (host_write_all r cb Hdir Hw 2 0 data _ Hx') as (v & _ & Hv & Eh); [lia|lia| |lia|].
  { intros ->. change (zlen (@nil Z)) with 0 in Hd. lia. }
  exists v. split; [done|]. rewrite Hv, He. change (nb_ctrl (u_epbuf v0)) with (nb_ctrl (u_epbuf u)).
  set (B := nb_ctrl (u_epbuf u)) in *. unfold zlen in Hd, Hctl.
  rewrite <- (take_drop (length data) B) at 1.
  apply (mem_write_mid [] data); [done|]. unfold zlen. rewrite length_take. lia.
Qed.

(** ** Enumeration *)

Section enumeration.
Context `{Drivers, Board}.

(** The task handling the end of a bus reset, and a SETUP packet that is alone. *)
Definition after_reset (u : usb) : usb := st_end (handle_event (EV_BUS_RESET_END 0)) u.
Definition setup_packet (r : control_request) (u : usb) : usb :=
  st_end (handle_event (EV_SETUP_RECEIVED r)) (u <| u_queued_setup := 1 |>).

End enumeration.

Definition SET_CONFIGURATION (cfg : Z) : control_request := mk_request 0x00 9 cfg 0 0.
Definition SET_INTERFACE (itf alt : Z) : control_request := mk_request 0x01 11 alt itf 0.
Definition GET_CONFIGURATION (dir : Z) : control_request := mk_request dir 8 0 0 1.
Definition GET_INTERFACE (dir itf : Z) : control_request := mk_request (dir + 1) 10 0 itf 1.

(** The descriptors of this firmware configure the network driver. After a bus
    reset in any state, SET_CONFIGURATION 1 and SET_INTERFACE 1 bring up the ECM
    interface, and SET_CONFIGURATION 2 the RNDIS one: the driver takes both interfaces
    and the three endpoints 0x81, 0x02 and 0x82 (and no other entry of the tables), opens
    them with their sizes, can transmit, has the 1602-byte receive transfer pending on
    0x02, and the requests are acknowledged. *)
Theorem enumeration `{Ram, NetApp, Board} u :
  u_refusals u = [] ->
  let ecm := setup_packet (SET_INTERFACE 1 1) (setup_packet (SET_CONFIGURATION 1) (after_reset u)) in
  let rndis := setup_packet (SET_CONFIGURATION 2) (after_reset u) in
  (cfg_num (u_dev ecm) = 1 /\ cfg_num (u_dev rndis) = 2) /\
  u_itf ecm = mk_interface 0 1 0x82 0x02 64 0x81 true (Some (drop 74 ecm_fs_configuration)) /\
  u_itf rndis = mk_interface 0 0 0x82 0x02 64 0x81 false None /\
  (forall v, v = ecm \/ v = rndis ->
    tud_ready v = true /\ u_can_xmit v = true /\ u_blink v = BLINK_MOUNTED /\
    itf2drv (u_dev v) = [0; 0] ++ replicate 14 255 /\
    ep2drv (u_dev v) = [255; 255; 255; 0; 0; 0] ++ replicate 26 255) /\
  u_calls ecm =
    [DcdXfer TU_EP0_IN None [] 0; DcdXfer 0x02 (Some (RRx, 0)) [] NETD_PACKET_SIZE;
     DcdOpen 0x02 64; DcdOpen 0x82 64; DcdXfer TU_EP0_IN None [] 0; DcdOpen 0x81 64] ++ u_calls u /\
  u_calls rndis =
    [DcdXfer TU_EP0_IN None [] 0; DcdXfer 0x02 (Some (RRx, 0)) [] NETD_PACKET_SIZE;
     DcdOpen 0x02 64; DcdOpen 0x82 64; DcdOpen 0x81 8] ++ u_calls u.
Proof.
  intros Hr. destruct u; cbn in Hr; subst. cbv zeta.
  split_and!; try (vm_compute; reflexivity).
  intros v [-> | ->]; vm_compute; auto.
Qed.

(** A request to read the configuration or the alternate setting, sent with the
    direction bit of a write, makes the stack write what the host sends. GET_STATUS is
    guarded against this (it stalls); GET_CONFIGURATION is not: the host's byte is
    stored through the address of a local variable of a function that has returned; and
    GET_INTERFACE stores it in the driver's alternate setting. *)
Theorem misdirected_get_writes `{Ram, NetApp, Board} u b rest :
  u_refusals u = [] ->
  let out v := st_end (handle_event (EV_XFER_COMPLETE TU_EP0_OUT 0 1)) (v <| u_ctrl_buf := b :: rest |>) in
  let configured := setup_packet (SET_INTERFACE 1 1) (setup_packet (SET_CONFIGURATION 1) (after_reset u)) in
  (exists calls, u_calls (out (setup_packet (GET_CONFIGURATION 0x00) configured)) =
     DcdXfer TU_EP0_IN None [] 0 :: StackWrite [b] :: calls) /\
  itf_data_alt (u_itf (out (setup_packet (GET_INTERFACE 0x00 1) configured))) = b /\
  u_calls (setup_packet (mk_request 0x00 TUSB_REQ_GET_STATUS 0 0 2) configured) =
    DcdStall TU_EP0_IN :: DcdStall TU_EP0_OUT :: u_calls configured.
Proof.
  intros Hr. destruct u; cbn in Hr; subst. cbv zeta.
  split_and!; [eexists|..]; vm_compute; reflexivity.
Qed.

(** A SETUP packet that arrives after a bus reset but before the task has handled the
    reset is lost: the reset zeroes the counter of queued SETUP packets, and the
    task then drops the packet as already discarded. The state is the same as if the
    host had sent nothing, so nothing answers the request. *)
Theorem setup_after_reset_lost `{Ram, NetApp, Board} u sp r :
  u_inited u = true -> u_queue u = [] -> u_queued_setup u = 0 ->
  st_end tud_task (st_end (dcd_event_handler (EV_SETUP_RECEIVED r))
    (st_end (dcd_event_handler (EV_BUS_RESET_END sp)) u)) =
  st_end tud_task (st_end (dcd_event_handler (EV_BUS_RESET_END sp)) u).
Proof. intros Hi Hq Hs. destruct u; cbn in Hi, Hq, Hs; subst. reflexivity. Qed.

(** A frame sent between a re-enumeration and the selection of the data interface
    goes to the control endpoint. The bus reset clears the driver's endpoint addresses
    but not [can_xmit]; when it was set, then after the host has configured the ECM
    configuration again, and before it selects the alternate setting, the device is
    ready, the driver accepts a frame, and queues it on endpoint address 0, the OUT
    side of the control endpoint. *)
Theorem stale_can_xmit `{Ram, NetApp, Board} u frame :
  u_refusals u = [] -> u_can_xmit u = true ->
  let v := setup_packet (SET_CONFIGURATION 1) (after_reset u) in
  tud_ready v = true /\ tud_network_can_xmit v = true /\ ep_in (u_itf v) = 0 /\
  u_calls (st_end (tud_network_xmit frame) v) =
    DcdXfer TU_EP0_OUT (Some (RTx, 0)) [] (u16 (zlen frame)) :: u_calls v.
Proof.
  intros Hr Hc. destruct u; cbn in Hr, Hc; subst. cbv zeta. split_and!; try (vm_compute; reflexivity).
Qed.

(** ** Witnesses *)

(** A device that waits for its control endpoint, and one with ECM up. *)
Definition demo_reset : usb :=
  @after_reset demo_drivers demo_board (st_end (@tud_rhport_init demo_drivers) usb_start).
Definition demo_up : usb :=
  @setup_packet demo_drivers demo_board (SET_INTERFACE 1 1)
    (@setup_packet demo_drivers demo_board (SET_CONFIGURATION 1) demo_reset).

(** With a request in its control transfer. *)
Definition demo_with (r : control_request) (cb : ctrl_cb) (u : usb) : usb :=
  u <| u_dev := (u_dev u) <| ctrl_xfer := mk_control_xfer r None 0 0 cb |> |>.

(** GET_DESCRIPTOR for the 88-byte ECM configuration, 255 bytes asked for. *)
Lemma control_read_delivers_witness :
  let r := mk_request 0x80 6 0x200 0 255 in
  exists packets u2 calls,
    @host_read demo_drivers demo_board 4
      (st_end (tud_control_xfer (Some (RFlash ecm_fs_configuration, 0)) 88) (demo_with r CB_NONE demo_reset)) =
      (packets, u2) /\
    data_stage_packets r (mem_read 0 88 ecm_fs_configuration) packets /\
    u_calls u2 = DcdXfer TU_EP0_OUT None [] 0 :: calls.
Proof.
  intros r.
  refine (@control_read_delivers demo_drivers demo_board r CB_NONE (RFlash ecm_fs_configuration) 88
    (demo_with r CB_NONE demo_reset) _ _ _ _ _ _ _ _ _ _ _ _ 4%nat _);
    try (vm_compute; reflexivity); try (vm_compute; split; congruence).
  - discriminate.
  - inv_closed.
Defined.

(** A 28-byte RNDIS message. *)
Lemma control_write_stores_witness :
  let r := mk_request 0x21 0 0 0 28 in
  let data := le_bytes 4 4 ++ le_bytes 4 28 ++ le_bytes 4 7 ++ le_bytes 4 0x01010102 ++ zeros 12 in
  exists v,
    @host_write demo_drivers demo_board 2 data
      (st_end (tud_control_xfer (Some (RCtrl, 0)) NETD_CONTROL_SIZE) (demo_with r (CB_DRIVER 0) demo_reset)) =
      st_end (@after_data_stage demo_drivers r (CB_DRIVER 0)) v /\
    nb_ctrl (u_epbuf v) = data ++ zeros 92.
Proof.
  intros r data.
  refine (@control_write_stores demo_drivers demo_board r (CB_DRIVER 0) data
    (demo_with r (CB_DRIVER 0) demo_reset) _ _ _ _ _ _ _ _ _);
    try (vm_compute; reflexivity); try (vm_compute; split; congruence).
  inv_closed.
Defined.

Lemma enumeration_witness :
  u_refusals usb_start = [] /\
  u_itf (@setup_packet demo_drivers demo_board (SET_CONFIGURATION 2)
           (@after_reset demo_drivers demo_board usb_start)) =
    mk_interface 0 0 0x82 0x02 64 0x81 false None.
Proof.
  split; [reflexivity|].
  exact (proj1 (proj2 (proj2 (@enumeration demo_ram demo_app demo_board usb_start eq_refl)))).
Defined.

Lemma misdirected_get_writes_witness :
  u_refusals usb_start = [] /\
  itf_data_alt (u_itf (st_end (@handle_event demo_drivers demo_board (EV_XFER_COMPLETE TU_EP0_OUT 0 1))
    ((@setup_packet demo_drivers demo_board (GET_INTERFACE 0x00 1)
       (@setup_packet demo_drivers demo_board (SET_INTERFACE 1 1)
          (@setup_packet demo_drivers demo_board (SET_CONFIGURATION 1)
             (@after_reset demo_drivers demo_board usb_start)))) <| u_ctrl_buf := [99] |>))) = 99.
Proof.
  split; [reflexivity|].
  exact (proj1 (proj2 (@misdirected_get_writes demo_ram demo_app demo_board usb_start 99 [] eq_refl))).
Defined.

Lemma setup_after_reset_lost_witness :
  let u := st_end (@tud_rhport_init demo_drivers) usb_start in
  let r := mk_request 0x80 6 0x100 0 64 in
  u_inited u = true /\
  st_end (@tud_task demo_drivers demo_board) (st_end (dcd_event_handler (EV_SETUP_RECEIVED r))
    (st_end (dcd_event_handler (EV_BUS_RESET_END 0)) u)) =
  st_end (@tud_task demo_drivers demo_board) (st_end (dcd_event_handler (EV_BUS_RESET_END 0)) u).
Proof.
  intros u r. split; [reflexivity|].
  exact (@setup_after_reset_lost demo_ram demo_app demo_board u 0 r eq_refl eq_refl eq_refl).
Defined.

Lemma stale_can_xmit_witness :
  let v := @setup_packet demo_drivers demo_board (SET_CONFIGURATION 1)
             (@after_reset demo_drivers demo_board demo_up) in
  u_can_xmit demo_up = true /\
  u_calls (st_end (tud_network_xmit (zeros 60)) v) =
    DcdXfer TU_EP0_OUT (Some (RTx, 0)) [] 60 :: u_calls v.
Proof.
  intros v. split; [vm_compute; reflexivity|].
  exact (proj2 (proj2 (proj2 (@stale_can_xmit demo_ram demo_app demo_board demo_up (zeros 60)
    ltac:(vm_compute; reflexivity) ltac:(vm_compute; reflexivity))))).
Defined.
