(* ===== verification/NetdProps.v ===== *)
(** * NetdProps: what the network driver promises

    Frames go out and come in unchanged in both modes, whatever the host puts into a
    packet header stays inside the packet, a transmission owns the transmit buffer until
    its last packet is acknowledged, and RNDIS queries are answered with well-formed
    completions. *)

From S2P Require Import Prelude UsbDev Rndis Netd UsbDesc Usbd UsbInv UsbdProps.

(** ** Receiving *)

Lemma le_val_u32 l : Forall is_u8 l -> zlen l = 4 -> is_u32 (le_val l).
Proof.
  intros Hl Hz. destruct l as [|a [|b [|c [|d [|]]]]]; try (unfold zlen in Hz; cbn in Hz; lia).
  do 4 (apply Forall_cons in Hl as [? Hl]). unfold is_u8, is_u32 in *. cbn [le_val]. lia.
Qed.

Lemma mem_read_u8 off n l : Forall is_u8 l -> Forall is_u8 (mem_read off n l).
Proof. intros. by apply Forall_take, Forall_drop. Qed.

Lemma rx_field_range rx off : Forall is_u8 rx -> 0 <= rx_field rx off.
Proof.
  intros Hb. unfold rx_field. pose proof (mem_read_u8 off 4 rx Hb) as Hr. revert Hr.
  generalize (mem_read off 4 rx). induction 1 as [|b l Hb' Hl IH]; cbn [le_val]; [lia|].
  unfold is_u8 in Hb'. lia.
Qed.

(** A received packet cannot make the driver read outside it. Whatever bytes are in
    the receive buffer, the window handed to the application lies inside the [len]
    bytes received; in ECM mode it is all of them; in RNDIS mode it is either the
    window the header names (checked against the length without overflow, the header
    fields being any 32-bit values) or empty. *)
Theorem packet_window_bounds ecm rx len :
  Forall is_u8 rx -> 0 <= len ->
  let '(pnt, size) := packet_window ecm rx len in
  0 <= pnt /\ 0 <= size /\ pnt + size <= len /\
  (ecm = true -> (pnt, size) = (0, len)) /\
  (ecm = false -> size <> 0 ->
     rx_field rx 0 = REMOTE_NDIS_PACKET_MSG /\ pnt = 8 + rx_field rx 8 /\ size = rx_field rx 12).
Proof.
  intros Hb Hl. unfold packet_window, rndis_hdr. pose proof (rx_field_range rx 8 Hb).
  pose proof (rx_field_range rx 12 Hb). repeat case_if; bool_prop; split_and!; intros; try done; lia.
Qed.

(** ** Sending *)

(** The driver is up, on the endpoints of this firmware, and idle. *)
Record tx_idle `{Drivers, Board} (u : usb) : Prop := {
  ti_can : u_can_xmit u = true;
  ti_in : ep_in (u_itf u) = 0x82;
  ti_out : ep_out (u_itf u) = 0x02;
  ti_size : ep_size (u_itf u) = 64;
  ti_drv : mem_get (ep2drv (u_dev u)) (ep_index 0x82) = 0;
  ti_busy : Z.land (ep_state u 0x82) TU_EDPT_STATE_BUSY = 0;
  ti_refusals : u_refusals u = [];
  ti_inv : usb_inv u }.

(** The RNDIS header in front of a frame of [n] bytes. *)
Definition rndis_header (n : Z) : list Z :=
  le_bytes 4 REMOTE_NDIS_PACKET_MSG ++ le_bytes 4 (44 + n) ++ le_bytes 4 36 ++ le_bytes 4 n ++ zeros 28.

(** The packet a frame is sent as. *)
Definition tx_packet (ecm : bool) (frame : list Z) : list Z :=
  (if ecm then [] else rndis_header (zlen frame)) ++ frame.

Lemma rndis_header_zlen n : zlen (rndis_header n) = 44.
Proof. reflexivity. Qed.

Lemma tx_packet_zlen ecm frame : zlen (tx_packet ecm frame) = (if ecm then 0 else 44) + zlen frame.
Proof. unfold tx_packet. rewrite zlen_app. by destruct ecm. Qed.

(** Writing the header over the 44 bytes before the frame. *)
Lemma write_header n rest (pre : list Z) :
  zlen pre = 44 ->
  mem_write 12 (le_bytes 4 n) (mem_write 8 (le_bytes 4 36) (mem_write 4 (le_bytes 4 (44 + n))
    (mem_write 0 (le_bytes 4 1) (mem_write 0 (zeros 44) (pre ++ rest))))) = rndis_header n ++ rest.
Proof.
  intros Hp.
  pose proof (mem_write_mid [] (zeros 44) pre rest 0 eq_refl ltac:(by rewrite Hp)) as E.
  cbn [app] in E. rewrite E. reflexivity.
Qed.

Lemma xmit_runs `{Drivers, Board} u frame :
  tx_idle u -> zlen frame <= 1558 ->
  let pkt := tx_packet (ecm_mode (u_itf u)) frame in
  let u1 := st_end (tud_network_xmit frame) u in
  u_calls u1 = DcdXfer 0x82 (Some (RTx, 0)) pkt (zlen pkt) :: u_calls u /\
  u_can_xmit u1 = false /\ u_itf u1 = u_itf u /\ ep2drv (u_dev u1) = ep2drv (u_dev u) /\
  u_refusals u1 = [] /\ usb_inv u1.
Proof.
  intros [Hc Hi Ho Hs Hd Hb Hr Hu] Hf pkt u1.
  assert (usb_inv u1) as Hinv by (by apply tud_network_xmit_inv).
  pose proof (zlen_nonneg frame) as Hf0. pose proof (ui_tx u Hu) as Htx.
  unfold NETD_PACKET_SIZE, sizeof_rndis_data_packet, CFG_TUD_NET_MTU in Htx. cbn in Htx.
  assert (zlen pkt = (if ecm_mode (u_itf u) then 0 else 44) + zlen frame) as Hpz by apply tx_packet_zlen.
  set (tx1 := pkt ++ drop (Z.to_nat (zlen pkt)) (nb_tx (u_epbuf u))).
  assert (tud_network_xmit frame u = do_in_xfer (Some (RTx, 0)) (zlen pkt)
            (u <| u_epbuf := (u_epbuf u) <| nb_tx := tx1 |> |>)) as E.
  { unfold tud_network_xmit. unfold st_bind at 1, st_get at 1. cbn iota beta. rewrite Hc. cbn [negb].
    unfold pkt, tx_packet in *. destruct (ecm_mode (u_itf u)) eqn:Em.
    - assert (mem_write 0 frame (nb_tx (u_epbuf u)) = tx1) as Et.
      { unfold tx1. cbn [app]. rewrite <- (take_drop (Z.to_nat (zlen frame)) (nb_tx (u_epbuf u))) at 1.
        apply (mem_write_mid [] frame); [done|symmetry; apply zlen_take; lia]. }
      cbn [negb st_when region_write]. unfold mod_epbuf, st_bind, st_mod, st_ret. cbn iota beta.
      rewrite Et, u16_small by (unfold is_u16; lia). done.
    - set (tx := nb_tx (u_epbuf u)) in *.
      assert (mem_write 44 frame tx = take 44 tx ++ frame ++ drop (Z.to_nat (44 + zlen frame)) tx) as Et.
      { rewrite <- (take_drop 44 tx) at 1.
        rewrite <- (take_drop (Z.to_nat (zlen frame)) (drop 44 tx)) at 1.
        rewrite drop_drop. replace (44 + Z.to_nat (zlen frame))%nat with (Z.to_nat (44 + zlen frame)) by lia.
        apply mem_write_mid; [symmetry; apply (zlen_take 44); lia|].
        symmetry. apply zlen_take. rewrite (zlen_drop 44) by lia. lia. }
      cbn [negb st_when region_write]. unfold mod_epbuf, st_bind, st_mod, st_ret. cbn iota beta. usb_simpl.
      unfold CFG_TUD_NET_PACKET_PREFIX_LEN, sizeof_rndis_data_packet, rndis_hdr, REMOTE_NDIS_PACKET_MSG.
      fold tx. rewrite Et, u16_small by (unfold is_u16; lia).
      replace (44 + zlen frame - 44) with (zlen frame) by lia. change (44 - 8) with 36.
      rewrite write_header by (apply (zlen_take 44); lia). unfold tx1. rewrite Hpz, <- app_assoc. done. }
  set (v := u <| u_epbuf := (u_epbuf u) <| nb_tx := tx1 |> |>) in *.
  split_and!; try exact Hinv; clear Hinv; unfold u1, st_end; rewrite E; clear E;
    unfold do_in_xfer, st_bind, st_mod, st_get, st_ret; cbn iota beta;
    change (ep_in (u_itf (v <| u_can_xmit := false |>))) with (ep_in (u_itf u)); rewrite Hi;
    rewrite usbd_edpt_xfer_ok by (unfold v; usb_simpl; assumption); usb_simpl; try assumption; try done.
  change (tu_edpt_dir 130 =? TUSB_DIR_IN) with true. cbn iota. cbn [ptr_read region_bytes].
  do 2 f_equal. unfold v. usb_simpl. by apply (mem_read_mid [] pkt).
Qed.

Lemma le_val_small v : is_u32 v -> le_val (le_bytes 4 v) = v.
Proof. intros Hv. rewrite le_val_bytes. apply Z.mod_small. exact Hv. Qed.

(** What the driver sends, the driver reads back. *)
Lemma tx_packet_window ecm frame junk :
  zlen frame <= 1558 ->
  let pkt := tx_packet ecm frame in
  packet_window ecm (pkt ++ junk) (zlen pkt) = ((if ecm then 0 else 44), zlen frame) /\
  mem_read (if ecm then 0 else 44) (zlen frame) (pkt ++ junk) = frame.
Proof.
  intros Hf pkt. pose proof (zlen_nonneg frame) as Hf0.
  assert (zlen pkt = (if ecm then 0 else 44) + zlen frame) as Hp by apply tx_packet_zlen.
  unfold packet_window. rewrite Hp. unfold pkt, tx_packet. destruct ecm; cbn [app].
  - split; [done|]. by apply (mem_read_mid [] frame junk).
  - unfold sizeof_rndis_data_packet. destruct (Z.leb_spec 44 (44 + zlen frame)); [|lia].
    assert (forall k v, mem_read k 4 ((rndis_header (zlen frame) ++ frame) ++ junk) = le_bytes 4 v ->
      is_u32 v -> rx_field ((rndis_header (zlen frame) ++ frame) ++ junk) k = v) as Hfield.
    { intros k v E Hv. unfold rx_field. rewrite E. by apply le_val_small. }
    rewrite (Hfield 0 1), (Hfield 4 (44 + zlen frame)), (Hfield 8 36), (Hfield 12 (zlen frame))
      by (first [reflexivity | unfold is_u32; lia]).
    unfold rndis_hdr, REMOTE_NDIS_PACKET_MSG. cbn [Z.eqb Pos.eqb andb].
    destruct (Z.leb_spec (44 + zlen frame) (44 + zlen frame)); [|lia].
    destruct (Z.leb_spec 36 (44 + zlen frame - 8)); [|lia].
    destruct (Z.leb_spec (zlen frame) (44 + zlen frame - 8 - 36)); [|lia]. cbn [andb].
    split; [done|]. rewrite <- app_assoc. by apply mem_read_mid.
Qed.

(** C27: a transmitted frame arrives unchanged. From an idle driver, in ECM and in RNDIS
    mode, [tud_network_xmit] hands the controller one packet, and the driver's own parser
    of such packets finds in it, whatever follows it in the receive buffer, exactly
    the frame. (In RNDIS mode this is the message format the host parses.) *)
Theorem frame_roundtrip `{Drivers, Board} u frame junk :
  tx_idle u -> zlen frame <= 1558 ->
  exists pkt, u_calls (st_end (tud_network_xmit frame) u) =
      DcdXfer 0x82 (Some (RTx, 0)) pkt (zlen pkt) :: u_calls u /\
    let '(pnt, size) := packet_window (ecm_mode (u_itf u)) (pkt ++ junk) (zlen pkt) in
    mem_read pnt (u16 size) (pkt ++ junk) = frame.
Proof.
  intros Hu Hf. exists (tx_packet (ecm_mode (u_itf u)) frame). split; [by apply xmit_runs|].
  destruct (tx_packet_window (ecm_mode (u_itf u)) frame junk Hf) as [-> Hm].
  pose proof (zlen_nonneg frame). rewrite u16_small by (unfold is_u16; lia). exact Hm.
Qed.

(** ** The life of a transmission *)

(** A completion on the bulk IN endpoint reaches the driver. *)
Lemma in_complete_runs `{Ram, NetApp, Board} u n :
  ep_in (u_itf u) = 0x82 -> ep_out (u_itf u) = 0x02 -> ep_size (u_itf u) = 64 ->
  mem_get (ep2drv (u_dev u)) (ep_index 0x82) = 0 -> usb_inv u -> u_refusals u = [] -> 0 <= n ->
  let u1 := st_end (handle_event (EV_XFER_COMPLETE 0x82 0 n)) u in
  u_itf u1 = u_itf u /\ ep2drv (u_dev u1) = ep2drv (u_dev u) /\ u_refusals u1 = [] /\ usb_inv u1 /\
  if (0 <? n) && (n mod 64 =? 0)
  then u_can_xmit u1 = false /\ u_calls u1 = DcdXfer 0x82 None [] 0 :: u_calls u
  else u_can_xmit u1 = true /\ u_calls u1 = u_calls u /\
       Z.land (ep_state u1 0x82) TU_EDPT_STATE_BUSY = 0.
Proof.
  intros Hi Ho Hs Hd Hu Hr Hn u1.
  set (v := u <| u_dev := (u_dev u) <| ep_status :=
              mem_set 5 (Z.ldiff (mem_get (ep_status (u_dev u)) 5) 5) (ep_status (u_dev u)) |> |>).
  assert (usb_inv v) as Hv by (destruct Hu; constructor; unfold v; usb_simpl; rewrite ?mem_set_zlen; assumption).
  assert (Z.land (ep_state v 0x82) TU_EDPT_STATE_BUSY = 0) as Hb.
  { unfold ep_state, v. usb_simpl. change (ep_index 130) with 5.
    pose proof (ui_ep_status u Hu) as Hz. unfold CFG_TUD_ENDPPOINT_MAX in Hz.
    rewrite mem_get_set by lia. apply land_clear_busy. }
  assert (u1 = st_end (if (0 <? n) && (n mod 64 =? 0) then do_in_xfer None 0
                       else st_mod (fun u => u <| u_can_xmit := true |>)) v) as E.
  { unfold u1, st_end. cbn [handle_event]. unfold mod_ep_state, mod_dev, st_bind at 1, st_mod at 1.
    cbn iota beta. change (Z.lor TU_EDPT_STATE_BUSY TU_EDPT_STATE_CLAIMED) with 5.
    change (ep_index 130) with 5 in *. fold v. change (tu_edpt_number 130 =? 0) with false. cbn iota.
    unfold st_bind at 1, st_get at 1. cbn iota beta.
    change (ep2drv (u_dev v)) with (ep2drv (u_dev u)). rewrite Hd.
    change (get_driver 0) with (Some (mk_driver netd_init netd_reset netd_open netd_control_xfer_cb netd_xfer_cb)).
    cbn iota. cbn [drv_xfer_cb]. unfold netd_xfer_cb, st_bind, st_get. cbn iota beta.
    change (u_itf v) with (u_itf u). rewrite Ho. change (130 =? 2) with false. cbn [st_when].
    unfold st_ret at 1. cbn iota beta. change (u_itf v) with (u_itf u). rewrite Hi, Hs.
    change (130 =? 130) with true. cbn [st_when].
    change (64 - 1) with (Z.ones 6). rewrite Z.land_ones by lia. change (2 ^ 6) with 64.
    rewrite (Z.eqb_sym 0 (n mod 64)).
    destruct ((0 <? n) && (n mod 64 =? 0)); [|done].
    by destruct (do_in_xfer None 0 v). }
  rewrite E. clear E. destruct ((0 <? n) && (n mod 64 =? 0)).
  - assert (usb_inv (st_end (do_in_xfer None 0) v)) as Hv' by (by apply do_in_xfer_inv).
    unfold st_end in *. unfold do_in_xfer, st_bind, st_mod, st_get, st_ret in *. cbn iota beta in *.
    change (u_itf (v <| u_can_xmit := false |>)) with (u_itf u) in *. rewrite Hi in *.
    rewrite usbd_edpt_xfer_ok in * by (unfold v; usb_simpl; assumption). revert Hv'. usb_simpl.
    intros Hv'. split_and!; try assumption; done.
  - unfold st_end, st_mod. usb_simpl. split_and!; try assumption; try done.
    destruct Hv. constructor; usb_simpl; assumption.
Qed.

(** C28: a transmission owns the transmit buffer from start to end. After
    [tud_network_xmit] on an idle driver, a further transmission does nothing until the
    first has completed: when the packet is not a multiple of the endpoint's 64 bytes
    its completion makes the driver idle again; when it is (and not empty), the
    completion queues an empty packet, transmission stays closed, and the completion of
    that one makes the driver idle. *)
Theorem xmit_cycle `{Ram, NetApp, Board} u frame :
  tx_idle u -> zlen frame <= 1558 ->
  let n := zlen (tx_packet (ecm_mode (u_itf u)) frame) in
  let u1 := st_end (tud_network_xmit frame) u in
  let u2 := st_end (handle_event (EV_XFER_COMPLETE 0x82 0 n)) u1 in
  (forall frame', st_end (tud_network_xmit frame') u1 = u1) /\
  (n mod 64 <> 0 \/ n = 0 -> tx_idle u2 /\ u_calls u2 = u_calls u1) /\
  (n mod 64 = 0 -> 0 < n ->
     u_calls u2 = DcdXfer 0x82 None [] 0 :: u_calls u1 /\
     (forall frame', st_end (tud_network_xmit frame') u2 = u2) /\
     tx_idle (st_end (handle_event (EV_XFER_COMPLETE 0x82 0 0)) u2)).
Proof.
  intros Hu Hf n u1 u2. pose proof Hu as [_ Hi Ho Hs Hd _ _ _].
  destruct (xmit_runs u frame Hu Hf) as (_ & Hc1 & Hi1 & Hd1 & Hr1 & Hv1). fold u1 in Hc1, Hi1, Hd1, Hr1, Hv1.
  assert (forall v, u_can_xmit v = false -> forall f, st_end (tud_network_xmit f) v = v) as Hclosed.
  { intros v Hv f. unfold st_end, tud_network_xmit, st_bind, st_get. cbn iota beta. by rewrite Hv. }
  assert (0 <= n) as Hn by apply zlen_nonneg.
  destruct (in_complete_runs u1 n) as (Hi2 & Hd2 & Hr2 & Hv2 & H2); try done; try congruence.
  fold u2 in Hi2, Hd2, Hr2, Hv2, H2.
  split_and!; [by apply Hclosed|intros Hm|intros Hm Hpos].
  - replace ((0 <? n) && (n mod 64 =? 0)) with false in H2 by lia. destruct H2 as (Hc2 & E2 & Hb2).
    split; [|done]. constructor; try done; congruence.
  - replace ((0 <? n) && (n mod 64 =? 0)) with true in H2 by lia. destruct H2 as (Hc2 & E2).
    split_and!; [done|by apply Hclosed|].
    destruct (in_complete_runs u2 0) as (Hi3 & Hd3 & Hr3 & Hv3 & Hc3 & _ & Hb3); try done; try congruence.
    constructor; try done; congruence.
Qed.

(** ** RNDIS control messages *)

(** Notifications leave the control buffer and the filter alone. *)
Definition ctrl_is (B : list Z) (f : Z) (u : usb) : Prop :=
  nb_ctrl (u_epbuf u) = B /\ u_packet_filter u = f.

Lemma netd_report_ctrl B f buf n : st_keeps (ctrl_is B f) (netd_report buf n).
Proof.
  intros u [Hb Hf]. unfold st_end, netd_report, usbd_edpt_claim, mod_ep_state, mod_dev, st_bind, st_get,
    st_mod, st_ret. cbn iota beta. usb_simpl.
  destruct (fst (tu_edpt_claim _)); cbn [negb]; [|done].
  cbn [region_write]. unfold mod_epbuf, st_mod, usbd_edpt_xfer, st_bind, st_get. cbn iota beta. usb_simpl.
  case_if; [done|]. unfold mod_ep_state, mod_dev, st_mod, dcd_edpt_xfer. cbn iota beta. usb_simpl.
  destruct (u_refusals u) as [|[] ?]; done.
Qed.

(** A control buffer by its first six words. *)
Lemma ctrl_words (B : list Z) :
  zlen B = 120 -> B = mem_read 0 4 B ++ mem_read 4 4 B ++ mem_read 8 4 B ++ mem_read 12 4 B ++
                      mem_read 16 4 B ++ mem_read 20 4 B ++ drop 24 B.
Proof.
  intros Hz. do 24 (destruct B as [|? B]; [done|]). reflexivity.
Qed.

(** The status and the bytes of an answer. *)
Definition reply_status (a : oid_reply) : Z := match a with Reply32 s _ | ReplyBytes s _ => s end.
Definition reply_data (a : oid_reply) : list Z :=
  match a with Reply32 _ d => le_bytes 4 d | ReplyBytes _ d => d end.

Lemma oid_answer_fits u oid : zlen (reply_data (oid_answer u oid)) <= 88.
Proof. unfold oid_answer. repeat case_if; vm_compute; congruence. Qed.

Lemma rndis_query_cmplt_runs status data u :
  zlen (nb_ctrl (u_epbuf u)) = 120 -> zlen data <= 96 ->
  nb_ctrl (u_epbuf (st_end (rndis_query_cmplt status data (zlen data)) u)) =
    le_bytes 4 REMOTE_NDIS_QUERY_CMPLT ++ le_bytes 4 (24 + zlen data) ++
    mem_read 8 4 (nb_ctrl (u_epbuf u)) ++ le_bytes 4 status ++ le_bytes 4 (zlen data) ++
    le_bytes 4 16 ++ data ++ drop (24 + length data) (nb_ctrl (u_epbuf u)).
Proof.
  intros Hz Hd. set (B := nb_ctrl (u_epbuf u)) in *.
  match goal with |- _ = ?x => set (out := x) end.
  unfold rndis_query_cmplt, set_field, ctrl_write, mod_epbuf. rewrite !st_bind_end.
  unfold st_val, st_mod, st_end at 2 3 4 5 6 7. usb_simpl.
  match goal with |- nb_ctrl (u_epbuf (st_end rndis_report ?v)) = _ => set (w := v) end.
  assert (nb_ctrl (u_epbuf w) = out) as Hw; [|by apply (netd_report_ctrl out (u_packet_filter w) _ _ w)].
  unfold w. usb_simpl. fold B. unfold sizeof_query_cmplt.
  pose proof (ctrl_words B Hz) as EB.
  assert (zlen (drop 24 B) = 96) as Hz24 by (rewrite (zlen_drop 24); lia).
  set (rest := drop 24 B) in *. set (reqid := mem_read 8 4 B) in *.
  assert (length reqid = 4%nat) as Hreq by (unfold reqid, mem_read; rewrite length_take, length_drop;
    unfold zlen in Hz; lia).
  assert (forall o, 0 <= o -> o + 4 <= 120 -> length (mem_read o 4 B) = 4%nat) as Hlen.
  { intros o Ho Ho'. unfold mem_read. rewrite length_take, length_drop. unfold zlen in Hz. lia. }
  (* the six words, written in turn *)
  assert (mem_write 12 (le_bytes 4 status) (mem_write 20 (le_bytes 4 16) (mem_write 16 (le_bytes 4 (zlen data))
    (mem_write 4 (le_bytes 4 (24 + zlen data)) (mem_write 0 (le_bytes 4 REMOTE_NDIS_QUERY_CMPLT) B)))) =
    le_bytes 4 REMOTE_NDIS_QUERY_CMPLT ++ le_bytes 4 (24 + zlen data) ++ reqid ++ le_bytes 4 status ++
    le_bytes 4 (zlen data) ++ le_bytes 4 16 ++ rest) as E.
  { rewrite EB. clearbody reqid rest. clear - Hlen Hreq.
    pose proof (Hlen 0 ltac:(lia) ltac:(lia)) as H0. pose proof (Hlen 4 ltac:(lia) ltac:(lia)) as H4.
    pose proof (Hlen 12 ltac:(lia) ltac:(lia)) as H12. pose proof (Hlen 16 ltac:(lia) ltac:(lia)) as H16.
    pose proof (Hlen 20 ltac:(lia) ltac:(lia)) as H20. clear Hlen. revert H0 H4 H12 H16 H20 Hreq.
    generalize (mem_read 0 4 B) (mem_read 4 4 B) (mem_read 12 4 B) (mem_read 16 4 B) (mem_read 20 4 B).
    intros w0 w1 w3 w4 w5. 
    do 5 (destruct w0 as [|? w0]; try done). do 5 (destruct w1 as [|? w1]; try done).
    do 5 (destruct w3 as [|? w3]; try done). do 5 (destruct w4 as [|? w4]; try done).
    do 5 (destruct w5 as [|? w5]; try done). do 5 (destruct reqid as [|? reqid]; try done). }
  unfold MessageType, MessageLength, InformationBufferLength, InformationBufferOffset, Status.
  rewrite E. unfold out. rewrite <- (take_drop (length data) rest).
  rewrite !app_assoc. rewrite <- (app_assoc _ (take _ _)).
  rewrite mem_write_mid.
  - rewrite <- !app_assoc. unfold rest. rewrite drop_drop. do 8 f_equal.
  - rewrite !zlen_app, !le_bytes_zlen. unfold zlen. rewrite Hreq. reflexivity.
  - unfold zlen in *. rewrite length_take. lia.
Qed.

Lemma rndis_query_cmplt32_eq s d :
  rndis_query_cmplt32 s d = rndis_query_cmplt s (le_bytes 4 d) (zlen (le_bytes 4 d)).
Proof. unfold rndis_query_cmplt32, rndis_query_cmplt. rewrite le_bytes_zlen. reflexivity. Qed.

Lemma rndis_query_dispatch `{Ram} u :
  field u MessageType = REMOTE_NDIS_QUERY_MSG ->
  st_end rndis_class_set_handler u =
  st_end (rndis_query_cmplt (reply_status (oid_answer u (field u Oid)))
            (reply_data (oid_answer u (field u Oid))) (zlen (reply_data (oid_answer u (field u Oid))))) u.
Proof.
  intros Hq.
  assert (st_end rndis_class_set_handler u = st_end rndis_query u) as ->.
  { unfold rndis_class_set_handler. rewrite st_bind_end. cbn [st_val st_end st_get fst snd].
    rewrite Hq. reflexivity. }
  unfold rndis_query. rewrite st_bind_end. change (st_val st_get u) with u. change (st_end st_get u) with u.
  destruct (oid_answer u (field u Oid)) as [s d|s d]; cbn [reply_status reply_data]; [|done].
  by rewrite rndis_query_cmplt32_eq.
Qed.

(** Every RNDIS query is answered with a well-formed completion that fits. For any
    query message in the 120-byte control buffer, known OID or not, the buffer then
    holds the completion: its type, its length, the request id of the query, the
    status, the length and the place (16 bytes after the request id) of the
    information, and there the bytes of the answer; the rest is unchanged, and the
    length announced is at most 112. *)
Theorem rndis_query_completes `{Ram} u :
  usb_inv u -> field u MessageType = REMOTE_NDIS_QUERY_MSG ->
  let B := nb_ctrl (u_epbuf u) in
  let answer := oid_answer u (field u Oid) in
  let data := reply_data answer in
  nb_ctrl (u_epbuf (st_end rndis_class_set_handler u)) =
    le_bytes 4 REMOTE_NDIS_QUERY_CMPLT ++ le_bytes 4 (24 + zlen data) ++ mem_read 8 4 B ++
    le_bytes 4 (reply_status answer) ++ le_bytes 4 (zlen data) ++ le_bytes 4 16 ++
    data ++ drop (24 + length data) B /\
  24 + zlen data <= 112.
Proof.
  intros Hu Hq B answer data. pose proof (oid_answer_fits u (field u Oid)) as Hfit.
  fold answer in Hfit. fold data in Hfit. split; [|lia].
  pose proof (ui_ctrl u Hu) as Hz. unfold NETD_CONTROL_SIZE in Hz.
  rewrite (rndis_query_dispatch u Hq). fold answer. unfold data in *. clearbody answer.
  destruct answer as [s d|s d]; cbn [reply_data reply_status] in *; apply rndis_query_cmplt_runs;
    first [done | lia].
Qed.

(** The packet filter a host sets is read without a bounds check. A SET of the
    filter takes its value from the offset the message names: when it lies inside the
    control buffer, after the 16 bytes of the completion, the filter becomes the four
    bytes there, as intended; when it does not, the filter becomes whatever four bytes
    of memory are at that distance from the buffer. In both cases the device reports
    success, and a query of the filter returns the value to the host. *)
Theorem rndis_filter_unchecked `{Ram} u :
  usb_inv u -> field u MessageType = REMOTE_NDIS_SET_MSG ->
  field u Oid = OID_GEN_CURRENT_PACKET_FILTER ->
  let B := nb_ctrl (u_epbuf u) in
  let off := 8 + field u InformationBufferOffset in
  let u1 := st_end rndis_class_set_handler u in
  (16 <= off -> off + 4 <= 120 -> u_packet_filter u1 = le_val (mem_read off 4 B)) /\
  (120 < off + 4 -> u_packet_filter u1 = le_val (ram_at off)) /\
  nb_ctrl (u_epbuf u1) = le_bytes 4 REMOTE_NDIS_SET_CMPLT ++ le_bytes 4 16 ++ mem_read 8 4 B ++
    le_bytes 4 RNDIS_STATUS_SUCCESS ++ drop 16 B /\
  oid_answer u1 OID_GEN_CURRENT_PACKET_FILTER = Reply32 RNDIS_STATUS_SUCCESS (u_packet_filter u1).
Proof.
  intros Hu Ht Ho B off u1. pose proof (ui_ctrl u Hu) as Hz. unfold NETD_CONTROL_SIZE in Hz. fold B in Hz.
  set (B1 := le_bytes 4 REMOTE_NDIS_SET_CMPLT ++ le_bytes 4 16 ++ mem_read 8 4 B ++
             le_bytes 4 RNDIS_STATUS_SUCCESS ++ drop 16 B).
  set (v := u <| u_epbuf := (u_epbuf u) <| nb_ctrl := B1 |> |>).
  assert (mem_write 12 (le_bytes 4 0) (mem_write 4 (le_bytes 4 16)
            (mem_write 0 (le_bytes 4 REMOTE_NDIS_SET_CMPLT) B)) = B1) as EB.
  { unfold B1. clear - Hz. do 24 (destruct B as [|? B]; [done|]). reflexivity. }
  assert (field v InformationBufferOffset = field u InformationBufferOffset) as Eoff.
  { unfold field, v, InformationBufferOffset. usb_simpl. fold B. unfold B1. clear - Hz.
    do 24 (destruct B as [|? B]; [done|]). reflexivity. }
  set (w := v <| u_packet_filter := le_val (infbuf_read v) |>
              <| u_rndis_state := if negb (le_val (infbuf_read v) =? 0) then rndis_data_initialized
                                  else rndis_initialized |>).
  assert (u1 = st_end rndis_report w) as E.
  { unfold u1, st_end, rndis_class_set_handler, rndis_handle_set_msg. unfold st_bind at 1, st_get at 1.
    cbn iota beta. rewrite Ht.
    cbn [REMOTE_NDIS_QUERY_MSG REMOTE_NDIS_INITIALIZE_MSG REMOTE_NDIS_SET_MSG Z.eqb Pos.eqb].
    unfold st_bind, st_get. cbn iota beta. rewrite Ho. unfold set_field, ctrl_write, mod_epbuf, st_mod.
    cbn iota beta. usb_simpl. fold B.
    unfold MessageType, MessageLength, Status, sizeof_set_cmplt, RNDIS_STATUS_SUCCESS. rewrite EB. fold v.
    reflexivity. }
  destruct (netd_report_ctrl B1 (le_val (infbuf_read v)) [1; 0; 0; 0; 0; 0; 0; 0] 8 w) as [E1 E2]; [done|].
  fold rndis_report in E1, E2. rewrite <- E in E1, E2. rewrite E1, E2. unfold infbuf_read.
  rewrite Eoff. unfold RequestId, NETD_CONTROL_SIZE. fold off. change (nb_ctrl (u_epbuf v)) with B1.
  split_and!; [intros Hlo Hhi|intros Hout|done|].
  - destruct (Z.leb_spec (off + 4) 120); [|lia]. f_equal. rewrite <- EB.
    rewrite !mem_read_write_disjoint by (first [lia | right; rewrite le_bytes_zlen; lia]). done.
  - destruct (Z.leb_spec (off + 4) 120); [lia|done].
  - unfold oid_answer. cbn. rewrite E2. unfold infbuf_read. rewrite Eoff. done.
Qed.

(** ** Witnesses *)

Lemma demo_up_idle : @tx_idle demo_drivers demo_board demo_up.
Proof. constructor; try (vm_compute; reflexivity). inv_closed. Qed.

(** A packet whose data length is far too large. *)
Lemma packet_window_bounds_witness :
  let rx := le_bytes 4 1 ++ le_bytes 4 60 ++ le_bytes 4 36 ++ le_bytes 4 0xFFFFFFFF ++ zeros 44 in
  packet_window false rx 60 = (0, 0).
Proof.
  intros rx.
  pose proof (packet_window_bounds false rx 60
    ltac:(unfold rx; repeat (apply Forall_app; split); first [apply le_bytes_u8 | apply Forall_replicate; split; lia])
    ltac:(lia)) as H.
  destruct (packet_window false rx 60) as [pnt size] eqn:E. destruct H as (_ & _ & Hb & _).
  vm_compute in E. congruence.
Defined.

Lemma frame_roundtrip_witness :
  exists pkt, u_calls (st_end (tud_network_xmit (zeros 60)) demo_up) =
      DcdXfer 0x82 (Some (RTx, 0)) pkt (zlen pkt) :: u_calls demo_up /\
    let '(pnt, size) := packet_window true (pkt ++ [1; 2]) (zlen pkt) in
    mem_read pnt (u16 size) (pkt ++ [1; 2]) = zeros 60.
Proof.
  exact (@frame_roundtrip demo_drivers demo_board demo_up (zeros 60) [1; 2] demo_up_idle
    ltac:(vm_compute; congruence)).
Defined.

(** A frame of 128 bytes needs an empty packet. *)
Lemma xmit_cycle_witness :
  let u1 := st_end (tud_network_xmit (zeros 128)) demo_up in
  let u2 := st_end (@handle_event demo_drivers demo_board (EV_XFER_COMPLETE 0x82 0 128)) u1 in
  u_calls u2 = DcdXfer 0x82 None [] 0 :: u_calls u1 /\
  @tx_idle demo_drivers demo_board (st_end (@handle_event demo_drivers demo_board (EV_XFER_COMPLETE 0x82 0 0)) u2).
Proof.
  intros u1 u2.
  destruct (@xmit_cycle demo_ram demo_app demo_board demo_up (zeros 128) demo_up_idle
    ltac:(vm_compute; congruence)) as (_ & _ & H).
  destruct (H ltac:(vm_compute; reflexivity) ltac:(vm_compute; reflexivity)) as (H1 & _ & H2).
  exact (conj H1 H2).
Defined.

(** The control buffer holding a message. *)
Definition demo_message (msg : list Z) : usb :=
  demo_up <| u_epbuf := (u_epbuf demo_up) <| nb_ctrl := mem_write 0 msg (zeros 120) |> |>.

(** A query for the MAC address. *)
Lemma rndis_query_completes_witness :
  let u := demo_message (le_bytes 4 4 ++ le_bytes 4 28 ++ le_bytes 4 7 ++ le_bytes 4 0x01010102) in
  nb_ctrl (u_epbuf (st_end (@rndis_class_set_handler demo_ram) u)) =
    le_bytes 4 0x80000004 ++ le_bytes 4 30 ++ le_bytes 4 7 ++ le_bytes 4 0 ++ le_bytes 4 6 ++ le_bytes 4 16 ++
    [0x02; 0x02; 0x84; 0x6A; 0x96; 0x00] ++ zeros 90.
Proof.
  intros u.
  refine (eq_trans (proj1 (@rndis_query_completes demo_ram u _ _)) _); [|vm_compute; reflexivity..].
  inv_closed.
Defined.

(** A filter taken from 4096 bytes past the buffer. *)
Lemma rndis_filter_unchecked_witness :
  let u := demo_message (le_bytes 4 5 ++ le_bytes 4 32 ++ le_bytes 4 7 ++ le_bytes 4 0x0001010E ++
             le_bytes 4 4 ++ le_bytes 4 4096) in
  u_packet_filter (st_end (@rndis_class_set_handler demo_ram) u) = le_val [0xDE; 0xAD; 0xBE; 0xEF].
Proof.
  intros u.
  refine (proj1 (proj2 (@rndis_filter_unchecked demo_ram u _ _ _)) _); [|vm_compute; reflexivity..].
  inv_closed.
Defined.
