(* ===== verification/NetGlue.v ===== *)
(** * NetGlue: the network application (src/src/main.c, src/src/tinyusb_main_bridge.c)

    What joins the USB driver and lwIP: [linkoutput_fn] sends a frame, waiting in the
    USB task for the previous one; [tud_network_recv_cb] hands a received one to lwIP;
    the main loop polls the button that switches the link and blinks the LED. lwIP
    itself is the interface [Lwip]: whether a buffer can be allocated, and what
    processing a frame or bringing the link up does to the USB side. *)

From S2P Require Import Prelude UsbDev Rndis Netd UsbDesc Usbd UsbInv UsbdProps NetdProps.

(** ** lwIP, as main.c calls it *)

Class Lwip := {
  (** [pbuf_alloc(PBUF_RAW, size, PBUF_POOL) != NULL] *)
  pbuf_alloc_ok : usb -> Z -> bool;
  (** [netif->input(p, netif)]: [true] for [ERR_OK]. It may transmit. *)
  netif_input : list Z -> ST usb bool;
  (** [netif_issue_reports]: what is sent when the link comes up. *)
  netif_issue_reports : ST usb unit }.

Class LwipOk `{Lwip} : Prop := {
  netif_input_inv : forall p, st_keeps usb_inv (netif_input p);
  netif_issue_reports_inv : st_keeps usb_inv netif_issue_reports }.

(** ** Receiving *)

(** [src\[0..size)] as the list [src]. The buffer is freed on an error; either way the
    driver is told to receive again. *)
#[export] Instance main_recv_cb `{Lwip} : NetApp := fun src =>
  if negb (zlen src =? 0) then
    let! u := st_get in
    if negb (pbuf_alloc_ok u (zlen src)) then st_ret false
    else netif_input src ;;; tud_network_recv_renew ;;; st_ret true
  else st_ret true.

(** ** Sending *)

Inductive err_t := ERR_OK | ERR_USE.

(** The loop of [linkoutput_fn]. [isr i] are the events the interrupts of turn [i]
    report while the USB task is waited for; [None] after [fuel] turns means the C is
    still in the loop. *)
Fixpoint linkoutput_fn `{Drivers, Board} (fuel : nat) (isr : list (list dcd_event)) (p : list Z)
    : ST usb (option err_t) :=
  match fuel with
  | O => st_ret None
  | S fuel =>
      let! u := st_get in
      if negb (tud_ready u) then st_ret (Some ERR_USE)
      else if tud_network_can_xmit u then tud_network_xmit p ;;; st_ret (Some ERR_OK)
      else
        st_iter dcd_event_handler (default [] (head isr)) ;;;
        tud_task ;;;
        linkoutput_fn fuel (tail isr) p
  end.

(** ** The main loop *)

(** The static variables of [led_blinking_task] and [handle_link_state_switch], and the
    link flag of the network interface. *)
Record glue := mk_glue {
  g_usb : usb; start_ms : Z; led_state : bool;
  last_link_state : bool; last_button_state : bool; netif_link_up : bool }.
#[export] Instance eta_glue : Eta glue := fun g =>
  mk_glue (g_usb g) (start_ms g) (led_state g) (last_link_state g) (last_button_state g) (netif_link_up g).

(** As [init_lwip] leaves them: [netif_init_cb] has set the link flag. *)
Definition glue_start (u : usb) : glue := mk_glue u 0 false true false true.

Definition usb_do {A} (m : ST usb A) : ST glue A := fun g =>
  let '(a, u) := m (g_usb g) in (a, g <| g_usb := u |>).

(** The level written to the LED, if it is written. *)
Definition led_blinking_task (now : Z) : ST glue (option bool) := fun g =>
  let blink_interval_ms := u_blink (g_usb g) in
  if u32 (now - start_ms g) <? blink_interval_ms then (None, g)
  else (Some (led_state g),
        g <| start_ms := u32 (start_ms g + blink_interval_ms) |> <| led_state := negb (led_state g) |>).

Definition usbnet_netif_link_callback : ST glue unit :=
  let! g := st_get in usb_do (tud_network_link_state (netif_link_up g)).

(** lwIP: only a change of the flag is reported. *)
Definition netif_set_link_up `{Lwip} : ST glue unit :=
  let! g := st_get in
  st_when (negb (netif_link_up g))
    (st_mod (fun g => g <| netif_link_up := true |>) ;;;
     usb_do netif_issue_reports ;;;
     usbnet_netif_link_callback).
Definition netif_set_link_down : ST glue unit :=
  let! g := st_get in
  st_when (netif_link_up g)
    (st_mod (fun g => g <| netif_link_up := false |>) ;;; usbnet_netif_link_callback).

Definition handle_link_state_switch `{Lwip} (current_button_state : bool) : ST glue unit :=
  let! g := st_get in
  st_when (current_button_state && negb (last_button_state g))
    (st_mod (fun g => g <| last_link_state := negb (last_link_state g) |>) ;;;
     if negb (last_link_state g) then netif_set_link_up else netif_set_link_down) ;;;
  st_mod (fun g => g <| last_button_state := current_button_state |>).

(** [tinyusb_network_poll]; [timeouts] is what lwIP's timers do. *)
Definition tinyusb_network_poll `{Ram, Lwip, Board} (timeouts : ST usb unit) (button : bool) (now : Z)
    : ST glue (option bool) :=
  usb_do tud_task ;;;
  usb_do timeouts ;;;
  handle_link_state_switch button ;;;
  led_blinking_task now.

(** ** The receive callback keeps the invariant *)

#[export] Instance main_recv_cb_ok `{LwipOk} : NetAppOk.
Proof.
  intros src. unfold tud_network_recv_cb, main_recv_cb. inv_keep. apply netif_input_inv.
Qed.

(** ** Receiving again *)

(** the receive endpoint is armed again after every packet that holds a frame, and
    after no other. When the window of a received packet is not empty, then whether
    the buffer can be allocated and lwIP accepts the frame or not, exactly one new
    receive transfer of 1602 bytes is queued after whatever lwIP did, as long as lwIP
    left the receive endpoint as it was. When the window is empty (an RNDIS packet with a
    bad header, or an empty transfer) nothing is queued at all: the endpoint stays
    without a transfer, and the device receives no more. *)
Theorem receive_rearmed `{Lwip} u len :
  let rx := nb_rx (u_epbuf u) in
  let '(pnt, size) := packet_window (ecm_mode (u_itf u)) rx len in
  let frame := mem_read pnt (u16 size) rx in
  let after := if pbuf_alloc_ok u (zlen frame) then st_end (netif_input frame) u else u in
  (frame <> [] -> u_refusals after = [] ->
     Z.land (ep_state after (ep_out (u_itf after))) TU_EDPT_STATE_BUSY = 0 ->
     tu_edpt_dir (ep_out (u_itf after)) = TUSB_DIR_OUT ->
     u_calls (st_end (handle_incoming_packet len) u) =
       DcdXfer (ep_out (u_itf after)) (Some (RRx, 0)) [] NETD_PACKET_SIZE :: u_calls after) /\
  (frame = [] -> st_end (handle_incoming_packet len) u = u).
Proof.
  cbv zeta. destruct (packet_window _ _ _) as [pnt size] eqn:Ew.
  set (frame := mem_read pnt (u16 size) (nb_rx (u_epbuf u))).
  set (after := if pbuf_alloc_ok u (zlen frame) then st_end (netif_input frame) u else u).
  assert (forall v, u_refusals v = [] -> Z.land (ep_state v (ep_out (u_itf v))) TU_EDPT_STATE_BUSY = 0 ->
    tu_edpt_dir (ep_out (u_itf v)) = TUSB_DIR_OUT ->
    u_calls (snd (tud_network_recv_renew v)) =
      DcdXfer (ep_out (u_itf v)) (Some (RRx, 0)) [] NETD_PACKET_SIZE :: u_calls v) as Hrenew.
  { intros v Hr Hb Hd. unfold tud_network_recv_renew, st_bind, st_get, st_ret. cbn iota beta.
    rewrite usbd_edpt_xfer_ok by done. usb_simpl. by rewrite Hd. }
  assert (handle_incoming_packet len u =
    (let! handled := tud_network_recv_cb frame in st_when (negb handled) tud_network_recv_renew) u) as E.
  { unfold handle_incoming_packet. unfold st_bind at 1, st_get at 1. cbn iota beta. rewrite Ew. done. }
  unfold st_end at 1 2. rewrite E. clear E. unfold tud_network_recv_cb, main_recv_cb. split.
  - intros Hne Hr Hb Hd. assert ((zlen frame =? 0) = false) as ->.
    { apply Z.eqb_neq. intros E0. apply Hne, nil_length_inv. unfold zlen in E0. lia. }
    cbn [negb]. unfold st_bind at 1 2, st_get at 1. cbn iota beta.
    unfold after in *. destruct (pbuf_alloc_ok u (zlen frame)); cbn [negb].
    + unfold st_bind, st_ret. unfold st_end in *. destruct (netif_input frame u) as [ok v].
      cbn [snd] in *. rewrite <- (Hrenew v Hr Hb Hd). by destruct (tud_network_recv_renew v).
    + by apply Hrenew.
  - intros ->. reflexivity.
Qed.

(** ** Waiting to send *)

(** Sending returns as soon as the driver can take the frame, or the device is not
    ready, and otherwise stays in its loop: it returns [ERR_USE] without touching anything
    when the device is not mounted or suspended; it queues the frame and returns
    [ERR_OK] when transmission is open; and if transmission is closed and no event
    comes (the host has configured the device but never selects the data interface,
    say), it never returns, however long it runs. *)
Theorem linkoutput_outcomes `{Drivers, Board} u p :
  (tud_ready u = false -> forall fuel isr, linkoutput_fn (S fuel) isr p u = (Some ERR_USE, u)) /\
  (tud_ready u = true -> u_can_xmit u = true -> forall fuel isr,
     linkoutput_fn (S fuel) isr p u = (Some ERR_OK, st_end (tud_network_xmit p) u)) /\
  (tud_ready u = true -> u_can_xmit u = false -> u_queue u = [] ->
     forall fuel, linkoutput_fn fuel [] p u = (None, u)).
Proof.
  split_and!.
  - intros Hr fuel isr. cbn [linkoutput_fn]. unfold st_bind, st_get. cbn iota beta. by rewrite Hr.
  - intros Hr Hc fuel isr. cbn [linkoutput_fn]. unfold st_bind, st_get. cbn iota beta.
    unfold tud_network_can_xmit. rewrite Hr, Hc. cbn [negb]. unfold st_end, st_ret.
    by destruct (tud_network_xmit p u).
  - intros Hr Hc Hq fuel. induction fuel as [|fuel IH]; [done|]. cbn [linkoutput_fn].
    unfold st_bind, st_get. cbn iota beta. unfold tud_network_can_xmit. rewrite Hr, Hc. cbn [negb].
    cbn [head default st_iter]. unfold st_ret. cbn iota beta.
    replace (tud_task u) with (tt, u); [exact IH|].
    unfold tud_task, st_bind, st_get, st_when. cbn iota beta. destruct (u_inited u); [|done].
    cbn [task_loop]. destruct (Z.to_nat CFG_TUD_TASK_EVENTS_PER_RUN); cbn [task_loop]; [done|]. by rewrite Hq.
Qed.

(** ** The link switch *)

(** Presses of the button among samples of it, given the sample before. *)
Fixpoint presses (last : bool) (samples : list bool) : nat :=
  match samples with
  | [] => 0
  | b :: samples => (if b && negb last then 1 else 0) + presses b samples
  end.

Ltac glue_simpl :=
  cbn [setf eta eta_glue g_usb start_ms led_state last_link_state last_button_state netif_link_up negb fst snd].

Lemma handle_link_state_switch_flags `{Lwip} b g :
  netif_link_up g = last_link_state g ->
  let g' := st_end (handle_link_state_switch b) g in
  netif_link_up g' = last_link_state g' /\ last_button_state g' = b /\
  last_link_state g' = xorb (last_link_state g) (b && negb (last_button_state g)).
Proof.
  intros Hg. cbv zeta. unfold st_end, handle_link_state_switch, st_bind, st_get, st_mod, st_when. cbn iota beta.
  destruct (b && negb (last_button_state g)); [|cbn; by rewrite xorb_false_r].
  cbn iota beta. destruct (last_link_state g) eqn:El; cbn [negb];
    unfold netif_set_link_up, netif_set_link_down, usbnet_netif_link_callback, st_bind, st_get, st_when,
      st_mod, usb_do; glue_simpl; rewrite Hg; cbn iota beta; glue_simpl.
  - by destruct (tud_network_link_state false (g_usb g)).
  - destruct (netif_issue_reports (g_usb g)) as [[] v]. glue_simpl. by destruct (tud_network_link_state true v).
Qed.

(** The link follows the button: it is switched once for each press, however long the
    button is held, and the flag lwIP sees is always the one the switch keeps. *)
Lemma link_follows_button `{Lwip} samples g :
  netif_link_up g = last_link_state g ->
  let g' := st_end (st_iter handle_link_state_switch samples) g in
  netif_link_up g' = last_link_state g' /\
  last_link_state g' = xorb (last_link_state g) (Nat.odd (presses (last_button_state g) samples)).
Proof.
  cbv zeta. revert g. induction samples as [|b samples IH]; intros g Hg.
  { split; [done|]. cbn. by rewrite xorb_false_r. }
  cbn [st_iter presses]. rewrite st_bind_end.
  destruct (handle_link_state_switch_flags b g Hg) as (H1 & H2 & H3).
  destruct (IH _ H1) as [IH1 IH2]. split; [done|].
  rewrite IH2, H3, H2, xorb_assoc. f_equal.
  destruct (b && negb (last_button_state g)); [|done].
  change (1 + presses b samples)%nat with (S (presses b samples)).
  rewrite Nat.odd_succ, <- Nat.negb_odd. by destruct (Nat.odd _).
Qed.

(** ** Witnesses *)

(** An lwIP that sends every frame back. *)
Definition demo_lwip : Lwip := {|
  pbuf_alloc_ok := fun _ _ => true;
  netif_input := fun p => tud_network_xmit p ;;; st_ret true;
  netif_issue_reports := st_ret tt |}.

(** The task has taken a completion off the receive endpoint. *)
Definition demo_received : usb := st_end (mod_ep_state 0x02 (fun _ => 0)) demo_up.

Lemma receive_rearmed_witness :
  u_calls (st_end (@handle_incoming_packet (@main_recv_cb demo_lwip) 60) demo_received) =
    DcdXfer 0x02 (Some (RRx, 0)) [] NETD_PACKET_SIZE ::
    DcdXfer 0x82 (Some (RTx, 0)) (zeros 60) 60 :: u_calls demo_received.
Proof.
  refine (eq_trans (proj1 (@receive_rearmed demo_lwip demo_received 60) _ _ _ _) _);
    [|vm_compute; reflexivity..].
  vm_compute. discriminate.
Defined.

(** ECM configured, no data interface selected, nothing sent before: no return. *)
Lemma linkoutput_outcomes_witness :
  let u := @setup_packet demo_drivers demo_board (SET_CONFIGURATION 1) demo_reset in
  tud_ready u = true /\ @linkoutput_fn demo_drivers demo_board 1000 [] (zeros 60) u = (None, u).
Proof.
  intros u. split; [vm_compute; reflexivity|].
  exact (proj2 (proj2 (@linkoutput_outcomes demo_drivers demo_board u (zeros 60)))
    ltac:(vm_compute; reflexivity) ltac:(vm_compute; reflexivity) ltac:(vm_compute; reflexivity) 1000%nat).
Defined.
