(* ===== verification/Chksum.v ===== *)
(** * Chksum: the Internet checksum

    src/lib/lwip/src/core/inet_chksum.c, which every IP, ICMP, UDP and TCP packet of
    the firmware passes through in both directions, with the options of this build:
    algorithm 2 of [lwip_standard_chksum], IPv4 only. The host is little-endian.

    The optimised routine works on host-order words, at any alignment, and a chain of
    buffers is summed piece by piece with a byte swap after each piece of odd length.
    [oc_sum] is the definition of RFC 1071, the one's complement sum of the big-endian
    words; the theorems show that the routines compute it, and what a receiver that
    checks the sum can rely on. *)

From S2P Require Import Prelude.

(** ** The code *)

Definition FOLD_U32T (u : Z) : Z := u32 (Z.shiftr u 16 + Z.land u 0xffff).
Definition SWAP_BYTES_IN_WORD (w : Z) : Z :=
  Z.lor (Z.shiftl (Z.land w 0xff) 8) (Z.shiftr (Z.land w 0xff00) 8).
Definition lwip_htons (n : Z) : Z :=
  u16 (Z.lor (Z.shiftl (Z.land n 0xff) 8) (Z.shiftr (Z.land n 0xff00) 8)).

(** The loop over the bulk of the data: the sum and the byte left over, if any. *)
Fixpoint sum_words (sum : Z) (ps : list Z) : Z * list Z :=
  match ps with
  | b0 :: b1 :: ps => sum_words (u32 (sum + le_val [b0; b1])) ps
  | _ => (sum, ps)
  end.

(** [data] is the memory from [dataptr] on, [len] bytes of it. *)
Definition lwip_standard_chksum (dataptr : Z) (data : list Z) : Z :=
  let odd := Z.odd dataptr in
  let '(t1, pb) := match odd, data with true, b :: pb => (b, pb) | _, _ => (0, data) end in
  let '(sum, ps) := sum_words 0 pb in
  let t0 := match ps with b :: _ => b | [] => 0 end in
  let sum := u32 (sum + le_val [t0; t1]) in
  let sum := FOLD_U32T sum in
  let sum := FOLD_U32T sum in
  let sum := if odd then SWAP_BYTES_IN_WORD sum else sum in
  u16 sum.

(** A chain of pbufs as the checksum sees it: the address of each payload and its
    bytes. *)
Definition pbuf_chain : Type := list (Z * list Z).

Definition inet_chksum (dataptr : Z) (data : list Z) : Z :=
  u16 (Z.lnot (lwip_standard_chksum dataptr data)).

(** The loop over a chain: the accumulator and whether it is byte-swapped. *)
Fixpoint chksum_chain (p : pbuf_chain) (acc : Z) (swapped : bool) : Z * bool :=
  match p with
  | [] => (acc, swapped)
  | (payload, data) :: p =>
      let acc := u32 (acc + lwip_standard_chksum payload data) in
      let acc := FOLD_U32T acc in
      if negb (zlen data mod 2 =? 0)
      then chksum_chain p (SWAP_BYTES_IN_WORD acc) (negb swapped)
      else chksum_chain p acc swapped
  end.

Definition inet_chksum_pbuf (p : pbuf_chain) : Z :=
  let '(acc, swapped) := chksum_chain p 0 false in
  let acc := if swapped then SWAP_BYTES_IN_WORD acc else acc in
  u16 (Z.lnot (Z.land acc 0xffff)).

Definition inet_cksum_pseudo_base (p : pbuf_chain) (proto proto_len acc : Z) : Z :=
  let '(acc, swapped) := chksum_chain p acc false in
  let acc := if swapped then SWAP_BYTES_IN_WORD acc else acc in
  let acc := u32 (acc + lwip_htons (u16 proto)) in
  let acc := u32 (acc + lwip_htons proto_len) in
  let acc := FOLD_U32T acc in
  let acc := FOLD_U32T acc in
  u16 (Z.lnot (Z.land acc 0xffff)).

(** The addresses, as [u32_t] in network byte order (the bytes in memory read as a
    little-endian number), summed and folded. *)
Definition addr_sum (src dest : Z) : Z :=
  let acc := Z.land src 0xffff in
  let acc := u32 (acc + Z.land (Z.shiftr src 16) 0xffff) in
  let acc := u32 (acc + Z.land dest 0xffff) in
  let acc := u32 (acc + Z.land (Z.shiftr dest 16) 0xffff) in
  FOLD_U32T (FOLD_U32T acc).

Definition inet_chksum_pseudo (p : pbuf_chain) (proto proto_len src dest : Z) : Z :=
  inet_cksum_pseudo_base p proto proto_len (addr_sum src dest).

Definition ip_chksum_pseudo (p : pbuf_chain) (proto proto_len src dest : Z) : Z :=
  inet_chksum_pseudo p proto proto_len src dest.

(** The first [chksum_len] bytes of a chain; the assertion on the rest has no effect
    in this build. *)
Fixpoint chksum_chain_partial (p : pbuf_chain) (chksum_len acc : Z) (swapped : bool) : Z * bool :=
  match p with
  | [] => (acc, swapped)
  | (payload, data) :: p =>
      if negb (0 <? chksum_len) then (acc, swapped)
      else
        let chklen := if chksum_len <? zlen data then chksum_len else zlen data in
        let acc := u32 (acc + lwip_standard_chksum payload (take (Z.to_nat chklen) data)) in
        let chksum_len := u16 (chksum_len - chklen) in
        let acc := FOLD_U32T acc in
        if negb (zlen data mod 2 =? 0)
        then chksum_chain_partial p chksum_len (SWAP_BYTES_IN_WORD acc) (negb swapped)
        else chksum_chain_partial p chksum_len acc swapped
  end.

Definition inet_cksum_pseudo_partial_base (p : pbuf_chain) (proto proto_len chksum_len acc : Z) : Z :=
  let '(acc, swapped) := chksum_chain_partial p chksum_len acc false in
  let acc := if swapped then SWAP_BYTES_IN_WORD acc else acc in
  let acc := u32 (acc + lwip_htons (u16 proto)) in
  let acc := u32 (acc + lwip_htons proto_len) in
  let acc := FOLD_U32T acc in
  let acc := FOLD_U32T acc in
  u16 (Z.lnot (Z.land acc 0xffff)).

Definition inet_chksum_pseudo_partial (p : pbuf_chain) (proto proto_len chksum_len src dest : Z) : Z :=
  inet_cksum_pseudo_partial_base p proto proto_len chksum_len (addr_sum src dest).

Definition ip_chksum_pseudo_partial (p : pbuf_chain) (proto proto_len chksum_len src dest : Z) : Z :=
  inet_chksum_pseudo_partial p proto proto_len chksum_len src dest.

(** ** The reference: RFC 1071 *)

(** One's complement addition of 16-bit words: the carry is added back. *)
Definition oc_add (a b : Z) : Z := if 65535 <? a + b then a + b - 65535 else a + b.

(** The one's complement sum of the big-endian words, a last odd byte padded with a
    zero byte. *)
Fixpoint oc_sum (data : list Z) : Z :=
  match data with
  | [] => 0
  | [b] => 256 * b
  | b0 :: b1 :: data => oc_add (256 * b0 + b1) (oc_sum data)
  end.

(** A checksum field for these bytes, in network byte order: the two bytes of the
    complement of the sum. *)
Definition internet_checksum (data : list Z) : list Z :=
  let c := 65535 - oc_sum data in [c / 256; c mod 256].

(** The pseudo header of UDP and TCP. *)
Definition pseudo_header (src dest proto proto_len : Z) : list Z :=
  le_bytes 4 src ++ le_bytes 4 dest ++ [0; proto] ++ [proto_len / 256; proto_len mod 256].

Definition chain_data (p : pbuf_chain) : list Z := concat (snd <$> p).
Definition chain_ok (p : pbuf_chain) : Prop :=
  Forall (fun q => Forall is_u8 (snd q) /\ zlen (snd q) < 65536) p.

(** ** Arithmetic of folded sums *)

(** What folding the carries of a sum leaves: 0 only for 0, else the residue modulo
    65535 in 1 .. 65535. *)
Definition csum (n : Z) : Z := if n =? 0 then 0 else (n - 1) mod 65535 + 1.

Lemma csum_range n : 0 <= csum n <= 65535.
Proof. unfold csum. case_if; [lia|zdivmod]. Qed.

Lemma csum_small n : 0 <= n <= 65535 -> csum n = n.
Proof. intros Hn. unfold csum. case_if; [lia|]. rewrite Z.mod_small; lia. Qed.

(** Two sums fold to the same word when they are equal modulo 65535 and neither or
    both are 0. *)
Lemma csum_cong a b k : 0 <= a -> 0 <= b -> a = b + 65535 * k -> (a = 0 <-> b = 0) -> csum a = csum b.
Proof.
  intros Ha Hb Hk H0. unfold csum. destruct (Z.eqb_spec a 0), (Z.eqb_spec b 0); try lia.
  f_equal. replace (a - 1) with (b - 1 + k * 65535) by lia. by rewrite Z_mod_plus_full.
Qed.

Lemma csum_residue n : 0 <= n -> exists k, csum n = n + 65535 * k.
Proof.
  intros Hn. unfold csum. case_if; [exists 0; lia|].
  exists (- ((n - 1) / 65535)). pose proof (Z.div_mod (n - 1) 65535). lia.
Qed.

Lemma csum_zero n : 0 <= n -> csum n = 0 <-> n = 0.
Proof. intros Hn. unfold csum. case_if; [lia|]. pose proof (Z.mod_pos_bound (n - 1) 65535). lia. Qed.

Lemma csum_add_l a b : 0 <= a -> 0 <= b -> csum (csum a + b) = csum (a + b).
Proof.
  intros Ha Hb. pose proof (csum_range a). pose proof (csum_zero a Ha).
  destruct (csum_residue a Ha) as [k Hk]. apply (csum_cong _ _ k); lia.
Qed.

Lemma csum_add_r a b : 0 <= a -> 0 <= b -> csum (a + csum b) = csum (a + b).
Proof. intros Ha Hb. by rewrite Z.add_comm, csum_add_l, Z.add_comm. Qed.

Lemma csum_mul_256 n : 0 <= n -> csum (256 * csum n) = csum (256 * n).
Proof.
  intros Hn. pose proof (csum_range n). pose proof (csum_zero n Hn).
  destruct (csum_residue n Hn) as [k Hk]. apply (csum_cong _ _ (256 * k)); lia.
Qed.

Lemma csum_swap_twice n : 0 <= n -> csum (256 * (256 * n)) = csum n.
Proof. intros Hn. apply (csum_cong _ _ n); lia. Qed.

Lemma fold_spec s : 0 <= s < 4294967296 -> FOLD_U32T s = s / 65536 + s mod 65536.
Proof.
  intros Hs. unfold FOLD_U32T. change 0xffff with (Z.ones 16).
  rewrite Z.shiftr_div_pow2, Z.land_ones by lia. change (2 ^ 16) with 65536.
  apply u32_small. unfold is_u32. zdivmod.
Qed.

Lemma fold_csum s : 0 <= s <= 131070 -> FOLD_U32T s = csum s.
Proof.
  intros Hs. rewrite fold_spec by lia. rewrite <- (csum_small (s / 65536 + s mod 65536)) by zdivmod.
  apply (csum_cong _ _ (- (s / 65536))); zdivmod.
Qed.

(** Two folds are enough for any 32-bit sum. *)
Lemma fold_twice s : 0 <= s < 4294967296 -> FOLD_U32T (FOLD_U32T s) = csum s.
Proof.
  intros Hs. rewrite (fold_spec s Hs), fold_csum by zdivmod.
  apply (csum_cong _ _ (- (s / 65536))); zdivmod.
Qed.

Lemma lor_bytes a b : 0 <= b < 256 -> Z.lor (Z.shiftl a 8) b = 256 * a + b.
Proof.
  intros Hb. rewrite <- Z.add_nocarry_lor; [rewrite Z.shiftl_mul_pow2 by lia; lia|].
  replace b with (Z.land (Z.ones 8) b) by (rewrite Z.land_comm, Z.land_ones by lia; apply Z.mod_small; lia).
  rewrite Z.land_assoc, Z.land_ones, Z.shiftl_mul_pow2 by lia. by rewrite Z_mod_mult.
Qed.

Lemma swap_spec w : 0 <= w <= 65535 -> SWAP_BYTES_IN_WORD w = 256 * (w mod 256) + w / 256.
Proof.
  intros Hw. unfold SWAP_BYTES_IN_WORD. change 0xff00 with (Z.shiftl (Z.ones 8) 8).
  change 0xff with (Z.ones 8). rewrite Z.shiftr_land, Z.shiftr_shiftl_l by lia.
  change (Z.shiftl (Z.ones 8) (8 - 8)) with (Z.ones 8).
  rewrite !Z.land_ones, Z.shiftr_div_pow2 by lia. change (2 ^ 8) with 256.
  rewrite (Z.mod_small (w / 256)) by zdivmod. apply lor_bytes. zdivmod.
Qed.

Lemma swap_range w : 0 <= w <= 65535 -> 0 <= SWAP_BYTES_IN_WORD w <= 65535.
Proof. intros Hw. rewrite swap_spec by done. zdivmod. Qed.

Lemma swap_csum n : 0 <= n -> SWAP_BYTES_IN_WORD (csum n) = csum (256 * n).
Proof.
  intros Hn. pose proof (csum_range n) as Hr. rewrite swap_spec, <- csum_mul_256 by done.
  rewrite <- (csum_small (256 * (csum n mod 256) + csum n / 256)) by zdivmod.
  apply (csum_cong _ _ (- (csum n / 256))); zdivmod.
Qed.

Lemma htons_swap w : 0 <= w <= 65535 -> lwip_htons w = SWAP_BYTES_IN_WORD w.
Proof. intros Hw. apply u16_small. pose proof (swap_range w Hw). unfold is_u16, SWAP_BYTES_IN_WORD in *. lia. Qed.

(** ** Weighted sums of bytes *)

(** The bytes with the weights 1 and 256 in turn, beginning with 256 at an odd
    offset. *)
Fixpoint wsum (odd : bool) (data : list Z) : Z :=
  match data with
  | [] => 0
  | b :: data => (if odd then 256 * b else b) + wsum (negb odd) data
  end.

Definition odd_len (data : list Z) : bool := negb (zlen data mod 2 =? 0).

Lemma odd_len_cons b data : odd_len (b :: data) = negb (odd_len data).
Proof.
  unfold odd_len. rewrite zlen_cons. f_equal.
  destruct (Z.eqb_spec ((1 + zlen data) mod 2) 0), (Z.eqb_spec (zlen data mod 2) 0); try done; zdivmod.
Qed.

Lemma wsum_bound o data : Forall is_u8 data -> 0 <= wsum o data <= 65280 * zlen data.
Proof.
  intros Hd. revert o. induction Hd as [|b data Hb Hd IH]; intros o; cbn [wsum]; [done|].
  rewrite zlen_cons. unfold is_u8 in Hb. specialize (IH (negb o)). destruct o; lia.
Qed.

Lemma wsum_nonneg o data : Forall is_u8 data -> 0 <= wsum o data.
Proof. intros Hd. by apply wsum_bound. Qed.

Lemma wsum_app o a b : wsum o (a ++ b) = wsum o a + wsum (xorb o (odd_len a)) b.
Proof.
  revert o. induction a as [|x a IH]; intros o; cbn [app wsum]; [by destruct o|].
  rewrite IH, odd_len_cons. destruct o, (odd_len a); cbn; lia.
Qed.

Lemma wsum_swap o data : exists k, 256 * wsum o data = wsum (negb o) data + 65535 * k.
Proof.
  revert o. induction data as [|b data IH]; intros o; cbn [wsum]; [by exists 0|].
  destruct (IH (negb o)) as [k Hk]. destruct o; cbn [negb] in *; [exists (k + b)|exists k]; lia.
Qed.

Lemma wsum_zero o data : Forall is_u8 data -> wsum o data = 0 <-> Forall (eq 0) data.
Proof.
  intros Hd. revert o. induction Hd as [|b data Hb Hd IH]; intros o; cbn [wsum]; [done|].
  rewrite Forall_cons, <- (IH (negb o)). unfold is_u8 in Hb. pose proof (wsum_nonneg (negb o) data Hd).
  destruct o; lia.
Qed.

Lemma csum_wsum_swap o data : Forall is_u8 data -> csum (256 * wsum o data) = csum (wsum (negb o) data).
Proof.
  intros Hd. destruct (wsum_swap o data) as [k Hk].
  pose proof (wsum_nonneg o data Hd). pose proof (wsum_nonneg (negb o) data Hd).
  pose proof (wsum_zero o data Hd). pose proof (wsum_zero (negb o) data Hd).
  apply (csum_cong _ _ k); [lia|lia|lia|]. assert (256 * wsum o data = 0 <-> wsum o data = 0) by lia. tauto.
Qed.

(** ** The routine computes the folded sum *)

Lemma pairs_ind {A} (P : list A -> Prop) :
  P [] -> (forall a, P [a]) -> (forall a b l, P l -> P (a :: b :: l)) -> forall l, P l.
Proof.
  intros H0 H1 H2. fix IH 1. intros [|a [|b l]]; [apply H0|apply H1|apply H2, IH].
Qed.

Lemma sum_words_spec ps : forall s, Forall is_u8 ps -> 0 <= s -> s + 65535 * (zlen ps / 2) < 4294967296 ->
  sum_words s ps = (s + wsum false ps - match snd (sum_words s ps) with b :: _ => b | [] => 0 end,
                    if odd_len ps then [List.last ps 0] else []).
Proof.
  induction ps as [|a|a b ps IH] using pairs_ind; intros s Hd Hs Hb.
  - cbn. f_equal; lia.
  - cbn. f_equal; lia.
  - apply Forall_cons in Hd as [Ha Hd]. apply Forall_cons in Hd as [Hb' Hd]. unfold is_u8 in Ha, Hb'.
    rewrite !zlen_cons in Hb. replace ((1 + (1 + zlen ps)) / 2) with (1 + zlen ps / 2) in Hb by zdivmod.
    pose proof (zlen_nonneg ps) as Hz. assert (0 <= zlen ps / 2) by zdivmod.
    cbn [sum_words]. replace (le_val [a; b]) with (a + 256 * b) by (cbn; lia).
    rewrite u32_small by (unfold is_u32; lia). rewrite !odd_len_cons, negb_involutive.
    specialize (IH (s + (a + 256 * b)) Hd ltac:(lia) ltac:(lia)). rewrite IH at 1. cbn [wsum negb]. f_equal; [lia|].
    destruct (odd_len ps) eqn:Eo; [|done]. by destruct ps.
Qed.

Lemma wsum_words ps : Forall is_u8 ps -> wsum false ps <= 65535 * (zlen ps / 2) + 255 * (zlen ps mod 2).
Proof.
  induction ps as [|a|a b ps IH] using pairs_ind; intros Hd; [done| |].
  - apply Forall_cons in Hd as [Ha _]. unfold is_u8 in Ha. change (zlen [a]) with 1. change (1 / 2) with 0. change (1 mod 2) with 1. cbn [wsum]. lia.
  - apply Forall_cons in Hd as [Ha Hd]. apply Forall_cons in Hd as [Hb Hd]. unfold is_u8 in Ha, Hb.
    specialize (IH Hd). rewrite !zlen_cons. cbn [wsum negb]. zdivmod.
Qed.

(** The bulk of the data from an even address, with the byte [t1] before it. *)
Lemma chksum_bulk t1 pb : is_u8 t1 -> Forall is_u8 pb -> zlen pb <= 0x20000 -> t1 = 0 \/ zlen pb < 0x20000 ->
  (let '(sum, ps) := sum_words 0 pb in
   FOLD_U32T (FOLD_U32T (u32 (sum + le_val [match ps with b :: _ => b | [] => 0 end; t1]))))
  = csum (256 * t1 + wsum false pb).
Proof.
  intros Ht Hpb Hz Ho. unfold is_u8 in Ht. pose proof (zlen_nonneg pb).
  pose proof (wsum_words pb Hpb) as Hw. pose proof (wsum_nonneg false pb Hpb).
  assert (65535 * (zlen pb / 2) <= 65535 * 65536) as Hq by zdivmod.
  assert (0 <= 256 * t1 + wsum false pb < 4294967296) as Hsum by zdivmod.
  pose proof (sum_words_spec pb 0 Hpb ltac:(lia) ltac:(lia)) as E.
  destruct (sum_words 0 pb) as [sum ps]. cbn [snd] in E. injection E as E _.
  set (t0 := match ps with b :: _ => b | [] => 0 end) in *.
  replace (sum + le_val [t0; t1]) with (256 * t1 + wsum false pb) by (cbn [le_val]; lia).
  by rewrite u32_small, fold_twice by done.
Qed.

(** The sum does not depend on where the data lies; no carry is lost up to 0x20000
    bytes. *)
Lemma chksum_csum dataptr data : Forall is_u8 data -> zlen data <= 0x20000 ->
  lwip_standard_chksum dataptr data = csum (wsum false data).
Proof.
  intros Hd Hl. unfold lwip_standard_chksum. pose proof (wsum_nonneg true data Hd) as Hn.
  destruct (Z.odd dataptr); [destruct data as [|b pb]; [done|]|].
  - apply Forall_cons in Hd as Hd'. destruct Hd' as [Hb Hpb]. rewrite zlen_cons in Hl.
    pose proof (chksum_bulk b pb Hb Hpb ltac:(lia) ltac:(lia)) as E. destruct (sum_words 0 pb) as [sum ps].
    rewrite E. change (256 * b + wsum false pb) with (wsum true (b :: pb)).
    rewrite swap_csum, (csum_wsum_swap true) by done. apply u16_small.
    pose proof (csum_range (wsum (negb true) (b :: pb))). unfold is_u16. cbn [negb] in *. lia.
  - pose proof (chksum_bulk 0 data ltac:(done) Hd Hl ltac:(lia)) as E. destruct (sum_words 0 data) as [sum ps].
    rewrite E, Z.add_0_l. apply u16_small. pose proof (csum_range (wsum false data)). unfold is_u16. lia.
Qed.

(** RFC 1071's sum of the same bytes. *)
Lemma oc_add_csum a b : 0 <= a <= 65535 -> 0 <= b -> oc_add a (csum b) = csum (a + b).
Proof.
  intros Ha Hb. rewrite <- csum_add_r by lia. pose proof (csum_range b).
  unfold oc_add, csum. repeat case_if; zdivmod.
Qed.

Lemma oc_sum_csum data : Forall is_u8 data -> oc_sum data = csum (wsum true data).
Proof.
  induction data as [|a|a b data IH] using pairs_ind; intros Hd; [done| |].
  - apply Forall_cons in Hd as [Ha _]. unfold is_u8 in Ha. cbn [oc_sum wsum]. rewrite csum_small; lia.
  - apply Forall_cons in Hd as [Ha Hd]. apply Forall_cons in Hd as [Hb Hd]. unfold is_u8 in Ha, Hb.
    pose proof (wsum_nonneg true data Hd). cbn [oc_sum wsum negb].
    rewrite IH, oc_add_csum by (done || lia). f_equal. lia.
Qed.

Lemma oc_sum_range data : Forall is_u8 data -> 0 <= oc_sum data <= 65535.
Proof. intros Hd. rewrite oc_sum_csum by done. apply csum_range. Qed.

Lemma chksum_swapped data : Forall is_u8 data -> csum (wsum false data) = SWAP_BYTES_IN_WORD (oc_sum data).
Proof.
  intros Hd. rewrite oc_sum_csum, swap_csum by (done || by apply wsum_nonneg).
  by rewrite (csum_wsum_swap true).
Qed.

(** ** Chains of buffers *)

Lemma csum_add_wsum a o data : 0 <= a -> Forall is_u8 data ->
  csum (a + 256 * wsum o data) = csum (a + wsum (negb o) data).
Proof.
  intros Ha Hd. pose proof (wsum_nonneg o data Hd). pose proof (wsum_nonneg (negb o) data Hd).
  by rewrite <- csum_add_r, csum_wsum_swap, csum_add_r by lia || done.
Qed.

(** The accumulator while a chain is summed: the folded total, byte-swapped after an
    odd number of bytes. *)
Definition acc_of (swapped : bool) (total : Z) : Z := csum (if swapped then 256 * total else total).

Lemma acc_of_range sw total : 0 <= acc_of sw total <= 65535.
Proof. apply csum_range. Qed.

Lemma acc_of_add sw total data : 0 <= total -> Forall is_u8 data ->
  FOLD_U32T (u32 (acc_of sw total + csum (wsum false data))) = acc_of sw (total + wsum sw data).
Proof.
  intros Ht Hd. pose proof (acc_of_range sw total). pose proof (csum_range (wsum false data)).
  pose proof (wsum_nonneg false data Hd). pose proof (wsum_nonneg true data Hd).
  rewrite u32_small by (unfold is_u32; lia). rewrite fold_csum, csum_add_r by lia. unfold acc_of in *.
  rewrite csum_add_l by (destruct sw; lia). destruct sw; [|done].
  by rewrite Z.mul_add_distr_l, csum_add_wsum by lia || done.
Qed.

Lemma acc_of_swap sw total : 0 <= total -> SWAP_BYTES_IN_WORD (acc_of sw total) = acc_of (negb sw) total.
Proof.
  intros Ht. unfold acc_of. rewrite swap_csum by (destruct sw; lia). destruct sw; [|done].
  by apply csum_swap_twice.
Qed.

Lemma chain_ok_u8 p : chain_ok p -> Forall is_u8 (chain_data p).
Proof.
  induction 1 as [|q p [Hq _] Hp IH]; [by constructor|]. by apply Forall_app.
Qed.

Lemma odd_len_app a b : odd_len (a ++ b) = xorb (odd_len a) (odd_len b).
Proof. induction a as [|x a IH]; cbn [app]; [done|]. rewrite !odd_len_cons, IH. by destruct (odd_len a), (odd_len b). Qed.

Lemma chksum_chain_spec p : forall sw total, chain_ok p -> 0 <= total ->
  chksum_chain p (acc_of sw total) sw =
  (acc_of (xorb sw (odd_len (chain_data p))) (total + wsum sw (chain_data p)), xorb sw (odd_len (chain_data p))).
Proof.
  induction p as [|[a d] p IH]; intros sw total Hp Ht.
  { cbn. by rewrite Z.add_0_r, xorb_false_r. }
  apply Forall_cons in Hp as [[Hd Hl] Hp]. cbn [snd] in Hd, Hl. cbn [chksum_chain].
  rewrite chksum_csum by lia || done. rewrite acc_of_add by done. fold (odd_len d).
  change (chain_data ((a, d) :: p)) with (d ++ chain_data p). rewrite odd_len_app, wsum_app, Z.add_assoc.
  pose proof (wsum_nonneg sw d Hd). destruct (odd_len d) eqn:Eo.
  - rewrite acc_of_swap, IH by lia || done. rewrite xorb_true_r.
    by destruct sw, (odd_len (chain_data p)).
  - rewrite IH by lia || done. rewrite xorb_false_r. by destruct sw, (odd_len (chain_data p)).
Qed.

Lemma acc_unswap (sw : bool) total : 0 <= total ->
  (if sw then SWAP_BYTES_IN_WORD (acc_of sw total) else acc_of sw total) = csum total.
Proof. intros Ht. destruct sw; [by rewrite acc_of_swap|done]. Qed.

(** The complement that is stored, as bytes in memory. *)
Lemma lnot_u16 w : 0 <= w <= 65535 -> u16 (Z.lnot w) = 65535 - w.
Proof. intros Hw. unfold Z.lnot, u16. zdivmod. Qed.

Lemma land_ffff w : 0 <= w <= 65535 -> Z.land w 0xffff = w.
Proof. intros Hw. change 0xffff with (Z.ones 16). rewrite Z.land_ones by lia. apply Z.mod_small. lia. Qed.

Lemma internet_checksum_bytes data : Forall is_u8 data ->
  le_bytes 2 (65535 - csum (wsum false data)) = internet_checksum data.
Proof.
  intros Hd. pose proof (oc_sum_range data Hd). rewrite chksum_swapped, swap_spec by done.
  unfold internet_checksum. cbn [le_bytes]. f_equal; [|f_equal]; zdivmod.
Qed.

(** Inside the pseudo header. *)
Lemma addr_sum_spec src dest : is_u32 src -> is_u32 dest ->
  addr_sum src dest = csum (wsum false (le_bytes 4 src ++ le_bytes 4 dest)).
Proof.
  intros Hs Hd. unfold is_u32 in *. unfold addr_sum. change 0xffff with (Z.ones 16).
  rewrite !Z.land_ones, !Z.shiftr_div_pow2 by lia. change (2 ^ 16) with 65536.
  pose proof (Z.mod_pos_bound src 65536 ltac:(lia)). pose proof (Z.mod_pos_bound (src / 65536) 65536 ltac:(lia)).
  pose proof (Z.mod_pos_bound dest 65536 ltac:(lia)). pose proof (Z.mod_pos_bound (dest / 65536) 65536 ltac:(lia)).
  rewrite (u32_small (src mod _ + _)), (u32_small (_ + dest mod _)), u32_small by (unfold is_u32; lia).
  rewrite fold_twice by lia. f_equal. cbn [le_bytes app wsum negb]. zdivmod.
Qed.

Lemma pseudo_header_u8 src dest proto proto_len : is_u8 proto -> is_u16 proto_len ->
  Forall is_u8 (pseudo_header src dest proto proto_len).
Proof.
  intros Hp Hl. unfold is_u16 in Hl. unfold pseudo_header. rewrite !Forall_app.
  split_and!; try apply le_bytes_u8; repeat constructor; try done; unfold is_u8 in *; zdivmod.
Qed.

Lemma wsum_pseudo_header src dest proto proto_len : is_u8 proto -> is_u16 proto_len ->
  wsum false (pseudo_header src dest proto proto_len) =
  wsum false (le_bytes 4 src ++ le_bytes 4 dest) + SWAP_BYTES_IN_WORD proto + SWAP_BYTES_IN_WORD proto_len.
Proof.
  intros Hp Hl. unfold is_u8, is_u16 in *. set (A := le_bytes 4 src ++ le_bytes 4 dest).
  change (pseudo_header src dest proto proto_len) with (A ++ [0; proto; proto_len / 256; proto_len mod 256]).
  rewrite wsum_app, !swap_spec by lia. change (odd_len A) with false. cbn [xorb wsum negb]. zdivmod.
Qed.

Lemma pseudo_base_spec p proto proto_len total acc : chain_ok p -> is_u8 proto -> is_u16 proto_len ->
  0 <= total -> acc = csum total ->
  inet_cksum_pseudo_base p proto proto_len acc =
  65535 - csum (total + wsum false (chain_data p) + SWAP_BYTES_IN_WORD proto + SWAP_BYTES_IN_WORD proto_len).
Proof.
  intros Hp Hpr Hl Ht ->. unfold is_u8, is_u16 in *. unfold inet_cksum_pseudo_base.
  change (csum total) with (acc_of false total). rewrite chksum_chain_spec by done.
  pose proof (wsum_nonneg false _ (chain_ok_u8 p Hp)). rewrite acc_unswap by lia.
  rewrite (u16_small proto), !htons_swap by (unfold is_u16; lia).
  pose proof (swap_range proto ltac:(lia)). pose proof (swap_range proto_len ltac:(lia)).
  set (T := total + wsum false (chain_data p)) in *. pose proof (csum_range T).
  rewrite (u32_small (csum T + _)), u32_small, fold_twice by (unfold is_u32; lia).
  rewrite <- Z.add_assoc, csum_add_l by lia. rewrite land_ffff, lnot_u16 by apply csum_range. by rewrite Z.add_assoc.
Qed.

Lemma chksum_pseudo_spec p proto proto_len src dest :
  chain_ok p -> is_u8 proto -> is_u16 proto_len -> is_u32 src -> is_u32 dest ->
  inet_chksum_pseudo p proto proto_len src dest =
  65535 - csum (wsum false (pseudo_header src dest proto proto_len ++ chain_data p)).
Proof.
  intros Hp Hpr Hl Hs Hd. unfold inet_chksum_pseudo.
  rewrite (pseudo_base_spec _ _ _ _ _ Hp Hpr Hl (wsum_nonneg false (le_bytes 4 src ++ le_bytes 4 dest)
    ltac:(apply Forall_app; split; apply le_bytes_u8)) (addr_sum_spec src dest Hs Hd)).
  rewrite (wsum_app _ (pseudo_header _ _ _ _)), wsum_pseudo_header by done.
  change (odd_len (pseudo_header src dest proto proto_len)) with false. cbn [xorb]. do 2 f_equal. lia.
Qed.

Lemma chksum_pbuf_spec p : chain_ok p -> inet_chksum_pbuf p = 65535 - csum (wsum false (chain_data p)).
Proof.
  intros Hp. unfold inet_chksum_pbuf. change 0 with (acc_of false 0) at 1.
  rewrite chksum_chain_spec by done. pose proof (wsum_nonneg false _ (chain_ok_u8 p Hp)).
  rewrite acc_unswap by lia. rewrite land_ffff by apply csum_range. apply lnot_u16, csum_range.
Qed.

Lemma chksum_chain_partial_spec p : forall len sw total, chain_ok p -> is_u16 len -> 0 <= total ->
  let '(acc, swapped) := chksum_chain_partial p len (acc_of sw total) sw in
  (if swapped then SWAP_BYTES_IN_WORD acc else acc) = csum (total + wsum sw (take (Z.to_nat len) (chain_data p))).
Proof.
  induction p as [|[a d] p IH]; intros len sw total Hp Hn Ht.
  { cbn. rewrite take_nil. cbn. rewrite Z.add_0_r. by apply acc_unswap. }
  apply Forall_cons in Hp as [[Hd Hl] Hp]. cbn [snd] in Hd, Hl. unfold is_u16 in Hn. cbn [chksum_chain_partial].
  destruct (Z.ltb_spec 0 len) as [Hpos|Hz]; cbn [negb].
  2: { replace len with 0 by lia. cbn. rewrite Z.add_0_r. by apply acc_unswap. }
  set (c := if len <? zlen d then len else zlen d). pose proof (zlen_nonneg d).
  assert (0 <= c <= zlen d /\ c <= len) as [Hc Hc'] by (unfold c; case_if; lia).
  assert (Forall is_u8 (take (Z.to_nat c) d)) as Hk by by apply Forall_take.
  rewrite chksum_csum by (rewrite ?zlen_take by lia; lia || done). rewrite acc_of_add by done.
  pose proof (wsum_nonneg sw _ Hk). rewrite u16_small by (unfold is_u16; lia).
  change (chain_data ((a, d) :: p)) with (d ++ chain_data p). fold (odd_len d).
  assert (wsum sw (take (Z.to_nat len) (d ++ chain_data p)) =
          wsum sw (take (Z.to_nat c) d) +
          wsum (xorb sw (odd_len d)) (take (Z.to_nat (len - c)) (chain_data p))) as ->.
  { unfold c. unfold zlen in *. destruct (Z.ltb_spec len (Z.of_nat (length d))).
    - rewrite take_app_le, Z.sub_diag, take_0 by lia. cbn [wsum]. lia.
    - rewrite take_app_ge, wsum_app, (take_ge d (Z.to_nat (Z.of_nat _))) by lia.
      do 3 f_equal. lia. }
  rewrite Z.add_assoc. destruct (odd_len d).
  - rewrite acc_of_swap by lia. rewrite xorb_true_r. apply IH; [done|unfold is_u16; lia|lia].
  - rewrite xorb_false_r. apply IH; [done|unfold is_u16; lia|lia].
Qed.

Lemma chksum_partial_spec p proto proto_len chksum_len src dest :
  chain_ok p -> is_u8 proto -> is_u16 proto_len -> is_u16 chksum_len -> is_u32 src -> is_u32 dest ->
  inet_chksum_pseudo_partial p proto proto_len chksum_len src dest =
  inet_chksum_pseudo [(0, take (Z.to_nat chksum_len) (chain_data p))] proto proto_len src dest.
Proof.
  intros Hp Hpr Hl Hn Hs Hd.
  unfold inet_chksum_pseudo_partial, inet_chksum_pseudo, inet_cksum_pseudo_partial_base, inet_cksum_pseudo_base.
  rewrite addr_sum_spec by done. set (T := wsum false (le_bytes 4 src ++ le_bytes 4 dest)).
  assert (0 <= T) as HT by (apply wsum_nonneg, Forall_app; split; apply le_bytes_u8).
  change (csum T) with (acc_of false T).
  pose proof (chksum_chain_partial_spec p chksum_len false T Hp Hn HT) as E.
  destruct (chksum_chain_partial p chksum_len (acc_of false T) false) as [acc sw]. rewrite E.
  set (k := take (Z.to_nat chksum_len) (chain_data p)) in *.
  assert (Forall is_u8 k) as Hk by (by apply Forall_take, chain_ok_u8).
  assert (chain_ok [(0, k)]) as Hok.
  { constructor; [|constructor]. split; [done|]. cbn. unfold k, zlen. rewrite length_take. unfold is_u16 in Hn. lia. }
  rewrite chksum_chain_spec by done. rewrite acc_unswap.
  - change (chain_data [(0, k)]) with (k ++ []). by rewrite app_nil_r.
  - pose proof (wsum_nonneg false _ (chain_ok_u8 _ Hok)). lia.
Qed.

(** ** What the routines promise *)

(** C32: the checksum routines compute the Internet checksum of RFC 1071. Over one
    buffer at any address, even or odd, over a chain of buffers cut anywhere, with the
    pseudo header of UDP and TCP, or over only the first bytes of a chain, the value
    stored in the header is, as bytes in memory, the complement of the one's complement
    sum of the big-endian words of the concatenated data. *)
Theorem checksum_is_rfc1071 (p : pbuf_chain) (proto proto_len src dest : Z) :
  chain_ok p -> is_u8 proto -> is_u16 proto_len -> is_u32 src -> is_u32 dest ->
  (forall dataptr, zlen (chain_data p) <= 0x20000 ->
     lwip_standard_chksum dataptr (chain_data p) = lwip_htons (oc_sum (chain_data p)) /\
     le_bytes 2 (inet_chksum dataptr (chain_data p)) = internet_checksum (chain_data p)) /\
  le_bytes 2 (inet_chksum_pbuf p) = internet_checksum (chain_data p) /\
  le_bytes 2 (ip_chksum_pseudo p proto proto_len src dest) =
    internet_checksum (pseudo_header src dest proto proto_len ++ chain_data p) /\
  (forall n, is_u16 n -> le_bytes 2 (ip_chksum_pseudo_partial p proto proto_len n src dest) =
     internet_checksum (pseudo_header src dest proto proto_len ++ take (Z.to_nat n) (chain_data p))).
Proof.
  intros Hp Hpr Hl Hs Hd. pose proof (chain_ok_u8 p Hp) as Hu. pose proof (oc_sum_range _ Hu) as Hoc.
  pose proof (pseudo_header_u8 src dest proto proto_len Hpr Hl) as Hph. split_and!.
  - intros a Hz. unfold inet_chksum. rewrite chksum_csum, lnot_u16 by (done || apply csum_range).
    split; [by rewrite chksum_swapped, htons_swap|by apply internet_checksum_bytes].
  - rewrite chksum_pbuf_spec by done. by apply internet_checksum_bytes.
  - unfold ip_chksum_pseudo. rewrite chksum_pseudo_spec by done. by apply internet_checksum_bytes, Forall_app.
  - intros n Hn. unfold ip_chksum_pseudo_partial. rewrite chksum_partial_spec by done.
    assert (Forall is_u8 (take (Z.to_nat n) (chain_data p))) as Ht by by apply Forall_take.
    rewrite chksum_pseudo_spec; try done.
    + set (k := take _ _) in *. change (chain_data [(0, k)]) with (k ++ []). rewrite app_nil_r.
      by apply internet_checksum_bytes, Forall_app.
    + constructor; [|constructor]. split; [done|]. cbn. unfold zlen. rewrite length_take. unfold is_u16 in Hn. lia.
Qed.

(** A packet passes the check when its sum is a positive multiple of 65535. *)
Lemma csum_full n : 0 < n -> csum n = 65535 <-> n mod 65535 = 0.
Proof. intros Hn. unfold csum. case_if; zdivmod. Qed.

Lemma wsum_word ph pre w post : odd_len ph = false -> odd_len pre = false -> is_u16 w ->
  wsum false (ph ++ pre ++ le_bytes 2 w ++ post) = wsum false (ph ++ pre ++ post) + w.
Proof.
  intros Hph Hpre Hw. unfold is_u16 in Hw. rewrite !wsum_app, Hph, Hpre. cbn [xorb].
  change (odd_len (le_bytes 2 w)) with false. cbn [le_bytes wsum negb xorb]. zdivmod.
Qed.

Lemma wsum_proto_pos src dest proto proto_len rest : 0 < proto < 256 -> is_u16 proto_len -> Forall is_u8 rest ->
  0 < wsum false (pseudo_header src dest proto proto_len ++ rest).
Proof.
  intros Hp Hl Hr. rewrite wsum_app, wsum_pseudo_header by (unfold is_u8; lia || done).
  unfold is_u16 in Hl. pose proof (swap_range proto_len ltac:(lia)).
  pose proof (wsum_nonneg (xorb false (odd_len (pseudo_header src dest proto proto_len))) rest Hr).
  pose proof (wsum_nonneg false (le_bytes 4 src ++ le_bytes 4 dest) ltac:(apply Forall_app; split; apply le_bytes_u8)).
  rewrite swap_spec by lia. zdivmod.
Qed.

(** The checksum stored in the packet makes the sum full; so does 0xffff in place of 0. *)
Lemma pseudo_stored (p q : pbuf_chain) (pre post : list Z) (proto proto_len src dest v : Z) :
  chain_ok p -> chain_ok q -> 0 < proto < 256 -> is_u16 proto_len -> is_u32 src -> is_u32 dest -> odd_len pre = false ->
  chain_data p = pre ++ [0; 0] ++ post -> chain_data q = pre ++ le_bytes 2 v ++ post ->
  v = ip_chksum_pseudo p proto proto_len src dest \/ ip_chksum_pseudo p proto proto_len src dest = 0 /\ v = 65535 ->
  csum (wsum false (pseudo_header src dest proto proto_len ++ chain_data q)) = 65535 /\ ip_chksum_pseudo q proto proto_len src dest = 0.
Proof.
  intros Hp Hq Hpr Hl Hs Hd He Ep Eq Hv. unfold ip_chksum_pseudo in *. set (ph := pseudo_header src dest proto proto_len).
  assert (is_u8 proto) as Hpr' by (unfold is_u8; lia). assert (odd_len ph = false) as Hph by done.
  rewrite (chksum_pseudo_spec p) in Hv by done. rewrite chksum_pseudo_spec by done. fold ph in Hv |- *.
  set (t := wsum false (ph ++ chain_data p)) in Hv.
  assert (0 < t) as Ht by (apply wsum_proto_pos; [done..|by apply chain_ok_u8]).
  pose proof (csum_range t) as Hr. destruct (csum_residue t ltac:(lia)) as [k Hk].
  assert (is_u16 v) as Hv16 by (unfold is_u16; lia).
  assert (wsum false (ph ++ chain_data q) = t + v) as Etq.
  { rewrite Eq, wsum_word by done. f_equal. unfold t. rewrite Ep. change [0; 0] with (le_bytes 2 0). rewrite wsum_word by done. lia. }
  assert (csum (wsum false (ph ++ chain_data q)) = 65535) as ->; [|split; lia].
  unfold is_u16 in Hv16. apply csum_full; rewrite Etq; [lia|]. destruct Hv as [-> | [? ->]].
  - replace (t + (65535 - csum t)) with ((1 - k) * 65535) by lia. apply Z_mod_mult.
  - replace (t + 65535) with ((2 - k) * 65535) by lia. apply Z_mod_mult.
Qed.

(** a packet sent with its checksum passes the receiver's check, and a damaged
    word makes it fail. The checksum computed over a packet whose checksum field is
    zero, stored in that field, makes the check of the whole packet (however it is then
    cut into buffers) give 0. If one 16-bit word of it is replaced by another, the
    check gives 0 exactly when the two are 0x0000 and 0xffff, the two forms of zero,
    or the same. *)
Theorem checksum_detects (p q : pbuf_chain) (pre post : list Z) (proto proto_len src dest : Z) :
  chain_ok p -> chain_ok q -> 0 < proto < 256 -> is_u16 proto_len -> is_u32 src -> is_u32 dest ->
  odd_len pre = false -> chain_data p = pre ++ [0; 0] ++ post ->
  chain_data q = pre ++ le_bytes 2 (ip_chksum_pseudo p proto proto_len src dest) ++ post ->
  ip_chksum_pseudo q proto proto_len src dest = 0 /\
  forall r pre' w v post', chain_ok r -> odd_len pre' = false -> is_u16 w -> is_u16 v ->
    chain_data q = pre' ++ le_bytes 2 w ++ post' -> chain_data r = pre' ++ le_bytes 2 v ++ post' ->
    (ip_chksum_pseudo r proto proto_len src dest = 0 <->
       v = w \/ (v = 0 /\ w = 65535) \/ (v = 65535 /\ w = 0)).
Proof.
  intros Hp Hq Hpr Hl Hs Hd He Ep Eq.
  destruct (pseudo_stored p q pre post proto proto_len src dest _ Hp Hq Hpr Hl Hs Hd He Ep Eq (or_introl eq_refl)) as [Hc ->].
  clear Eq. unfold ip_chksum_pseudo. set (ph := pseudo_header src dest proto proto_len) in *.
  assert (is_u8 proto) as Hpr' by (unfold is_u8; lia). assert (odd_len ph = false) as Hph by done.
  split; [done|]. intros r pre' w v post' Hrk He' Hw Hv Eq' Er.
  rewrite chksum_pseudo_spec by done. fold ph. apply csum_full in Hc; [|by apply wsum_proto_pos; [..|apply chain_ok_u8]].
  rewrite Eq', wsum_word in Hc by done. unfold is_u16 in Hw, Hv.
  assert (0 < wsum false (ph ++ chain_data r)) as Hpos by (apply wsum_proto_pos; [done..|by apply chain_ok_u8]).
  transitivity (csum (wsum false (ph ++ chain_data r)) = 65535); [lia|].
  rewrite csum_full by done. rewrite Er, wsum_word in * by done. split; [|intros; zdivmod].
  intros. zdivmod.
Qed.

(** A packet in two buffers, the second at an odd address. *)
Definition demo_chain : pbuf_chain := [(0x20000000, [0x13; 0x88; 0]); (0x20001001, [0; 1; 2; 255])].

Lemma checksum_is_rfc1071_witness :
  le_bytes 2 (ip_chksum_pseudo demo_chain 17 7 0x0107a8c0 0x0207a8c0) = [93; 8].
Proof.
  destruct (checksum_is_rfc1071 demo_chain 17 7 0x0107a8c0 0x0207a8c0) as (_ & _ & E & _);
    [by repeat constructor; vm_compute|done..|].
  rewrite E. by vm_compute.
Defined.

Lemma checksum_detects_witness :
  ip_chksum_pseudo [(3, [0x13; 0x88; 93; 8; 1; 2; 255])] 17 7 0x0107a8c0 0x0207a8c0 = 0.
Proof.
  refine (proj1 (checksum_detects demo_chain [(3, [0x13; 0x88; 93; 8; 1; 2; 255])] [0x13; 0x88] [1; 2; 255]
    17 7 0x0107a8c0 0x0207a8c0 _ _ _ _ _ _ _ _ _)); try done; try by repeat constructor; vm_compute.
Defined.
