(* ===== verification/Timeouts.v ===== *)
(** * Timeouts: the timers of the TCP/IP stack

    src/lib/lwip/src/core/timeouts.c, driven by the main loop of the firmware, which
    calls [sys_check_timeouts] in every turn. Times are 32-bit millisecond counters
    that wrap round every 49.7 days; the code compares them by the sign of their
    difference. The arithmetic of time is the class [Ticks]: the code runs on
    [wrapped], the 32-bit counter, and [ideal] is the same code on a clock that never
    wraps, which the theorems take as its specification.

    What a timer's handler does to this module is a list of the calls it makes
    ([timer_op]), supplied by the class [TimerEnv] for every call of every handler, as
    is the clock. The assertions of lwIP have no effect in this build
    ([LWIP_PLATFORM_ASSERT] of src/src/arch/cc.h tests the message, not the
    condition). *)

From S2P Require Import Prelude.

(** ** Time *)

Definition LWIP_MAX_TIMEOUT : Z := 0x7fffffff.

Class Ticks := {
  tick : Z -> Z;                 (* what a counter shows at a moment *)
  TIME_LESS_THAN : Z -> Z -> bool;
  time_left : Z -> Z -> Z        (* the distance to a later time *) }.

Definition wrapped : Ticks := {|
  tick := u32;
  TIME_LESS_THAN := fun t compare_to => LWIP_MAX_TIMEOUT <? u32 (t - compare_to);
  time_left := fun t now => u32 (t - now) |}.

Definition ideal : Ticks := {|
  tick := fun t => t;
  TIME_LESS_THAN := fun t compare_to => t <? compare_to;
  time_left := fun t now => t - now |}.

(** ** State *)

(** The handlers: the cyclic timers of the stack share one, with the table entry as
    their argument. *)
Inductive sys_timeout_handler := lwip_cyclic_timer_h | tcpip_tcp_timer_h | app_handler (n : Z).
#[export] Instance handler_eq_dec : EqDecision sys_timeout_handler.
Proof. solve_decision. Defined.

Record sys_timeo := mk_timeo { to_time : Z; to_h : option sys_timeout_handler; to_arg : Z }.
#[export] Instance eta_timeo : Eta sys_timeo := fun t => mk_timeo (to_time t) (to_h t) (to_arg t).

(** The table of cyclic timers of this build: TCP, IP reassembly, ARP. *)
Definition TCP_TMR_INTERVAL : Z := 250.
Definition IP_TMR_INTERVAL : Z := 1000.
Definition ARP_TMR_INTERVAL : Z := 1000.
Definition lwip_cyclic_timers : list Z := [TCP_TMR_INTERVAL; IP_TMR_INTERVAL; ARP_TMR_INTERVAL].
Definition interval_ms (i : Z) : Z := default 0 (lwip_cyclic_timers !! Z.to_nat i).

Definition MEMP_NUM_SYS_TIMEOUT : Z := 3.
Definition SYS_TIMEOUTS_SLEEPTIME_INFINITE : Z := 0xFFFFFFFF.

(** A call of a handler: which, with what argument, and the time it was due. *)
Record timer_call := mk_call { tc_handler : sys_timeout_handler; tc_arg : Z; tc_due : Z }.

Record timers := mk_timers {
  next_timeout : list sys_timeo;
  current_timeout_due_time : Z;
  tcpip_tcp_timer_active : bool;
  tcp_pcbs : bool;                    (* tcp_active_pcbs || tcp_tw_pcbs *)
  timeo_free : Z;                     (* free elements of the pool MEMP_SYS_TIMEOUT *)
  clock_reads : Z;                    (* how often the clock was read *)
  timer_calls : list timer_call       (* newest first *) }.
#[export] Instance eta_timers : Eta timers := fun s =>
  mk_timers (next_timeout s) (current_timeout_due_time s) (tcpip_tcp_timer_active s) (tcp_pcbs s)
    (timeo_free s) (clock_reads s) (timer_calls s).

Definition timers_start : timers := mk_timers [] 0 false false MEMP_NUM_SYS_TIMEOUT 0 [].

(** What a handler can do to this module. *)
Inductive timer_op :=
  | op_timeout (msecs : Z) (h : sys_timeout_handler) (arg : Z)
  | op_untimeout (h : sys_timeout_handler) (arg : Z)
  | op_tcp_timer_needed
  | op_pcbs (b : bool).               (* connections come or go *)

(** The clock, in milliseconds since the start, at its n-th reading; what the body of
    a handler does when it is the n-th to be called. *)
Class TimerEnv := {
  clk : Z -> Z;
  handler_ops : nat -> sys_timeout_handler -> Z -> list timer_op }.

Section timers.
Context `{Ticks, TimerEnv}.

Definition sys_now : ST timers Z := fun s =>
  (tick (clk (clock_reads s)), s <| clock_reads := clock_reads s + 1 |>).

(** The search for the place of a timer behind the first one. *)
Fixpoint link_after (timeout : sys_timeo) (l : list sys_timeo) : list sys_timeo :=
  match l with
  | [] => []
  | t :: l' =>
      match l' with
      | [] => [t; timeout]
      | t' :: _ => if TIME_LESS_THAN (to_time timeout) (to_time t') then t :: timeout :: l'
                   else t :: link_after timeout l'
      end
  end.

Definition link_timeout (timeout : sys_timeo) (l : list sys_timeo) : list sys_timeo :=
  match l with
  | [] => [timeout]
  | t :: _ => if TIME_LESS_THAN (to_time timeout) (to_time t) then timeout :: l else link_after timeout l
  end.

Definition sys_timeout_abs (abs_time : Z) (handler : option sys_timeout_handler) (arg : Z) : ST timers unit :=
  let! s := st_get in
  if timeo_free s =? 0 then st_ret tt
  else
    st_mod (fun s => s <| timeo_free := timeo_free s - 1 |>
                       <| next_timeout := link_timeout (mk_timeo abs_time handler arg) (next_timeout s) |>).

Definition sys_timeout (msecs : Z) (handler : option sys_timeout_handler) (arg : Z) : ST timers unit :=
  let! now := sys_now in
  sys_timeout_abs (tick (now + msecs)) handler arg.

Fixpoint unlink_timeout (handler : option sys_timeout_handler) (arg : Z) (l : list sys_timeo)
    : option (list sys_timeo) :=
  match l with
  | [] => None
  | t :: l =>
      if bool_decide (to_h t = handler) && (to_arg t =? arg) then Some l
      else match unlink_timeout handler arg l with Some l => Some (t :: l) | None => None end
  end.

Definition sys_untimeout (handler : option sys_timeout_handler) (arg : Z) : ST timers unit :=
  let! s := st_get in
  match unlink_timeout handler arg (next_timeout s) with
  | Some l => st_mod (fun s => s <| next_timeout := l |> <| timeo_free := timeo_free s + 1 |>)
  | None => st_ret tt
  end.

Definition tcp_timer_needed : ST timers unit :=
  let! s := st_get in
  st_when (negb (tcpip_tcp_timer_active s) && tcp_pcbs s)
    (st_mod (fun s => s <| tcpip_tcp_timer_active := true |>) ;;;
     sys_timeout TCP_TMR_INTERVAL (Some tcpip_tcp_timer_h) 0).

Definition run_op (o : timer_op) : ST timers unit :=
  match o with
  | op_timeout msecs h arg => sys_timeout msecs (Some h) arg
  | op_untimeout h arg => sys_untimeout (Some h) arg
  | op_tcp_timer_needed => tcp_timer_needed
  | op_pcbs b => st_mod (fun s => s <| tcp_pcbs := b |>)
  end.

(** The body of the handler that was called last. *)
Definition handler_body (h : sys_timeout_handler) (arg : Z) : ST timers unit :=
  let! s := st_get in
  st_iter run_op (handler_ops (length (timer_calls s)) h arg).

(** [tcp_tmr] is the body. *)
Definition tcpip_tcp_timer (arg : Z) : ST timers unit :=
  handler_body tcpip_tcp_timer_h arg ;;;
  let! s := st_get in
  if tcp_pcbs s then sys_timeout TCP_TMR_INTERVAL (Some tcpip_tcp_timer_h) 0
  else st_mod (fun s => s <| tcpip_tcp_timer_active := false |>).

(** [cyclic->handler] is the body. *)
Definition lwip_cyclic_timer (arg : Z) : ST timers unit :=
  handler_body lwip_cyclic_timer_h arg ;;;
  let! now := sys_now in
  let! s := st_get in
  let next_timeout_time := tick (current_timeout_due_time s + interval_ms arg) in
  if TIME_LESS_THAN next_timeout_time now
  then sys_timeout_abs (tick (now + interval_ms arg)) (Some lwip_cyclic_timer_h) arg
  else sys_timeout_abs next_timeout_time (Some lwip_cyclic_timer_h) arg.

Definition call_handler (h : sys_timeout_handler) (arg : Z) : ST timers unit :=
  st_mod (fun s => s <| timer_calls :=
    mk_call h arg (current_timeout_due_time s) :: timer_calls s |>) ;;;
  match h with
  | lwip_cyclic_timer_h => lwip_cyclic_timer arg
  | tcpip_tcp_timer_h => tcpip_tcp_timer arg
  | app_handler _ => handler_body h arg
  end.

Definition sys_timeouts_init : ST timers unit :=
  st_iter (fun i => sys_timeout (interval_ms i) (Some lwip_cyclic_timer_h) i)
    (seqZ 1 (zlen lwip_cyclic_timers - 1)).

(** The loop of [sys_check_timeouts]; one unit of fuel is one expired timer. *)
Fixpoint check_loop (fuel : nat) (now : Z) : STO timers unit := fun s =>
  match next_timeout s with
  | [] => Some (tt, s)
  | t :: rest =>
      if TIME_LESS_THAN now (to_time t) then Some (tt, s)
      else
        match fuel with
        | O => None
        | S fuel =>
            let s := s <| next_timeout := rest |> <| current_timeout_due_time := to_time t |>
                       <| timeo_free := timeo_free s + 1 |> in
            check_loop fuel now
              (match to_h t with Some h => st_end (call_handler h (to_arg t)) s | None => s end)
        end
  end.

Definition sys_check_timeouts (fuel : nat) : STO timers unit := fun s =>
  let '(now, s) := sys_now s in check_loop fuel now s.

Definition sys_restart_timeouts : ST timers unit :=
  let! s := st_get in
  match next_timeout s with
  | [] => st_ret tt
  | t0 :: _ =>
      let! now := sys_now in
      st_mod (fun s => s <| next_timeout :=
        (fun t => t <| to_time := tick (time_left (to_time t) (to_time t0) + now) |>) <$> next_timeout s |>)
  end.

Definition sys_timeouts_sleeptime : ST timers Z :=
  let! s := st_get in
  match next_timeout s with
  | [] => st_ret SYS_TIMEOUTS_SLEEPTIME_INFINITE
  | t :: _ =>
      let! now := sys_now in
      st_ret (if TIME_LESS_THAN (to_time t) now then 0 else time_left (to_time t) now)
  end.

End timers.
