(* ===== verification/TimeoutsProps.v ===== *)
(** * TimeoutsProps: what the timers of the stack promise

    First, that the wrap-round of the 32-bit clock cannot be seen: every reachable
    state of the timers on [wrapped] is the 32-bit image of a reachable state on
    [ideal], as long as the timers are checked at least once in
    12.4 days, a quarter of the clock's period. Then, for the timers this firmware
    has, that every check returns, calls what is due in order and never early, and
    that the pool of three timers is never exhausted. *)

From stdpp Require Import sorting.
From S2P Require Import Prelude Timeouts.

(** A quarter of the period of the clock: the longest timeout, and the longest the
    timers may go unchecked. *)
Definition QUARTER : Z := 0x3fffffff.

(** ** Reachable states *)

Class TimerEnvOk `{E : TimerEnv} (P : timer_op -> Prop) := {
  clk_mono : forall n, 0 <= n -> clk n <= clk (n + 1);
  ops_legal : forall n h arg, Forall P (handler_ops n h arg) }.

Definition op_ok (o : timer_op) : Prop :=
  match o with op_timeout msecs _ _ => 0 <= msecs <= QUARTER | _ => True end.

(** The time of the latest reading of the clock. *)
Definition last_read `{TimerEnv} (s : timers) : Z := clk (clock_reads s - 1).

(** [treach P a t0]: on the clock that never wraps, a state that the initialisation,
    operations that satisfy [P] and checks lead to, where [t0] is the time of the last
    check (or the start) and the clock has not advanced by more than a quarter of the
    32-bit period since the check before. *)
#[local] Existing Instance ideal.
Inductive treach `{E : TimerEnv} (P : timer_op -> Prop) : timers -> Z -> Prop :=
  | reach_init : clk 1 <= clk 0 + QUARTER -> treach P (st_end sys_timeouts_init timers_start) (clk 0)
  | reach_op a t0 o : treach P a t0 -> P o ->
      last_read (st_end (run_op o) a) <= t0 + QUARTER -> treach P (st_end (run_op o) a) t0
  | reach_check fuel a t0 a' : treach P a t0 -> sys_check_timeouts fuel a = Some (tt, a') ->
      last_read a' <= t0 + QUARTER -> treach P a' (clk (clock_reads a)).

(** ** The 32-bit image of a state *)

Definition wrap_timeo (t : sys_timeo) : sys_timeo := t <| to_time := u32 (to_time t) |>.
Definition wrap_call (c : timer_call) : timer_call := mk_call (tc_handler c) (tc_arg c) (u32 (tc_due c)).
Definition wrap (a : timers) : timers :=
  a <| next_timeout := wrap_timeo <$> next_timeout a |>
    <| current_timeout_due_time := u32 (current_timeout_due_time a) |>
    <| timer_calls := wrap_call <$> timer_calls a |>.

(** Times less than half a period apart compare as the times themselves. *)
Lemma less_wrap a b : -2147483648 <= a - b < 2147483648 ->
  TIME_LESS_THAN (Ticks := wrapped) (u32 a) (u32 b) = TIME_LESS_THAN (Ticks := ideal) a b.
Proof.
  intros Hab. cbn. unfold LWIP_MAX_TIMEOUT, u32. rewrite <- Zminus_mod.
  destruct (Z.ltb_spec a b); zdivmod.
Qed.

Lemma tick_add a b : u32 (u32 a + b) = u32 (a + b).
Proof. unfold u32. by rewrite Zplus_mod_idemp_l. Qed.

Definition near (x : sys_timeo) (l : list sys_timeo) : Prop :=
  Forall (fun t => -2147483648 <= to_time x - to_time t < 2147483648) l.

Lemma link_after_wrap x l : near x l ->
  link_after (H := wrapped) (wrap_timeo x) (wrap_timeo <$> l) = wrap_timeo <$> link_after (H := ideal) x l.
Proof.
  induction l as [|t [|t' l] IH]; intros Hn; [done..|].
  apply Forall_cons in Hn as [_ Hn]. apply Forall_cons in Hn as Hn'. destruct Hn' as [Ht' _].
  rewrite !fmap_cons. cbn [link_after]. change (to_time (wrap_timeo x)) with (u32 (to_time x)).
  change (to_time (wrap_timeo t')) with (u32 (to_time t')). rewrite less_wrap by done.
  case_match; [done|]. rewrite fmap_cons. f_equal. by apply IH.
Qed.

Lemma link_wrap x l : near x l ->
  link_timeout (H := wrapped) (wrap_timeo x) (wrap_timeo <$> l) = wrap_timeo <$> link_timeout (H := ideal) x l.
Proof.
  intros Hn. destruct l as [|t l]; [done|]. apply Forall_cons in Hn as Hn'. destruct Hn' as [Ht _].
  unfold link_timeout. rewrite fmap_cons at 1. change (to_time (wrap_timeo x)) with (u32 (to_time x)).
  change (to_time (wrap_timeo t)) with (u32 (to_time t)). rewrite less_wrap by done.
  case_match; [done|]. by apply link_after_wrap.
Qed.

(** ** Simulation *)

Section simulation.
Context `{E : TimerEnv} {EO : TimerEnvOk op_ok}.

Lemma clk_le n m : 0 <= n <= m -> clk n <= clk m.
Proof.
  intros Hnm. replace m with (n + Z.of_nat (Z.to_nat (m - n))) by lia.
  induction (Z.to_nat (m - n)) as [|k IH]; [by rewrite Z.add_0_r|].
  etrans; [apply IH|]. replace (n + Z.of_nat (S k)) with (n + Z.of_nat k + 1) by lia. apply clk_mono. lia.
Qed.

(** Every timer is due at [t0] or later, and at most a quarter of a period from now;
    the clock has reached [t0]. *)
Record twin (t0 : Z) (a : timers) : Prop := {
  tw_reads : 0 < clock_reads a;
  tw_now : t0 <= last_read a;
  tw_times : Forall (fun t => t0 <= to_time t <= last_read a + QUARTER) (next_timeout a) }.

Lemma last_read_le a b : 0 < clock_reads a <= clock_reads b -> last_read a <= last_read b.
Proof. intros Hab. apply clk_le. lia. Qed.

(** [tsim mw mi]: as long as the clock stays within a quarter of a period of [t0],
    [mw] does on the image of a state what [mi] does on the state. *)
Definition tsim (mw mi : ST timers unit) : Prop :=
  (forall a, clock_reads a <= clock_reads (st_end mi a) /\
             current_timeout_due_time (st_end mi a) = current_timeout_due_time a) /\
  forall t0 a, twin t0 a -> last_read (st_end mi a) <= t0 + QUARTER ->
    st_end mw (wrap a) = wrap (st_end mi a) /\ twin t0 (st_end mi a).

Lemma st_end_seq {A} (m : ST timers A) (k : ST timers unit) s :
  st_end (m ;;; k) s = st_end k (st_end m s).
Proof. unfold st_end, st_bind. by destruct (m s). Qed.

Lemma tsim_seq mw mi kw ki : tsim mw mi -> tsim kw ki -> tsim (mw ;;; kw) (mi ;;; ki).
Proof.
  intros [Hm Hs] [Hm' Hs']. split.
  - intros a. rewrite st_end_seq. destruct (Hm a), (Hm' (st_end mi a)). split; [lia|congruence].
  - intros t0 a Ha Hl. rewrite !st_end_seq in *. destruct (Hm a) as [Hr _], (Hm' (st_end mi a)) as [Hr' _].
    pose proof (tw_reads _ _ Ha). destruct (Hs t0 a Ha) as [Ew Ha'].
    { etrans; [|apply Hl]. apply last_read_le. lia. }
    rewrite Ew. by apply Hs'.
Qed.

Lemma tsim_ret : tsim (st_ret tt) (st_ret tt).
Proof. split; [intros a; cbn; split; [lia|done]|by split]. Qed.

Lemma tsim_iter {B} (f g : B -> ST timers unit) l : Forall (fun x => tsim (f x) (g x)) l ->
  tsim (st_iter f l) (st_iter g l).
Proof.
  induction 1 as [|x l Hx Hl IH]; [apply tsim_ret|]. by apply tsim_seq.
Qed.

(** A program that looks at parts of the state the image shares. *)
Lemma tsim_get (kw ki : timers -> ST timers unit) :
  (forall a, tsim (kw (wrap a)) (ki a)) -> tsim (let! s := st_get in kw s) (let! s := st_get in ki s).
Proof.
  intros Hk. split; [intros a; apply (Hk a)|]. intros t0 a Ha Hl. by apply (Hk a).
Qed.

Lemma tsim_if (b : bool) mw mi kw ki : tsim mw mi -> tsim kw ki ->
  tsim (if b then mw else kw) (if b then mi else ki).
Proof. by destruct b. Qed.

(** Changes of the fields that hold no time. *)
Lemma tsim_mod (f : timers -> timers) :
  (forall a, clock_reads (f a) = clock_reads a) -> (forall a, f (wrap a) = wrap (f a)) ->
  (forall a, current_timeout_due_time (f a) = current_timeout_due_time a) ->
  (forall a, next_timeout (f a) = next_timeout a) -> tsim (st_mod f) (st_mod f).
Proof.
  intros Hr Hw Hd Hn. split; [intros a; unfold st_end, st_mod; cbn; rewrite Hr, Hd; split; [lia|done]|].
  intros t0 a [H1 H2 H3] Hl. unfold st_end, st_mod in *. cbn [snd] in *. rewrite Hw. split; [done|].
  unfold last_read in *. constructor; unfold last_read; rewrite ?Hr, ?Hn; done.
Qed.

(** Arming a timer. *)
Lemma Forall_link (Q : sys_timeo -> Prop) x l : Q x -> Forall Q l -> Forall Q (link_timeout (H := ideal) x l).
Proof.
  intros Hx Hl. destruct l as [|t l]; [by repeat constructor|]. cbn [link_timeout].
  case_match; [by constructor|]. clear - Hx Hl. revert t Hl.
  induction l as [|t' l IH]; intros t Hl; cbn [link_after]; [apply Forall_cons in Hl as [? _]; by repeat constructor|].
  apply Forall_cons in Hl as [Ht Hl]. case_match; [constructor; [done|]; by constructor|]. constructor; [done|]. by apply IH.
Qed.

Lemma abs_sim D h arg a t0 : twin t0 a -> t0 <= D <= last_read a + QUARTER -> last_read a <= t0 + QUARTER ->
  st_end (sys_timeout_abs (H := wrapped) (u32 D) h arg) (wrap a) =
    wrap (st_end (sys_timeout_abs (H := ideal) D h arg) a) /\
  twin t0 (st_end (sys_timeout_abs (H := ideal) D h arg) a).
Proof.
  intros [Hr Hn Ht] HD Hl. unfold sys_timeout_abs, st_end, st_bind, st_get.
  change (timeo_free (wrap a)) with (timeo_free a). destruct (timeo_free a =? 0); [done|].
  cbn [snd st_mod]. split.
  - assert (near (mk_timeo D h arg) (next_timeout a)) as Hnear.
    { eapply Forall_impl; [apply Ht|]. intros t Hb. cbn in *. unfold QUARTER in *. lia. }
    unfold wrap. cbn. rewrite <- link_wrap by done. reflexivity.
  - constructor; [done..|]. cbn. by apply Forall_link.
Qed.

Lemma abs_ideal D h arg a :
  clock_reads (st_end (sys_timeout_abs (H := ideal) D h arg) a) = clock_reads a /\
  current_timeout_due_time (st_end (sys_timeout_abs (H := ideal) D h arg) a) = current_timeout_due_time a.
Proof. unfold sys_timeout_abs, st_end, st_bind, st_get. by case_match. Qed.

Lemma abs_calls D h arg a : timer_calls (st_end (sys_timeout_abs (H := ideal) D h arg) a) = timer_calls a.
Proof. unfold sys_timeout_abs, st_end, st_bind, st_get. by case_match. Qed.

(** Reading the clock. *)
Definition read_clock (a : timers) : timers := a <| clock_reads := clock_reads a + 1 |>.

Lemma last_read_clock a : last_read (read_clock a) = clk (clock_reads a).
Proof. unfold last_read. cbn. f_equal. lia. Qed.

Lemma twin_read t0 a : twin t0 a -> twin t0 (read_clock a).
Proof.
  intros [Hr Hn Ht]. pose proof (last_read_le a (read_clock a)) as Hle. cbn in Hle. specialize (Hle ltac:(lia)).
  constructor; cbn; [lia|lia|]. eapply Forall_impl; [apply Ht|]. cbn. intros t Hb. lia.
Qed.

Lemma timeout_sim msecs h arg : 0 <= msecs <= QUARTER ->
  tsim (sys_timeout (H := wrapped) msecs h arg) (sys_timeout (H := ideal) msecs h arg).
Proof.
  intros Hm. split.
  - intros a. unfold sys_timeout. change (st_end _ a) with
      (st_end (sys_timeout_abs (H := ideal) (clk (clock_reads a) + msecs) h arg) (read_clock a)).
    destruct (abs_ideal (clk (clock_reads a) + msecs) h arg (read_clock a)) as [-> ->]. cbn. split; [lia|done].
  - intros t0 a Ha Hl.
    change (st_end (sys_timeout (H := ideal) msecs h arg) a) with
      (st_end (sys_timeout_abs (H := ideal) (clk (clock_reads a) + msecs) h arg) (read_clock a)) in *.
    change (st_end (sys_timeout (H := wrapped) msecs h arg) (wrap a)) with
      (st_end (sys_timeout_abs (H := wrapped) (u32 (u32 (clk (clock_reads a)) + msecs)) h arg) (wrap (read_clock a))).
    rewrite tick_add. pose proof (twin_read _ _ Ha) as Hb. unfold last_read in Hl at 1.
    rewrite (proj1 (abs_ideal _ _ _ _)) in Hl. fold (last_read (read_clock a)) in Hl.
    pose proof (tw_now _ _ Hb). rewrite last_read_clock in *.
    apply abs_sim; [done|rewrite last_read_clock; lia..].
Qed.

Lemma unlink_wrap h arg l :
  unlink_timeout h arg (wrap_timeo <$> l) = fmap (M := option) (fmap wrap_timeo) (unlink_timeout h arg l).
Proof.
  induction l as [|t l IH]; [done|]. rewrite fmap_cons. cbn [unlink_timeout].
  change (to_h (wrap_timeo t)) with (to_h t). change (to_arg (wrap_timeo t)) with (to_arg t).
  case_match; [done|]. rewrite IH. by destruct (unlink_timeout h arg l).
Qed.

Lemma unlink_sub h arg l l' (Q : sys_timeo -> Prop) : unlink_timeout h arg l = Some l' -> Forall Q l -> Forall Q l'.
Proof.
  revert l'. induction l as [|t l IH]; intros l' Hu Hl; [done|]. apply Forall_cons in Hl as [Ht Hl].
  cbn [unlink_timeout] in Hu. case_match; [by injection Hu as <-|].
  destruct (unlink_timeout h arg l); [|done]. injection Hu as <-. constructor; [done|]. by apply IH.
Qed.

Lemma untimeout_sim h arg : tsim (sys_untimeout h arg) (sys_untimeout h arg).
Proof.
  split.
  - intros a. unfold sys_untimeout, st_end, st_bind, st_get. case_match; cbn; split; lia || done.
  - intros t0 a [Hr Hn Ht] _. unfold sys_untimeout, st_end, st_bind, st_get.
    change (next_timeout (wrap a)) with (wrap_timeo <$> next_timeout a). rewrite unlink_wrap.
    destruct (unlink_timeout h arg (next_timeout a)) as [l|] eqn:Eu; [|done]. split; [done|].
    constructor; [done..|]. cbn. by eapply unlink_sub.
Qed.

Lemma tcp_timer_needed_sim : tsim (tcp_timer_needed (H := wrapped)) (tcp_timer_needed (H := ideal)).
Proof.
  apply tsim_get. intros a. apply tsim_if; [|apply tsim_ret].
  apply tsim_seq; [by apply tsim_mod|]. by apply timeout_sim.
Qed.

Lemma run_op_sim o : op_ok o -> tsim (run_op (H := wrapped) o) (run_op (H := ideal) o).
Proof.
  intros Ho. destruct o; cbn [run_op].
  - by apply timeout_sim.
  - apply untimeout_sim.
  - apply tcp_timer_needed_sim.
  - by apply tsim_mod.
Qed.

Lemma handler_body_sim h arg : tsim (handler_body (H := wrapped) h arg) (handler_body (H := ideal) h arg).
Proof.
  apply tsim_get. intros a. change (timer_calls (wrap a)) with (wrap_call <$> timer_calls a).
  rewrite length_fmap. apply tsim_iter. eapply Forall_impl; [apply ops_legal|]. apply run_op_sim.
Qed.

Lemma tcp_timer_sim arg : tsim (tcpip_tcp_timer (H := wrapped) arg) (tcpip_tcp_timer (H := ideal) arg).
Proof.
  apply tsim_seq; [apply handler_body_sim|]. apply tsim_get. intros a.
  apply tsim_if; [by apply timeout_sim|by apply tsim_mod].
Qed.

(** A cyclic timer that was due at [current_timeout_due_time]. *)
Definition rearm_time (a : timers) (arg : Z) : Z :=
  if current_timeout_due_time a + interval_ms arg <? clk (clock_reads a)
  then clk (clock_reads a) + interval_ms arg else current_timeout_due_time a + interval_ms arg.

Lemma interval_range i : 0 <= interval_ms i <= 1000.
Proof.
  unfold interval_ms, lwip_cyclic_timers. destruct (Z.to_nat i) as [|[|[|n]]]; cbn; lia || done.
Qed.

Lemma cyclic_ideal arg a :
  let b := st_end (handler_body (H := ideal) lwip_cyclic_timer_h arg) a in
  st_end (lwip_cyclic_timer (H := ideal) arg) a =
  st_end (sys_timeout_abs (H := ideal) (rearm_time b arg) (Some lwip_cyclic_timer_h) arg) (read_clock b).
Proof.
  cbn zeta. unfold lwip_cyclic_timer. rewrite st_end_seq.
  set (b := st_end (handler_body (H := ideal) lwip_cyclic_timer_h arg) a).
  unfold st_end at 1, st_bind, sys_now, st_get, rearm_time. cbn.
  change (current_timeout_due_time (b <| clock_reads := clock_reads b + 1 |>)) with (current_timeout_due_time b).
  by case_match.
Qed.

Lemma cyclic_sim t0 a arg : twin t0 a -> t0 <= current_timeout_due_time a <= last_read a ->
  last_read (st_end (lwip_cyclic_timer (H := ideal) arg) a) <= t0 + QUARTER ->
  st_end (lwip_cyclic_timer (H := wrapped) arg) (wrap a) = wrap (st_end (lwip_cyclic_timer (H := ideal) arg) a) /\
  twin t0 (st_end (lwip_cyclic_timer (H := ideal) arg) a).
Proof.
  intros Ha Hd Hl. destruct (handler_body_sim lwip_cyclic_timer_h arg) as [Hm Hs].
  pose proof (cyclic_ideal arg a) as Ec. cbn zeta in Ec. rewrite Ec in *.
  destruct (Hm a) as [Hr Ed]. set (b := st_end (handler_body (H := ideal) lwip_cyclic_timer_h arg) a) in *.
  pose proof (tw_reads _ _ Ha) as Hpos. unfold last_read in Hl at 1. rewrite (proj1 (abs_ideal _ _ _ _)) in Hl.
  fold (last_read (read_clock b)) in Hl. rewrite last_read_clock in Hl.
  assert (last_read b <= clk (clock_reads b)) as Hle by (apply clk_le; lia).
  destruct (Hs t0 a Ha ltac:(fold b; lia)) as [Ew Hb]. fold b in Ew, Hb.
  pose proof (last_read_le a b ltac:(lia)). pose proof (interval_range arg). pose proof (tw_now _ _ Hb).
  assert (st_end (lwip_cyclic_timer (H := wrapped) arg) (wrap a) =
          st_end (sys_timeout_abs (H := wrapped) (u32 (rearm_time b arg)) (Some lwip_cyclic_timer_h) arg)
            (wrap (read_clock b))) as ->.
  { unfold lwip_cyclic_timer. rewrite st_end_seq, Ew. unfold st_end at 1, st_bind, sys_now, st_get, rearm_time.
    change (tick (Ticks := wrapped)) with u32. change (clock_reads (wrap b)) with (clock_reads b).
    change (current_timeout_due_time ((wrap b) <| clock_reads := clock_reads b + 1 |>))
      with (u32 (current_timeout_due_time b)).
    rewrite !tick_add, less_wrap by (unfold QUARTER in *; lia). cbn [TIME_LESS_THAN ideal]. by case_match. }
  apply abs_sim; [by apply twin_read|rewrite last_read_clock..].
  - unfold rearm_time, QUARTER in *. case_if; lia.
  - lia.
Qed.

Lemma call_ideal_mono h arg a :
  clock_reads a <= clock_reads (st_end (call_handler (H := ideal) h arg) a).
Proof.
  unfold call_handler. rewrite st_end_seq. set (b := st_end (st_mod _) a).
  change (clock_reads a) with (clock_reads b). destruct h.
  - rewrite cyclic_ideal, (proj1 (abs_ideal _ _ _ _)).
    etrans; [apply (proj1 (handler_body_sim lwip_cyclic_timer_h arg) b)|].
    set (c := st_end _ b). change (clock_reads (read_clock c)) with (clock_reads c + 1). lia.
  - apply (tcp_timer_sim arg).
  - apply (handler_body_sim (app_handler n) arg).
Qed.

Lemma call_sim t0 a h arg : twin t0 a -> t0 <= current_timeout_due_time a <= last_read a ->
  last_read (st_end (call_handler (H := ideal) h arg) a) <= t0 + QUARTER ->
  st_end (call_handler (H := wrapped) h arg) (wrap a) = wrap (st_end (call_handler (H := ideal) h arg) a) /\
  twin t0 (st_end (call_handler (H := ideal) h arg) a).
Proof.
  intros [Hr Hn Ht] Hd. unfold call_handler. rewrite !st_end_seq.
  set (b := st_end (st_mod _) a). change (st_end (st_mod _) (wrap a)) with (wrap b).
  assert (twin t0 b) as Hb by (by constructor).
  destruct h; [by apply cyclic_sim|by apply tcp_timer_sim|by apply handler_body_sim].
Qed.

Lemma check_loop_mono fuel now : forall a a',
  check_loop (H := ideal) fuel now a = Some (tt, a') -> clock_reads a <= clock_reads a'.
Proof.
  induction fuel as [|fuel IH]; intros a a' E'; cbn [check_loop] in E'.
  - destruct (next_timeout a); [by injection E' as <-|]. case_match; [by injection E' as <-|done].
  - destruct (next_timeout a) as [|t rest]; [by injection E' as <-|]. case_match; [by injection E' as <-|].
    etrans; [|by eapply IH]. destruct (to_h t) as [h|]; [|done].
    set (b := a <| next_timeout := rest |> <| current_timeout_due_time := to_time t |>
                <| timeo_free := timeo_free a + 1 |>).
    change (clock_reads a) with (clock_reads b). apply call_ideal_mono.
Qed.

(** The loop of a check: the image is kept, and nothing that is due is left. *)
Lemma check_loop_sim fuel t0 now : forall a a', twin t0 a -> t0 <= now <= last_read a ->
  check_loop (H := ideal) fuel now a = Some (tt, a') -> last_read a' <= t0 + QUARTER ->
  check_loop (H := wrapped) fuel (u32 now) (wrap a) = Some (tt, wrap a') /\ twin t0 a' /\
  match next_timeout a' with t :: _ => now < to_time t | [] => True end.
Proof.
  induction fuel as [|fuel IH]; intros a a' Ha Hn E' Hl.
  all: pose proof Ha as [Hr Hw Ht]; pose proof (check_loop_mono _ _ _ _ E') as Hm.
  all: pose proof (last_read_le a a' ltac:(lia)) as Hla.
  all: cbn [check_loop] in E' |- *; change (next_timeout (wrap a)) with (wrap_timeo <$> next_timeout a).
  all: destruct (next_timeout a) as [|t rest] eqn:En; [injection E' as <-; by rewrite En|].
  all: apply Forall_cons in Ht as [Ht Hrest]; rewrite fmap_cons.
  all: change (to_time (wrap_timeo t)) with (u32 (to_time t)); rewrite less_wrap by (unfold QUARTER in *; lia).
  all: cbn [TIME_LESS_THAN ideal] in *; destruct (Z.ltb_spec now (to_time t)) as [Hlt|Hge].
  - injection E' as <-. by rewrite En.
  - done.
  - injection E' as <-. by rewrite En.
  - set (b := a <| next_timeout := rest |> <| current_timeout_due_time := to_time t |>
                <| timeo_free := timeo_free a + 1 |>) in *.
    change (_ <| timeo_free := _ |>) with (wrap b).
    assert (twin t0 b) as Hb by (by constructor).
    change (to_h (wrap_timeo t)) with (to_h t). change (to_arg (wrap_timeo t)) with (to_arg t).
    destruct (to_h t) as [h|]; [|by apply IH].
    set (c := st_end (call_handler (H := ideal) h (to_arg t)) b) in *.
    assert (clock_reads a <= clock_reads c) as Hc by apply (call_ideal_mono h (to_arg t) b).
    assert (clock_reads c <= clock_reads a') as Hm' by by eapply check_loop_mono.
    pose proof (last_read_le c a' ltac:(lia)). pose proof (last_read_le a c ltac:(lia)).
    destruct (call_sim t0 b h (to_arg t) Hb) as [-> Hb'].
    + change (last_read b) with (last_read a). change (current_timeout_due_time b) with (to_time t). lia.
    + fold c. lia.
    + fold c in Hb' |- *. apply IH; [done|lia|done|done].
Qed.

Lemma check_sim fuel t0 a a' : twin t0 a -> sys_check_timeouts (H := ideal) fuel a = Some (tt, a') ->
  last_read a' <= t0 + QUARTER ->
  sys_check_timeouts (H := wrapped) fuel (wrap a) = Some (tt, wrap a') /\ twin t0 a' /\
  match next_timeout a' with t :: _ => clk (clock_reads a) < to_time t | [] => True end.
Proof.
  intros Ha. unfold sys_check_timeouts, sys_now. cbn [tick ideal wrapped].
  change ((wrap a) <| clock_reads := clock_reads (wrap a) + 1 |>) with (wrap (read_clock a)).
  change (clock_reads (wrap a)) with (clock_reads a).
  change (a <| clock_reads := clock_reads a + 1 |>) with (read_clock a). intros E' Hl.
  pose proof (twin_read _ _ Ha) as Hb. pose proof (tw_now _ _ Hb). 
  apply (check_loop_sim fuel t0); [done| |done|done]. rewrite last_read_clock in *. lia.
Qed.

(** ** The wrap-round of the clock cannot be seen *)

Lemma init_wrap : clk 1 <= clk 0 + QUARTER ->
  st_end (sys_timeouts_init (H := wrapped)) timers_start = wrap (st_end (sys_timeouts_init (H := ideal)) timers_start) /\
  twin (clk 0) (st_end (sys_timeouts_init (H := ideal)) timers_start).
Proof.
  intros H1. pose proof (clk_mono 0 ltac:(lia)) as H0. change (0 + 1) with 1 in H0.
  set (a := st_end (sys_timeout (H := ideal) 1000 (Some lwip_cyclic_timer_h) 1) timers_start).
  assert (twin (clk 0) a) as Ha.
  { constructor; [done|done|]. constructor; [|constructor]. change (last_read a) with (clk 0). cbn.
    unfold QUARTER. lia. }
  set (f T := fun i => sys_timeout (H := T) (interval_ms i) (Some lwip_cyclic_timer_h) i).
  change (st_end (sys_timeouts_init (H := wrapped)) timers_start) with
    (st_end (f wrapped 1 ;;; st_iter (f wrapped) [2]) timers_start).
  change (st_end (sys_timeouts_init (H := ideal)) timers_start) with
    (st_end (f ideal 1 ;;; st_iter (f ideal) [2]) timers_start).
  rewrite !st_end_seq. change (st_end (f ideal 1) timers_start) with a.
  assert (st_end (f wrapped 1) timers_start = wrap a) as ->.
  { unfold a, wrap. cbn. by rewrite tick_add. }
  eapply tsim_iter; [|done|].
  - constructor; [|constructor]. apply timeout_sim. done.
  - etrans; [|apply H1]. done.
Qed.

(** The list is kept in the order of the due times. *)
Definition earlier (t t' : sys_timeo) : Prop := to_time t <= to_time t'.
Definition in_order (a : timers) : Prop := StronglySorted earlier (next_timeout a).

Lemma in_order_head (l : list sys_timeo) (now : Z) : StronglySorted earlier l ->
  match l with t :: _ => now < to_time t | [] => True end -> Forall (fun t => now < to_time t) l.
Proof.
  intros Hs Hh. destruct Hs as [|t l Hl Ht]; [constructor|].
  constructor; [done|]. eapply Forall_impl; [apply Ht|]. unfold earlier. lia.
Qed.

Lemma link_after_cons x t t' l : link_after (H := ideal) x (t :: t' :: l) =
  if to_time x <? to_time t' then t :: x :: t' :: l else t :: link_after (H := ideal) x (t' :: l).
Proof. done. Qed.

Lemma link_after_perm x t l : link_after (H := ideal) x (t :: l) ≡ₚ x :: t :: l.
Proof.
  revert t. induction l as [|t' l IH]; intros t; [apply Permutation_swap|].
  rewrite link_after_cons. case_if; [apply Permutation_swap|]. rewrite IH. apply Permutation_swap.
Qed.

Lemma link_perm x l : link_timeout (H := ideal) x l ≡ₚ x :: l.
Proof. destruct l as [|t l]; [done|]. cbn [link_timeout]. case_match; [done|]. apply link_after_perm. Qed.

Lemma earlier_trans x t l : to_time x <= to_time t -> Forall (earlier t) l -> Forall (earlier x) l.
Proof. intros Hx Hl. eapply Forall_impl; [apply Hl|]. unfold earlier. lia. Qed.

Lemma link_after_in_order x t l : StronglySorted earlier (t :: l) -> to_time t <= to_time x ->
  StronglySorted earlier (link_after (H := ideal) x (t :: l)).
Proof.
  revert t. induction l as [|t' l IH]; intros t Hs Hge; [by repeat constructor|].
  inversion_clear Hs as [|?? Hl Ht]. apply Forall_cons in Ht as Ht'. destruct Ht' as [Htt' Htl].
  rewrite link_after_cons. destruct (Z.ltb_spec (to_time x) (to_time t')) as [Hlt|Hge'].
  - inversion_clear Hl as [|?? Hl' Ht'l]. constructor; [|by constructor]. constructor; [by constructor|].
    constructor; [unfold earlier; lia|]. apply (earlier_trans _ t'); [lia|done].
  - constructor; [by apply IH|]. rewrite link_after_perm. by constructor.
Qed.

Lemma link_in_order x l : StronglySorted earlier l -> StronglySorted earlier (link_timeout (H := ideal) x l).
Proof.
  intros Hs. destruct l as [|t l]; [by repeat constructor|]. cbn [link_timeout TIME_LESS_THAN ideal].
  destruct (Z.ltb_spec (to_time x) (to_time t)) as [Hlt|Hge]; [|by apply link_after_in_order].
  inversion_clear Hs as [|?? Hl Ht]. constructor; [by constructor|].
  constructor; [unfold earlier; lia|]. apply (earlier_trans _ t); [lia|done].
Qed.

Lemma unlink_in_order h arg l l' : unlink_timeout h arg l = Some l' ->
  StronglySorted earlier l -> StronglySorted earlier l'.
Proof.
  revert l'. induction l as [|t l IH]; intros l' Hu Hs; [done|]. inversion_clear Hs as [|?? Hl Ht].
  cbn [unlink_timeout] in Hu. case_match; [by injection Hu as <-|].
  destruct (unlink_timeout h arg l) as [k|] eqn:Ek; [|done]. injection Hu as <-.
  constructor; [by apply IH|]. by eapply unlink_sub.
Qed.

Lemma abs_order D h arg : st_keeps in_order (sys_timeout_abs (H := ideal) D h arg).
Proof.
  intros a Ha. unfold st_end, sys_timeout_abs, st_bind, st_get. destruct (timeo_free a =? 0); [done|]. by apply link_in_order.
Qed.

Lemma timeout_order ms h arg : st_keeps in_order (sys_timeout (H := ideal) ms h arg).
Proof. intros a Ha. by apply abs_order. Qed.

Lemma run_op_order o : st_keeps in_order (run_op (H := ideal) o).
Proof.
  destruct o; cbn [run_op].
  - apply timeout_order.
  - intros a Ha. unfold st_end, sys_untimeout, st_bind, st_get. case_match eqn:Eu; [|done]. by eapply unlink_in_order.
  - intros a Ha. unfold st_end, tcp_timer_needed, st_bind, st_get, st_when. case_match; [|done]. by apply timeout_order.
  - by intros a Ha.
Qed.

Lemma body_order h arg : st_keeps in_order (handler_body (H := ideal) h arg).
Proof.
  intros a Ha. change (in_order (st_end (st_iter run_op (handler_ops (length (timer_calls a)) h arg)) a)).
  apply st_keeps_iter; [|done]. intros o. apply run_op_order.
Qed.

Lemma call_order h arg : st_keeps in_order (call_handler (H := ideal) h arg).
Proof.
  apply st_keeps_bind; [by intros a Ha|]. intros _. destruct h; [| |apply body_order].
  - intros a Ha. change (snd (lwip_cyclic_timer arg a)) with (st_end (lwip_cyclic_timer (H := ideal) arg) a).
    rewrite cyclic_ideal. apply abs_order. by apply (body_order lwip_cyclic_timer_h arg).
  - apply st_keeps_bind; [apply body_order|]. intros _ a Ha. unfold st_end, st_bind, st_get.
    case_match; [by apply timeout_order|done].
Qed.

Lemma check_loop_order fuel now : forall a a',
  check_loop (H := ideal) fuel now a = Some (tt, a') -> in_order a -> in_order a'.
Proof.
  induction fuel as [|fuel IH]; intros a a' E' Ha; cbn [check_loop] in E'.
  - destruct (next_timeout a); [by injection E' as <-|]. case_match; [by injection E' as <-|done].
  - destruct (next_timeout a) as [|t rest] eqn:En; [by injection E' as <-|]. case_match; [by injection E' as <-|].
    eapply IH; [done|]. unfold in_order in Ha. rewrite En in Ha. inversion_clear Ha as [|?? Hl Ht].
    destruct (to_h t) as [h|]; [|done]. by apply (call_order h (to_arg t)).
Qed.

Lemma treach_inv P a t0 : (forall o, P o -> op_ok o) -> treach P a t0 -> twin t0 a /\ in_order a.
Proof.
  intros HP. induction 1 as [H1|a t0 o Ha [IH1 IH2] Ho Hl|fuel a t0 a' Ha [IH1 IH2] Ec Hl].
  - split; [by apply init_wrap|]. unfold sys_timeouts_init. apply st_keeps_iter; [|by constructor].
    intros i. apply timeout_order.
  - split; [apply (proj2 (run_op_sim o (HP o Ho)) t0 a IH1 Hl)|by apply run_op_order].
  - destruct (check_sim fuel t0 a a' IH1 Ec Hl) as (_ & Hw & Hh).
    assert (in_order a') as Hs by (eapply (check_loop_order _ _ (read_clock a)); [exact Ec|exact IH2]).
    split; [|done]. pose proof (in_order_head _ _ Hs Hh) as Hall. destruct Hw as [Hr Hn Ht].
    pose proof (check_loop_mono _ _ _ _ Ec) as Hm. pose proof (tw_reads _ _ IH1) as Hpos.
    change (clock_reads (read_clock a) <= clock_reads a') in Hm. change (clock_reads (read_clock a)) with (clock_reads a + 1) in Hm.
    constructor; [done|apply clk_le; lia|]. clear Hh. apply Forall_forall. intros t Hin.
    rewrite Forall_forall in Hall, Ht. specialize (Hall t Hin). specialize (Ht t Hin). lia.
Qed.
End simulation.

Lemma restart_times_wrap (d now : Z) (l : list sys_timeo) :
  (fun t => t <| to_time := u32 (u32 (to_time t - u32 d) + u32 now) |>) <$> (wrap_timeo <$> l) =
  wrap_timeo <$> ((fun t => t <| to_time := to_time t - d + now |>) <$> l).
Proof.
  rewrite <- !list_fmap_compose. apply list_fmap_ext. intros _ t _. unfold compose, wrap_timeo.
  change (to_time (t <| to_time := u32 (to_time t) |>)) with (u32 (to_time t)).
  assert (u32 (u32 (u32 (to_time t) - u32 d) + u32 now) = u32 (to_time t - d + now)) as ->; [|done].
  unfold u32. by rewrite <- Zminus_mod, <- Zplus_mod.
Qed.

(** C33: the wrap-round of the 32-bit clock is invisible. In every state that the
    timers can reach when they are checked at least every 12.4 days and no timeout is
    longer than that (the limit lwIP documents), on a clock that never wraps, the code
    does on the 32-bit image of the state exactly what it does there: every operation
    of the module and every check leaves the image of the same state, having called the
    same handlers in the same order, and the time to the next timeout is the same. *)
Theorem wrap_transparent `{E : TimerEnv, !TimerEnvOk op_ok} (a : timers) (t0 : Z) :
  treach op_ok a t0 ->
  (forall o, op_ok o -> last_read (st_end (run_op (H := ideal) o) a) <= t0 + QUARTER ->
     st_end (run_op (H := wrapped) o) (wrap a) = wrap (st_end (run_op (H := ideal) o) a)) /\
  (forall fuel a', sys_check_timeouts (H := ideal) fuel a = Some (tt, a') -> last_read a' <= t0 + QUARTER ->
     sys_check_timeouts (H := wrapped) fuel (wrap a) = Some (tt, wrap a')) /\
  (clk (clock_reads a) <= t0 + QUARTER ->
     st_val (sys_timeouts_sleeptime (H := wrapped)) (wrap a) = st_val (sys_timeouts_sleeptime (H := ideal)) a) /\
  st_end (sys_restart_timeouts (H := wrapped)) (wrap a) = wrap (st_end (sys_restart_timeouts (H := ideal)) a).
Proof.
  intros Hr. destruct (treach_inv _ _ _ (fun o Ho => Ho) Hr) as [Ha Hs]. split_and!.
  - intros o Ho Hl. apply (proj2 (run_op_sim o Ho) t0 a Ha Hl).
  - intros fuel a' Ec Hl. by apply (check_sim fuel t0 a a').
  - intros Hl. unfold st_val, sys_timeouts_sleeptime, st_bind, st_get, sys_now, st_ret. cbn [fst snd].
    change (next_timeout (wrap a)) with (wrap_timeo <$> next_timeout a).
    destruct (next_timeout a) as [|t l] eqn:En; [done|]. rewrite fmap_cons. cbn [fst snd].
    change (to_time (wrap_timeo t)) with (u32 (to_time t)). change (clock_reads (wrap a)) with (clock_reads a).
    destruct Ha as [Hpos Hn Ht]. rewrite En in Ht. apply Forall_cons in Ht as [Ht _].
    assert (last_read a <= clk (clock_reads a)) by (apply clk_le; lia).
    change (tick (Ticks := wrapped)) with u32. rewrite less_wrap by (unfold QUARTER in *; lia).
    cbn [TIME_LESS_THAN ideal tick time_left wrapped]. case_if; [done|].
    unfold u32. rewrite <- Zminus_mod. apply Z.mod_small. unfold QUARTER in *. lia.
  - unfold st_end, sys_restart_timeouts, st_bind, st_get, sys_now, st_mod. cbn [fst snd].
    change (next_timeout (wrap a)) with (wrap_timeo <$> next_timeout a).
    destruct (next_timeout a) as [|t l] eqn:En; [done|]. rewrite fmap_cons. cbn [fst snd].
    pose proof (restart_times_wrap (to_time t) (clk (clock_reads a)) (next_timeout a)) as Er.
    cbn in Er |- *. by rewrite Er.
Qed.

(** ** The timers of the firmware *)

(** Outside this module the firmware only asks for the TCP timer, when a connection is
    registered; no other timers are created. *)
Definition fw_op (o : timer_op) : Prop :=
  match o with op_tcp_timer_needed | op_pcbs _ => True | _ => False end.

#[export] Instance fw_env_ok `{E : TimerEnv, !TimerEnvOk fw_op} : TimerEnvOk op_ok.
Proof.
  split; [apply clk_mono|]. intros n h arg. eapply Forall_impl; [apply ops_legal|]. by intros [].
Qed.

(** The timers pending, without their times. *)
Definition timer_key (t : sys_timeo) : option sys_timeout_handler * Z := (to_h t, to_arg t).
Definition cyclic_key (i : Z) : option sys_timeout_handler * Z := (Some lwip_cyclic_timer_h, i).
Definition tcp_keys (a : timers) : list (option sys_timeout_handler * Z) :=
  if tcpip_tcp_timer_active a then [(Some tcpip_tcp_timer_h, 0)] else [].

(** [pool base a]: pending are the timers of [base] and the TCP timer when it is
    active, and the other elements of the pool are free. *)
Definition pool (base : list (option sys_timeout_handler * Z)) (a : timers) : Prop :=
  (timer_key <$> next_timeout a) ≡ₚ base ++ tcp_keys a /\
  timeo_free a = MEMP_NUM_SYS_TIMEOUT - zlen (next_timeout a).

Section firmware.
Context `{E : TimerEnv} {EO : TimerEnvOk fw_op}.
#[local] Existing Instance ideal.

(** [grown b c]: from [b] to [c] time has passed and timers were added, all due later
    than the clock showed in [b]. *)
Definition grown (b c : timers) : Prop :=
  0 < clock_reads b <= clock_reads c /\ current_timeout_due_time c = current_timeout_due_time b /\
  timer_calls c = timer_calls b /\
  exists new, next_timeout c ≡ₚ new ++ next_timeout b /\ Forall (fun t => last_read b < to_time t) new.

Lemma grown_refl b : 0 < clock_reads b -> grown b b.
Proof. intros Hb. split_and!; [lia..|done|done|]. exists []. by split. Qed.

Lemma grown_trans b c d : grown b c -> grown c d -> grown b d.
Proof.
  intros (H1 & H2 & H3 & n1 & H4 & H5) (K1 & K2 & K3 & n2 & K4 & K5).
  split_and!; [lia..|congruence|congruence|]. exists (n2 ++ n1). split.
  - by rewrite K4, H4, app_assoc.
  - apply Forall_app. split; [|done]. eapply Forall_impl; [apply K5|]. cbn. intros t Ht.
    pose proof (clk_le (clock_reads b - 1) (clock_reads c - 1) ltac:(lia)). unfold last_read in *. lia.
Qed.

(** Arming a timer with a free element in the pool. *)
Lemma abs_grown D h arg b : 0 < clock_reads b -> last_read b < D -> timeo_free b <> 0 ->
  grown b (st_end (sys_timeout_abs D h arg) b).
Proof.
  intros Hb HD Hf. unfold st_end, sys_timeout_abs, st_bind, st_get.
  destruct (Z.eqb_spec (timeo_free b) 0); [done|]. split_and!; [cbn; lia..|done|done|].
  exists [mk_timeo D h arg]. split; [apply link_perm|by repeat constructor].
Qed.

Lemma abs_keys D h arg b : timeo_free b = MEMP_NUM_SYS_TIMEOUT - zlen (next_timeout b) -> timeo_free b <> 0 ->
  let c := st_end (sys_timeout_abs D h arg) b in
  next_timeout c ≡ₚ mk_timeo D h arg :: next_timeout b /\
  timeo_free c = MEMP_NUM_SYS_TIMEOUT - zlen (next_timeout c) /\
  tcpip_tcp_timer_active c = tcpip_tcp_timer_active b.
Proof.
  intros Hp Hf. cbn zeta. unfold st_end, sys_timeout_abs, st_bind, st_get.
  destruct (Z.eqb_spec (timeo_free b) 0); [done|]. split_and!; [apply link_perm| |done]. cbn.
  assert (zlen (link_timeout (mk_timeo D h arg) (next_timeout b)) = zlen (mk_timeo D h arg :: next_timeout b)) as ->.
  { unfold zlen. by rewrite (Permutation_length (link_perm _ _)). }
  rewrite zlen_cons. lia.
Qed.

(** [sys_timeout] is arming after a reading of the clock. *)
Lemma timeout_abs ms h arg a :
  st_end (sys_timeout ms h arg) a = st_end (sys_timeout_abs (clk (clock_reads a) + ms) h arg) (read_clock a).
Proof. done. Qed.

Lemma grown_read b : 0 < clock_reads b -> grown b (read_clock b).
Proof. intros Hb. split_and!; [cbn; lia..|done|done|]. exists []. by split. Qed.

(** [tcp_timer_needed] arms the TCP timer only when it is not active. *)
Lemma run_op_fw base o a : fw_op o -> zlen base <= 2 -> 0 < clock_reads a -> pool base a ->
  pool base (st_end (run_op o) a) /\ grown a (st_end (run_op o) a).
Proof.
  intros Ho Hb Hr [Hk Hf]. destruct o; [done|done| |]; cbn [run_op]; [|split; [done|by apply (grown_refl a)]].
  unfold tcp_timer_needed, st_end, st_bind, st_get, st_when. cbn [fst snd].
  destruct (negb (tcpip_tcp_timer_active a) && tcp_pcbs a) eqn:Eb; [|split; [done|by apply grown_refl]].
  apply andb_true_iff in Eb as [Eact _]. apply negb_true_iff in Eact.
  set (b := a <| tcpip_tcp_timer_active := true |>).
  change (snd _) with (st_end (sys_timeout TCP_TMR_INTERVAL (Some tcpip_tcp_timer_h) 0) b). rewrite timeout_abs.
  assert (timeo_free (read_clock b) <> 0) as Hfree.
  { cbn. rewrite Hf. apply Permutation_length in Hk. rewrite length_fmap, length_app in Hk.
    unfold tcp_keys in Hk. rewrite Eact in Hk. cbn in Hk. unfold zlen, MEMP_NUM_SYS_TIMEOUT in *. lia. }
  split.
  - destruct (abs_keys (clk (clock_reads b) + TCP_TMR_INTERVAL) (Some tcpip_tcp_timer_h) 0 (read_clock b) Hf Hfree)
      as (Hn & Hp & Ha). split; [|done]. rewrite Hn. unfold tcp_keys in *. rewrite Ha. rewrite Eact in Hk.
    cbn. rewrite Hk, app_nil_r. apply Permutation_cons_append.
  - eapply (grown_trans _ (read_clock b)).
    + exact (grown_read a Hr).
    + apply abs_grown; [cbn; lia| |done]. rewrite last_read_clock. unfold TCP_TMR_INTERVAL. lia.
Qed.

Lemma body_fw base h arg a : zlen base <= 2 -> 0 < clock_reads a -> pool base a ->
  pool base (st_end (handler_body h arg) a) /\ grown a (st_end (handler_body h arg) a).
Proof.
  intros Hb Hr Hp. change (st_end (handler_body h arg) a) with
    (st_end (st_iter run_op (handler_ops (length (timer_calls a)) h arg)) a).
  generalize (ops_legal (length (timer_calls a)) h arg). generalize (handler_ops (length (timer_calls a)) h arg).
  intros l Hl. revert a Hr Hp. induction Hl as [|o l Ho Hl IH]; intros a Hr Hp; [split; [done|by apply grown_refl]|].
  cbn [st_iter]. rewrite st_end_seq. destruct (run_op_fw base o a Ho Hb Hr Hp) as [Hp' Hg].
  destruct (IH (st_end (run_op o) a)) as [Hp'' Hg']; [destruct Hg; lia|done|]. split; [done|by eapply grown_trans].
Qed.

(** While the TCP timer runs, it is active but not pending: nothing arms it again. *)
Lemma tcp_body_fw a h arg : tcpip_tcp_timer_active a = true -> 0 < clock_reads a ->
  let b := st_end (handler_body h arg) a in
  next_timeout b = next_timeout a /\ timeo_free b = timeo_free a /\ tcpip_tcp_timer_active b = true /\
  clock_reads b = clock_reads a /\ current_timeout_due_time b = current_timeout_due_time a /\
  timer_calls b = timer_calls a.
Proof.
  intros Ha Hr. cbn zeta. change (st_end (handler_body h arg) a) with
    (st_end (st_iter run_op (handler_ops (length (timer_calls a)) h arg)) a).
  generalize (ops_legal (length (timer_calls a)) h arg). generalize (handler_ops (length (timer_calls a)) h arg).
  intros l Hl. revert a Ha Hr. induction Hl as [|o l Ho Hl IH]; intros a Ha Hr; [done|].
  cbn [st_iter]. rewrite st_end_seq. destruct o; [done|done| |].
  - assert (st_end (run_op op_tcp_timer_needed) a = a) as ->; [|by apply IH].
    unfold st_end, run_op, tcp_timer_needed, st_bind, st_get, st_when. by rewrite Ha.
  - destruct (IH (st_end (run_op (op_pcbs b)) a) Ha Hr) as (? & ? & ? & ? & ? & ?). by split_and!.
Qed.

(** ** A check *)

Definition fw_timers : list (option sys_timeout_handler * Z) := [cyclic_key 1; cyclic_key 2].

(** How often a timer can still be called in a check that began at [now]. *)
Definition turns (now : Z) (t : sys_timeo) : nat :=
  if to_time t <? now then 2 else if to_time t =? now then 1 else 0.
Definition total_turns (now : Z) (l : list sys_timeo) : nat := sum_list (turns now <$> l).

Lemma total_turns_perm now l k : l ≡ₚ k -> total_turns now l = total_turns now k.
Proof. unfold total_turns. intros Hp. induction Hp; cbn in *; lia. Qed.

Lemma total_turns_app now l k : total_turns now (l ++ k) = (total_turns now l + total_turns now k)%nat.
Proof. unfold total_turns. induction l as [|t l IH]; cbn in *; lia. Qed.

Lemma total_turns_later now l : Forall (fun t => now < to_time t) l -> total_turns now l = 0%nat.
Proof. induction 1 as [|t l Ht Hl IH]; [done|]. unfold total_turns in *. cbn. rewrite IH. unfold turns. repeat case_if; lia. Qed.

(** The state in which a handler is called: the timer taken off the list. *)
Definition popped (t : sys_timeo) (rest : list sys_timeo) (a : timers) : timers :=
  a <| next_timeout := rest |> <| current_timeout_due_time := to_time t |> <| timeo_free := timeo_free a + 1 |>.

Definition calling (t : sys_timeo) (h : sys_timeout_handler) (rest : list sys_timeo) (a : timers) : timers :=
  (popped t rest a) <| timer_calls := mk_call h (to_arg t) (to_time t) :: timer_calls a |>.

(** What a call does: the other timers stay, what it adds is due at or after the
    reading of the clock, and a timer that was due now is not due again in this check. *)
Record called (t : sys_timeo) (h : sys_timeout_handler) (rest : list sys_timeo) (now : Z) (a c : timers) : Prop := {
  cd_pool : pool fw_timers c;
  cd_reads : clock_reads a <= clock_reads c;
  cd_calls : timer_calls c = mk_call h (to_arg t) (to_time t) :: timer_calls a;
  cd_new : exists new, next_timeout c ≡ₚ new ++ rest /\ Forall (fun t' => now <= to_time t') new /\
             (total_turns now new < turns now t)%nat;
  cd_period : h = lwip_cyclic_timer_h -> last_read c <= to_time t + interval_ms (to_arg t) ->
     mk_timeo (to_time t + interval_ms (to_arg t)) (to_h t) (to_arg t) ∈ next_timeout c }.

Lemma turns_cons now t l : total_turns now (t :: l) = (turns now t + total_turns now l)%nat.
Proof. done. Qed.

(** A cyclic timer, with the other one in [base]. *)
Lemma cyclic_fw base t rest now a :
  pool base (calling t lwip_cyclic_timer_h rest a) -> zlen base = 1 ->
  cyclic_key (to_arg t) :: base ≡ₚ fw_timers -> interval_ms (to_arg t) = 1000 ->
  to_h t = Some lwip_cyclic_timer_h -> 0 < clock_reads a -> to_time t <= now <= last_read a ->
  called t lwip_cyclic_timer_h rest now a
    (st_end (lwip_cyclic_timer (to_arg t)) (calling t lwip_cyclic_timer_h rest a)).
Proof.
  intros Hp Hb Hk Hi Eh Hr Hnow. rewrite cyclic_ideal. set (b := calling t lwip_cyclic_timer_h rest a) in *.
  destruct (body_fw base lwip_cyclic_timer_h (to_arg t) b ltac:(lia) Hr Hp) as [[Hk' Hf'] (Hrd & Hdue & Hcalls & new & Hnew & Hlate)].
  set (b' := st_end (handler_body lwip_cyclic_timer_h (to_arg t)) b) in *.
  assert (now <= clk (clock_reads b')) as Hclk.
  { etrans; [apply Hnow|]. apply clk_le. change (clock_reads b) with (clock_reads a) in Hrd. lia. }
  assert (timeo_free (read_clock b') <> 0) as Hfree.
  { change (timeo_free b' <> 0). rewrite Hf'. apply Permutation_length in Hk'. rewrite length_fmap, length_app in Hk'.
    unfold tcp_keys in Hk'. unfold zlen, MEMP_NUM_SYS_TIMEOUT in *. destruct (tcpip_tcp_timer_active b'); cbn in Hk'; lia. }
  destruct (abs_keys (rearm_time b' (to_arg t)) (Some lwip_cyclic_timer_h) (to_arg t) (read_clock b') Hf' Hfree)
    as (Hn & Hp' & Hact).
  destruct (abs_ideal (rearm_time b' (to_arg t)) (Some lwip_cyclic_timer_h) (to_arg t) (read_clock b')) as [Hrc _].
  set (c := st_end _ (read_clock b')) in *. change (clock_reads (read_clock b')) with (clock_reads b' + 1) in Hrc.
  assert (rearm_time b' (to_arg t) = if to_time t + 1000 <? clk (clock_reads b') then clk (clock_reads b') + 1000
                                     else to_time t + 1000) as Hre.
  { unfold rearm_time. rewrite Hi, Hdue. done. }
  constructor.
  - split; [|done]. rewrite Hn. unfold tcp_keys. rewrite Hact.
    change (next_timeout (read_clock b')) with (next_timeout b').
    change (tcpip_tcp_timer_active (read_clock b')) with (tcpip_tcp_timer_active b'). fold (tcp_keys b').
    rewrite fmap_cons, Hk'. change (timer_key _) with (cyclic_key (to_arg t)). rewrite app_comm_cons. by rewrite Hk.
  - change (clock_reads b) with (clock_reads a) in Hrd. lia.
  - unfold c. rewrite abs_calls. change (timer_calls b' = timer_calls b). done.
  - exists (mk_timeo (rearm_time b' (to_arg t)) (Some lwip_cyclic_timer_h) (to_arg t) :: new). split_and!.
    + rewrite Hn. cbn. by rewrite Hnew.
    + constructor; [cbn; rewrite Hre; case_if; lia|]. eapply Forall_impl; [apply Hlate|].
      change (last_read b) with (last_read a). cbn. lia.
    + rewrite turns_cons, (total_turns_later now new).
      * assert (now <= rearm_time b' (to_arg t) /\ (to_time t = now -> now < rearm_time b' (to_arg t))) as [Hge Heq]
          by (rewrite Hre; case_if; lia).
        unfold turns. cbn [to_time]. destruct (Z.ltb_spec (rearm_time b' (to_arg t)) now),
          (Z.eqb_spec (rearm_time b' (to_arg t)) now), (Z.ltb_spec (to_time t) now), (Z.eqb_spec (to_time t) now); lia.
      * eapply Forall_impl; [apply Hlate|]. change (last_read b) with (last_read a). cbn. lia.
  - intros _ Hl. rewrite Hn, Eh, Hi in *. unfold last_read in Hl. rewrite Hrc in Hl.
    replace (clock_reads b' + 1 - 1) with (clock_reads b') in Hl by lia.
    rewrite Hre. case_if; [lia|]. apply list_elem_of_here.
Qed.

(** The TCP timer: armed again while there are connections. *)
Lemma tcp_fw t rest now a :
  (timer_key <$> rest) ≡ₚ fw_timers -> timeo_free a + 1 = MEMP_NUM_SYS_TIMEOUT - zlen rest ->
  tcpip_tcp_timer_active a = true -> 0 < clock_reads a -> to_time t <= now <= last_read a ->
  called t tcpip_tcp_timer_h rest now a
    (st_end (tcpip_tcp_timer (to_arg t)) (calling t tcpip_tcp_timer_h rest a)).
Proof.
  intros Hk Hf Ha Hr Hnow. unfold tcpip_tcp_timer. rewrite st_end_seq. set (b := calling t tcpip_tcp_timer_h rest a).
  destruct (tcp_body_fw b tcpip_tcp_timer_h (to_arg t) Ha Hr) as (Hn & Hf' & Hact & Hrd & _ & Hcalls).
  set (b' := st_end (handler_body tcpip_tcp_timer_h (to_arg t)) b) in *.
  change (next_timeout b) with rest in Hn. change (clock_reads b) with (clock_reads a) in Hrd.
  change (timeo_free b) with (timeo_free a + 1) in Hf'.
  assert (0 < turns now t)%nat as Hturn by (unfold turns; repeat case_if; lia).
  unfold st_end at 1, st_bind, st_get. destruct (tcp_pcbs b').
  2: { constructor; cbn.
    - split; [change (timer_key <$> next_timeout b' ≡ₚ fw_timers); by rewrite Hn|].
      change (timeo_free b' = MEMP_NUM_SYS_TIMEOUT - zlen (next_timeout b')). rewrite Hn. lia.
    - lia.
    - done.
    - exists []. by rewrite Hn.
    - done. }
  change (snd _) with (st_end (sys_timeout TCP_TMR_INTERVAL (Some tcpip_tcp_timer_h) 0) b'). rewrite timeout_abs.
  assert (length rest = 2%nat) as Hlen by (apply Permutation_length in Hk; by rewrite length_fmap in Hk).
  assert (timeo_free (read_clock b') = MEMP_NUM_SYS_TIMEOUT - zlen (next_timeout (read_clock b'))) as Hf''.
  { change (timeo_free b' = MEMP_NUM_SYS_TIMEOUT - zlen (next_timeout b')). rewrite Hn. lia. }
  assert (timeo_free (read_clock b') <> 0) as Hfree.
  { rewrite Hf''. change (next_timeout (read_clock b')) with (next_timeout b'). rewrite Hn. unfold zlen.
    rewrite Hlen. done. }
  set (D := clk (clock_reads b') + TCP_TMR_INTERVAL).
  assert (now < D) as HD.
  { assert (last_read a <= clk (clock_reads b')) by (apply clk_le; lia). unfold D, TCP_TMR_INTERVAL. lia. }
  destruct (abs_keys D (Some tcpip_tcp_timer_h) 0 (read_clock b') Hf'' Hfree) as (Hn' & Hp' & Hact').
  destruct (abs_ideal D (Some tcpip_tcp_timer_h) 0 (read_clock b')) as [Hrc _].
  pose proof (abs_calls D (Some tcpip_tcp_timer_h) 0 (read_clock b')) as Hcs.
  set (c := st_end _ (read_clock b')) in *. change (next_timeout (read_clock b')) with (next_timeout b') in Hn'.
  rewrite Hn in Hn'. constructor.
  - split; [|done]. rewrite Hn', fmap_cons, Hk. unfold tcp_keys. rewrite Hact'.
    change (tcpip_tcp_timer_active (read_clock b')) with (tcpip_tcp_timer_active b'). rewrite Hact.
    apply Permutation_cons_append.
  - rewrite Hrc. change (clock_reads a <= clock_reads b' + 1). lia.
  - rewrite Hcs. exact Hcalls.
  - exists [mk_timeo D (Some tcpip_tcp_timer_h) 0]. split_and!.
    + by rewrite Hn'.
    + repeat constructor. cbn. lia.
    + rewrite total_turns_later; [done|]. by repeat constructor.
  - done.
Qed.

Lemma call_fw t rest h now a : pool fw_timers a -> next_timeout a = t :: rest -> to_h t = Some h ->
  0 < clock_reads a -> to_time t <= now <= last_read a ->
  called t h rest now a (st_end (call_handler h (to_arg t)) (popped t rest a)).
Proof.
  intros [Hk Hf] En Eh Hr Hnow. rewrite En, fmap_cons in Hk. rewrite En, zlen_cons in Hf.
  unfold timer_key in Hk at 1. rewrite Eh in Hk. unfold call_handler. rewrite st_end_seq.
  change (st_end (st_mod _) (popped t rest a)) with (calling t h rest a).
  destruct h as [| |n].
  - assert (to_arg t = 1 \/ to_arg t = 2) as Harg.
    { assert (cyclic_key (to_arg t) ∈ fw_timers ++ tcp_keys a) as Hin by (rewrite <- Hk; apply list_elem_of_here).
      unfold fw_timers, tcp_keys in Hin. destruct (tcpip_tcp_timer_active a); cbn in Hin;
        repeat (apply elem_of_cons in Hin as [Hin|Hin]; [first [done|injection Hin; tauto]|]); by apply not_elem_of_nil in Hin. }
    apply (cyclic_fw [cyclic_key (3 - to_arg t)]); try done.
    + split; [|change (timeo_free a + 1 = MEMP_NUM_SYS_TIMEOUT - zlen rest); lia].
      change (timer_key <$> rest ≡ₚ cyclic_key (3 - to_arg t) :: tcp_keys a).
      apply (Permutation_cons_inv (a := cyclic_key (to_arg t))). etrans; [exact Hk|].
      destruct Harg as [-> | ->]; [done|]. apply Permutation_swap.
    + destruct Harg as [-> | ->]; [done|]. apply Permutation_swap.
    + by destruct Harg as [-> | ->].
  - assert (tcpip_tcp_timer_active a = true) as Hact.
    { destruct (tcpip_tcp_timer_active a) eqn:Ea; [done|]. unfold tcp_keys in Hk. rewrite Ea in Hk.
      assert ((Some tcpip_tcp_timer_h, to_arg t) ∈ fw_timers ++ []) as Hin by (rewrite <- Hk; apply list_elem_of_here).
      unfold fw_timers in Hin. cbn in Hin.
      repeat (apply elem_of_cons in Hin as [Hin|Hin]; [done|]). by apply not_elem_of_nil in Hin. }
    apply tcp_fw; try done; [|lia]. unfold tcp_keys in Hk. rewrite Hact in Hk.
    apply (Permutation_cons_inv (a := (Some tcpip_tcp_timer_h, 0))).
    rewrite (Permutation_cons_append fw_timers), <- Hk.
    assert (to_arg t = 0) as ->; [|done].
    assert ((Some tcpip_tcp_timer_h, to_arg t) ∈ fw_timers ++ [(Some tcpip_tcp_timer_h, 0)]) as Hin
      by (rewrite <- Hk; apply list_elem_of_here).
    cbn in Hin. repeat (apply elem_of_cons in Hin as [Hin|Hin]; [by injection Hin|]). by apply not_elem_of_nil in Hin.
  - assert ((Some (app_handler n), to_arg t) ∈ fw_timers ++ tcp_keys a) as Hin by (rewrite <- Hk; apply list_elem_of_here).
    unfold fw_timers, tcp_keys in Hin. destruct (tcpip_tcp_timer_active a); cbn in Hin;
      repeat (apply elem_of_cons in Hin as [Hin|Hin]; [done|]); by apply not_elem_of_nil in Hin.
Qed.

(** What a check that began at [now] has done between [a] and [c]. *)
Record checked (lo now : Z) (a c : timers) (cs : list timer_call) : Prop := {
  ck_pool : pool fw_timers c;
  ck_reads : clock_reads a <= clock_reads c;
  ck_left : Forall (fun t => now < to_time t) (next_timeout c);
  ck_calls : timer_calls c = cs ++ timer_calls a;
  ck_order : StronglySorted (fun c1 c2 => tc_due c2 <= tc_due c1) cs;
  ck_due : Forall (fun k => lo <= tc_due k <= now) cs;
  ck_kept : forall t, t ∈ next_timeout a -> now < to_time t -> t ∈ next_timeout c;
  ck_called : forall t h, t ∈ next_timeout a -> to_h t = Some h -> to_time t <= now ->
    mk_call h (to_arg t) (to_time t) ∈ cs;
  ck_period : forall t, t ∈ next_timeout a -> to_h t = Some lwip_cyclic_timer_h -> to_time t <= now ->
    last_read c < to_time t + interval_ms (to_arg t) ->
    mk_timeo (to_time t + interval_ms (to_arg t)) (to_h t) (to_arg t) ∈ next_timeout c }.

Lemma sorted_snoc {A} (R : A -> A -> Prop) l x : StronglySorted R l -> Forall (fun y => R y x) l ->
  StronglySorted R (l ++ [x]).
Proof.
  induction 1 as [|y l Hl IH Hy]; intros Hx; [by repeat constructor|]. apply Forall_cons in Hx as [Hyx Hx].
  cbn. constructor; [by apply IH|]. apply Forall_app. by split; [|constructor].
Qed.

(** One call, then the rest of the check. *)
Lemma checked_step t rest h lo now a b c cs : next_timeout a = t :: rest -> to_h t = Some h ->
  0 < clock_reads a -> lo <= to_time t <= now -> now <= last_read a ->
  called t h rest now a b -> checked (to_time t) now b c cs ->
  checked lo now a c (cs ++ [mk_call h (to_arg t) (to_time t)]).
Proof.
  intros En Eh Hr Ht Hnow [Hp1 Hr1 Hc1 (new & Hn & Hge & _) Hper] [Hp2 Hr2 Hl2 Hc2 Ho2 Hd2 Hk2 Hca2 Hpe2].
  assert (forall t', t' ∈ rest -> t' ∈ next_timeout b) as Hin by (intros t' Hi; rewrite Hn; apply elem_of_app; by right).
  constructor; try done.
  - lia.
  - by rewrite Hc2, Hc1, <- app_assoc.
  - apply sorted_snoc; [done|]. eapply Forall_impl; [apply Hd2|]. cbn. lia.
  - apply Forall_app. split; [eapply Forall_impl; [apply Hd2|]; cbn; lia|]. repeat constructor; cbn; lia.
  - intros t' Hi Hlt. rewrite En in Hi. apply elem_of_cons in Hi as [->|Hi]; [lia|]. by apply Hk2, Hlt; apply Hin.
  - intros t' h' Hi Eh' Hle. rewrite En in Hi. apply elem_of_app. apply elem_of_cons in Hi as [->|Hi].
    + right. rewrite Eh in Eh'. injection Eh' as <-. apply list_elem_of_here.
    + left. apply Hca2; [by apply Hin|done|done].
  - intros t' Hi Eh' Hle Hlast. rewrite En in Hi. apply elem_of_cons in Hi as [->|Hi].
    + rewrite Eh in Eh'. injection Eh' as ->. assert (last_read b <= last_read c) as Hbc by (apply clk_le; lia).
      apply Hk2; [apply Hper; [done|lia]|]. cbn.
      assert (last_read a <= last_read c) by (apply clk_le; lia). lia.
    + apply Hpe2; [by apply Hin|done..].
Qed.

Lemma check_loop_fw now : forall fuel a lo, in_order a -> pool fw_timers a -> 0 < clock_reads a ->
  now <= last_read a -> Forall (fun t => lo <= to_time t) (next_timeout a) ->
  (total_turns now (next_timeout a) <= fuel)%nat ->
  exists c cs, check_loop fuel now a = Some (tt, c) /\ checked lo now a c cs.
Proof.
  assert (forall a lo, Forall (fun t => now < to_time t) (next_timeout a) -> pool fw_timers a ->
            checked lo now a a []) as Hstop.
  { intros a lo Hl Hp. constructor; try done; try constructor.
    - intros t h Hi _ Hle. rewrite Forall_forall in Hl. specialize (Hl t Hi). lia.
    - intros t Hi _ Hle. rewrite Forall_forall in Hl. specialize (Hl t Hi). lia. }
  assert (forall a t rest, in_order a -> next_timeout a = t :: rest -> now < to_time t ->
            Forall (fun t => now < to_time t) (next_timeout a)) as Hhead.
  { intros a t rest Hs En Hlt. apply in_order_head; [done|]. by rewrite En. }
  induction fuel as [|fuel IH]; intros a lo Hs Hp Hr Hnow Hlo Hf.
  all: cbn [check_loop TIME_LESS_THAN ideal]; destruct (next_timeout a) as [|t rest] eqn:En;
    [exists a, []; split; [done|]; apply Hstop; by rewrite ?En|].
  all: destruct (Z.ltb_spec now (to_time t)) as [Hlt|Hge];
    [exists a, []; split; [done|]; apply Hstop; [by eapply Hhead|done]|].
  - exfalso. rewrite turns_cons in Hf. assert (0 < turns now t)%nat by (unfold turns; repeat case_if; lia). lia.
  - assert (exists h, to_h t = Some h) as [h Eh].
    { destruct Hp as [Hk _]. rewrite En, fmap_cons in Hk.
      assert (timer_key t ∈ fw_timers ++ tcp_keys a) as Hin by (rewrite <- Hk; apply list_elem_of_here).
      unfold fw_timers, tcp_keys, timer_key in Hin. destruct (to_h t) as [h|]; [by exists h|].
      destruct (tcpip_tcp_timer_active a); cbn in Hin;
        repeat (apply elem_of_cons in Hin as [Hin|Hin]; [done|]); by apply not_elem_of_nil in Hin. }
    rewrite Eh. fold (popped t rest a). apply Forall_cons in Hlo as [Hlot Hlo].
    pose proof (call_fw t rest h now a Hp En Eh Hr ltac:(lia)) as Hc.
    assert (in_order (st_end (call_handler h (to_arg t)) (popped t rest a))) as Hs'.
    { apply call_order. unfold in_order in *. rewrite En in Hs. by inversion_clear Hs. }
    set (b := st_end (call_handler h (to_arg t)) (popped t rest a)) in *.
    destruct (cd_new _ _ _ _ _ _ Hc) as (new & Hn & Hnew & Hturn). pose proof (cd_reads _ _ _ _ _ _ Hc) as Hrd.
    assert (last_read a <= last_read b) by (apply clk_le; lia).
    destruct (IH b (to_time t)) as (c & cs & Ec & Hck); [done|apply Hc|lia|lia| |  |].
    + rewrite Hn. apply Forall_app. split; [eapply Forall_impl; [apply Hnew|]; cbn; lia|].
      unfold in_order in Hs. rewrite En in Hs. inversion_clear Hs as [|?? _ Hrest]. done.
    + rewrite (total_turns_perm _ _ _ Hn), total_turns_app. rewrite turns_cons in Hf. lia.
    + exists c, (cs ++ [mk_call h (to_arg t) (to_time t)]). split; [done|]. by eapply checked_step.
Qed.

(** More fuel does not change the result. *)
Lemma check_loop_det now : forall f1 f2 a c1 c2,
  check_loop f1 now a = Some (tt, c1) -> check_loop f2 now a = Some (tt, c2) -> c1 = c2.
Proof.
  induction f1 as [|f1 IH]; intros [|f2] a c1 c2 E1 E2; cbn [check_loop] in E1, E2.
  all: destruct (next_timeout a); [congruence|]; case_match; try congruence. by eapply IH.
Qed.

Lemma total_turns_bound now l : (total_turns now l <= 2 * length l)%nat.
Proof. induction l as [|t l IH]; [done|]. rewrite turns_cons. cbn [length]. unfold turns. repeat case_if; lia. Qed.

Lemma pool_length a : pool fw_timers a -> (length (next_timeout a) <= 3)%nat.
Proof.
  intros [Hk _]. apply Permutation_length in Hk. rewrite length_fmap, length_app in Hk. unfold tcp_keys in Hk.
  destruct (tcpip_tcp_timer_active a); cbn in Hk; lia.
Qed.

Lemma check_fw a t0 : twin t0 a -> in_order a -> pool fw_timers a ->
  exists c cs, sys_check_timeouts 6 a = Some (tt, c) /\ checked t0 (clk (clock_reads a)) a c cs.
Proof.
  intros Hw Hs Hp. destruct (check_loop_fw (clk (clock_reads a)) 6 (read_clock a) t0) as (c & cs & Ec & Hck).
  - done.
  - done.
  - pose proof (tw_reads _ _ Hw). cbn. lia.
  - by rewrite last_read_clock.
  - eapply Forall_impl; [apply (tw_times _ _ Hw)|]. cbn. lia.
  - pose proof (total_turns_bound (clk (clock_reads a)) (next_timeout a)). pose proof (pool_length a Hp).
    change (next_timeout (read_clock a)) with (next_timeout a). lia.
  - exists c, cs. split; [exact Ec|]. destruct Hck. constructor; try done.
    change (clock_reads (read_clock a)) with (clock_reads a + 1) in *. lia.
Qed.

Lemma treach_pool a t0 : treach fw_op a t0 -> pool fw_timers a.
Proof.
  assert (forall o, fw_op o -> op_ok o) as Hop by by intros [].
  induction 1 as [H1|a t0 o Ha IH Ho Hl|fuel a t0 a' Ha IH Ec Hl].
  - set (t1 := mk_timeo (clk 0 + 1000) (Some lwip_cyclic_timer_h) 1).
    set (t2 := mk_timeo (clk 1 + 1000) (Some lwip_cyclic_timer_h) 2).
    assert (next_timeout (st_end sys_timeouts_init timers_start) = link_timeout t2 [t1]) as En by done.
    split; rewrite En; [rewrite link_perm; apply Permutation_swap|].
    unfold zlen. by rewrite (Permutation_length (link_perm _ _)).
  - destruct (treach_inv _ _ _ Hop Ha) as [Hw _]. apply run_op_fw; [done|done|apply Hw|done].
  - destruct (treach_inv _ _ _ Hop Ha) as [Hw Hs]. destruct (check_fw a t0 Hw Hs IH) as (c & cs & Ec' & Hck).
    replace a' with c by (eapply check_loop_det; [exact Ec'|exact Ec]). apply Hck.
Qed.
End firmware.

(** C34: the timers of the firmware. In every reachable state (connections coming and
    going at any time, checks at any pace within the limit of the clock) the two
    permanent timers of the stack are pending, and the TCP timer exactly when it is
    active, so that the pool of three is never exhausted. A check returns after at most
    six calls; it calls every timer that is due at its start, in the order of the due
    times, none before its time, and leaves none that is due; a permanent timer called
    within its interval is due again exactly one interval after it was due, whatever
    the delay; and the code on the 32-bit clock does the same. *)
Theorem firmware_timers `{E : TimerEnv, !TimerEnvOk fw_op} (a : timers) (t0 : Z) :
  treach fw_op a t0 ->
  let now := clk (clock_reads a) in
  pool fw_timers a /\
  exists c cs, sys_check_timeouts (H := ideal) 6 a = Some (tt, c) /\
    pool fw_timers c /\ timer_calls c = cs ++ timer_calls a /\
    StronglySorted (fun c1 c2 => tc_due c2 <= tc_due c1) cs /\
    Forall (fun k => t0 <= tc_due k <= now) cs /\
    Forall (fun t => now < to_time t) (next_timeout c) /\
    (forall t h, t ∈ next_timeout a -> to_h t = Some h -> to_time t <= now ->
       mk_call h (to_arg t) (to_time t) ∈ cs) /\
    (forall t, t ∈ next_timeout a -> to_h t = Some lwip_cyclic_timer_h -> to_time t <= now ->
       last_read c < to_time t + interval_ms (to_arg t) ->
       mk_timeo (to_time t + interval_ms (to_arg t)) (to_h t) (to_arg t) ∈ next_timeout c) /\
    (last_read c <= t0 + QUARTER ->
       sys_check_timeouts (H := wrapped) 6 (wrap a) = Some (tt, wrap c)).
Proof.
  intros Hr now. pose proof (treach_pool a t0 Hr) as Hp. split; [done|].
  destruct (treach_inv fw_op a t0 ltac:(by intros []) Hr) as [Hw Hs].
  destruct (check_fw a t0 Hw Hs Hp) as (c & cs & Ec & []). exists c, cs. split_and!; try done.
  intros Hl. by apply (check_sim 6 t0 a c).
Qed.

(** A clock that starts just below the wrap-round and shows 500 ms more at every
    reading; TCP connections appear in the first call of a handler. *)
Definition demo_env : TimerEnv := {|
  clk := fun n => 4294966000 + 500 * n;
  handler_ops := fun n h arg => if bool_decide (n = 1%nat) then [op_pcbs true; op_tcp_timer_needed] else [] |}.

Lemma demo_env_ok : TimerEnvOk (E := demo_env) fw_op.
Proof. split; [intros n Hn; cbn; lia|]. intros n h arg. cbn. case_bool_decide; by repeat constructor. Qed.

Definition demo_timers : timers := st_end (sys_timeouts_init (H := ideal) (H0 := demo_env)) timers_start.

Lemma demo_reach P : treach (E := demo_env) P demo_timers 4294966000.
Proof. apply (reach_init (E := demo_env)). by vm_compute. Qed.

(** After a check: the first permanent timer was called when it was due, with the
    clock wrapping round between it and the second. *)
Definition demo_checked : timers :=
  match sys_check_timeouts (H := ideal) (H0 := demo_env) 6 demo_timers with
  | Some (_, c) => c
  | None => demo_timers
  end.

Lemma wrap_transparent_witness :
  sys_check_timeouts (H := wrapped) (H0 := demo_env) 6 (wrap demo_timers) = Some (tt, wrap demo_checked) /\
  timer_calls demo_checked = [mk_call lwip_cyclic_timer_h 1 4294967000].
Proof.
  split; [|reflexivity].
  refine (proj1 (proj2 (wrap_transparent (E := demo_env) (TimerEnvOk0 := fw_env_ok (TimerEnvOk0 := demo_env_ok))
    demo_timers 4294966000 (demo_reach op_ok))) 6%nat demo_checked _ _); [reflexivity|by vm_compute].
Defined.

Lemma firmware_timers_witness :
  exists c, sys_check_timeouts (H := wrapped) (H0 := demo_env) 6 (wrap demo_timers) = Some (tt, wrap c) /\
            to_time <$> next_timeout c = [4294967500; 4294967750; 4294968000].
Proof.
  destruct (firmware_timers (E := demo_env) (TimerEnvOk0 := demo_env_ok) demo_timers 4294966000 (demo_reach fw_op))
    as (_ & c & cs & Ec & _ & _ & _ & _ & _ & _ & _ & Hw).
  exists c. vm_compute in Ec. injection Ec as <-. split; [|reflexivity]. apply Hw. by vm_compute.
Defined.
