(* ===== verification/Mem.v ===== *)
(** * Mem: the heap of the TCP/IP stack

    src/lib/lwip/src/core/mem.c with the options of this build: the stack's own heap
    of 1600 bytes, from which every outgoing packet buffer is allocated, no overflow or
    sanity checks, frees only from the main loop. The heap is the byte array [ram]; it
    is cut into blocks, each headed by a [struct mem] that holds the indices of the
    next and the previous block and whether it is used. Pointers are offsets from
    [ram]; [mem_size_t] is 16 bits wide.

    The assertions of lwIP have no effect in this build. A loop that walks the blocks
    has fuel, and [None] stands for a walk that never ends (a corrupted heap); MemProps
    shows that it does not happen. *)

From S2P Require Import Prelude.

Definition MEM_ALIGNMENT : Z := 4.
Definition LWIP_MEM_ALIGN_SIZE (size : Z) : Z := Z.land (size + MEM_ALIGNMENT - 1) (Z.lnot (MEM_ALIGNMENT - 1)).
Definition LWIP_MEM_ALIGN (addr : Z) : Z := u32 (Z.land (addr + MEM_ALIGNMENT - 1) (Z.lnot (MEM_ALIGNMENT - 1))).
Definition MEM_SIZE : Z := 1600.
Definition MIN_SIZE : Z := 12.
Definition MIN_SIZE_ALIGNED : Z := LWIP_MEM_ALIGN_SIZE MIN_SIZE.
Definition SIZEOF_STRUCT_MEM : Z := LWIP_MEM_ALIGN_SIZE 6.
Definition MEM_SIZE_ALIGNED : Z := LWIP_MEM_ALIGN_SIZE MEM_SIZE.

(** [struct mem]: two 16-bit indices and a byte. *)
Record mem_hdr := mk_mem { m_next : Z; m_prev : Z; m_used : Z }.

Record heap := mk_heap { ram : list Z; lfree : Z }.
#[export] Instance eta_heap : Eta heap := fun h => mk_heap (ram h) (lfree h).

(** [ram_end] is the struct behind the last byte. *)
Definition ram_end : Z := MEM_SIZE_ALIGNED.

(** Access to the struct at an index. *)
Definition get_mem (h : heap) (p : Z) : mem_hdr :=
  mk_mem (le_val (mem_read p 2 (ram h))) (le_val (mem_read (p + 2) 2 (ram h))) (mem_get (ram h) (p + 4)).
Definition set_next (p v : Z) : STO heap unit :=
  sto_mod (fun h => h <| ram := mem_write p (le_bytes 2 v) (ram h) |>).
Definition set_prev (p v : Z) : STO heap unit :=
  sto_mod (fun h => h <| ram := mem_write (p + 2) (le_bytes 2 v) (ram h) |>).
Definition set_used (p v : Z) : STO heap unit :=
  sto_mod (fun h => h <| ram := mem_write (p + 4) [v] (ram h) |>).
Definition set_lfree (p : Z) : STO heap unit := sto_mod (fun h => h <| lfree := p |>).

Definition plug_forward (mem : Z) : STO heap unit :=
  let? h := sto_get in
  let nmem := m_next (get_mem h mem) in
  sto_when (negb (mem =? nmem) && (m_used (get_mem h nmem) =? 0) && negb (nmem =? ram_end))
    (sto_when (lfree h =? nmem) (set_lfree mem) ;?;
     set_next mem (m_next (get_mem h nmem)) ;?;
     let? h := sto_get in
     sto_when (negb (m_next (get_mem h nmem) =? MEM_SIZE_ALIGNED))
       (set_prev (m_next (get_mem h nmem)) mem)).

Definition plug_backward (mem : Z) : STO heap unit :=
  let? h := sto_get in
  let pmem := m_prev (get_mem h mem) in
  sto_when (negb (pmem =? mem) && (m_used (get_mem h pmem) =? 0))
    (sto_when (lfree h =? mem) (set_lfree pmem) ;?;
     set_next pmem (m_next (get_mem h mem)) ;?;
     let? h := sto_get in
     sto_when (negb (m_next (get_mem h mem) =? MEM_SIZE_ALIGNED))
       (set_prev (m_next (get_mem h mem)) pmem)).

Definition plug_holes (mem : Z) : STO heap unit := plug_forward mem ;?; plug_backward mem.

Definition mem_init : STO heap unit :=
  set_next 0 MEM_SIZE_ALIGNED ;?; set_prev 0 0 ;?; set_used 0 0 ;?;
  set_used ram_end 1 ;?; set_next ram_end MEM_SIZE_ALIGNED ;?; set_prev ram_end MEM_SIZE_ALIGNED ;?;
  set_lfree 0.

Definition mem_link_valid (h : heap) (mem : Z) : bool :=
  let nmem := m_next (get_mem h mem) in
  let pmem := m_prev (get_mem h mem) in
  negb ((MEM_SIZE_ALIGNED <? nmem) || (MEM_SIZE_ALIGNED <? pmem) ||
        (negb (pmem =? mem) && negb (m_next (get_mem h pmem) =? mem)) ||
        (negb (nmem =? ram_end) && negb (m_prev (get_mem h nmem) =? mem))).

(** [rmem] is the pointer; [None] is NULL. *)
Definition mem_free (rmem : option Z) : STO heap unit :=
  match rmem with
  | None => sto_ret tt
  | Some rmem =>
      if negb (Z.land rmem (MEM_ALIGNMENT - 1) =? 0) then sto_ret tt
      else
        let mem := rmem - SIZEOF_STRUCT_MEM in
        if (mem <? 0) || (ram_end <? rmem + MIN_SIZE_ALIGNED) then sto_ret tt
        else
          let? h := sto_get in
          if m_used (get_mem h mem) =? 0 then sto_ret tt
          else if negb (mem_link_valid h mem) then sto_ret tt
          else
            set_used mem 0 ;?;
            sto_when (mem <? lfree h) (set_lfree mem) ;?;
            plug_holes mem
  end.

Definition mem_trim (rmem new_size : Z) : STO heap (option Z) :=
  let newsize := u16 (LWIP_MEM_ALIGN_SIZE new_size) in
  let newsize := if newsize <? MIN_SIZE_ALIGNED then MIN_SIZE_ALIGNED else newsize in
  if (MEM_SIZE_ALIGNED <? newsize) || (newsize <? new_size) then sto_ret None
  else if (rmem <? 0) || (ram_end <=? rmem) then sto_ret (Some rmem)
  else
    let mem := rmem - SIZEOF_STRUCT_MEM in
    let ptr := u16 mem in
    let? h := sto_get in
    let size := u16 (u16 (m_next (get_mem h mem) - ptr) - SIZEOF_STRUCT_MEM) in
    if size <? newsize then sto_ret None
    else if newsize =? size then sto_ret (Some rmem)
    else
      let mem2 := m_next (get_mem h mem) in
      let ptr2 := u16 (ptr + SIZEOF_STRUCT_MEM + newsize) in
      (if m_used (get_mem h mem2) =? 0 then
         let next := m_next (get_mem h mem2) in
         sto_when (lfree h =? mem2) (set_lfree ptr2) ;?;
         set_used ptr2 0 ;?; set_next ptr2 next ;?; set_prev ptr2 ptr ;?; set_next mem ptr2 ;?;
         sto_when (negb (next =? MEM_SIZE_ALIGNED)) (set_prev next ptr2)
       else if newsize + SIZEOF_STRUCT_MEM + MIN_SIZE_ALIGNED <=? size then
         sto_when (ptr2 <? lfree h) (set_lfree ptr2) ;?;
         set_used ptr2 0 ;?; set_next ptr2 mem2 ;?; set_prev ptr2 ptr ;?; set_next mem ptr2 ;?;
         sto_when (negb (mem2 =? MEM_SIZE_ALIGNED)) (set_prev mem2 ptr2)
       else sto_ret tt) ;?;
      sto_ret (Some rmem).

(** Both loops follow the chain of blocks, of which there are less than this many. *)
Definition walk_fuel : nat := Z.to_nat MEM_SIZE_ALIGNED.

(** The search for the next free block, when the lowest one has been taken. *)
Fixpoint next_free (fuel : nat) (h : heap) (cur : Z) : option Z :=
  match fuel with
  | O => None
  | S fuel =>
      if negb (m_used (get_mem h cur) =? 0) && negb (cur =? ram_end)
      then next_free fuel h (m_next (get_mem h cur)) else Some cur
  end.

Definition adjust_lfree (mem : Z) : STO heap unit :=
  let? h := sto_get in
  if mem =? lfree h then
    match next_free walk_fuel h (lfree h) with
    | Some cur => set_lfree cur
    | None => sto_stop
    end
  else sto_ret tt.

(** The body of the loop of [mem_malloc] for a block that fits. *)
Definition mem_take (ptr size : Z) : STO heap (option Z) :=
  let? h := sto_get in
  let mem := get_mem h ptr in
  (if size + SIZEOF_STRUCT_MEM + MIN_SIZE_ALIGNED <=? u32 (m_next mem - (ptr + SIZEOF_STRUCT_MEM)) then
     let ptr2 := u16 (ptr + SIZEOF_STRUCT_MEM + size) in
     set_used ptr2 0 ;?; set_next ptr2 (m_next mem) ;?; set_prev ptr2 ptr ;?;
     set_next ptr ptr2 ;?; set_used ptr 1 ;?;
     sto_when (negb (m_next mem =? MEM_SIZE_ALIGNED)) (set_prev (m_next mem) ptr2)
   else set_used ptr 1) ;?;
  adjust_lfree ptr ;?;
  sto_ret (Some (ptr + SIZEOF_STRUCT_MEM)).

Fixpoint malloc_loop (fuel : nat) (ptr size : Z) : STO heap (option Z) :=
  match fuel with
  | O => sto_stop
  | S fuel =>
      if negb (ptr <? MEM_SIZE_ALIGNED - size) then sto_ret None
      else
        let? h := sto_get in
        let mem := get_mem h ptr in
        if (m_used mem =? 0) && (size <=? u32 (m_next mem - (ptr + SIZEOF_STRUCT_MEM)))
        then mem_take ptr size
        else malloc_loop fuel (m_next mem) size
  end.

Definition mem_malloc (size_in : Z) : STO heap (option Z) :=
  if size_in =? 0 then sto_ret None
  else
    let size := u16 (LWIP_MEM_ALIGN_SIZE size_in) in
    let size := if size <? MIN_SIZE_ALIGNED then MIN_SIZE_ALIGNED else size in
    if (MEM_SIZE_ALIGNED <? size) || (size <? size_in) then sto_ret None
    else
      let? h := sto_get in
      malloc_loop walk_fuel (lfree h) size.

Definition mem_calloc (count size : Z) : STO heap (option Z) :=
  let alloc_size := count * size in
  if negb (u16 alloc_size =? alloc_size) then sto_ret None
  else
    let? p := mem_malloc (u16 alloc_size) in
    match p with
    | Some p =>
        sto_mod (fun h => h <| ram := mem_write p (replicate (Z.to_nat alloc_size) 0) (ram h) |>) ;?;
        sto_ret (Some p)
    | None => sto_ret None
    end.

Lemma align_size n : LWIP_MEM_ALIGN_SIZE n = (n + 3) / 4 * 4.
Proof.
  unfold LWIP_MEM_ALIGN_SIZE, MEM_ALIGNMENT. replace (n + 4 - 1) with (n + 3) by lia.
  change (4 - 1) with (Z.ones 2). rewrite <- Z.ldiff_land, Z.ldiff_ones_r by lia.
  by rewrite Z.shiftl_mul_pow2, Z.shiftr_div_pow2 by lia.
Qed.
