(* ===== verification/MemProps.v ===== *)
(** * MemProps: the heap implements an allocator

    The bytes of the heap represent a list of blocks ([rep]): the blocks fill the heap
    without gaps, the indices in their headers link them in both directions, no two
    free blocks are neighbours, and [lfree] is the lowest free one. [a_malloc],
    [a_free] and [a_shrink] are the operations on the list: first fit with splitting,
    freeing with joining, shrinking. The operations of mem.c refine them, and touch no
    byte of a block that is in use by someone else. *)

From S2P Require Import Prelude Mem.

(** ** Headers in the bytes *)

Definition wnext (p v : Z) (h : heap) : heap := h <| ram := mem_write p (le_bytes 2 v) (ram h) |>.
Definition wprev (p v : Z) (h : heap) : heap := h <| ram := mem_write (p + 2) (le_bytes 2 v) (ram h) |>.
Definition wused (p v : Z) (h : heap) : heap := h <| ram := mem_write (p + 4) [v] (ram h) |>.
Definition wlfree (p : Z) (h : heap) : heap := h <| lfree := p |>.

(** The heap with its end marker. *)
Definition sized (h : heap) : Prop := zlen (ram h) = 1608.

Lemma sized_wnext p v h : sized (wnext p v h) <-> sized h.
Proof. unfold sized. change (ram (wnext p v h)) with (mem_write p (le_bytes 2 v) (ram h)). by rewrite mem_write_zlen. Qed.
Lemma sized_wprev p v h : sized (wprev p v h) <-> sized h.
Proof. unfold sized. change (ram (wprev p v h)) with (mem_write (p + 2) (le_bytes 2 v) (ram h)). by rewrite mem_write_zlen. Qed.
Lemma sized_wused p v h : sized (wused p v h) <-> sized h.
Proof. unfold sized. change (ram (wused p v h)) with (mem_write (p + 4) [v] (ram h)). by rewrite mem_write_zlen. Qed.
Lemma sized_wlfree p h : sized (wlfree p h) <-> sized h.
Proof. done. Qed.

(** A byte range that a write to the header at [p] leaves alone. *)
Definition clear_of (p a n : Z) : Prop := a + n <= p \/ p + 8 <= a.

Lemma read_wnext p v h a n : 0 <= p -> 0 <= a -> clear_of p a n ->
  mem_read a n (ram (wnext p v h)) = mem_read a n (ram h).
Proof. intros Hp Ha Hc. apply mem_read_write_disjoint; [lia|lia|]. unfold clear_of in Hc. rewrite le_bytes_zlen. lia. Qed.
Lemma read_wprev p v h a n : 0 <= p -> 0 <= a -> clear_of p a n ->
  mem_read a n (ram (wprev p v h)) = mem_read a n (ram h).
Proof. intros Hp Ha Hc. apply mem_read_write_disjoint; [lia|lia|]. unfold clear_of in Hc. rewrite le_bytes_zlen. lia. Qed.
Lemma read_wused p v h a n : 0 <= p -> 0 <= a -> clear_of p a n ->
  mem_read a n (ram (wused p v h)) = mem_read a n (ram h).
Proof. intros Hp Ha Hc. apply mem_read_write_disjoint; [lia|lia|]. unfold clear_of in Hc. change (zlen [v]) with 1. lia. Qed.

(** A header is a function of its eight bytes. *)
Lemma get_mem_bytes h h' p : 0 <= p -> mem_read p 8 (ram h) = mem_read p 8 (ram h') -> get_mem h p = get_mem h' p.
Proof.
  intros Hp E. unfold get_mem.
  assert (forall k n b, 0 <= k -> 0 <= n -> k + n <= 8 -> mem_read (p + k) n b = mem_read k n (mem_read p 8 b)) as Hsub.
  { intros k n b Hk Hn Hkn. unfold mem_read. rewrite skipn_firstn_comm, firstn_firstn, drop_drop. f_equal; [lia|]. f_equal. lia. }
  assert (forall b, mem_get b (p + 4) = mem_get (mem_read p 8 b) 4) as Hg by (intros b; by rewrite mem_get_read by lia).
  rewrite !Hg. rewrite <- (Z.add_0_r p) at 1. rewrite <- (Z.add_0_r p) at 4. rewrite !Hsub by lia. by rewrite E.
Qed.

Lemma get_wnext_ne p v h q : 0 <= p -> 0 <= q -> p + 8 <= q \/ q + 8 <= p -> get_mem (wnext p v h) q = get_mem h q.
Proof. intros. apply get_mem_bytes; [done|]. apply read_wnext; [done..|]. unfold clear_of. lia. Qed.
Lemma get_wprev_ne p v h q : 0 <= p -> 0 <= q -> p + 8 <= q \/ q + 8 <= p -> get_mem (wprev p v h) q = get_mem h q.
Proof. intros. apply get_mem_bytes; [done|]. apply read_wprev; [done..|]. unfold clear_of. lia. Qed.
Lemma get_wused_ne p v h q : 0 <= p -> 0 <= q -> p + 8 <= q \/ q + 8 <= p -> get_mem (wused p v h) q = get_mem h q.
Proof. intros. apply get_mem_bytes; [done|]. apply read_wused; [done..|]. unfold clear_of. lia. Qed.
Lemma get_wlfree p h q : get_mem (wlfree p h) q = get_mem h q.
Proof. done. Qed.

Lemma mem_get_write_out off data buf i : 0 <= off -> 0 <= i -> i < off \/ off + zlen data <= i ->
  mem_get (mem_write off data buf) i = mem_get buf i.
Proof.
  intros Ho Hi Hc. unfold mem_get, mem_write. unfold zlen in Hc.
  destruct Hc; [rewrite list_lookup_inserts_lt by lia|rewrite list_lookup_inserts_ge by lia]; done.
Qed.

Lemma get_wnext_eq p v h : sized h -> 0 <= p <= 1600 -> is_u16 v ->
  get_mem (wnext p v h) p = mk_mem v (m_prev (get_mem h p)) (m_used (get_mem h p)).
Proof.
  unfold sized, is_u16. intros Hs Hp Hv. unfold get_mem. cbn [ram wnext m_prev m_used].
  change (ram (wnext p v h)) with (mem_write p (le_bytes 2 v) (ram h)). f_equal.
  - change 2 with (zlen (le_bytes 2 v)) at 1. rewrite mem_read_write by (rewrite ?le_bytes_zlen; lia).
    rewrite le_val_bytes. apply Z.mod_small. lia.
  - by rewrite mem_read_write_disjoint by (rewrite ?le_bytes_zlen; lia).
  - by rewrite mem_get_write_out by (rewrite ?le_bytes_zlen; lia).
Qed.
Lemma get_wprev_eq p v h : sized h -> 0 <= p <= 1600 -> is_u16 v ->
  get_mem (wprev p v h) p = mk_mem (m_next (get_mem h p)) v (m_used (get_mem h p)).
Proof.
  unfold sized, is_u16. intros Hs Hp Hv. unfold get_mem. cbn [m_next m_used].
  change (ram (wprev p v h)) with (mem_write (p + 2) (le_bytes 2 v) (ram h)). f_equal.
  - by rewrite mem_read_write_disjoint by (rewrite ?le_bytes_zlen; lia).
  - change 2 with (zlen (le_bytes 2 v)) at 2. rewrite mem_read_write by (rewrite ?le_bytes_zlen; lia).
    rewrite le_val_bytes. apply Z.mod_small. lia.
  - by rewrite mem_get_write_out by (rewrite ?le_bytes_zlen; lia).
Qed.
Lemma get_wused_eq p v h : sized h -> 0 <= p <= 1600 ->
  get_mem (wused p v h) p = mk_mem (m_next (get_mem h p)) (m_prev (get_mem h p)) v.
Proof.
  unfold sized. intros Hs Hp. unfold get_mem. cbn [m_next m_prev].
  change (ram (wused p v h)) with (mem_write (p + 4) [v] (ram h)). f_equal.
  - rewrite mem_read_write_disjoint; [done|lia|lia|]. lia.
  - rewrite mem_read_write_disjoint; [done|lia|lia|]. lia.
  - unfold mem_get, mem_write. rewrite list_lookup_inserts by (unfold zlen in Hs; cbn; lia).
    by rewrite Nat.sub_diag.
Qed.

(** ** Blocks *)

(** A block: its length with the header, and whether it is used. *)
Abbreviation block := (Z * bool)%type.
Definition used_byte (u : bool) : Z := if u then 1 else 0.

Fixpoint total (bs : list block) : Z :=
  match bs with [] => 0 | (len, _) :: bs => len + total bs end.

(** The blocks [bs] begin at [off], where the block before begins at [pr]. *)
Fixpoint seg (h : heap) (off pr : Z) (bs : list block) : Prop :=
  match bs with
  | [] => True
  | (len, u) :: bs =>
      20 <= len /\ len mod 4 = 0 /\ get_mem h off = mk_mem (off + len) pr (used_byte u) /\
      seg h (off + len) off bs
  end.

(** Where the last block of [bs] begins, when they begin at [off]. *)
Fixpoint last_start (off pr : Z) (bs : list block) : Z :=
  match bs with [] => pr | (len, _) :: bs => last_start (off + len) off bs end.

Fixpoint first_free (off : Z) (bs : list block) : Z :=
  match bs with
  | [] => off
  | (len, u) :: bs => if u then first_free (off + len) bs else off
  end.

(** No two neighbours are free. *)
Fixpoint joined (bs : list block) : Prop :=
  match bs with
  | (_, false) :: (_, false) :: _ => False
  | _ :: bs => joined bs
  | [] => True
  end.

Record linked (h : heap) (bs : list block) : Prop := {
  r_sized : sized h;
  r_seg : seg h 0 0 bs;
  r_total : total bs = 1600;
  r_end : get_mem h 1600 = mk_mem 1600 1600 1 }.

Record rep (h : heap) (bs : list block) : Prop := {
  r_linked : linked h bs;
  r_joined : joined bs;
  r_lfree : lfree h = first_free 0 bs }.

Lemma total_app l k : total (l ++ k) = total l + total k.
Proof. induction l as [|[len u] l IH]; cbn; lia. Qed.

Lemma seg_total h off pr bs : seg h off pr bs -> 20 * zlen bs <= total bs.
Proof.
  revert off pr. induction bs as [|[len u] bs IH]; intros off pr Hs; [done|].
  destruct Hs as (Hl & _ & _ & Hs). specialize (IH _ _ Hs). rewrite zlen_cons. cbn [total]. lia.
Qed.

Lemma seg_nonneg h off pr bs : seg h off pr bs -> 0 <= total bs.
Proof. intros Hs. pose proof (seg_total _ _ _ _ Hs). pose proof (zlen_nonneg bs). lia. Qed.

Lemma seg_app h off pr l k :
  seg h off pr (l ++ k) <-> seg h off pr l /\ seg h (off + total l) (last_start off pr l) k.
Proof.
  revert off pr. induction l as [|[len u] l IH]; intros off pr; cbn [app seg total last_start].
  - rewrite Z.add_0_r. tauto.
  - rewrite IH. replace (off + len + total l) with (off + (len + total l)) by lia. tauto.
Qed.

Lemma last_start_app off pr l k : last_start off pr (l ++ k) = last_start (off + total l) (last_start off pr l) k.
Proof.
  revert off pr. induction l as [|[len u] l IH]; intros off pr; cbn [app total last_start]; [by rewrite Z.add_0_r|].
  rewrite IH. f_equal. lia.
Qed.

Lemma first_free_app off l k : first_free off (l ++ k) =
  if forallb snd l then first_free (off + total l) k else first_free off l.
Proof.
  revert off. induction l as [|[len u] l IH]; intros off; cbn [app total first_free forallb snd]; [by rewrite Z.add_0_r|].
  destruct u; cbn [andb]; [|done]. rewrite IH. case_if; [f_equal; lia|done].
Qed.

Lemma first_free_bound h off pr bs : seg h off pr bs -> off <= first_free off bs <= off + total bs.
Proof.
  revert off pr. induction bs as [|[len u] bs IH]; intros off pr Hs; cbn [first_free total]; [lia|].
  destruct Hs as (Hl & _ & _ & Hs). pose proof (seg_nonneg _ _ _ _ Hs). specialize (IH _ _ Hs). destruct u; lia.
Qed.

(** The headers between two places are as before. *)
Definition same_hdrs (lo hi : Z) (h h' : heap) : Prop :=
  forall q, lo <= q -> q + 8 <= hi -> get_mem h' q = get_mem h q.

Lemma seg_frame h h' off pr bs : same_hdrs off (off + total bs) h h' -> seg h off pr bs -> seg h' off pr bs.
Proof.
  revert off pr. induction bs as [|[len u] bs IH]; intros off pr Hf Hs; [done|].
  destruct Hs as (Hl & Hm & Hg & Hs). pose proof (seg_nonneg _ _ _ _ Hs). cbn [total] in Hf.
  split_and!; [done|done|rewrite Hf by lia; done|]. apply IH; [|done]. intros q Hq Hq'. apply Hf; lia.
Qed.

(** The first block of a segment gets another predecessor. *)
Lemma seg_reprev h h' off pr pr' bs : same_hdrs (off + 8) (off + total bs) h h' ->
  (bs <> [] -> get_mem h' off = mk_mem (m_next (get_mem h off)) pr' (m_used (get_mem h off))) ->
  seg h off pr bs -> seg h' off pr' bs.
Proof.
  intros Hf Hg Hs. destruct bs as [|[len u] bs]; [done|]. destruct Hs as (Hl & Hm & Hh & Hs).
  specialize (Hg ltac:(done)). rewrite Hh in Hg. split_and!; [done..|].
  eapply seg_frame; [|done]. intros q Hq Hq'. cbn [total] in Hf. apply Hf; lia.
Qed.

Lemma joined_app_inv l k : joined (l ++ k) -> joined l /\ joined k.
Proof.
  induction l as [|[len u] l IH]; [done|]. intros Hj.
  destruct l as [|[len' u'] l]; cbn [app] in *.
  - split; [by destruct u|]. destruct u; [exact Hj|]. by destruct k as [|[? []] k].
  - destruct u, u'; cbn in Hj |- *; try done; by apply IH.
Qed.

(** Simplify reads of headers and sizes after header writes. *)
Ltac sized_tac :=
  repeat first [rewrite sized_wnext | rewrite sized_wprev | rewrite sized_wused | rewrite sized_wlfree]; assumption.
Ltac hdr_side := first [assumption | lia | (unfold is_u16; lia) | sized_tac].
Ltac hdr_step :=
  match goal with
  | |- context [get_mem (wlfree _ _) _] => rewrite get_wlfree
  | |- context [get_mem (wnext ?p _ _) ?p] => rewrite get_wnext_eq by hdr_side
  | |- context [get_mem (wprev ?p _ _) ?p] => rewrite get_wprev_eq by hdr_side
  | |- context [get_mem (wused ?p _ _) ?p] => rewrite get_wused_eq by hdr_side
  | |- context [get_mem (wnext _ _ _) _] => rewrite get_wnext_ne by lia
  | |- context [get_mem (wprev _ _ _) _] => rewrite get_wprev_ne by lia
  | |- context [get_mem (wused _ _ _) _] => rewrite get_wused_ne by lia
  end.
Ltac hdr_simpl := repeat (hdr_step; cbn [m_next m_prev m_used]).

(** Reads of bytes outside the headers written. *)
Ltac bytes_simpl := repeat first
  [ rewrite read_wnext by (unfold clear_of; lia) | rewrite read_wprev by (unfold clear_of; lia)
  | rewrite read_wused by (unfold clear_of; lia) ].

(** ** Neighbours *)

Definition head_used (bs : list block) : bool := match bs with (_, false) :: _ => false | _ => true end.
Fixpoint last_used (bs : list block) : bool :=
  match bs with [] => true | [(_, u)] => u | _ :: bs => last_used bs end.

Lemma joined_cons len u bs : joined ((len, u) :: bs) <-> (u || head_used bs = true) /\ joined bs.
Proof. destruct u, bs as [|[len' []] bs]; cbn; intuition done. Qed.

Lemma joined_app l k : joined (l ++ k) <-> joined l /\ joined k /\ last_used l || head_used k = true.
Proof.
  induction l as [|[len u] l IH]; [cbn; tauto|]. cbn [app]. rewrite !joined_cons, IH.
  destruct l as [|b l]; [cbn; destruct u; cbn; tauto|].
  change (last_used ((len, u) :: b :: l)) with (last_used (b :: l)).
  assert (head_used ((b :: l) ++ k) = head_used (b :: l)) as -> by done. tauto.
Qed.

(** ** Allocation *)

Lemma next_free_spec h bs : get_mem h 1600 = mk_mem 1600 1600 1 -> forall fuel off pr,
  seg h off pr bs -> off + total bs = 1600 -> (length bs < fuel)%nat ->
  next_free fuel h off = Some (first_free off bs).
Proof.
  intros He. induction bs as [|[len u] bs IH]; intros [|fuel] off pr Hs Ht Hf; cbn in Hf; try lia.
  - cbn in Ht. replace off with 1600 by lia. cbn [next_free first_free]. by rewrite He.
  - destruct Hs as (Hl & _ & Hg & Hs). cbn [total] in Ht. pose proof (seg_nonneg _ _ _ _ Hs).
    cbn [next_free first_free]. rewrite Hg. cbn [m_used m_next].
    destruct (Z.eqb_spec off ram_end) as [E|_]; [change ram_end with 1600 in E; lia|].
    destruct u; cbn [used_byte Z.eqb negb andb]; [|done]. apply (IH _ _ off); [done|lia|lia].
Qed.

(** The blocks a free block of length [len] becomes. *)
Definition a_split (size len : Z) : list block :=
  if size + 20 <=? len - 8 then [(8 + size, true); (len - 8 - size, false)] else [(len, true)].

Definition untouched (h h' : heap) (lo hi : Z) : Prop :=
  forall a n, 0 <= a -> a + n <= lo \/ hi <= a -> mem_read a n (ram h') = mem_read a n (ram h).

Lemma linked_length h bs : linked h bs -> (length bs <= 80)%nat.
Proof. intros Hr. pose proof (seg_total _ _ _ _ (r_seg _ _ Hr)). rewrite (r_total _ _ Hr) in *. unfold zlen in *. lia. Qed.

Lemma seg_mod4 h off pr bs : seg h off pr bs -> total bs mod 4 = 0.
Proof.
  revert off pr. induction bs as [|[len u] bs IH]; intros off pr Hs; [done|]. destruct Hs as (_ & Hm & _ & Hs).
  specialize (IH _ _ Hs). cbn [total]. zdivmod.
Qed.

(** The pieces of a heap around one block. *)
Lemma linked_around h bs1 len u bs2 : linked h (bs1 ++ (len, u) :: bs2) ->
  let p := total bs1 in
  0 <= p /\ p mod 4 = 0 /\ 20 <= len /\ len mod 4 = 0 /\ p + len <= 1600 /\ p + len + total bs2 = 1600 /\
  seg h 0 0 bs1 /\ get_mem h p = mk_mem (p + len) (last_start 0 0 bs1) (used_byte u) /\
  seg h (p + len) p bs2 /\ (bs2 <> [] -> p + len + 20 <= 1600) /\
  (m_used (get_mem h (p + len)) = used_byte (head_used bs2)).
Proof.
  intros [Hz Hs Ht He]. apply seg_app in Hs as (Hs1 & Hlen & Hm & Hg & Hs2). rewrite total_app in Ht.
  cbn [total] in Ht. pose proof (seg_nonneg _ _ _ _ Hs1). pose proof (seg_nonneg _ _ _ _ Hs2).
  pose proof (seg_mod4 _ _ _ _ Hs1). rewrite Z.add_0_l in *. cbn zeta. split_and!; try done; try lia.
  - intros Hne. destruct bs2 as [|[len2 u2] bs2]; [done|]. destruct Hs2 as (Hl2 & _ & _ & Hs2).
    pose proof (seg_nonneg _ _ _ _ Hs2). cbn [total] in Ht. lia.
  - destruct bs2 as [|[len2 []] bs2].
    + cbn in Ht. replace (total bs1 + len) with 1600 by lia. by rewrite He.
    + destruct Hs2 as (_ & _ & -> & _). done.
    + destruct Hs2 as (_ & _ & -> & _). done.
Qed.

(** Put a heap together from pieces. *)
Lemma linked_intro h bs1 len u bs2 : let p := total bs1 in sized h -> seg h 0 0 bs1 ->
  20 <= len -> len mod 4 = 0 -> get_mem h p = mk_mem (p + len) (last_start 0 0 bs1) (used_byte u) ->
  seg h (p + len) p bs2 -> p + len + total bs2 = 1600 -> get_mem h 1600 = mk_mem 1600 1600 1 ->
  linked h (bs1 ++ (len, u) :: bs2).
Proof.
  intros p Hz Hs1 Hl Hm Hg Hs2 Ht He. constructor; [done| |rewrite total_app; cbn; lia|done].
  apply seg_app. rewrite Z.add_0_l. by split_and!.
Qed.

(** Changing the mark of a block. *)
Lemma linked_wused h bs1 len u bs2 u' : linked h (bs1 ++ (len, u) :: bs2) ->
  linked (wused (total bs1) (used_byte u') h) (bs1 ++ (len, u') :: bs2) /\
  untouched h (wused (total bs1) (used_byte u') h) (total bs1) (total bs1 + 8).
Proof.
  intros Hr. destruct (linked_around _ _ _ _ _ Hr) as (Hp & Hp4 & Hl & Hl4 & Hb & Ht & Hs1 & Hg & Hs2 & Hne & _).
  destruct Hr as [Hz _ _ He]. set (p := total bs1) in *. split.
  - apply linked_intro; try done.
    + by apply sized_wused.
    + eapply seg_frame; [|done]. intros q Hq Hq'. hdr_simpl. done.
    + fold p. hdr_simpl. by rewrite Hg.
    + eapply seg_frame; [|done]. intros q Hq Hq'. hdr_simpl. done.
    + hdr_simpl. done.
  - intros a n Ha Hc. apply read_wused; [lia|lia|]. unfold clear_of. lia.
Qed.

(** Splitting a block in two. *)
Definition split_at (p n next u v : Z) (h : heap) : heap :=
  let h := wused p u (wnext p n (wprev n p (wnext n next (wused n v h)))) in
  if next =? 1600 then h else wprev next n h.

Lemma linked_split h bs1 len u bs2 len1 u1 u2 : linked h (bs1 ++ (len, u) :: bs2) ->
  20 <= len1 -> len1 mod 4 = 0 -> len1 + 20 <= len ->
  let p := total bs1 in let h' := split_at p (p + len1) (p + len) (used_byte u1) (used_byte u2) h in
  linked h' (bs1 ++ (len1, u1) :: (len - len1, u2) :: bs2) /\ untouched h h' p (p + len + 8) /\ lfree h' = lfree h.
Proof.
  intros Hr Hl1 Hm1 Hl2 p h'.
  destruct (linked_around _ _ _ _ _ Hr) as (Hp & Hp4 & Hl & Hl4 & Hb & Ht & Hs1 & Hg & Hs2 & Hne & _).
  destruct Hr as [Hz _ _ He]. fold p in Hp, Hp4, Hb, Ht, Hg, Hs2, Hne.
  assert (sized h') as Hz'.
  { unfold h', split_at. case_if; sized_tac. }
  assert (p + len = 1600 \/ p + len + 20 <= 1600) as Hend.
  { destruct bs2; [left; cbn in Ht; lia|right; by apply Hne]. }
  split_and!.
  - apply linked_intro; try done; fold p.
    + eapply seg_frame; [|done]. fold p. rewrite Z.add_0_l. intros q Hq Hq'. unfold h', split_at.
      case_if; hdr_simpl; done.
    + unfold h', split_at. case_if; hdr_simpl; rewrite ?Hg; done.
    + cbn [seg]. split_and!; [lia|zdivmod| |].
      * unfold h', split_at. case_if; hdr_simpl; f_equal; lia.
      * replace (p + len1 + (len - len1)) with (p + len) by lia. eapply seg_reprev; [| |exact Hs2].
        -- intros q Hq Hq'. unfold h', split_at. case_if; hdr_simpl; done.
        -- intros Hb2. specialize (Hne Hb2). unfold h', split_at. case_if; [lia|]. hdr_simpl. done.
    + cbn [total]. lia.
    + unfold h', split_at. case_if; hdr_simpl; done.
  - intros a n Ha Hc. unfold h', split_at. case_if; bytes_simpl; done.
  - unfold h', split_at. by case_if.
Qed.

(** ** [mem_take] *)

Lemma linked_wlfree p h bs : linked h bs -> linked (wlfree p h) bs.
Proof.
  intros [Hz Hs Ht He]. constructor; [done| |done|done]. eapply seg_frame; [|done]. by intros q.
Qed.

(** After a block in front of which all are used was taken, [lfree] moves on. *)
Lemma swp_adjust h bs p old new (Q : unit -> heap -> Prop) : linked h bs ->
  lfree h = old -> first_free 0 bs = new ->
  (p = old -> exists l k, bs = l ++ k /\ total l = p /\ forallb snd l = true) -> (p <> old -> new = old) ->
  Q tt (wlfree new h) -> sto_wp (adjust_lfree p) Q h.
Proof.
  intros Hr Hold Hnew Hp Hne HQ. unfold adjust_lfree. apply swp_bind, swp_get. rewrite Hold.
  destruct (Z.eqb_spec p old) as [E|E].
  - destruct (Hp E) as (l & k & -> & Hl & Hu). pose proof (linked_length _ _ Hr) as Hlen.
    destruct Hr as [Hz Hs Ht He]. rewrite <- E. apply seg_app in Hs as [Hs1 Hs2]. rewrite Z.add_0_l, Hl in Hs2.
    rewrite total_app, Hl in Ht. rewrite length_app in Hlen.
    rewrite (next_free_spec h k He _ _ _ Hs2 Ht) by (change walk_fuel with 1600%nat; lia).
    rewrite first_free_app, Hu, Z.add_0_l, Hl in Hnew. rewrite Hnew. exact HQ.
  - rewrite (Hne E) in HQ. apply swp_ret. assert (wlfree old h = h) as <- by (rewrite <- Hold; by destruct h). done.
Qed.

Lemma total_split size len : total (a_split size len) = len.
Proof. unfold a_split. case_if; cbn; lia. Qed.

Lemma forallb_first_free h off pr l : seg h off pr l -> forallb snd l = false -> first_free off l < off + total l.
Proof.
  revert off pr. induction l as [|[len u] l IH]; intros off pr Hs Hf; [done|]. destruct Hs as (Hl & _ & _ & Hs).
  pose proof (seg_nonneg _ _ _ _ Hs). cbn [first_free total]. destruct u; [|lia]. specialize (IH _ _ Hs Hf). lia.
Qed.

Lemma swp_take h bs1 len bs2 size (Q : option Z -> heap -> Prop) : rep h (bs1 ++ (len, false) :: bs2) ->
  12 <= size -> size mod 4 = 0 -> size <= len - 8 ->
  (forall h', rep h' (bs1 ++ a_split size len ++ bs2) -> untouched h h' (total bs1) (total bs1 + len + 8) ->
     Q (Some (total bs1 + 8)) h') ->
  sto_wp (mem_take (total bs1) size) Q h.
Proof.
  intros [Hr Hj Hlf] Hs Hs4 Hfit HQ.
  destruct (linked_around _ _ _ _ _ Hr) as (Hp & Hp4 & Hl & Hl4 & Hb & Ht & Hs1 & Hg & _).
  apply joined_app in Hj as (Hj1 & Hj2 & Hj3). apply joined_cons in Hj2 as [Hh Hj2]. cbn in Hh.
  unfold mem_take. change SIZEOF_STRUCT_MEM with 8. change MIN_SIZE_ALIGNED with 12. change MEM_SIZE_ALIGNED with 1600.
  apply swp_bind, swp_get. rewrite Hg. cbn [m_next]. rewrite u32_small by (unfold is_u32; lia).
  replace (total bs1 + len - (total bs1 + 8)) with (len - 8) by lia.
  apply swp_bind, (swp_mono _ (fun _ h' => linked h' (bs1 ++ a_split size len ++ bs2) /\
    untouched h h' (total bs1) (total bs1 + len + 8) /\ lfree h' = lfree h)).
  - unfold a_split. destruct (Z.leb_spec (size + 8 + 12) (len - 8)), (Z.leb_spec (size + 20) (len - 8)); try lia.
    + rewrite u16_small by (unfold is_u16; lia).
      pose proof (linked_split h bs1 len false bs2 (8 + size) true false Hr ltac:(lia) ltac:(zdivmod) ltac:(lia)) as Hsp.
      cbn zeta in Hsp. replace (len - (8 + size)) with (len - 8 - size) in Hsp by lia.
      repeat (apply swp_bind, swp_mod). unfold split_at in Hsp.
      replace (total bs1 + 8 + size) with (total bs1 + (8 + size)) by lia.
      destruct (Z.eqb_spec (total bs1 + len) 1600); exact Hsp.
    + apply swp_mod. destruct (linked_wused h bs1 len false bs2 true Hr) as [Hr' Hu]. split_and!; [done| |done].
      intros a n Ha Hc. apply Hu; lia.
  - intros _ h' (Hr' & Hu & Hl').
    assert (joined (bs1 ++ a_split size len ++ bs2)) as Hj'.
    { apply joined_app. split_and!; [done| |].
      - unfold a_split. case_if; cbn [app]; rewrite !joined_cons; cbn; by split_and!.
      - unfold a_split. case_if; cbn; apply orb_true_r. }
    apply swp_bind, (swp_adjust h' (bs1 ++ a_split size len ++ bs2) (total bs1) (lfree h)
      (first_free 0 (bs1 ++ a_split size len ++ bs2))); [done|done|done| | |].
    + intros E. exists bs1, (a_split size len ++ bs2). split_and!; [done|done|].
      destruct (forallb snd bs1) eqn:Ef; [done|]. rewrite Hlf, first_free_app, Ef in E.
      pose proof (forallb_first_free _ _ _ _ Hs1 Ef). lia.
    + intros E. rewrite Hlf, !first_free_app in *. destruct (forallb snd bs1); [|done]. cbn in E. lia.
    + apply swp_ret. apply HQ; [|exact Hu]. constructor; [by apply linked_wlfree|done|done].
Qed.

(** ** The blocks in use *)

Definition block_at (bs : list block) (off len : Z) (u : bool) : Prop :=
  exists l k, bs = l ++ (len, u) :: k /\ total l = off.

Lemma block_disjoint h off pr bs p len u q len' u' : seg h off pr bs ->
  block_at bs p len u -> block_at bs q len' u' ->
  (p = q /\ len = len' /\ u = u') \/ p + len <= q \/ q + len' <= p.
Proof.
  revert off pr p q. induction bs as [|[n v] bs IH]; intros off pr p q Hs (l & k & E & Hl) (l' & k' & E' & Hl').
  { by destruct l. }
  destruct Hs as (Hn & _ & _ & Hs). pose proof (seg_nonneg _ _ _ _ Hs) as Hpos.
  assert (forall b (m : list block) x k, bs = m ++ (x, b) :: k -> 0 <= total m) as Hm.
  { intros b m x k0 Eb. rewrite Eb in Hs. apply seg_app in Hs as [Hs _]. by eapply seg_nonneg. }
  destruct l as [|b l], l' as [|b' l']; cbn [app] in E, E'.
  - injection E as -> -> ->. injection E' as -> -> ->. left. by rewrite <- Hl, <- Hl'.
  - injection E as -> -> ->. injection E' as <- E'. specialize (Hm _ _ _ _ E'). cbn in Hl, Hl'. lia.
  - injection E' as -> -> ->. injection E as <- E. specialize (Hm _ _ _ _ E). cbn in Hl, Hl'. lia.
  - injection E as <- E. injection E' as <- E'. cbn [total] in Hl, Hl'.
    destruct (IH (off + n) off (total l) (total l') Hs) as [(? & ? & ?)|?];
      [by exists l, k|by exists l', k'|left; split_and!; [lia|done|done]|right; lia].
Qed.

(** The bytes of the blocks in use, but for the one at [p]. *)
Definition keeps_others (p : Z) (bs : list block) (h h' : heap) : Prop :=
  forall off len, block_at bs off len true -> off <> p ->
    mem_read (off + 8) (len - 8) (ram h') = mem_read (off + 8) (len - 8) (ram h).

Lemma untouched_keeps h h' bs bs1 len u bs2 : linked h bs -> bs = bs1 ++ (len, u) :: bs2 ->
  untouched h h' (total bs1) (total bs1 + len + 8) -> keeps_others (total bs1) bs h h'.
Proof.
  intros Hr E Hu off n Hb Hne. pose proof (r_seg _ _ Hr) as Hs.
  assert (0 <= off) as Hoff.
  { destruct Hb as (l & k & -> & <-). apply seg_app in Hs as [Hs _]. by eapply seg_nonneg. }
  apply Hu; [lia|]. destruct (block_disjoint _ _ _ _ _ _ _ _ _ _ Hs Hb (ltac:(by exists bs1, bs2) : block_at bs (total bs1) len u))
    as [(? & _ & _)|[?|?]]; [done|lia|lia].
Qed.

(** ** Allocation: first fit *)

Fixpoint a_malloc (off size : Z) (bs : list block) : option (Z * list block) :=
  match bs with
  | [] => None
  | (len, u) :: bs =>
      if negb u && (size <=? len - 8) then Some (off, a_split size len ++ bs)
      else match a_malloc (off + len) size bs with
           | Some (p, bs') => Some (p, (len, u) :: bs')
           | None => None
           end
  end.

(** What [mem_malloc] asks for: the size aligned, at least the minimum. *)
Definition request (size_in : Z) : Z := Z.max 12 ((size_in + 3) / 4 * 4).

Lemma a_malloc_none h off pr size bs : seg h off pr bs -> off + total bs = 1600 -> 1600 - size <= off ->
  a_malloc off size bs = None.
Proof.
  revert off pr. induction bs as [|[len u] bs IH]; intros off pr Hs Ht Hge; [done|].
  destruct Hs as (Hl & _ & _ & Hs). pose proof (seg_nonneg _ _ _ _ Hs). cbn [total] in Ht. cbn [a_malloc].
  destruct (Z.leb_spec size (len - 8)); [lia|]. rewrite andb_false_r. by rewrite (IH (off + len) off) by (done || lia).
Qed.

(** The loop finds the first fit among the blocks it has not passed yet. *)
Lemma swp_malloc_loop size h : 12 <= size -> size mod 4 = 0 -> forall fuel bs1 bs2 (Q : option Z -> heap -> Prop),
  rep h (bs1 ++ bs2) -> (length bs2 < fuel)%nat ->
  (a_malloc (total bs1) size bs2 = None -> Q None h) ->
  (forall p bs' h', a_malloc (total bs1) size bs2 = Some (p, bs') -> rep h' (bs1 ++ bs') ->
     keeps_others p (bs1 ++ bs2) h h' -> Q (Some (p + 8)) h') ->
  sto_wp (malloc_loop fuel (total bs1) size) Q h.
Proof.
  intros Hs Hs4. induction fuel as [|fuel IH]; intros bs1 bs2 Q Hr Hf HN HS; [lia|].
  pose proof (r_linked _ _ Hr) as [Hz Hseg Ht He]. rewrite total_app in Ht. apply seg_app in Hseg as [Hs1 Hs2].
  rewrite Z.add_0_l in Hs2. pose proof (seg_nonneg _ _ _ _ Hs1). pose proof (seg_nonneg _ _ _ _ Hs2).
  cbn [malloc_loop]. change MEM_SIZE_ALIGNED with 1600. change SIZEOF_STRUCT_MEM with 8.
  destruct (Z.ltb_spec (total bs1) (1600 - size)) as [Hlt|Hge]; cbn [negb].
  2: { apply swp_ret, HN. eapply a_malloc_none; [exact Hs2|lia|lia]. }
  destruct bs2 as [|[len u] bs2]; [cbn in Ht; lia|]. destruct Hs2 as (Hl & Hm & Hg & Hs2).
  pose proof (seg_nonneg _ _ _ _ Hs2). cbn [total] in Ht. apply swp_bind, swp_get. rewrite Hg. cbn [m_used m_next].
  rewrite u32_small by (unfold is_u32; lia). replace (total bs1 + len - (total bs1 + 8)) with (len - 8) by lia.
  assert ((used_byte u =? 0) = negb u) as -> by by destruct u. cbn [a_malloc] in HN, HS.
  destruct (negb u && (size <=? len - 8)) eqn:Efit.
  - apply andb_true_iff in Efit as [Eu Ele]. destruct u; [done|]. apply Z.leb_le in Ele.
    eapply swp_take; [exact Hr|done|done|done|]. intros h' Hr' Hu. eapply HS; [done|exact Hr'|].
    eapply untouched_keeps; [apply Hr|done|exact Hu].
  - replace (total bs1 + len) with (total (bs1 ++ [(len, u)])) in * by (rewrite total_app; cbn; lia).
    cbn in Hf. apply (IH (bs1 ++ [(len, u)]) bs2); [by rewrite <- app_assoc|lia| |].
    + intros E. apply HN. by rewrite E.
    + intros p bs' h' E Hr' Hk. rewrite E in HS. rewrite <- app_assoc in Hr', Hk. by eapply HS.
Qed.

Lemma request_size n : is_u16 n -> let a := u16 (LWIP_MEM_ALIGN_SIZE n) in let s := if a <? 12 then 12 else a in
  ((1600 <? s) || (s <? n) = (1600 <? request n)) /\ (request n <= 1600 -> s = request n) /\
  12 <= request n /\ request n mod 4 = 0.
Proof.
  intros Hn. cbn zeta. rewrite align_size. unfold is_u16, request in *.
  set (a := (n + 3) / 4 * 4). assert (n <= a <= n + 3 /\ a mod 4 = 0) as [Ha Ha4] by (unfold a; zdivmod). split_and!.
  - destruct (decide (a < 65536)); [rewrite u16_small by (unfold is_u16; lia); destruct (Z.ltb_spec a 12); lia|].
    assert (u16 a = 0) as -> by (unfold u16; zdivmod). cbn. lia.
  - intros Hle. rewrite u16_small by (unfold is_u16; lia). destruct (Z.ltb_spec a 12); lia.
  - lia.
  - destruct (Z.max_spec 12 a) as [[_ ->]|[_ ->]]; done.
Qed.

Lemma first_free_split off bs : exists l k, bs = l ++ k /\ forallb snd l = true /\ off + total l = first_free off bs.
Proof.
  revert off. induction bs as [|[len u] bs IH]; intros off; [exists [], []; split_and!; [done|done|cbn; lia]|].
  destruct u; [|exists [], ((len, false) :: bs); split_and!; [done|done|cbn; lia]].
  destruct (IH (off + len)) as (l & k & -> & Hu & Hl). exists ((len, true) :: l), k. split_and!; [done|done|]. cbn. lia.
Qed.

Lemma a_malloc_skip off size l k : forallb snd l = true ->
  a_malloc off size (l ++ k) =
  match a_malloc (off + total l) size k with Some (p, bs') => Some (p, l ++ bs') | None => None end.
Proof.
  revert off. induction l as [|[len u] l IH]; intros off Hu; cbn [app total].
  - rewrite Z.add_0_r. by destruct (a_malloc off size k) as [[]|].
  - cbn in Hu. apply andb_true_iff in Hu as [-> Hu]. cbn [a_malloc negb andb]. rewrite IH by done.
    rewrite Z.add_assoc. by destruct (a_malloc (off + len + total l) size k) as [[]|].
Qed.

Lemma a_malloc_too_big off size bs h pr : seg h off pr bs -> total bs <= 1600 -> 1592 < size -> a_malloc off size bs = None.
Proof.
  revert off pr. induction bs as [|[len u] bs IH]; intros off pr Hs Ht Hb; [done|].
  destruct Hs as (Hl & _ & _ & Hs). pose proof (seg_nonneg _ _ _ _ Hs). cbn [total] in Ht. cbn [a_malloc].
  destruct (Z.leb_spec size (len - 8)); [lia|]. rewrite andb_false_r. by rewrite (IH (off + len) off) by (done || lia).
Qed.

Lemma swp_malloc h bs n (Q : option Z -> heap -> Prop) : rep h bs -> is_u16 n -> n <> 0 ->
  (a_malloc 0 (request n) bs = None -> Q None h) ->
  (forall p bs' h', a_malloc 0 (request n) bs = Some (p, bs') -> rep h' bs' -> keeps_others p bs h h' ->
     Q (Some (p + 8)) h') ->
  sto_wp (mem_malloc n) Q h.
Proof.
  intros Hr Hn H0 HN HS. destruct (request_size n Hn) as (Eg & Es & H12 & Hm). cbn zeta in Eg, Es.
  unfold mem_malloc. destruct (Z.eqb_spec n 0); [done|]. change MEM_SIZE_ALIGNED with 1600.
  change MIN_SIZE_ALIGNED with 12. cbn zeta. rewrite Eg. pose proof (r_linked _ _ Hr) as [_ Hseg Ht _].
  destruct (Z.ltb_spec 1600 (request n)).
  { apply swp_ret, HN. eapply a_malloc_too_big; [exact Hseg|lia|lia]. }
  rewrite Es by done. apply swp_bind, swp_get. rewrite (r_lfree _ _ Hr).
  destruct (first_free_split 0 bs) as (l & k & E & Hu & Hl). rewrite <- Hl, Z.add_0_l.
  pose proof (linked_length _ _ (r_linked _ _ Hr)) as Hlen. rewrite E in HN, HS, Hr, Hlen. rewrite length_app in Hlen.
  rewrite a_malloc_skip, Z.add_0_l in HN, HS by done.
  apply swp_malloc_loop with (bs2 := k); [lia|done|done|change walk_fuel with 1600%nat; lia| |].
  - intros E'. apply HN. by rewrite E'.
  - intros p bs' h' E' Hr' Hk. apply (HS p (l ++ bs') h'); [by rewrite E'|done|done].
Qed.

(** ** Freeing: joining with free neighbours *)

(** Putting a block in front of a list, joined with the first one when both are free. *)
Definition fcons (b : block) (bs : list block) : list block :=
  match b, bs with
  | (len, false), (len', false) :: bs => (len + len', false) :: bs
  | _, _ => b :: bs
  end.

Fixpoint a_free (off p : Z) (bs : list block) : list block :=
  match bs with
  | [] => []
  | (len, u) :: bs =>
      if off =? p then fcons (len, false) bs else fcons (len, u) (a_free (off + len) p bs)
  end.

Lemma a_free_at h off pr l len u k : seg h off pr l ->
  a_free off (off + total l) (l ++ (len, u) :: k) = foldr fcons (fcons (len, false) k) l.
Proof.
  revert off pr. induction l as [|[n v] l IH]; intros off pr Hs; cbn [app a_free total foldr].
  { by rewrite Z.add_0_r, Z.eqb_refl. }
  destruct Hs as (Hn & _ & _ & Hs). pose proof (seg_nonneg _ _ _ _ Hs).
  destruct (Z.eqb_spec off (off + (n + total l))); [lia|]. f_equal.
  replace (off + (n + total l)) with (off + n + total l) by lia. by eapply IH.
Qed.

Lemma fcons_head b bs : exists len, head (fcons b bs) = Some (len, b.2).
Proof. destruct b as [n []], bs as [|[m []] bs]; by eexists. Qed.

(** Only the last block before the freed one can be joined with it. *)
Lemma foldr_fcons l b X : joined (l ++ [b]) -> foldr fcons X (l ++ [b]) = l ++ fcons b X.
Proof.
  induction l as [|[n u] l IH]; intros Hj; [done|]. cbn [app foldr] in *. apply joined_cons in Hj as [Hu Hj].
  rewrite IH by done. destruct l as [|[m v] l].
  - cbn [app] in *. destruct (fcons_head b X) as [len Hh]. destruct (fcons b X) as [|[m v] Y]; [done|].
    injection Hh as -> ->. destruct b as [bn []], u; done.
  - cbn [app] in *. by destruct u, v.
Qed.

Definition merge_at (p n : Z) (h : heap) : heap :=
  let h := wnext p n h in if n =? 1600 then h else wprev n p h.

Lemma linked_merge h bs1 len1 u1 len2 u2 bs2 : linked h (bs1 ++ (len1, u1) :: (len2, u2) :: bs2) ->
  let p := total bs1 in let n := p + len1 + len2 in let h' := merge_at p n h in
  linked h' (bs1 ++ (len1 + len2, u1) :: bs2) /\ untouched h h' p (n + 8) /\ lfree h' = lfree h.
Proof.
  intros Hr p n h'. destruct (linked_around _ _ _ _ _ Hr) as (Hp & Hp4 & Hl & Hl4 & Hb & Ht & Hs1 & Hg & Hs2 & _).
  destruct Hr as [Hz _ _ He]. destruct Hs2 as (Hl2 & Hm2 & Hg2 & Hs2). fold p in Hp, Hp4, Hb, Ht, Hg, Hg2, Hs2.
  pose proof (seg_nonneg _ _ _ _ Hs2). cbn [total] in Ht. fold n in Hs2.
  assert (n = 1600 \/ n + 20 <= 1600) as Hend.
  { destruct bs2 as [|[len3 u3] bs2]; [left; cbn in Ht; lia|right]. destruct Hs2 as (Hl3 & _ & _ & Hs3).
    pose proof (seg_nonneg _ _ _ _ Hs3). cbn [total] in Ht. lia. }
  split_and!.
  - apply linked_intro; fold p; try lia.
    + unfold h', merge_at. case_if; sized_tac.
    + eapply seg_frame; [|done]. fold p. rewrite Z.add_0_l. intros q Hq Hq'. unfold h', merge_at. case_if; hdr_simpl; done.
    + zdivmod.
    + unfold h', merge_at. replace (p + (len1 + len2)) with n by lia. case_if; hdr_simpl; rewrite ?Hg; done.
    + replace (p + (len1 + len2)) with n by lia. eapply seg_reprev; [| |exact Hs2].
      * intros q Hq Hq'. unfold h', merge_at. case_if; hdr_simpl; done.
      * intros Hne. unfold h', merge_at. destruct (Z.eqb_spec n 1600) as [E|E]; [|hdr_simpl; done].
        destruct bs2 as [|[len3 u3] bs2]; [done|]. destruct Hs2 as (Hl3 & _ & _ & Hs3).
        pose proof (seg_nonneg _ _ _ _ Hs3). cbn [total] in Ht. lia.
    + unfold h', merge_at. case_if; hdr_simpl; done.
  - intros a m Ha Hc. unfold h', merge_at. case_if; bytes_simpl; done.
  - unfold h', merge_at. by case_if.
Qed.

Lemma swp_plug_forward h bs1 len bs2 (Q : unit -> heap -> Prop) :
  linked h (bs1 ++ (len, false) :: bs2) -> lfree h <= total bs1 ->
  (forall h' len' bs2', fcons (len, false) bs2 = (len', false) :: bs2' -> linked h' (bs1 ++ (len', false) :: bs2') ->
     untouched h h' (total bs1) (total bs1 + len' + 8) -> lfree h' = lfree h -> Q tt h') ->
  sto_wp (plug_forward (total bs1)) Q h.
Proof.
  intros Hr Hlf HQ. destruct (linked_around _ _ _ _ _ Hr) as (Hp & _ & Hl & _ & Hb & Ht & _ & Hg & Hs2 & Hne & Hu).
  unfold plug_forward. change ram_end with 1600. change MEM_SIZE_ALIGNED with 1600.
  apply swp_bind, swp_get. rewrite Hg. cbn [m_next]. rewrite Hu.
  destruct (Z.eqb_spec (total bs1) (total bs1 + len)) as [E|_]; [lia|]. cbn [negb andb].
  destruct bs2 as [|[len2 []] bs2]; cbn [head_used used_byte Z.eqb andb].
  - apply (HQ h len []); [done|done|by intros a n|done].
  - apply (HQ h len ((len2, true) :: bs2)); [done|done|by intros a n|done].
  - destruct (Z.eqb_spec (total bs1 + len) 1600) as [E|E]; [specialize (Hne ltac:(done)); lia|]. cbn [negb].
    destruct Hs2 as (Hl2 & _ & Hg2 & Hs2). pose proof (seg_nonneg _ _ _ _ Hs2). cbn [total] in Ht.
    rewrite Hg2. cbn [m_next]. destruct (Z.eqb_spec (lfree h) (total bs1 + len)) as [E'|_]; [lia|].
    destruct (linked_merge h bs1 len false len2 false bs2 Hr) as (Hr' & Hu' & Hl'). unfold merge_at in *.
    pose proof (r_sized _ _ Hr). apply swp_bind, swp_ret, swp_bind, swp_mod, swp_bind, swp_get.
    change (h <| ram := _ |>) with (wnext (total bs1) (total bs1 + len + len2) h).
    rewrite get_wnext_ne by lia. rewrite Hg2. cbn [m_next].
    apply (swp_mono _ (fun _ h' => h' = if total bs1 + len + len2 =? 1600
      then wnext (total bs1) (total bs1 + len + len2) h
      else wprev (total bs1 + len + len2) (total bs1) (wnext (total bs1) (total bs1 + len + len2) h))).
    + by destruct (total bs1 + len + len2 =? 1600).
    + intros [] h' ->. apply (HQ _ (len + len2) bs2); [done|done| |done].
      intros a n Ha Hc. apply Hu'; lia.
Qed.

Lemma last_start_snoc l len u : last_start 0 0 (l ++ [(len, u)]) = total l.
Proof. by rewrite last_start_app. Qed.

Lemma swp_plug_backward h l len0 u0 len bs2 (Q : unit -> heap -> Prop) :
  linked h (l ++ (len0, u0) :: (len, false) :: bs2) -> (u0 = false -> lfree h <= total l) ->
  (u0 = true -> Q tt h) ->
  (forall h', u0 = false -> linked h' (l ++ (len0 + len, false) :: bs2) ->
     untouched h h' (total l) (total l + len0 + len + 8) -> lfree h' = lfree h -> Q tt h') ->
  sto_wp (plug_backward (total l + len0)) Q h.
Proof.
  intros Hr Hlf HQ1 HQ. destruct (linked_around _ _ _ _ _ Hr) as (Hp & _ & Hl & _ & Hb & Ht & _ & Hg & Hs2 & Hne & Hu).
  destruct Hs2 as (Hl2 & _ & Hg2 & Hs2). pose proof (seg_nonneg _ _ _ _ Hs2). cbn [total] in Ht.
  unfold plug_backward. change MEM_SIZE_ALIGNED with 1600. apply swp_bind, swp_get. rewrite Hg2. cbn [m_prev m_next].
  rewrite Hg. cbn [m_used]. destruct (Z.eqb_spec (total l) (total l + len0)) as [E|_]; [lia|]. cbn [negb andb].
  destruct u0; cbn [used_byte Z.eqb].
  - by apply HQ1.
  - specialize (Hlf eq_refl). destruct (Z.eqb_spec (lfree h) (total l + len0)) as [E'|_]; [lia|].
    destruct (linked_merge h l len0 false len false bs2 Hr) as (Hr' & Hu' & Hl'). unfold merge_at in *.
    pose proof (r_sized _ _ Hr). apply swp_bind, swp_ret, swp_bind, swp_mod, swp_bind, swp_get.
    change (h <| ram := _ |>) with (wnext (total l) (total l + len0 + len) h).
    rewrite get_wnext_ne by lia. rewrite Hg2. cbn [m_next].
    apply (swp_mono _ (fun _ h' => h' = if total l + len0 + len =? 1600
      then wnext (total l) (total l + len0 + len) h
      else wprev (total l + len0 + len) (total l) (wnext (total l) (total l + len0 + len) h))).
    + by destruct (total l + len0 + len =? 1600).
    + intros [] h' ->. by apply HQ.
Qed.

Lemma plug_backward_first h len bs2 (Q : unit -> heap -> Prop) :
  linked h ((len, false) :: bs2) -> Q tt h -> sto_wp (plug_backward 0) Q h.
Proof.
  intros Hr HQ. destruct (r_seg _ _ Hr) as (_ & _ & Hg & _). unfold plug_backward.
  apply swp_bind, swp_get. by rewrite Hg.
Qed.

Lemma block_at_app h a b off n u : seg h 0 0 (a ++ b) -> block_at (a ++ b) off n u ->
  (block_at a off n u /\ off + n <= total a) \/ (block_at b (off - total a) n u /\ total a <= off).
Proof.
  intros Hs (l & k & E & Hl). apply app_eq_app in E as (m & [[-> Eb]|[-> Eb]]).
  - destruct m as [|b0 m]; cbn [app] in Eb.
    + right. rewrite app_nil_r in *. split; [|lia]. exists [], k. split; [done|]. cbn. lia.
    + injection Eb as <- ->. left. apply seg_app in Hs as [Hs _]. rewrite total_app. cbn [total].
      apply seg_app in Hs as [_ Hs]. destruct Hs as (_ & _ & _ & Hs). pose proof (seg_nonneg _ _ _ _ Hs).
      split; [by exists l, m|]. lia.
  - right. apply seg_app in Hs as [_ Hs]. rewrite Eb in Hs. apply seg_app in Hs as [Hs _].
    pose proof (seg_nonneg _ _ _ _ Hs). rewrite total_app in Hl. split; [|lia]. exists m, k. split; [done|]. lia.
Qed.

(** Changes inside a run of blocks of which only the one at [p] is in use. *)
Lemma region_keeps h h' p l mid k : linked h (l ++ mid ++ k) ->
  (forall off n, block_at mid off n true -> total l + off = p) ->
  untouched h h' (total l) (total l + total mid + 8) -> keeps_others p (l ++ mid ++ k) h h'.
Proof.
  intros Hr Hmid Hu off n Hb Hne. pose proof (r_seg _ _ Hr) as Hs.
  assert (0 <= off) as Hoff.
  { destruct Hb as (a & b & E & <-). rewrite E in Hs. apply seg_app in Hs as [Hs _]. by eapply seg_nonneg. }
  apply Hu; [lia|]. destruct (block_at_app h l (mid ++ k) off n true Hs Hb) as [[_ H1]|[Hb' H1]]; [lia|].
  destruct Hb' as (a & b & E & Ha). apply app_eq_app in E as (m & [[E1 E2]|[E1 E2]]).
  - destruct m as [|b0 m]; cbn [app] in E2.
    + rewrite app_nil_r in E1. subst a. lia.
    + injection E2 as <- _. specialize (Hmid (total a) n ltac:(by exists a, m)). lia.
  - subst a. rewrite total_app in Ha. rewrite E2, app_assoc in Hs. apply seg_app in Hs as [_ Hs].
    apply seg_app in Hs as [Hs _]. pose proof (seg_nonneg _ _ _ _ Hs). lia.
Qed.

Lemma land3 x : Z.land x (MEM_ALIGNMENT - 1) = x mod 4.
Proof. change (MEM_ALIGNMENT - 1) with (Z.ones 2). by rewrite Z.land_ones by lia. Qed.

Lemma last_start_bound h l : seg h 0 0 l -> 0 <= last_start 0 0 l <= total l.
Proof.
  intros Hs. destruct l as [|[len0 u0] l _] using rev_ind; [done|]. rewrite last_start_snoc, total_app. cbn [total].
  apply seg_app in Hs as [Hs (Hl & _)]. pose proof (seg_nonneg _ _ _ _ Hs). lia.
Qed.

(** The header of a block of a well-formed heap is found to be linked. *)
Lemma link_valid_block h l len u k : linked h (l ++ (len, u) :: k) -> mem_link_valid h (total l) = true.
Proof.
  intros Hr. destruct (linked_around _ _ _ _ _ Hr) as (Hp & _ & Hl & _ & Hb & Ht & Hs1 & Hg & Hs2 & Hne & _).
  pose proof (last_start_bound _ _ Hs1) as Hls. unfold mem_link_valid. change MEM_SIZE_ALIGNED with 1600.
  change ram_end with 1600. rewrite Hg. cbn [m_next m_prev]. apply negb_true_iff.
  assert (negb (last_start 0 0 l =? total l) && negb (m_next (get_mem h (last_start 0 0 l)) =? total l) = false) as E1.
  { destruct l as [|[len0 u0] l _] using rev_ind; [done|]. rewrite last_start_snoc.
    apply seg_app in Hs1 as [_ (_ & _ & Hg0 & _)]. rewrite Z.add_0_l in Hg0. rewrite Hg0, total_app. cbn [m_next total].
    rewrite Z.add_0_r, Z.eqb_refl. apply andb_false_r. }
  assert (negb (total l + len =? 1600) && negb (m_prev (get_mem h (total l + len)) =? total l) = false) as E2.
  { destruct k as [|[len2 u2] k]; [cbn in Ht; replace (total l + len) with 1600 by lia; done|].
    destruct Hs2 as (_ & _ & Hg2 & _). rewrite Hg2. cbn [m_prev]. rewrite Z.eqb_refl. apply andb_false_r. }
  rewrite E1, E2. lia.
Qed.

Lemma fcons_false len bs2 : exists len' bs2', fcons (len, false) bs2 = (len', false) :: bs2' /\
  total ((len', false) :: bs2') = len + total bs2 /\ (joined bs2 -> joined ((len', false) :: bs2')) /\
  (exists mid, (len, false) :: bs2 = mid ++ bs2' /\ total mid = len' /\ forall o n, ~ block_at mid o n true).
Proof.
  destruct bs2 as [|[len2 []] bs2]; cbn [fcons].
  - exists len, []. split_and!; [done|done|done|]. exists [(len, false)]. split_and!; [done|cbn; lia|].
    intros o n (l & k & E & _). destruct l as [|? [|]]; done.
  - exists len, ((len2, true) :: bs2). split_and!; [done|done|done|]. exists [(len, false)]. split_and!; [done|cbn; lia|].
    intros o n (l & k & E & _). destruct l as [|? [|]]; done.
  - exists (len + len2), bs2. split_and!; [done|cbn; lia|done|]. exists [(len, false); (len2, false)]. split_and!; [done|cbn; lia|].
    intros o n (l & k & E & _). destruct l as [|? [|? [|]]]; done.
Qed.

Lemma untouched_trans h1 h2 h3 lo hi lo' hi' : untouched h1 h2 lo hi -> untouched h2 h3 lo' hi' ->
  untouched h1 h3 (Z.min lo lo') (Z.max hi hi').
Proof. intros H1 H2 a n Ha Hc. rewrite H2, H1; [done|done|lia|done|lia]. Qed.

Lemma untouched_weaken h h' lo hi lo' hi' : untouched h h' lo hi -> lo' <= lo -> hi <= hi' -> untouched h h' lo' hi'.
Proof. intros H1 Hl Hh a n Ha Hc. apply H1; lia. Qed.

(** [plug_holes] on a block that has just been freed. *)
Lemma swp_plug_holes h bs1 len bs2 (Q : unit -> heap -> Prop) :
  linked h (bs1 ++ (len, false) :: bs2) -> joined bs1 -> joined bs2 ->
  lfree h = first_free 0 (bs1 ++ (len, false) :: bs2) ->
  (forall h' l mid k, rep h' (foldr fcons (fcons (len, false) bs2) bs1) ->
     bs1 ++ (len, false) :: bs2 = l ++ mid ++ k -> (forall o n, ~ block_at mid o n true) ->
     total l <= total bs1 -> total bs1 + len <= total l + total mid ->
     untouched h h' (total l) (total l + total mid + 8) -> Q tt h') ->
  sto_wp (plug_holes (total bs1)) Q h.
Proof.
  intros Hr Hj1 Hj2 Hlf HQ. pose proof (r_seg _ _ Hr) as Hs. apply seg_app in Hs as [Hs1 Hs2].
  assert (lfree h <= total bs1) as Hle.
  { rewrite Hlf, first_free_app. pose proof (first_free_bound _ _ _ _ Hs1). cbn. case_if; lia. }
  pose proof Hs2 as (Hlen & _). unfold plug_holes. apply swp_bind. eapply swp_plug_forward; [done|done|].
  intros h1 len' bs2' Ef Hr1 Hu1 Hl1.
  destruct (fcons_false len bs2) as (len'' & bs2'' & Ef' & Htot & Hj' & mid & Emid & Hmid & Hfree).
  rewrite Ef in Ef'. injection Ef' as <- <-. specialize (Hj' Hj2). rewrite Ef in HQ.
  assert (len <= len') as Hlm.
  { destruct Hs2 as (_ & _ & _ & Hs2). destruct bs2 as [|[len2 []] bs2]; cbn in Ef; injection Ef as <- _; try lia.
    destruct Hs2 as (Hl2 & _). lia. }
  rename Hmid into Hm.
  destruct bs1 as [|[len0 u0] l _] using rev_ind.
  - eapply plug_backward_first; [exact Hr1|]. apply (HQ h1 [] mid bs2'); try done; cbn; try lia.
    + constructor; [done|done|]. rewrite Hl1, Hlf. done.
    + cbn in Hu1. by rewrite Hm.
  - rewrite foldr_fcons in HQ by done. rewrite total_app in *. cbn [total] in *. rewrite Z.add_0_r in *.
    rewrite <- app_assoc in Hr1. cbn [app] in Hr1. apply joined_app in Hj1 as Hj1'. destruct Hj1' as (Hjl & _ & Hlu).
    cbn in Hlu. apply seg_app in Hs1 as [Hsl (Hl0 & _)]. pose proof (seg_nonneg _ _ _ _ Hsl).
    rewrite first_free_app, forallb_app in Hlf. cbn [forallb snd first_free] in Hlf.
    eapply swp_plug_backward; [exact Hr1| | |].
    + intros ->. rewrite Hl1, Hlf. rewrite andb_false_r, first_free_app. cbn [first_free].
      pose proof (first_free_bound _ _ _ _ Hsl). case_if; lia.
    + intros ->. apply (HQ h1 (l ++ [(len0, true)]) mid bs2'); try done; rewrite ?total_app; cbn [total]; try lia.
      * constructor; [done| |].
        -- apply joined_app. split_and!; [done|by apply joined_cons|by rewrite orb_true_r].
        -- rewrite Hl1, Hlf, first_free_app. cbn [first_free]. rewrite andb_true_r.
           rewrite !first_free_app. destruct (forallb snd l); [|done].
           cbn [fcons first_free]. rewrite total_app. cbn [total]. lia.
      * by rewrite <- Emid, <- app_assoc.
      * rewrite Hm, Z.add_0_r. done.
    + intros h' -> Hr' Hu' Hl'. apply (HQ h' l ((len0, false) :: mid) bs2'); try done; cbn [total]; try lia.
      * constructor; [done| |].
        -- apply joined_app. split_and!; [done| |by rewrite orb_true_r || done]. apply joined_cons in Hj' as [Hh Hjb].
           by apply joined_cons.
        -- rewrite Hl', Hl1, Hlf, !first_free_app. cbn [first_free forallb snd]. rewrite andb_false_r.
           cbn [first_free]. done.
      * rewrite <- app_assoc. cbn [app]. by rewrite <- Emid.
      * intros o n (a & b & E & Ha). destruct a as [|c a]; cbn [app] in E; [done|]. injection E as <- E.
        apply (Hfree (total a) n). by exists a, b.
      * pose proof (untouched_trans _ _ _ _ _ _ _ Hu1 Hu') as Hu. eapply untouched_weaken; [exact Hu|lia|lia].
Qed.

(** The other blocks of a heap are there when one is marked differently. *)
Lemma block_at_mark l len u u' k off n v : block_at (l ++ (len, u) :: k) off n v -> off <> total l ->
  block_at (l ++ (len, u') :: k) off n v.
Proof.
  intros (a & b & E & Ha) Hne. apply app_eq_app in E as (m & [[-> E]|[-> E]]).
  - destruct m as [|b0 m]; cbn [app] in E.
    + rewrite app_nil_r in Hne. done.
    + injection E as <- ->. exists a, (m ++ (len, u') :: k). by rewrite <- app_assoc.
  - destruct m as [|b0 m]; cbn [app] in E; [rewrite app_nil_r in Ha; lia|]. injection E as <- ->.
    exists (l ++ (len, u') :: m), b. rewrite <- app_assoc. split; [done|]. rewrite total_app in *. cbn in *. lia.
Qed.

(** A block in use is freed. *)
Lemma swp_free h bs1 len bs2 (Q : unit -> heap -> Prop) : rep h (bs1 ++ (len, true) :: bs2) ->
  (forall h', rep h' (a_free 0 (total bs1) (bs1 ++ (len, true) :: bs2)) ->
     keeps_others (total bs1) (bs1 ++ (len, true) :: bs2) h h' -> Q tt h') ->
  sto_wp (mem_free (Some (total bs1 + 8))) Q h.
Proof.
  intros [Hr Hj Hlf] HQ. destruct (linked_around _ _ _ _ _ Hr) as (Hp & Hp4 & Hl & _ & Hb & Ht & Hs1 & Hg & _).
  unfold mem_free. rewrite land3. destruct (Z.eqb_spec ((total bs1 + 8) mod 4) 0) as [_|E]; [|exfalso; zdivmod].
  change SIZEOF_STRUCT_MEM with 8. change MIN_SIZE_ALIGNED with 12. change ram_end with 1600. cbn [negb].
  replace (total bs1 + 8 - 8) with (total bs1) by lia.
  destruct (Z.ltb_spec (total bs1) 0), (Z.ltb_spec 1600 (total bs1 + 8 + 12)); try lia. cbn [orb].
  apply swp_bind, swp_get. rewrite (link_valid_block _ _ _ _ _ Hr), Hg. cbn [m_used used_byte Z.eqb negb].
  apply joined_app in Hj as (Hj1 & Hj2 & _). apply joined_cons in Hj2 as [_ Hj2].
  destruct (linked_wused h bs1 len true bs2 false Hr) as [Hr1 Hu1]. cbn [used_byte] in Hr1, Hu1.
  apply swp_bind, swp_mod. change (h <| ram := _ |>) with (wused (total bs1) 0 h). set (h1 := wused (total bs1) 0 h) in *.
  set (h2 := if total bs1 <? lfree h then wlfree (total bs1) h1 else h1).
  assert (linked h2 (bs1 ++ (len, false) :: bs2)) as Hr2 by (unfold h2; case_if; [by apply linked_wlfree|done]).
  assert (untouched h h2 (total bs1) (total bs1 + 8)) as Hu2 by (unfold h2; by case_if).
  assert (lfree h2 = first_free 0 (bs1 ++ (len, false) :: bs2)) as Hlf2.
  { rewrite first_free_app in Hlf |- *. cbn [first_free] in *. rewrite Z.add_0_l in *.
    pose proof (r_seg _ _ Hr) as Hs. apply seg_app in Hs as [_ (_ & _ & _ & Hs2)]. rewrite Z.add_0_l in Hs2.
    pose proof (first_free_bound _ _ _ _ Hs2). unfold h2. destruct (forallb snd bs1) eqn:Ef.
    - destruct (Z.ltb_spec (total bs1) (lfree h)); [done|lia].
    - pose proof (forallb_first_free _ _ _ _ Hs1 Ef). destruct (Z.ltb_spec (total bs1) (lfree h)); [lia|done]. }
  apply swp_bind, (swp_mono _ (fun _ h' => h' = h2)).
  { unfold h2. by destruct (total bs1 <? lfree h). }
  intros [] h' ->. eapply swp_plug_holes; [done|done|done|done|].
  intros h' l mid k Hr' E Hfree Hlo Hhi Hu. apply HQ.
  - pose proof (a_free_at h 0 0 bs1 len true bs2 Hs1) as Ea. rewrite Z.add_0_l in Ea. by rewrite Ea.
  - assert (keeps_others (total bs1) (bs1 ++ (len, true) :: bs2) h h2) as Hk2.
    { eapply untouched_keeps; [exact Hr|done|]. eapply untouched_weaken; [exact Hu2|lia|lia]. }
    intros off n Hb' Hne. rewrite <- (Hk2 off n Hb' Hne). apply (block_at_mark _ _ _ false) in Hb'; [|done].
    rewrite E in Hb', Hr2. eapply (region_keeps h2 h' (total bs1)); [exact Hr2| |done|done|done].
    intros o m Hm. by destruct (Hfree o m).
Qed.

(** ** Shrinking *)

(** The block of length [len] in front of [bs2], shrunk to [newsize] bytes of data. *)
Definition a_shrink (newsize len : Z) (bs2 : list block) : list block :=
  if newsize =? len - 8 then (len, true) :: bs2
  else match bs2 with
       | (len2, false) :: bs2 => (8 + newsize, true) :: (len + len2 - (8 + newsize), false) :: bs2
       | _ => if newsize + 20 <=? len - 8
              then (8 + newsize, true) :: (len - (8 + newsize), false) :: bs2 else (len, true) :: bs2
       end.

Definition trim_at (p n next : Z) (h : heap) : heap :=
  let h := wnext p n (wprev n p (wnext n next (wused n 0 h))) in
  if next =? 1600 then h else wprev next n h.

(** A used block of length [len1] and a free one take the place of the blocks between
    [p] and [p + L]. *)
Lemma linked_resplit h bs1 L pr bs2 len1 : let p := total bs1 in let h' := trim_at p (p + len1) (p + L) h in
  sized h -> seg h 0 0 bs1 -> m_prev (get_mem h p) = last_start 0 0 bs1 -> m_used (get_mem h p) = 1 ->
  seg h (p + L) pr bs2 -> p + L + total bs2 = 1600 -> get_mem h 1600 = mk_mem 1600 1600 1 ->
  20 <= len1 -> len1 mod 4 = 0 -> len1 + 20 <= L -> L mod 4 = 0 ->
  linked h' (bs1 ++ (len1, true) :: (L - len1, false) :: bs2) /\ untouched h h' p (p + L + 8) /\
  mem_read (p + 8) (len1 - 8) (ram h') = mem_read (p + 8) (len1 - 8) (ram h).
Proof.
  intros p h' Hz Hs1 Hpr Hus Hs2 Ht He Hl1 Hm1 Hl2 HL. pose proof (seg_nonneg _ _ _ _ Hs1). fold p in H.
  pose proof (seg_nonneg _ _ _ _ Hs2).
  assert (p + L = 1600 \/ p + L + 20 <= 1600) as Hend.
  { destruct bs2 as [|[len3 u3] bs2]; [left; cbn in Ht; lia|right]. destruct Hs2 as (Hl3 & _ & _ & Hs3).
    pose proof (seg_nonneg _ _ _ _ Hs3). cbn [total] in Ht. lia. }
  assert (bs2 <> [] -> p + L + 20 <= 1600) as Hne.
  { intros Hn. destruct bs2 as [|[len3 u3] bs2]; [done|]. destruct Hs2 as (Hl3 & _ & _ & Hs3).
    pose proof (seg_nonneg _ _ _ _ Hs3). cbn [total] in Ht. lia. }
  split_and!.
  - apply linked_intro; fold p; try done; try lia.
    + unfold h', trim_at. case_if; sized_tac.
    + eapply seg_frame; [|done]. fold p. rewrite Z.add_0_l. intros q Hq Hq'. unfold h', trim_at. case_if; hdr_simpl; done.
    + unfold h', trim_at. case_if; hdr_simpl; by rewrite Hpr, Hus.
    + cbn [seg]. split_and!; [lia|zdivmod| |].
      * unfold h', trim_at. case_if; hdr_simpl; f_equal; lia.
      * replace (p + len1 + (L - len1)) with (p + L) by lia. eapply seg_reprev; [| |exact Hs2].
        -- intros q Hq Hq'. unfold h', trim_at. case_if; hdr_simpl; done.
        -- intros Hb2. specialize (Hne Hb2). unfold h', trim_at. case_if; [lia|]. hdr_simpl. done.
    + cbn [total]. lia.
    + unfold h', trim_at. case_if; hdr_simpl; done.
  - intros a n Ha Hc. unfold h', trim_at. case_if; bytes_simpl; done.
  - unfold h', trim_at. case_if; bytes_simpl; done.
Qed.

Lemma a_shrink_joined ns len bs2 : joined bs2 -> joined (a_shrink ns len bs2).
Proof.
  intros Hj. unfold a_shrink. case_if; [by apply joined_cons|].
  destruct bs2 as [|[len2 []] bs2]; [| |].
  - case_if; by rewrite ?joined_cons.
  - case_if; by rewrite ?joined_cons in *.
  - apply joined_cons in Hj as [Hh Hj]. cbn in Hh. by rewrite !joined_cons.
Qed.

Lemma a_shrink_head ns len bs2 : head_used (a_shrink ns len bs2) = true.
Proof. unfold a_shrink. case_if; [done|]. destruct bs2 as [|[len2 []] bs2]; [by case_if|by case_if|done]. Qed.

Lemma wlfree_keeps p bs h h' x : keeps_others p bs h h' -> keeps_others p bs h (wlfree x h').
Proof. done. Qed.

(** A shrink that takes the tail of the block, up to [p + L]. *)
Lemma swp_trim_tail h bs1 L pr bs2 len1 next x (Q : unit -> heap -> Prop) : let p := total bs1 in
  sized h -> seg h 0 0 bs1 -> m_prev (get_mem h p) = last_start 0 0 bs1 -> m_used (get_mem h p) = 1 ->
  seg h (p + L) pr bs2 -> p + L + total bs2 = 1600 -> get_mem h 1600 = mk_mem 1600 1600 1 ->
  20 <= len1 -> len1 mod 4 = 0 -> len1 + 20 <= L -> L mod 4 = 0 -> next = p + L ->
  (forall h', linked h' (bs1 ++ (len1, true) :: (L - len1, false) :: bs2) -> untouched h h' p (p + L + 8) ->
     mem_read (p + 8) (len1 - 8) (ram h') = mem_read (p + 8) (len1 - 8) (ram h) ->
     lfree h' = (if x : bool then p + len1 else lfree h) -> Q tt h') ->
  sto_wp (sto_when x (set_lfree (p + len1)) ;?;
          set_used (p + len1) 0 ;?; set_next (p + len1) next ;?; set_prev (p + len1) p ;?; set_next p (p + len1) ;?;
          sto_when (negb (next =? MEM_SIZE_ALIGNED)) (set_prev next (p + len1))) Q h.
Proof.
  intros p Hz Hs1 Hpr Hus Hs2 Ht He Hl1 Hm1 Hl2 HL -> HQ. change MEM_SIZE_ALIGNED with 1600.
  set (h0 := if x then wlfree (p + len1) h else h).
  assert (forall q, get_mem h0 q = get_mem h q) as Hg by (intros q; unfold h0; by destruct x).
  destruct (linked_resplit h0 bs1 L pr bs2 len1) as (Hr & Hu & Hd); try done; fold p; rewrite ?Hg; try done.
  - unfold h0. by destruct x.
  - eapply seg_frame; [|exact Hs1]. intros q _ _. apply Hg.
  - eapply seg_frame; [|exact Hs2]. intros q _ _. apply Hg.
  - fold p in Hr, Hu, Hd. assert (ram h0 = ram h) as Er by (unfold h0; by destruct x).
    apply swp_bind, (swp_mono _ (fun _ h' => h' = h0)); [unfold h0; by destruct x|]. intros [] h' ->.
    apply swp_bind, swp_mod, swp_bind, swp_mod, swp_bind, swp_mod, swp_bind, swp_mod.
    apply (swp_mono _ (fun _ h' => h' = trim_at p (p + len1) (p + L) h0)).
    { unfold trim_at. by destruct (Z.eqb_spec (p + L) 1600). }
    intros [] h' ->. apply HQ; [done| | |].
    + intros a n Ha Hc. rewrite Hu by done. by rewrite Er.
    + by rewrite Hd, Er.
    + unfold trim_at. case_if; unfold h0; by destruct x.
Qed.

Lemma swp_trim h bs1 len bs2 n (Q : option Z -> heap -> Prop) : rep h (bs1 ++ (len, true) :: bs2) -> is_u16 n ->
  (len - 8 < request n -> Q None h) ->
  (forall h', request n <= len - 8 -> rep h' (bs1 ++ a_shrink (request n) len bs2) ->
     keeps_others (total bs1) (bs1 ++ (len, true) :: bs2) h h' ->
     mem_read (total bs1 + 8) (request n) (ram h') = mem_read (total bs1 + 8) (request n) (ram h) ->
     Q (Some (total bs1 + 8)) h') ->
  sto_wp (mem_trim (total bs1 + 8) n) Q h.
Proof.
  intros Hrep Hn HN HS. pose proof Hrep as [Hr Hj Hlf].
  destruct (linked_around _ _ _ _ _ Hr) as (Hp & Hp4 & Hl & Hl4 & Hb & Ht & Hs1 & Hg & Hs2 & Hne & Hu).
  destruct (request_size n Hn) as (Eg & Es & Hr12 & Hr4). cbn zeta in Eg, Es.
  unfold mem_trim. change MEM_SIZE_ALIGNED with 1600. change MIN_SIZE_ALIGNED with 12. change SIZEOF_STRUCT_MEM with 8.
  change ram_end with 1600. cbn zeta. rewrite Eg. destruct (Z.ltb_spec 1600 (request n)); [apply swp_ret, HN; lia|].
  rewrite Es by done. clear Eg Es. set (ns := request n) in *.
  destruct (Z.ltb_spec (total bs1 + 8) 0), (Z.leb_spec 1600 (total bs1 + 8)); try lia. cbn [orb].
  replace (total bs1 + 8 - 8) with (total bs1) by lia. rewrite (u16_small (total bs1)) by (unfold is_u16; lia).
  apply swp_bind, swp_get. rewrite Hg. cbn [m_next].
  replace (total bs1 + len - total bs1) with len by lia.
  rewrite (u16_small len), (u16_small (len - 8)) by (unfold is_u16; lia).
  destruct (Z.ltb_spec (len - 8) ns) as [Hbig|Hfit]; [by apply swp_ret, HN|].
  specialize (HS) . destruct (Z.eqb_spec ns (len - 8)) as [Eeq|Eneq].
  { apply swp_ret, HS; [done| |by intros off m|done]. unfold a_shrink. destruct (Z.eqb_spec ns (len - 8)); [done|lia]. }
  rewrite (u16_small (total bs1 + 8 + ns)) by (unfold is_u16; lia).
  replace (total bs1 + 8 + ns) with (total bs1 + (8 + ns)) by lia.
  apply joined_app in Hj as (Hj1 & Hj2 & _). apply joined_cons in Hj2 as [_ Hj2].
  pose proof (a_shrink_joined ns len bs2 Hj2) as Hjs. pose proof (a_shrink_head ns len bs2) as Hhs.
  assert (joined (bs1 ++ a_shrink ns len bs2)) as Hj' by (apply joined_app; split_and!; [done|done|by rewrite Hhs, orb_true_r]).
  assert (forall h', linked h' (bs1 ++ a_shrink ns len bs2) -> lfree h' = first_free 0 (bs1 ++ a_shrink ns len bs2) ->
    rep h' (bs1 ++ a_shrink ns len bs2)) as Hmk by done.
  pose proof (r_sized _ _ Hr) as Hz. pose proof (r_end _ _ Hr) as He. rewrite Hu.
  rewrite first_free_app in Hlf, Hmk. cbn [first_free] in Hlf. rewrite Z.add_0_l in *.
  apply swp_bind. destruct (head_used bs2) eqn:Eh; cbn [used_byte Z.eqb].
  - assert (a_shrink ns len bs2 = if ns + 20 <=? len - 8
              then (8 + ns, true) :: (len - (8 + ns), false) :: bs2 else (len, true) :: bs2) as Esh.
    { unfold a_shrink. destruct (Z.eqb_spec ns (len - 8)); [lia|]. by destruct bs2 as [|[len2 []] bs2]. }
    rewrite Esh in Hmk, HS. destruct (Z.leb_spec (ns + 8 + 12) (len - 8)), (Z.leb_spec (ns + 20) (len - 8)); try lia.
    + eapply (swp_trim_tail h bs1 len _ bs2 (8 + ns)); rewrite ?Hg; try done; try lia.
      * zdivmod.
      * intros h' Hr' Hu' Hd' Hlf'. apply swp_ret, HS; [done| | |].
        -- apply Hmk; [done|]. rewrite Hlf', Hlf. cbn [first_free].
           pose proof (first_free_bound _ _ _ _ Hs1). pose proof (first_free_bound _ _ _ _ Hs2).
           destruct (forallb snd bs1) eqn:Ef; [|pose proof (forallb_first_free _ _ _ _ Hs1 Ef)]; case_if; lia.
        -- eapply untouched_keeps; [exact Hr|done|exact Hu'].
        -- replace (8 + ns - 8) with ns in Hd' by lia. exact Hd'.
    + apply swp_ret, swp_ret, HS; [done|exact Hrep|by intros off m|done].
  - destruct bs2 as [|[len2 []] bs2]; [done|done|]. unfold a_shrink in *. destruct (Z.eqb_spec ns (len - 8)); [lia|].
    destruct Hs2 as (Hl2 & Hl24 & Hg2 & Hs2). pose proof (seg_nonneg _ _ _ _ Hs2). cbn [total] in Ht.
    rewrite Hg2. cbn [m_next]. eapply (swp_trim_tail h bs1 (len + len2) _ bs2 (8 + ns)); rewrite ?Hg; try done; try lia.
    + replace (total bs1 + (len + len2)) with (total bs1 + len + len2) by lia. exact Hs2.
    + zdivmod.
    + zdivmod.
    + intros h' Hr' Hu' Hd' Hlf'. apply swp_ret, HS; [done| | |].
      * apply Hmk; [done|]. rewrite Hlf', Hlf. cbn [first_free].
        pose proof (first_free_bound _ _ _ _ Hs1). destruct (forallb snd bs1) eqn:Ef.
        -- rewrite Z.eqb_refl. lia.
        -- pose proof (forallb_first_free _ _ _ _ Hs1 Ef). destruct (Z.eqb_spec (first_free 0 bs1) (total bs1 + len)); [lia|done].
      * eapply (region_keeps h h' (total bs1) bs1 [(len, true); (len2, false)] bs2); [done| |].
        -- intros o m (a & b & E & Ha). destruct a as [|c [|c' a]]; cbn in E.
           ++ injection E as <- _. cbn in Ha. lia.
           ++ done.
           ++ injection E as _ _ E. by destruct a.
        -- cbn [total]. eapply untouched_weaken; [exact Hu'|lia|lia].
      * replace (8 + ns - 8) with ns in Hd' by lia. exact Hd'.
Qed.

(** ** The blocks in use, as a list *)

Fixpoint used_blocks (off : Z) (bs : list block) : list (Z * Z) :=
  match bs with
  | [] => []
  | (len, u) :: bs => (if u then [(off, len)] else []) ++ used_blocks (off + len) bs
  end.

Lemma used_blocks_app off l k : used_blocks off (l ++ k) = used_blocks off l ++ used_blocks (off + total l) k.
Proof.
  revert off. induction l as [|[len u] l IH]; intros off; cbn [app used_blocks total]; [by rewrite Z.add_0_r|].
  by rewrite IH, Z.add_assoc, app_assoc.
Qed.

Lemma used_blocks_at off bs o n : (o, n) ∈ used_blocks off bs <-> block_at bs (o - off) n true.
Proof.
  revert off. induction bs as [|[len u] bs IH]; intros off; cbn [used_blocks].
  { split; [intros Hi; by apply not_elem_of_nil in Hi|]. intros (l & k & E & _). by destruct l. }
  rewrite elem_of_app, IH. split.
  - intros [Hi|(l & k & -> & Hl)].
    + destruct u; [|by apply not_elem_of_nil in Hi]. apply list_elem_of_singleton in Hi. injection Hi as -> ->.
      exists [], bs. split; [done|]. cbn. lia.
    + exists ((len, u) :: l), k. split; [done|]. cbn. lia.
  - intros (l & k & E & Hl). destruct l as [|b l]; cbn [app] in E.
    + injection E as -> -> ->. cbn in Hl. left. apply list_elem_of_singleton. f_equal. lia.
    + injection E as <- ->. right. exists l, k. split; [done|]. cbn in Hl. lia.
Qed.

Lemma used_blocks_fcons off b bs : used_blocks off (fcons b bs) = used_blocks off (b :: bs).
Proof.
  destruct b as [n []], bs as [|[m []] bs]; try done. cbn. by rewrite Z.add_assoc.
Qed.

Lemma used_blocks_foldr off l X : used_blocks off (foldr fcons X l) = used_blocks off l ++ used_blocks (off + total l) X.
Proof.
  revert off. induction l as [|[n u] l IH]; intros off; cbn [foldr total used_blocks app]; [by rewrite Z.add_0_r|].
  rewrite used_blocks_fcons. cbn [used_blocks]. by rewrite IH, Z.add_assoc, app_assoc.
Qed.

Lemma a_malloc_some off size bs p bs' : a_malloc off size bs = Some (p, bs') ->
  exists l len k, bs = l ++ (len, false) :: k /\ p = off + total l /\ size <= len - 8 /\ bs' = l ++ a_split size len ++ k.
Proof.
  revert off bs'. induction bs as [|[len u] bs IH]; intros off bs' E; [done|]. cbn [a_malloc] in E.
  destruct (negb u && (size <=? len - 8)) eqn:Ef.
  - injection E as <- <-. apply andb_true_iff in Ef as [Hu Hs]. destruct u; [done|]. apply Z.leb_le in Hs.
    exists [], len, bs. split_and!; [done|cbn; lia|done|done].
  - destruct (a_malloc (off + len) size bs) as [[q bs1]|] eqn:Em; [|done]. injection E as <- <-.
    destruct (IH _ _ Em) as (l & n & k & -> & -> & Hs & ->). exists ((len, u) :: l), n, k.
    split_and!; [done|cbn; lia|done|done].
Qed.

Lemma used_malloc size bs p bs' : a_malloc 0 size bs = Some (p, bs') ->
  exists len, size + 8 <= len /\ used_blocks 0 bs' ≡ₚ (p, len) :: used_blocks 0 bs.
Proof.
  intros E. destruct (a_malloc_some _ _ _ _ _ E) as (l & len & k & -> & -> & Hs & ->).
  rewrite !used_blocks_app. cbn [used_blocks app]. rewrite !Z.add_0_l, total_split. unfold a_split.
  case_if; cbn [used_blocks app]; [exists (8 + size)|exists len]; (split; [lia|]).
  all: apply Permutation_sym, Permutation_middle.
Qed.

Lemma used_free h off pr l len k : seg h off pr l -> off = 0 ->
  used_blocks 0 (l ++ (len, true) :: k) ≡ₚ (total l, len) :: used_blocks 0 (a_free 0 (total l) (l ++ (len, true) :: k)).
Proof.
  intros Hs ->. pose proof (a_free_at h 0 pr l len true k Hs) as E. rewrite Z.add_0_l in E. rewrite E.
  rewrite used_blocks_foldr, used_blocks_fcons, used_blocks_app. cbn [used_blocks app]. rewrite Z.add_0_l.
  apply Permutation_sym, Permutation_middle.
Qed.

Lemma used_shrink ns l len k : ns <= len - 8 -> exists len' A B, ns + 8 <= len' /\
  used_blocks 0 (l ++ (len, true) :: k) = A ++ (total l, len) :: B /\
  used_blocks 0 (l ++ a_shrink ns len k) = A ++ (total l, len') :: B.
Proof.
  intros Hs. rewrite !used_blocks_app. cbn [used_blocks app]. rewrite Z.add_0_l. unfold a_shrink.
  destruct (Z.eqb_spec ns (len - 8)); [exists len; by eexists _, _; split_and!; [lia|done|]|].
  destruct k as [|[len2 []] k].
  1,2: case_if; cbn [used_blocks app]; rewrite ?Z.add_0_l.
  1,3: exists (8 + ns), (used_blocks 0 l); eexists; split_and!; [lia|done|];
    by replace (total l + (8 + ns) + (len - (8 + ns))) with (total l + len) by lia.
  1,2: exists len, (used_blocks 0 l); eexists; split_and!; [lia|done|done].
  cbn [used_blocks app]. rewrite ?Z.add_0_l. exists (8 + ns), (used_blocks 0 l). eexists. split_and!; [lia|done|].
  by replace (total l + (8 + ns) + (len + len2 - (8 + ns))) with (total l + len + len2) by lia.
Qed.

(** ** The clients of the heap *)

(** A state of the heap with what its clients hold: the pointers [mem_malloc] has
    given out and that have not been freed, and the bytes each client has there. *)
Definition client : Type := Z * list Z.

Inductive hreach : heap -> list client -> Prop :=
  | hr_init h h' : sized h -> mem_init h = Some (tt, h') -> hreach h' []
  | hr_malloc h live n p h' : hreach h live -> is_u16 n -> mem_malloc n h = Some (Some p, h') ->
      hreach h' ((p, mem_read p n (ram h')) :: live)
  | hr_store h live p d rest i b : hreach h live -> live ≡ₚ (p, d) :: rest -> 0 <= i -> i + zlen b <= zlen d ->
      hreach (h <| ram := mem_write (p + i) b (ram h) |>) ((p, mem_write i b d) :: rest)
  | hr_trim h live p d rest n q h' : hreach h live -> live ≡ₚ (p, d) :: rest -> is_u16 n -> n <= zlen d ->
      mem_trim p n h = Some (q, h') -> hreach h' ((p, mem_read 0 n d) :: rest)
  | hr_free h live p d rest h' : hreach h live -> live ≡ₚ (p, d) :: rest ->
      mem_free (Some p) h = Some (tt, h') -> hreach h' rest.

(** What is true of all of them. *)
Record hinv (h : heap) (live : list client) (bs : list block) : Prop := {
  hi_rep : rep h bs;
  hi_ptrs : (fun c : client => c.1 - 8) <$> live ≡ₚ (used_blocks 0 bs).*1;
  hi_data : Forall (fun c : client => exists len, (c.1 - 8, len) ∈ used_blocks 0 bs /\ zlen c.2 <= len - 8 /\
                      mem_read c.1 (zlen c.2) (ram h) = c.2) live }.

Lemma init_rep h : sized h -> exists h', mem_init h = Some (tt, h') /\ rep h' [(1600, false)].
Proof.
  intros Hz. eexists. split; [reflexivity|].
  change (_ <| lfree := 0 |>) with
    (wlfree 0 (wprev 1600 1600 (wnext 1600 1600 (wused 1600 1 (wused 0 0 (wprev 0 0 (wnext 0 1600 h))))))).
  constructor; [|done|done]. apply linked_wlfree. constructor; [sized_tac| |done|].
  - cbn [seg]. split_and!; [lia|done| |done]. hdr_simpl. done.
  - hdr_simpl. done.
Qed.

Lemma used_nodup h off pr bs : seg h off pr bs ->
  NoDup (used_blocks off bs).*1 /\ Forall (fun b => off <= b.1) (used_blocks off bs).
Proof.
  revert off pr. induction bs as [|[len u] bs IH]; intros off pr Hs; [by split; constructor|].
  destruct Hs as (Hl & _ & _ & Hs). destruct (IH _ _ Hs) as [Hn Hf]. cbn [used_blocks].
  assert (Forall (fun b : Z * Z => off <= b.1) (used_blocks (off + len) bs)) as Hf'
    by (eapply Forall_impl; [apply Hf|]; cbn; lia).
  destruct u; cbn [app]; [|by split]. split.
  - rewrite fmap_cons. apply NoDup_cons. split; [|done]. intros Hi. apply list_elem_of_fmap in Hi as ([o n] & E & Hi).
    rewrite Forall_forall in Hf. specialize (Hf _ Hi). cbn in E, Hf. lia.
  - constructor; [cbn; lia|done].
Qed.

Lemma mem_read_prefix a n m b : n <= m -> mem_read a n b = take (Z.to_nat n) (mem_read a m b).
Proof. intros Hnm. unfold mem_read. rewrite firstn_firstn. f_equal. lia. Qed.

Definition client_ok (h : heap) (bs : list block) (c : client) : Prop :=
  exists len, (c.1 - 8, len) ∈ used_blocks 0 bs /\ zlen c.2 <= len - 8 /\ mem_read c.1 (zlen c.2) (ram h) = c.2.

(** The clients other than the one at [p] keep what they have. *)
Lemma clients_kept h h' bs bs' p l : keeps_others p bs h h' -> Forall (client_ok h bs) l ->
  Forall (fun c => c.1 - 8 <> p) l ->
  (forall o len, (o, len) ∈ used_blocks 0 bs -> o <> p -> (o, len) ∈ used_blocks 0 bs') ->
  Forall (client_ok h' bs') l.
Proof.
  intros Hk Hl Hne Hin. rewrite Forall_forall in *. intros c Hc. destruct (Hl c Hc) as (len & Hi & Hz & Hd).
  specialize (Hne c Hc). exists len. split_and!; [by apply Hin|done|]. rewrite <- Hd at 2.
  apply used_blocks_at in Hi as Hb. rewrite Z.sub_0_r in Hb. pose proof (Hk _ _ Hb Hne) as E.
  replace (c.1 - 8 + 8) with c.1 in E by lia. rewrite !(mem_read_prefix _ (zlen c.2) (len - 8)) by lia. by rewrite E.
Qed.

Lemma hinv_nodup h live bs : hinv h live bs -> NoDup ((fun c : client => c.1 - 8) <$> live).
Proof.
  intros [[Hr _ _] Hp _]. rewrite Hp. apply (used_nodup h 0 0 bs). apply Hr.
Qed.

Lemma hinv_perm h l k bs : l ≡ₚ k -> hinv h l bs -> hinv h k bs.
Proof. intros Hp [H1 H2 H3]. constructor; [done|by rewrite <- Hp|]. by rewrite <- Hp. Qed.

(** The block of a client. *)
Lemma client_block h p d rest bs : hinv h ((p, d) :: rest) bs ->
  exists l len k, bs = l ++ (len, true) :: k /\ total l = p - 8 /\ zlen d <= len - 8 /\
    mem_read p (zlen d) (ram h) = d /\ Forall (client_ok h bs) rest /\ Forall (fun c => c.1 - 8 <> p - 8) rest.
Proof.
  intros Hi. pose proof (hinv_nodup _ _ _ Hi) as Hn. rewrite fmap_cons in Hn. apply NoDup_cons in Hn as [Hn _].
  destruct Hi as [_ _ Hd]. apply Forall_cons in Hd as [(len & Hb & Hz & Hr) Hd]. apply used_blocks_at in Hb as (l & k & E & Hl).
  exists l, len, k. cbn in *. split_and!; [done|lia|done|done|done|]. apply Forall_forall. intros c Hc E'. apply Hn.
  apply list_elem_of_fmap. by exists c.
Qed.

Lemma hinv_malloc h live bs n p h' : hinv h live bs -> is_u16 n -> mem_malloc n h = Some (Some p, h') ->
  exists bs', hinv h' ((p, mem_read p n (ram h')) :: live) bs'.
Proof.
  intros Hi Hn E. pose proof Hi as [Hr Hp Hd].
  assert (n <> 0) as H0 by (intros ->; by injection E).
  assert (sto_wp (mem_malloc n) (fun r h' => match r with
    | Some q => exists p bs', a_malloc 0 (request n) bs = Some (p, bs') /\ q = p + 8 /\ rep h' bs' /\ keeps_others p bs h h'
    | None => True end) h) as Hw.
  { apply (swp_malloc h bs); try done. intros q bs' h1 E1 Hr1 Hk1. by exists q, bs'. }
  unfold sto_wp in Hw. rewrite E in Hw. destruct Hw as (q & bs' & Ea & -> & Hr' & Hk). exists bs'.
  destruct (used_malloc _ _ _ _ Ea) as (len & Hlen & Hu).
  pose proof (used_nodup h' 0 0 bs' (r_seg _ _ (r_linked _ _ Hr'))) as [Hnd Hpos]. rewrite Hu, fmap_cons in Hnd.
  apply NoDup_cons in Hnd as [Hq _]. destruct (request_size n Hn) as (_ & _ & _ & _).
  assert (n <= request n) as Hreq by (unfold request, is_u16 in *; zdivmod).
  assert ((q, len) ∈ used_blocks 0 bs') as Hin by (rewrite Hu; apply list_elem_of_here).
  assert (0 <= q /\ q + len <= 1600) as Hrange.
  { apply used_blocks_at in Hin as (l & k & El & Hl). rewrite Z.sub_0_r in Hl. subst bs'.
    destruct (linked_around _ _ _ _ _ (r_linked _ _ Hr')) as (? & _ & _ & _ & ? & _). lia. }
  pose proof (r_sized _ _ (r_linked _ _ Hr')) as Hz. unfold sized in Hz. unfold is_u16 in Hn.
  constructor; [done| |].
  - rewrite fmap_cons, Hp, Hu, fmap_cons. cbn [fst]. replace (q + 8 - 8) with q by lia. done.
  - constructor.
    + exists len. cbn [fst snd]. replace (q + 8 - 8) with q by lia. rewrite mem_read_zlen by lia. split_and!; [done|lia|done].
    + eapply clients_kept; [exact Hk|exact Hd| |].
      * apply Forall_forall. intros c Hc E'. apply Hq. rewrite <- Hp. apply list_elem_of_fmap. exists c. by split.
      * intros o m Ho _. rewrite Hu. by apply list_elem_of_further.
Qed.

(** A store of a client inside its own block. *)
Lemma linked_store h bs1 len bs2 a b : linked h (bs1 ++ (len, true) :: bs2) ->
  total bs1 + 8 <= a -> a + zlen b <= total bs1 + len ->
  let h' := h <| ram := mem_write a b (ram h) |> in
  linked h' (bs1 ++ (len, true) :: bs2) /\ keeps_others (total bs1) (bs1 ++ (len, true) :: bs2) h h'.
Proof.
  intros Hr Ha Hb h'. pose proof (zlen_nonneg b).
  destruct (linked_around _ _ _ _ _ Hr) as (Hp & _ & Hl & Hl4 & _ & Ht & Hs1 & Hg & Hs2 & _).
  pose proof (seg_nonneg _ _ _ _ Hs2). set (p := total bs1) in *.
  assert (forall o n, 0 <= o -> o + n <= a \/ a + zlen b <= o -> mem_read o n (ram h') = mem_read o n (ram h)) as Hrd
    by (intros o n Ho Hd; apply mem_read_write_disjoint; lia).
  assert (forall q, 0 <= q -> q + 8 <= a \/ a + zlen b <= q -> get_mem h' q = get_mem h q) as Hgt
    by (intros q Hq Hd; apply get_mem_bytes; [done|]; by apply Hrd).
  split.
  - apply linked_intro; try done.
    + unfold sized, h'. cbn. rewrite mem_write_zlen. apply Hr.
    + eapply seg_frame; [|done]. intros q Hq Hq'. apply Hgt; lia.
    + rewrite Hgt by lia. done.
    + eapply seg_frame; [|done]. intros q Hq Hq'. apply Hgt; lia.
    + rewrite Hgt by lia. apply Hr.
  - eapply untouched_keeps; [exact Hr|done|]. intros o n Ho Hd. apply Hrd; [done|]. lia.
Qed.

Lemma read_own_write p i b d m : 0 <= p -> 0 <= i -> i + zlen b <= zlen d -> p + zlen d <= zlen m ->
  mem_read p (zlen d) m = d -> mem_read p (zlen d) (mem_write (p + i) b m) = mem_write i b d.
Proof.
  intros Hp Hi Hb Hd E. pose proof (zlen_nonneg d). apply mem_get_ext.
  - rewrite mem_read_zlen, mem_write_zlen; rewrite ?mem_write_zlen; lia.
  - rewrite mem_read_zlen by (rewrite ?mem_write_zlen; lia). intros k Hk.
    pose proof (f_equal (fun x => mem_get x k) E) as Ek. cbn beta in Ek. rewrite mem_get_read in Ek by lia.
    rewrite mem_get_read, !mem_get_write, Ek by lia.
    destruct (Z.leb_spec (p + i) (p + k)), (Z.leb_spec i k), (Z.ltb_spec (p + k) (p + i + zlen b)), (Z.ltb_spec k (i + zlen b));
      cbn [andb]; try lia; try done. f_equal. lia.
Qed.

Lemma hinv_store h live bs p d rest i b : hinv h live bs -> live ≡ₚ (p, d) :: rest -> 0 <= i -> i + zlen b <= zlen d ->
  hinv (h <| ram := mem_write (p + i) b (ram h) |>) ((p, mem_write i b d) :: rest) bs.
Proof.
  intros Hi Hp H0 Hb. apply (hinv_perm _ _ _ _ Hp) in Hi.
  destruct (client_block _ _ _ _ _ Hi) as (l & len & k & -> & Hl & Hz & Hd & Hrest & Hne). destruct Hi as [[Hr Hj Hf] Hps _].
  pose proof (zlen_nonneg b). pose proof (r_sized _ _ Hr) as Hsz. unfold sized in Hsz.
  destruct (linked_around _ _ _ _ _ Hr) as (Hlp & _ & _ & _ & Hle & _).
  destruct (linked_store h l len k (p + i) b Hr) as [Hr' Hk]; [lia|lia|]. constructor; [by constructor|done|].
  constructor.
  - exists len. cbn [fst snd]. split_and!; [|by rewrite mem_write_zlen|].
    + apply used_blocks_at. exists l, k. split; [done|]. lia.
    + rewrite mem_write_zlen. apply read_own_write; (done || lia).
  - eapply clients_kept; [exact Hk|exact Hrest|by rewrite Hl|done].
Qed.

Lemma swp_result {R} (m : STO heap R) Q h r h' : sto_wp m Q h -> m h = Some (r, h') -> Q r h'.
Proof. unfold sto_wp. intros Hw E. by rewrite E in Hw. Qed.

Lemma request_fits n len : is_u16 n -> n <= len - 8 -> 20 <= len -> len mod 4 = 0 -> n <= request n <= len - 8.
Proof. unfold request, is_u16. intros. zdivmod. Qed.

Lemma hinv_trim h live bs p d rest n : hinv h live bs -> live ≡ₚ (p, d) :: rest -> is_u16 n -> n <= zlen d ->
  sto_wp (mem_trim p n) (fun q h' => q = Some p /\ exists bs', hinv h' ((p, mem_read 0 n d) :: rest) bs') h.
Proof.
  intros Hi Hp Hn Hnd. apply (hinv_perm _ _ _ _ Hp) in Hi.
  destruct (client_block _ _ _ _ _ Hi) as (l & len & k & -> & Hl & Hz & Hd & Hrest & Hne). destruct Hi as [Hr Hps _].
  destruct (linked_around _ _ _ _ _ (r_linked _ _ Hr)) as (Hlp & _ & H20 & H4 & Hle & _).
  destruct (request_fits n len Hn) as [Hreq Hfit]; [lia..|]. unfold is_u16 in Hn.
  replace p with (total l + 8) by lia. apply (swp_trim h l len k); [done|done|lia|]. intros h' _ Hr' Hk Hown. split; [done|].
  destruct (used_shrink (request n) l len k Hfit) as (len' & A & B & Hlen' & Eu & Eu'). exists (l ++ a_shrink (request n) len k).
  assert (zlen (mem_read 0 n d) = n) as Hzn by (apply mem_read_zlen; lia).
  constructor; [done| |].
  - rewrite Eu', fmap_app, fmap_cons. rewrite Eu, fmap_app, fmap_cons in Hps. cbn [fst] in *.
    replace (total l + 8) with p by lia. done.
  - constructor.
    + exists len'. cbn [fst snd]. rewrite Hzn. replace (total l + 8 - 8) with (total l) by lia. split_and!; [|lia|].
      * rewrite Eu'. apply elem_of_app. right. apply list_elem_of_here.
      * rewrite (mem_read_prefix _ n (request n)), Hown by lia. rewrite <- mem_read_prefix by lia.
        rewrite (mem_read_prefix _ n (zlen d)) by lia. replace (total l + 8) with p by lia. by rewrite Hd.
    + eapply clients_kept; [exact Hk|exact Hrest|by rewrite Hl|]. intros o m Ho Hno. rewrite Eu in Ho. rewrite Eu'.
      apply elem_of_app in Ho as [Ho|Ho]; apply elem_of_app; [by left|right].
      apply elem_of_cons in Ho as [E|Ho]; [by injection E|]. by apply list_elem_of_further.
Qed.

Lemma hinv_free h live bs p d rest : hinv h live bs -> live ≡ₚ (p, d) :: rest ->
  sto_wp (mem_free (Some p)) (fun _ h' => exists bs', hinv h' rest bs') h.
Proof.
  intros Hi Hp. apply (hinv_perm _ _ _ _ Hp) in Hi.
  destruct (client_block _ _ _ _ _ Hi) as (l & len & k & -> & Hl & Hz & Hd & Hrest & Hne). destruct Hi as [Hr Hps _].
  destruct (linked_around _ _ _ _ _ (r_linked _ _ Hr)) as (_ & _ & _ & _ & _ & _ & Hs1 & _).
  pose proof (used_free h 0 0 l len k Hs1 eq_refl) as Hu.
  replace p with (total l + 8) by lia. apply (swp_free h l len k); [done|]. intros h' Hr' Hk. eexists. constructor; [exact Hr'| |].
  - rewrite Hu, !fmap_cons in Hps. cbn [fst] in Hps. rewrite Hl in Hps. rewrite Hl. by apply Permutation_cons_inv in Hps.
  - eapply clients_kept; [exact Hk|exact Hrest|by rewrite Hl|]. intros o m Ho Hno. rewrite Hu in Ho.
    apply elem_of_cons in Ho as [E|Ho]; [by injection E|done].
Qed.

(** Every reachable heap is cut into blocks, and the used ones are the clients'. *)
Lemma hreach_inv h live : hreach h live -> exists bs, hinv h live bs.
Proof.
  induction 1 as [h h' Hz E|h live n p h' _ [bs Hi] Hn E|h live p d rest i b _ [bs Hi] Hp H0 Hb
                 |h live p d rest n q h' _ [bs Hi] Hp Hn Hle E|h live p d rest h' _ [bs Hi] Hp E].
  - destruct (init_rep h Hz) as (h1 & E1 & Hr). rewrite E in E1. injection E1 as <-. exists [(1600, false)]. by constructor.
  - by eapply hinv_malloc.
  - exists bs. by eapply hinv_store.
  - apply (swp_result _ _ _ _ _ (hinv_trim _ _ _ _ _ _ _ Hi Hp Hn Hle) E).
  - apply (swp_result _ _ _ _ _ (hinv_free _ _ _ _ _ _ Hi Hp) E).
Qed.

(** ** The properties *)

Lemma a_malloc_none_iff off size bs :
  a_malloc off size bs = None <-> Forall (fun b => b.2 = true \/ b.1 - 8 < size) bs.
Proof.
  revert off. induction bs as [|[len u] bs IH]; intros off; cbn [a_malloc]; [by split|].
  rewrite Forall_cons, <- (IH (off + len)). cbn [fst snd].
  destruct u, (Z.leb_spec size (len - 8)); cbn [negb andb]; destruct (a_malloc (off + len) size bs) as [[]|];
    intuition (done || lia).
Qed.

(** A pointer into a free block is not freed again. *)
Lemma free_again h l len k : rep h (l ++ (len, false) :: k) -> mem_free (Some (total l + 8)) h = Some (tt, h).
Proof.
  intros Hr. destruct (linked_around _ _ _ _ _ (r_linked _ _ Hr)) as (_ & _ & _ & _ & _ & _ & _ & Hg & _).
  unfold mem_free. case_if; [done|]. case_if; [done|]. change SIZEOF_STRUCT_MEM with 8.
  replace (total l + 8 - 8) with (total l) by lia. unfold sto_bind, sto_get. by rewrite Hg.
Qed.

Lemma heap_malloc_returns h bs n : rep h bs -> is_u16 n -> n <> 0 -> exists r h', mem_malloc n h = Some (r, h') /\
  match a_malloc 0 (request n) bs with
  | Some (p, bs') => r = Some (p + 8) /\ rep h' bs' /\ keeps_others p bs h h'
  | None => r = None /\ h' = h /\ Forall (fun b => b.2 = true \/ b.1 - 8 < request n) bs
  end.
Proof.
  intros Hr Hn H0. apply swp_run. apply (swp_malloc h bs); [done..| |].
  - intros E. rewrite E. split_and!; [done..|]. by eapply a_malloc_none_iff.
  - intros p bs' h' E Hr' Hk. by rewrite E.
Qed.

(** C8: The heap refines the list of its blocks. On a heap cut into the blocks [bs]:
    [mem_malloc] always returns; it takes the first free block with room for the
    aligned request and splits off the rest when that is big enough to be a block, or
    returns NULL and changes nothing exactly when no free block has room; [mem_free] of
    a block joins it with its free neighbours on both sides, [mem_free] of a block that
    is free already changes nothing; [mem_trim] gives the tail back to the heap, or
    refuses to grow. In all of them the bytes in every other used block stay as they
    were, and the heap is cut into the blocks the list operation yields. *)
Theorem heap_refines h bs : rep h bs ->
  (forall n, is_u16 n -> n <> 0 -> exists r h', mem_malloc n h = Some (r, h') /\
     match a_malloc 0 (request n) bs with
     | Some (p, bs') => r = Some (p + 8) /\ rep h' bs' /\ keeps_others p bs h h'
     | None => r = None /\ h' = h /\ Forall (fun b => b.2 = true \/ b.1 - 8 < request n) bs
     end) /\
  (forall l len k, bs = l ++ (len, true) :: k -> exists h', mem_free (Some (total l + 8)) h = Some (tt, h') /\
     rep h' (a_free 0 (total l) bs) /\ keeps_others (total l) bs h h') /\
  (forall l len k, bs = l ++ (len, false) :: k -> mem_free (Some (total l + 8)) h = Some (tt, h)) /\
  (forall l len k n, bs = l ++ (len, true) :: k -> is_u16 n -> exists r h', mem_trim (total l + 8) n h = Some (r, h') /\
     if request n <=? len - 8
     then r = Some (total l + 8) /\ rep h' (l ++ a_shrink (request n) len k) /\ keeps_others (total l) bs h h' /\
          mem_read (total l + 8) (request n) (ram h') = mem_read (total l + 8) (request n) (ram h)
     else r = None /\ h' = h).
Proof.
  intros Hr. split_and!.
  - intros n. by apply heap_malloc_returns.
  - intros l len k ->. destruct (proj1 (swp_run _ _ _) (swp_free h l len k (fun _ h' => rep h' _ /\ keeps_others _ _ h h') Hr
      (fun h' a b => conj a b))) as ([] & h' & E & H). by exists h'.
  - intros l len k ->. by eapply free_again.
  - intros l len k n -> Hn. apply swp_run. apply (swp_trim h l len k); [done..| |].
    + intros Hlt. destruct (Z.leb_spec (request n) (len - 8)); [lia|done].
    + intros h' Hle Hr' Hk Hown. destruct (Z.leb_spec (request n) (len - 8)); [|lia]. done.
Qed.

Lemma used_none_free h off pr bs : seg h off pr bs -> joined bs -> used_blocks off bs = [] -> bs <> [] ->
  bs = [(total bs, false)].
Proof.
  intros _ Hj Hu Hne. destruct bs as [|[len u] bs]; [done|]. destruct u; [done|]. cbn [used_blocks app] in Hu.
  apply joined_cons in Hj as [Hh _]. destruct bs as [|[len2 []] bs]; [|done|done]. cbn. by rewrite Z.add_0_r.
Qed.

Lemma hinv_empty h bs : hinv h [] bs -> bs = [(1600, false)].
Proof.
  intros [[[_ Hs Ht _] Hj _] Hp _]. symmetry in Hp. apply Permutation_nil_r, fmap_nil_inv in Hp.
  rewrite <- Ht. eapply used_none_free; [exact Hs|done|done|]. by intros ->.
Qed.

Lemma hinv_apart h c1 c2 rest bs : hinv h (c1 :: c2 :: rest) bs -> c1.1 + zlen c1.2 <= c2.1 \/ c2.1 + zlen c2.2 <= c1.1.
Proof.
  intros Hi. pose proof (hinv_nodup _ _ _ Hi) as Hn. destruct Hi as [Hr _ Hd].
  apply Forall_cons in Hd as [(n1 & H1 & Hz1 & _) Hd]. apply Forall_cons in Hd as [(n2 & H2 & Hz2 & _) _].
  rewrite !fmap_cons in Hn. apply NoDup_cons in Hn as [Hn _]. apply not_elem_of_cons in Hn as [Hn _].
  apply used_blocks_at in H1, H2. rewrite Z.sub_0_r in H1, H2.
  destruct (block_disjoint _ _ _ _ _ _ _ _ _ _ (r_seg _ _ (r_linked _ _ Hr)) H1 H2) as [(? & _)|[?|?]]; [done|lia|lia].
Qed.

(** C9: What the clients of the heap rely on, in every heap reached from [mem_init] by
    allocations, stores of clients inside what they own, trims and frees in any order:
    every pointer that is out is 4-aligned and inside the heap, the client finds there
    the bytes it stored, no two clients overlap, every call returns (a trim to at most
    the size never fails), and once everything has been freed the whole heap is one
    free block again, so that any request that fits 1592 bytes succeeds: nothing leaks
    and nothing stays fragmented. *)
Theorem heap_clients h live : hreach h live ->
  (forall p d, (p, d) ∈ live -> 8 <= p /\ p mod 4 = 0 /\ p + zlen d <= 1600 /\ mem_read p (zlen d) (ram h) = d) /\
  (forall c1 c2 rest, live ≡ₚ c1 :: c2 :: rest -> c1.1 + zlen c1.2 <= c2.1 \/ c2.1 + zlen c2.2 <= c1.1) /\
  (forall n, is_u16 n -> is_Some (mem_malloc n h)) /\
  (forall p d, (p, d) ∈ live -> is_Some (mem_free (Some p) h) /\
     forall n, is_u16 n -> n <= zlen d -> exists h', mem_trim p n h = Some (Some p, h')) /\
  (live = [] -> forall n, 0 < n <= 1592 -> exists h', mem_malloc n h = Some (Some 8, h')).
Proof.
  intros Hreach. destruct (hreach_inv _ _ Hreach) as [bs Hi].
  assert (forall c, c ∈ live -> exists rest, live ≡ₚ c :: rest) as Hsplit
    by (intros c Hc; apply list_elem_of_split in Hc as (l1 & l2 & ->); exists (l1 ++ l2); apply Permutation_sym, Permutation_middle).
  split_and!.
  - intros p d Hin. destruct (Hsplit _ Hin) as [rest Hp]. apply (hinv_perm _ _ _ _ Hp) in Hi.
    destruct (client_block _ _ _ _ _ Hi) as (l & len & k & -> & Hl & Hz & Hd & _).
    destruct (linked_around _ _ _ _ _ (r_linked _ _ (hi_rep _ _ _ Hi))) as (? & H4 & _ & _ & ? & _).
    split_and!; [lia|zdivmod|lia|done].
  - intros c1 c2 rest Hp. eapply hinv_apart. by apply (hinv_perm _ _ _ _ Hp).
  - intros n Hn. destruct (decide (n = 0)) as [->|H0]; [done|].
    destruct (heap_malloc_returns h bs n) as (r & h' & E & _); [apply Hi|done|done|]. by rewrite E.
  - intros p d Hin. destruct (Hsplit _ Hin) as [rest Hp]. split.
    + destruct (proj1 (swp_run _ _ _) (hinv_free _ _ _ _ _ _ Hi Hp)) as (r & h' & E & _). by rewrite E.
    + intros n Hn Hle. destruct (proj1 (swp_run _ _ _) (hinv_trim _ _ _ _ _ _ _ Hi Hp Hn Hle)) as (r & h' & E & -> & _). by exists h'.
  - intros -> n Hn. apply hinv_empty in Hi as Hb. subst bs. assert (is_u16 n) as Hu by (unfold is_u16; lia).
    destruct (heap_malloc_returns h [(1600, false)] n) as (r & h' & E & Hm); [apply Hi|done|lia|].
    assert (request n <= 1592) as Hq by (apply (request_fits n 1600); [done|lia|lia|done]).
    cbn [a_malloc negb andb] in Hm. destruct (Z.leb_spec (request n) (1600 - 8)); [|lia]. destruct Hm as [-> _]. by exists h'.
Qed.

(** ** On a concrete heap *)

Definition heap_after {R} (m : STO heap R) (h : heap) : heap := match m h with Some (_, h') => h' | None => h end.
Definition fresh_heap : heap := heap_after mem_init (mk_heap (replicate 1608 0) 0).
(** Two buffers of 100 and 60 bytes, three bytes stored in the first one at 8. *)
Definition heap_two : heap := heap_after (mem_malloc 60) (heap_after (mem_malloc 100) fresh_heap).
Definition heap_stored : heap := heap_two <| ram := mem_write (8 + 10) [1; 2; 3] (ram heap_two) |>.

(** The first buffer is freed and allocated again, the second trimmed. *)
Example heap_moves :
  option_map fst (mem_malloc 60 (heap_after (mem_malloc 100) fresh_heap)) = Some (Some 116) /\
  lfree (heap_after (mem_free (Some 8)) heap_stored) = 0 /\
  option_map fst (mem_malloc 90 (heap_after (mem_free (Some 8)) heap_stored)) = Some (Some 8) /\
  option_map fst (mem_trim 116 20 heap_stored) = Some (Some 116) /\
  option_map fst (mem_malloc 1421 heap_stored) = Some None /\ option_map fst (mem_malloc 1416 heap_stored) = Some (Some 184).
Proof. vm_compute. by split_and!. Qed.

Lemma heap_refines_witness : rep fresh_heap [(1600, false)] /\
  exists h', mem_malloc 100 fresh_heap = Some (Some 8, h') /\ rep h' [(108, true); (1492, false)].
Proof.
  assert (rep fresh_heap [(1600, false)]) as Hr.
  { destruct (init_rep (mk_heap (replicate 1608 0) 0) eq_refl) as (h' & E & Hr). unfold fresh_heap, heap_after. by rewrite E. }
  split; [exact Hr|]. destruct (heap_refines fresh_heap [(1600, false)] Hr) as [Hm _].
  destruct (Hm 100) as (r & h' & E & -> & Hr' & _); [by vm_compute|done|]. by exists h'.
Defined.

Lemma heap_clients_witness :
  exists d1 d2, hreach heap_stored [(8, d1); (116, d2)] /\ mem_read 8 (zlen d1) (ram heap_stored) = d1 /\
    mem_read 10 3 d1 = [1; 2; 3].
Proof.
  assert (hreach fresh_heap []) as H0 by (by eapply (hr_init (mk_heap (replicate 1608 0) 0))).
  assert (hreach (heap_after (mem_malloc 100) fresh_heap) _) as H1 by (by eapply (hr_malloc fresh_heap [] 100 8 _ H0)).
  assert (hreach heap_two _) as H2 by (by eapply (hr_malloc (heap_after (mem_malloc 100) fresh_heap) _ 60 116 _ H1)).
  pose proof (hr_store heap_two _ 8 _ _ 10 [1; 2; 3] H2 (perm_swap _ _ _) ltac:(done) ltac:(by vm_compute)) as H3.
  fold heap_stored in H3.
  eexists _, _. split; [exact H3|]. split; [|by vm_compute].
  apply (heap_clients heap_stored _ H3). apply list_elem_of_here.
Defined.
