(* ===== verification/NetMem.v ===== *)
(** * NetMem: what the packet buffers ask of the memory managers

    The packet buffers of lwIP (pbuf.c) live in the heap (mem.c) and in fixed-size pools
    (memp.c). This file is the interface between them: the class [NetMem] is the calls
    pbuf.c makes and the bytes it reads and writes, the class [NetMemOk] what it relies
    on: the blocks that are out are disjoint, nobody but their owner changes them, and
    a freed block is gone. The theorems about packet buffers are proved against these
    two classes; NetRam shows that the heap of Mem and the pools of Memp implement
    them. *)

From stdpp Require Export gmap.
From S2P Require Import Prelude Mem.

#[global] Open Scope Z_scope.

(** The pools that hold packet buffers: for the bare struct, and for the struct with its
    data. *)
Inductive memp_t := MEMP_PBUF | MEMP_PBUF_POOL.
#[export] Instance memp_t_eq_dec : EqDecision memp_t.
Proof. solve_decision. Defined.

(** The element sizes, from memp_std.h. *)
Definition SIZEOF_STRUCT_PBUF : Z := LWIP_MEM_ALIGN_SIZE 16.
Definition TCP_MSS : Z := 1500 - 20 - 20.
Definition PBUF_LINK_HLEN : Z := 14.
Definition PBUF_POOL_BUFSIZE : Z := LWIP_MEM_ALIGN_SIZE (TCP_MSS + 40 + PBUF_LINK_HLEN).
Definition pool_elem (t : memp_t) : Z :=
  match t with
  | MEMP_PBUF => LWIP_MEM_ALIGN_SIZE 16
  | MEMP_PBUF_POOL => LWIP_MEM_ALIGN_SIZE (LWIP_MEM_ALIGN_SIZE 16 + LWIP_MEM_ALIGN_SIZE PBUF_POOL_BUFSIZE)
  end.

(** Where a block comes from. *)
Inductive msrc := Heap | Pool (t : memp_t).
#[export] Instance msrc_eq_dec : EqDecision msrc.
Proof. solve_decision. Defined.

Class NetMem (A : Type) := {
  ram_byte : A -> Z -> Z;
  ram_store : Z -> list Z -> A -> A;
  nm_malloc : Z -> STO A (option Z);
  nm_trim : Z -> Z -> STO A (option Z);
  nm_free : Z -> STO A unit;
  nm_pool_malloc : memp_t -> STO A (option Z);
  nm_pool_free : memp_t -> Z -> STO A unit }.

Definition ram_read `{NetMem A} (p n : Z) (a : A) : list Z := ram_byte a <$> seqZ p n.

(** The blocks that are out: where from and how long. *)
Abbreviation blocks := (gmap Z (msrc * Z)).

(** The [n] bytes from [p] on lie in one block. *)
Definition in_block (m : blocks) (p n : Z) : Prop :=
  exists b s sz, m !! b = Some (s, sz) /\ b <= p /\ p + n <= b + sz.

Definition owned (m : blocks) (x : Z) : Prop := in_block m x 1.

Class NetMemOk (A : Type) `{NetMem A} := {
  arena : Z -> Prop;                     (* the addresses the managers hand out *)
  arena_low x : arena x -> 65536 <= x;   (* nothing where a NULL payload would be *)
  mrep : A -> blocks -> Prop;            (* these blocks are out *)
  mrep_block a m p s n : mrep a m -> m !! p = Some (s, n) ->
    0 < p /\ p mod 4 = 0 /\ is_u16 n /\ p + n < 4294967296 /\ forall x, p <= x < p + n -> arena x;
  mrep_disjoint a m p s n q t k : mrep a m -> m !! p = Some (s, n) -> m !! q = Some (t, k) -> p <> q ->
    p + n <= q \/ q + k <= p;
  mrep_store a m p d : mrep a m -> in_block m p (zlen d) ->
    mrep (ram_store p d a) m /\
    forall x, owned m x \/ ~ arena x -> ram_byte (ram_store p d a) x =
      if (p <=? x) && (x <? p + zlen d) then mem_get d (x - p) else ram_byte a x;
  (* [m'] is what stays out, with the bytes in it *)
  nm_malloc_ok a m n : mrep a m -> is_u16 n -> exists r a', nm_malloc n a = Some (r, a') /\
    match r with
    | None => a' = a
    | Some p => exists sz, n <= sz /\ m !! p = None /\ mrep a' (<[p := (Heap, sz)]> m) /\
        forall x, owned m x \/ ~ arena x -> ram_byte a' x = ram_byte a x
    end;
  nm_pool_malloc_ok a m t : mrep a m -> exists r a', nm_pool_malloc t a = Some (r, a') /\
    match r with
    | None => a' = a
    | Some p => m !! p = None /\ mrep a' (<[p := (Pool t, pool_elem t)]> m) /\
        forall x, owned m x \/ ~ arena x -> ram_byte a' x = ram_byte a x
    end;
  nm_trim_ok a m p sz n : mrep a m -> m !! p = Some (Heap, sz) -> 0 <= n <= sz -> is_u16 n ->
    exists a' sz', nm_trim p n a = Some (Some p, a') /\ n <= sz' /\ mrep a' (<[p := (Heap, sz')]> m) /\
      forall x, owned (<[p := (Heap, n)]> m) x \/ ~ arena x -> ram_byte a' x = ram_byte a x;
  nm_free_ok a m p sz : mrep a m -> m !! p = Some (Heap, sz) ->
    exists a', nm_free p a = Some (tt, a') /\ mrep a' (delete p m) /\
      forall x, owned (delete p m) x \/ ~ arena x -> ram_byte a' x = ram_byte a x;
  nm_pool_free_ok a m p t sz : mrep a m -> m !! p = Some (Pool t, sz) ->
    exists a', nm_pool_free t p a = Some (tt, a') /\ mrep a' (delete p m) /\
      forall x, owned (delete p m) x \/ ~ arena x -> ram_byte a' x = ram_byte a x }.
