(* ===== verification/Memp.v ===== *)
(** * Memp: memory pools (src/lib/lwip/src/core/memp.c)

    A pool is an array of elements of one size; the elements that are not out form a
    linked list, the links in their first four bytes. Pointers are addresses, 0 is NULL.

    Options of this build: no heap behind the pools, no overflow or sanity checks
    ([MEMP_SIZE] is 0). The usage counters, which nothing reads, are left out. *)

From stdpp Require Import gmap.
From S2P Require Import Prelude Mem.

#[local] Open Scope Z_scope.

Definition MEMP_SIZE : Z := 0.

(** [struct memp_desc]: the size and number of the elements, and the array. *)
Record memp_desc := mk_desc { md_size : Z; md_num : nat; md_base : Z }.

(** The array from the first element on, and [*desc->tab]. *)
Record memp_pool := mk_pool { mp_mem : list Z; mp_tab : Z }.
#[export] Instance eta_memp_pool : Eta memp_pool := fun s => mk_pool (mp_mem s) (mp_tab s).

Section pool.
Context (d : memp_desc).

Definition first_elem : Z := LWIP_MEM_ALIGN (md_base d).

Definition memp_next (s : memp_pool) (p : Z) : Z := le_val (mem_read (p - first_elem) 4 (mp_mem s)).
Definition set_memp_next (p v : Z) : STO memp_pool unit :=
  sto_mod (fun s => s <| mp_mem := mem_write (p - first_elem) (le_bytes 4 v) (mp_mem s) |>).
Definition set_tab (p : Z) : STO memp_pool unit := sto_mod (fun s => s <| mp_tab := p |>).

(** The loop of [memp_init_pool] from element [memp] on. *)
Fixpoint init_loop (n : nat) (memp : Z) : STO memp_pool unit :=
  match n with
  | O => sto_ret tt
  | S n =>
      let? s := sto_get in
      set_memp_next memp (mp_tab s) ;?;
      set_tab memp ;?;
      init_loop n (memp + MEMP_SIZE + md_size d)
  end.

Definition memp_init_pool : STO memp_pool unit := set_tab 0 ;?; init_loop (md_num d) first_elem.

Definition do_memp_malloc_pool : STO memp_pool (option Z) :=
  let? s := sto_get in
  let memp := mp_tab s in
  if negb (memp =? 0) then set_tab (memp_next s memp) ;?; sto_ret (Some (memp + MEMP_SIZE))
  else sto_ret None.

Definition do_memp_free_pool (mem : Z) : STO memp_pool unit :=
  let memp := mem - MEMP_SIZE in
  let? s := sto_get in
  set_memp_next memp (mp_tab s) ;?;
  set_tab memp.

Definition memp_free_pool (mem : Z) : STO memp_pool unit :=
  if mem =? 0 then sto_ret tt else do_memp_free_pool mem.

(** ** The free list *)

(** Pools that fit the address space, with room for the links. *)
Record desc_ok : Prop := {
  do_size : 4 <= md_size d;
  do_base : 0 < first_elem;
  do_end : first_elem + Z.of_nat (md_num d) * md_size d < 4294967296 }.

Definition elem (i : nat) : Z := first_elem + Z.of_nat i * md_size d.
Definition elems : list Z := elem <$> seq 0 (md_num d).

(** From pointer [p] the links lead through [l]. *)
Fixpoint free_list (s : memp_pool) (p : Z) (l : list Z) : Prop :=
  match l with
  | [] => p = 0
  | a :: l => p = a /\ a <> 0 /\ free_list s (memp_next s a) l
  end.

(** The elements [out] are out, the elements [l] free. *)
Record pool_rep (s : memp_pool) (l out : list Z) : Prop := {
  pr_len : zlen (mp_mem s) = Z.of_nat (md_num d) * md_size d;
  pr_free : free_list s (mp_tab s) l;
  pr_all : l ++ out ≡ₚ elems }.

Context (Hd : desc_ok).

Lemma elem_inj i j : elem i = elem j -> i = j.
Proof. unfold elem. pose proof (do_size Hd). nia. Qed.

Lemma elems_nodup : NoDup elems.
Proof. unfold elems. apply NoDup_fmap_2; [intros i j; apply elem_inj|apply NoDup_seq]. Qed.

Lemma elem_of_elems a : a ∈ elems <-> exists i, (i < md_num d)%nat /\ a = elem i.
Proof.
  unfold elems. rewrite list_elem_of_fmap. split; [intros (i & -> & Hi)|intros (i & Hi & ->)]; exists i.
  - apply elem_of_seq in Hi. split; [lia|done].
  - split; [done|]. apply elem_of_seq. lia.
Qed.

(** Where an element is, and that two elements are apart. *)
Lemma elem_bounds a : a ∈ elems -> first_elem <= a /\ a + md_size d <= first_elem + Z.of_nat (md_num d) * md_size d /\ 0 < a.
Proof. intros (i & Hi & ->)%elem_of_elems. unfold elem. pose proof (do_size Hd). pose proof (do_base Hd). nia. Qed.
Lemma elem_apart a b : a ∈ elems -> b ∈ elems -> a <> b -> a + md_size d <= b \/ b + md_size d <= a.
Proof.
  intros (i & Hi & ->)%elem_of_elems (j & Hj & ->)%elem_of_elems Hne. unfold elem in *. pose proof (do_size Hd).
  assert (i <> j) by (by intros ->). nia.
Qed.

Lemma free_list_frame s s' l : (forall a, a ∈ l -> memp_next s' a = memp_next s a) -> forall p, free_list s p l -> free_list s' p l.
Proof.
  induction l as [|a l IH]; intros Hf p Hl; [done|]. destruct Hl as (-> & Ha & Hl). split_and!; [done|done|].
  rewrite Hf by apply list_elem_of_here. apply IH; [|done]. intros b Hb. apply Hf. by apply list_elem_of_further.
Qed.

(** A write into element [p] leaves the links of the others. *)
Lemma next_write s p o v a : p ∈ elems -> a ∈ elems -> a <> p -> 0 <= o -> o + zlen v <= md_size d ->
  memp_next (s <| mp_mem := mem_write (p + o - first_elem) v (mp_mem s) |>) a = memp_next s a.
Proof.
  intros Hp Ha Hne Ho Hv. unfold memp_next. cbn [setf mp_mem]. pose proof (elem_bounds _ Hp). pose proof (elem_bounds _ Ha). pose proof (do_size Hd).
  rewrite mem_read_write_disjoint; [done|lia|lia|]. destruct (elem_apart _ _ Ha Hp Hne); lia.
Qed.

Lemma rep_in s l out a : pool_rep s l out -> a ∈ l ++ out -> a ∈ elems.
Proof. intros Hr Ha. by rewrite <- (pr_all _ _ _ Hr). Qed.

Lemma rep_nodup s l out : pool_rep s l out -> NoDup (l ++ out).
Proof. intros Hr. rewrite (pr_all _ _ _ Hr). apply elems_nodup. Qed.

(** An owner writes into its element. *)
Lemma pool_store s l out p o v : pool_rep s l out -> p ∈ out -> 0 <= o -> o + zlen v <= md_size d ->
  pool_rep (s <| mp_mem := mem_write (p + o - first_elem) v (mp_mem s) |>) l out.
Proof.
  intros Hr Hp Ho Hv. pose proof (rep_nodup _ _ _ Hr) as Hnd. apply NoDup_app in Hnd as (_ & Hnd & _). constructor; [cbn [setf mp_mem]; rewrite mem_write_zlen; apply Hr| |apply Hr].
  eapply free_list_frame; [|apply Hr]. intros a Ha.
  apply next_write; [eapply rep_in; [exact Hr|]; apply elem_of_app; by right|eapply rep_in; [exact Hr|]; apply elem_of_app; by left| |done|done].
  intros ->. by apply (Hnd p).
Qed.

(** [memp_malloc] takes the first free element, or there is none. *)
Lemma pool_malloc s l out : pool_rep s l out ->
  match l with
  | [] => do_memp_malloc_pool s = Some (None, s)
  | p :: l => do_memp_malloc_pool s = Some (Some p, s <| mp_tab := memp_next s p |>) /\
      pool_rep (s <| mp_tab := memp_next s p |>) l (p :: out)
  end.
Proof.
  intros Hr. pose proof (pr_free _ _ _ Hr) as Hl. unfold do_memp_malloc_pool, sto_bind, sto_get, set_tab, sto_mod, sto_ret. destruct l as [|p l].
  - cbn in Hl. by rewrite Hl.
  - destruct Hl as (Et & Hp & Hl). rewrite Et. destruct (Z.eqb_spec p 0); [done|]. cbn [negb]. rewrite Z.add_0_r. split; [done|].
    constructor; [apply Hr|by eapply (free_list_frame s)|]. rewrite <- (pr_all _ _ _ Hr). by rewrite <- Permutation_middle.
Qed.

(** [memp_free] puts the element in front of the free ones. *)
Lemma pool_free s l out p : pool_rep s l (p :: out) ->
  exists s', memp_free_pool p s = Some (tt, s') /\ pool_rep s' (p :: l) out /\
    forall o n, 0 <= o -> o + n <= p - first_elem \/ p - first_elem + md_size d <= o -> mem_read o n (mp_mem s') = mem_read o n (mp_mem s).
Proof.
  intros Hr. assert (p ∈ elems) as Hp by (eapply rep_in; [exact Hr|]; apply elem_of_app; right; apply list_elem_of_here).
  pose proof (elem_bounds _ Hp) as (Hb1 & Hb2 & Hb3). pose proof (do_size Hd) as Hsz. pose proof (do_end Hd) as He.
  pose proof (rep_nodup _ _ _ Hr) as Hnd. apply NoDup_app in Hnd as (_ & Hnd & _).
  unfold memp_free_pool, do_memp_free_pool, sto_bind, sto_get, set_memp_next, set_tab, sto_mod. destruct (Z.eqb_spec p 0); [lia|].
  unfold MEMP_SIZE. rewrite Z.sub_0_r. eexists. split; [done|]. cbn [setf mp_mem mp_tab].
  assert (0 <= mp_tab s < 4294967296) as Htab.
  { pose proof (pr_free _ _ _ Hr) as Hl. destruct l as [|a l]; [cbn in Hl; lia|]. destruct Hl as (-> & _).
    assert (a ∈ elems) as Ha by (eapply rep_in; [exact Hr|]; apply elem_of_app; left; apply list_elem_of_here). pose proof (elem_bounds _ Ha). lia. }
  split.
  - constructor; cbn [setf mp_mem mp_tab]; [rewrite mem_write_zlen; apply Hr| |rewrite <- (pr_all _ _ _ Hr); apply Permutation_middle].
    split_and!; [done|lia|]. unfold memp_next at 1. cbn [setf mp_mem].
    replace (mem_read (p - first_elem) 4 (mem_write (p - first_elem) (le_bytes 4 (mp_tab s)) (mp_mem s))) with (le_bytes 4 (mp_tab s)).
    2: { symmetry. replace 4 with (zlen (le_bytes 4 (mp_tab s))) at 1 by (by rewrite le_bytes_zlen). apply mem_read_write; [lia|]. rewrite le_bytes_zlen, (pr_len _ _ _ Hr). lia. }
    rewrite le_val_bytes, Z.mod_small by (change (256 ^ Z.of_nat 4) with 4294967296; lia).
    eapply free_list_frame; [|apply Hr]. intros a Ha. pose proof (next_write s p 0 (le_bytes 4 (mp_tab s)) a Hp) as Hw. rewrite Z.add_0_r in Hw.
    apply Hw; [eapply rep_in; [exact Hr|]; apply elem_of_app; by left| |lia|rewrite le_bytes_zlen; lia].
    intros ->. apply (Hnd p); [done|apply list_elem_of_here].
  - intros o k Ho Hn. apply mem_read_write_disjoint; [lia|done|]. rewrite le_bytes_zlen. lia.
Qed.

(** [memp_init_pool]: all elements are free. *)
Lemma init_loop_rep n : forall k s l, (k + n)%nat = md_num d -> zlen (mp_mem s) = Z.of_nat (md_num d) * md_size d -> free_list s (mp_tab s) l ->
  l ≡ₚ elem <$> seq 0 k ->
  exists s', init_loop n (elem k) s = Some (tt, s') /\ zlen (mp_mem s') = Z.of_nat (md_num d) * md_size d /\
    exists l', free_list s' (mp_tab s') l' /\ l' ≡ₚ elems.
Proof.
  induction n as [|n IH]; intros k s l Hk Hz Hl Hp.
  - exists s. split_and!; [done|done|]. exists l. split; [done|]. rewrite Hp. unfold elems. do 2 f_equiv. f_equal. lia.
  - cbn [init_loop]. unfold sto_bind, sto_get, set_memp_next, set_tab, sto_mod. pose proof (do_size Hd) as Hsz. pose proof (do_base Hd) as Hb. pose proof (do_end Hd) as He.
    assert (elem k ∈ elems) as Hek by (apply elem_of_elems; exists k; split; [lia|done]).
    assert (forall a, a ∈ l -> a ∈ elems /\ a <> elem k) as Hal.
    { intros a. rewrite Hp, list_elem_of_fmap. intros (i & -> & Hi%elem_of_seq). split; [apply elem_of_elems; exists i; split; [lia|done]|]. intros E%elem_inj. lia. }
    assert (0 <= mp_tab s < 4294967296) as Htab.
    { destruct l as [|a l]; [cbn in Hl; lia|]. destruct Hl as (-> & _). destruct (Hal a) as [Ha _]; [apply list_elem_of_here|]. pose proof (elem_bounds _ Ha). lia. }
    pose proof (elem_bounds _ Hek) as (Hb1 & Hb2 & Hb3). set (s1 := mk_pool (mem_write (elem k - first_elem) (le_bytes 4 (mp_tab s)) (mp_mem s)) (elem k)).
    replace (elem k + MEMP_SIZE + md_size d) with (elem (S k)) by (unfold elem, MEMP_SIZE; lia).
    apply (IH (S k) s1 (elem k :: l)); [lia|cbn [s1 mp_mem]; by rewrite mem_write_zlen| |].
    + assert (memp_next s1 (elem k) = mp_tab s) as En.
      { unfold memp_next. cbn [s1 mp_mem]. replace 4 with (zlen (le_bytes 4 (mp_tab s))) at 1 by (by rewrite le_bytes_zlen).
        rewrite mem_read_write; [|lia|rewrite le_bytes_zlen, Hz; lia]. rewrite le_val_bytes. apply Z.mod_small. change (256 ^ Z.of_nat 4) with 4294967296. lia. }
      split_and!; [done|lia|]. rewrite En. eapply free_list_frame; [|exact Hl]. intros a Ha. destruct (Hal a Ha) as [Hae Hne].
      pose proof (next_write s (elem k) 0 (le_bytes 4 (mp_tab s)) a Hek Hae Hne) as Hw. rewrite Z.add_0_r, le_bytes_zlen in Hw. apply Hw; lia.
    + rewrite seq_S, fmap_app, Hp. cbn [fmap list_fmap]. rewrite Nat.add_0_l. by rewrite Permutation_cons_append.
Qed.

Lemma pool_init mem : zlen mem = Z.of_nat (md_num d) * md_size d ->
  forall tab, exists s l, memp_init_pool (mk_pool mem tab) = Some (tt, s) /\ pool_rep s l [].
Proof.
  intros Hz tab. destruct (init_loop_rep (md_num d) 0 (mk_pool mem 0) []) as (s & E & Hz' & l & Hl & Hp); [done|done|done|done|].
  exists s, l. split; [|constructor; [done|done|by rewrite app_nil_r]].
  unfold memp_init_pool, sto_bind, set_tab, sto_mod. cbn [setf mp_mem mp_tab]. rewrite <- E. unfold elem. by rewrite Z.mul_0_l, Z.add_0_r.
Qed.

End pool.
