(* ===== verification/NetRam.v ===== *)
(** * NetRam: the memory of the TCP/IP stack

    The heap of Mem and the two pools of Memp for packet buffers, at the addresses the
    linker gives them, are what the packet buffers of Pbuf ask for: the blocks handed
    out are apart, and neither the heap's nor the pools' own links, which lie between
    and inside the free blocks, ever get in the way of their owners. *)

From stdpp Require Import gmap.
From S2P Require Import Prelude Mem MemProps Memp NetMem.

#[local] Abbreviation total := MemProps.total.

(** ** Where things are *)

Definition MEMP_NUM_PBUF : nat := 16.
Definition PBUF_POOL_SIZE : nat := 8.
Definition pool_num (t : memp_t) : nat := match t with MEMP_PBUF => MEMP_NUM_PBUF | MEMP_PBUF_POOL => PBUF_POOL_SIZE end.

(** The addresses of [ram] and of the arrays of the pools. *)
Class Layout := { ram_addr : Z; pool_addr : memp_t -> Z }.

Definition desc `{Layout} (t : memp_t) : memp_desc := mk_desc (pool_elem t) (pool_num t) (pool_addr t).
Definition in_heap `{Layout} (x : Z) : bool := (ram_addr <=? x) && (x <? ram_addr + 1608).
Definition in_pool `{Layout} (t : memp_t) (x : Z) : bool :=
  (first_elem (desc t) <=? x) && (x <? first_elem (desc t) + Z.of_nat (pool_num t) * pool_elem t).

Class LayoutOk `{Layout} : Prop := {
  lo_heap : 65536 <= ram_addr /\ ram_addr mod 4 = 0 /\ ram_addr + 1608 < 4294967296;
  lo_pool t : 65536 <= pool_addr t /\ pool_addr t + 20000 < 4294967296;
  lo_heap_pool t x : in_heap x = true -> in_pool t x = false;
  lo_pools x : in_pool MEMP_PBUF x = true -> in_pool MEMP_PBUF_POOL x = false }.

Record netram := mk_netram { nr_heap : heap; nr_pbuf : memp_pool; nr_bufs : memp_pool; nr_rest : Z -> Z }.
#[export] Instance eta_netram : Eta netram := fun a => mk_netram (nr_heap a) (nr_pbuf a) (nr_bufs a) (nr_rest a).

Definition nr_pools (a : netram) (t : memp_t) : memp_pool := match t with MEMP_PBUF => nr_pbuf a | MEMP_PBUF_POOL => nr_bufs a end.
Definition set_pool (t : memp_t) (q : memp_pool) (a : netram) : netram :=
  match t with MEMP_PBUF => a <| nr_pbuf := q |> | MEMP_PBUF_POOL => a <| nr_bufs := q |> end.

Lemma pools_set t q a t' : nr_pools (set_pool t q a) t' = if decide (t' = t) then q else nr_pools a t'.
Proof. by destruct t, t'. Qed.
Lemma set_pool_same t a : set_pool t (nr_pools a t) a = a.
Proof. by destruct t, a. Qed.
Lemma heap_set t q a : nr_heap (set_pool t q a) = nr_heap a.
Proof. by destruct t. Qed.
Lemma rest_set t q a : nr_rest (set_pool t q a) = nr_rest a.
Proof. by destruct t. Qed.

Section netram.
Context `{Layout}.

Definition nr_byte (a : netram) (x : Z) : Z :=
  if in_heap x then mem_get (ram (nr_heap a)) (x - ram_addr)
  else if in_pool MEMP_PBUF x then mem_get (mp_mem (nr_pools a MEMP_PBUF)) (x - first_elem (desc MEMP_PBUF))
  else if in_pool MEMP_PBUF_POOL x then mem_get (mp_mem (nr_pools a MEMP_PBUF_POOL)) (x - first_elem (desc MEMP_PBUF_POOL))
  else nr_rest a x.

(** A store does not cross from one of the arrays into another. *)
Definition pool_write (t : memp_t) (p : Z) (d : list Z) (a : netram) : netram :=
  set_pool t ((nr_pools a t) <| mp_mem := mem_write (p - first_elem (desc t)) d (mp_mem (nr_pools a t)) |>) a.
Definition nr_store (p : Z) (d : list Z) (a : netram) : netram :=
  if in_heap p then a <| nr_heap := (nr_heap a) <| ram := mem_write (p - ram_addr) d (ram (nr_heap a)) |> |>
  else if in_pool MEMP_PBUF p then pool_write MEMP_PBUF p d a
  else if in_pool MEMP_PBUF_POOL p then pool_write MEMP_PBUF_POOL p d a
  else a <| nr_rest := fun x => if (p <=? x) && (x <? p + zlen d) then mem_get d (x - p) else nr_rest a x |>.

Definition heap_do {R} (c : STO heap R) : STO netram R := fun a =>
  match c (nr_heap a) with Some (r, h) => Some (r, a <| nr_heap := h |>) | None => None end.
Definition pool_do {R} (t : memp_t) (c : STO memp_pool R) : STO netram R := fun a =>
  match c (nr_pools a t) with Some (r, q) => Some (r, set_pool t q a) | None => None end.

Definition at_ram (p : option Z) : option Z := match p with Some p => Some (ram_addr + p) | None => None end.

(** [memp_malloc] and [memp_free] with the pools of this build. *)
Definition memp_malloc (t : memp_t) : STO netram (option Z) := pool_do t (do_memp_malloc_pool (desc t)).
Definition memp_free (t : memp_t) (mem : Z) : STO netram unit := pool_do t (memp_free_pool (desc t) mem).

#[export] Instance netram_mem : NetMem netram := {
  ram_byte := nr_byte;
  ram_store := nr_store;
  nm_malloc n := let? p := heap_do (mem_malloc n) in sto_ret (at_ram p);
  nm_trim p n := let? q := heap_do (mem_trim (p - ram_addr) n) in sto_ret (at_ram q);
  nm_free p := heap_do (mem_free (Some (p - ram_addr)));
  nm_pool_malloc := memp_malloc;
  nm_pool_free := memp_free }.

(** ** The blocks that are out *)

Record nrep (a : netram) (m : blocks) (bs : list (Z * bool)) (free out : memp_t -> list Z) : Prop := {
  nr_rep : rep (nr_heap a) bs;
  nr_pool t : pool_rep (desc t) (nr_pools a t) (free t) (out t);
  nr_used p sz : m !! p = Some (Heap, sz) <-> block_at bs (p - ram_addr - 8) (sz + 8) true;
  nr_out t p sz : m !! p = Some (Pool t, sz) <-> sz = pool_elem t /\ p ∈ out t }.

Context `{!LayoutOk}.

Lemma desc_good t : desc_ok (desc t) /\ first_elem (desc t) mod 4 = 0 /\ pool_addr t <= first_elem (desc t) <= pool_addr t + 3 /\ pool_elem t mod 4 = 0 /\
  Z.of_nat (pool_num t) * pool_elem t <= 16000 /\ 16 <= pool_elem t <= 1532.
Proof.
  destruct (lo_pool t) as [Hl Hh].
  assert (first_elem (desc t) = (pool_addr t + 3) / 4 * 4) as E.
  { unfold first_elem, LWIP_MEM_ALIGN. change (Z.land (md_base (desc t) + MEM_ALIGNMENT - 1) (Z.lnot (MEM_ALIGNMENT - 1))) with (LWIP_MEM_ALIGN_SIZE (pool_addr t)).
    rewrite align_size. apply u32_small. unfold is_u32. zdivmod. }
  assert (Z.of_nat (pool_num t) * pool_elem t <= 16000 /\ 16 <= pool_elem t <= 1532 /\ pool_elem t mod 4 = 0) as (Hs & He & Hm) by (by destruct t).
  split_and!; try done; try (rewrite E; zdivmod); try lia.
  constructor; cbn [desc md_size md_num]; rewrite ?E; [lia|zdivmod|zdivmod].
Qed.

Lemma block_range h bs o n u : linked h bs -> block_at bs o n u -> 0 <= o /\ o mod 4 = 0 /\ 20 <= n /\ o + n <= 1600 /\ n mod 4 = 0.
Proof.
  intros Hr (l & k & -> & <-). destruct (linked_around _ _ _ _ _ Hr) as (Hp & Hp4 & Hl & Hl4 & Hb & Ht & _). split_and!; try done. 
Qed.

Lemma in_heap_spec x : in_heap x = true <-> ram_addr <= x < ram_addr + 1608.
Proof. unfold in_heap. rewrite andb_true_iff, Z.leb_le, Z.ltb_lt. done. Qed.
Lemma in_pool_spec t x : in_pool t x = true <-> first_elem (desc t) <= x < first_elem (desc t) + Z.of_nat (pool_num t) * pool_elem t.
Proof. unfold in_pool. rewrite andb_true_iff, Z.leb_le, Z.ltb_lt. done. Qed.

Lemma pool_not_heap t x : in_pool t x = true -> in_heap x = false.
Proof. intros Hp. destruct (in_heap x) eqn:E; [|done]. apply (lo_heap_pool t) in E. congruence. Qed.
Lemma pools_apart t t' x : in_pool t x = true -> t' <> t -> in_pool t' x = false.
Proof.
  intros Hp Hne. destruct t, t'; try done; [by apply lo_pools|]. destruct (in_pool MEMP_PBUF x) eqn:E; [|done]. apply lo_pools in E. congruence.
Qed.

Lemma byte_heap a x : in_heap x = true -> nr_byte a x = mem_get (ram (nr_heap a)) (x - ram_addr).
Proof. unfold nr_byte. by intros ->. Qed.
Lemma byte_pool a t x : in_pool t x = true -> nr_byte a x = mem_get (mp_mem (nr_pools a t)) (x - first_elem (desc t)).
Proof.
  intros Hp. unfold nr_byte. rewrite (pool_not_heap _ _ Hp). destruct t; [by rewrite Hp|].
  rewrite (pools_apart _ MEMP_PBUF _ Hp) by done. by rewrite Hp.
Qed.

(** The addresses of the heap and the pools. *)
Definition nr_arena (x : Z) : Prop := in_heap x = true \/ exists t, in_pool t x = true.

Lemma byte_rest a x : ~ nr_arena x -> nr_byte a x = nr_rest a x.
Proof.
  intros Hn. unfold nr_byte. destruct (in_heap x) eqn:E; [destruct Hn; by left|].
  destruct (in_pool MEMP_PBUF x) eqn:E1; [destruct Hn; right; by eexists|].
  destruct (in_pool MEMP_PBUF_POOL x) eqn:E2; [destruct Hn; right; by eexists|done].
Qed.

Lemma heap_block a m bs free out p sz : nrep a m bs free out -> m !! p = Some (Heap, sz) ->
  ram_addr + 8 <= p /\ p + sz <= ram_addr + 1600 /\ p mod 4 = 0 /\ 12 <= sz.
Proof.
  intros Hr Hp. apply (nr_used _ _ _ _ _ Hr) in Hp. destruct (block_range _ _ _ _ _ (r_linked _ _ (nr_rep _ _ _ _ _ Hr)) Hp) as (H1 & H2 & H3 & H4 & H5).
  destruct lo_heap as (_ & Hm & _). split_and!; try lia. zdivmod.
Qed.

Lemma pool_block a m bs free out t p sz : nrep a m bs free out -> m !! p = Some (Pool t, sz) ->
  sz = pool_elem t /\ p ∈ out t /\ p ∈ elems (desc t) /\ first_elem (desc t) <= p /\ p + sz <= first_elem (desc t) + Z.of_nat (pool_num t) * pool_elem t /\ p mod 4 = 0.
Proof.
  intros Hr Hp. apply (nr_out _ _ _ _ _ Hr) in Hp as [-> Hp]. destruct (desc_good t) as (Hd & H4 & _ & Hs4 & _).
  assert (p ∈ elems (desc t)) as He by (eapply rep_in; [apply (nr_pool _ _ _ _ _ Hr)|]; apply elem_of_app; by right).
  destruct (elem_bounds _ Hd _ He) as (Hb1 & Hb2 & _). split_and!; try done.
  apply elem_of_elems in He as (i & _ & ->). unfold elem. cbn [md_size desc]. rewrite Z.add_mod, Z.mul_mod, H4, Hs4 by lia. by rewrite Z.mul_0_r.
Qed.

(** Where the bytes of a block are. *)
Lemma block_region a m bs free out p s sz x : nrep a m bs free out -> m !! p = Some (s, sz) -> p <= x < p + sz ->
  match s with Heap => in_heap x = true | Pool t => in_pool t x = true end.
Proof.
  intros Hr Hp Hx. destruct s as [|t].
  - destruct (heap_block _ _ _ _ _ _ _ Hr Hp) as (? & ? & _). apply in_heap_spec. lia.
  - destruct (pool_block _ _ _ _ _ _ _ _ Hr Hp) as (_ & _ & _ & ? & ? & _). apply in_pool_spec. lia.
Qed.

Lemma block_pos a m bs free out p s sz : nrep a m bs free out -> m !! p = Some (s, sz) -> 0 < sz.
Proof.
  intros Hr Hp. destruct s as [|t]; [destruct (heap_block _ _ _ _ _ _ _ Hr Hp); lia|].
  destruct (pool_block _ _ _ _ _ _ _ _ Hr Hp) as (-> & _). destruct (desc_good t) as (_ & _ & _ & _ & _ & ?). lia.
Qed.

Definition nr_mrep (a : netram) (m : blocks) : Prop := exists bs free out, nrep a m bs free out.

Lemma nr_block_ok a m p s n : nr_mrep a m -> m !! p = Some (s, n) ->
  0 < p /\ p mod 4 = 0 /\ is_u16 n /\ p + n < 4294967296 /\ forall x, p <= x < p + n -> nr_arena x.
Proof.
  intros (bs & free & out & Hr) Hp. assert (forall x, p <= x < p + n -> nr_arena x) as Ha.
  { intros x Hx. pose proof (block_region _ _ _ _ _ _ _ _ _ Hr Hp Hx). destruct s; [by left|right; by eexists]. }
  destruct s as [|t].
  - destruct (heap_block _ _ _ _ _ _ _ Hr Hp) as (? & ? & ? & ?). destruct lo_heap as (? & ? & ?). unfold is_u16. split_and!; try done; lia.
  - destruct (pool_block _ _ _ _ _ _ _ _ Hr Hp) as (-> & _ & _ & ? & ? & ?). destruct (desc_good t) as (_ & _ & ? & _ & ? & ?), (lo_pool t). unfold is_u16. split_and!; try done; lia.
Qed.

Lemma nr_disjoint a m p s n q t k : nr_mrep a m -> m !! p = Some (s, n) -> m !! q = Some (t, k) -> p <> q -> p + n <= q \/ q + k <= p.
Proof.
  intros (bs & free & out & Hr) Hp Hq Hne.
  pose proof (block_pos _ _ _ _ _ _ _ _ Hr Hp). pose proof (block_pos _ _ _ _ _ _ _ _ Hr Hq).
  destruct (decide (p + n <= q \/ q + k <= p)) as [|Hno]; [done|exfalso].
  assert (p <= Z.max p q < p + n /\ q <= Z.max p q < q + k) as [Hx Hy] by lia.
  pose proof (block_region _ _ _ _ _ _ _ _ _ Hr Hp Hx) as Rp. pose proof (block_region _ _ _ _ _ _ _ _ _ Hr Hq Hy) as Rq.
  destruct s as [|s], t as [|t].
  - apply (nr_used _ _ _ _ _ Hr) in Hp, Hq.
    destruct (block_disjoint _ _ _ _ _ _ _ _ _ _ (r_seg _ _ (r_linked _ _ (nr_rep _ _ _ _ _ Hr))) Hp Hq) as [(E & _)|Hd]; lia.
  - rewrite (pool_not_heap _ _ Rq) in Rp. done.
  - rewrite (pool_not_heap _ _ Rp) in Rq. done.
  - destruct (decide (t = s)) as [->|Hts]; [|rewrite (pools_apart _ _ _ Rp Hts) in Rq; done].
    destruct (pool_block _ _ _ _ _ _ _ _ Hr Hp) as (-> & _ & He & _). destruct (pool_block _ _ _ _ _ _ _ _ Hr Hq) as (-> & _ & He' & _).
    destruct (elem_apart _ (proj1 (desc_good s)) _ _ He He' Hne) as [Hd|Hd]; cbn [md_size desc] in Hd; lia.
Qed.

(** ** The calls *)

Lemma read_get (o n : Z) (x y : list Z) i : 0 <= o -> mem_read o n x = mem_read o n y -> o <= i < o + n -> mem_get x i = mem_get y i.
Proof.
  intros Ho E Hi. replace i with (o + (i - o)) by lia. rewrite <- !(mem_get_read o n) by lia. by rewrite E.
Qed.

(** A change of the heap that leaves these blocks alone. *)
Lemma heap_kept a m h' x : (forall p sz, m !! p = Some (Heap, sz) -> mem_read (p - ram_addr) sz (ram h') = mem_read (p - ram_addr) sz (ram (nr_heap a))) ->
  (forall p s sz, m !! p = Some (s, sz) -> p <= x < p + sz -> match s with Heap => ram_addr <= p /\ in_heap x = true | Pool t => in_pool t x = true end) ->
  owned m x \/ ~ nr_arena x -> nr_byte (a <| nr_heap := h' |>) x = nr_byte a x.
Proof.
  intros Hk Hreg [(p & s & sz & Hp & Hx)|Hx]; [|by rewrite !byte_rest].
  specialize (Hreg _ _ _ Hp ltac:(lia)). destruct s as [|t].
  - destruct Hreg as [Hp0 Hh]. rewrite !byte_heap by done. cbn [setf nr_heap]. eapply (read_get (p - ram_addr) sz); [lia|by apply Hk|lia].
  - by rewrite !(byte_pool _ t).
Qed.

Lemma owned_region a m bs free out : nrep a m bs free out -> forall x p s sz, m !! p = Some (s, sz) -> p <= x < p + sz ->
  match s with Heap => ram_addr <= p /\ in_heap x = true | Pool t => in_pool t x = true end.
Proof.
  intros Hr x p s sz Hp Hx. pose proof (block_region _ _ _ _ _ _ _ _ _ Hr Hp Hx) as R. destruct s; [|done]. split; [|done].
  destruct (heap_block _ _ _ _ _ _ _ Hr Hp). lia.
Qed.

Lemma keeps_blocks a m bs free out p h' : nrep a m bs free out -> keeps_others p bs (nr_heap a) h' ->
  forall q sz, m !! q = Some (Heap, sz) -> q - ram_addr - 8 <> p -> mem_read (q - ram_addr) sz (ram h') = mem_read (q - ram_addr) sz (ram (nr_heap a)).
Proof.
  intros Hr Hk q sz Hq Hne. apply (nr_used _ _ _ _ _ Hr) in Hq. specialize (Hk _ _ Hq Hne).
  replace (q - ram_addr - 8 + 8) with (q - ram_addr) in Hk by lia. by replace (sz + 8 - 8) with sz in Hk by lia.
Qed.

(** The heap blocks after a change of the blocks in use. *)
Lemma nrep_heap a m bs free out h' m' bs' : nrep a m bs free out -> rep h' bs' ->
  (forall p sz, m' !! p = Some (Heap, sz) <-> block_at bs' (p - ram_addr - 8) (sz + 8) true) ->
  (forall p t sz, m' !! p = Some (Pool t, sz) <-> m !! p = Some (Pool t, sz)) -> nrep (a <| nr_heap := h' |>) m' bs' free out.
Proof.
  intros Hr Hr' Hu Hp. constructor; [done|apply Hr|done|]. intros t p sz. rewrite Hp. apply (nr_out _ _ _ _ _ Hr).
Qed.

Lemma not_heap_addr a m bs free out p t sz : nrep a m bs free out -> m !! p = Some (Pool t, sz) -> 8 <= p - ram_addr < 1608 -> False.
Proof.
  intros Hr Hp Hx. pose proof (block_pos _ _ _ _ _ _ _ _ Hr Hp) as Hpos. pose proof (block_region _ _ _ _ _ _ _ _ p Hr Hp ltac:(lia)) as R. cbn in R.
  apply pool_not_heap in R. assert (in_heap p = true) by (apply in_heap_spec; lia). congruence.
Qed.

Lemma nr_malloc_ok a m n : nr_mrep a m -> is_u16 n -> exists r a', nm_malloc n a = Some (r, a') /\
  match r with
  | None => a' = a
  | Some p => exists sz, n <= sz /\ m !! p = None /\ nr_mrep a' (<[p := (Heap, sz)]> m) /\
      forall x, owned m x \/ ~ nr_arena x -> ram_byte a' x = ram_byte a x
  end.
Proof.
  intros (bs & free & out & Hr) Hn. cbn [nm_malloc netram_mem]. unfold sto_bind, heap_do, sto_ret.
  assert (sto_wp (mem_malloc n) (fun r h' => (r = None /\ h' = nr_heap a) \/ exists p bs', r = Some (p + 8) /\ a_malloc 0 (request n) bs = Some (p, bs') /\
    rep h' bs' /\ keeps_others p bs (nr_heap a) h') (nr_heap a)) as Hw.
  { destruct (decide (n = 0)) as [->|Hn0]; [unfold mem_malloc; cbn; by left|].
    eapply swp_malloc; [apply (nr_rep _ _ _ _ _ Hr)|done|done|intros _; by left|]. intros p bs' h' E Hr' Hk. right. by exists p, bs'. }
  apply swp_run in Hw as (r & h' & -> & [[-> ->]|(p & bs' & -> & Em & Hr' & Hk)]).
  { exists None, a. split; [by destruct a|done]. }
  eexists _, _. split; [done|]. cbn [at_ram].
  destruct (used_malloc _ _ _ _ Em) as (len & Hlen & Hperm). exists (len - 8).
  pose proof (used_nodup _ _ _ _ (r_seg _ _ (r_linked _ _ Hr'))) as [Hnd _]. rewrite Hperm, fmap_cons in Hnd. apply NoDup_cons in Hnd as [Hnd _]. cbn in Hnd.
  assert (forall o k, block_at bs' o k true <-> (o = p /\ k = len) \/ block_at bs o k true) as Hb.
  { intros o k. pose proof (used_blocks_at 0 bs' o k) as E1. pose proof (used_blocks_at 0 bs o k) as E2. rewrite Z.sub_0_r in E1, E2.
    rewrite <- E1, <- E2, Hperm, elem_of_cons. split; (intros [E|?]; [left|by right]); [by injection E as -> ->|destruct E as [-> ->]; done]. }
  assert (block_at bs' p len true) as Hbp by (apply Hb; by left).
  destruct (block_range _ _ _ _ _ (r_linked _ _ Hr') Hbp) as (B1 & B2 & B3 & B4 & B5).
  assert (m !! (ram_addr + (p + 8)) = None) as Hfresh.
  { destruct (m !! (ram_addr + (p + 8))) as [[[|t] sz]|] eqn:E; [exfalso|exfalso|done].
    - apply (nr_used _ _ _ _ _ Hr) in E. replace (ram_addr + (p + 8) - ram_addr - 8) with p in E by lia. apply Hnd.
      apply (list_elem_of_fmap_2' fst) with (x := (p, sz + 8)); [|done]. apply used_blocks_at. by rewrite Z.sub_0_r.
    - eapply not_heap_addr; [exact Hr|exact E|lia]. }
  assert (request n >= n) as Hrq by (unfold request; zdivmod).
  split_and!; [lia|done| |].
  - exists bs', free, out. eapply nrep_heap; [exact Hr|exact Hr'| |].
    + intros q sz. rewrite lookup_insert_Some, Hb, <- (nr_used _ _ _ _ _ Hr q sz). split.
      * intros [[<- [= <-]]|[Hne Hq]]; [left; lia|by right].
      * intros [[E1 E2]|Hq]; [left; split; [lia|f_equal; f_equal; lia]|]. right. split; [congruence|done].
    + intros q t sz. rewrite lookup_insert_Some. split; [by intros [[_ ?]|[_ ?]]|]. intros Hq. right. split; [congruence|done].
  - intros x Hx. apply (heap_kept a m); [|by eapply owned_region|done]. intros q sz Hq. eapply keeps_blocks; [exact Hr|exact Hk|exact Hq|].
    intros E. assert (q = ram_addr + (p + 8)) as -> by lia. congruence.
Qed.

Lemma nr_free_ok a m p sz : nr_mrep a m -> m !! p = Some (Heap, sz) ->
  exists a', nm_free p a = Some (tt, a') /\ nr_mrep a' (delete p m) /\
    forall x, owned (delete p m) x \/ ~ nr_arena x -> ram_byte a' x = ram_byte a x.
Proof.
  intros (bs & free & out & Hr) Hp. cbn [nm_free netram_mem]. unfold heap_do. pose proof Hp as Hpb. apply (nr_used _ _ _ _ _ Hr) in Hpb as (l & k & Ebs & El).
  assert (sto_wp (mem_free (Some (p - ram_addr))) (fun _ h' => rep h' (a_free 0 (total l) bs) /\ keeps_others (total l) bs (nr_heap a) h') (nr_heap a)) as Hw.
  { replace (p - ram_addr) with (total l + 8) by lia. pose proof (nr_rep _ _ _ _ _ Hr) as Hh. rewrite Ebs in *. eapply swp_free; [exact Hh|]. intros h' Hr' Hk. by split. }
  apply swp_run in Hw as ([] & h' & -> & Hr' & Hk). eexists. split; [done|].
  pose proof (used_nodup _ _ _ _ (r_seg _ _ (r_linked _ _ (nr_rep _ _ _ _ _ Hr)))) as [Hnd _].
  pose proof (r_seg _ _ (r_linked _ _ (nr_rep _ _ _ _ _ Hr))) as Hs. rewrite Ebs in Hs. apply seg_app in Hs as [Hs _].
  pose proof (used_free _ _ _ l (sz + 8) k Hs eq_refl) as Hperm. rewrite <- Ebs in Hperm. rewrite Hperm, fmap_cons in Hnd. apply NoDup_cons in Hnd as [Hnd _]. cbn in Hnd.
  split.
  - exists (a_free 0 (total l) bs), free, out. eapply nrep_heap; [exact Hr|exact Hr'| |].
    + intros q n. pose proof (used_blocks_at 0 bs (q - ram_addr - 8) (n + 8)) as E1. pose proof (used_blocks_at 0 (a_free 0 (total l) bs) (q - ram_addr - 8) (n + 8)) as E2.
      rewrite Z.sub_0_r in E1, E2. rewrite lookup_delete_Some, (nr_used _ _ _ _ _ Hr q n), <- E1, <- E2, Hperm, elem_of_cons. split.
      * intros [Hne [[= E _]|?]]; [lia|done].
      * intros Hin. split; [|by right]. intros <-. apply Hnd. apply (list_elem_of_fmap_2' fst) with (x := (total l, n + 8)); [|done]. by rewrite <- El in Hin.
    + intros q t n. rewrite lookup_delete_Some. split; [by intros [_ ?]|]. intros Hq. split; [congruence|done].
  - intros x Hx. apply (heap_kept a (delete p m)); [| |done].
    + intros q n [Hne Hq]%lookup_delete_Some. eapply keeps_blocks; [exact Hr|exact Hk|exact Hq|]. lia.
    + intros q s n [Hne Hq]%lookup_delete_Some. by apply (owned_region _ _ _ _ _ Hr x q s n).
Qed.

Lemma nr_trim_ok a m p sz n : nr_mrep a m -> m !! p = Some (Heap, sz) -> 0 <= n <= sz -> is_u16 n ->
  exists a' sz', nm_trim p n a = Some (Some p, a') /\ n <= sz' /\ nr_mrep a' (<[p := (Heap, sz')]> m) /\
    forall x, owned (<[p := (Heap, n)]> m) x \/ ~ nr_arena x -> ram_byte a' x = ram_byte a x.
Proof.
  intros (bs & free & out & Hr) Hp Hn Hn16. cbn [nm_trim netram_mem]. unfold sto_bind, heap_do, sto_ret. pose proof Hp as Hpb. apply (nr_used _ _ _ _ _ Hr) in Hpb.
  destruct (block_range _ _ _ _ _ (r_linked _ _ (nr_rep _ _ _ _ _ Hr)) Hpb) as (_ & _ & B3 & B4 & B5). destruct Hpb as (l & k & Ebs & El).
  destruct (request_fits n (sz + 8) Hn16 ltac:(lia) B3 B5) as [Hq1 Hq2].
  assert (sto_wp (mem_trim (p - ram_addr) n) (fun r h' => r = Some (p - ram_addr) /\ rep h' (l ++ a_shrink (request n) (sz + 8) k) /\ keeps_others (total l) bs (nr_heap a) h' /\
     mem_read (p - ram_addr) (request n) (ram h') = mem_read (p - ram_addr) (request n) (ram (nr_heap a))) (nr_heap a)) as Hw.
  { replace (p - ram_addr) with (total l + 8) by lia. pose proof (nr_rep _ _ _ _ _ Hr) as Hh. rewrite Ebs in *. eapply swp_trim; [exact Hh|done|lia|]. intros h' _ Hr' Hk Hb. by split_and!. }
  apply swp_run in Hw as (r & h' & -> & -> & Hr' & Hk & Hb). cbn [at_ram]. replace (ram_addr + (p - ram_addr)) with p by lia.
  destruct (used_shrink (request n) l (sz + 8) k) as (len' & U1 & U2 & Hlen & Eu & Eu'); [lia|]. rewrite <- Ebs in Eu.
  pose proof (used_nodup _ _ _ _ (r_seg _ _ (r_linked _ _ (nr_rep _ _ _ _ _ Hr)))) as [Hnd _].
  assert (forall j, (total l, j) ∉ U1 ++ U2) as Hnot.
  { intros j Hj. rewrite Eu, fmap_app, fmap_cons in Hnd. apply NoDup_app in Hnd as (_ & Hnd1 & Hnd). apply NoDup_cons in Hnd as [Hnd _]. cbn in Hnd, Hnd1.
    apply elem_of_app in Hj as [Hj|Hj]; apply (list_elem_of_fmap_2' fst _ _ (total l)) in Hj; try done. apply (Hnd1 _ Hj). by left. }
  eexists _, (len' - 8). split_and!; [done|lia| |].
  - exists (l ++ a_shrink (request n) (sz + 8) k), free, out. eapply nrep_heap; [exact Hr|exact Hr'| |].
    + intros q j. pose proof (used_blocks_at 0 bs (q - ram_addr - 8) (j + 8)) as E1. pose proof (used_blocks_at 0 (l ++ a_shrink (request n) (sz + 8) k) (q - ram_addr - 8) (j + 8)) as E2.
      rewrite Z.sub_0_r in E1, E2. rewrite lookup_insert_Some, (nr_used _ _ _ _ _ Hr q j), <- E1, <- E2, Eu, Eu', !elem_of_app, !elem_of_cons. 
      specialize (Hnot (j + 8)). rewrite elem_of_app in Hnot. split.
      * intros [[<- [= <-]]|[Hne [?|[[= E ?]|?]]]]; [right; left; f_equal; lia|by left|lia|right; by right].
      * intros [?|[[= E1' E2']|?]]; [|left; split; [lia|f_equal; f_equal; lia]|]; (right; split; [|auto]); intros <-; apply Hnot; replace (total l) with (p - ram_addr - 8) by lia; auto.
    + intros q t j. rewrite lookup_insert_Some. split; [by intros [[_ ?]|[_ ?]]|]. intros Hq. right. split; [congruence|done].
  - intros x Hx. apply (heap_kept a (<[p := (Heap, n)]> m)); [| |done].
    + intros q j Hq. apply lookup_insert_Some in Hq as [[<- [= <-]]|[Hne Hq]].
      * rewrite !(mem_read_prefix _ n (request n)) by lia. by rewrite Hb.
      * eapply keeps_blocks; [exact Hr|exact Hk|exact Hq|lia].
    + intros q s j Hq Hj. apply lookup_insert_Some in Hq as [[<- [= <- <-]]|[Hne Hq]]; [|by apply (owned_region _ _ _ _ _ Hr x q s j)].
      apply (owned_region _ _ _ _ _ Hr x p Heap sz Hp). lia.
Qed.

(** A change of one pool. *)
Lemma pool_kept a m t q' x : (forall p sz, m !! p = Some (Pool t, sz) ->
    first_elem (desc t) <= p /\ mem_read (p - first_elem (desc t)) sz (mp_mem q') = mem_read (p - first_elem (desc t)) sz (mp_mem (nr_pools a t))) ->
  (forall p s sz, m !! p = Some (s, sz) -> p <= x < p + sz -> match s with Heap => in_heap x = true | Pool t => in_pool t x = true end) ->
  owned m x \/ ~ nr_arena x -> nr_byte (set_pool t q' a) x = nr_byte a x.
Proof.
  intros Hk Hreg [(p & s & sz & Hp & Hx)|Hx]; [|by rewrite !byte_rest, rest_set].
  specialize (Hreg _ _ _ Hp ltac:(lia)). destruct s as [|t']; [by rewrite !byte_heap, heap_set|].
  rewrite !(byte_pool _ t'), pools_set by done. case_decide as Hd; [|done]. subst t'.
  destruct (Hk p sz Hp) as [Hp0 E]. eapply (read_get (p - first_elem (desc t)) sz); [lia|exact E|lia].
Qed.

Lemma nrep_pool a m bs free out t q' m' l' out' : nrep a m bs free out -> pool_rep (desc t) q' l' out' ->
  (forall p sz, m' !! p = Some (Pool t, sz) <-> sz = pool_elem t /\ p ∈ out') ->
  (forall p s sz, s <> Pool t -> m' !! p = Some (s, sz) <-> m !! p = Some (s, sz)) ->
  nrep (set_pool t q' a) m' bs (fun t' => if decide (t' = t) then l' else free t') (fun t' => if decide (t' = t) then out' else out t').
Proof.
  intros Hr Hq Ho Hm. constructor.
  - rewrite heap_set. apply (nr_rep _ _ _ _ _ Hr).
  - intros t'. rewrite pools_set. case_decide as Hd; [by subst t'|apply (nr_pool _ _ _ _ _ Hr)].
  - intros p sz. rewrite Hm by done. apply (nr_used _ _ _ _ _ Hr).
  - intros t' p sz. case_decide as Hd; [by subst t'|]. rewrite Hm by congruence. apply (nr_out _ _ _ _ _ Hr).
Qed.

Lemma nr_pool_malloc_ok a m t : nr_mrep a m -> exists r a', nm_pool_malloc t a = Some (r, a') /\
  match r with
  | None => a' = a
  | Some p => m !! p = None /\ nr_mrep a' (<[p := (Pool t, pool_elem t)]> m) /\
      forall x, owned m x \/ ~ nr_arena x -> ram_byte a' x = ram_byte a x
  end.
Proof.
  intros (bs & free & out & Hr). cbn [nm_pool_malloc netram_mem]. unfold memp_malloc, pool_do. pose proof (nr_pool _ _ _ _ _ Hr t) as Hp.
  pose proof (pool_malloc _ _ _ _ Hp) as Hm. pose proof (rep_nodup _ (proj1 (desc_good t)) _ _ _ Hp) as Hnd. destruct (free t) as [|p l] eqn:El.
  - rewrite Hm. exists None, a. by rewrite set_pool_same.
  - destruct Hm as [-> Hp']. eexists _, _. split; [done|]. apply NoDup_app in Hnd as (_ & Hnd & _).
    assert (p ∈ elems (desc t)) as Hpe by (eapply rep_in; [exact Hp|apply elem_of_app; left; apply list_elem_of_here]).
    assert (m !! p = None) as Hfresh.
    { destruct (m !! p) as [[s sz]|] eqn:E; [exfalso|done].
      pose proof (block_pos _ _ _ _ _ _ _ _ Hr E). pose proof (block_region _ _ _ _ _ _ _ _ p Hr E ltac:(lia)) as R.
      destruct (elem_bounds _ (proj1 (desc_good t)) _ Hpe) as (Hb1 & Hb2 & _). cbn [desc md_size md_num] in Hb2. destruct (desc_good t) as (_ & _ & _ & _ & _ & Hps).
      assert (in_pool t p = true) as Rt by (apply in_pool_spec; lia). destruct s as [|t'].
      - rewrite (pool_not_heap _ _ Rt) in R. done.
      - destruct (decide (t' = t)) as [->|Hne]; [|rewrite (pools_apart _ _ _ Rt Hne) in R; done].
        apply (nr_out _ _ _ _ _ Hr) in E as [_ E]. apply (Hnd p); [apply list_elem_of_here|done]. }
    split_and!; [done| |].
    + eexists _, _, _. eapply (nrep_pool a m bs free out t _ _ l (p :: out t)); [done|done| |].
      * intros q sz. rewrite lookup_insert_Some, elem_of_cons, (nr_out _ _ _ _ _ Hr t q sz). split.
        -- intros [[<- [= <-]]|[Hne [-> ?]]]; auto.
        -- intros [-> [-> |Hq]]; [by left|right]. split; [|done]. intros <-. apply (Hnd p); [apply list_elem_of_here|done].
      * intros q s sz Hne. rewrite lookup_insert_Some. split; [intros [[_ [= <- _]]|[_ ?]]; done|]. intros Hq. right. split; [congruence|done].
    + intros x Hx. apply (pool_kept a m); [|intros q s sz; by apply (block_region _ _ _ _ _ _ _ _ _ Hr)|done]. intros q sz Hq. destruct (pool_block _ _ _ _ _ _ _ _ Hr Hq) as (_ & _ & _ & ? & _). done.
Qed.

Lemma nr_pool_free_ok a m p t sz : nr_mrep a m -> m !! p = Some (Pool t, sz) ->
  exists a', nm_pool_free t p a = Some (tt, a') /\ nr_mrep a' (delete p m) /\
    forall x, owned (delete p m) x \/ ~ nr_arena x -> ram_byte a' x = ram_byte a x.
Proof.
  intros (bs & free & out & Hr) Hp. cbn [nm_pool_free netram_mem]. unfold memp_free, pool_do.
  destruct (pool_block _ _ _ _ _ _ _ _ Hr Hp) as (-> & Hpo & Hpe & Hlo & Hhi & _). destruct (elem_of_Permutation (out t) p) as [[out' Hperm] _]; [done|].
  assert (pool_rep (desc t) (nr_pools a t) (free t) (p :: out')) as Hq.
  { destruct (nr_pool _ _ _ _ _ Hr t). constructor; [done|done|]. by rewrite <- Hperm. }
  pose proof (rep_nodup _ (proj1 (desc_good t)) _ _ _ Hq) as Hnd. apply NoDup_app in Hnd as (_ & _ & Hnd). apply NoDup_cons in Hnd as [Hnd _].
  destruct (pool_free _ (proj1 (desc_good t)) _ _ _ _ Hq) as (q' & -> & Hq' & Hk). eexists. split; [done|]. split.
  - eexists _, _, _. eapply (nrep_pool a m bs free out t q' _ (p :: free t) out'); [done|done| |].
    + intros q n. rewrite lookup_delete_Some, (nr_out _ _ _ _ _ Hr t q n), Hperm, elem_of_cons. split.
      * intros (Hne & -> & [-> |?]); done.
      * intros [-> Hin]. split_and!; [by intros <-|done|by right].
    + intros q s n Hne. rewrite lookup_delete_Some. split; [by intros [_ ?]|]. intros Hin. split; [congruence|done].
  - intros x Hx. apply (pool_kept a (delete p m)); [| |done].
    + intros q n [Hne Hin]%lookup_delete_Some. destruct (pool_block _ _ _ _ _ _ _ _ Hr Hin) as (-> & _ & Hqe & Hqlo & _). split; [done|].
      apply Hk; [lia|]. destruct (elem_apart _ (proj1 (desc_good t)) _ _ Hqe Hpe) as [Hd|Hd]; [congruence|cbn [desc md_size] in Hd |- *; lia..].
    + intros q s n [Hne Hin]%lookup_delete_Some. by apply (block_region _ _ _ _ _ _ _ _ _ Hr).
Qed.

(** An owner's store. *)
Lemma nr_store_ok a m p d : nr_mrep a m -> in_block m p (zlen d) ->
  nr_mrep (ram_store p d a) m /\
  forall x, owned m x \/ ~ nr_arena x -> ram_byte (ram_store p d a) x =
    if (p <=? x) && (x <? p + zlen d) then mem_get d (x - p) else ram_byte a x.
Proof.
  intros (bs & free & out & Hr) (b & s & sz & Hb & Hlo & Hhi). cbn [ram_store ram_byte netram_mem]. pose proof (zlen_nonneg d) as Hd0.
  destruct (decide (p = b + sz)) as [Ep|Hne].
  { assert (d = []) as -> by (apply nil_length_inv; unfold zlen in *; lia). assert (nr_store p [] a = a \/ exists f, nr_store p [] a = a <| nr_rest := f |> /\ forall x, f x = nr_rest a x) as Hs.
    { unfold nr_store, pool_write. repeat case_if; [left; rewrite mem_write_nil; by destruct a as [[] [] [] ?]..|].
      right. eexists. split; [done|]. intros x. cbv beta. change (zlen []) with 0. case_if; [bool_prop; lia|done]. }
    assert (forall x, (p <=? x) && (x <? p + zlen (@nil Z)) = false) as Hnone by (intros x; change (zlen []) with 0; rewrite Z.add_0_r; destruct (Z.leb_spec p x), (Z.ltb_spec x p); done || lia).
    destruct Hs as [-> |(f & -> & Hf)].
    - split; [by exists bs, free, out|]. intros x _. by rewrite Hnone.
    - split; [exists bs, free, out; by destruct Hr|]. intros x _. rewrite Hnone. unfold nr_byte. cbn [setf nr_heap nr_rest]. by rewrite Hf. }
  pose proof (block_region _ _ _ _ _ _ _ _ p Hr Hb ltac:(lia)) as R. unfold nr_store. destruct s as [|t].
  - rewrite R. destruct (heap_block _ _ _ _ _ _ _ Hr Hb) as (G1 & G2 & _). apply (nr_used _ _ _ _ _ Hr) in Hb as (l & k & Ebs & El).
    pose proof (nr_rep _ _ _ _ _ Hr) as [Hlk Hj Hf]. rewrite Ebs in Hlk.
    destruct (linked_store (nr_heap a) l (sz + 8) k (p - ram_addr) d Hlk) as [Hlk' _]; [lia|lia|]. rewrite <- Ebs in Hlk'.
    split; [exists bs, free, out; eapply nrep_heap; [exact Hr|by constructor|apply (nr_used _ _ _ _ _ Hr)|done]|].
    intros x Hx. destruct (in_heap x) eqn:Ex.
    + rewrite !byte_heap by done. cbn [setf nr_heap ram]. apply in_heap_spec in Ex. rewrite mem_get_write by (rewrite ?(r_sized _ _ Hlk); lia).
      replace (x - ram_addr - (p - ram_addr)) with (x - p) by lia. repeat case_if; try done; bool_prop; lia.
    + case_if; [|unfold nr_byte; by rewrite Ex]. bool_prop. assert (in_heap x = true) by (apply in_heap_spec; lia). congruence.
  - rewrite (pool_not_heap _ _ R). destruct (pool_block _ _ _ _ _ _ _ _ Hr Hb) as (-> & Hbo & Hbe & G1 & G2 & _).
    assert ((if in_pool MEMP_PBUF p then pool_write MEMP_PBUF p d a else if in_pool MEMP_PBUF_POOL p then pool_write MEMP_PBUF_POOL p d a
      else a <| nr_rest := fun x => if (p <=? x) && (x <? p + zlen d) then mem_get d (x - p) else nr_rest a x |>) = pool_write t p d a) as ->.
    { destruct t; [by rewrite R|]. rewrite (pools_apart _ MEMP_PBUF _ R) by done. by rewrite R. }
    pose proof (pool_store _ (proj1 (desc_good t)) _ _ _ b (p - b) d (nr_pool _ _ _ _ _ Hr t) Hbo ltac:(lia) ltac:(cbn [desc md_size]; lia)) as Hst.
    replace (b + (p - b)) with p in Hst by lia. split.
    + eexists _, _, _. eapply (nrep_pool a m bs free out t _ m (free t) (out t)); [done|exact Hst|apply (nr_out _ _ _ _ _ Hr)|done].
    + intros x Hx. unfold pool_write. destruct (in_pool t x) eqn:Ex.
      * rewrite !(byte_pool _ t), pools_set, decide_True by done. cbn [setf mp_mem]. apply in_pool_spec in Ex.
        pose proof (pr_len _ _ _ _ (nr_pool _ _ _ _ _ Hr t)) as Hz. cbn [desc md_size md_num] in Hz. rewrite mem_get_write by (rewrite ?Hz; lia).
        replace (x - first_elem (desc t) - (p - first_elem (desc t))) with (x - p) by lia. repeat case_if; try done; bool_prop; lia.
      * case_if; [bool_prop; assert (in_pool t x = true) by (apply in_pool_spec; lia); congruence|].
        unfold nr_byte. rewrite heap_set, rest_set, !pools_set. destruct t; by rewrite Ex.
Qed.

Lemma nr_arena_low x : nr_arena x -> 65536 <= x.
Proof.
  intros [Hx|[t Hx]].
  - apply in_heap_spec in Hx. destruct lo_heap. lia.
  - apply in_pool_spec in Hx. destruct (desc_good t) as (_ & _ & ? & _), (lo_pool t). lia.
Qed.

(** The interface, implemented. *)
#[export] Instance netram_ok : NetMemOk netram := {
  arena := nr_arena;
  arena_low := nr_arena_low;
  mrep := nr_mrep;
  mrep_block := nr_block_ok;
  mrep_disjoint := nr_disjoint;
  mrep_store := nr_store_ok;
  nm_malloc_ok := nr_malloc_ok;
  nm_pool_malloc_ok := nr_pool_malloc_ok;
  nm_trim_ok := nr_trim_ok;
  nm_free_ok := nr_free_ok;
  nm_pool_free_ok := nr_pool_free_ok }.

(** ** The start *)

(** [mem_init] and [memp_init] *)
Definition memp_init : STO netram unit :=
  pool_do MEMP_PBUF (memp_init_pool (desc MEMP_PBUF)) ;?; pool_do MEMP_PBUF_POOL (memp_init_pool (desc MEMP_PBUF_POOL)).
Definition net_mem_init : STO netram unit := heap_do mem_init ;?; memp_init.

Record sized_ram (a : netram) : Prop := {
  sr_heap : sized (nr_heap a);
  sr_pool t : zlen (mp_mem (nr_pools a t)) = Z.of_nat (pool_num t) * pool_elem t }.

Lemma net_init_ok a : sized_ram a -> exists a', net_mem_init a = Some (tt, a') /\ nr_mrep a' ∅.
Proof.
  intros [Hh Hp]. destruct (init_rep _ Hh) as (h' & Eh & Hr).
  assert (forall t, exists s l, memp_init_pool (desc t) (nr_pools a t) = Some (tt, s) /\ pool_rep (desc t) s l []) as Hpool.
  { intros t. pose proof (Hp t) as Hz. destruct (nr_pools a t) as [mem tab]. by apply (pool_init (desc t) (proj1 (desc_good t)) mem). }
  destruct (Hpool MEMP_PBUF) as (s1 & l1 & E1 & R1), (Hpool MEMP_PBUF_POOL) as (s2 & l2 & E2 & R2).
  unfold net_mem_init, memp_init, sto_bind, heap_do, pool_do. rewrite Eh. cbn [nr_pools set_pool setf nr_pbuf nr_bufs] in *. rewrite E1.
  cbn [nr_pools set_pool setf nr_pbuf nr_bufs]. rewrite E2. eexists. split; [done|].
  exists [(1600, false)], (fun t => match t with MEMP_PBUF => l1 | MEMP_PBUF_POOL => l2 end), (fun _ => []). constructor.
  - done.
  - by intros [].
  - intros p sz. rewrite lookup_empty. split; [done|]. intros (l & k & E & _). destruct l as [|? [|? ?]]; done.
  - intros t p sz. rewrite lookup_empty. split; [done|]. intros [_ Hin]. by apply not_elem_of_nil in Hin.
Qed.

End netram.

(** ** An example of a layout *)

Definition sram_layout : Layout := {| ram_addr := 0x20001000; pool_addr := fun t => match t with MEMP_PBUF => 0x20002000 | MEMP_PBUF_POOL => 0x20003001 end |}.

Lemma sram_pool t x : @in_pool sram_layout t x = true ->
  match t with MEMP_PBUF => 0x20002000 <= x < 0x20002000 + 256 | MEMP_PBUF_POOL => 0x20003004 <= x < 0x20003004 + 12256 end.
Proof. intros Hx%in_pool_spec. by destruct t. Qed.

Lemma sram_layout_ok : @LayoutOk sram_layout.
Proof.
  constructor.
  - cbn [ram_addr sram_layout]. split_and!; [lia|done|lia].
  - intros []; cbn; lia.
  - intros t x Hx%in_heap_spec. cbn [ram_addr sram_layout] in Hx. destruct (@in_pool sram_layout t x) eqn:E; [|done].
    apply sram_pool in E. destruct t; lia.
  - intros x Hx%sram_pool. destruct (@in_pool sram_layout MEMP_PBUF_POOL x) eqn:E; [|done]. apply sram_pool in E. lia.
Qed.

Definition blank_ram : netram := mk_netram (mk_heap (replicate (Z.to_nat 1608) 0) 0) (mk_pool (replicate 256 0) 0) (mk_pool (replicate (Z.to_nat 12256) 0) 0) (fun _ => 0).
