(* ===== verification/Pbuf.v ===== *)
(** * Pbuf: packet buffers (src/lib/lwip/src/core/pbuf.c)

    A packet is a chain of [struct pbuf]s, each with a piece of the data, counted
    references and the length of the rest of the packet. The structs are a table from
    addresses to records, the data is the bytes of the memory behind [NetMem]; in a
    buffer of the heap or of the pool the data follows the struct (16 bytes) in the same
    block.

    Options of this build: no checksum on copy, no window scaling (no [pbuf_split_64k]),
    custom buffers supported; what the free function of a custom buffer does is the
    parameter [CustomPbuf]. Access through a pointer to no buffer is [sto_stop], as is a
    walk along a chain that never ends. The assertions of lwIP have no effect; its
    LWIP_ERROR checks return. *)

From S2P Require Import Prelude Mem NetMem.

(** ** Types and constants *)

Definition PBUF_POOL_BUFSIZE_ALIGNED : Z := LWIP_MEM_ALIGN_SIZE PBUF_POOL_BUFSIZE.

(** [pbuf_layer]: the room to leave for headers. *)
Definition PBUF_TRANSPORT : Z := PBUF_LINK_HLEN + 20 + 20.
Definition PBUF_IP : Z := PBUF_LINK_HLEN + 20.
Definition PBUF_LINK : Z := PBUF_LINK_HLEN.
Definition PBUF_RAW : Z := 0.

(** [pbuf_type] *)
Definition PBUF_TYPE_FLAG_STRUCT_DATA_CONTIGUOUS : Z := 0x80.
Definition PBUF_TYPE_ALLOC_SRC_MASK : Z := 0x0F.
Definition PBUF_RAM : Z := 0x280.
Definition PBUF_ROM : Z := 0x01.
Definition PBUF_REF : Z := 0x41.
Definition PBUF_POOL : Z := 0x182.
Definition SRC_HEAP : Z := 0.
Definition SRC_MEMP_PBUF : Z := 1.
Definition SRC_MEMP_PBUF_POOL : Z := 2.

Definition PBUF_FLAG_IS_CUSTOM : Z := 0x02.

Definition ERR_OK : Z := 0.
Definition ERR_MEM : Z := -1.
Definition ERR_VAL : Z := -6.
Definition ERR_ARG : Z := -16.

Record pbuf := mk_pbuf {
  pb_next : option Z;
  pb_payload : Z;
  pb_tot_len : Z;
  pb_len : Z;
  pb_type_internal : Z;
  pb_flags : Z;
  pb_ref : Z;
  pb_if_idx : Z }.
#[export] Instance eta_pbuf : Eta pbuf := fun p =>
  mk_pbuf (pb_next p) (pb_payload p) (pb_tot_len p) (pb_len p) (pb_type_internal p) (pb_flags p)
    (pb_ref p) (pb_if_idx p).

Record pbufs (A : Type) := mk_pbufs {
  pb_tab : gmap Z pbuf;
  pb_ram : A;
  pbuf_free_ooseq_pending : bool }.
Arguments mk_pbufs {A}. Arguments pb_tab {A}. Arguments pb_ram {A}. Arguments pbuf_free_ooseq_pending {A}.
#[export] Instance eta_pbufs A : Eta (pbufs A) := fun s =>
  mk_pbufs (pb_tab s) (pb_ram s) (pbuf_free_ooseq_pending s).

(** [pc->custom_free_function(p)] *)
Class CustomPbuf (A : Type) := custom_free_function : Z -> STO (pbufs A) unit.

Definition pbuf_get_allocsrc (b : pbuf) : Z := Z.land (pb_type_internal b) PBUF_TYPE_ALLOC_SRC_MASK.
Definition pbuf_match_allocsrc (b : pbuf) (type : Z) : bool :=
  pbuf_get_allocsrc b =? Z.land type PBUF_TYPE_ALLOC_SRC_MASK.
Definition is_custom (b : pbuf) : bool := negb (Z.land (pb_flags b) PBUF_FLAG_IS_CUSTOM =? 0).

Section pbuf.
Context {A : Type} `{NetMem A, CustomPbuf A}.

(** Access to the struct at [p], to the data, and calls of the memory managers. *)
Definition deref (p : Z) : STO (pbufs A) pbuf := fun s =>
  match pb_tab s !! p with Some b => Some (b, s) | None => None end.
Definition put_pbuf (p : Z) (b : pbuf) : STO (pbufs A) unit := sto_mod (fun s => s <| pb_tab := <[p := b]> (pb_tab s) |>).
Definition drop_pbuf (p : Z) : STO (pbufs A) unit := sto_mod (fun s => s <| pb_tab := delete p (pb_tab s) |>).
Definition data_read (p n : Z) : STO (pbufs A) (list Z) := fun s => Some (ram_read p n (pb_ram s), s).
Definition data_write (p : Z) (d : list Z) : STO (pbufs A) unit :=
  sto_mod (fun s => s <| pb_ram := ram_store p d (pb_ram s) |>).
Definition mem_do {R} (m : STO A R) : STO (pbufs A) R := fun s =>
  match m (pb_ram s) with Some (r, a) => Some (r, s <| pb_ram := a |>) | None => None end.

(** Every walk along a chain visits each buffer once. *)
Definition chain_fuel (s : pbufs A) : nat := S (size (pb_tab s)).

(** ** Allocation *)

Definition pbuf_pool_is_empty : STO (pbufs A) unit := sto_mod (fun s => s <| pbuf_free_ooseq_pending := true |>).

Definition pbuf_init_alloced_pbuf (p payload tot_len len type flags : Z) : STO (pbufs A) unit :=
  put_pbuf p (mk_pbuf None payload tot_len len (u8 type) flags 1 0).

(** The loop of [pbuf_free] from buffer [p] on, [count] buffers freed so far. *)
Fixpoint free_loop (fuel : nat) (p : option Z) (count : Z) : STO (pbufs A) Z :=
  match p, fuel with
  | None, _ => sto_ret count
  | Some _, O => sto_stop
  | Some p, S fuel =>
      let? b := deref p in
      let ref := u8 (pb_ref b - 1) in
      put_pbuf p (b <| pb_ref := ref |>) ;?;
      if ref =? 0 then
        let q := pb_next b in
        let alloc_src := pbuf_get_allocsrc b in
        (if is_custom b then custom_free_function p
         else if alloc_src =? SRC_MEMP_PBUF_POOL then drop_pbuf p ;?; mem_do (nm_pool_free MEMP_PBUF_POOL p)
         else if alloc_src =? SRC_MEMP_PBUF then drop_pbuf p ;?; mem_do (nm_pool_free MEMP_PBUF p)
         else if alloc_src =? SRC_HEAP then drop_pbuf p ;?; mem_do (nm_free p)
         else sto_ret tt) ;?;
        free_loop fuel q (u8 (count + 1))
      else sto_ret count
  end.

Definition pbuf_free (p : option Z) : STO (pbufs A) Z :=
  match p with
  | None => sto_ret 0
  | Some _ => let? s := sto_get in free_loop (chain_fuel s) p 0
  end.

Definition pbuf_alloc_reference (payload length type : Z) : STO (pbufs A) (option Z) :=
  let? p := mem_do (nm_pool_malloc MEMP_PBUF) in
  match p with
  | None => sto_ret None
  | Some p => pbuf_init_alloced_pbuf p payload length length type 0 ;?; sto_ret (Some p)
  end.

(** The loop for [PBUF_POOL]: the chain so far, its last buffer, what is still to be
    allocated. Every round but the last takes at least a byte off [rem_len]. *)
Fixpoint pool_loop (fuel : nat) (p last : option Z) (rem_len offset type : Z) : STO (pbufs A) (option Z) :=
  match fuel with
  | O => sto_stop
  | S fuel =>
      let? q := mem_do (nm_pool_malloc MEMP_PBUF_POOL) in
      match q with
      | None =>
          pbuf_pool_is_empty ;?;
          sto_when (bool_decide (is_Some p)) (pbuf_free p ;?; sto_ret tt) ;?;
          sto_ret None
      | Some q =>
          let qlen := Z.min rem_len (u16 (PBUF_POOL_BUFSIZE_ALIGNED - LWIP_MEM_ALIGN_SIZE offset)) in
          pbuf_init_alloced_pbuf q (LWIP_MEM_ALIGN (q + SIZEOF_STRUCT_PBUF + offset)) rem_len qlen type 0 ;?;
          let? p := match p, last with
                    | Some p, Some last => let? b := deref last in put_pbuf last (b <| pb_next := Some q |>) ;?; sto_ret p
                    | _, _ => sto_ret q
                    end in
          let rem_len := u16 (rem_len - qlen) in
          if 0 <? rem_len then pool_loop fuel (Some p) (Some q) rem_len 0 type else sto_ret (Some p)
      end
  end.

Definition pbuf_alloc (layer length type : Z) : STO (pbufs A) (option Z) :=
  let offset := u16 layer in
  if (type =? PBUF_REF) || (type =? PBUF_ROM) then pbuf_alloc_reference 0 length type
  else if type =? PBUF_POOL then pool_loop (S (Z.to_nat length)) None None length offset type
  else if type =? PBUF_RAM then
    let payload_len := u16 (LWIP_MEM_ALIGN_SIZE offset + LWIP_MEM_ALIGN_SIZE length) in
    let alloc_len := u16 (LWIP_MEM_ALIGN_SIZE SIZEOF_STRUCT_PBUF + payload_len) in
    if (payload_len <? LWIP_MEM_ALIGN_SIZE length) || (alloc_len <? LWIP_MEM_ALIGN_SIZE length) then sto_ret None
    else
      let? p := mem_do (nm_malloc alloc_len) in
      match p with
      | None => sto_ret None
      | Some p =>
          pbuf_init_alloced_pbuf p (LWIP_MEM_ALIGN (p + SIZEOF_STRUCT_PBUF + offset)) length length type 0 ;?;
          sto_ret (Some p)
      end
  else sto_ret None.

(** [p] is the caller's [struct pbuf_custom]; [payload_mem] is [None] for NULL. *)
Definition pbuf_alloced_custom (l length type p : Z) (payload_mem : option Z) (payload_mem_len : Z)
    : STO (pbufs A) (option Z) :=
  let offset := u16 l in
  if payload_mem_len <? LWIP_MEM_ALIGN_SIZE offset + length then sto_ret None
  else
    let payload := match payload_mem with Some m => m + LWIP_MEM_ALIGN_SIZE offset | None => 0 end in
    pbuf_init_alloced_pbuf p payload length length type PBUF_FLAG_IS_CUSTOM ;?;
    sto_ret (Some p).

(** ** Lengths and headers *)

(** The buffer in which the new end lies, and how much of it stays. *)
Fixpoint realloc_walk (fuel : nat) (q rem_len shrink : Z) : STO (pbufs A) (Z * Z) :=
  match fuel with
  | O => sto_stop
  | S fuel =>
      let? b := deref q in
      if pb_len b <? rem_len then
        put_pbuf q (b <| pb_tot_len := u16 (pb_tot_len b - shrink) |>) ;?;
        match pb_next b with
        | Some n => realloc_walk fuel n (u16 (rem_len - pb_len b)) shrink
        | None => sto_stop
        end
      else sto_ret (q, rem_len)
  end.

Definition pbuf_realloc (p new_len : Z) : STO (pbufs A) unit :=
  let? b := deref p in
  if pb_tot_len b <=? new_len then sto_ret tt
  else
    let shrink := u16 (pb_tot_len b - new_len) in
    let? s := sto_get in
    let? (q, rem_len) := realloc_walk (chain_fuel s) p new_len shrink in
    let? b := deref q in
    let? q := (if pbuf_match_allocsrc b SRC_HEAP && negb (rem_len =? pb_len b) && negb (is_custom b) then
                 let? r := mem_do (nm_trim q (u16 (pb_payload b - q + rem_len))) in
                 match r with Some q => sto_ret q | None => sto_stop end
               else sto_ret q) in
    let? b := deref q in
    put_pbuf q (b <| pb_len := rem_len |> <| pb_tot_len := rem_len |>) ;?;
    match pb_next b with
    | Some n => pbuf_free (Some n) ;?; sto_ret tt
    | None => sto_ret tt
    end ;?;
    let? b := deref q in
    put_pbuf q (b <| pb_next := None |>).

(** These return 0 for success and 1 for failure, as in C. *)
Definition pbuf_add_header_impl (p : option Z) (header_size_increment : Z) (force : bool) : STO (pbufs A) Z :=
  match p with
  | None => sto_ret 1
  | Some p =>
      if 0xFFFF <? header_size_increment then sto_ret 1
      else if header_size_increment =? 0 then sto_ret 0
      else
        let? b := deref p in
        if u16 (header_size_increment + pb_tot_len b) <? header_size_increment then sto_ret 1
        else
          let payload := pb_payload b - header_size_increment in
          if (if negb (Z.land (pb_type_internal b) PBUF_TYPE_FLAG_STRUCT_DATA_CONTIGUOUS =? 0)
              then payload <? p + SIZEOF_STRUCT_PBUF else negb force)
          then sto_ret 1
          else
            put_pbuf p (b <| pb_payload := payload |> <| pb_len := u16 (pb_len b + header_size_increment) |>
                          <| pb_tot_len := u16 (pb_tot_len b + header_size_increment) |>) ;?;
            sto_ret 0
  end.

Definition pbuf_add_header (p : option Z) (n : Z) : STO (pbufs A) Z := pbuf_add_header_impl p n false.
Definition pbuf_add_header_force (p : option Z) (n : Z) : STO (pbufs A) Z := pbuf_add_header_impl p n true.

Definition pbuf_remove_header (p : option Z) (header_size_decrement : Z) : STO (pbufs A) Z :=
  match p with
  | None => sto_ret 1
  | Some p =>
      if 0xFFFF <? header_size_decrement then sto_ret 1
      else if header_size_decrement =? 0 then sto_ret 0
      else
        let? b := deref p in
        if pb_len b <? header_size_decrement then sto_ret 1
        else
          put_pbuf p (b <| pb_payload := pb_payload b + header_size_decrement |>
                        <| pb_len := u16 (pb_len b - header_size_decrement) |>
                        <| pb_tot_len := u16 (pb_tot_len b - header_size_decrement) |>) ;?;
          sto_ret 0
  end.

Definition pbuf_header_impl (p : option Z) (header_size_increment : Z) (force : bool) : STO (pbufs A) Z :=
  if header_size_increment <? 0 then pbuf_remove_header p (- header_size_increment)
  else pbuf_add_header_impl p header_size_increment force.
Definition pbuf_header (p : option Z) (n : Z) : STO (pbufs A) Z := pbuf_header_impl p n false.
Definition pbuf_header_force (p : option Z) (n : Z) : STO (pbufs A) Z := pbuf_header_impl p n true.

Fixpoint free_header_loop (fuel : nat) (p : option Z) (free_left : Z) : STO (pbufs A) (option Z) :=
  match p with
  | None => sto_ret None
  | Some a =>
      if free_left =? 0 then sto_ret p
      else
        match fuel with
        | O => sto_stop
        | S fuel =>
            let? b := deref a in
            if pb_len b <=? free_left then
              put_pbuf a (b <| pb_next := None |>) ;?;
              pbuf_free p ;?;
              free_header_loop fuel (pb_next b) (u16 (free_left - pb_len b))
            else
              pbuf_remove_header p free_left ;?; sto_ret p
        end
  end.

Definition pbuf_free_header (q : option Z) (size : Z) : STO (pbufs A) (option Z) :=
  let? s := sto_get in free_header_loop (chain_fuel s) q size.

(** ** Chains *)

Fixpoint clen_loop (fuel : nat) (p : option Z) (len : Z) : STO (pbufs A) Z :=
  match p, fuel with
  | None, _ => sto_ret len
  | Some _, O => sto_stop
  | Some p, S fuel => let? b := deref p in clen_loop fuel (pb_next b) (u16 (len + 1))
  end.
Definition pbuf_clen (p : option Z) : STO (pbufs A) Z := let? s := sto_get in clen_loop (chain_fuel s) p 0.

Definition pbuf_ref (p : option Z) : STO (pbufs A) unit :=
  match p with
  | None => sto_ret tt
  | Some p => let? b := deref p in put_pbuf p (b <| pb_ref := u8 (pb_ref b + 1) |>)
  end.

Fixpoint cat_loop (fuel : nat) (p t : Z) : STO (pbufs A) unit :=
  match fuel with
  | O => sto_stop
  | S fuel =>
      let? b := deref p in
      let? tb := deref t in
      put_pbuf p (b <| pb_tot_len := u16 (pb_tot_len b + pb_tot_len tb) |>) ;?;
      match pb_next b with
      | Some n => cat_loop fuel n t
      | None => let? b := deref p in put_pbuf p (b <| pb_next := Some t |>)
      end
  end.

Definition pbuf_cat (h t : option Z) : STO (pbufs A) unit :=
  match h, t with
  | Some h, Some t => let? s := sto_get in cat_loop (chain_fuel s) h t
  | _, _ => sto_ret tt
  end.

Definition pbuf_chain (h t : option Z) : STO (pbufs A) unit := pbuf_cat h t ;?; pbuf_ref t.

Definition pbuf_dechain (p : Z) : STO (pbufs A) (option Z) :=
  let? b := deref p in
  match pb_next b with
  | None => sto_ret None
  | Some q =>
      let? qb := deref q in
      put_pbuf q (qb <| pb_tot_len := u16 (pb_tot_len b - pb_len b) |>) ;?;
      let? b := deref p in
      put_pbuf p (b <| pb_next := None |> <| pb_tot_len := pb_len b |>) ;?;
      let? tail_gone := pbuf_free (Some q) in
      sto_ret (if 0 <? tail_gone then None else Some q)
  end.

(** ** Data *)

(** The loop of [pbuf_copy]; [p_from] is not NULL at its head. *)
Fixpoint copy_loop (fuel : nat) (p_to p_from offset_to offset_from : Z) : STO (pbufs A) Z :=
  match fuel with
  | O => sto_stop
  | S fuel =>
      let? bt := deref p_to in
      let? bf := deref p_from in
      let len := if u32 (pb_len bf - offset_from) <=? u32 (pb_len bt - offset_to)
                 then u32 (pb_len bf - offset_from) else u32 (pb_len bt - offset_to) in
      let? d := data_read (pb_payload bf + offset_from) len in
      data_write (pb_payload bt + offset_to) d ;?;
      let offset_to := u32 (offset_to + len) in
      let offset_from := u32 (offset_from + len) in
      let '(offset_from, p_from) :=
        if pb_len bf <=? offset_from then (0, pb_next bf) else (offset_from, Some p_from) in
      let '(offset_to, p_to) :=
        if offset_to =? pb_len bt then (0, pb_next bt) else (offset_to, Some p_to) in
      if bool_decide (p_to = None) && bool_decide (is_Some p_from) then sto_ret ERR_ARG
      else
        let? from_queue := match p_from with
                           | None => sto_ret false
                           | Some f => let? b := deref f in
                               sto_ret ((pb_len b =? pb_tot_len b) && bool_decide (is_Some (pb_next b)))
                           end in
        if from_queue then sto_ret ERR_VAL
        else
          let? to_queue := match p_to with
                           | None => sto_ret false
                           | Some t => let? b := deref t in
                               sto_ret ((pb_len b =? pb_tot_len b) && bool_decide (is_Some (pb_next b)))
                           end in
          if to_queue then sto_ret ERR_VAL
          else
            match p_from, p_to with
            | None, _ => sto_ret ERR_OK
            | Some p_from, Some p_to => copy_loop fuel p_to p_from offset_to offset_from
            | Some _, None => sto_stop
            end
  end.

Definition pbuf_copy (p_to p_from : option Z) : STO (pbufs A) Z :=
  match p_to, p_from with
  | Some t, Some f =>
      let? bt := deref t in
      let? bf := deref f in
      if pb_tot_len bt <? pb_tot_len bf then sto_ret ERR_ARG
      else let? s := sto_get in copy_loop (chain_fuel s + chain_fuel s) t f 0 0
  | _, _ => sto_ret ERR_ARG
  end.

(** [dataptr] is the buffer written to; the result is what it holds afterwards and the
    bytes copied. *)
Fixpoint copy_partial_loop (fuel : nat) (p : option Z) (dataptr : list Z) (len offset left copied_total : Z)
    : STO (pbufs A) (list Z * Z) :=
  match p with
  | None => sto_ret (dataptr, copied_total)
  | Some a =>
      if len =? 0 then sto_ret (dataptr, copied_total)
      else
        match fuel with
        | O => sto_stop
        | S fuel =>
            let? b := deref a in
            if negb (offset =? 0) && (pb_len b <=? offset)
            then copy_partial_loop fuel (pb_next b) dataptr len (u16 (offset - pb_len b)) left copied_total
            else
              let buf_copy_len := u16 (pb_len b - offset) in
              let buf_copy_len := if len <? buf_copy_len then len else buf_copy_len in
              let? d := data_read (pb_payload b + offset) buf_copy_len in
              copy_partial_loop fuel (pb_next b) (mem_write left d dataptr) (u16 (len - buf_copy_len)) 0
                (u16 (left + buf_copy_len)) (u16 (copied_total + buf_copy_len))
        end
  end.

Definition pbuf_copy_partial (buf : option Z) (dataptr : list Z) (len offset : Z) : STO (pbufs A) (list Z * Z) :=
  match buf with
  | None => sto_ret (dataptr, 0)
  | Some _ => let? s := sto_get in copy_partial_loop (chain_fuel s) buf dataptr len offset 0 0
  end.

Fixpoint skip_loop (fuel : nat) (q : option Z) (offset_left : Z) : STO (pbufs A) (option Z * Z) :=
  match q, fuel with
  | None, _ => sto_ret (None, offset_left)
  | Some _, O => sto_stop
  | Some a, S fuel =>
      let? b := deref a in
      if pb_len b <=? offset_left then skip_loop fuel (pb_next b) (u16 (offset_left - pb_len b))
      else sto_ret (q, offset_left)
  end.

Definition pbuf_skip (q : option Z) (in_offset : Z) : STO (pbufs A) (option Z * Z) :=
  let? s := sto_get in skip_loop (chain_fuel s) q in_offset.

(** A pointer into the packet, or the caller's buffer with the data copied into it. *)
Inductive contiguous := in_packet (a : Z) | in_buffer (d : list Z).

Definition pbuf_get_contiguous (p : option Z) (buffer : list Z) (len offset : Z) : STO (pbufs A) (option contiguous) :=
  match p with
  | None => sto_ret None
  | Some _ =>
      if zlen buffer <? len then sto_ret None
      else
        let? (q, out_offset) := pbuf_skip p offset in
        match q with
        | None => sto_ret None
        | Some a =>
            let? b := deref a in
            if out_offset + len <=? pb_len b then sto_ret (Some (in_packet (pb_payload b + out_offset)))
            else
              let? (d, n) := pbuf_copy_partial q buffer len out_offset in
              sto_ret (if negb (n =? len) then None else Some (in_buffer d))
        end
  end.

Fixpoint take_loop (fuel : nat) (p : option Z) (dataptr : list Z) (total_copy_len copied_total : Z)
    : STO (pbufs A) unit :=
  if total_copy_len =? 0 then sto_ret tt
  else
    match fuel, p with
    | S fuel, Some a =>
        let? b := deref a in
        let buf_copy_len := if pb_len b <? total_copy_len then pb_len b else total_copy_len in
        data_write (pb_payload b) (mem_read copied_total buf_copy_len dataptr) ;?;
        take_loop fuel (pb_next b) dataptr (total_copy_len - buf_copy_len) (copied_total + buf_copy_len)
    | _, _ => sto_stop
    end.

(** [dataptr] is the data from the pointer on, [len] bytes of which are taken. *)
Definition pbuf_take (buf : option Z) (dataptr : list Z) (len : Z) : STO (pbufs A) Z :=
  match buf with
  | None => sto_ret ERR_ARG
  | Some a =>
      let? b := deref a in
      if pb_tot_len b <? len then sto_ret ERR_MEM
      else
        let? s := sto_get in
        take_loop (chain_fuel s) buf dataptr len 0 ;?; sto_ret ERR_OK
  end.

Definition pbuf_take_at (buf : option Z) (dataptr : list Z) (len offset : Z) : STO (pbufs A) Z :=
  let? (q, target_offset) := pbuf_skip buf offset in
  match q with
  | None => sto_ret ERR_MEM
  | Some a =>
      let? b := deref a in
      if target_offset + len <=? pb_tot_len b then
        let first_copy_len := u16 (Z.min (pb_len b - target_offset) len) in
        data_write (pb_payload b + target_offset) (mem_read 0 first_copy_len dataptr) ;?;
        let remaining_len := u16 (len - first_copy_len) in
        if 0 <? remaining_len
        then pbuf_take (pb_next b) (drop (Z.to_nat first_copy_len) dataptr) remaining_len
        else sto_ret ERR_OK
      else sto_ret ERR_MEM
  end.

Definition pbuf_clone (layer type p : Z) : STO (pbufs A) (option Z) :=
  let? b := deref p in
  let? q := pbuf_alloc layer (pb_tot_len b) type in
  match q with
  | None => sto_ret None
  | Some q => pbuf_copy (Some q) (Some p) ;?; sto_ret (Some q)
  end.

Definition pbuf_coalesce (p layer : Z) : STO (pbufs A) Z :=
  let? b := deref p in
  match pb_next b with
  | None => sto_ret p
  | Some _ =>
      let? q := pbuf_clone layer PBUF_RAM p in
      match q with
      | None => sto_ret p
      | Some q => pbuf_free (Some p) ;?; sto_ret q
      end
  end.

Definition pbuf_try_get_at (p : option Z) (offset : Z) : STO (pbufs A) Z :=
  let? (q, q_idx) := pbuf_skip p offset in
  match q with
  | None => sto_ret (-1)
  | Some q =>
      let? b := deref q in
      if q_idx <? pb_len b then let? s := sto_get in sto_ret (ram_byte (pb_ram s) (pb_payload b + q_idx))
      else sto_ret (-1)
  end.

Definition pbuf_get_at (p : option Z) (offset : Z) : STO (pbufs A) Z :=
  let? ret := pbuf_try_get_at p offset in sto_ret (if 0 <=? ret then u8 ret else 0).

Definition pbuf_put_at (p : option Z) (offset data : Z) : STO (pbufs A) unit :=
  let? (q, q_idx) := pbuf_skip p offset in
  match q with
  | None => sto_ret tt
  | Some q => let? b := deref q in sto_when (q_idx <? pb_len b) (data_write (pb_payload b + q_idx) [data])
  end.

(** The loop of [pbuf_memcmp] from byte [i] of [s2] on. *)
Fixpoint memcmp_loop (q : option Z) (start i : Z) (s2 : list Z) : STO (pbufs A) Z :=
  match s2 with
  | [] => sto_ret 0
  | b :: s2 =>
      let? a := pbuf_get_at q (u16 (start + i)) in
      if negb (a =? b) then sto_ret (u16 (Z.min (i + 1) 0xFFFF)) else memcmp_loop q start (u16 (i + 1)) s2
  end.

(** [s2] is the [n] bytes compared with. *)
Definition pbuf_memcmp (p offset : Z) (s2 : list Z) : STO (pbufs A) Z :=
  let? b := deref p in
  if pb_tot_len b <? offset + zlen s2 then sto_ret 0xffff
  else
    let? (q, start) := pbuf_skip (Some p) offset in
    memcmp_loop q start 0 s2.

(** The loop over the places to compare at; [i] counts to [max_cmp_start]. *)
Fixpoint memfind_loop (fuel : nat) (p i max_cmp_start : Z) (mem : list Z) : STO (pbufs A) Z :=
  if max_cmp_start <? i then sto_ret 0xFFFF
  else
    match fuel with
    | O => sto_stop
    | S fuel =>
        let? plus := pbuf_memcmp p i mem in
        if plus =? 0 then sto_ret i else memfind_loop fuel p (u16 (i + 1)) max_cmp_start mem
    end.

Definition pbuf_memfind (p : Z) (mem : list Z) (start_offset : Z) : STO (pbufs A) Z :=
  let? b := deref p in
  let max_cmp_start := u16 (pb_tot_len b - zlen mem) in
  if zlen mem + start_offset <=? pb_tot_len b
  then memfind_loop (Z.to_nat (max_cmp_start - start_offset + 1)) p start_offset max_cmp_start mem
  else sto_ret 0xFFFF.

(** [substr] without its terminator; [None] is NULL. *)
Definition pbuf_strstr (p : Z) (substr : option (list Z)) : STO (pbufs A) Z :=
  match substr with
  | None => sto_ret 0xFFFF
  | Some l =>
      if zlen l =? 0 then sto_ret 0xFFFF
      else
        let? b := deref p in
        if pb_tot_len b =? 0xFFFF then sto_ret 0xFFFF
        else if 0xFFFF <=? zlen l then sto_ret 0xFFFF
        else pbuf_memfind p l 0
  end.

End pbuf.
