(* ===== verification/PbufProps.v ===== *)
(** * PbufProps: the references between packet buffers

    Every buffer counts the pointers to it, [next] pointers and pointers of clients
    alike, and lives in a block of its own. [pinv] says so of a state of Pbuf, for the
    blocks that are out and the pointers the clients hold; every operation is shown to
    keep it, and to return. *)

From stdpp Require Import gmultiset.
From S2P Require Import Prelude Mem NetMem Pbuf.

(** ** Chains *)

(** [chain t p l]: from pointer [p] the [next] pointers lead through the buffers [l]. *)
Fixpoint chain (t : gmap Z pbuf) (p : option Z) (l : list (Z * pbuf)) : Prop :=
  match l with
  | [] => p = None
  | (a, b) :: l => p = Some a /\ t !! a = Some b /\ chain t (pb_next b) l
  end.

Lemma chain_det t p l k : chain t p l -> chain t p k -> l = k.
Proof.
  revert p k. induction l as [|[a b] l IH]; intros p k Hl Hk.
  - cbn in Hl. subst p. destruct k as [|[a b] k]; [done|]. by destruct Hk.
  - destruct Hl as (-> & Ha & Hl). destruct k as [|[a' b'] k]; [done|]. destruct Hk as ([= <-] & Ha' & Hk).
    rewrite Ha in Ha'. injection Ha' as <-. f_equal. by eapply IH.
Qed.

Definition head_ptr (l : list (Z * pbuf)) : option Z := match l with [] => None | (a, _) :: _ => Some a end.

Lemma chain_head t p l : chain t p l -> p = head_ptr l.
Proof. destruct l as [|[a b] l]; [done|]. by intros (-> & _). Qed.

Lemma chain_app t p l k : chain t p (l ++ k) -> chain t (head_ptr k) k.
Proof.
  revert p. induction l as [|[a b] l IH]; intros p Hl; [cbn in Hl; by rewrite <- (chain_head _ _ _ Hl)|].
  destruct Hl as (_ & _ & Hl). by eapply IH.
Qed.

Lemma chain_lookup t p l a b : chain t p l -> (a, b) ∈ l -> t !! a = Some b.
Proof.
  revert p. induction l as [|[a' b'] l IH]; intros p Hl Hin; [by apply not_elem_of_nil in Hin|].
  destruct Hl as (_ & Ha & Hl). apply elem_of_cons in Hin as [[= -> ->]|Hin]; [done|]. by eapply IH.
Qed.

Lemma chain_suffix t p l a b k : chain t p (l ++ (a, b) :: k) -> chain t (Some a) ((a, b) :: k).
Proof. apply (chain_app t p l ((a, b) :: k)). Qed.

Lemma chain_nodup t p l : chain t p l -> NoDup l.*1.
Proof.
  revert p. induction l as [|[a b] l IH]; intros p Hl; [constructor|]. pose proof Hl as (-> & Ha & Hl').
  rewrite fmap_cons. apply NoDup_cons. split; [|by eapply IH]. intros Hin.
  apply list_elem_of_fmap in Hin as ([a' b'] & E & Hin). cbn in E. subst a'.
  apply list_elem_of_split in Hin as (l1 & l2 & ->). rewrite app_comm_cons in Hl.
  pose proof (chain_suffix _ _ _ _ _ _ Hl) as Hs. pose proof (chain_det _ _ _ _ Hl Hs) as E.
  apply (f_equal length) in E. rewrite length_app in E. cbn in E. lia.
Qed.

Lemma chain_length t p l : chain t p l -> (length l <= size t)%nat.
Proof.
  intros Hl. pose proof (chain_nodup _ _ _ Hl) as Hn.
  rewrite <- (length_fmap fst), <- (size_list_to_set (C := gset Z)) by done. rewrite <- size_dom.
  apply subseteq_size. intros a Ha. apply elem_of_list_to_set, list_elem_of_fmap in Ha as ([a' b] & -> & Hin).
  apply elem_of_dom. exists b. by eapply chain_lookup.
Qed.

(** The buffers of a chain are what they are. *)
Lemma chain_frame t t' p l : (forall a, a ∈ l.*1 -> t' !! a = t !! a) -> chain t p l -> chain t' p l.
Proof.
  revert p. induction l as [|[a b] l IH]; intros p Hf Hl; [done|]. destruct Hl as (-> & Ha & Hl). split_and!; [done| |].
  - rewrite Hf; [done|]. apply list_elem_of_here.
  - apply IH; [|done]. intros a' Hin. apply Hf. by apply list_elem_of_further.
Qed.

Lemma chain_insert t p l a b : a ∉ l.*1 -> chain t p l -> chain (<[a := b]> t) p l.
Proof.
  intros Hn. apply chain_frame. intros a' Hin. apply lookup_insert_ne. by intros ->.
Qed.

Lemma chain_delete t p l a : a ∉ l.*1 -> chain t p l -> chain (delete a t) p l.
Proof.
  intros Hn. apply chain_frame. intros a' Hin. apply lookup_delete_ne. by intros ->.
Qed.

(** ** Counting pointers *)

(** The [next] pointers to [p]. *)
Definition points_to (p : Z) (x : Z * pbuf) : Prop := pb_next x.2 = Some p.
#[export] Instance points_to_dec p x : Decision (points_to p x).
Proof. unfold points_to. apply _. Defined.
Definition incoming (t : gmap Z pbuf) (p : Z) : nat := size (filter (points_to p) t).

Definition b2n (P : Prop) `{Decision P} : nat := if decide P then 1%nat else 0%nat.

Lemma incoming_insert_new t a b p : t !! a = None ->
  incoming (<[a := b]> t) p = (b2n (pb_next b = Some p) + incoming t p)%nat.
Proof.
  intros Ha. unfold incoming, b2n. rewrite map_filter_insert. unfold points_to at 1. cbn [snd].
  assert (filter (points_to p) t !! a = None) as Hf by (apply map_lookup_filter_None_2; by left).
  destruct (decide (pb_next b = Some p)).
  - by rewrite map_size_insert_None.
  - by rewrite delete_id.
Qed.

Lemma incoming_delete t a b p : t !! a = Some b ->
  incoming t p = (b2n (pb_next b = Some p) + incoming (delete a t) p)%nat.
Proof.
  intros Ha. rewrite <- (incoming_insert_new (delete a t) a b p) by apply lookup_delete_eq. by rewrite insert_delete_id.
Qed.

Lemma incoming_insert t a b b' p : t !! a = Some b ->
  (incoming (<[a := b']> t) p + b2n (pb_next b = Some p) = b2n (pb_next b' = Some p) + incoming t p)%nat.
Proof.
  intros Ha. rewrite <- (insert_delete_eq t a b'). rewrite incoming_insert_new by apply lookup_delete_eq.
  rewrite (incoming_delete t a b) by done. lia.
Qed.

Lemma incoming_same t a b b' p : t !! a = Some b -> pb_next b' = pb_next b -> incoming (<[a := b']> t) p = incoming t p.
Proof. intros Ha E. pose proof (incoming_insert t a b b' p Ha) as Hi. rewrite E in Hi. lia. Qed.

(** Changing anything but the [next] pointer of a buffer. *)
Lemma chain_alter t a b b' p l : t !! a = Some b -> pb_next b' = pb_next b -> chain t p l ->
  chain (<[a := b']> t) p ((fun x => if decide (x.1 = a) then (a, b') else x) <$> l).
Proof.
  intros Ha E. revert p. induction l as [|[c d] l IH]; intros p Hl; [done|]. destruct Hl as (-> & Hc & Hl).
  rewrite fmap_cons. cbn [fst]. case_decide as Hd.
  - subst c. rewrite Ha in Hc. injection Hc as <-. split_and!; [done|by rewrite lookup_insert_eq|]. rewrite E. by apply IH.
  - split_and!; [done|by rewrite lookup_insert_ne|]. by apply IH.
Qed.

Definition has_chain (t : gmap Z pbuf) (p : option Z) : Prop := exists l, chain t p l.

Lemma has_chain_alter t a b b' p : t !! a = Some b -> pb_next b' = pb_next b -> has_chain t p -> has_chain (<[a := b']> t) p.
Proof. intros Ha E [l Hl]. eexists. by eapply chain_alter. Qed.

Lemma chain_next t p l a : chain t p l -> a ∈ l.*1 -> p <> Some a -> (0 < incoming t a)%nat.
Proof.
  revert p. induction l as [|[c d] l IH]; intros p Hl Hin Hne; [by apply not_elem_of_nil in Hin|].
  destruct Hl as (-> & Hc & Hl). rewrite fmap_cons in Hin. apply elem_of_cons in Hin as [E|Hin]; [cbn in E; congruence|].
  destruct (decide (pb_next d = Some a)) as [E|Hn]; [|by eapply IH].
  rewrite (incoming_delete t c d a Hc). unfold b2n. rewrite decide_True by done. lia.
Qed.

(** ** The invariant *)

Definition is_contiguous (b : pbuf) : Prop :=
  Z.land (pb_type_internal b) PBUF_TYPE_FLAG_STRUCT_DATA_CONTIGUOUS <> 0.
Definition pb_src (b : pbuf) : msrc :=
  if pbuf_get_allocsrc b =? SRC_MEMP_PBUF_POOL then Pool MEMP_PBUF_POOL
  else if pbuf_get_allocsrc b =? SRC_MEMP_PBUF then Pool MEMP_PBUF else Heap.

Lemma mult_cons q p (own : gmultiset Z) : multiplicity q ({[+ p +]} ⊎ own) = (b2n (q = p) + multiplicity q own)%nat.
Proof. rewrite multiplicity_disj_union, multiplicity_singleton. unfold b2n. by case_decide. Qed.

Lemma b2n_true P `{Decision P} : P -> b2n P = 1%nat.
Proof. intros HP. unfold b2n. by rewrite decide_True. Qed.
Lemma b2n_false P `{Decision P} : ~ P -> b2n P = 0%nat.
Proof. intros HP. unfold b2n. by rewrite decide_False. Qed.

Definition next_ms (p : option Z) : gmultiset Z := match p with Some q => {[+ q +]} | None => ∅ end.

Lemma next_mult p q (own : gmultiset Z) : multiplicity q (next_ms p ⊎ own) = (b2n (p = Some q) + multiplicity q own)%nat.
Proof.
  destruct p as [n|]; cbn [next_ms].
  - rewrite mult_cons. f_equal. unfold b2n. repeat case_decide; congruence.
  - rewrite multiplicity_disj_union, multiplicity_empty. by rewrite b2n_false.
Qed.

(** The table and the memory of an updated state. *)
Ltac ptab := cbn [setf pb_tab pb_ram].

(** Every block is a buffer's or one of [base], which belongs to others. *)
Definition accounted (base : gset Z) (t : gmap Z pbuf) (m : blocks) : Prop :=
  forall p, match t !! p with Some _ => p ∉ base | None => is_Some (m !! p) <-> p ∈ base end.

Lemma accounted_put base t m p b b' : t !! p = Some b -> accounted base t m -> accounted base (<[p := b']> t) m.
Proof.
  intros Hp Ha q. specialize (Ha q). destruct (decide (q = p)) as [->|Hne]; [rewrite lookup_insert_eq; by rewrite Hp in Ha|].
  by rewrite lookup_insert_ne by done.
Qed.
Lemma accounted_new base t m p b x : m !! p = None -> t !! p = None -> accounted base t m -> accounted base (<[p := b]> t) (<[p := x]> m).
Proof.
  intros Hm Ht Ha q. specialize (Ha q). destruct (decide (q = p)) as [->|Hne]; [|by rewrite !lookup_insert_ne by done].
  rewrite lookup_insert_eq. rewrite Ht, Hm in Ha. intros Hin. by apply Ha in Hin as [].
Qed.
Lemma accounted_delete base t m p b : t !! p = Some b -> accounted base t m -> accounted base (delete p t) (delete p m).
Proof.
  intros Hp Ha q. specialize (Ha q). destruct (decide (q = p)) as [->|Hne]; [|by rewrite !lookup_delete_ne by done].
  rewrite !lookup_delete_eq. rewrite Hp in Ha. split; [by intros []|done].
Qed.
Lemma accounted_resize base t m p b x : t !! p = Some b -> accounted base t m -> accounted base t (<[p := x]> m).
Proof.
  intros Hp Ha q. specialize (Ha q). destruct (decide (q = p)) as [->|Hne]; [by rewrite Hp in *|by rewrite lookup_insert_ne].
Qed.

Section inv.
Context {A : Type} `{NetMem A, !NetMemOk A, CustomPbuf A} {base : gset Z}.

(** A buffer has its own block, and its data is in it or outside the memory that is
    handed out. *)
Record pbuf_ok (m : blocks) (p : Z) (b : pbuf) : Prop := {
  po_custom : is_custom b = false;
  po_src : pbuf_get_allocsrc b = SRC_HEAP \/ pbuf_get_allocsrc b = SRC_MEMP_PBUF \/ pbuf_get_allocsrc b = SRC_MEMP_PBUF_POOL;
  po_kind : is_contiguous b <-> pbuf_get_allocsrc b <> SRC_MEMP_PBUF;
  po_block : exists sz, m !! p = Some (pb_src b, sz) /\ 16 <= sz /\
    (is_contiguous b -> p + 16 <= pb_payload b /\ pb_payload b + pb_len b <= p + sz);
  po_outside : ~ is_contiguous b -> forall x, pb_payload b <= x < pb_payload b + pb_len b -> ~ arena x;
  po_len : is_u16 (pb_len b);
  po_tot : is_u16 (pb_tot_len b) }.

Record pinv (s : pbufs A) (m : blocks) (own : gmultiset Z) : Prop := {
  pi_mem : mrep (pb_ram s) m;
  pi_ok : forall p b, pb_tab s !! p = Some b -> pbuf_ok m p b;
  pi_chain : forall p b, pb_tab s !! p = Some b -> has_chain (pb_tab s) (Some p);
  pi_ref : forall p b, pb_tab s !! p = Some b ->
    pb_ref b = Z.of_nat (incoming (pb_tab s) p + multiplicity p own) /\ 1 <= pb_ref b <= 255;
  pi_own : forall p, p ∈ own -> is_Some (pb_tab s !! p);
  pi_all : accounted base (pb_tab s) m }.

Lemma incoming_absent s m own p : pinv s m own -> pb_tab s !! p = None -> incoming (pb_tab s) p = 0%nat.
Proof.
  intros Hi Hp. unfold incoming. apply map_size_empty_iff, map_empty. intros a.
  destruct (filter (points_to p) (pb_tab s) !! a) as [b|] eqn:E; [|done].
  apply map_lookup_filter_Some in E as [Ha Hb]. destruct (pi_chain _ _ _ Hi a b Ha) as [l Hl].
  destruct l as [|[a' b'] l]; [done|]. destruct Hl as ([= <-] & Ha' & Hl). rewrite Ha in Ha'. injection Ha' as <-.
  unfold points_to in Hb. cbn in Hb. rewrite Hb in Hl. destruct l as [|[c d] l]; [done|].
  destruct Hl as ([= <-] & Hc & _). congruence.
Qed.

Lemma pbuf_ok_ref m p b r : pbuf_ok m p b -> pbuf_ok m p (b <| pb_ref := r |>).
Proof. by intros [? ? ? ? ? ? ?]. Qed.

Lemma pbuf_ok_delete m p q b : p <> q -> pbuf_ok m p b -> pbuf_ok (delete q m) p b.
Proof.
  intros Hne [? ? ? (sz & Hm & ?) ? ? ?]. constructor; try done. exists sz. by rewrite lookup_delete_ne by done.
Qed.

(** One pointer to [p] goes away and others stay. *)
Lemma pinv_release s m own p b : pinv s m ({[+ p +]} ⊎ own) -> pb_tab s !! p = Some b -> 1 < pb_ref b ->
  pinv (s <| pb_tab := <[p := b <| pb_ref := pb_ref b - 1 |>]> (pb_tab s) |>) m own.
Proof.
  intros [Hm Hok Hch Hr Ho Hall] Hp Hlt. set (b' := b <| pb_ref := pb_ref b - 1 |>).
  assert (forall q, incoming (<[p := b']> (pb_tab s)) q = incoming (pb_tab s) q) as Hin
    by (intros q; by apply (incoming_same _ _ b)).
  constructor; ptab.
  - done.
  - intros q c Hq. apply lookup_insert_Some in Hq as [[-> <-]|[Hne Hq]]; [by apply pbuf_ok_ref, Hok|by apply Hok].
  - intros q c Hq. apply (has_chain_alter _ _ b); [done..|].
    apply lookup_insert_Some in Hq as [[<- _]|[_ Hq]]; by eapply Hch.
  - intros q c Hq. rewrite Hin.
    apply lookup_insert_Some in Hq as [[<- <-]|[Hne Hq]].
    + destruct (Hr _ _ Hp) as [E Hb]. rewrite mult_cons, b2n_true in E by done.
      change (pb_ref b') with (pb_ref b - 1). lia.
    + destruct (Hr _ _ Hq) as [E Hb]. rewrite mult_cons, (b2n_false (q = p)) in E by congruence. lia.
  - intros q Hq. apply lookup_insert_is_Some'. right. apply Ho, gmultiset_elem_of_disj_union. by right.
  - by apply (accounted_put _ _ _ _ b).
Qed.

(** The last pointer to [p] goes away and [p] with it; its own [next] pointer is then a
    pointer of the client's. *)
Lemma pinv_drop s m own p b a : pinv s m ({[+ p +]} ⊎ own) -> pb_tab s !! p = Some b -> pb_ref b = 1 ->
  mrep a (delete p m) ->
  pinv (s <| pb_tab := delete p (pb_tab s) |> <| pb_ram := a |>) (delete p m) (next_ms (pb_next b) ⊎ own).
Proof.
  intros [Hm Hok Hch Hr Ho Hall] Hp H1 Ha. destruct (Hr _ _ Hp) as [Er _].
  rewrite mult_cons, b2n_true, H1 in Er by done.
  assert (incoming (pb_tab s) p = 0%nat /\ multiplicity p own = 0%nat) as [Hi0 Hm0] by lia.
  assert (forall q l, chain (pb_tab s) q l -> q <> Some p -> p ∉ l.*1) as Hnot.
  { intros q l Hl Hq Hin. pose proof (chain_next _ _ _ _ Hl Hin Hq). lia. }
  assert (pb_next b <> Some p) as Hself.
  { intros E. rewrite (incoming_delete _ _ _ p Hp), b2n_true in Hi0 by done. lia. }
  constructor; ptab.
  - done.
  - intros q c Hq. apply lookup_delete_Some in Hq as [Hne Hq]. apply pbuf_ok_delete; [done|]. by apply Hok.
  - intros q c Hq. apply lookup_delete_Some in Hq as [Hne Hq]. destruct (Hch _ _ Hq) as [l Hl]. exists l.
    apply chain_delete; [|done]. eapply Hnot; [done|congruence].
  - intros q c Hq. apply lookup_delete_Some in Hq as [Hne Hq]. destruct (Hr _ _ Hq) as [E Hb]. split; [|done].
    rewrite (incoming_delete _ _ _ q Hp) in E. rewrite mult_cons, (b2n_false (q = p)) in E by congruence.
    rewrite E, next_mult. lia.
  - intros q Hq. rewrite lookup_delete_ne.
    + destruct (Hch _ _ Hp) as [l Hl]. destruct l as [|[a' b'] l]; [done|]. destruct Hl as ([= <-] & Hb & Hl).
      rewrite Hp in Hb. injection Hb as <-. apply gmultiset_elem_of_disj_union in Hq as [Hq|Hq]; [|apply Ho, gmultiset_elem_of_disj_union; by right].
      destruct (pb_next b) as [n|] eqn:En; [|by apply gmultiset_elem_of_empty in Hq]. apply gmultiset_elem_of_singleton in Hq as ->.
      destruct l as [|[c d] l]; [done|]. destruct Hl as ([= <-] & Hc & _). by exists d.
    + intros <-. apply gmultiset_elem_of_disj_union in Hq as [Hq|Hq].
      * destruct (pb_next b); [apply gmultiset_elem_of_singleton in Hq; congruence|by apply gmultiset_elem_of_empty in Hq].
      * pose proof (proj1 (elem_of_multiplicity p own) Hq). lia.
  - by apply (accounted_delete _ _ _ _ b).
Qed.

Lemma swp_deref p b (Q : pbuf -> pbufs A -> Prop) s : pb_tab s !! p = Some b -> Q b s -> sto_wp (deref p) Q s.
Proof. unfold sto_wp, deref. by intros ->. Qed.
Lemma swp_mem_do {R} (c : STO A R) (Q : R -> pbufs A -> Prop) s r a :
  c (pb_ram s) = Some (r, a) -> Q r (s <| pb_ram := a |>) -> sto_wp (mem_do c) Q s.
Proof. unfold sto_wp, mem_do. by intros ->. Qed.

(** What a call of a memory manager leaves alone. *)
Definition kept (m : blocks) (s s' : pbufs A) : Prop :=
  forall x, owned m x \/ ~ arena x -> ram_byte (pb_ram s') x = ram_byte (pb_ram s) x.

Lemma kept_refl m s : kept m s s.
Proof. done. Qed.

(** Giving back the block of a buffer. *)
Definition free_block (b : pbuf) (p : Z) : STO (pbufs A) unit :=
  if is_custom b then custom_free_function p
  else if pbuf_get_allocsrc b =? SRC_MEMP_PBUF_POOL then drop_pbuf p ;?; mem_do (nm_pool_free MEMP_PBUF_POOL p)
  else if pbuf_get_allocsrc b =? SRC_MEMP_PBUF then drop_pbuf p ;?; mem_do (nm_pool_free MEMP_PBUF p)
  else if pbuf_get_allocsrc b =? SRC_HEAP then drop_pbuf p ;?; mem_do (nm_free p)
  else sto_ret tt.

Lemma swp_free_block s m own p b b' (Q : unit -> pbufs A -> Prop) :
  pinv s m own -> pb_tab s !! p = Some b ->
  (forall a, mrep a (delete p m) -> kept (delete p m) s (s <| pb_ram := a |>) ->
     Q tt (s <| pb_tab := delete p (pb_tab s) |> <| pb_ram := a |>)) ->
  sto_wp (free_block b p) Q (s <| pb_tab := <[p := b']> (pb_tab s) |>).
Proof.
  intros Hi Hp HQ. destruct (pi_ok _ _ _ Hi _ _ Hp) as [Hc Hs _ (sz & Hm & _) _ _ _]. unfold free_block. rewrite Hc.
  assert (forall a, mrep a (delete p m) -> kept (delete p m) s (s <| pb_ram := a |>) ->
    Q tt (s <| pb_tab := <[p := b']> (pb_tab s) |> <| pb_tab := delete p (<[p := b']> (pb_tab s)) |> <| pb_ram := a |>)) as HQ'.
  { intros a Ha Hk. ptab. rewrite delete_insert_eq. by apply HQ. }
  unfold pb_src in Hm.
  destruct Hs as [E|[E|E]]; rewrite E in *; cbn [SRC_HEAP SRC_MEMP_PBUF SRC_MEMP_PBUF_POOL Z.eqb Pos.eqb] in *;
    apply swp_bind, swp_mod.
  - destruct (nm_free_ok _ _ _ _ (pi_mem _ _ _ Hi) Hm) as (a & Ea & Ha & Hk). eapply swp_mem_do; [exact Ea|]. by apply HQ'.
  - destruct (nm_pool_free_ok _ _ _ _ _ (pi_mem _ _ _ Hi) Hm) as (a & Ea & Ha & Hk). eapply swp_mem_do; [exact Ea|]. by apply HQ'.
  - destruct (nm_pool_free_ok _ _ _ _ _ (pi_mem _ _ _ Hi) Hm) as (a & Ea & Ha & Hk). eapply swp_mem_do; [exact Ea|]. by apply HQ'.
Qed.

(** What freeing a chain does: the buffers up to the first one with another pointer to
    it go, that one loses a pointer. *)
Fixpoint free_map {V} (f : Z -> pbuf -> gmap Z V -> gmap Z V) (t : gmap Z V) (l : list (Z * pbuf)) : gmap Z V :=
  match l with
  | [] => t
  | (a, b) :: l => if pb_ref b =? 1 then free_map f (delete a t) l else f a b t
  end.
Definition lose_ref (a : Z) (b : pbuf) (t : gmap Z pbuf) : gmap Z pbuf := <[a := b <| pb_ref := pb_ref b - 1 |>]> t.
Abbreviation free_tab := (free_map lose_ref).
Abbreviation free_blocks := (free_map (fun _ _ (m : blocks) => m)).
Fixpoint free_count (l : list (Z * pbuf)) : Z :=
  match l with
  | [] => 0
  | (_, b) :: l => if pb_ref b =? 1 then 1 + free_count l else 0
  end.

Lemma free_blocks_sub m l : free_blocks m l ⊆ m.
Proof.
  revert m. induction l as [|[a b] l IH]; intros m; cbn [free_map]; [done|]. case_if; [|done].
  etransitivity; [apply IH|]. apply delete_subseteq.
Qed.

Lemma owned_sub m m' x : m ⊆ m' -> owned m x -> owned m' x.
Proof. intros Hs (b & s & sz & Hm & ?). exists b, s, sz. split; [|done]. by eapply lookup_weaken. Qed.

Lemma kept_trans m m' s1 s2 s3 : m' ⊆ m -> kept m s1 s2 -> kept m' s2 s3 -> kept m' s1 s3.
Proof.
  intros Hs H1 H2 x Hx. rewrite H2 by done. apply H1. destruct Hx; [left; by eapply owned_sub|by right].
Qed.

Lemma swp_free_loop l : forall fuel s m own p count (Q : Z -> pbufs A -> Prop),
  pinv s m (next_ms p ⊎ own) -> chain (pb_tab s) p l -> (length l <= fuel)%nat ->
  (forall a, let s' := s <| pb_tab := free_tab (pb_tab s) l |> <| pb_ram := a |> in
     pinv s' (free_blocks m l) own -> kept (free_blocks m l) s s' -> Q (u8 (count + free_count l)) s') ->
  is_u8 count -> sto_wp (free_loop fuel p count) Q s.
Proof.
  induction l as [|[a b] l IH]; intros fuel s m own p count Q Hi Hl Hf HQ Hc.
  - cbn in Hl. subst p. destruct fuel; cbn [free_loop]; apply swp_ret; cbn [free_map free_count] in HQ.
    all: specialize (HQ (pb_ram s)); rewrite Z.add_0_r, u8_small in HQ by done; destruct s as [t r o]; apply HQ; [|done].
    all: cbn [next_ms] in Hi; by rewrite (left_id_L ∅ (⊎)) in Hi.
  - destruct Hl as (-> & Ha & Hl). destruct fuel as [|fuel]; [cbn in Hf; lia|]. cbn [length] in Hf.
    cbn [free_loop free_map free_count next_ms] in *. apply swp_bind. eapply swp_deref; [done|].
    destruct (pi_ref _ _ _ Hi _ _ Ha) as [_ Hr]. apply swp_bind, swp_mod.
    assert (a ∉ l.*1) as Hnot.
    { pose proof (chain_nodup (pb_tab s) (Some a) ((a, b) :: l)) as Hn. rewrite fmap_cons in Hn.
      by apply NoDup_cons in Hn as [? _]; [|split_and!]. }
    destruct (Z.eqb_spec (pb_ref b) 1) as [E1|Hne].
    + rewrite E1. change (u8 (1 - 1) =? 0) with true. cbv iota. apply swp_bind.
      eapply (swp_free_block s m _ a b); [exact Hi|done|]. intros r Hr' Hk.
      eapply IH; [by apply (pinv_drop s m own a b r)|by apply chain_delete|lia| |apply u8_range].
      ptab. intros r' Hi' Hk'. unfold u8. rewrite Zplus_mod_idemp_l, <- Z.add_assoc.
      apply HQ; [exact Hi'|]. eapply kept_trans; [apply free_blocks_sub|exact Hk|exact Hk'].
    + rewrite u8_small by (unfold is_u8; lia). destruct (Z.eqb_spec (pb_ref b - 1) 0); [lia|]. apply swp_ret.
      rewrite Z.add_0_r, u8_small in HQ by done. specialize (HQ (pb_ram s)). apply HQ; [|done].
      apply (pinv_release s m own a b Hi Ha). lia.
Qed.

(** [pbuf_free] *)
Lemma swp_pbuf_free s m own p l (Q : Z -> pbufs A -> Prop) : pinv s m ({[+ p +]} ⊎ own) -> chain (pb_tab s) (Some p) l ->
  (forall a, let s' := s <| pb_tab := free_tab (pb_tab s) l |> <| pb_ram := a |> in
     pinv s' (free_blocks m l) own -> kept (free_blocks m l) s s' -> Q (u8 (free_count l)) s') ->
  sto_wp (pbuf_free (Some p)) Q s.
Proof.
  intros Hi Hl HQ. unfold pbuf_free. apply swp_bind, swp_get.
  eapply swp_free_loop; [exact Hi|exact Hl| |exact HQ|done]. unfold chain_fuel. pose proof (chain_length _ _ _ Hl). lia.
Qed.

Lemma own_chain s m own p : pinv s m own -> p ∈ own -> exists b l, pb_tab s !! p = Some b /\ chain (pb_tab s) (Some p) l.
Proof. intros Hi Hp. destruct (pi_own _ _ _ Hi p Hp) as [b Hb]. destruct (pi_chain _ _ _ Hi p b Hb) as [l Hl]. by exists b, l. Qed.

(** ** Changes of one buffer *)

Lemma pinv_put s m own p b b' : pinv s m own -> pb_tab s !! p = Some b -> pb_next b' = pb_next b -> pb_ref b' = pb_ref b ->
  pbuf_ok m p b' -> pinv (s <| pb_tab := <[p := b']> (pb_tab s) |>) m own.
Proof.
  intros [Hm Hok Hch Hr Ho Hall] Hp En Er Hb'. constructor; ptab; [done| | | | |].
  - intros q c Hq. apply lookup_insert_Some in Hq as [[<- <-]|[Hne Hq]]; [done|by apply Hok].
  - intros q c Hq. apply (has_chain_alter _ _ b); [done..|]. apply lookup_insert_Some in Hq as [[<- _]|[_ Hq]]; by eapply Hch.
  - intros q c Hq. rewrite (incoming_same _ _ b) by done. apply lookup_insert_Some in Hq as [[<- <-]|[Hne Hq]]; [|by apply Hr].
    rewrite Er. by apply Hr.
  - intros q Hq. apply lookup_insert_is_Some'. right. by apply Ho.
  - by apply (accounted_put _ _ _ _ b).
Qed.

Lemma pinv_ref s m own p b : pinv s m own -> pb_tab s !! p = Some b -> pb_ref b < 255 ->
  pinv (s <| pb_tab := <[p := b <| pb_ref := pb_ref b + 1 |>]> (pb_tab s) |>) m ({[+ p +]} ⊎ own).
Proof.
  intros [Hm Hok Hch Hr Ho Hall] Hp Hlt. constructor; ptab; [done| | | | |].
  - intros q c Hq. apply lookup_insert_Some in Hq as [[<- <-]|[Hne Hq]]; [by apply pbuf_ok_ref, Hok|by apply Hok].
  - intros q c Hq. apply (has_chain_alter _ _ b); [done..|]. apply lookup_insert_Some in Hq as [[<- _]|[_ Hq]]; by eapply Hch.
  - intros q c Hq. rewrite (incoming_same _ _ b) by done. rewrite mult_cons.
    apply lookup_insert_Some in Hq as [[<- <-]|[Hne Hq]].
    + rewrite b2n_true by done. destruct (Hr _ _ Hp). cbn [setf pb_ref]. lia.
    + rewrite b2n_false by congruence. by apply Hr.
  - intros q Hq. apply lookup_insert_is_Some'. apply gmultiset_elem_of_disj_union in Hq as [Hq|Hq]; [|right; by apply Ho].
    left. by apply gmultiset_elem_of_singleton in Hq.
  - by apply (accounted_put _ _ _ _ b).
Qed.

Lemma pinv_store s m own a : pinv s m own -> mrep a m -> pinv (s <| pb_ram := a |>) m own.
Proof. intros [Hm Hok Hch Hr Ho Hall] Ha. by constructor. Qed.

Lemma pinv_own_equiv s m own own' : own = own' -> pinv s m own -> pinv s m own'.
Proof. by intros ->. Qed.

(** The end of a chain that is not in [k] gets another [next] pointer. *)
Lemma chain_link t p b b' q l k : t !! p = Some b -> pb_next b = None -> p ∉ k.*1 -> chain t (pb_next b') k -> chain t q l ->
  has_chain (<[p := b']> t) q.
Proof.
  intros Hp Hn Hk Hck. revert q. induction l as [|[c d] l IH]; intros q Hl.
  - by exists [].
  - destruct Hl as (-> & Hc & Hl). destruct (decide (c = p)) as [->|Hne].
    + exists ((p, b') :: k). split_and!; [done|by rewrite lookup_insert_eq|]. by apply chain_insert.
    + destruct (IH _ Hl) as [l' Hl']. exists ((c, d) :: l'). split_and!; [done|by rewrite lookup_insert_ne|done].
Qed.

(** [p->next = t]: the pointer to [t] is now the buffer's, not the client's. *)
Lemma pinv_link s m own p b t k : pinv s m ({[+ t +]} ⊎ own) -> pb_tab s !! p = Some b -> pb_next b = None ->
  chain (pb_tab s) (Some t) k -> p ∉ k.*1 ->
  pinv (s <| pb_tab := <[p := b <| pb_next := Some t |>]> (pb_tab s) |>) m own.
Proof.
  intros [Hm Hok Hch Hr Ho Hall] Hp Hn Hk Hnot. set (b' := b <| pb_next := Some t |>).
  constructor; ptab; [done| | | | |].
  - intros q c Hq. apply lookup_insert_Some in Hq as [[<- <-]|[Hne Hq]]; [|by apply Hok]. by destruct (Hok _ _ Hp).
  - intros q c Hq. assert (has_chain (pb_tab s) (Some q)) as [l Hl]
      by (apply lookup_insert_Some in Hq as [[<- _]|[_ Hq]]; by eapply Hch).
    by eapply (chain_link _ p b b' _ l k).
  - intros q c Hq. pose proof (incoming_insert _ _ _ b' q Hp) as Hin. rewrite Hn, (b2n_false (None = Some q)) in Hin by done.
    assert (exists c0, pb_tab s !! q = Some c0 /\ pb_ref c0 = pb_ref c) as (c0 & Hc0 & <-).
    { apply lookup_insert_Some in Hq as [[<- <-]|[_ Hq]]; [by exists b|by exists c]. }
    destruct (Hr _ _ Hc0) as [E Hb]. split; [|done]. rewrite mult_cons in E.
    assert (b2n (pb_next b' = Some q) = b2n (q = t)) as Eb by (cbn; unfold b2n; repeat case_decide; congruence). lia.
  - intros q Hq. apply lookup_insert_is_Some'. right. apply Ho, gmultiset_elem_of_disj_union. by right.
  - by apply (accounted_put _ _ _ _ b).
Qed.

(** [p->next = NULL]: the pointer it had is the client's. *)
Lemma pinv_unlink s m own p b t : pinv s m own -> pb_tab s !! p = Some b -> pb_next b = Some t ->
  pinv (s <| pb_tab := <[p := b <| pb_next := None |>]> (pb_tab s) |>) m ({[+ t +]} ⊎ own).
Proof.
  intros [Hm Hok Hch Hr Ho Hall] Hp Hn. set (b' := b <| pb_next := None |>).
  assert (is_Some (pb_tab s !! t)) as Ht.
  { destruct (Hch _ _ Hp) as [l Hl]. destruct l as [|[a c] l]; [done|]. destruct Hl as ([= <-] & Hc & Hl).
    rewrite Hp in Hc. injection Hc as <-. rewrite Hn in Hl. destruct l as [|[a c] l]; [done|].
    destruct Hl as ([= <-] & Hc & _). by exists c. }
  constructor; ptab; [done| | | | |].
  - intros q c Hq. apply lookup_insert_Some in Hq as [[<- <-]|[Hne Hq]]; [|by apply Hok]. by destruct (Hok _ _ Hp).
  - intros q c Hq. assert (has_chain (pb_tab s) (Some q)) as [l Hl]
      by (apply lookup_insert_Some in Hq as [[<- _]|[_ Hq]]; by eapply Hch).
    clear Hq c. revert Hl. generalize (Some q). clear q. induction l as [|[c d] l IH]; intros q Hl; [by exists []|].
    destruct Hl as (-> & Hc & Hl). destruct (decide (c = p)) as [->|Hne].
    + exists [(p, b')]. split_and!; [done|by rewrite lookup_insert_eq|done].
    + destruct (IH _ Hl) as [l' Hl']. exists ((c, d) :: l'). split_and!; [done|by rewrite lookup_insert_ne|done].
  - intros q c Hq. pose proof (incoming_insert _ _ _ b' q Hp) as Hin. rewrite (b2n_false (pb_next b' = Some q)) in Hin by done.
    assert (exists c0, pb_tab s !! q = Some c0 /\ pb_ref c0 = pb_ref c) as (c0 & Hc0 & <-).
    { apply lookup_insert_Some in Hq as [[<- <-]|[_ Hq]]; [by exists b|by exists c]. }
    destruct (Hr _ _ Hc0) as [E Hb]. split; [|done]. rewrite mult_cons.
    assert (b2n (pb_next b = Some q) = b2n (q = t)) as Eb by (rewrite Hn; unfold b2n; repeat case_decide; congruence). lia.
  - intros q Hq. apply lookup_insert_is_Some'. right. apply gmultiset_elem_of_disj_union in Hq as [Hq|Hq]; [|by apply Ho].
    apply gmultiset_elem_of_singleton in Hq as ->. done.
  - by apply (accounted_put _ _ _ _ b).
Qed.

Lemma pbuf_ok_blocks m m' p b : m' !! p = m !! p -> pbuf_ok m p b -> pbuf_ok m' p b.
Proof. intros E [? ? ? (sz & Hm & ?) ? ? ?]. constructor; try done. exists sz. by rewrite E. Qed.

Lemma tab_fresh s m own p : pinv s m own -> m !! p = None -> pb_tab s !! p = None.
Proof.
  intros Hi Hp. destruct (pb_tab s !! p) as [c|] eqn:E; [|done].
  destruct (pi_ok _ _ _ Hi _ _ E) as [_ _ _ (sz & Hm & _)]. congruence.
Qed.

(** A new buffer. *)
Lemma pinv_alloc s m own p b x a : pinv s m own -> m !! p = None -> mrep a (<[p := x]> m) -> pbuf_ok (<[p := x]> m) p b ->
  pb_next b = None -> pb_ref b = 1 ->
  pinv (s <| pb_ram := a |> <| pb_tab := <[p := b]> (pb_tab s) |>) (<[p := x]> m) ({[+ p +]} ⊎ own).
Proof.
  intros Hi Hm0 Ha Hb En Er.
  pose proof (tab_fresh _ _ _ _ Hi Hm0) as Hp. pose proof (incoming_absent _ _ _ _ Hi Hp) as Hin0.
  assert (multiplicity p own = 0%nat) as Hm0'.
  { destruct (multiplicity p own) as [|n] eqn:E; [done|]. destruct (pi_own _ _ _ Hi p) as [c Hc]; [|congruence].
    apply elem_of_multiplicity. rewrite E. lia. }
  destruct Hi as [Hm Hok Hch Hr Ho Hall]. constructor; ptab; [done| | | | |].
  - intros q c Hq. apply lookup_insert_Some in Hq as [[<- <-]|[Hne Hq]]; [done|].
    eapply pbuf_ok_blocks; [|by apply Hok]. by rewrite lookup_insert_ne.
  - intros q c Hq. apply lookup_insert_Some in Hq as [[<- <-]|[Hne Hq]].
    + exists [(p, b)]. split_and!; [done|by rewrite lookup_insert_eq|done].
    + destruct (Hch _ _ Hq) as [l Hl]. exists l. apply chain_insert; [|done]. intros Hin.
      apply list_elem_of_fmap in Hin as ([a' b'] & E & Hin). cbn in E. subst a'. pose proof (chain_lookup _ _ _ _ _ Hl Hin). congruence.
  - intros q c Hq. rewrite incoming_insert_new, En, (b2n_false (None = Some q)), mult_cons by done.
    apply lookup_insert_Some in Hq as [[<- <-]|[Hne Hq]].
    + rewrite b2n_true by done. lia.
    + rewrite (b2n_false (q = p)) by congruence. by apply Hr.
  - intros q Hq. apply lookup_insert_is_Some'. apply gmultiset_elem_of_disj_union in Hq as [Hq|Hq]; [|right; by apply Ho].
    left. by apply gmultiset_elem_of_singleton in Hq.
  - by apply accounted_new.
Qed.

(** ** The operations keep the invariant *)

Lemma swp_pbuf_ref s m own p b (Q : unit -> pbufs A -> Prop) : pinv s m own -> pb_tab s !! p = Some b -> pb_ref b < 255 ->
  (let s' := s <| pb_tab := <[p := b <| pb_ref := pb_ref b + 1 |>]> (pb_tab s) |> in pinv s' m ({[+ p +]} ⊎ own) -> Q tt s') ->
  sto_wp (pbuf_ref (Some p)) Q s.
Proof.
  intros Hi Hp Hlt HQ. unfold pbuf_ref. apply swp_bind. eapply swp_deref; [done|]. apply swp_mod.
  destruct (pi_ref _ _ _ Hi _ _ Hp). rewrite u8_small by (unfold is_u8; lia). by apply HQ, pinv_ref.
Qed.

Lemma swp_alloc_reference s m own payload length type (Q : option Z -> pbufs A -> Prop) : pinv s m own ->
  is_u16 length -> type = PBUF_REF \/ type = PBUF_ROM -> (forall x, payload <= x < payload + length -> ~ arena x) ->
  Q None s ->
  (forall p a, let s' := s <| pb_ram := a |> <| pb_tab := <[p := mk_pbuf None payload length length (u8 type) 0 1 0]> (pb_tab s) |> in
     m !! p = None -> pinv s' (<[p := (Pool MEMP_PBUF, 16)]> m) ({[+ p +]} ⊎ own) -> kept m s s' -> Q (Some p) s') ->
  sto_wp (pbuf_alloc_reference payload length type) Q s.
Proof.
  intros Hi Hlen Ht Hout HN HS. unfold pbuf_alloc_reference. apply swp_bind.
  destruct (nm_pool_malloc_ok _ _ MEMP_PBUF (pi_mem _ _ _ Hi)) as (r & a & Ea & Hr). eapply swp_mem_do; [exact Ea|].
  destruct r as [p|]; [|subst a; apply swp_ret; by destruct s]. destruct Hr as (Hp & Ha & Hk).
  repeat swp_step. change (pool_elem MEMP_PBUF) with 16 in Ha. apply HS; [done| |exact Hk].
  apply pinv_alloc; [done..| |done|done].
  constructor; cbn [pb_flags pb_type_internal pb_payload pb_len pb_tot_len]; try done.
  - unfold pbuf_get_allocsrc. cbn [pb_type_internal]. right. left. by destruct Ht as [-> | ->].
  - unfold is_contiguous, pbuf_get_allocsrc. cbn [pb_type_internal]. by destruct Ht as [-> | ->].
  - exists 16. rewrite lookup_insert_eq. split_and!; [by destruct Ht as [-> | ->]|done|].
    unfold is_contiguous. cbn [pb_type_internal]. by destruct Ht as [-> | ->].
Qed.

Lemma align_bounds n : n <= LWIP_MEM_ALIGN_SIZE n <= n + 3 /\ LWIP_MEM_ALIGN_SIZE n mod 4 = 0.
Proof. rewrite align_size. zdivmod. Qed.
Lemma align_add p n : p mod 4 = 0 -> LWIP_MEM_ALIGN_SIZE (p + n) = p + LWIP_MEM_ALIGN_SIZE n.
Proof. intros. rewrite !align_size. zdivmod. Qed.
Lemma align_addr p n sz : 0 < p -> p mod 4 = 0 -> 0 <= n -> p + LWIP_MEM_ALIGN_SIZE n <= sz -> sz < 4294967296 ->
  LWIP_MEM_ALIGN (p + n) = p + LWIP_MEM_ALIGN_SIZE n.
Proof.
  intros. unfold LWIP_MEM_ALIGN. change (Z.land (p + n + MEM_ALIGNMENT - 1) (Z.lnot (MEM_ALIGNMENT - 1))) with (LWIP_MEM_ALIGN_SIZE (p + n)).
  rewrite align_add by done. pose proof (align_bounds n). apply u32_small. unfold is_u32. lia.
Qed.

Definition fresh_pbuf (payload tot_len len type : Z) : pbuf := mk_pbuf None payload tot_len len (u8 type) 0 1 0.

(** A buffer of the heap. *)
Lemma swp_alloc_ram s m own layer length (Q : option Z -> pbufs A -> Prop) : pinv s m own ->
  is_u16 length -> 0 <= layer <= PBUF_TRANSPORT -> Q None s ->
  (forall p a sz, let b := fresh_pbuf (p + 16 + LWIP_MEM_ALIGN_SIZE layer) length length PBUF_RAM in
     let s' := s <| pb_ram := a |> <| pb_tab := <[p := b]> (pb_tab s) |> in
     m !! p = None -> pinv s' (<[p := (Heap, sz)]> m) ({[+ p +]} ⊎ own) -> kept m s s' -> Q (Some p) s') ->
  sto_wp (pbuf_alloc layer length PBUF_RAM) Q s.
Proof.
  intros Hi Hlen Hlay HN HS. change PBUF_TRANSPORT with 54 in Hlay. unfold pbuf_alloc. cbn [PBUF_RAM PBUF_REF PBUF_ROM PBUF_POOL Z.eqb Pos.eqb orb].
  change (LWIP_MEM_ALIGN_SIZE SIZEOF_STRUCT_PBUF) with 16. rewrite (u16_small layer) by (unfold is_u16; lia).
  pose proof (align_bounds layer) as [Hal Hal4]. pose proof (align_bounds length) as [Hln Hln4]. unfold is_u16 in Hlen.
  set (al := LWIP_MEM_ALIGN_SIZE layer) in *. set (ln := LWIP_MEM_ALIGN_SIZE length) in *. cbv zeta.
  apply swp_if; intros Eo; [by apply swp_ret|]. apply orb_false_iff in Eo as [E1%Z.ltb_ge E2%Z.ltb_ge].
  assert (u16 (16 + u16 (al + ln)) = 16 + al + ln) as Ez.
  { unfold u16 in *. rewrite Zplus_mod_idemp_r in *. zdivmod. }
  rewrite Ez. apply swp_bind. assert (16 + al + ln < 65536) by (rewrite <- Ez; apply u16_range).
  destruct (nm_malloc_ok _ _ (16 + al + ln) (pi_mem _ _ _ Hi)) as (r & a & Ea & Hr); [unfold is_u16; lia|].
  eapply swp_mem_do; [exact Ea|]. destruct r as [p|]; [|subst a; apply swp_ret; by destruct s].
  destruct Hr as (sz & Hsz & Hp & Ha & Hk). repeat swp_step.
  destruct (mrep_block _ _ p Heap sz Ha) as (Hp0 & Hp4 & _ & Hpe & _); [apply lookup_insert_eq|].
  rewrite <- Z.add_assoc. change SIZEOF_STRUCT_PBUF with 16.
  assert (LWIP_MEM_ALIGN_SIZE (16 + layer) = 16 + al) as E16 by (by apply align_add).
  rewrite (align_addr p (16 + layer) (p + sz)), E16, Z.add_assoc by lia.
  apply (HS p a sz); [done| |exact Hk]. apply pinv_alloc; [done..| |done|done].
  constructor; [done|by left|by split|..|done|done].
  - exists sz. rewrite lookup_insert_eq. split_and!; [done|lia|]. intros _. cbn. lia.
  - intros Hn. by destruct Hn.
Qed.

(** The end of a chain gets another tail. *)
Lemma chain_relink t p l z b b' k0 k : chain t p (l ++ (z, b) :: k0) -> chain t (pb_next b') k -> z ∉ k.*1 ->
  chain (<[z := b']> t) p (l ++ (z, b') :: k).
Proof.
  intros Hl Hk Hz. revert p Hl. induction l as [|[c d] l IH]; intros p Hl.
  - destruct Hl as (-> & Hb & _). cbn [app]. split_and!; [done|by rewrite lookup_insert_eq|]. by apply chain_insert.
  - pose proof (chain_nodup _ _ _ Hl) as Hn. destruct Hl as (-> & Hc & Hl). cbn [app]. split_and!; [done| |by apply IH].
    rewrite lookup_insert_ne; [done|]. rewrite <- app_comm_cons, fmap_cons in Hn. apply NoDup_cons in Hn as [Hn _].
    intros ->. apply Hn. rewrite fmap_app. apply elem_of_app. right. apply list_elem_of_here.
Qed.

Lemma free_map_other {V} (f : Z -> pbuf -> gmap Z V -> gmap Z V) t l q : (forall a b t, a <> q -> f a b t !! q = t !! q) ->
  q ∉ l.*1 -> free_map f t l !! q = t !! q.
Proof.
  intros Hf. revert t. induction l as [|[a b] l IH]; intros t Hq; [done|]. apply not_elem_of_cons in Hq as [Hqa Hq]. cbn in Hqa.
  cbn [free_map]. case_if; [|by apply Hf]. rewrite IH by done. by apply lookup_delete_ne.
Qed.

Lemma free_tab_other t l q : q ∉ l.*1 -> free_tab t l !! q = t !! q.
Proof. apply free_map_other. intros a b t' Hne. unfold lose_ref. by apply lookup_insert_ne. Qed.
Lemma free_blocks_other m l q : q ∉ l.*1 -> free_blocks m l !! q = m !! q.
Proof. by apply free_map_other. Qed.

Lemma free_map_all {V} f (t : gmap Z V) l q : Forall (fun x => pb_ref x.2 = 1) l ->
  free_map f t l !! q = if decide (q ∈ l.*1) then None else t !! q.
Proof.
  intros Hl. revert t. induction Hl as [|[a b] l Hb Hl IH]; intros t; cbn [free_map]; [by rewrite decide_False by apply not_elem_of_nil|].
  cbn in Hb. rewrite Hb. cbn [Z.eqb Pos.eqb]. rewrite IH, fmap_cons. destruct (decide (q ∈ l.*1)) as [Hq|Hq].
  - by rewrite decide_True by by apply list_elem_of_further.
  - destruct (decide (q = a)) as [->|Hne].
    + rewrite decide_True by apply list_elem_of_here. by rewrite lookup_delete_eq.
    + rewrite decide_False; [by rewrite lookup_delete_ne|]. by apply not_elem_of_cons.
Qed.

(** The lengths along a chain: [n] at the start, [rem] behind the end. *)
Fixpoint tots (l : list (Z * pbuf)) (rem n : Z) : Prop :=
  match l with
  | [] => n = rem
  | (_, b) :: l => pb_tot_len b = n /\ 0 <= pb_len b /\ tots l rem (n - pb_len b)
  end.

Lemma tots_app l k rem n : tots (l ++ k) rem n <-> exists r, tots l r n /\ tots k rem r.
Proof.
  revert n. induction l as [|[a b] l IH]; intros n; cbn [tots app].
  - split; [by exists n|]. by intros (r & -> & ?).
  - rewrite IH. split; [intros (? & ? & r & ? & ?)|intros (r & (? & ? & ?) & ?)]; eauto 10.
Qed.

(** The loop of an allocation from the pool. *)
Record pool_state (s0 : pbufs A) (m0 : blocks) (own : gmultiset Z) (s : pbufs A) (m : blocks) (p : option Z)
    (l : list (Z * pbuf)) (rem length : Z) : Prop := {
  ps_inv : pinv s m (next_ms p ⊎ own);
  ps_chain : chain (pb_tab s) p l;
  ps_ref : Forall (fun x => pb_ref x.2 = 1 /\ is_contiguous x.2) l;
  ps_tab : forall q, pb_tab s0 !! q = if decide (q ∈ l.*1) then None else pb_tab s !! q;
  ps_blk : forall q, m0 !! q = if decide (q ∈ l.*1) then None else m !! q;
  ps_kept : kept m0 s0 s;
  ps_tots : tots l rem length }.

Lemma pool_fresh s0 m0 own s m p l rem length q : pool_state s0 m0 own s m p l rem length -> m !! q = None -> m0 !! q = None /\ q ∉ l.*1.
Proof.
  intros Hps Hq. split; [rewrite (ps_blk _ _ _ _ _ _ _ _ _ Hps); by case_decide|]. intros Hin.
  apply list_elem_of_fmap in Hin as ([a b] & E & Hin). cbn in E. subst a.
  pose proof (chain_lookup _ _ _ _ _ (ps_chain _ _ _ _ _ _ _ _ _ Hps) Hin) as Hb.
  destruct (pi_ok _ _ _ (ps_inv _ _ _ _ _ _ _ _ _ Hps) _ _ Hb) as [_ _ _ (sz & Hm & _)]. congruence.
Qed.

Lemma pool_sub s0 m0 own s m p l rem length : pool_state s0 m0 own s m p l rem length -> m0 ⊆ m.
Proof.
  intros Hps. apply map_subseteq_spec. intros q x Hq. rewrite (ps_blk _ _ _ _ _ _ _ _ _ Hps) in Hq. by case_decide.
Qed.

(** The pool is empty: what has been allocated goes back. *)
Lemma swp_pool_fail s0 m0 own s m p l rem length (Q : option Z -> pbufs A -> Prop) :
  pool_state s0 m0 own s m p l rem length ->
  (forall s', pinv s' m0 own -> pb_tab s' = pb_tab s0 -> kept m0 s0 s' -> Q None s') ->
  sto_wp (pbuf_pool_is_empty ;?; sto_when (bool_decide (is_Some p)) (pbuf_free p ;?; sto_ret tt) ;?; sto_ret None) Q s.
Proof.
  intros Hps HQ. apply swp_bind, swp_mod. set (s1 := s <| pbuf_free_ooseq_pending := true |>).
  pose proof Hps as [Hi Hl Hr' Ht Hb Hk _]. assert (Forall (fun x => pb_ref x.2 = 1) l) as Hr by (eapply Forall_impl; [exact Hr'|]; by intros ? []).
  assert (pinv s1 m (next_ms p ⊎ own)) as Hi1 by (by destruct Hi).
  destruct p as [h|]; cbn [bool_decide is_Some]; apply swp_bind.
  - rewrite bool_decide_true by by exists h. apply swp_bind. eapply swp_pbuf_free; [exact Hi1|exact Hl|].
    ptab. intros a Hi2 Hk2. apply swp_ret, swp_ret.
    assert (free_blocks m l = m0) as Em by (apply map_eq; intros q; by rewrite free_map_all, Hb).
    rewrite Em in *. apply HQ; [exact Hi2| |].
    + ptab. apply map_eq. intros q. by rewrite free_map_all, Ht.
    + eapply kept_trans; [reflexivity|exact Hk|exact Hk2].
  - rewrite bool_decide_false by by intros []. apply swp_ret, swp_ret.
    destruct l as [|[a b] l]; [|by destruct Hl].
    assert (m = m0) as -> by (apply map_eq; intros q; rewrite Hb; by rewrite decide_False by apply not_elem_of_nil).
    cbn [next_ms] in Hi1. rewrite (left_id_L ∅ (⊎)) in Hi1. apply HQ; [done| |done].
    apply map_eq. intros q. rewrite Ht. by rewrite decide_False by apply not_elem_of_nil.
Qed.

Lemma elem_snoc2 (l : list (Z * pbuf)) z b b' q c x :
  x ∈ (l ++ [(z, b'); (q, c)]).*1 <-> x ∈ (l ++ [(z, b)]).*1 \/ x = q.
Proof. rewrite !fmap_app. cbn [fmap list_fmap fst]. rewrite !elem_of_app, !elem_of_cons. intuition (try by apply not_elem_of_nil in H1). Qed.

(** A new buffer at the end of the chain so far. *)
Lemma pool_extend s0 m0 own s m p l rem length q a b : pool_state s0 m0 own s m p l rem length ->
  m !! q = None -> mrep a (<[q := (Pool MEMP_PBUF_POOL, 1532)]> m) ->
  pbuf_ok (<[q := (Pool MEMP_PBUF_POOL, 1532)]> m) q b -> pb_next b = None -> pb_ref b = 1 /\ is_contiguous b -> pb_tot_len b = rem ->
  kept m s (s <| pb_ram := a |>) ->
  let s1 := s <| pb_ram := a |> <| pb_tab := <[q := b]> (pb_tab s) |> in
  match last l with
  | None => pool_state s0 m0 own s1 (<[q := (Pool MEMP_PBUF_POOL, 1532)]> m) (Some q) [(q, b)] (rem - pb_len b) length
  | Some (z, bz) => pb_tab s1 !! z = Some bz /\ p = head_ptr l /\
      let s2 := s1 <| pb_tab := <[z := bz <| pb_next := Some q |>]> (pb_tab s1) |> in
      exists l', pool_state s0 m0 own s2 (<[q := (Pool MEMP_PBUF_POOL, 1532)]> m) p l' (rem - pb_len b) length /\ last l' = Some (q, b)
  end.
Proof.
  intros Hps Hq Ha Hb Hn Hr Hrem Hk s1. pose proof (pool_fresh _ _ _ _ _ _ _ _ _ _ Hps Hq) as [Hq0 Hql].
  pose proof (pool_sub _ _ _ _ _ _ _ _ _ Hps) as Hsub. pose proof Hps as [Hi Hl Href Ht Hbk Hk0 Hts].
  pose proof (tab_fresh _ _ _ _ Hi Hq) as Hqt.
  assert (pinv s1 (<[q := (Pool MEMP_PBUF_POOL, 1532)]> m) ({[+ q +]} ⊎ (next_ms p ⊎ own))) as Hi1 by (destruct Hr; by apply pinv_alloc).
  assert (kept m0 s0 s1) as Hk1.
  { intros x Hx. rewrite <- (Hk0 x Hx). apply (Hk x). destruct Hx; [left; by eapply owned_sub|by right]. }
  destruct (pi_ok _ _ _ Hi1 q b) as [_ _ _ _ _ Hlen _]; [apply lookup_insert_eq|]. unfold is_u16 in Hlen.
  destruct l as [|y l] using rev_ind; [|clear IHl].
  - cbn [last]. cbn in Hl. subst p. cbn [next_ms] in Hi1. rewrite (left_id_L ∅ (⊎)) in Hi1. constructor; try done.
    + split_and!; [done|unfold s1; ptab; by rewrite lookup_insert_eq|done].
    + by apply Forall_singleton.
    + intros x. rewrite Ht, decide_False by apply not_elem_of_nil. unfold s1. ptab. cbn [fmap list_fmap fst].
      case_decide as Hd; rewrite list_elem_of_singleton in Hd; [by subst x|by rewrite lookup_insert_ne].
    + intros x. rewrite Hbk, decide_False by apply not_elem_of_nil. cbn [fmap list_fmap fst].
      case_decide as Hd; rewrite list_elem_of_singleton in Hd; [by subst x|by rewrite lookup_insert_ne].
    + cbn in Hts |- *. split_and!; [lia|lia|lia].
  - rewrite last_snoc. destruct y as [z bz]. assert (pb_tab s !! z = Some bz) as Hz
      by (eapply chain_lookup; [exact Hl|]; apply elem_of_app; right; apply list_elem_of_here).
    assert (z <> q) as Hzq by (intros ->; apply Hql; rewrite fmap_app; apply elem_of_app; right; apply list_elem_of_here).
    assert (pb_tab s1 !! z = Some bz) as Hz1 by (unfold s1; ptab; by rewrite lookup_insert_ne).
    split; [done|]. split; [by eapply chain_head|]. set (bz' := bz <| pb_next := Some q |>).
    assert (pb_next bz = None) as Hnz.
    { by destruct (chain_suffix _ _ _ _ _ _ Hl) as (_ & _ & ?). }
    assert (chain (pb_tab s1) (Some q) [(q, b)]) as Hcq by (split_and!; [done|unfold s1; ptab; apply lookup_insert_eq|done]).
    exists (l ++ [(z, bz'); (q, b)]). split;
      [|replace (l ++ [(z, bz'); (q, b)]) with ((l ++ [(z, bz')]) ++ [(q, b)]) by (by rewrite <- app_assoc); apply last_snoc].
    constructor.
    + eapply pinv_link; [exact Hi1|done|done|exact Hcq|]. cbn. by rewrite list_elem_of_singleton.
    + ptab. apply (chain_relink _ _ _ _ bz _ []); [|exact Hcq|cbn; by rewrite list_elem_of_singleton]. unfold s1. ptab. by apply chain_insert.
    + apply Forall_app in Href as [? Hz']. apply Forall_app. split; [done|]. apply Forall_singleton in Hz' as [? ?]. apply Forall_cons. split; [by split|]. by apply Forall_singleton.
    + intros x. rewrite Ht. unfold s1. ptab. case_decide as Hd; case_decide as Hd'; rewrite (elem_snoc2 _ _ bz) in Hd'.
      * done.
      * by destruct Hd'; left.
      * destruct Hd' as [| ->]; [done|exact Hqt].
      * assert (x <> z /\ x <> q) as [Hxz Hxq].
        { split; intros ->; [apply Hd; rewrite fmap_app; apply elem_of_app; right; apply list_elem_of_here|apply Hd'; by right]. }
        by rewrite !lookup_insert_ne.
    + intros x. rewrite Hbk. case_decide as Hd; case_decide as Hd'; rewrite (elem_snoc2 _ _ bz) in Hd'.
      * done.
      * by destruct Hd'; left.
      * destruct Hd' as [| ->]; [done|exact Hq].
      * rewrite lookup_insert_ne; [done|]. intros ->. apply Hd'. by right.
    + done.
    + apply tots_app in Hts as (r & H1 & H2 & H3 & H4). apply tots_app. exists r. cbn in H4 |- *. split_and!; try done; lia.
Qed.

Lemma swp_pool_loop fuel : forall s0 m0 own s m p l rem off length (Q : option Z -> pbufs A -> Prop),
  pool_state s0 m0 own s m p l rem length -> 0 <= rem < 65536 -> 0 <= off <= PBUF_TRANSPORT -> (Z.to_nat rem < fuel)%nat ->
  (forall s', pinv s' m0 own -> pb_tab s' = pb_tab s0 -> kept m0 s0 s' -> Q None s') ->
  (forall h l' s' m', pool_state s0 m0 own s' m' (Some h) l' 0 length -> Q (Some h) s') ->
  sto_wp (pool_loop fuel p (fst <$> last l) rem off PBUF_POOL) Q s.
Proof.
  induction fuel as [|fuel IH]; intros s0 m0 own s m p l rem off length Q Hps Hrem Hoff Hf HN HS; [lia|].
  change PBUF_TRANSPORT with 54 in Hoff. cbn [pool_loop]. apply swp_bind.
  destruct (nm_pool_malloc_ok _ _ MEMP_PBUF_POOL (pi_mem _ _ _ (ps_inv _ _ _ _ _ _ _ _ _ Hps))) as (r & a & Ea & Hr).
  eapply swp_mem_do; [exact Ea|]. destruct r as [q|].
  2: { subst a. replace (s <| pb_ram := pb_ram s |>) with s by (by destruct s). by eapply swp_pool_fail. }
  destruct Hr as (Hq & Ha & Hk). change (pool_elem MEMP_PBUF_POOL) with 1532 in Ha.
  destruct (mrep_block _ _ q (Pool MEMP_PBUF_POOL) 1532 Ha) as (Hq0 & Hq4 & _ & Hqe & _); [apply lookup_insert_eq|].
  pose proof (align_bounds off) as [Hal Hal4]. set (al := LWIP_MEM_ALIGN_SIZE off) in *.
  change PBUF_POOL_BUFSIZE_ALIGNED with 1516. change SIZEOF_STRUCT_PBUF with 16. rewrite <- Z.add_assoc.
  rewrite (u16_small (1516 - al)) by (unfold is_u16; lia).
  assert (LWIP_MEM_ALIGN_SIZE (16 + off) = 16 + al) as E16 by (by apply align_add).
  rewrite (align_addr q (16 + off) (q + 1532)), E16 by lia. set (ql := Z.min rem (1516 - al)).
  set (b := fresh_pbuf (q + (16 + al)) rem ql PBUF_POOL).
  assert (pbuf_ok (<[q := (Pool MEMP_PBUF_POOL, 1532)]> m) q b) as Hb.
  { constructor; cbn [pb_len pb_tot_len b fresh_pbuf]; [done|by right; right|by split|..|unfold is_u16; lia|unfold is_u16; lia].
    - exists 1532. rewrite lookup_insert_eq. split_and!; [done|done|]. intros _. cbn. lia.
    - intros Hn. by destruct Hn. }
  assert (is_contiguous b) as Hbc by done.
  pose proof (pool_extend _ _ _ _ _ _ _ _ _ _ _ _ Hps Hq Ha Hb eq_refl (conj eq_refl Hbc) eq_refl Hk) as Hext. cbn zeta in Hext.
  apply swp_bind, swp_mod. change (mk_pbuf None (q + (16 + al)) rem ql (u8 PBUF_POOL) 0 1 0) with b. apply swp_bind.
  rewrite (u16_small (rem - ql)) by (unfold is_u16; lia).
  assert (forall p' l' s' m', pool_state s0 m0 own s' m' (Some p') l' (rem - pb_len b) length -> last l' = Some (q, b) ->
    sto_wp (if 0 <? rem - ql then pool_loop fuel (Some p') (Some q) (rem - ql) 0 PBUF_POOL else sto_ret (Some p')) Q s') as Hgo.
  { intros p' l' s' m' Hps' Hl'. change (pb_len b) with ql in Hps'. apply swp_if; intros E.
    - apply Z.ltb_lt in E. change (Some q) with (fst <$> Some (q, b)). rewrite <- Hl'. eapply IH; try done; lia.
    - apply Z.ltb_ge in E. apply swp_ret. eapply HS. by replace (rem - ql) with 0 in Hps' by lia. }
  pose proof (ps_chain _ _ _ _ _ _ _ _ _ Hps) as Hch. destruct (last l) as [[z bz]|] eqn:El; cbn [fmap option_fmap option_map fst].
  - destruct Hext as (Hz & Hp & l' & Hps' & Hl'). destruct p as [h|]; [|by destruct l as [|[] ?]].
    apply swp_bind. eapply swp_deref; [exact Hz|]. apply swp_bind, swp_mod, swp_ret. by eapply Hgo.
  - apply last_None in El. subst l. cbn in Hch. subst p. apply swp_ret. by eapply Hgo.
Qed.

Lemma pool_start s m own length : pinv s m own -> pool_state s m own s m None [] length length.
Proof.
  intros Hi. constructor; try done; [cbn [next_ms]; by rewrite (left_id_L ∅ (⊎))|..]; intros q; by rewrite decide_False by apply not_elem_of_nil.
Qed.

(** A chain from the pool. *)
Lemma swp_alloc_pool s m own layer length (Q : option Z -> pbufs A -> Prop) : pinv s m own ->
  is_u16 length -> 0 <= layer <= PBUF_TRANSPORT ->
  (forall s', pinv s' m own -> pb_tab s' = pb_tab s -> kept m s s' -> Q None s') ->
  (forall h l s' m', pool_state s m own s' m' (Some h) l 0 length -> Q (Some h) s') ->
  sto_wp (pbuf_alloc layer length PBUF_POOL) Q s.
Proof.
  intros Hi Hlen Hlay HN HS. unfold pbuf_alloc. cbn [PBUF_REF PBUF_ROM PBUF_POOL Z.eqb Pos.eqb orb].
  change PBUF_TRANSPORT with 54 in *. unfold is_u16 in Hlen. rewrite u16_small by (unfold is_u16; lia).
  change (@None Z) with (fst <$> last (@nil (Z * pbuf))). eapply swp_pool_loop; [by apply pool_start|lia|done|lia|done|done].
Qed.

(** *** Headers *)

Lemma pbuf_ok_payload m p b d : pbuf_ok m p b -> (is_contiguous b -> p + 16 <= pb_payload b + d) -> - pb_len b <= - d ->
  (~ is_contiguous b -> 0 <= d) -> is_u16 (pb_len b - d) -> is_u16 (pb_tot_len b - d) ->
  pbuf_ok m p (b <| pb_payload := pb_payload b + d |> <| pb_len := pb_len b - d |> <| pb_tot_len := pb_tot_len b - d |>).
Proof.
  intros [H1 H2 H3 (sz & Hm & Hsz & Hin) Hout Hl Ht] Hp Hd Hn Hl' Ht'. constructor; try done.
  - exists sz. split_and!; [done|done|]. intros Hc. cbn [setf pb_payload pb_len]. specialize (Hp Hc). destruct (Hin Hc). lia.
  - intros Hc x. cbn [setf pb_payload pb_len]. intros Hx. specialize (Hn Hc). apply (Hout Hc). unfold is_u16 in *. lia.
Qed.

Lemma put_same (s : pbufs A) p b : pb_tab s !! p = Some b -> s <| pb_tab := <[p := b]> (pb_tab s) |> = s.
Proof.
  intros Hp. destruct s as [t r o]. change (mk_pbufs (<[p := b]> t) r o = mk_pbufs t r o). by rewrite insert_id.
Qed.

Lemma swp_remove_header s m own p b n (Q : Z -> pbufs A -> Prop) : pinv s m own -> pb_tab s !! p = Some b -> is_u16 n ->
  pb_len b <= pb_tot_len b -> (pb_len b < n -> Q 1 s) ->
  (n <= pb_len b -> let s' := s <| pb_tab := <[p := b <| pb_payload := pb_payload b + n |> <| pb_len := pb_len b - n |>
       <| pb_tot_len := pb_tot_len b - n |>]> (pb_tab s) |> in pinv s' m own -> Q 0 s') ->
  sto_wp (pbuf_remove_header (Some p) n) Q s.
Proof.
  intros Hi Hp Hn Htot HF HS. unfold is_u16 in Hn. pose proof (pi_ok _ _ _ Hi _ _ Hp) as Hok.
  pose proof (po_len _ _ _ Hok) as Hl. pose proof (po_tot _ _ _ Hok) as Ht. unfold is_u16 in Hl, Ht.
  unfold pbuf_remove_header. destruct (Z.ltb_spec 0xFFFF n); [lia|].
  destruct (Z.eqb_spec n 0) as [->|Hne].
  { apply swp_ret. assert (Q 0 (s <| pb_tab := <[p := b <| pb_payload := pb_payload b + 0 |> <| pb_len := pb_len b - 0 |>
       <| pb_tot_len := pb_tot_len b - 0 |>]> (pb_tab s) |>)) as HQ.
    { apply HS; [lia|]. eapply pinv_put; [done..|]. apply pbuf_ok_payload; rewrite ?Z.sub_0_r; try done; [|lia].
      intros Hc. destruct (po_block _ _ _ Hok) as (sz & _ & _ & Hin). destruct (Hin Hc). lia. }
    rewrite Z.add_0_r, !Z.sub_0_r in HQ. rewrite <- (put_same s p b Hp). by destruct b. }
  apply swp_bind. eapply swp_deref; [done|]. apply swp_if; intros E; [apply Z.ltb_lt in E; apply swp_ret, HF; lia|].
  apply Z.ltb_ge in E. rewrite !u16_small by (unfold is_u16; lia). apply swp_bind, swp_mod, swp_ret. apply HS; [done|].
  eapply pinv_put; [done..|]. apply pbuf_ok_payload; try done; [|lia|lia|unfold is_u16; lia|unfold is_u16; lia].
  intros Hc. destruct (po_block _ _ _ Hok) as (sz & _ & _ & Hin). destruct (Hin Hc). lia.
Qed.

(** A header in front, in the room the buffer has. *)
Lemma swp_add_header s m own p b n (Q : Z -> pbufs A -> Prop) : pinv s m own -> pb_tab s !! p = Some b -> is_u16 n ->
  pb_len b <= pb_tot_len b ->
  (Q 1 s) ->
  (is_contiguous b \/ n = 0 -> n + pb_tot_len b < 65536 -> let s' := s <| pb_tab := <[p := b <| pb_payload := pb_payload b - n |> <| pb_len := pb_len b + n |>
       <| pb_tot_len := pb_tot_len b + n |>]> (pb_tab s) |> in pinv s' m own -> Q 0 s') ->
  sto_wp (pbuf_add_header (Some p) n) Q s.
Proof.
  intros Hi Hp Hn Htot HF HS. unfold is_u16 in Hn. pose proof (pi_ok _ _ _ Hi _ _ Hp) as Hok.
  pose proof (po_len _ _ _ Hok) as Hl. pose proof (po_tot _ _ _ Hok) as Ht. unfold is_u16 in Hl, Ht.
  assert (forall n, 0 <= n -> n + pb_tot_len b < 65536 -> (is_contiguous b -> p + 16 <= pb_payload b - n) -> (~ is_contiguous b -> n = 0) ->
    pinv (s <| pb_tab := <[p := b <| pb_payload := pb_payload b - n |> <| pb_len := pb_len b + n |>
       <| pb_tot_len := pb_tot_len b + n |>]> (pb_tab s) |>) m own) as Hput.
  { intros k Hk Hw Hc Hnc. eapply pinv_put; [done..|]. pose proof (pbuf_ok_payload m p b (- k) Hok) as Hx.
    replace (pb_payload b + - k) with (pb_payload b - k) in Hx by lia. replace (pb_len b - - k) with (pb_len b + k) in Hx by lia.
    replace (pb_tot_len b - - k) with (pb_tot_len b + k) in Hx by lia. unfold is_u16 in Hx. apply Hx; [done|lia| |lia|lia].
    intros Hc'. specialize (Hnc Hc'). lia. }
  unfold pbuf_add_header, pbuf_add_header_impl. destruct (Z.ltb_spec 0xFFFF n); [lia|].
  destruct (Z.eqb_spec n 0) as [->|Hne].
  { apply swp_ret. specialize (HS ltac:(by right) ltac:(lia)). cbn zeta in HS. rewrite !Z.add_0_r, Z.sub_0_r in HS.
    specialize (Hput 0). rewrite !Z.add_0_r, Z.sub_0_r in Hput. rewrite <- (put_same s p b Hp).
    destruct b as [b1 b2 b3 b4 b5 b6 b7 b8]. apply HS, Hput; [done|lia| |done].
    intros Hc. destruct (po_block _ _ _ Hok) as (sz & _ & _ & Hin). by destruct (Hin Hc). }
  apply swp_bind. eapply swp_deref; [done|]. apply swp_if; intros E; [by apply swp_ret|]. apply Z.ltb_ge in E.
  assert (n + pb_tot_len b < 65536) as Hw by (unfold u16 in E; zdivmod).
  apply swp_if; intros E2; [by apply swp_ret|]. rewrite !u16_small by (unfold is_u16; lia). apply swp_bind, swp_mod, swp_ret.
  destruct (Z.eqb_spec (Z.land (pb_type_internal b) PBUF_TYPE_FLAG_STRUCT_DATA_CONTIGUOUS) 0) as [Ec|Ec]; [done|]. cbn [negb] in E2.
  apply Z.ltb_ge in E2. change SIZEOF_STRUCT_PBUF with 16 in E2. apply HS; [by left|done|].
  apply Hput; [lia|lia|intros; lia|]. intros Hc. by destruct Hc.
Qed.

(** *** Joining and separating chains *)

Lemma pbuf_ok_tot m p b n : pbuf_ok m p b -> is_u16 n -> pbuf_ok m p (b <| pb_tot_len := n |>).
Proof. intros [? ? ? ? ? ? ?] Hn. by constructor. Qed.
Lemma pbuf_ok_next m p b n : pbuf_ok m p b -> pbuf_ok m p (b <| pb_next := n |>).
Proof. by intros [? ? ? ? ? ? ?]. Qed.

(** The first chain of [pbuf_cat] afterwards: [n] is the length of the second, at [t]. *)
Fixpoint catted (n t : Z) (l : list (Z * pbuf)) : list (Z * pbuf) :=
  match l with
  | [] => []
  | (a, b) :: l =>
      let b := b <| pb_tot_len := u16 (pb_tot_len b + n) |> in
      (a, match l with [] => b <| pb_next := Some t |> | _ => b end) :: catted n t l
  end.

Lemma catted_fst n t l : (catted n t l).*1 = l.*1.
Proof. induction l as [|[a b] l IH]; [done|]. cbn [catted]. by rewrite !fmap_cons, IH. Qed.

Lemma swp_cat_loop l : forall fuel s m own p t tb k (Q : unit -> pbufs A -> Prop),
  pinv s m ({[+ t +]} ⊎ own) -> chain (pb_tab s) (Some p) l -> chain (pb_tab s) (Some t) k -> pb_tab s !! t = Some tb ->
  (forall x, x ∈ l.*1 -> x ∉ k.*1) -> (length l <= fuel)%nat ->
  (forall s', pinv s' m own -> pb_ram s' = pb_ram s -> (forall q, q ∉ l.*1 -> pb_tab s' !! q = pb_tab s !! q) ->
     chain (pb_tab s') (Some p) (catted (pb_tot_len tb) t l ++ k) -> Q tt s') ->
  sto_wp (cat_loop fuel p t) Q s.
Proof.
  induction l as [|[a b] l IH]; intros fuel s m own p t tb k Q Hi Hl Hk Ht Hd Hf HQ; [done|].
  pose proof (chain_nodup _ _ _ Hl) as Hnd. rewrite fmap_cons in Hnd. apply NoDup_cons in Hnd as [Hnd _].
  destruct Hl as ([= <-] & Ha & Hl). 
  assert (p ∉ k.*1) as Hak by (apply Hd, list_elem_of_here).
  assert (forall x, x ∈ l.*1 -> x ∉ k.*1) as Hd' by (intros x Hx; by apply Hd, list_elem_of_further).
  assert (p <> t) as Hpt.
  { intros ->. apply Hak. destruct k as [|[c d] k]; [done|]. destruct Hk as ([= <-] & _). apply list_elem_of_here. }
  destruct fuel as [|fuel]; [cbn in Hf; lia|]. cbn [cat_loop].
  apply swp_bind. eapply swp_deref; [done|]. apply swp_bind. eapply swp_deref; [done|]. apply swp_bind, swp_mod.
  set (b1 := b <| pb_tot_len := u16 (pb_tot_len b + pb_tot_len tb) |>).
  set (s1 := s <| pb_tab := <[p := b1]> (pb_tab s) |>).
  assert (pinv s1 m ({[+ t +]} ⊎ own)) as Hi1.
  { eapply pinv_put; [done..|]. apply pbuf_ok_tot; [|apply u16_range]. by apply (pi_ok _ _ _ Hi). }
  assert (pb_tab s1 !! p = Some b1) as Hp1 by (unfold s1; ptab; apply lookup_insert_eq).
  assert (chain (pb_tab s1) (Some t) k) as Hk1 by (by apply chain_insert).
  destruct l as [|[c d] l].
  - cbn in Hl. rewrite Hl. apply swp_bind. eapply swp_deref; [done|]. apply swp_mod. apply HQ.
    + eapply pinv_link; [done|done|done|exact Hk1|done].
    + done.
    + intros q Hq. unfold s1. ptab. apply not_elem_of_cons in Hq as [Hq _]. by rewrite !lookup_insert_ne by done.
    + cbn [catted app]. split_and!; [done|ptab; apply lookup_insert_eq|]. by apply chain_insert.
  - assert (pb_next b = Some c) as En by (by destruct Hl). rewrite En in *.
    eapply (IH fuel s1 m own c t tb k); [done|by apply chain_insert|done|unfold s1; ptab; by rewrite lookup_insert_ne|done|cbn in *; lia|].
    intros s' Hi' Hr' Hf' Hc'. apply HQ; [done|done| |].
    + intros q Hq. apply not_elem_of_cons in Hq as [Hq Hq']. rewrite Hf' by done. unfold s1. ptab. by rewrite lookup_insert_ne.
    + cbn [catted app] in Hc' |- *. split_and!; [done|by rewrite Hf'|]. rewrite <- En in Hc'. exact Hc'.
Qed.

(** [pbuf_cat]: the pointer to [t] is taken over. *)
Lemma swp_pbuf_cat s m own h t tb l k (Q : unit -> pbufs A -> Prop) :
  pinv s m ({[+ t +]} ⊎ own) -> chain (pb_tab s) (Some h) l -> chain (pb_tab s) (Some t) k -> pb_tab s !! t = Some tb ->
  (forall x, x ∈ l.*1 -> x ∉ k.*1) ->
  (forall s', pinv s' m own -> pb_ram s' = pb_ram s -> (forall q, q ∉ l.*1 -> pb_tab s' !! q = pb_tab s !! q) ->
     chain (pb_tab s') (Some h) (catted (pb_tot_len tb) t l ++ k) -> Q tt s') ->
  sto_wp (pbuf_cat (Some h) (Some t)) Q s.
Proof.
  intros Hi Hl Hk Ht Hd HQ. unfold pbuf_cat. apply swp_bind, swp_get.
  eapply swp_cat_loop; [exact Hi|exact Hl|exact Hk|exact Ht|exact Hd| |exact HQ].
  unfold chain_fuel. pose proof (chain_length _ _ _ Hl). lia.
Qed.

(** What is left at [x] is as before, its references apart. *)
Definition same_shape (b c : pbuf) : Prop := c = b <| pb_ref := pb_ref c |>.
Definition shape (t t' : gmap Z pbuf) (x : Z) : Prop := forall c, t' !! x = Some c -> exists b, t !! x = Some b /\ same_shape b c.

Lemma shape_refl t x : shape t t x.
Proof. intros c Hc. exists c. split; [done|]. by destruct c. Qed.

Lemma free_tab_shape t p l : chain t p l -> forall x, shape t (free_tab t l) x.
Proof.
  revert t p. induction l as [|[a b] l IH]; intros t p Hl x; [apply shape_refl|]. pose proof (chain_nodup _ _ _ Hl) as Hn.
  rewrite fmap_cons in Hn. apply NoDup_cons in Hn as [Hn _]. destruct Hl as (_ & Ha & Hl). cbn [free_map]. case_if.
  - intros c Hc. apply (IH _ (pb_next b)) in Hc as (d & Hd & Ed); [|by apply chain_delete].
    apply lookup_delete_Some in Hd as [_ Hd]. by exists d.
  - intros c Hc. unfold lose_ref in Hc. apply lookup_insert_Some in Hc as [[<- <-]|[_ Hc]]; [by exists b|by apply shape_refl].
Qed.

Lemma swp_pbuf_dechain s m own p b (Q : option Z -> pbufs A -> Prop) : pinv s m own -> pb_tab s !! p = Some b -> p ∈ own ->
  pb_len b <= pb_tot_len b -> (pb_next b = None -> Q None s) ->
  (forall r s' m' q c, pb_next b = Some q -> pb_tab s !! q = Some c -> pinv s' m' own -> m' ⊆ m -> kept m' s s' ->
     (forall x, shape (<[p := b <| pb_next := None |> <| pb_tot_len := pb_len b |>]>
        (<[q := c <| pb_tot_len := u16 (pb_tot_len b - pb_len b) |>]> (pb_tab s))) (pb_tab s') x) -> Q r s') ->
  sto_wp (pbuf_dechain p) Q s.
Proof.
  intros Hi Hp Hown Hlen HN HQ. unfold pbuf_dechain. apply swp_bind. eapply swp_deref; [done|].
  destruct (pb_next b) as [q|] eqn:En; [|by apply swp_ret, HN].
  destruct (pi_chain _ _ _ Hi _ _ Hp) as [l Hl]. pose proof (chain_nodup _ _ _ Hl) as Hnd.
  destruct l as [|[a c] l]; [done|]. destruct Hl as ([= <-] & Hc & Hl). rewrite Hp in Hc. injection Hc as <-.
  rewrite En in Hl. destruct l as [|[a c] l]; [done|]. destruct Hl as ([= <-] & Hc & _).
  assert (p <> q) as Hpq by (intros ->; cbn in Hnd; apply NoDup_cons in Hnd as [Hnd _]; apply Hnd, list_elem_of_here).
  apply swp_bind. eapply swp_deref; [done|]. apply swp_bind, swp_mod.
  pose proof (pi_ok _ _ _ Hi _ _ Hp) as Hok. pose proof (po_len _ _ _ Hok) as Hl1. pose proof (po_tot _ _ _ Hok) as Hl2. unfold is_u16 in Hl1, Hl2.
  set (s1 := s <| pb_tab := <[q := c <| pb_tot_len := u16 (pb_tot_len b - pb_len b) |>]> (pb_tab s) |>).
  assert (pinv s1 m own) as Hi1.
  { eapply pinv_put; [done..|]. apply pbuf_ok_tot; [|apply u16_range]. by apply (pi_ok _ _ _ Hi). }
  assert (pb_tab s1 !! p = Some b) as Hp1 by (unfold s1; ptab; by rewrite lookup_insert_ne).
  apply swp_bind. eapply swp_deref; [done|]. apply swp_bind, swp_mod.
  set (s2 := s1 <| pb_tab := <[p := b <| pb_next := None |> <| pb_tot_len := pb_len b |>]> (pb_tab s1) |>).
  assert (pinv s2 m ({[+ q +]} ⊎ own)) as Hi2.
  { pose proof (pinv_unlink s1 m own p b q Hi1 Hp1 En) as Hu.
    set (s3 := s1 <| pb_tab := _ |>) in Hu.
    assert (s2 = s3 <| pb_tab := <[p := b <| pb_next := None |> <| pb_tot_len := pb_len b |>]> (pb_tab s3) |>) as ->.
    { unfold s2, s3. ptab. by rewrite insert_insert_eq. }
    eapply pinv_put; [exact Hu|unfold s3; ptab; apply lookup_insert_eq|done|done|].
    apply pbuf_ok_tot; [by apply pbuf_ok_next|unfold is_u16; lia]. }
  destruct (pi_own _ _ _ Hi2 q) as [cq Hcq]; [apply gmultiset_elem_of_disj_union; left; by apply gmultiset_elem_of_singleton|].
  destruct (pi_chain _ _ _ Hi2 _ _ Hcq) as [lq Hlq]. apply swp_bind. eapply swp_pbuf_free; [exact Hi2|exact Hlq|].
  intros a' s4 Hi4 Hk4. apply swp_ret. eapply HQ; [done|exact Hc|exact Hi4|apply free_blocks_sub|exact Hk4|].
  by apply (free_tab_shape _ _ _ Hlq).
Qed.

(** *** Shortening *)

(** A run that does not look at buffer [q] does the same whatever it holds. *)
Definition with_pbuf (q : Z) (b : pbuf) (s : pbufs A) : pbufs A := s <| pb_tab := <[q := b]> (pb_tab s) |>.
Definition ignores {R} (q : Z) (b : pbuf) (c : STO (pbufs A) R) (s : pbufs A) : Prop :=
  forall r s', c s = Some (r, s') -> c (with_pbuf q b s) = Some (r, with_pbuf q b s').

Lemma with_pbuf_twice q b b' s : with_pbuf q b (with_pbuf q b' s) = with_pbuf q b s.
Proof. destruct s as [t r o]. change (mk_pbufs (<[q := b]> (<[q := b']> t)) r o = mk_pbufs (<[q := b]> t) r o). by rewrite insert_insert_eq. Qed.

Lemma ignores_bind {R T} q b (c : STO (pbufs A) R) (k : R -> STO (pbufs A) T) s :
  ignores q b c s -> (forall r s', c s = Some (r, s') -> ignores q b (k r) s') -> ignores q b (sto_bind c k) s.
Proof.
  intros Hc Hk r s' E. unfold sto_bind in *. destruct (c s) as [[r1 s1]|] eqn:E1; [|done]. rewrite (Hc _ _ E1). by apply (Hk r1 s1).
Qed.
Lemma ignores_deref q b p s : p <> q -> ignores q b (deref p) s.
Proof.
  intros Hne r s' E. unfold deref in *. unfold with_pbuf. ptab. rewrite lookup_insert_ne by done.
  destruct (pb_tab s !! p); [|done]. by injection E as <- <-.
Qed.
Lemma ignores_put q b p c s : p <> q -> ignores q b (put_pbuf p c) s.
Proof. intros Hne r s' [= <- <-]. unfold put_pbuf, sto_mod, with_pbuf. ptab. by rewrite insert_insert_ne. Qed.
Lemma ignores_drop q b p s : p <> q -> ignores q b (drop_pbuf p) s.
Proof. intros Hne r s' [= <- <-]. unfold drop_pbuf, sto_mod, with_pbuf. ptab. by rewrite delete_insert_ne. Qed.
Lemma ignores_mem_do {R} q b (c : STO A R) s : ignores q b (mem_do c) s.
Proof.
  intros r s' E. unfold mem_do in *. unfold with_pbuf. ptab. destruct (c (pb_ram s)) as [[r1 a]|]; [|done]. by injection E as <- <-.
Qed.
Lemma ignores_ret {R} q b (r : R) s : ignores q b (sto_ret r) s.
Proof. by intros r' s' [= <- <-]. Qed.

Lemma ignores_free_loop q b l : forall fuel p count s, chain (pb_tab s) p l -> Forall (fun x => is_custom x.2 = false) l -> q ∉ l.*1 ->
  ignores q b (free_loop fuel p count) s.
Proof.
  induction l as [|[a c] l IH]; intros fuel p count s Hl Hcu Hq.
  - cbn in Hl. subst p. destruct fuel; apply ignores_ret.
  - pose proof (chain_nodup _ _ _ Hl) as Hnd. rewrite fmap_cons in Hnd. apply NoDup_cons in Hnd as [Hnd _].
    destruct Hl as (-> & Ha & Hl). apply Forall_cons in Hcu as [Hc Hcu]. cbn in Hc, Hnd. apply not_elem_of_cons in Hq as [Hqa Hq].
    assert (a <> q) as Hne by (by intros ->). destruct fuel as [|fuel]; [by intros r s'|]. cbn [free_loop].
    apply ignores_bind; [by apply ignores_deref|]. intros c' s1 E. unfold deref in E. rewrite Ha in E. injection E as <- <-.
    apply ignores_bind; [by apply ignores_put|]. intros [] s1 [= <-]. case_if; [|apply ignores_ret].
    rewrite Hc. assert (forall (f : STO A unit), ignores q b (drop_pbuf a ;?; mem_do f) (with_pbuf a (c <| pb_ref := u8 (pb_ref c - 1) |>) s) /\
      forall s2, (drop_pbuf a ;?; mem_do f) (with_pbuf a (c <| pb_ref := u8 (pb_ref c - 1) |>) s) = Some (tt, s2) -> chain (pb_tab s2) (pb_next c) l) as Hd.
    { intros f. split.
      - apply ignores_bind; [by apply ignores_drop|]. intros ? ? ?. apply ignores_mem_do.
      - intros s2 E2. unfold sto_bind, drop_pbuf, sto_mod, mem_do, with_pbuf in E2. cbn [setf pb_ram pb_tab] in E2.
        destruct (f (pb_ram s)) as [[[] ?]|]; [|done]. injection E2 as <-. ptab. apply chain_delete; [done|]. by apply chain_insert. }
    apply ignores_bind.
    + repeat (case_if; [by apply Hd|]). apply ignores_ret.
    + intros [] s2 E2. apply IH; [|done|done].
      revert E2. repeat (case_if; [by apply (proj2 (Hd _))|]). unfold sto_ret. intros [= <-]. by apply chain_insert.
Qed.

Definition sum_len (l : list (Z * pbuf)) : Z := foldr (fun x n => pb_len x.2 + n) 0 l.
Definition shrunk (d : Z) (l : list (Z * pbuf)) : list (Z * pbuf) :=
  (fun x => (x.1, x.2 <| pb_tot_len := pb_tot_len x.2 - d |>)) <$> l.

Lemma shrunk_fst d l : (shrunk d l).*1 = l.*1.
Proof. unfold shrunk. rewrite <- list_fmap_compose. by apply list_fmap_ext. Qed.

Lemma tots_sum l rem n : tots l rem n -> n = sum_len l + rem.
Proof. revert n. induction l as [|[a b] l IH]; intros n; cbn; [lia|]. intros (_ & _ & Ht). apply IH in Ht. unfold sum_len in *. lia. Qed.

Lemma tots_nonneg l rem n : tots l rem n -> 0 <= sum_len l.
Proof. revert n. induction l as [|[a b] l IH]; intros n; cbn; [done|]. intros (_ & ? & Ht). apply IH in Ht. unfold sum_len in *. lia. Qed.

Lemma swp_realloc_walk l : forall fuel s m own p n new d (Q : Z * Z -> pbufs A -> Prop),
  pinv s m own -> chain (pb_tab s) (Some p) l -> tots l 0 n -> 0 <= new -> new + d = n -> 0 < d -> (length l <= fuel)%nat ->
  (forall s' l1 q b l2, pinv s' m own -> pb_ram s' = pb_ram s -> l = l1 ++ (q, b) :: l2 ->
     chain (pb_tab s') (Some p) (shrunk d l1 ++ (q, b) :: l2) -> 0 <= new - sum_len l1 <= pb_len b ->
     (forall x, x ∉ l1.*1 -> pb_tab s' !! x = pb_tab s !! x) -> Q (q, new - sum_len l1) s') ->
  sto_wp (realloc_walk fuel p new d) Q s.
Proof.
  induction l as [|[a b] l IH]; intros fuel s m own p n new d Q Hi Hl Ht Hnew Hd Hd0 Hf HQ; [done|].
  pose proof (chain_nodup _ _ _ Hl) as Hnd. rewrite fmap_cons in Hnd. apply NoDup_cons in Hnd as [Hnd _].
  pose proof Hl as ([= <-] & Ha & Hl'). destruct Ht as (Et & Hlb & Ht). destruct fuel as [|fuel]; [cbn in Hf; lia|].
  cbn [realloc_walk]. apply swp_bind. eapply swp_deref; [done|].
  pose proof (pi_ok _ _ _ Hi _ _ Ha) as Hok. pose proof (po_len _ _ _ Hok) as Hu1. pose proof (po_tot _ _ _ Hok) as Hu2. unfold is_u16 in Hu1, Hu2.
  apply swp_if; intros E.
  - apply Z.ltb_lt in E. apply swp_bind, swp_mod. rewrite (u16_small (pb_tot_len b - d)) by (unfold is_u16; lia).
    rewrite (u16_small (new - pb_len b)) by (unfold is_u16; lia). set (b' := b <| pb_tot_len := pb_tot_len b - d |>).
    set (s1 := s <| pb_tab := <[p := b']> (pb_tab s) |>).
    assert (pinv s1 m own) as Hi1 by (eapply pinv_put; [done..|]; apply pbuf_ok_tot; [done|unfold is_u16; lia]).
    destruct l as [|[c e] l].
    { apply tots_sum in Ht. cbn in Ht. lia. }
    assert (pb_next b = Some c) as En by (by destruct Hl'). rewrite En.
    eapply (IH fuel s1 m own c (n - pb_len b)); [done| |done|lia|lia|done|cbn in *; lia|].
    { rewrite <- En. by apply chain_insert. }
    intros s' l1 q b1 l2 Hi' Hr' El Hc' Hb' Hf'. replace (new - pb_len b - sum_len l1) with (new - sum_len ((p, b) :: l1)) in * by (cbn; unfold sum_len; lia).
    apply (HQ s' ((p, b) :: l1) q b1 l2); [done|done|by rewrite El| |done|].
    + cbn [shrunk fmap list_fmap app fst snd]. split_and!; [done| |cbn; by rewrite En]. fold b'. rewrite Hf'; [unfold s1; ptab; apply lookup_insert_eq|].
      intros Hin. apply Hnd. rewrite El, fmap_app. apply elem_of_app. by left.
    + intros x Hx. apply not_elem_of_cons in Hx as [Hx1 Hx2]. rewrite Hf' by done. unfold s1. ptab. by rewrite lookup_insert_ne.
  - apply Z.ltb_ge in E. apply swp_ret. replace new with (new - sum_len []) by (cbn; lia).
    apply (HQ s [] p b l); [done..|cbn; lia|done].
Qed.

(** The buffer at the new end, trimmed if it is of the heap. *)
Lemma pinv_shrink s m own q b a sz rem : pinv s m own -> pb_tab s !! q = Some b -> pb_src b = Heap -> is_contiguous b ->
  mrep a (<[q := (Heap, sz)]> m) -> pb_payload b + rem <= q + sz -> 0 <= rem <= pb_len b ->
  pinv (s <| pb_ram := a |> <| pb_tab := <[q := b <| pb_len := rem |> <| pb_tot_len := rem |>]> (pb_tab s) |>) (<[q := (Heap, sz)]> m) own.
Proof.
  intros Hi Hq Hs Hc Ha Hsz Hrem. pose proof (pi_ok _ _ _ Hi _ _ Hq) as [H1' H2' H3' (sz0 & Hm & H16 & Hin) Hout Hl Ht].
  unfold is_u16 in Hl. destruct (Hin Hc) as [Hp16 _]. set (b' := b <| pb_len := rem |> <| pb_tot_len := rem |>).
  destruct Hi as [Hm0 Hok Hch Hr Ho Hall]. constructor; ptab; [done| | | | |].
  - intros x c Hx. apply lookup_insert_Some in Hx as [[<- <-]|[Hne Hx]].
    + constructor; try done; [|unfold is_u16; cbn; lia|unfold is_u16; cbn; lia]. exists sz. rewrite lookup_insert_eq.
      split_and!; [by rewrite <- Hs|lia|]. intros _. cbn. lia.
    + eapply pbuf_ok_blocks; [|by apply Hok]. by rewrite lookup_insert_ne.
  - intros x c Hx. apply (has_chain_alter _ _ b); [done..|]. apply lookup_insert_Some in Hx as [[<- _]|[_ Hx]]; by eapply Hch.
  - intros x c Hx. rewrite (incoming_same _ _ b) by done. apply lookup_insert_Some in Hx as [[<- <-]|[Hne Hx]]; [|by apply Hr].
    change (pb_ref b') with (pb_ref b). by apply Hr.
  - intros x Hx. apply lookup_insert_is_Some'. right. by apply Ho.
  - apply (accounted_put _ _ _ _ b); [done|]. by apply (accounted_resize _ _ _ _ b).
Qed.

(** What is left of a chain: [l1], and [rem] bytes of the buffer [q] behind it. [mk] is
    the memory whose bytes are as they were. *)
Definition cut_off (q : Z) (b : pbuf) (rem : Z) : pbuf := b <| pb_len := rem |> <| pb_tot_len := rem |> <| pb_next := None |>.

Lemma owned_resize m q src k n x : m !! q = Some (src, n) -> k <= n -> owned (<[q := (src, k)]> m) x -> owned m x.
Proof.
  intros Hm Hk (b & t & sz & Hb & Hx). apply lookup_insert_Some in Hb as [[<- [= <- <-]]|[_ Hb]].
  - exists q, src, n. split; [done|]. lia.
  - by exists b, t, sz.
Qed.

(** From the point where the buffer at the new end has its new length. *)
Lemma swp_realloc_end s m own q b l2 p l1 (Q : unit -> pbufs A -> Prop) : pinv s m own -> pb_tab s !! q = Some b ->
  chain (pb_tab s) (Some p) (l1 ++ (q, b) :: l2) ->
  (forall s' m', pinv s' m' own -> m' ⊆ m -> kept m' s s' -> m' !! q = m !! q ->
     chain (pb_tab s') (Some p) (l1 ++ [(q, b <| pb_next := None |>)]) ->
     (forall x, x <> q -> shape (pb_tab s) (pb_tab s') x) -> Q tt s') ->
  sto_wp (match pb_next b with Some n => pbuf_free (Some n) ;?; sto_ret tt | None => sto_ret tt end ;?;
          let? b := deref q in put_pbuf q (b <| pb_next := None |>)) Q s.
Proof.
  intros Hi Hq Hl HQ. pose proof (chain_nodup _ _ _ Hl) as Hnd. rewrite fmap_app, fmap_cons in Hnd.
  apply NoDup_app in Hnd as (Hn1 & Hn12 & Hn2). apply NoDup_cons in Hn2 as [Hql2 Hn2]. cbn in Hql2, Hn12.
  destruct (chain_suffix _ _ _ _ _ _ Hl) as (_ & _ & Hl2).
  destruct (pb_next b) as [n|] eqn:En.
  2: { apply swp_bind, swp_ret, swp_bind. eapply swp_deref; [done|]. apply swp_mod. destruct l2 as [|[a c] l2]; [|by destruct Hl2].
    replace (b <| pb_next := None |>) with b by (destruct b; cbn in En; by subst). rewrite (put_same s q b) by done.
    apply (HQ s m); try done; [|intros x _; apply shape_refl].
    replace (b <| pb_next := None |>) with b by (destruct b; cbn in En; by subst). done. }
  pose proof (pinv_unlink s m own q b n Hi Hq En) as Hu. set (b' := b <| pb_next := None |>) in *.
  change (s <| pb_tab := _ |>) with (with_pbuf q b' s) in Hu.
  assert (chain (pb_tab (with_pbuf q b' s)) (Some n) l2) as Hl2' by (by apply chain_insert).
  assert (Forall (fun x => is_custom x.2 = false) l2) as Hcu.
  { apply Forall_forall. intros [a c] Hin. eapply po_custom, (pi_ok _ _ _ Hi), chain_lookup; [exact Hl2|done]. }
  assert (sto_wp (pbuf_free (Some n)) (fun _ s' => pinv s' (free_blocks m l2) own /\ kept (free_blocks m l2) s s' /\
    pb_tab s' = free_tab (pb_tab (with_pbuf q b' s)) l2) (with_pbuf q b' s)) as Hw.
  { eapply swp_pbuf_free; [exact Hu|exact Hl2'|]. intros a s' Hi' Hk'. done. }
  apply swp_run in Hw as (r & s' & E & Hi' & Hk' & Et').
  assert (pbuf_free (Some n) s = Some (r, with_pbuf q b s')) as E'.
  { unfold pbuf_free, sto_bind, sto_get in E |- *.
    assert (chain_fuel (with_pbuf q b' s) = chain_fuel s) as Ef by (unfold chain_fuel, with_pbuf; ptab; by rewrite map_size_insert_Some by by exists b).
    rewrite Ef in E. apply (ignores_free_loop q b l2) in E; [|done|done|done].
    by rewrite with_pbuf_twice, (put_same s q b Hq : with_pbuf q b s = s) in E. }
  apply swp_bind, swp_bind. unfold sto_wp at 1. rewrite E'. apply swp_ret, swp_bind. eapply swp_deref; [unfold with_pbuf; ptab; apply lookup_insert_eq|].
  apply swp_mod. change (Q tt (with_pbuf q b' (with_pbuf q b s'))). rewrite with_pbuf_twice.
  assert (pb_tab s' !! q = Some b') as Hq' by (rewrite Et', free_tab_other by done; unfold with_pbuf; ptab; apply lookup_insert_eq).
  rewrite (put_same s' q b' Hq' : with_pbuf q b' s' = s').
  apply (HQ s' (free_blocks m l2)); [done|apply free_blocks_sub|done|by apply free_blocks_other| |].
  - apply (chain_frame (pb_tab (with_pbuf q b' s))).
    + intros x Hx. rewrite Et'. apply free_tab_other. rewrite fmap_app in Hx. apply elem_of_app in Hx as [Hx|Hx].
      * intros Hx'. apply (Hn12 _ Hx). by right.
      * apply list_elem_of_singleton in Hx. by subst x.
    + by apply (chain_relink _ _ _ _ b b' l2 []); [|done|apply not_elem_of_nil].
  - intros x Hx c Hc. rewrite Et' in Hc. apply (free_tab_shape _ _ _ Hl2') in Hc as (c0 & Hc0 & Ec). exists c0. split; [|done].
    unfold with_pbuf in Hc0. cbn [setf pb_tab] in Hc0. by rewrite lookup_insert_ne in Hc0.
Qed.

Lemma pbuf_ok_shorter m p b n k : pbuf_ok m p b -> 0 <= n <= pb_len b -> is_u16 k ->
  pbuf_ok m p (b <| pb_len := n |> <| pb_tot_len := k |>).
Proof.
  intros [H1' H2' H3' (sz & Hm & Hsz & Hin) Hout Hl Ht] Hn Hk. unfold is_u16 in Hl. constructor; try done.
  - exists sz. split_and!; [done|done|]. intros Hc. destruct (Hin Hc). cbn. lia.
  - intros Hc x Hx. apply (Hout Hc). cbn in Hx. lia.
  - unfold is_u16. cbn. lia.
Qed.

(** [pbuf_realloc]: what is left of chain [l]; [mk] is the blocks the bytes of which stay. *)
Lemma swp_pbuf_realloc s m own p b0 l new (Q : unit -> pbufs A -> Prop) : pinv s m own -> pb_tab s !! p = Some b0 ->
  chain (pb_tab s) (Some p) l -> tots l 0 (pb_tot_len b0) -> 0 <= new ->
  (pb_tot_len b0 <= new -> Q tt s) ->
  (forall l1 q b l2 s' m' mk, let rem := new - sum_len l1 in new < pb_tot_len b0 -> l = l1 ++ (q, b) :: l2 -> 0 <= rem <= pb_len b ->
     pinv s' m' own -> chain (pb_tab s') (Some p) (shrunk (pb_tot_len b0 - new) l1 ++ [(q, cut_off q b rem)]) ->
     (forall x, x ∉ (l1 ++ [(q, b)]).*1 -> shape (pb_tab s) (pb_tab s') x) ->
     (forall a c, pb_tab s' !! a = Some c -> pbuf_ok mk a c) -> kept mk s s' -> Q tt s') ->
  sto_wp (pbuf_realloc p new) Q s.
Proof.
  intros Hi Hp Hl Ht Hnew HN HS. unfold pbuf_realloc. apply swp_bind. eapply swp_deref; [done|].
  apply swp_if; intros E; [apply swp_ret, HN; lia|]. apply Z.leb_gt in E.
  pose proof (po_tot _ _ _ (pi_ok _ _ _ Hi _ _ Hp)) as Hu. unfold is_u16 in Hu.
  rewrite u16_small by (unfold is_u16; lia). apply swp_bind, swp_get, swp_bind.
  eapply swp_realloc_walk; [exact Hi|exact Hl|exact Ht|done|lia|lia|unfold chain_fuel; pose proof (chain_length _ _ _ Hl); lia|].
  intros s1 l1 q b l2 Hi1 Er1 El Hc1 Hrem Hf1. set (rem := new - sum_len l1) in *.
  assert (pb_tab s1 !! q = Some b) as Hq by (by destruct (chain_suffix _ _ _ _ _ _ Hc1) as (_ & ? & _)).
  set (b2 := b <| pb_len := rem |> <| pb_tot_len := rem |>).
  pose proof (pi_ok _ _ _ Hi1 _ _ Hq) as Hok. pose proof (po_len _ _ _ Hok) as Hlb. unfold is_u16 in Hlb.
  assert (forall s2 m2 szk sz2, let mk := <[q := (pb_src b, szk)]> m2 in pb_tab s2 = <[q := b2]> (pb_tab s1) -> pinv s2 m2 own ->
    kept mk s1 s2 -> pbuf_ok mk q b2 -> m2 !! q = Some (pb_src b, sz2) -> szk <= sz2 ->
    sto_wp (match pb_next b2 with Some n => pbuf_free (Some n) ;?; sto_ret tt | None => sto_ret tt end ;?;
          let? b := deref q in put_pbuf q (b <| pb_next := None |>)) Q s2) as Hend.
  { intros s2 m2 szk sz2 mk Et2 Hi2 Hk2 Hokq Hm2 Hsz.
    assert (chain (pb_tab s2) (Some p) (shrunk (pb_tot_len b0 - new) l1 ++ (q, b2) :: l2)) as Hc2.
    { rewrite Et2. eapply chain_relink; [exact Hc1| |]; destruct (chain_suffix _ _ _ _ _ _ Hc1) as (_ & _ & Hs); [exact Hs|].
      pose proof (chain_nodup _ _ _ Hc1) as Hnd. rewrite fmap_app in Hnd. apply NoDup_app in Hnd as (_ & _ & Hnd).
      rewrite fmap_cons in Hnd. by apply NoDup_cons in Hnd as [Hnd _]. }
    eapply (swp_realloc_end s2 m2 own q b2 l2 p); [exact Hi2|rewrite Et2; apply lookup_insert_eq|exact Hc2|].
    intros s' m' Hi' Hsub Hk' Emq Hc' Hsh. set (mk' := <[q := (pb_src b, szk)]> m').
    apply (HS l1 q b l2 s' m' mk'); [done|done|done|done|exact Hc'| | |].
    - intros x Hx c Hc. rewrite fmap_app in Hx. apply not_elem_of_app in Hx as [Hx1 Hx2].
      assert (x <> q) as Hxq by (intros ->; apply Hx2, list_elem_of_here).
      destruct (Hsh x Hxq c Hc) as (c0 & Hc0 & Esh). exists c0. split; [|done]. rewrite Et2, lookup_insert_ne in Hc0 by done.
      by rewrite Hf1 in Hc0.
    - intros a c Hc. destruct (decide (a = q)) as [->|Ha].
      + assert (c = cut_off q b rem) as ->.
        { destruct (chain_suffix _ _ _ _ _ _ Hc') as (_ & Hq' & _). rewrite Hq' in Hc. by injection Hc as <-. }
        eapply (pbuf_ok_blocks mk); [unfold mk', mk; by rewrite !lookup_insert_eq|]. by apply (pbuf_ok_next mk q b2).
      + eapply pbuf_ok_blocks; [by apply lookup_insert_ne|]. by apply (pi_ok _ _ _ Hi').
    - intros x Hx. rewrite Hk', Hk2, Er1; [done| |]; (destruct Hx as [Hx|Hx]; [left|by right]).
      + eapply owned_sub; [|exact Hx]. by apply insert_mono.
      + apply (owned_resize m' q (pb_src b) szk sz2); [by rewrite Emq|done|exact Hx]. }
  apply swp_bind. eapply swp_deref; [exact Hq|]. apply swp_bind. apply swp_if; intros Eif.
  - apply andb_true_iff in Eif as [[Esrc%Z.eqb_eq _]%andb_true_iff _]. change (Z.land SRC_HEAP PBUF_TYPE_ALLOC_SRC_MASK) with SRC_HEAP in Esrc.
    destruct (po_block _ _ _ Hok) as (sz & Hmq & Hsz & Hin). assert (is_contiguous b) as Hcb by (apply (po_kind _ _ _ Hok); by rewrite Esrc).
    assert (pb_src b = Heap) as Eheap by (unfold pb_src; by rewrite Esrc). rewrite Eheap in *. destruct (Hin Hcb) as [Hpl1 Hpl2].
    destruct (mrep_block _ _ _ _ _ (pi_mem _ _ _ Hi1) Hmq) as (_ & _ & Hszu & _). unfold is_u16 in Hszu.
    rewrite u16_small by (unfold is_u16; lia). set (n := pb_payload b - q + rem).
    destruct (nm_trim_ok _ _ _ _ n (pi_mem _ _ _ Hi1) Hmq) as (a & sz' & Ea & Hsz' & Ha & Hka); [lia|unfold is_u16; lia|].
    apply swp_bind. eapply swp_mem_do; [exact Ea|]. apply swp_ret, swp_bind. eapply swp_deref; [exact Hq|]. apply swp_bind, swp_mod.
    eapply (Hend _ (<[q := (Heap, sz')]> m) n sz'); [done| | | |apply lookup_insert_eq|done].
    + apply (pinv_shrink s1 m own q b a sz' rem); try done; lia.
    + intros x Hx. ptab. apply Hka. by rewrite insert_insert_eq in Hx.
    + rewrite insert_insert_eq. destruct Hok. constructor; try done; [|unfold is_u16; cbn; lia|unfold is_u16; cbn; lia].
      exists n. rewrite lookup_insert_eq. split_and!; [by rewrite <- Eheap|lia|]. intros _. cbn. lia.
  - apply swp_ret, swp_bind. eapply swp_deref; [exact Hq|]. apply swp_bind, swp_mod.
    assert (pbuf_ok m q b2) as Hok2 by (apply pbuf_ok_shorter; [done|lia|unfold is_u16; lia]).
    destruct (po_block _ _ _ Hok) as (sz & Hmq & Hsz & Hin).
    assert (<[q := (pb_src b, sz)]> m = m) as Eid by (by apply insert_id).
    eapply (Hend _ m sz sz); rewrite ?Eid; [done| |done|done|done|done]. by apply (pinv_put _ _ _ _ b).
Qed.

End inv.
