(* ===== verification/PbufOps.v ===== *)
(** * PbufOps: what a client may do with packet buffers

    The operations of pbuf.c as steps of a client that follows the rules of the API: it
    frees the pointers it holds, each once, joins packets that have nothing in common and
    changes the lengths of packets no other packet leads into. In every state reached so
    the references are exact and the lengths add up; every such operation returns; and
    when the client holds nothing any more, neither does pbuf.c. *)

From stdpp Require Import gmultiset.
From S2P Require Import Prelude Mem NetMem Pbuf PbufProps.

(** ** Lengths *)

(** The length of the packet from pointer [p] on, as the structs have it. *)
Definition ptr_tot (t : gmap Z pbuf) (p : option Z) : Z :=
  match p with
  | None => 0
  | Some a => match t !! a with Some b => pb_tot_len b | None => 0 end
  end.
Definition len_ok (t : gmap Z pbuf) (b : pbuf) : Prop := pb_tot_len b = pb_len b + ptr_tot t (pb_next b).
Definition lens_ok (t : gmap Z pbuf) : Prop := forall p b, t !! p = Some b -> len_ok t b.

(** Every [next] pointer leads somewhere. *)
Definition closed (t : gmap Z pbuf) : Prop := forall p b n, t !! p = Some b -> pb_next b = Some n -> is_Some (t !! n).

Lemma lens_tots t p l : lens_ok t -> (forall a b, t !! a = Some b -> 0 <= pb_len b) -> chain t p l -> tots l 0 (ptr_tot t p).
Proof.
  intros Hlen H0. revert p. induction l as [|[a b] l IH]; intros p Hl; [cbn in *; by subst p|].
  destruct Hl as (-> & Ha & Hl). cbn [ptr_tot]. rewrite Ha. cbn [tots]. split_and!; [done|by eapply H0|].
  rewrite (Hlen _ _ Ha). replace (pb_len b + ptr_tot t (pb_next b) - pb_len b) with (ptr_tot t (pb_next b)) by lia. by apply IH.
Qed.

Lemma tots_ptr t p l n : chain t p l -> tots l 0 n -> ptr_tot t p = n.
Proof.
  destruct l as [|[a b] l]; [by intros -> ->|]. intros (-> & Ha & _) (E & _). cbn. by rewrite Ha.
Qed.

Lemma tots_len_ok t p l n a b : chain t p l -> tots l 0 n -> (a, b) ∈ l -> len_ok t b.
Proof.
  revert p n. induction l as [|[c d] l IH]; intros p n Hl Ht Hin; [by apply not_elem_of_nil in Hin|].
  destruct Hl as (-> & Hc & Hl), Ht as (E & H0 & Ht). apply elem_of_cons in Hin as [[= -> ->]|Hin]; [|by eapply IH].
  unfold len_ok. rewrite (tots_ptr _ _ _ _ Hl Ht). lia.
Qed.

Lemma ptr_tot_frame t t' p : (forall a, p = Some a -> pb_tot_len <$> t' !! a = pb_tot_len <$> t !! a) -> ptr_tot t' p = ptr_tot t p.
Proof.
  intros Hf. destruct p as [a|]; [|done]. specialize (Hf a eq_refl). cbn.
  destruct (t !! a), (t' !! a); cbn in Hf; congruence.
Qed.

(** Whatever is left, with other references. *)
Lemma lens_shape t t' : lens_ok t -> closed t' -> (forall x, shape t t' x) -> lens_ok t'.
Proof.
  intros Hlen Hcl Hsh p c Hc. destruct (Hsh _ _ Hc) as (b & Hb & E). red in E. unfold len_ok.
  assert (pb_next c = pb_next b) as En by (by rewrite E). rewrite En.
  rewrite (ptr_tot_frame t); [rewrite E; by apply (Hlen _ _ Hb)|]. intros a Ea. rewrite <- En in Ea.
  destruct (Hcl _ _ _ Hc Ea) as [d Hd]. destruct (Hsh _ _ Hd) as (d0 & Hd0 & E'). rewrite Hd, Hd0. cbn. red in E'. by rewrite E'.
Qed.

(** Packet [l] is new or changed, the rest of the table stays as it is. *)
Lemma lens_packet t t' p (l : list (Z * pbuf)) n : lens_ok t -> closed t' -> chain t' p l -> tots l 0 n ->
  (forall x, x ∉ l.*1 -> shape t t' x) ->
  (forall a b x, t !! a = Some b -> pb_next b = Some x -> a ∉ l.*1 -> x ∈ l.*1 -> is_Some (t' !! a) ->
     pb_tot_len <$> t' !! x = pb_tot_len <$> t !! x) ->
  lens_ok t'.
Proof.
  intros Hlen Hcl Hc Ht Hsh Hin q c Hq. destruct (decide (q ∈ l.*1)) as [Hq'|Hq'].
  { apply list_elem_of_fmap in Hq' as ([q' c'] & E & Hin'). cbn in E. subst q'.
    pose proof (chain_lookup _ _ _ _ _ Hc Hin'). replace c with c' by congruence. by eapply tots_len_ok. }
  destruct (Hsh _ Hq' _ Hq) as (b & Hb & E). red in E. assert (pb_next c = pb_next b) as En by (by rewrite E).
  unfold len_ok. rewrite En, (ptr_tot_frame t); [rewrite E; by apply (Hlen _ _ Hb)|]. intros a Ea. pose proof Ea as Ea'. rewrite <- En in Ea'.
  destruct (decide (a ∈ l.*1)) as [Ha|Ha]; [by eapply Hin|].
  destruct (Hcl _ _ _ Hq Ea') as [d Hd]. destruct (Hsh _ Ha _ Hd) as (d0 & Hd0 & E'). rewrite Hd, Hd0. cbn. red in E'. by rewrite E'.
Qed.

(** The [next] pointers of a chain stay in it. *)
Lemma chain_closed t p l a b x : chain t p l -> (a, b) ∈ l -> pb_next b = Some x -> x ∈ l.*1.
Proof.
  revert p. induction l as [|[c d] l IH]; intros p Hl Hin Hx; [by apply not_elem_of_nil in Hin|]. destruct Hl as (-> & Hc & Hl).
  rewrite fmap_cons. apply list_elem_of_further. apply elem_of_cons in Hin as [[= -> ->]|Hin]; [|by eapply IH].
  rewrite Hx in Hl. destruct l as [|[a' b'] l]; [done|]. destruct Hl as ([= <-] & _). apply list_elem_of_here.
Qed.

Lemma tots_catted l k t n r : tots l 0 n -> tots k 0 r -> 0 <= n -> n + r < 65536 -> 0 <= r ->
  Forall (fun x => 0 <= pb_tot_len x.2) l -> tots (catted r t l ++ k) 0 (n + r).
Proof.
  intros Hl Hk. revert n Hl. induction l as [|[a b] l IH]; intros n Hl Hn Hr0 Hr Hf.
  - cbn in *. by replace (n + r) with r by lia.
  - destruct Hl as (E & Hb & Hl). apply Forall_cons in Hf as [_ Hf]. pose proof (tots_sum _ _ _ Hl) as Es. pose proof (tots_nonneg _ _ _ Hl).
    cbn [catted app tots]. assert (u16 (pb_tot_len b + r) = n + r) as Eu by (rewrite E; apply u16_small; unfold is_u16; lia).
    split_and!; [by destruct l; cbn; rewrite Eu|by destruct l|].
    replace (n + r - _) with (n - pb_len b + r) by (destruct l; cbn; lia). apply IH; try done; lia.
Qed.

Lemma sum_app l k : sum_len (l ++ k) = sum_len l + sum_len k.
Proof. induction l as [|[a b] l IH]; [done|]. cbn in *. unfold sum_len in *. lia. Qed.

Lemma tots_shrunk l d r n : tots l r n -> tots (shrunk d l) (r - d) (n - d).
Proof.
  revert n. induction l as [|[a b] l IH]; intros n; cbn; [lia|]. intros (E & Hb & Ht). split_and!; [cbn; lia|done|].
  apply IH in Ht. by replace (n - d - pb_len b) with (n - pb_len b - d) by lia.
Qed.

(** ** The client *)

Inductive pop :=
  | o_alloc (layer length type : Z)
  | o_set_payload (p x : Z)
  | o_ref (p : Z)
  | o_free (p : Z)
  | o_cat (h t : Z)
  | o_chain (h t : Z)
  | o_dechain (p : Z)
  | o_realloc (p n : Z)
  | o_add_header (p n : Z)
  | o_remove_header (p n : Z)
  | o_free_header (p n : Z)
  | o_write (p off : Z) (d : list Z).

(** No buffer outside of [l] leads into it. *)
Definition sole (t : gmap Z pbuf) (l : list Z) : Prop :=
  forall a b x, t !! a = Some b -> pb_next b = Some x -> x ∈ l -> a ∈ l.

(** The invariant of a client state, opened. *)
Ltac open_good Hg := let m := fresh "m" in let Hi := fresh "Hi" in let Hlen := fresh "Hlen" in destruct Hg as (m & Hi & Hlen).

Section client.
Context {A : Type} `{NetMem A, !NetMemOk A, CustomPbuf A} {base : gset Z}.

(** The operation; the result is the pointer the client gets, if any. *)
Definition run_pop (o : pop) : STO (pbufs A) (option Z) :=
  match o with
  | o_alloc layer length type => pbuf_alloc layer length type
  | o_set_payload p x => (let? b := deref p in put_pbuf p (b <| pb_payload := x |>)) ;?; sto_ret None
  | o_ref p => pbuf_ref (Some p) ;?; sto_ret None
  | o_free p => pbuf_free (Some p) ;?; sto_ret None
  | o_cat h t => pbuf_cat (Some h) (Some t) ;?; sto_ret None
  | o_chain h t => pbuf_chain (Some h) (Some t) ;?; sto_ret None
  | o_dechain p => pbuf_dechain p ;?; sto_ret None
  | o_realloc p n => pbuf_realloc p n ;?; sto_ret None
  | o_add_header p n => pbuf_add_header (Some p) n ;?; sto_ret None
  | o_remove_header p n => pbuf_remove_header (Some p) n ;?; sto_ret None
  | o_free_header p n => pbuf_free_header (Some p) n
  | o_write p off d => (let? b := deref p in data_write (pb_payload b + off) d) ;?; sto_ret None
  end.

(** The pointers the client then holds. *)
Definition own_after (o : pop) (r : option Z) (own : gmultiset Z) : gmultiset Z :=
  match o with
  | o_alloc _ _ _ => next_ms r ⊎ own
  | o_ref p => {[+ p +]} ⊎ own
  | o_free p => own ∖ {[+ p +]}
  | o_cat _ t => own ∖ {[+ t +]}
  | o_free_header p _ => next_ms r ⊎ (own ∖ {[+ p +]})
  | _ => own
  end.

(** The rules of the API. *)
Definition pop_ok (s : pbufs A) (own : gmultiset Z) (o : pop) : Prop :=
  let t := pb_tab s in
  match o with
  | o_alloc layer length type => is_u16 length /\ 0 <= layer <= PBUF_TRANSPORT /\
      (type = PBUF_RAM \/ type = PBUF_POOL \/ type = PBUF_REF \/ type = PBUF_ROM)
  | o_set_payload p x => exists b, t !! p = Some b /\ ~ is_contiguous b /\ forall y, x <= y < x + pb_len b -> ~ arena y
  | o_ref p => exists b, t !! p = Some b /\ pb_ref b < 255
  | o_free p => p ∈ own
  | o_cat h p => p ∈ own /\ exists l k, chain t (Some h) l /\ chain t (Some p) k /\ (forall x, x ∈ l.*1 -> x ∉ k.*1) /\
      sole t l.*1 /\ ptr_tot t (Some h) + ptr_tot t (Some p) < 65536
  | o_chain h p => p ∈ own /\ exists l k b, chain t (Some h) l /\ chain t (Some p) k /\ (forall x, x ∈ l.*1 -> x ∉ k.*1) /\
      sole t l.*1 /\ ptr_tot t (Some h) + ptr_tot t (Some p) < 65536 /\ t !! p = Some b /\ pb_ref b < 255
  | o_dechain p => p ∈ own /\ incoming t p = 0%nat
  | o_realloc p n => p ∈ own /\ 0 <= n /\ exists l, chain t (Some p) l /\ sole t l.*1
  | o_add_header p n | o_remove_header p n => p ∈ own /\ 0 <= n /\ incoming t p = 0%nat
  | o_free_header p n => p ∈ own /\ is_u16 n /\ exists l, chain t (Some p) l /\ Forall (fun x => pb_ref x.2 = 1) l
  | o_write p off d => exists b, t !! p = Some b /\ is_contiguous b /\ 0 <= off /\ off + zlen d <= pb_len b
  end.

(** What every operation keeps. *)
Definition good (s : pbufs A) (own : gmultiset Z) : Prop := exists m, pinv (base := base) s m own /\ lens_ok (pb_tab s).

Lemma pinv_closed s m own : pinv (base := base) s m own -> closed (pb_tab s).
Proof.
  intros Hi p b n Hp Hn. destruct (pi_chain _ _ _ Hi _ _ Hp) as [l Hl]. destruct l as [|[a c] l]; [done|].
  destruct Hl as ([= <-] & Hc & Hl). rewrite Hp in Hc. injection Hc as <-. rewrite Hn in Hl. destruct l as [|[a c] l]; [done|].
  destruct Hl as ([= <-] & Hc & _). by exists c.
Qed.

Lemma pinv_tots s m own p b l : pinv (base := base) s m own -> lens_ok (pb_tab s) -> pb_tab s !! p = Some b ->
  chain (pb_tab s) (Some p) l -> tots l 0 (pb_tot_len b) /\ 0 <= pb_len b <= pb_tot_len b.
Proof.
  intros Hi Hlen Hp Hl. assert (forall a c, pb_tab s !! a = Some c -> 0 <= pb_len c /\ 0 <= pb_tot_len c) as H0'.
  { intros a c Hc. destruct (pi_ok _ _ _ Hi _ _ Hc) as [_ _ _ _ _ Hl1 Hl2]. unfold is_u16 in Hl1, Hl2. lia. }
  pose proof (lens_tots _ _ _ Hlen (fun a c Hc => proj1 (H0' a c Hc)) Hl) as Ht. cbn in Ht. rewrite Hp in Ht. split; [done|].
  destruct (H0' _ _ Hp) as [Hl0 _]. rewrite (Hlen _ _ Hp). destruct (pb_next b) as [n|] eqn:En; [|cbn; lia].
  destruct (pinv_closed _ _ _ Hi _ _ _ Hp En) as [c Hc]. cbn. rewrite Hc. destruct (H0' _ _ Hc). lia.
Qed.

Lemma own_split p (own : gmultiset Z) : p ∈ own -> own = {[+ p +]} ⊎ (own ∖ {[+ p +]}).
Proof. intros Hp. multiset_solver. Qed.

(** One buffer nothing points to is changed. *)
Lemma good_put s m own p b b' : pinv (base := base) s m own -> lens_ok (pb_tab s) -> pb_tab s !! p = Some b ->
  incoming (pb_tab s) p = 0%nat \/ pb_tot_len b' = pb_tot_len b ->
  pb_next b' = pb_next b -> pb_tot_len b' - pb_len b' = pb_tot_len b - pb_len b ->
  pinv (base := base) (s <| pb_tab := <[p := b']> (pb_tab s) |>) m own -> good (s <| pb_tab := <[p := b']> (pb_tab s) |>) own.
Proof.
  intros Hi Hlen Hp Hin Hn Hd Hi'. exists m. split; [done|]. ptab.
  assert (forall q c, pb_tab s !! q = Some c -> ptr_tot (<[p := b']> (pb_tab s)) (pb_next c) = ptr_tot (pb_tab s) (pb_next c)) as Hf.
  { intros q c Hc. apply ptr_tot_frame. intros a Ea. destruct (decide (a = p)) as [->|Hne]; [|by rewrite lookup_insert_ne].
    rewrite lookup_insert_eq, Hp. cbn. destruct Hin as [Hin| ->]; [|done]. rewrite (incoming_delete _ _ _ p Hc), b2n_true in Hin by done. lia. }
  intros q c Hq. apply lookup_insert_Some in Hq as [[<- <-]|[Hne Hq]]; unfold len_ok; [rewrite Hn|]; erewrite Hf by done.
  - pose proof (Hlen _ _ Hp) as Hl. unfold len_ok in Hl. lia.
  - by apply (Hlen _ _ Hq).
Qed.

Lemma good_alloc_one s own p b x a m : pinv (base := base) s m own -> lens_ok (pb_tab s) -> m !! p = None ->
  pinv (base := base) (s <| pb_ram := a |> <| pb_tab := <[p := b]> (pb_tab s) |>) (<[p := x]> m) ({[+ p +]} ⊎ own) ->
  pb_next b = None -> pb_tot_len b = pb_len b -> good (s <| pb_ram := a |> <| pb_tab := <[p := b]> (pb_tab s) |>) ({[+ p +]} ⊎ own).
Proof.
  intros Hi Hlen Hm Hi' Hn Hb. eexists. split; [exact Hi'|]. ptab. pose proof (tab_fresh _ _ _ _ Hi Hm) as Hp.
  intros q c Hq. apply lookup_insert_Some in Hq as [[<- <-]|[Hne Hq]]; unfold len_ok; [rewrite Hn; cbn; lia|].
  rewrite (ptr_tot_frame (pb_tab s)); [by apply (Hlen _ _ Hq)|]. intros z Ez. destruct (pinv_closed _ _ _ Hi _ _ _ Hq Ez) as [d Hd].
  rewrite lookup_insert_ne by congruence. done.
Qed.

Lemma good_alloc s own layer length type : good s own -> pop_ok s own (o_alloc layer length type) ->
  sto_wp (pbuf_alloc layer length type) (fun r s' => good s' (next_ms r ⊎ own)) s.
Proof.
  intros Hg (Hlen16 & Hlay & Hty). pose proof Hg as Hg0. open_good Hg.
  assert (good s (∅ ⊎ own)) as HgN by (by rewrite (left_id_L ∅ (⊎))).
  assert (type = PBUF_REF \/ type = PBUF_ROM -> sto_wp (pbuf_alloc layer length type) (fun r s' => good s' (next_ms r ⊎ own)) s) as Href.
  { intros Ht. unfold pbuf_alloc. replace ((type =? PBUF_REF) || (type =? PBUF_ROM)) with true by (by destruct Ht as [-> | ->]).
    eapply swp_alloc_reference; [exact Hi|done|done| |done|].
    - intros x Hx Ha. apply arena_low in Ha. unfold is_u16 in Hlen16. lia.
    - intros p a s' Hp Hi' _. by eapply good_alloc_one. }
  destruct Hty as [-> |[-> |Hty]]; [| |by apply Href].
  - eapply swp_alloc_ram; [exact Hi|done|done|done|]. intros p a sz b s' Hp Hi' _. by eapply good_alloc_one.
  - eapply swp_alloc_pool; [exact Hi|done|done| |].
    + intros s' Hi' Et _. exists m. cbn [next_ms]. rewrite (left_id_L ∅ (⊎)), Et. done.
    + intros h l s' m' Hps. pose proof Hps as [Hi' Hc _ Ht _ _ Hts]. exists m'. split; [done|].
      eapply (lens_packet (pb_tab s)); [done|by eapply pinv_closed|exact Hc|exact Hts| |].
      * intros x Hx c Hcx. exists c. rewrite Ht, decide_False by done. split; [done|]. by destruct c.
      * intros a b x Ha Hx Hal Hxl _. destruct (pinv_closed _ _ _ Hi _ _ _ Ha Hx) as [d Hd]. rewrite Ht, decide_True in Hd by done. done.
Qed.

Lemma good_set_payload s own p x : good s own -> pop_ok s own (o_set_payload p x) ->
  sto_wp (run_pop (o_set_payload p x)) (fun r s' => good s' own) s.
Proof.
  intros Hg (b & Hb & Hc & Hx). open_good Hg. cbn [run_pop]. apply swp_bind, swp_bind. eapply swp_deref; [done|]. apply swp_mod, swp_ret.
  eapply good_put; [done..|by right|done|done|]. eapply pinv_put; [done..|]. destruct (pi_ok _ _ _ Hi _ _ Hb) as [? ? ? (sz & Hm & Hsz & _) ? ? ?].
  by constructor; try done; exists sz.
Qed.

Lemma good_ref s own p : good s own -> pop_ok s own (o_ref p) -> sto_wp (pbuf_ref (Some p)) (fun _ s' => good s' ({[+ p +]} ⊎ own)) s.
Proof.
  intros Hg (b & Hb & Hr). open_good Hg. eapply swp_pbuf_ref; [done..|]. intros s' Hi'. exists m. split; [done|].
  eapply lens_shape; [exact Hlen|by eapply pinv_closed|]. intros x c Hc. unfold s' in Hc. cbn [setf pb_tab] in Hc.
  apply lookup_insert_Some in Hc as [[<- <-]|[_ Hc]]; [by exists b|by apply shape_refl].
Qed.

Lemma good_free s own p : good s ({[+ p +]} ⊎ own) -> sto_wp (pbuf_free (Some p)) (fun _ s' => good s' own) s.
Proof.
  intros Hg. open_good Hg. destruct (own_chain _ _ _ p Hi) as (b & l & Hb & Hl); [multiset_solver|].
  eapply swp_pbuf_free; [exact Hi|exact Hl|]. intros a s' Hi' _. eexists. split; [exact Hi'|].
  eapply lens_shape; [exact Hlen|by eapply pinv_closed|]. by apply (free_tab_shape _ _ _ Hl).
Qed.

Lemma elem_catted n t l k x : x ∈ (catted n t l ++ k).*1 <-> x ∈ l.*1 \/ x ∈ k.*1.
Proof. by rewrite fmap_app, elem_of_app, catted_fst. Qed.

Lemma good_cat s own h t l k : good s ({[+ t +]} ⊎ own) -> chain (pb_tab s) (Some h) l -> chain (pb_tab s) (Some t) k ->
  (forall x, x ∈ l.*1 -> x ∉ k.*1) -> sole (pb_tab s) l.*1 -> ptr_tot (pb_tab s) (Some h) + ptr_tot (pb_tab s) (Some t) < 65536 ->
  sto_wp (pbuf_cat (Some h) (Some t)) (fun _ s' => good s' own /\ pb_tab s' !! t = pb_tab s !! t) s.
Proof.
  intros Hg Hl Hk Hd Hs Hsum. open_good Hg.
  destruct (own_chain _ _ _ t Hi) as (tb & k' & Ht & Hk'); [multiset_solver|].
  destruct l as [|[h' hb] l0] eqn:El; [done|]. destruct Hl as ([= <-] & Hh & Hl0). rewrite <- El in *.
  assert (chain (pb_tab s) (Some h) l) as Hl by (rewrite El; by split_and!).
  destruct (pinv_tots _ _ _ _ _ _ Hi Hlen Hh Hl) as [Htl [Hl1 Hl2]]. destruct (pinv_tots _ _ _ _ _ _ Hi Hlen Ht Hk) as [Htk [Hk1 Hk2]].
  cbn [ptr_tot] in Hsum. rewrite Hh, Ht in Hsum.
  assert (t ∈ k.*1) as Htk' by (destruct k as [|[a b] k]; [done|]; destruct Hk as ([= <-] & _); apply list_elem_of_here).
  eapply swp_pbuf_cat; [exact Hi|exact Hl|exact Hk|exact Ht|exact Hd|]. intros s' Hi' _ Hf Hc.
  split; [|apply Hf; intros Hin; by apply (Hd _ Hin)]. exists m. split; [done|].
  eapply (lens_packet (pb_tab s) _ _ _ (pb_tot_len hb + pb_tot_len tb)); [done|by eapply pinv_closed|exact Hc| | |].
  - apply tots_catted; try done; [lia|lia|]. apply Forall_forall. intros [a b] Hin.
    pose proof (po_tot _ _ _ (pi_ok _ _ _ Hi _ _ (chain_lookup _ _ _ _ _ Hl Hin))) as Hu. unfold is_u16 in Hu. cbn. lia.
  - intros x Hx c Hcx. exists c. rewrite Hf in Hcx by (intros ?; apply Hx, elem_catted; by left). split; [done|]. by destruct c.
  - intros a b x Ha Hx Hal Hxl _. apply elem_catted in Hxl as [Hxl|Hxk].
    + destruct Hal. apply elem_catted. left. by eapply Hs.
    + rewrite Hf; [done|]. intros Hin. by apply (Hd _ Hin).
Qed.

Lemma good_dechain s own p : good s own -> pop_ok s own (o_dechain p) -> sto_wp (pbuf_dechain p) (fun _ s' => good s' own) s.
Proof.
  intros Hg [Hown Hin]. pose proof Hg as Hg0. open_good Hg. destruct (own_chain _ _ _ p Hi Hown) as (b & l & Hb & Hl).
  destruct (pinv_tots _ _ _ _ _ _ Hi Hlen Hb Hl) as [Htl [Hl1 Hl2]].
  eapply swp_pbuf_dechain; [exact Hi|exact Hb|done|done|done|]. intros r s' m' q c Hn Hq Hi' _ _ Hsh. exists m'. split; [done|].
  assert (u16 (pb_tot_len b - pb_len b) = pb_tot_len c) as Eu.
  { rewrite (Hlen _ _ Hb), Hn. cbn [ptr_tot]. rewrite Hq.
    replace (pb_len b + pb_tot_len c - pb_len b) with (pb_tot_len c) by lia. apply u16_small, (po_tot _ _ _ (pi_ok _ _ _ Hi _ _ Hq)). }
  rewrite Eu in Hsh. replace (c <| pb_tot_len := pb_tot_len c |>) with c in Hsh by (by destruct c). rewrite (insert_id (pb_tab s) q c Hq) in Hsh.
  eapply lens_shape; [|by eapply pinv_closed|exact Hsh].
  intros a d Hd. apply lookup_insert_Some in Hd as [[<- <-]|[Hne Hd]]; unfold len_ok; [cbn; lia|].
  rewrite (ptr_tot_frame (pb_tab s)); [by apply (Hlen _ _ Hd)|]. intros x Hx. rewrite lookup_insert_ne; [done|]. intros ->.
  rewrite (incoming_delete _ _ _ x Hd), b2n_true in Hin by done. lia.
Qed.

Lemma good_realloc s own p n : good s own -> pop_ok s own (o_realloc p n) -> sto_wp (pbuf_realloc p n) (fun _ s' => good s' own) s.
Proof.
  intros Hg (Hown & Hn & l & Hl & Hs). pose proof Hg as Hg0. open_good Hg. destruct (own_chain _ _ _ p Hi Hown) as (b0 & l' & Hb & Hl').
  clear l' Hl'. destruct (pinv_tots _ _ _ _ _ _ Hi Hlen Hb Hl) as [Htl [Hl1 Hl2]].
  eapply swp_pbuf_realloc; [exact Hi|exact Hb|exact Hl|exact Htl|done|done|].
  intros l1 q b l2 s' m' mk rem Hnew El Hrem Hi' Hc Hsh _ _. exists m'. split; [done|].
  assert (forall x, x ∈ (shrunk (pb_tot_len b0 - n) l1 ++ [(q, cut_off q b rem)]).*1 <-> x ∈ (l1 ++ [(q, b)]).*1) as Hel.
  { intros x. rewrite !fmap_app, !elem_of_app, shrunk_fst. done. }
  rewrite El in Htl. apply tots_app in Htl as (r & Ht1 & Ht2).
  eapply (lens_packet (pb_tab s) _ _ _ n); [done|by eapply pinv_closed|exact Hc| | |].
  - apply tots_app. exists rem. split.
    + pose proof (tots_shrunk _ (pb_tot_len b0 - n) _ _ Ht1) as Ht. pose proof (tots_sum _ _ _ Ht1).
      replace (pb_tot_len b0 - (pb_tot_len b0 - n)) with n in Ht by lia. by replace (r - (pb_tot_len b0 - n)) with rem in Ht by lia.
    + cbn. lia.
  - intros x Hx. apply Hsh. by rewrite <- Hel.
  - intros a c x Ha Hx Hal Hxl _. exfalso. rewrite Hel in Hal, Hxl.
    assert (forall y, y ∈ l.*1 <-> y ∈ (l1 ++ [(q, b)]).*1 \/ y ∈ l2.*1) as Hsp.
    { intros y. rewrite El, !fmap_app, fmap_cons, !elem_of_app, elem_of_cons. cbn. rewrite list_elem_of_singleton. tauto. }
    assert (a ∈ l2.*1) as Ha2.
    { destruct (proj1 (Hsp a)); [eapply Hs; [exact Ha|exact Hx|apply Hsp; by left]|done|done]. }
    assert (chain (pb_tab s) (pb_next b) l2) as Hl2' by (rewrite El in Hl; by destruct (chain_suffix _ _ _ _ _ _ Hl) as (_ & _ & ?)).
    assert (x ∈ l2.*1) as Hx2.
    { apply list_elem_of_fmap in Ha2 as ([a' c'] & E & Hin). cbn in E. subst a'. pose proof (chain_lookup _ _ _ _ _ Hl2' Hin).
      replace c' with c in Hin by congruence. by eapply chain_closed. }
    pose proof (chain_nodup _ _ _ Hl) as Hnd. rewrite El, (cons_middle (q, b)), app_assoc, fmap_app in Hnd.
    apply NoDup_app in Hnd as (_ & Hnd & _). by apply (Hnd x).
Qed.

Lemma good_remove_header s own p n : good s own -> p ∈ own -> 0 <= n -> incoming (pb_tab s) p = 0%nat ->
  sto_wp (pbuf_remove_header (Some p) n) (fun _ s' => good s' own) s.
Proof.
  intros Hg Hown Hn Hin. pose proof Hg as Hg0. open_good Hg. destruct (own_chain _ _ _ p Hi Hown) as (b & l & Hb & Hl).
  destruct (pinv_tots _ _ _ _ _ _ Hi Hlen Hb Hl) as [_ [Hl1 Hl2]]. destruct (decide (n < 65536)).
  - eapply swp_remove_header; [exact Hi|exact Hb|unfold is_u16; lia|lia|done|]. intros _ s' Hi'. eapply good_put; [done..|by left|done|cbn; lia|done].
  - unfold pbuf_remove_header. destruct (Z.ltb_spec 0xFFFF n); [by apply swp_ret|lia].
Qed.

Lemma good_add_header s own p n : good s own -> p ∈ own -> 0 <= n -> incoming (pb_tab s) p = 0%nat ->
  sto_wp (pbuf_add_header (Some p) n) (fun _ s' => good s' own) s.
Proof.
  intros Hg Hown Hn Hin. pose proof Hg as Hg0. open_good Hg. destruct (own_chain _ _ _ p Hi Hown) as (b & l & Hb & Hl).
  destruct (pinv_tots _ _ _ _ _ _ Hi Hlen Hb Hl) as [_ [Hl1 Hl2]]. destruct (decide (n < 65536)).
  - eapply swp_add_header; [exact Hi|exact Hb|unfold is_u16; lia|lia|done|]. intros _ _ s' Hi'. eapply good_put; [done..|by left|done|cbn; lia|done].
  - unfold pbuf_add_header, pbuf_add_header_impl. destruct (Z.ltb_spec 0xFFFF n); [by apply swp_ret|lia].
Qed.

(** Taking the first buffer off a packet nobody else has: [next] is cleared, then it is
    freed. *)
Lemma good_behead s own p b : good s ({[+ p +]} ⊎ own) -> pb_tab s !! p = Some b -> pb_ref b = 1 ->
  sto_wp (put_pbuf p (b <| pb_next := None |>) ;?; pbuf_free (Some p))
    (fun _ s' => good s' (next_ms (pb_next b) ⊎ own) /\ pb_tab s' = delete p (pb_tab s) /\
       exists m', (forall a c, pb_tab s' !! a = Some c -> pbuf_ok m' a c) /\ kept m' s s') s.
Proof.
  intros Hg Hp Hr. open_good Hg. apply swp_bind, swp_mod. set (b' := b <| pb_next := None |>). set (s1 := s <| pb_tab := _ |>).
  assert (pinv (base := base) s1 m ({[+ p +]} ⊎ (next_ms (pb_next b) ⊎ own))) as Hi1.
  { destruct (pb_next b) as [n|] eqn:En; cbn [next_ms].
    - eapply pinv_own_equiv; [|by apply (pinv_unlink s m _ p b n Hi)]. multiset_solver.
    - rewrite (left_id_L ∅ (⊎)). replace s1 with s; [done|]. unfold s1, b'. rewrite <- (put_same s p b Hp) at 1. destruct b; cbn in En; by subst. }
  assert (pb_tab s1 !! p = Some b') as Hp1 by (unfold s1; ptab; apply lookup_insert_eq).
  eapply (swp_pbuf_free s1 m _ p [(p, b')]); [exact Hi1|by split_and!|].
  assert (free_map lose_ref (pb_tab s1) [(p, b')] = delete p (pb_tab s)) as Et.
  { cbn [free_map]. change (pb_ref b') with (pb_ref b). rewrite Hr. cbn [Z.eqb Pos.eqb]. unfold s1. ptab. by rewrite delete_insert_eq. }
  rewrite Et. intros a s' Hi' Hk'. split_and!; [|done|eexists; split; [apply Hi'|exact Hk']]. eexists. split; [exact Hi'|].
  eapply lens_shape; [exact Hlen|by eapply pinv_closed|]. intros x c Hc. unfold s' in Hc. cbn [setf pb_tab] in Hc. apply lookup_delete_Some in Hc as [_ Hc]. by apply shape_refl.
Qed.

Lemma good_free_header_loop l : forall fuel s own p n, good s (next_ms p ⊎ own) -> is_u16 n -> chain (pb_tab s) p l ->
  Forall (fun x => pb_ref x.2 = 1) l -> (length l <= fuel)%nat ->
  sto_wp (free_header_loop fuel p n) (fun r s' => good s' (next_ms r ⊎ own)) s.
Proof.
  induction l as [|[a b] l IH]; intros fuel s own p n Hg Hn Hl Hf Hfuel.
  - cbn in Hl. subst p. destruct fuel; by apply swp_ret.
  - pose proof (chain_nodup _ _ _ Hl) as Hnd. rewrite fmap_cons in Hnd. apply NoDup_cons in Hnd as [Hnd _].
    destruct Hl as (-> & Ha & Hl). apply Forall_cons in Hf as [Hr Hf]. cbn in Hr. destruct fuel as [|fuel]; [cbn in Hfuel; lia|].
    cbn [free_header_loop]. apply swp_if; intros E; [by apply swp_ret|]. apply swp_bind. eapply swp_deref; [done|].
    apply swp_if; intros E'.
    + pose proof (good_behead s own a b Hg Ha Hr) as Hb. apply swp_run in Hb as (r & s1 & E1 & Hg1 & Et & _). apply swp_bind.
      unfold sto_bind at 1 in E1. unfold sto_wp. unfold put_pbuf, sto_mod in E1 |- *. unfold sto_bind. rewrite E1.
      apply IH; [done|apply u16_range| |done|cbn in Hfuel; lia]. rewrite Et. by apply chain_delete.
    + apply swp_bind. eapply swp_mono; [apply (good_remove_header s ({[+ a +]} ⊎ own)); [exact Hg|multiset_solver|unfold is_u16 in Hn; lia|]|].
      * open_good Hg. destruct (pi_ref _ _ _ Hi _ _ Ha) as [Er _]. cbn [next_ms] in Er. rewrite mult_cons, b2n_true in Er by done. lia.
      * intros r s' Hg'. by apply swp_ret.
Qed.

Lemma good_write s own p off d : good s own -> pop_ok s own (o_write p off d) -> sto_wp (run_pop (o_write p off d)) (fun _ s' => good s' own) s.
Proof.
  intros Hg (b & Hb & Hc & Hoff & Hd). open_good Hg. cbn [run_pop]. apply swp_bind, swp_bind. eapply swp_deref; [done|]. apply swp_mod, swp_ret.
  exists m. split; [|done]. apply pinv_store; [done|]. eapply mrep_store; [apply (pi_mem _ _ _ Hi)|].
  destruct (po_block _ _ _ (pi_ok _ _ _ Hi _ _ Hb)) as (sz & Hm & _ & Hin). destruct (Hin Hc). exists p, (pb_src b), sz. split; [done|]. lia.
Qed.

(** Every operation the rules permit returns and keeps the invariant. *)
Lemma good_step s own o : good s own -> pop_ok s own o -> sto_wp (run_pop o) (fun r s' => good s' (own_after o r own)) s.
Proof.
  intros Hg Hok.
  assert (forall {R} (c : STO (pbufs A) R) own', sto_wp c (fun _ s' => good s' own') s -> sto_wp (c ;?; sto_ret None) (fun (_ : option Z) s' => good s' own') s) as Hret.
  { intros R c own' Hw. apply swp_bind. eapply swp_mono; [exact Hw|]. intros r s' Hg'. by apply swp_ret. }
  destruct o as [| |p|p|h t|h t|p|p n|p n|p n|p n|]; cbn [own_after run_pop].
  - by apply good_alloc.
  - by apply good_set_payload.
  - by apply Hret, good_ref.
  - apply Hret, good_free. cbn in Hok. by rewrite <- own_split.
  - destruct Hok as (Ht & l & k & Hl & Hk & Hd & Hs & Hsum). apply Hret. rewrite (own_split t own Ht) in Hg.
    eapply swp_mono; [by apply (good_cat s (own ∖ {[+ t +]}) h t l k)|]. by intros r s' [].
  - destruct Hok as (Ht & l & k & b & Hl & Hk & Hd & Hs & Hsum & Hb & Hr). apply Hret, swp_bind. rewrite (own_split t own Ht) in Hg.
    eapply swp_mono; [by apply (good_cat s (own ∖ {[+ t +]}) h t l k)|]. intros r s' [Hg' E]. rewrite (own_split t own Ht).
    apply good_ref; [done|]. exists b. by rewrite E.
  - by apply Hret, good_dechain.
  - by apply Hret, good_realloc.
  - destruct Hok as (Ho & Hn & Hin). by apply Hret, good_add_header.
  - destruct Hok as (Ho & Hn & Hin). by apply Hret, good_remove_header.
  - destruct Hok as (Ho & Hn & l & Hl & Hf). rewrite (own_split p own Ho) in Hg. unfold pbuf_free_header. apply swp_bind, swp_get.
    eapply good_free_header_loop; [exact Hg|done|exact Hl|done|]. unfold chain_fuel. pose proof (chain_length _ _ _ Hl). lia.
  - by apply good_write.
Qed.

(** ** The states of a client *)

(** From a memory in which only [base] is out. *)
Inductive preach : pbufs A -> gmultiset Z -> Prop :=
  | preach_init s m : pb_tab s = ∅ -> mrep (pb_ram s) m -> dom m = base -> preach s ∅
  | preach_step s own o r s' : preach s own -> pop_ok s own o -> run_pop o s = Some (r, s') -> preach s' (own_after o r own).

Lemma preach_good s own : preach s own -> good s own.
Proof.
  induction 1 as [s m Et Hm Hd|s own o r s' Hr IH Hok E].
  - exists m. rewrite Et. split; [|done]. constructor; rewrite ?Et; try done.
    + intros p Hp. by apply gmultiset_elem_of_empty in Hp.
    + intros p. rewrite lookup_empty, <- Hd. by rewrite elem_of_dom.
  - pose proof (good_step _ _ _ IH Hok) as Hw. unfold sto_wp in Hw. by rewrite E in Hw.
Qed.

(** A buffer with the longest chain behind it has no [next] pointer to it. *)
Lemma pinv_empty s m : pinv (base := base) s m ∅ -> pb_tab s = ∅.
Proof.
  intros Hi. apply map_empty. intros p. destruct (pb_tab s !! p) as [b|] eqn:Hp; [exfalso|done].
  assert (forall n p b l, pb_tab s !! p = Some b -> chain (pb_tab s) (Some p) l -> (size (pb_tab s) < n + length l)%nat -> False) as Hgo.
  { clear p b Hp. induction n as [|n IH]; intros p b l Hp Hl Hn; [apply chain_length in Hl; lia|].
    destruct (pi_ref _ _ _ Hi _ _ Hp) as [Er Hr]. rewrite multiplicity_empty in Er.
    assert (filter (points_to p) (pb_tab s) <> ∅) as Hne by (intros E; unfold incoming in Er; rewrite E, map_size_empty in Er; lia).
    apply map_choose in Hne as (a & c & Ha). apply map_lookup_filter_Some in Ha as [Ha Hc]. unfold points_to in Hc. cbn in Hc.
    apply (IH a c ((a, c) :: l)); [done| |cbn; lia]. split_and!; [done|done|by rewrite Hc]. }
  destruct (pi_chain _ _ _ Hi _ _ Hp) as [l Hl]. eapply (Hgo (S (size (pb_tab s)))); [exact Hp|exact Hl|lia].
Qed.

(** C10: In every state a client reaches by the rules, each packet buffer's reference
    count is exactly the number of [next] pointers and client pointers to it (and between
    1 and 255), every pointer a client holds is to a live buffer, the [next] pointers lead
    from every buffer to an end, each buffer lies in a block of its own with its data
    inside it or outside the memory handed out, no other block is out but those that were
    out at the start; and every operation called by the rules returns: no loop along a
    chain runs on, and no pointer followed leads to no buffer. *)
Theorem pbuf_refs_exact s own : preach s own -> exists m, mrep (pb_ram s) m /\
  (forall p b, pb_tab s !! p = Some b ->
     pb_ref b = Z.of_nat (incoming (pb_tab s) p + multiplicity p own) /\ 1 <= pb_ref b <= 255 /\
     has_chain (pb_tab s) (Some p) /\ pbuf_ok m p b) /\
  (forall p, p ∈ own -> is_Some (pb_tab s !! p)) /\ accounted base (pb_tab s) m /\
  (forall o, pop_ok s own o -> exists r s', run_pop o s = Some (r, s')).
Proof.
  intros Hr. pose proof (preach_good _ _ Hr) as Hg. pose proof Hg as (m & [Hm Hok Hch Href Ho Ha] & _). exists m. split_and!; try done.
  2: { intros o Ho'. pose proof (good_step _ _ _ Hg Ho') as Hw. apply swp_run in Hw as (r & s' & E & _). by exists r, s'. }
  intros p b Hp. destruct (Href _ _ Hp) as [E [H1 H2]]. split_and!; [done|done|done|by eapply Hch|by apply Hok].
Qed.

(** C12: The lengths of a packet are well-formed in every state a client reaches: along
    any chain each buffer's [tot_len] is the sum of the [len]s from it to the end, and all
    of them fit their 16 bits. *)
Theorem pbuf_lengths_typed s own p l : preach s own -> chain (pb_tab s) p l -> forall l1 a b l2, l = l1 ++ (a, b) :: l2 ->
  pb_tot_len b = pb_len b + sum_len l2 /\ is_u16 (pb_len b) /\ is_u16 (pb_tot_len b).
Proof.
  intros Hr Hl l1 a b l2 ->. destruct (preach_good _ _ Hr) as (m & Hi & Hlen). pose proof (chain_suffix _ _ _ _ _ _ Hl) as Hc.
  pose proof Hc as (_ & Ha & Hl2). destruct (pinv_tots _ _ _ _ _ _ Hi Hlen Ha Hc) as [Ht _]. apply tots_sum in Ht.
  destruct (pi_ok _ _ _ Hi _ _ Ha). split_and!; [|done|done]. rewrite Ht. cbn. unfold sum_len. lia.
Qed.

(** Nothing is lost: once the client has given up all its pointers there is no packet
    buffer left, and the only blocks out are those that were out at the start. *)
Theorem pbuf_nothing_leaks s : preach s ∅ -> pb_tab s = ∅ /\ exists m, mrep (pb_ram s) m /\ dom m = base.
Proof.
  intros Hr. destruct (preach_good _ _ Hr) as (m & Hi & _). pose proof (pinv_empty _ _ Hi) as Et. split; [done|].
  exists m. split; [apply Hi|]. apply set_eq. intros p. rewrite elem_of_dom. pose proof (pi_all _ _ _ Hi p) as Ha. by rewrite Et in Ha.
Qed.

End client.
