(* ===== verification/PbufData.v ===== *)
(** * PbufData: the bytes of a packet

    The content of a chain is one list of bytes; the operations of pbuf.c that read and
    write it are operations on that list, wherever the buffers are split: copying out,
    copying in, skipping, taking off and putting on headers, cutting and joining. *)

From stdpp Require Import gmultiset.
From S2P Require Import Prelude Mem NetMem Pbuf PbufProps PbufOps.

(** ** Lists *)

Lemma zlen_take_min {X} n (l : list X) : 0 <= n -> zlen (take (Z.to_nat n) l) = Z.min n (zlen l).
Proof. intros. unfold zlen. rewrite length_take. lia. Qed.
Lemma zlen_drop_max {X} n (l : list X) : 0 <= n -> zlen (drop (Z.to_nat n) l) = Z.max 0 (zlen l - n).
Proof. intros. unfold zlen. rewrite length_drop. lia. Qed.

Lemma take_app_z {X} n (l k : list X) : 0 <= n -> 
  take (Z.to_nat n) (l ++ k) = take (Z.to_nat n) l ++ take (Z.to_nat (n - zlen l)) k.
Proof. intros. unfold zlen. rewrite take_app. do 2 f_equal. lia. Qed.
Lemma drop_app_z {X} n (l k : list X) : 0 <= n ->
  drop (Z.to_nat n) (l ++ k) = drop (Z.to_nat n) l ++ drop (Z.to_nat (n - zlen l)) k.
Proof. intros. unfold zlen. rewrite drop_app. do 2 f_equal. lia. Qed.
Lemma take_all_z {X} n (l : list X) : zlen l <= n -> take (Z.to_nat n) l = l.
Proof. unfold zlen. intros. apply take_ge. lia. Qed.
Lemma drop_all_z {X} n (l : list X) : zlen l <= n -> drop (Z.to_nat n) l = [].
Proof. unfold zlen. intros. apply drop_ge. lia. Qed.
Lemma take_none_z {X} n (l : list X) : n <= 0 -> take (Z.to_nat n) l = [].
Proof. intros. by replace (Z.to_nat n) with 0%nat by lia. Qed.
Lemma drop_none_z {X} n (l : list X) : n <= 0 -> drop (Z.to_nat n) l = l.
Proof. intros. by replace (Z.to_nat n) with 0%nat by lia. Qed.
Lemma drop_drop_z {X} n k (l : list X) : 0 <= n -> 0 <= k -> drop (Z.to_nat n) (drop (Z.to_nat k) l) = drop (Z.to_nat (k + n)) l.
Proof. intros. rewrite drop_drop. f_equal. lia. Qed.

Section data.
Context {A : Type} `{NetMem A, !NetMemOk A, CustomPbuf A} {base : gset Z}.

(** ** Content *)

Definition bytes (s : pbufs A) (b : pbuf) : list Z := ram_read (pb_payload b) (pb_len b) (pb_ram s).
Fixpoint content (s : pbufs A) (l : list (Z * pbuf)) : list Z :=
  match l with [] => [] | (_, b) :: l => bytes s b ++ content s l end.

Lemma ram_read_zlen p n a : 0 <= n -> zlen (ram_read p n a) = n.
Proof. intros. unfold ram_read, zlen. rewrite length_fmap, length_seqZ. lia. Qed.

Lemma ram_read_lookup p n (a : A) i : 0 <= i < n -> mem_get (ram_read p n a) i = ram_byte a (p + i).
Proof.
  intros Hi. unfold mem_get, ram_read. rewrite list_lookup_fmap, lookup_seqZ_lt by lia. cbn. f_equal. lia.
Qed.

Lemma ram_read_ext p n (a a' : A) : (forall x, p <= x < p + n -> ram_byte a' x = ram_byte a x) -> ram_read p n a' = ram_read p n a.
Proof.
  intros He. unfold ram_read. apply list_fmap_ext. intros i x Hx. apply He. apply lookup_seqZ in Hx. lia.
Qed.

Lemma ram_read_app p n k (a : A) : 0 <= n -> 0 <= k -> ram_read p (n + k) a = ram_read p n a ++ ram_read (p + n) k a.
Proof.
  intros Hn Hk. unfold ram_read. rewrite seqZ_app by done. by rewrite fmap_app.
Qed.

Lemma ram_read_sub p n o k (a : A) : 0 <= o -> 0 <= k -> o + k <= n ->
  ram_read (p + o) k a = take (Z.to_nat k) (drop (Z.to_nat o) (ram_read p n a)).
Proof.
  intros Ho Hk Hn. replace n with (o + (k + (n - o - k))) by lia. rewrite ram_read_app, drop_app_z by lia.
  rewrite drop_all_z by (rewrite ram_read_zlen; lia). cbn [app]. rewrite ram_read_zlen, drop_none_z by lia.
  rewrite ram_read_app, take_app_z by lia. rewrite take_all_z by (rewrite ram_read_zlen; lia).
  rewrite ram_read_zlen, take_none_z by lia. by rewrite app_nil_r.
Qed.

Lemma content_app s l k : content s (l ++ k) = content s l ++ content s k.
Proof. induction l as [|[a b] l IH]; [done|]. cbn. by rewrite IH, app_assoc. Qed.

Lemma content_zlen s l : Forall (fun x => 0 <= pb_len x.2) l -> zlen (content s l) = sum_len l.
Proof.
  induction 1 as [|[a b] l Hb Hl IH]; [done|]. cbn in *. unfold bytes. rewrite zlen_app, ram_read_zlen, IH by done. done.
Qed.

Lemma content_ext s s' l : (forall a b x, (a, b) ∈ l -> pb_payload b <= x < pb_payload b + pb_len b ->
  ram_byte (pb_ram s') x = ram_byte (pb_ram s) x) -> content s' l = content s l.
Proof.
  induction l as [|[a b] l IH]; intros He; [done|]. cbn. f_equal.
  - apply ram_read_ext. intros x Hx. apply (He a b x); [apply list_elem_of_here|done].
  - apply IH. intros c d x Hin. apply (He c d x). by apply list_elem_of_further.
Qed.

(** The data of a buffer is in its block, or outside all. *)
Lemma data_owned m p b x : pbuf_ok m p b -> pb_payload b <= x < pb_payload b + pb_len b -> owned m x \/ ~ arena x.
Proof.
  intros [_ _ _ (sz & Hm & _ & Hin) Hout _ _] Hx.
  destruct (decide (Z.land (pb_type_internal b) PBUF_TYPE_FLAG_STRUCT_DATA_CONTIGUOUS = 0)) as [E|E].
  - right. apply Hout; [|done]. intros Hc. by destruct Hc.
  - left. destruct (Hin E). exists p, (pb_src b), sz. split; [done|]. lia.
Qed.

Lemma content_kept m s s' l : kept m s s' -> (forall a b, (a, b) ∈ l -> pbuf_ok m a b) -> content s' l = content s l.
Proof. intros Hk Hl. apply content_ext. intros a b x Hin Hx. apply Hk. eapply data_owned; [by apply (Hl a b)|done]. Qed.

Lemma chain_lens s m own p l : pinv (base := base) s m own -> chain (pb_tab s) p l -> Forall (fun x => 0 <= pb_len x.2) l.
Proof.
  intros Hi Hl. apply Forall_forall. intros [a b] Hin. pose proof (po_len _ _ _ (pi_ok _ _ _ Hi _ _ (chain_lookup _ _ _ _ _ Hl Hin))) as Hu.
  unfold is_u16 in Hu. cbn. lia.
Qed.

(** ** Reading *)

Lemma copy_partial_loop_eq l : forall fuel s p d len off left n,
  chain (pb_tab s) p l -> Forall (fun x => is_u16 (pb_len x.2)) l -> sum_len l = n -> n < 65536 -> (length l <= fuel)%nat ->
  0 <= len -> 0 <= off < 65536 -> 0 <= left -> left + len <= zlen d -> left + len < 65536 ->
  let x := take (Z.to_nat len) (drop (Z.to_nat off) (content s l)) in
  copy_partial_loop fuel p d len off left left s = Some ((mem_write left x d, left + zlen x), s).
Proof.
  induction l as [|[a b] l IH]; intros fuel s p d len off left n Hl Hu Hn Hn16 Hf Hlen Hoff Hleft Hd H16 x.
  - cbn in Hl. subst p. assert (x = []) as -> by (unfold x; cbn; by rewrite drop_nil, take_nil).
    change (zlen []) with 0. rewrite mem_write_nil, Z.add_0_r. by destruct fuel.
  - destruct Hl as (-> & Ha & Hl). apply Forall_cons in Hu as [Hb Hu]. cbn in Hb. unfold is_u16 in Hb. destruct fuel as [|fuel]; [cbn in Hf; lia|].
    assert (0 <= sum_len l) as Hs0.
    { clear -Hu. induction Hu as [|[c e] l Hc Hl IH]; cbn in *; [lia|]. unfold sum_len, is_u16 in *. lia. }
    cbn [copy_partial_loop]. destruct (Z.eqb_spec len 0) as [->|Hne].
    { unfold x. cbn [Z.to_nat take]. rewrite mem_write_nil. change (zlen []) with 0. by rewrite Z.add_0_r. }
    unfold sto_bind at 1, deref at 1. rewrite Ha. cbn [length] in Hf. cbn [sum_len foldr snd] in Hn. fold (sum_len l) in Hn.
    assert (zlen (bytes s b) = pb_len b) as Hzb by (apply ram_read_zlen; lia).
    unfold x. cbn [content].
    destruct (negb (off =? 0) && (pb_len b <=? off)) eqn:E.
    + apply andb_true_iff in E as [E1 E2%Z.leb_le]. rewrite u16_small by (unfold is_u16; lia).
      rewrite (IH fuel s (pb_next b) d len (off - pb_len b) left (n - pb_len b)) by (try done; lia).
      rewrite drop_app_z by lia. rewrite (drop_all_z off (bytes s b)) by lia. by rewrite Hzb.
    + assert (off <= pb_len b) as Hob.
      { destruct (Z.eqb_spec off 0); [lia|]. cbn in E. apply Z.leb_gt in E. lia. }
      rewrite (u16_small (pb_len b - off)) by (unfold is_u16; lia).
      set (k := if len <? pb_len b - off then len else pb_len b - off).
      assert (0 <= k <= len /\ k <= pb_len b - off /\ (k = len \/ k = pb_len b - off)) as (Hk & Hk2 & Hk3) by (unfold k; case_if; lia).
      unfold sto_bind at 1, data_read. rewrite (ram_read_sub (pb_payload b) (pb_len b) off k) by lia. fold (bytes s b).
      set (y := take (Z.to_nat k) (drop (Z.to_nat off) (bytes s b))).
      assert (zlen y = k) as Hzy by (unfold y; rewrite zlen_take_min, zlen_drop_max, Hzb by lia; lia).
      rewrite !u16_small by (unfold is_u16; lia).
      rewrite (IH fuel s (pb_next b) (mem_write left y d) (len - k) 0 (left + k) (n - pb_len b)) by (rewrite ?mem_write_zlen; try done; lia).
      change (Z.to_nat 0) with 0%nat. cbn [drop].
      assert (take (Z.to_nat len) (drop (Z.to_nat off) (bytes s b ++ content s l)) = y ++ take (Z.to_nat (len - k)) (content s l)) as ->.
      { rewrite drop_app_z, take_app_z by lia. rewrite zlen_drop_max, Hzb by lia. rewrite (drop_none_z (off - pb_len b)) by lia.
        replace (Z.max 0 (pb_len b - off)) with (pb_len b - off) by lia.
        destruct Hk3 as [E3|E3]; [|f_equal; [|by rewrite E3]].
        - unfold y. rewrite E3. f_equal. rewrite (take_none_z (len - (pb_len b - off))), (take_none_z (len - len)) by lia. done.
        - unfold y. rewrite !take_all_z by (rewrite zlen_drop_max; lia). done. }
      rewrite zlen_app, Hzy. set (z := take _ _).
      assert (zlen z <= len - k) by (unfold z; rewrite zlen_take_min by lia; lia).
      rewrite <- mem_write_split by lia. rewrite Hzy, Z.add_assoc. done.
Qed.

(** [pbuf_copy_partial] *)
Lemma copy_partial_eq s own p l d len off : good (base := base) s own -> chain (pb_tab s) (Some p) l -> is_u16 len -> is_u16 off -> len <= zlen d ->
  let x := take (Z.to_nat len) (drop (Z.to_nat off) (content s l)) in
  pbuf_copy_partial (Some p) d len off s = Some ((mem_write 0 x d, zlen x), s).
Proof.
  intros Hg Hl Hlen Hoff Hd x. open_good Hg. unfold is_u16 in *. unfold pbuf_copy_partial, sto_bind, sto_get.
  destruct l as [|[a b] l0] eqn:El; [done|]. pose proof Hl as ([= <-] & Ha & _). rewrite <- El in *.
  destruct (pinv_tots _ _ _ _ _ _ Hi Hlen0 Ha Hl) as [Ht _]. apply tots_sum in Ht. pose proof (po_tot _ _ _ (pi_ok _ _ _ Hi _ _ Ha)) as Hu. unfold is_u16 in Hu.
  assert (Forall (fun x => is_u16 (pb_len x.2)) l) as Hf.
  { apply Forall_forall. intros [c e] Hin. eapply po_len, (pi_ok _ _ _ Hi), chain_lookup; [exact Hl|exact Hin]. }
  unfold x. rewrite (copy_partial_loop_eq l _ s (Some p) d len off 0 (sum_len l)); try done; try lia; [by rewrite El|].
  unfold chain_fuel. pose proof (chain_length _ _ _ Hl). lia.
Qed.

(** [pbuf_skip]: the buffer with byte [off] in it, if there is one. *)
Lemma skip_loop_eq l : forall fuel (s : pbufs A) p off, chain (pb_tab s) p l -> Forall (fun x => is_u16 (pb_len x.2)) l -> (length l <= fuel)%nat -> is_u16 off ->
  exists l1 l2, l = l1 ++ l2 /\ skip_loop fuel p off s = Some ((head_ptr l2, off - sum_len l1), s) /\ sum_len l1 <= off /\
    match l2 with [] => True | (_, b) :: _ => off - sum_len l1 < pb_len b end.
Proof.
  induction l as [|[a b] l IH]; intros fuel s p off Hl Hu Hf Hoff.
  - cbn in Hl. subst p. exists [], []. unfold is_u16 in Hoff. cbn. rewrite Z.sub_0_r. split_and!; [done|by destruct fuel|lia|done].
  - pose proof Hl as (-> & Ha & Hl'). apply Forall_cons in Hu as [Hb Hu]. cbn in Hb. unfold is_u16 in Hb, Hoff. destruct fuel as [|fuel]; [cbn in Hf; lia|].
    cbn [skip_loop]. unfold sto_bind at 1, deref at 1. rewrite Ha. destruct (Z.leb_spec (pb_len b) off).
    + rewrite u16_small by (unfold is_u16; lia).
      destruct (IH fuel s (pb_next b) (off - pb_len b)) as (l1 & l2 & -> & E & Hle & Hb2); [done|done|cbn in Hf; lia|unfold is_u16; lia|].
      exists ((a, b) :: l1), l2. cbn [sum_len foldr snd]. fold (sum_len l1). replace (off - (pb_len b + sum_len l1)) with (off - pb_len b - sum_len l1) by lia.
      split_and!; [done|done|lia|done].
    + exists [], ((a, b) :: l). cbn [sum_len foldr]. rewrite Z.sub_0_r. split_and!; [done|done|lia|done].
Qed.

(** ** Writing *)

Definition writable (l : list (Z * pbuf)) : Prop := Forall (fun x => is_contiguous x.2) l.

(** A write into the data of buffer [p] changes that and no other buffer. *)
Lemma swp_data_write s m own p b o d (Q : unit -> pbufs A -> Prop) : pinv (base := base) s m own -> pb_tab s !! p = Some b -> is_contiguous b ->
  0 <= o -> o + zlen d <= pb_len b ->
  (forall s', pinv (base := base) s' m own -> pb_tab s' = pb_tab s -> bytes s' b = mem_write o d (bytes s b) ->
     (forall q c, pb_tab s !! q = Some c -> q <> p -> bytes s' c = bytes s c) -> Q tt s') ->
  sto_wp (data_write (pb_payload b + o) d) Q s.
Proof.
  intros Hi Hp Hc Ho Hd HQ. apply swp_mod. pose proof (pi_ok _ _ _ Hi _ _ Hp) as Hok.
  destruct (po_block _ _ _ Hok) as (sz & Hm & _ & Hin). destruct (Hin Hc) as [Hlo Hhi]. pose proof (zlen_nonneg d) as Hd0.
  destruct (mrep_store _ m (pb_payload b + o) d (pi_mem _ _ _ Hi)) as [Ha Hb]; [exists p, (pb_src b), sz; split; [done|]; lia|].
  apply HQ; [by apply pinv_store|done| |].
  - unfold bytes. ptab. apply mem_get_ext; [by rewrite mem_write_zlen, !ram_read_zlen by lia|]. rewrite ram_read_zlen by lia. intros i Hi'.
    rewrite mem_get_write by (rewrite ?ram_read_zlen; lia). rewrite !ram_read_lookup by lia. rewrite Hb by (eapply data_owned; [exact Hok|lia]).
    replace (pb_payload b + i - (pb_payload b + o)) with (i - o) by lia.
    repeat case_if; try done; bool_prop; lia.
  - intros q c Hq Hne. unfold bytes. ptab. apply ram_read_ext. intros x Hx. pose proof (pi_ok _ _ _ Hi _ _ Hq) as Hokq.
    rewrite Hb by (by eapply data_owned). case_if; [|done]. exfalso. bool_prop.
    destruct (po_block _ _ _ Hokq) as (szq & Hmq & _ & Hinq).
    destruct (decide (Z.land (pb_type_internal c) PBUF_TYPE_FLAG_STRUCT_DATA_CONTIGUOUS = 0)) as [Ez|Ez].
    + eapply (po_outside _ _ _ Hokq); [intros Hcc; by destruct Hcc|exact Hx|].
      destruct (mrep_block _ _ _ _ _ (pi_mem _ _ _ Hi) Hm) as (_ & _ & _ & _ & Har). apply Har. lia.
    + destruct (Hinq Ez). destruct (mrep_disjoint _ _ _ _ _ _ _ _ (pi_mem _ _ _ Hi) Hm Hmq) as [Hdj|Hdj]; [congruence|lia|lia].
Qed.

Lemma mem_write_0 d buf : zlen d <= zlen buf -> mem_write 0 d buf = d ++ drop (Z.to_nat (zlen d)) buf.
Proof.
  intros Hd. pose proof (zlen_nonneg d). apply mem_get_ext.
  - rewrite mem_write_zlen, zlen_app, zlen_drop_max by lia. lia.
  - rewrite mem_write_zlen. intros i Hi. rewrite mem_get_write, mem_get_app by lia. replace (0 <=? i) with true by lia. cbn [andb].
    rewrite Z.add_0_l. case_if; bool_prop; [f_equal; lia|]. rewrite mem_get_drop by lia. f_equal. lia.
Qed.

Lemma content_bytes s s' l : (forall a b, (a, b) ∈ l -> bytes s' b = bytes s b) -> content s' l = content s l.
Proof.
  induction l as [|[a b] l IH]; intros He; [done|]. cbn. rewrite (He a b) by apply list_elem_of_here.
  f_equal. apply IH. intros c d Hin. apply (He c d). by apply list_elem_of_further.
Qed.

Lemma swp_take_loop l : forall fuel s m own p d n k (Q : unit -> pbufs A -> Prop),
  pinv (base := base) s m own -> chain (pb_tab s) p l -> writable l -> 0 <= n <= sum_len l -> 0 <= k -> k + n <= zlen d -> (length l <= fuel)%nat ->
  (forall s', pinv (base := base) s' m own -> pb_tab s' = pb_tab s -> content s' l = mem_read k n d ++ drop (Z.to_nat n) (content s l) ->
     (forall q c, pb_tab s !! q = Some c -> q ∉ l.*1 -> bytes s' c = bytes s c) -> Q tt s') ->
  sto_wp (take_loop fuel p d n k) Q s.
Proof.
  induction l as [|[a b] l IH]; intros fuel s m own p d n k Q Hi Hl Hw Hn Hk Hd Hf HQ.
  - cbn in Hn. assert (n = 0) as -> by lia. destruct fuel; apply swp_ret; by apply HQ.
  - pose proof (chain_nodup _ _ _ Hl) as Hnd. rewrite fmap_cons in Hnd. apply NoDup_cons in Hnd as [Hnd _].
    destruct (decide (n = 0)) as [->|Hn0].
    { destruct fuel; apply swp_ret; apply HQ; done. }
    pose proof (chain_lens _ _ _ _ _ Hi Hl) as Hlens. apply Forall_cons in Hlens as [Hlb Hlens]. cbn in Hlb.
    destruct Hl as (-> & Ha & Hl). apply Forall_cons in Hw as [Hc Hw]. cbn in Hc. destruct fuel as [|fuel]; [cbn in Hf; lia|].
    cbn [take_loop]. replace (n =? 0) with false by lia. apply swp_bind. eapply swp_deref; [done|].
    set (j := if pb_len b <? n then pb_len b else n).
    assert (0 <= j <= n /\ j <= pb_len b /\ (j = n \/ j = pb_len b)) as (Hj & Hj2 & Hj3) by (unfold j; case_if; bool_prop; lia).
    assert (zlen (mem_read k j d) = j) as Hzj by (apply mem_read_zlen; lia).
    assert (zlen (bytes s b) = pb_len b) as Hzb by (apply ram_read_zlen; lia).
    apply swp_bind. rewrite <- (Z.add_0_r (pb_payload b)). eapply swp_data_write; [exact Hi|done|done|lia|lia|].
    intros s1 Hi1 Et1 Eb1 Ho1. cbn [sum_len foldr snd] in Hn. fold (sum_len l) in Hn.
    eapply (IH fuel s1 m own (pb_next b) d (n - j) (k + j)); [exact Hi1|by rewrite Et1|done| |lia|lia|cbn in Hf; lia|].
    { pose proof (content_zlen s1 l Hlens) as Hz. pose proof (zlen_nonneg (content s1 l)). lia. }
    intros s' Hi' Et' Ec' Ho'. apply HQ; [done|congruence| |].
    + cbn [content]. rewrite Ec'. rewrite (Ho' a b) by (by rewrite ?Et1). rewrite Eb1, mem_write_0, Hzj by lia.
      assert (content s1 l = content s l) as ->.
      { apply content_bytes. intros q c Hin. apply (Ho1 q c); [by eapply chain_lookup|]. intros ->. apply Hnd. by apply (list_elem_of_fmap_2' fst) with (x := (a, c)). }
      rewrite drop_app_z by lia. rewrite Hzb. 
      assert (mem_read k n d = mem_read k j d ++ mem_read (k + j) (n - j) d) as -> by (rewrite <- mem_read_split by lia; f_equal; lia). rewrite <- !app_assoc. f_equal.
      destruct Hj3 as [E|E]; rewrite E.
      * rewrite (drop_none_z (n - pb_len b)) by lia. by rewrite Z.sub_diag.
      * rewrite (drop_all_z (pb_len b)), (drop_all_z n) by lia. done.
    + intros q c Hq Hin. apply not_elem_of_cons in Hin as [Hq1 Hq2]. cbn in Hq1. rewrite (Ho' q c); [|by rewrite Et1|done]. by apply (Ho1 q).
Qed.

(** [pbuf_take]: the packet starts with the data. *)
Lemma swp_pbuf_take s m own p b l d n (Q : Z -> pbufs A -> Prop) :
  pinv (base := base) s m own -> lens_ok (pb_tab s) -> pb_tab s !! p = Some b -> chain (pb_tab s) (Some p) l -> writable l -> 0 <= n <= zlen d ->
  (pb_tot_len b < n -> Q ERR_MEM s) ->
  (forall s', n <= pb_tot_len b -> pinv (base := base) s' m own -> pb_tab s' = pb_tab s ->
     content s' l = mem_read 0 n d ++ drop (Z.to_nat n) (content s l) ->
     (forall q c, pb_tab s !! q = Some c -> q ∉ l.*1 -> bytes s' c = bytes s c) -> Q ERR_OK s') ->
  sto_wp (pbuf_take (Some p) d n) Q s.
Proof.
  intros Hi Hlen Hp Hl Hw Hn HE HQ. destruct (pinv_tots _ _ _ _ _ _ Hi Hlen Hp Hl) as [Ht _]. apply tots_sum in Ht.
  unfold pbuf_take. apply swp_bind. eapply swp_deref; [done|]. apply swp_if; intros E; [apply swp_ret, HE; lia|].
  apply swp_bind, swp_get, swp_bind. eapply swp_take_loop; [exact Hi|exact Hl|done|lia|lia|lia| |].
  - unfold chain_fuel. pose proof (chain_length _ _ _ Hl). lia.
  - intros s' Hi' Et Ec Ho. apply swp_ret. apply HQ; [lia|done..].
Qed.

Lemma chain_u16 s m own p l : pinv (base := base) s m own -> chain (pb_tab s) p l -> Forall (fun x => is_u16 (pb_len x.2)) l.
Proof.
  intros Hi Hl. apply Forall_forall. intros [a b] Hin. eapply po_len, (pi_ok _ _ _ Hi), chain_lookup; [exact Hl|exact Hin].
Qed.

Lemma swp_pbuf_skip s m own p l off (Q : option Z * Z -> pbufs A -> Prop) :
  pinv (base := base) s m own -> chain (pb_tab s) p l -> is_u16 off ->
  (forall l1 l2, l = l1 ++ l2 -> sum_len l1 <= off -> match l2 with [] => True | (_, b) :: _ => off - sum_len l1 < pb_len b end ->
     Q (head_ptr l2, off - sum_len l1) s) ->
  sto_wp (pbuf_skip p off) Q s.
Proof.
  intros Hi Hl Hoff HQ. unfold pbuf_skip. apply swp_bind, swp_get. unfold sto_wp.
  destruct (skip_loop_eq l (chain_fuel s) s p off) as (l1 & l2 & El & -> & Hle & Hb); [done|by eapply chain_u16| |done|by apply HQ].
  unfold chain_fuel. pose proof (chain_length _ _ _ Hl). lia.
Qed.

Lemma mem_write_skip o d x y : zlen x <= o -> mem_write o d (x ++ y) = x ++ mem_write (o - zlen x) d y.
Proof.
  intros Ho. pose proof (zlen_nonneg x). apply mem_get_ext; [rewrite zlen_app, !mem_write_zlen, zlen_app; lia|].
  rewrite mem_write_zlen, zlen_app. intros i Hi. rewrite mem_get_write, !mem_get_app by (rewrite ?zlen_app; lia).
  destruct (Z.ltb_spec i (zlen x)); [case_if; [bool_prop; lia|done]|]. rewrite mem_get_write by lia.
  repeat case_if; bool_prop; try lia; f_equal; lia.
Qed.

(** Data split at [j], where the first buffer ends or the data does. *)
Lemma mem_write_halves o d j x y : 0 <= o -> 0 <= j <= zlen d -> o + j <= zlen x -> o + zlen d <= zlen x + zlen y -> j = zlen d \/ o + j = zlen x ->
  mem_write o d (x ++ y) = mem_write o (mem_read 0 j d) x ++ mem_read 0 (zlen d - j) (drop (Z.to_nat j) d) ++ drop (Z.to_nat (zlen d - j)) y.
Proof.
  intros Ho Hj Hx Hy Hc. set (d1 := mem_read 0 j d). set (d2 := drop (Z.to_nat j) d).
  assert (zlen d1 = j) as H1 by (apply mem_read_zlen; lia). assert (zlen d2 = zlen d - j) as H2 by (unfold d2; rewrite zlen_drop_max; lia).
  assert (d = d1 ++ d2) as E by (unfold d1, d2, mem_read; by rewrite take_drop).
  assert (mem_read 0 (zlen d - j) d2 = d2) as -> by (unfold mem_read; rewrite take_all_z, drop_none_z; [done|lia|rewrite drop_none_z by lia; lia]).
  rewrite E at 1. rewrite <- mem_write_split by (rewrite ?zlen_app; lia). rewrite mem_write_app by lia. rewrite H1.
  destruct Hc as [Hc|Hc].
  - assert (d2 = []) as -> by (apply nil_length_inv; unfold zlen in *; lia). rewrite mem_write_nil. cbn [app]. by rewrite drop_none_z by lia.
  - rewrite mem_write_skip by (rewrite mem_write_zlen; lia). rewrite mem_write_zlen, Hc, Z.sub_diag. rewrite mem_write_0, H2 by lia. done.
Qed.

(** [pbuf_take_at]: the data replaces the bytes from [off] on. *)
Lemma swp_pbuf_take_at s m own p b l d n off (Q : Z -> pbufs A -> Prop) :
  pinv (base := base) s m own -> lens_ok (pb_tab s) -> pb_tab s !! p = Some b -> chain (pb_tab s) (Some p) l -> writable l -> n = zlen d -> is_u16 n -> is_u16 off ->
  (pb_tot_len b <= off \/ pb_tot_len b < off + n -> Q ERR_MEM s) ->
  (forall s', off + n <= pb_tot_len b -> pinv (base := base) s' m own -> pb_tab s' = pb_tab s ->
     content s' l = mem_write off d (content s l) ->
     (forall q c, pb_tab s !! q = Some c -> q ∉ l.*1 -> bytes s' c = bytes s c) -> Q ERR_OK s') ->
  sto_wp (pbuf_take_at (Some p) d n off) Q s.
Proof.
  intros Hi Hlen Hp Hl Hw En Hn Hoff HE HQ. destruct (pinv_tots _ _ _ _ _ _ Hi Hlen Hp Hl) as [Ht _]. apply tots_sum in Ht.
  unfold pbuf_take_at. apply swp_bind. eapply swp_pbuf_skip; [exact Hi|exact Hl|done|]. intros l1 l2 El Hle Hb2.
  unfold is_u16 in Hn, Hoff. pose proof (chain_lens _ _ _ _ _ Hi Hl) as Hlens. rewrite El in Hlens. apply Forall_app in Hlens as [Hlens1 Hlens2].
  pose proof (sum_app l1 l2) as Hsum. rewrite <- El in Hsum. cbn [fst snd].
  destruct l2 as [|[a c] l2]; [cbn [head_ptr]; apply swp_ret, HE; cbn in Hsum; lia|]. cbn [head_ptr].
  pose proof Hl as Hl'. rewrite El in Hl'. pose proof (chain_suffix _ _ _ _ _ _ Hl') as Hc2. pose proof Hc2 as (_ & Ha & Hcn).
  destruct (pinv_tots _ _ _ _ _ _ Hi Hlen Ha Hc2) as [Ht2 _]. apply tots_sum in Ht2.
  pose proof (chain_nodup _ _ _ Hl') as Hnd. rewrite fmap_app, fmap_cons in Hnd. apply NoDup_app in Hnd as (_ & Hd12 & Hnd). apply NoDup_cons in Hnd as [Hnda _].
  cbn in Hd12, Hnda. unfold writable in Hw. rewrite El in Hw. apply Forall_app in Hw as [_ Hw]. apply Forall_cons in Hw as [Hwa Hw]. cbn in Hwa.
  apply Forall_cons in Hlens2 as [Hlc Hlens2]. cbn in Hlc. pose proof (zlen_nonneg d). assert (sum_len ((a, c) :: l2) = pb_len c + sum_len l2) as Hsc by done.
  pose proof (po_len _ _ _ (pi_ok _ _ _ Hi _ _ Ha)) as Huc. unfold is_u16 in Huc. set (o := off - sum_len l1) in *.
  apply swp_bind. eapply swp_deref; [exact Ha|]. apply swp_if; intros E; bool_prop; [|apply swp_ret, HE; lia].
  set (j := Z.min (pb_len c - o) n). rewrite (u16_small j), (u16_small (n - j)) by (unfold is_u16; lia). 
  assert (zlen (mem_read 0 j d) = j) as Hzj by (apply mem_read_zlen; lia).
  assert (zlen (bytes s c) = pb_len c) as Hzc by (apply ram_read_zlen; lia).
  apply swp_bind. eapply swp_data_write; [exact Hi|exact Ha|done|lia|lia|]. intros s1 Hi1 Et1 Eb1 Ho1.
  assert (forall k, (forall x, x ∈ k -> x ∈ l1 \/ x ∈ l2) -> content s1 k = content s k) as Hk.
  { intros k Hk. apply content_bytes. intros q e Hin. apply (Ho1 q e).
    - apply Hk in Hin. eapply chain_lookup; [exact Hl|]. rewrite El. apply elem_of_app. destruct Hin as [?|?]; [by left|by right; right].
    - intros ->. apply Hk in Hin as [Hin|Hin]; [apply (Hd12 a); [by apply (list_elem_of_fmap_2' fst) with (x := (a, e))|left]|apply Hnda; by apply (list_elem_of_fmap_2' fst) with (x := (a, e))]. }
  assert (forall s', content s' l1 = content s l1 -> bytes s' c = bytes s1 c ->
    content s' l2 = mem_read 0 (n - j) (drop (Z.to_nat j) d) ++ drop (Z.to_nat (n - j)) (content s l2) ->
    content s' l = mem_write off d (content s l)) as Hfin.
  { intros s' E1 E2 E3. rewrite El, !content_app. cbn [content]. rewrite E1, E2, E3, Eb1.
    pose proof (content_zlen s l1 Hlens1) as Hz1. pose proof (content_zlen s l2 Hlens2) as Hz2.
    rewrite mem_write_skip by lia. rewrite Hz1. fold o. rewrite (mem_write_halves o d j) by lia. by rewrite <- En. }
  apply swp_if; intros E'; bool_prop.
  - destruct l2 as [|[e f] l2'] eqn:El2; [cbn in Hsum, Ht2; lia|]. rewrite <- El2 in *.
    assert (pb_next c = Some e /\ pb_tab s !! e = Some f) as [-> Hf] by (rewrite El2 in Hcn; by destruct Hcn as (-> & ? & _)).
    assert (chain (pb_tab s) (Some e) l2) as Hce by (rewrite El2 in Hcn |- *; destruct Hcn as (_ & ? & ?); by split_and!).
    destruct (pinv_tots _ _ _ _ _ _ Hi Hlen Hf Hce) as [Htf _]. apply tots_sum in Htf.
    eapply (swp_pbuf_take s1 m own e f l2); [exact Hi1|by rewrite Et1|by rewrite Et1|by rewrite Et1|done|rewrite zlen_drop_max; lia|lia|].
    intros s' _ Hi' Et' Ec' Ho'. apply HQ; [lia|done|congruence| |].
    + apply Hfin; [| |by rewrite Ec', Hk by by right].
      * rewrite <- Hk by by left. apply content_bytes. intros q g Hin. apply (Ho' q g).
        -- rewrite Et1. eapply chain_lookup; [exact Hl|]. rewrite El. apply elem_of_app. by left.
        -- intros Hin2. apply (Hd12 q); [by apply (list_elem_of_fmap_2' fst) with (x := (q, g))|by right].
      * apply (Ho' a c); [by rewrite Et1|done].
    + intros q g Hq Hin. rewrite El, fmap_app, fmap_cons, not_elem_of_app, not_elem_of_cons in Hin. destruct Hin as (Hq1 & Hq2 & Hq3).
      rewrite (Ho' q g); [|by rewrite Et1|done]. by apply (Ho1 q).
  - apply swp_ret. apply HQ; [lia|done|done| |].
    + apply Hfin; [apply Hk; by left|done|]. rewrite Hk by by right. replace (n - j) with 0 by lia. done.
    + intros q g Hq Hin. rewrite El, fmap_app, fmap_cons, not_elem_of_app, not_elem_of_cons in Hin. destruct Hin as (Hq1 & Hq2 & Hq3). by apply (Ho1 q).
Qed.

(** ** Packets as byte strings *)

Definition packet (s : pbufs A) (p : Z) (c : list Z) : Prop := exists l, chain (pb_tab s) (Some p) l /\ content s l = c.

(** The same buffer but for the references. *)
Definition shape_pair (x y : Z * pbuf) : Prop := y.1 = x.1 /\ same_shape x.2 y.2.

Lemma chain_shape s s' l : forall p, chain (pb_tab s) p l -> has_chain (pb_tab s') p -> (forall x, x ∈ l.*1 -> shape (pb_tab s) (pb_tab s') x) ->
  (forall a b b', (a, b) ∈ l -> pb_tab s' !! a = Some b' -> same_shape b b' -> bytes s' b' = bytes s b) ->
  exists l', chain (pb_tab s') p l' /\ Forall2 shape_pair l l' /\ content s' l' = content s l.
Proof.
  induction l as [|[a b] l IH]; intros p Hl [k Hk] Hsh Hb.
  - cbn in Hl. subst p. by exists [].
  - destruct Hl as (-> & Ha & Hl). destruct k as [|[a' b'] k]; [done|]. destruct Hk as ([= <-] & Ha' & Hk).
    destruct (Hsh a ltac:(apply list_elem_of_here) b' Ha') as (b0 & Hb0 & E). rewrite Ha in Hb0. injection Hb0 as <-.
    pose proof E as En. red in En. apply (f_equal pb_next) in En. cbn in En.
    destruct (IH (pb_next b')) as (l' & Hl' & Hf & Ec); [by rewrite En|by exists k| | |].
    + intros x Hx. apply Hsh. by apply list_elem_of_further.
    + intros c d d' Hin. apply Hb. by apply list_elem_of_further.
    + exists ((a, b') :: l'). split; [by split_and!|]. split; [by constructor|]. cbn. rewrite Ec. f_equal. apply (Hb a b b'); [apply list_elem_of_here|done|done].
Qed.

(** Packet [x] is as it was: its bytes, and its buffers but for their references. *)
Definition pk_same (x : Z) (s s' : pbufs A) : Prop := forall l, chain (pb_tab s) (Some x) l ->
  exists l', chain (pb_tab s') (Some x) l' /\ Forall2 shape_pair l l' /\ content s' l' = content s l.

Lemma pk_same_packet x s s' c : pk_same x s s' -> packet s x c -> packet s' x c.
Proof. intros Hs (l & Hl & <-). destruct (Hs l Hl) as (l' & Hl' & _ & Ec). by exists l'. Qed.

(** A packet that is only looked at. *)
Lemma kept_same s s' mk q : kept mk s s' -> (forall a b b', pb_tab s !! a = Some b -> pb_tab s' !! a = Some b' -> pbuf_ok mk a b') ->
  has_chain (pb_tab s') (Some q) ->
  (forall l x, chain (pb_tab s) (Some q) l -> x ∈ l.*1 -> is_Some (pb_tab s !! x) -> shape (pb_tab s) (pb_tab s') x) -> pk_same q s s'.
Proof.
  intros Hk Hok Hc Hsh l Hl. apply chain_shape; [done|done| |].
  - intros x Hx. apply (Hsh l); [done|done|]. apply list_elem_of_fmap in Hx as ([a b] & -> & Hin). exists b. by eapply chain_lookup.
  - intros a b b' Hin Hb' E. red in E. assert (pb_payload b' = pb_payload b /\ pb_len b' = pb_len b) as [Ep El] by (by rewrite E).
    unfold bytes. rewrite Ep, El. apply ram_read_ext. intros x Hx. apply Hk. eapply data_owned; [eapply Hok; [by eapply chain_lookup|exact Hb']|]. by rewrite Ep, El.
Qed.

Lemma packet_kept s s' mk q c : kept mk s s' -> (forall a b b', pb_tab s !! a = Some b -> pb_tab s' !! a = Some b' -> pbuf_ok mk a b') ->
  has_chain (pb_tab s') (Some q) ->
  (forall l x, chain (pb_tab s) (Some q) l -> x ∈ l.*1 -> is_Some (pb_tab s !! x) -> shape (pb_tab s) (pb_tab s') x) -> packet s q c -> packet s' q c.
Proof. intros Hk Hok Hc Hsh. apply pk_same_packet. by eapply kept_same. Qed.

Lemma live_chain s own q : good (base := base) s own -> q ∈ own -> has_chain (pb_tab s) (Some q).
Proof. intros Hg Hq. open_good Hg. destruct (own_chain _ _ _ q Hi Hq) as (b & l & _ & Hl). by exists l. Qed.

(** The buffers an operation changes. *)
Definition touches (s : pbufs A) (o : pop) (x : Z) : Prop :=
  match o with
  | o_cat p _ | o_chain p _ | o_realloc p _ | o_free_header p _ => exists l, chain (pb_tab s) (Some p) l /\ x ∈ l.*1
  | o_dechain p | o_add_header p _ | o_remove_header p _ | o_write p _ _ | o_set_payload p _ => x = p
  | o_alloc _ _ _ | o_ref _ | o_free _ => False
  end.

Definition others_kept (s : pbufs A) (o : pop) (s' : pbufs A) (own' : gmultiset Z) : Prop :=
  forall q c, q ∈ own' -> packet s q c -> (forall l x, chain (pb_tab s) (Some q) l -> x ∈ l.*1 -> ~ touches s o x) -> packet s' q c.

(** What an operation makes of the packet it is called on. *)
Definition edited (s : pbufs A) (o : pop) (r : option Z) (s' : pbufs A) : Prop :=
  match o with
  | o_alloc _ length _ => forall p, r = Some p -> exists c, packet s' p c /\ zlen c = length
  | o_cat h t | o_chain h t => forall c d, packet s h c -> packet s t d -> packet s' h (c ++ d)
  | o_dechain p => forall b c, pb_tab s !! p = Some b -> packet s p c -> packet s' p (take (Z.to_nat (pb_len b)) c)
  | o_realloc p n => forall c, packet s p c -> packet s' p (take (Z.to_nat n) c)
  | o_remove_header p n => forall b c, pb_tab s !! p = Some b -> packet s p c -> packet s' p (if n <=? pb_len b then drop (Z.to_nat n) c else c)
  | o_add_header p n => forall c, packet s p c -> packet s' p c \/ exists h, zlen h = n /\ packet s' p (h ++ c)
  | o_write p off d => forall c, packet s p c -> packet s' p (mem_write off d c)
  | o_free_header p n => forall c, packet s p c -> match r with Some q => packet s' q (drop (Z.to_nat n) c) | None => zlen c <= n end
  | o_set_payload _ _ | o_ref _ | o_free _ => True
  end.

(** The two together, for an operation that is shown to keep the invariant. *)
Definition refines_on (s : pbufs A) (own : gmultiset Z) (o : pop) : Prop :=
  sto_wp (run_pop o) (fun r s' => good (base := base) s' (own_after o r own) -> others_kept s o s' (own_after o r own) /\ edited s o r s') s.

(** Nothing is touched but what the operation says. *)
Lemma others_by_kept s o s' mk own' : kept mk s s' -> good (base := base) s' own' ->
  (forall a b b', pb_tab s !! a = Some b -> pb_tab s' !! a = Some b' -> pbuf_ok mk a b') ->
  (forall x, ~ touches s o x -> is_Some (pb_tab s !! x) -> shape (pb_tab s) (pb_tab s') x) -> others_kept s o s' own'.
Proof.
  intros Hk Hg Hok Hsh q c Hq Hc Ht. eapply packet_kept; [exact Hk|exact Hok|by eapply live_chain| |exact Hc].
  intros l x Hl Hx Hs. apply Hsh; [|done]. by eapply Ht.
Qed.

Lemma refines_ref s own p : good (base := base) s own -> pop_ok s own (o_ref p) -> refines_on s own (o_ref p).
Proof.
  intros Hg (b & Hb & Hr). open_good Hg. unfold refines_on. cbn [run_pop]. apply swp_bind. eapply swp_pbuf_ref; [exact Hi|done|done|].
  intros s' Hi'. apply swp_ret. intros Hg'. split; [|done]. eapply (others_by_kept _ _ _ m); [done|exact Hg'| |].
  - intros a c c' _ Hc'. by apply (pi_ok _ _ _ Hi').
  - intros x _ _ c Hc. unfold s' in Hc. cbn [setf pb_tab] in Hc. apply lookup_insert_Some in Hc as [[<- <-]|[_ Hc]]; [by exists b|by apply shape_refl].
Qed.

Lemma refines_free s own p : good (base := base) s own -> pop_ok s own (o_free p) -> refines_on s own (o_free p).
Proof.
  intros Hg Hok. cbn in Hok. open_good Hg. destruct (own_chain _ _ _ p Hi Hok) as (b & l & Hb & Hl). unfold refines_on. cbn [run_pop]. apply swp_bind.
  rewrite (own_split p own Hok) in Hi. eapply swp_pbuf_free; [exact Hi|exact Hl|]. intros a s' Hi' Hk. apply swp_ret. intros Hg'. split; [|done].
  eapply others_by_kept; [exact Hk|exact Hg'| |].
  - intros x c c' _ Hc'. by apply (pi_ok _ _ _ Hi').
  - intros x _ _. by apply (free_tab_shape _ _ _ Hl).
Qed.

Lemma insert_shape (t : gmap Z pbuf) p b x : x <> p -> shape t (<[p := b]> t) x.
Proof. intros Hne c Hc. rewrite lookup_insert_ne in Hc by done. by apply shape_refl. Qed.

(** A single new buffer. *)
Lemma refines_new s own m layer length type p b a : pinv (base := base) s m own -> m !! p = None -> 
  let s' := s <| pb_ram := a |> <| pb_tab := <[p := b]> (pb_tab s) |> in kept m s s' -> pb_len b = length -> pb_next b = None -> 0 <= length ->
  good (base := base) s' (next_ms (Some p) ⊎ own) ->
  others_kept s (o_alloc layer length type) s' (next_ms (Some p) ⊎ own) /\ edited s (o_alloc layer length type) (Some p) s'.
Proof.
  intros Hi Hm s' Hk Hlen Hn H0' Hg. pose proof (tab_fresh _ _ _ _ Hi Hm) as Hp. split.
  - eapply others_by_kept; [exact Hk|exact Hg| |].
    + intros x c c' Hc Hc'. unfold s' in Hc'. cbn [setf pb_tab] in Hc'. rewrite lookup_insert_ne in Hc' by congruence. by apply (pi_ok _ _ _ Hi).
    + intros x _ [c Hc]. apply insert_shape. congruence.
  - intros p' [= <-]. exists (bytes s' b). split.
    + exists [(p, b)]. split; [|cbn; apply app_nil_r]. split_and!; [done|unfold s'; ptab; apply lookup_insert_eq|done].
    + unfold bytes. rewrite Hlen. by apply ram_read_zlen.
Qed.

Lemma refines_none s own layer length type s' m : pinv (base := base) s m own -> pb_tab s' = pb_tab s -> kept m s s' ->
  good (base := base) s' (next_ms None ⊎ own) ->
  others_kept s (o_alloc layer length type) s' (next_ms None ⊎ own) /\ edited s (o_alloc layer length type) None s'.
Proof.
  intros Hi Et Hk Hg. split; [|done]. eapply others_by_kept; [exact Hk|exact Hg| |]; rewrite Et.
  - intros x c c' _ Hc. by apply (pi_ok _ _ _ Hi).
  - intros x _ _. apply shape_refl.
Qed.

Lemma refines_alloc s own layer length type : good (base := base) s own -> pop_ok s own (o_alloc layer length type) -> refines_on s own (o_alloc layer length type).
Proof.
  intros Hg (Hlen16 & Hlay & Hty). open_good Hg. unfold refines_on. cbn [run_pop own_after].
  assert (0 <= length) as H0' by (unfold is_u16 in Hlen16; lia).
  destruct Hty as [-> |[-> |Hty]].
  - eapply swp_alloc_ram; [exact Hi|done|done|by apply (refines_none s own layer length PBUF_RAM s m)|].
    intros p a sz b s' Hp Hi' Hk. by apply (refines_new s own m).
  - eapply swp_alloc_pool; [exact Hi|done|done| |].
    + intros s' Hi' Et Hk. by apply (refines_none s own layer length PBUF_POOL s' m).
    + intros h l s' m' [Hi' Hc _ Ht _ Hk Hts] Hg'. split.
      * eapply others_by_kept; [exact Hk|exact Hg'| |].
        -- intros x c c' Hx Hx'. rewrite Ht in Hx. case_decide; [done|]. rewrite Hx' in Hx. injection Hx as ->. eapply (pi_ok _ _ _ Hi). by rewrite Ht, decide_False.
        -- intros x _ [c Hc']. rewrite Ht in Hc'. case_decide as Hd; [done|]. intros e He. exists e. rewrite Ht, decide_False by done. split; [done|]. by destruct e.
      * intros p' [= <-]. exists (content s' l). split; [by exists l|]. apply tots_sum in Hts.
        rewrite content_zlen; [lia|]. by eapply chain_lens.
  - unfold pbuf_alloc. replace ((type =? PBUF_REF) || (type =? PBUF_ROM)) with true by (by destruct Hty as [-> | ->]).
    eapply swp_alloc_reference; [exact Hi|done|done| |by apply (refines_none s own layer length type s m)|].
    + intros x Hx Ha. apply arena_low in Ha. unfold is_u16 in Hlen16. lia.
    + intros p a s' Hp Hi' Hk. by apply (refines_new s own m).
Qed.

Lemma refines_set_payload s own p x : good (base := base) s own -> pop_ok s own (o_set_payload p x) -> refines_on s own (o_set_payload p x).
Proof.
  intros Hg (b & Hb & Hc & Hx). open_good Hg. unfold refines_on. cbn [run_pop]. apply swp_bind, swp_bind. eapply swp_deref; [done|]. apply swp_mod, swp_ret.
  intros Hg'. split; [|done]. intros q c Hq (l & Hl & <-) Ht. exists l. split; [|by apply content_ext].
  ptab. apply chain_insert; [|done]. intros Hin. by apply (Ht l p).
Qed.

Lemma packet_content s p l c : chain (pb_tab s) (Some p) l -> packet s p c -> content s l = c.
Proof. intros Hl (l' & Hl' & <-). by rewrite (chain_det _ _ _ _ Hl Hl'). Qed.

Lemma catted_content s n t l : content s (catted n t l) = content s l.
Proof. induction l as [|[a b] l IH]; [done|]. cbn [catted content]. rewrite IH. f_equal. by destruct l. Qed.

Lemma pinv_same_ram s s' m own : pinv (base := base) s m own -> pb_ram s' = pb_ram s -> kept m s s'.
Proof. intros _ E x _. by rewrite E. Qed.

Lemma cat_data s own m h t l k : pinv (base := base) s m ({[+ t +]} ⊎ own) -> chain (pb_tab s) (Some h) l -> chain (pb_tab s) (Some t) k ->
  (forall x, x ∈ l.*1 -> x ∉ k.*1) ->
  sto_wp (pbuf_cat (Some h) (Some t)) (fun _ s' => pinv (base := base) s' m own /\ pb_ram s' = pb_ram s /\ pb_tab s' !! t = pb_tab s !! t /\
    (forall q, q ∉ l.*1 -> pb_tab s' !! q = pb_tab s !! q) /\ packet s' h (content s l ++ content s k)) s.
Proof.
  intros Hi Hl Hk Hd. destruct (own_chain _ _ _ t Hi) as (tb & k' & Ht & _); [multiset_solver|].
  assert (t ∈ k.*1) as Htk by (destruct k as [|[a b] k0]; [done|]; destruct Hk as ([= <-] & _); apply list_elem_of_here).
  eapply swp_pbuf_cat; [exact Hi|exact Hl|exact Hk|exact Ht|exact Hd|]. intros s' Hi' Er Hf Hc. split_and!; try done.
  - apply Hf. intros Hin. by apply (Hd _ Hin).
  - exists (catted (pb_tot_len tb) t l ++ k). split; [done|]. rewrite content_app, catted_content. f_equal; apply content_ext; by rewrite Er.
Qed.

Lemma others_same_tab s s' o own' (l : list Z) : pb_ram s' = pb_ram s -> (forall q, q ∉ l -> shape (pb_tab s) (pb_tab s') q) -> (forall x, x ∈ l -> touches s o x) ->
  good (base := base) s' own' -> others_kept s o s' own'.
Proof.
  intros Er Hf Ht Hg q c Hq (k & Hk & <-) Hn. destruct (chain_shape s s' k (Some q)) as (k' & Hk' & _ & Ek); [done|by eapply live_chain| | |by exists k'].
  - intros x Hx. apply Hf. intros Hxl. by apply (Hn k x Hk Hx), Ht.
  - intros a b b' Hin Hb' E. red in E. unfold bytes. rewrite Er. by rewrite E.
Qed.

Lemma refines_cat s own h t : good (base := base) s own -> pop_ok s own (o_cat h t) -> refines_on s own (o_cat h t).
Proof.
  intros Hg (Ht & l & k & Hl & Hk & Hd & _). open_good Hg. rewrite (own_split t own Ht) in Hi. unfold refines_on. cbn [run_pop]. apply swp_bind.
  eapply swp_mono; [by apply (cat_data s (own ∖ {[+ t +]}) m h t l k)|]. intros r s' (Hi' & Er & Ett & Hf & Hp). apply swp_ret. intros Hg'. split.
  - eapply (others_same_tab _ _ _ _ l.*1); [done| |by intros x Hx; exists l|done]. intros q Hq c Hc. rewrite Hf in Hc by done. by apply shape_refl.
  - intros c d Hc Hd'. by rewrite <- (packet_content _ _ _ _ Hl Hc), <- (packet_content _ _ _ _ Hk Hd').
Qed.

(** Another reference changes no packet. *)
Lemma packet_put_ref s p b c q : pb_tab s !! p = Some b -> packet s q c -> packet (s <| pb_tab := <[p := b <| pb_ref := u8 (pb_ref b + 1) |>]> (pb_tab s) |>) q c.
Proof.
  intros Hp (l & Hl & <-). eexists. split; [eapply chain_alter; [exact Hp| |exact Hl]; done|].
  assert (forall k, (forall x, x ∈ k -> x ∈ l) -> content (s <| pb_tab := <[p := b <| pb_ref := u8 (pb_ref b + 1) |>]> (pb_tab s) |>)
    ((fun x => if decide (x.1 = p) then (p, b <| pb_ref := u8 (pb_ref b + 1) |>) else x) <$> k) = content s k) as Hk; [|by apply Hk].
  induction k as [|[a e] k IH]; intros Hk; [done|]. rewrite fmap_cons. cbn [fst]. 
  assert (pb_tab s !! a = Some e) as Ha by (eapply chain_lookup; [exact Hl|apply Hk; left]).
  case_decide as Hd; cbn [content]; (rewrite IH; [|intros x Hx; apply Hk; by right]); [|done].
  subst a. rewrite Hp in Ha. by injection Ha as <-.
Qed.

Lemma refines_chain s own h t : good (base := base) s own -> pop_ok s own (o_chain h t) -> refines_on s own (o_chain h t).
Proof.
  intros Hg (Ht & l & k & b & Hl & Hk & Hd & _ & _ & Hb & Hr). open_good Hg. rewrite (own_split t own Ht) in Hi. unfold refines_on. cbn [run_pop own_after]. apply swp_bind.
  unfold pbuf_chain. apply swp_bind. eapply swp_mono; [by apply (cat_data s (own ∖ {[+ t +]}) m h t l k)|]. intros r s1 (Hi1 & Er & Ett & Hf & Hp).
  unfold pbuf_ref. apply swp_bind. rewrite Hb in Ett. eapply swp_deref; [exact Ett|]. apply swp_mod, swp_ret. intros Hg'. split.
  - eapply (others_same_tab _ _ _ _ l.*1); [done| |by intros x Hx; exists l|done]. intros q Hq c Hc. cbn [setf pb_tab] in Hc.
    apply lookup_insert_Some in Hc as [[<- <-]|[_ Hc]]; [by exists b|]. rewrite Hf in Hc by done. by apply shape_refl.
  - intros c d Hc Hd'. rewrite <- (packet_content _ _ _ _ Hl Hc), <- (packet_content _ _ _ _ Hk Hd'). by apply packet_put_ref.
Qed.

(** Operations on the first buffer of a packet. *)
Lemma others_put s m own o p b b' : pinv (base := base) s m own -> pb_tab s !! p = Some b -> touches s o p ->
  let s' := s <| pb_tab := <[p := b']> (pb_tab s) |> in good (base := base) s' own -> others_kept s o s' own.
Proof.
  intros Hi Hp Ht s' Hg. apply (others_same_tab _ _ _ _ [p]); [done| |by intros x ->%list_elem_of_singleton|done].
  intros q Hq. apply insert_shape. intros ->. by apply Hq, list_elem_of_here.
Qed.

Lemma packet_put s p b b' l c : pb_tab s !! p = Some b -> chain (pb_tab s) (Some p) ((p, b) :: l) -> pb_next b' = pb_next b -> bytes s b' ++ content s l = c ->
  packet (s <| pb_tab := <[p := b']> (pb_tab s) |>) p c.
Proof.
  intros Hp Hl Hn <-. pose proof (chain_nodup _ _ _ Hl) as Hnd. rewrite fmap_cons in Hnd. apply NoDup_cons in Hnd as [Hnd _].
  destruct Hl as (_ & _ & Hl). exists ((p, b') :: l). split; [|cbn; f_equal; by apply content_ext].
  split_and!; [done|ptab; apply lookup_insert_eq|]. ptab. rewrite Hn. by apply chain_insert.
Qed.

Lemma head_packet s p b c : pb_tab s !! p = Some b -> packet s p c -> exists l, chain (pb_tab s) (Some p) ((p, b) :: l) /\ bytes s b ++ content s l = c.
Proof.
  intros Hp (l & Hl & <-). destruct l as [|[a b'] l]; [done|]. pose proof Hl as ([= <-] & Ha & _). rewrite Hp in Ha. injection Ha as <-. by exists l.
Qed.

Lemma refines_remove_header s own p n : good (base := base) s own -> pop_ok s own (o_remove_header p n) -> refines_on s own (o_remove_header p n).
Proof.
  intros Hg (Hown & Hn & Hin). open_good Hg. destruct (own_chain _ _ _ p Hi Hown) as (b & l & Hb & Hl).
  destruct (pinv_tots _ _ _ _ _ _ Hi Hlen Hb Hl) as [_ [Hl1 Hl2]]. unfold refines_on. cbn [run_pop own_after edited]. apply swp_bind.
  assert (pb_len b < n -> good (base := base) s own -> others_kept s (o_remove_header p n) s own /\ edited s (o_remove_header p n) None s) as Hsame.
  { intros Hlt _. split; [by intros q c _ Hc _|]. intros b' c Hb' Hc. rewrite Hb in Hb'. injection Hb' as <-. by replace (n <=? pb_len b) with false by lia. }
  pose proof (po_len _ _ _ (pi_ok _ _ _ Hi _ _ Hb)) as Hu. unfold is_u16 in Hu.
  destruct (decide (n < 65536)).
  2: { unfold pbuf_remove_header. destruct (Z.ltb_spec 0xFFFF n); [|lia]. apply swp_ret, swp_ret. apply Hsame. lia. }
  eapply swp_remove_header; [exact Hi|exact Hb|unfold is_u16; lia|lia|intros Hlt; apply swp_ret; by apply Hsame|].
  intros Hle s' Hi'. apply swp_ret. intros Hg'. split; [by eapply others_put|].
  intros b' c Hb' Hc. rewrite Hb in Hb'. injection Hb' as <-. replace (n <=? pb_len b) with true by lia.
  destruct (head_packet s p b c Hb Hc) as (k & Hk & <-). eapply packet_put; [exact Hb|exact Hk|done|].
  rewrite drop_app_z by lia. unfold bytes. cbn [setf pb_payload pb_len]. rewrite ram_read_zlen, (drop_none_z (n - pb_len b)) by lia. f_equal.
  rewrite (ram_read_sub (pb_payload b) (pb_len b) n (pb_len b - n)) by lia. apply take_all_z. rewrite zlen_drop_max, ram_read_zlen by lia. lia.
Qed.

Lemma refines_add_header s own p n : good (base := base) s own -> pop_ok s own (o_add_header p n) -> refines_on s own (o_add_header p n).
Proof.
  intros Hg (Hown & Hn & Hin). open_good Hg. destruct (own_chain _ _ _ p Hi Hown) as (b & l & Hb & Hl).
  destruct (pinv_tots _ _ _ _ _ _ Hi Hlen Hb Hl) as [_ [Hl1 Hl2]]. unfold refines_on. cbn [run_pop own_after]. apply swp_bind.
  assert (good (base := base) s own -> others_kept s (o_add_header p n) s own /\ edited s (o_add_header p n) None s) as Hsame.
  { intros _. split; [by intros q c _ Hc _|]. intros c Hc. by left. }
  destruct (decide (n < 65536)).
  2: { unfold pbuf_add_header, pbuf_add_header_impl. destruct (Z.ltb_spec 0xFFFF n); [|lia]. by apply swp_ret, swp_ret. }
  eapply swp_add_header; [exact Hi|exact Hb|unfold is_u16; lia|lia|by apply swp_ret|].
  intros _ _ s' Hi'. apply swp_ret. intros Hg'. split; [by eapply others_put|]. intros c Hc. right.
  exists (ram_read (pb_payload b - n) n (pb_ram s)). split; [by apply ram_read_zlen|].
  destruct (head_packet s p b c Hb Hc) as (k & Hk & <-). eapply packet_put; [exact Hb|exact Hk|done|].
  unfold bytes. cbn [setf pb_payload pb_len]. rewrite Z.add_comm, ram_read_app by lia. replace (pb_payload b - n + n) with (pb_payload b) by lia. by rewrite app_assoc.
Qed.

Lemma refines_write s own p off d : good (base := base) s own -> pop_ok s own (o_write p off d) -> refines_on s own (o_write p off d).
Proof.
  intros Hg (b & Hb & Hc & Hoff & Hd). open_good Hg. unfold refines_on. cbn [run_pop own_after]. apply swp_bind, swp_bind. eapply swp_deref; [done|].
  eapply swp_data_write; [exact Hi|done|done|done|done|]. intros s' Hi' Et Eb Ho. apply swp_ret. intros Hg'. split.
  - intros q c Hq (k & Hk & <-) Hn. exists k. split; [by rewrite Et|]. apply content_bytes. intros a e Hin. apply (Ho a e); [by eapply chain_lookup|].
    intros ->. eapply (Hn k p); [done|by apply (list_elem_of_fmap_2' fst) with (x := (p, e))|done].
  - intros c Hc'. destruct (head_packet s p b c Hb Hc') as (k & Hk & <-). exists ((p, b) :: k). split; [by rewrite Et|]. cbn [content]. rewrite Eb.
    pose proof (po_len _ _ _ (pi_ok _ _ _ Hi _ _ Hb)) as Hu. unfold is_u16 in Hu.
    rewrite mem_write_app by (unfold bytes; rewrite ?ram_read_zlen; lia). f_equal.
    pose proof (chain_nodup _ _ _ Hk) as Hnd. rewrite fmap_cons in Hnd. apply NoDup_cons in Hnd as [Hnd _]. destruct Hk as (_ & _ & Hk).
    apply content_bytes. intros a e Hin. apply (Ho a e); [by eapply chain_lookup|]. intros ->. apply Hnd. by apply (list_elem_of_fmap_2' fst) with (x := (p, e)).
Qed.

Lemma refines_dechain s own p : good (base := base) s own -> pop_ok s own (o_dechain p) -> refines_on s own (o_dechain p).
Proof.
  intros Hg [Hown Hin]. open_good Hg. destruct (own_chain _ _ _ p Hi Hown) as (b & l & Hb & Hl).
  destruct (pinv_tots _ _ _ _ _ _ Hi Hlen Hb Hl) as [Htl [Hl1 Hl2]]. unfold refines_on. cbn [run_pop own_after]. apply swp_bind.
  eapply swp_pbuf_dechain; [exact Hi|exact Hb|done|done| |].
  - intros Hn. apply swp_ret. intros _. split; [by intros q c _ Hc _|]. intros b' c Hb' Hc. rewrite Hb in Hb'. injection Hb' as <-.
    destruct (head_packet s p b c Hb Hc) as (k & Hk & Ec). destruct Hk as (_ & _ & Hk). rewrite Hn in Hk. destruct k as [|[? ?] ?]; [|by destruct Hk].
    rewrite app_nil_r in Ec. subst c. rewrite take_all_z; [done|]. unfold bytes. rewrite ram_read_zlen; lia.
  - intros r s' m' q c Hn Hq Hi' _ Hk Hsh. apply swp_ret. intros Hg'.
    assert (u16 (pb_tot_len b - pb_len b) = pb_tot_len c) as Eu.
    { rewrite (Hlen _ _ Hb), Hn. cbn [ptr_tot]. rewrite Hq.
      replace (pb_len b + pb_tot_len c - pb_len b) with (pb_tot_len c) by lia. apply u16_small, (po_tot _ _ _ (pi_ok _ _ _ Hi _ _ Hq)). }
    rewrite Eu in Hsh. replace (c <| pb_tot_len := pb_tot_len c |>) with c in Hsh by (by destruct c). rewrite (insert_id (pb_tab s) q c Hq) in Hsh.
    split.
    + eapply others_by_kept; [exact Hk|exact Hg'|intros a e e' _ He'; by apply (pi_ok _ _ _ Hi')|]. intros x Hx _ e He.
      destruct (Hsh x e He) as (e0 & He0 & E). rewrite lookup_insert_ne in He0 by (intros ->; by destruct Hx). by exists e0.
    + intros b' d Hb' Hd. rewrite Hb in Hb'. injection Hb' as <-. destruct (head_packet s p b d Hb Hd) as (k & _ & <-).
      destruct (pi_own _ _ _ Hi' p Hown) as [b'' Hb'']. destruct (Hsh p b'' Hb'') as (b0 & Hb0 & E). rewrite lookup_insert_eq in Hb0. injection Hb0 as <-. red in E.
      exists [(p, b'')]. split; [split_and!; [done|done|by rewrite E]|]. cbn [content]. rewrite app_nil_r, take_app_z by lia.
      assert (zlen (bytes s b) = pb_len b) as Hz by (apply ram_read_zlen; lia). rewrite Hz, take_all_z, Z.sub_diag by lia. cbn [Z.to_nat take]. rewrite app_nil_r.
      assert (pb_payload b'' = pb_payload b /\ pb_len b'' = pb_len b) as [Ep El] by (by rewrite E). unfold bytes. rewrite Ep, El.
      apply ram_read_ext. intros x Hx. apply Hk. eapply data_owned; [by apply (pi_ok _ _ _ Hi' p b'')|]. by rewrite Ep, El.
Qed.

Lemma shrunk_content s d l : content s (shrunk d l) = content s l.
Proof. induction l as [|[a b] l IH]; [done|]. cbn [shrunk fmap list_fmap content fst snd]. fold (shrunk d l). by rewrite IH. Qed.

Lemma refines_realloc s own p n : good (base := base) s own -> pop_ok s own (o_realloc p n) -> refines_on s own (o_realloc p n).
Proof.
  intros Hg (Hown & Hn & l & Hl & Hs). open_good Hg. destruct (own_chain _ _ _ p Hi Hown) as (b0 & l' & Hb & _).
  destruct (pinv_tots _ _ _ _ _ _ Hi Hlen Hb Hl) as [Htl [Hl1 Hl2]]. pose proof (chain_lens _ _ _ _ _ Hi Hl) as Hlens.
  pose proof (tots_sum _ _ _ Htl) as Hsum. unfold refines_on. cbn [run_pop own_after]. apply swp_bind.
  eapply swp_pbuf_realloc; [exact Hi|exact Hb|exact Hl|exact Htl|done| |].
  - intros Hle. apply swp_ret. intros _. split; [by intros q c _ Hc _|]. intros c Hc. rewrite take_all_z; [done|].
    rewrite <- (packet_content _ _ _ _ Hl Hc), content_zlen; [lia|done].
  - intros l1 q b l2 s' m' mk rem Hnew El Hrem Hi' Hc Hsh Hok Hk. apply swp_ret. intros Hg'. split.
    + eapply others_by_kept; [exact Hk|exact Hg'|by intros a e e' _ He'; apply Hok|]. intros x Hx _. apply Hsh. intros Hin. apply Hx. exists l. split; [done|].
      rewrite El, fmap_app, fmap_cons. rewrite fmap_app in Hin. apply elem_of_app in Hin as [Hin|Hin]; apply elem_of_app; [by left|right].
      apply list_elem_of_singleton in Hin as ->. apply list_elem_of_here.
    + intros c Hc'. rewrite <- (packet_content _ _ _ _ Hl Hc'). eexists. split; [exact Hc|].
      rewrite (content_kept mk s s'); [|done|intros a e Hin; apply Hok; by eapply chain_lookup].
      rewrite content_app, shrunk_content. cbn [content]. rewrite app_nil_r. rewrite El, content_app. cbn [content].
      rewrite El in Hlens. apply Forall_app in Hlens as [Hlens1 Hlens2]. apply Forall_cons in Hlens2 as [Hlb _]. cbn in Hlb.
      rewrite take_app_z, content_zlen by done. fold rem. rewrite (take_all_z n) by (rewrite content_zlen by done; lia). f_equal.
      assert (zlen (bytes s b) = pb_len b) as Hz by (by apply ram_read_zlen).
      rewrite take_app_z, Hz, (take_none_z (rem - pb_len b)), app_nil_r by lia. unfold bytes, cut_off. cbn [setf pb_payload pb_len].
      rewrite <- (Z.add_0_r (pb_payload b)). rewrite (ram_read_sub (pb_payload b) (pb_len b) 0 rem) by lia. rewrite drop_none_z by lia. by rewrite Z.add_0_r.
Qed.

Lemma free_header_data l : forall fuel s own p n, good (base := base) s (next_ms p ⊎ own) -> is_u16 n -> chain (pb_tab s) p l ->
  Forall (fun x => pb_ref x.2 = 1) l -> (length l <= fuel)%nat ->
  sto_wp (free_header_loop fuel p n) (fun r s' =>
    (forall q k, chain (pb_tab s) (Some q) k -> (forall x, x ∈ k.*1 -> x ∉ l.*1) -> chain (pb_tab s') (Some q) k /\ content s' k = content s k) /\
    match r with Some q => packet s' q (drop (Z.to_nat n) (content s l)) | None => zlen (content s l) <= n end) s.
Proof.
  induction l as [|[a b] l IH]; intros fuel s own p n Hg Hn Hl Hf Hfuel.
  - cbn in Hl. subst p. destruct fuel; apply swp_ret; (split; [done|]); unfold is_u16 in Hn; change (0 <= n); lia.
  - pose proof (chain_nodup _ _ _ Hl) as Hnd. rewrite fmap_cons in Hnd. apply NoDup_cons in Hnd as [Hnd _]. pose proof Hl as Hl0.
    destruct Hl as (-> & Ha & Hl). apply Forall_cons in Hf as [Hr Hf]. cbn in Hr. destruct fuel as [|fuel]; [cbn in Hfuel; lia|].
    assert (is_u16 (pb_len b)) as Hub by (pose proof Hg as Hg1; open_good Hg1; by apply (po_len _ _ _ (pi_ok _ _ _ Hi _ _ Ha))). unfold is_u16 in Hn, Hub.
    assert (zlen (bytes s b) = pb_len b) as Hzb by (apply ram_read_zlen; lia).
    cbn [free_header_loop]. apply swp_if; intros E; bool_prop.
    { apply swp_ret. split; [done|]. subst n. cbn [Z.to_nat drop]. by exists ((a, b) :: l). }
    apply swp_bind. eapply swp_deref; [done|]. apply swp_if; intros E'; bool_prop.
    + pose proof (good_behead s own a b Hg Ha Hr) as Hb. apply swp_run in Hb as (r & s1 & E1 & Hg1 & Et & m' & Hok & Hk). apply swp_bind.
      unfold sto_bind at 1 in E1. unfold sto_wp. unfold put_pbuf, sto_mod in E1 |- *. unfold sto_bind. rewrite E1.
      assert (forall k q, chain (pb_tab s) q k -> a ∉ k.*1 -> chain (pb_tab s1) q k /\ content s1 k = content s k) as Hkk.
      { intros k q Hck Hak. assert (chain (pb_tab s1) q k) as Hck' by (rewrite Et; by apply chain_delete). split; [done|].
        apply (content_kept m' s s1); [done|]. intros c e Hin. apply Hok. by eapply chain_lookup. }
      destruct (Hkk l _ Hl Hnd) as [Hl1 Ec1]. rewrite u16_small by (unfold is_u16; lia).
      eapply swp_mono; [apply (IH fuel s1 own (pb_next b) (n - pb_len b)); [done|unfold is_u16; lia|done|done|cbn in Hfuel; lia]|].
      intros r' s' [Ho Hres]. split.
      * intros q k Hck Hdis. assert (a ∉ k.*1) as Hak by (intros Hin; apply (Hdis a Hin), list_elem_of_here). destruct (Hkk k _ Hck Hak) as [Hck1 Eck1].
        destruct (Ho q k Hck1) as [Hck' Eck']; [|split; [done|congruence]]. intros x Hx Hxl. by apply (Hdis x Hx), list_elem_of_further.
      * cbn [content]. rewrite Ec1 in Hres. destruct r' as [q|].
        -- rewrite drop_app_z, Hzb by lia. by rewrite (drop_all_z n (bytes s b)) by lia.
        -- rewrite zlen_app. lia.
    + apply swp_bind. open_good Hg. destruct (pi_ref _ _ _ Hi _ _ Ha) as [Er _]. cbn [next_ms] in Er. rewrite mult_cons, b2n_true in Er by done.
      destruct (pinv_tots _ _ _ _ _ _ Hi Hlen Ha Hl0) as [_ [Hl1 Hl2]].
      eapply swp_remove_header; [exact Hi|exact Ha|unfold is_u16; lia|lia|lia|]. intros Hle s' Hi'. apply swp_ret. split.
      * intros q k Hck Hdis. split; [|by apply content_ext]. apply chain_insert; [|done]. intros Hin. apply (Hdis a Hin), list_elem_of_here.
      * cbn [content]. eapply packet_put; [exact Ha|exact Hl0|done|]. rewrite drop_app_z, Hzb, (drop_none_z (n - pb_len b)) by lia. f_equal.
        unfold bytes. cbn [setf pb_payload pb_len]. rewrite (ram_read_sub (pb_payload b) (pb_len b) n (pb_len b - n)) by lia.
        apply take_all_z. rewrite zlen_drop_max, ram_read_zlen by lia. lia.
Qed.

Lemma refines_free_header s own p n : good (base := base) s own -> pop_ok s own (o_free_header p n) -> refines_on s own (o_free_header p n).
Proof.
  intros Hg (Hown & Hn & l & Hl & Hf). unfold refines_on. cbn [run_pop]. unfold pbuf_free_header. apply swp_bind, swp_get.
  rewrite (own_split p own Hown) in Hg. eapply swp_mono; [eapply free_header_data; [exact Hg|done|exact Hl|done|]|].
  - unfold chain_fuel. pose proof (chain_length _ _ _ Hl). lia.
  - intros r s' [Ho Hres] _. split.
    + intros q c Hq (k & Hk & <-) Hd. destruct (Ho q k Hk) as [Hk' Ek]; [|by exists k]. intros x Hx Hxl. apply (Hd k x Hk Hx). by exists l.
    + intros c Hc. by rewrite <- (packet_content _ _ _ _ Hl Hc).
Qed.

Lemma refines_step s own o : good (base := base) s own -> pop_ok s own o -> refines_on s own o.
Proof.
  intros Hg Hok. destruct o; [by apply refines_alloc|by apply refines_set_payload|by apply refines_ref|by apply refines_free|by apply refines_cat|
    by apply refines_chain|by apply refines_dechain|by apply refines_realloc|by apply refines_add_header|by apply refines_remove_header|
    by apply refines_free_header|by apply refines_write].
Qed.

(** C11: Packets are byte strings: every operation a client calls by the rules does to
    the bytes of the packet it is called on what its name says, however the packet is
    split into buffers and wherever they come from (an allocated packet has the length
    asked for, joining appends, shortening truncates, removing a header drops it and
    adding one puts bytes in front, also when it frees buffers or moves the lengths), and
    leaves the bytes of every other packet the client holds as they were. *)
Theorem pbuf_refines_bytes s own o r s' : preach (base := base) s own -> pop_ok s own o -> run_pop o s = Some (r, s') ->
  edited s o r s' /\ others_kept s o s' (own_after o r own).
Proof.
  intros Hr Hok E. pose proof (preach_good _ _ Hr) as Hg. pose proof (good_step _ _ _ Hg Hok) as Hw. pose proof (refines_step _ _ _ Hg Hok) as Hd.
  unfold refines_on, sto_wp in *. rewrite E in *. by destruct (Hd Hw).
Qed.

(** An allocation of the two kinds that can be written to. *)
Lemma swp_alloc_writable s own layer length type : good (base := base) s own -> is_u16 length -> 0 <= layer <= PBUF_TRANSPORT ->
  type = PBUF_POOL \/ type = PBUF_RAM ->
  sto_wp (pbuf_alloc layer length type) (fun r s' => match r with
    | None => True
    | Some p => exists l, good (base := base) s' (next_ms (Some p) ⊎ own) /\ chain (pb_tab s') (Some p) l /\ writable l /\ sum_len l = length
    end) s.
Proof.
  intros Hg Hlen Hlay Hty.
  assert (pop_ok s own (o_alloc layer length type)) as Hok by (split_and!; [done|lia|lia|destruct Hty as [-> | ->]; auto]).
  pose proof (good_alloc _ _ _ _ _ Hg Hok) as Hw. apply swp_run in Hw as (r & s' & E & Hg'). open_good Hg. destruct Hty as [-> | ->].
  - assert (sto_wp (pbuf_alloc layer length PBUF_POOL) (fun r s' => forall h, r = Some h -> exists l, chain (pb_tab s') (Some h) l /\ writable l /\ sum_len l = length) s) as Hp.
    { eapply swp_alloc_pool; [exact Hi|done|done|done|]. intros h l s1 m' [_ Hc Hf _ _ _ Hts] h' [= <-]. exists l. apply tots_sum in Hts.
      split_and!; [done| |lia]. eapply Forall_impl; [exact Hf|]. by intros ? []. }
    unfold sto_wp in *. rewrite E in *. destruct r as [p|]; [|done]. destruct (Hp p eq_refl) as (l & ? & ? & ?). by exists l.
  - assert (sto_wp (pbuf_alloc layer length PBUF_RAM) (fun r s' => forall h, r = Some h -> exists l, chain (pb_tab s') (Some h) l /\ writable l /\ sum_len l = length) s) as Hp.
    { eapply swp_alloc_ram; [exact Hi|done|done|done|]. intros p a sz b s1 Hp _ _ h' [= <-]. exists [(p, b)].
      split; [split_and!; [done|unfold s1; ptab; apply lookup_insert_eq|done]|]. split; [by apply Forall_singleton|cbn; lia]. }
    unfold sto_wp in *. rewrite E in *. destruct r as [p|]; [|done]. destruct (Hp p eq_refl) as (l & ? & ? & ?). by exists l.
Qed.

(** A frame survives the packet buffers: a packet allocated from the pool or the heap,
    filled with [pbuf_take] and read back with [pbuf_copy_partial] gives the bytes put in,
    whatever the length and the number of buffers it takes; the only other outcome is that
    no packet could be allocated. *)
Theorem pbuf_frame_roundtrip s own d buf layer type : preach (base := base) s own -> is_u16 (zlen d) -> 0 <= layer <= PBUF_TRANSPORT ->
  type = PBUF_POOL \/ type = PBUF_RAM -> zlen buf = zlen d ->
  sto_wp (let? p := pbuf_alloc layer (zlen d) type in
          match p with
          | None => sto_ret None
          | Some p =>
              let? e := pbuf_take (Some p) d (zlen d) in
              let? (got, n) := pbuf_copy_partial (Some p) buf (zlen d) 0 in
              sto_ret (Some (e, got, n))
          end) (fun r _ => r = None \/ r = Some (ERR_OK, d, zlen d)) s.
Proof.
  intros Hr Hd Hlay Hty Hbuf. apply swp_bind.
  eapply swp_mono; [exact (swp_alloc_writable _ _ _ _ _ (preach_good _ _ Hr) Hd Hlay Hty)|].
  intros r s1 Hr1. destruct r as [p|]; [|apply swp_ret; by left]. destruct Hr1 as (l & Hg1 & Hl & Hw & Hz). open_good Hg1.
  destruct (own_chain _ _ _ p Hi) as (b & k & Hb & _); [apply gmultiset_elem_of_disj_union; left; by apply gmultiset_elem_of_singleton|].
  destruct (pinv_tots _ _ _ _ _ _ Hi Hlen Hb Hl) as [Ht _]. apply tots_sum in Ht. pose proof (zlen_nonneg d).
  apply swp_bind. eapply swp_pbuf_take; [exact Hi|done|exact Hb|exact Hl|done|lia|lia|]. intros s2 _ Hi2 Et Ec _.
  assert (content s2 l = d) as Ecd.
  { rewrite Ec, drop_all_z, app_nil_r by (rewrite content_zlen by exact (chain_lens _ _ _ _ _ Hi Hl); lia). unfold mem_read. rewrite drop_none_z by lia. by apply take_all_z. }
  apply swp_bind. unfold sto_wp. rewrite (copy_partial_eq s2 (next_ms (Some p) ⊎ own) p l buf (zlen d) 0); [|exists m; split; [exact Hi2|by rewrite Et]|by rewrite Et|done|done|lia].
  rewrite Ecd, drop_none_z, take_all_z by lia. right. rewrite mem_write_0, drop_all_z, app_nil_r by lia. done.
Qed.

End data.
