(* ===== verification/PbufRun.v ===== *)
(** * PbufRun: packet buffers on the memory of the firmware

    The theorems about packet buffers are proved against the interface of NetMem; here
    they are put on the heap and the pools of NetRam, and run on examples: a frame of
    2000 bytes, which takes two buffers of the pool, and a header in front of it. *)

From stdpp Require Import gmultiset.
From S2P Require Import Prelude Mem MemProps Memp NetMem NetRam Pbuf PbufProps PbufOps PbufData.

#[export] Existing Instance sram_layout.
#[export] Existing Instance sram_layout_ok.

(** No custom buffers in these examples. *)
#[export] Instance no_custom : CustomPbuf netram := fun _ => sto_stop.

Definition result {S R} (c : STO S R) (s : S) : S := match c s with Some (_, s') => s' | None => s end.

(** The state after [lwip_init]. *)
Definition pbufs_start : pbufs netram := mk_pbufs ∅ (result net_mem_init blank_ram) false.

Lemma start_reached : preach (base := ∅) pbufs_start ∅.
Proof.
  destruct (net_init_ok blank_ram) as (a & E & Ha); [constructor; [done|by intros []]|].
  apply (preach_init _ ∅); [done| |by rewrite dom_empty_L]. unfold pbufs_start, result. cbn [pb_ram]. rewrite E. exact Ha.
Qed.

Definition frame_op : pop := o_alloc PBUF_RAW 2000 PBUF_POOL.
Definition header_op : pop := o_alloc PBUF_RAW 14 PBUF_RAM.
Definition frame_ptr : Z := 0x20003004 + 7 * 1532.
Definition header_ptr : Z := 0x20001008.
Definition with_frame : pbufs netram := result (run_pop frame_op) pbufs_start.
Definition with_header : pbufs netram := result (run_pop header_op) with_frame.

Lemma result_run {S R} (c : STO S R) s r : fst <$> c s = Some r -> c s = Some (r, result c s).
Proof. unfold result. destruct (c s) as [[r' s']|]; [|done]. by intros [= ->]. Qed.

Lemma run_frame : run_pop frame_op pbufs_start = Some (Some frame_ptr, with_frame).
Proof. unfold with_frame. apply (result_run (run_pop frame_op) pbufs_start (Some frame_ptr)). vm_compute. reflexivity. Qed.
Lemma run_header : run_pop header_op with_frame = Some (Some header_ptr, with_header).
Proof. unfold with_header. apply (result_run (run_pop header_op) with_frame (Some header_ptr)). vm_compute. reflexivity. Qed.

Lemma alloc_permitted s own length type : is_u16 length -> type = PBUF_POOL \/ type = PBUF_RAM -> pop_ok (A := netram) s own (o_alloc PBUF_RAW length type).
Proof. intros Hl Ht. split_and!; [done|done|done|destruct Ht as [-> | ->]; auto]. Qed.

Lemma frame_reached : preach (base := ∅) with_frame ({[+ frame_ptr +]} ⊎ ∅).
Proof. refine (preach_step _ _ frame_op _ _ start_reached _ run_frame). apply alloc_permitted; [done|by left]. Qed.

Lemma header_reached : preach (base := ∅) with_header ({[+ header_ptr +]} ⊎ ({[+ frame_ptr +]} ⊎ ∅)).
Proof. refine (preach_step _ _ header_op _ _ frame_reached _ run_header). apply alloc_permitted; [done|by right]. Qed.

(** The frame is a chain of two buffers. *)
Definition frame_chain : list (Z * pbuf) :=
  [(frame_ptr, mk_pbuf (Some (frame_ptr - 1532)) (frame_ptr + 16) 2000 1516 130 0 1 0);
   (frame_ptr - 1532, mk_pbuf None (frame_ptr - 1532 + 16) 484 484 130 0 1 0)].

Lemma frame_has_chain : chain (pb_tab with_frame) (Some frame_ptr) frame_chain.
Proof. vm_compute. auto. Qed.
Definition header_chain : list (Z * pbuf) := [(header_ptr, mk_pbuf None (header_ptr + 16) 14 14 128 0 1 0)].
Lemma header_has_chain : chain (pb_tab with_header) (Some frame_ptr) frame_chain /\ chain (pb_tab with_header) (Some header_ptr) header_chain.
Proof. vm_compute. auto 10. Qed.

(** ** The theorems at these states *)

Lemma pbuf_lengths_typed_witness : exists b, pb_tab with_frame !! frame_ptr = Some b /\ pb_tot_len b = pb_len b + 484.
Proof.
  pose proof (pbuf_lengths_typed _ _ _ _ frame_reached frame_has_chain [] _ _ _ eq_refl) as [Hl _].
  eexists. split; [apply (proj1 (proj2 frame_has_chain))|exact Hl].
Defined.

Definition join_op : pop := o_cat header_ptr frame_ptr.

(** The header is put in front of the frame. *)
Lemma join_permitted : pop_ok with_header ({[+ header_ptr +]} ⊎ ({[+ frame_ptr +]} ⊎ ∅)) join_op.
Proof.
  split; [apply gmultiset_elem_of_disj_union; right; apply gmultiset_elem_of_disj_union; left; by apply gmultiset_elem_of_singleton|].
  destruct header_has_chain as [Hf Hh]. eexists _, _. split_and!; [exact Hh|exact Hf| | |].
  - intros x Hx. cbn in Hx. apply list_elem_of_singleton in Hx as ->. vm_compute. intros Hx. repeat (apply elem_of_cons in Hx as [Hx|Hx]; [discriminate Hx|]). by apply not_elem_of_nil in Hx.
  - intros a b x Ha Hx Hin. cbn in Hin. apply list_elem_of_singleton in Hin as ->. exfalso.
    assert (incoming (pb_tab with_header) header_ptr = 0%nat) as H0 by (vm_compute; reflexivity).
    rewrite (incoming_delete _ _ _ header_ptr Ha), b2n_true in H0 by exact Hx. lia.
  - vm_compute. reflexivity.
Qed.

Lemma pbuf_refs_exact_witness : exists m, mrep (pb_ram with_header) m /\ accounted ∅ (pb_tab with_header) m /\
  (forall b, pb_tab with_header !! frame_ptr = Some b -> pbuf_ok m frame_ptr b) /\ exists r s', run_pop join_op with_header = Some (r, s').
Proof.
  destruct (pbuf_refs_exact _ _ header_reached) as (m & Hm & Hp & _ & Ha & Hret). exists m. split_and!; [exact Hm|exact Ha| |].
  - intros b Hb. apply (Hp _ _ Hb).
  - exact (Hret _ join_permitted).
Defined.

Definition joined_state : pbufs netram := result (run_pop join_op) with_header.
Lemma run_join : run_pop join_op with_header = Some (None, joined_state).
Proof. unfold joined_state. apply (result_run (run_pop join_op) with_header None). vm_compute. reflexivity. Qed.

Lemma pbuf_refines_bytes_witness : packet joined_state header_ptr (content with_header header_chain ++ content with_header frame_chain).
Proof.
  apply (proj1 (pbuf_refines_bytes _ _ _ _ _ header_reached join_permitted run_join)); [exists header_chain|exists frame_chain]; split; try reflexivity; apply header_has_chain.
Defined.

Definition freed_state : pbufs netram := result (run_pop (o_free frame_ptr)) with_frame.
Lemma run_freed : run_pop (o_free frame_ptr) with_frame = Some (None, freed_state).
Proof. unfold freed_state. apply (result_run (run_pop (o_free frame_ptr)) with_frame None). vm_compute. reflexivity. Qed.
Lemma freed_reached : preach (base := ∅) freed_state ∅.
Proof.
  pose proof (preach_step _ _ (o_free frame_ptr) None freed_state frame_reached) as Hs. specialize (Hs ltac:(apply gmultiset_elem_of_disj_union; left; by apply gmultiset_elem_of_singleton) run_freed).
  cbn [own_after] in Hs. replace (({[+ frame_ptr +]} ⊎ ∅) ∖ {[+ frame_ptr +]} : gmultiset Z) with (∅ : gmultiset Z) in Hs; [exact Hs|].
  apply gmultiset_eq. intros x. rewrite multiplicity_difference, multiplicity_disj_union, multiplicity_empty. lia.
Qed.

Lemma pbuf_nothing_leaks_witness : pb_tab freed_state = ∅ /\ exists m, mrep (pb_ram freed_state) m /\ dom m = ∅.
Proof. exact (pbuf_nothing_leaks _ freed_reached). Defined.

Lemma pbuf_frame_roundtrip_witness :
  sto_wp (let? p := pbuf_alloc PBUF_RAW 3 PBUF_POOL in
          match p with
          | None => sto_ret None
          | Some p =>
              let? e := pbuf_take (Some p) [7; 8; 9] 3 in
              let? (got, n) := pbuf_copy_partial (Some p) [0; 0; 0] 3 0 in
              sto_ret (Some (e, got, n))
          end) (fun r _ => r = None \/ r = Some (ERR_OK, [7; 8; 9], 3)) with_frame.
Proof.
  refine (pbuf_frame_roundtrip _ _ [7; 8; 9] [0; 0; 0] PBUF_RAW PBUF_POOL frame_reached _ _ _ _); [done|done|by left|done].
Defined.
