(* ===== verification/PbufCopy.v ===== *)
(** * PbufCopy: copies of packets

    What [pbuf_copy] into one buffer and [pbuf_clone] into the heap do: they return, write
    nowhere but into the new buffer, and the copy has the bytes of the packet, unless the
    packet ends in empty buffers: then the loop takes a buffer that has all the data that
    is left, but a [next] pointer, for the end of a packet in a queue of packets, and
    stops before it. *)

From stdpp Require Import gmultiset.
From S2P Require Import Prelude Mem NetMem Pbuf PbufProps PbufOps PbufData.

(** No buffer but the last has all the data that is left behind it. *)
Fixpoint no_empty_tail (l : list (Z * pbuf)) : Prop :=
  match l with
  | [] => True
  | _ :: l => (l = [] \/ 0 < sum_len l) /\ no_empty_tail l
  end.

Section copy.
Context {A : Type} `{NetMem A, !NetMemOk A, CustomPbuf A} {base : gset Z}.

Lemma swp_data_read p n (Q : list Z -> pbufs A -> Prop) s : Q (ram_read p n (pb_ram s)) s -> sto_wp (data_read p n) Q s.
Proof. done. Qed.

(** Into a buffer with room for the rest of the packet. *)
Lemma swp_copy_loop l : forall fuel s m own t bt f ot (Q : Z -> pbufs A -> Prop),
  pinv (base := base) s m own -> pb_tab s !! t = Some bt -> is_contiguous bt -> pb_next bt = None ->
  chain (pb_tab s) (Some f) l -> t ∉ l.*1 -> 0 <= ot -> ot + sum_len l <= pb_len bt -> lens_ok (pb_tab s) -> (length l <= fuel)%nat ->
  (forall r s', pinv (base := base) s' m own -> pb_tab s' = pb_tab s ->
     (forall q c, pb_tab s !! q = Some c -> q <> t -> bytes s' c = bytes s c) ->
     (no_empty_tail l -> bytes s' bt = mem_write ot (content s l) (bytes s bt)) -> Q r s') ->
  sto_wp (copy_loop fuel t f ot 0) Q s.
Proof.
  induction l as [|[a bf] l IH]; intros fuel s m own t bt f ot Q Hi Ht Hct Hnt Hl Hnl Hot Hroom Hlens Hfuel HQ; [done|].
  pose proof (chain_lens _ _ _ _ _ Hi Hl) as Hpos. pose proof Hl as ([= <-] & Hf & Hl'). rewrite fmap_cons in Hnl. apply not_elem_of_cons in Hnl as [Hne Hnl].
  destruct fuel as [|fuel]; [cbn in Hfuel; lia|]. cbn [copy_loop]. apply Forall_cons in Hpos as [Hp0 Hpos]. cbn in Hp0, Hne.
  assert (0 <= sum_len l) as Hsl by (rewrite <- (content_zlen s) by done; apply zlen_nonneg).
  change (sum_len ((f, bf) :: l)) with (pb_len bf + sum_len l) in Hroom.
  pose proof (po_len _ _ _ (pi_ok _ _ _ Hi _ _ Ht)) as Hlt. unfold is_u16 in Hlt.
  apply swp_bind. eapply swp_deref; [exact Ht|]. apply swp_bind. eapply swp_deref; [exact Hf|].
  rewrite !(u32_small (_ - _)) by (unfold is_u32; lia). rewrite Z.sub_0_r. replace (pb_len bf <=? pb_len bt - ot) with true by lia.
  apply swp_bind, swp_data_read. apply swp_bind. rewrite Z.add_0_r.
  eapply (swp_data_write s m own t bt ot); [exact Hi|exact Ht|done|done|rewrite ram_read_zlen; lia|].
  intros s1 Hi1 Et1 Eb1 Eo1. rewrite !u32_small by (unfold is_u32; lia). rewrite Z.add_0_l, Z.leb_refl.
  assert (pb_tab s1 !! t = Some bt) as Ht1 by (by rewrite Et1).
  assert (Z.of_nat (length (bytes s bt)) = pb_len bt) as Hbt by (unfold bytes; apply ram_read_zlen; lia).
  assert (zlen (bytes s bf) = pb_len bf) as Hbf by (unfold bytes; apply ram_read_zlen; lia).
  set (pt := if ot + pb_len bf =? pb_len bt then (0, pb_next bt) else (ot + pb_len bf, Some t)).
  assert (forall Q', Q' false s1 -> sto_wp (match snd pt with None => sto_ret false
      | Some t => let? b := deref t in sto_ret ((pb_len b =? pb_tot_len b) && bool_decide (is_Some (pb_next b))) end) Q' s1) as Htq.
  { intros Q' HQ'. unfold pt. case_if; cbn [snd]; [rewrite Hnt; by apply swp_ret|]. apply swp_bind. eapply swp_deref; [exact Ht1|].
    apply swp_ret. rewrite Hnt, bool_decide_eq_false_2 by (by intros []). by rewrite andb_false_r. }
  destruct l as [|[n bn] l].
  - cbn in Hl'. rewrite Hl'. destruct pt as [ot' pt'] eqn:Ept. cbn [snd] in Htq. rewrite (bool_decide_eq_false_2 (is_Some None)) by (by intros []).
    rewrite andb_false_r. apply swp_bind, swp_ret. apply swp_bind, Htq. apply swp_ret. apply HQ; [done|done|done|]. intros _.
    rewrite Eb1. cbn [content]. by rewrite app_nil_r.
  - pose proof Hl' as (En & Hn & Hl2). rewrite En. assert (is_Some (pb_next bf)) as Hsn by (by exists n).
    pose proof Hpos as Hpos2. apply Forall_cons in Hpos2 as [Hn0 Hpos2]. cbn in Hn0.
    change (sum_len ((n, bn) :: l)) with (pb_len bn + sum_len l) in *.
    assert (0 <= sum_len l) as Hsl2 by (rewrite <- (content_zlen s) by done; apply zlen_nonneg).
    unfold pt in *. clear pt. destruct (Z.eqb_spec (ot + pb_len bf) (pb_len bt)) as [Efull|Efull]; cbn [snd] in Htq.
    + rewrite Hnt. rewrite !bool_decide_eq_true_2 by done. cbn [andb]. apply swp_ret. apply HQ; [done|done|done|].
      intros [[E|E] _]; [done|]. change (sum_len ((n, bn) :: l)) with (pb_len bn + sum_len l) in E. lia.
    + rewrite (bool_decide_eq_false_2 (Some t = None)) by done. cbn [andb]. apply swp_bind, swp_bind. eapply swp_deref; [by rewrite Et1|].
      apply swp_ret. destruct ((pb_len bn =? pb_tot_len bn) && bool_decide (is_Some (pb_next bn))) eqn:Eq.
      { apply swp_ret. apply HQ; [done|done|done|]. intros (_ & [->|E] & _); exfalso; apply andb_true_iff in Eq as [E1 E2].
        - apply bool_decide_eq_true in E2. cbn in Hl2. rewrite Hl2 in E2. by destruct E2.
        - apply Z.eqb_eq in E1. pose proof (lens_tots _ _ _ Hlens (fun a c Hc => proj1 (po_len _ _ _ (pi_ok _ _ _ Hi a c Hc))) Hl2) as Hts.
          apply tots_sum in Hts. rewrite (Hlens _ _ Hn) in E1. lia. }
      apply swp_bind, Htq. cbv iota. eapply (IH fuel s1 m own t bt n (ot + pb_len bf)); [exact Hi1|exact Ht1|done|done|by rewrite Et1|done|lia| | |cbn in *; lia|].
      * change (sum_len ((n, bn) :: l)) with (pb_len bn + sum_len l). lia.
      * by rewrite Et1.
      * intros r s2 Hi2 Et2 Eo2 Eb2. apply HQ; [done|by rewrite Et2| |].
        -- intros q c Hq Hqt. rewrite <- (Eo1 q c Hq Hqt). apply (Eo2 q c); [by rewrite Et1|done].
        -- intros [_ Hnet]. rewrite Eb2 by done. rewrite Eb1.
           assert (content s1 ((n, bn) :: l) = content s ((n, bn) :: l)) as Ec.
           { apply content_bytes. intros q c Hin. apply (Eo1 q c); [exact (chain_lookup _ _ _ _ _ Hl' Hin)|]. intros ->. apply Hnl.
             apply list_elem_of_fmap. by exists (t, c). }
           rewrite Ec. change (content s ((f, bf) :: (n, bn) :: l)) with (bytes s bf ++ content s ((n, bn) :: l)).
           replace (ot + pb_len bf) with (ot + zlen (bytes s bf)) by lia. apply mem_write_split; [lia|]. rewrite content_zlen by done. unfold zlen in *.
           change (sum_len ((n, bn) :: l)) with (pb_len bn + sum_len l). lia.
Qed.

(** No [next] pointer to anything that had none. *)
Definition heads_kept (t t' : gmap Z pbuf) : Prop := forall q, incoming t q = 0%nat -> incoming t' q = 0%nat.

Lemma heads_kept_refl t : heads_kept t t.
Proof. by intros q. Qed.
Lemma heads_kept_trans t t' t'' : heads_kept t t' -> heads_kept t' t'' -> heads_kept t t''.
Proof. intros H1 H2 q Hq. by apply H2, H1. Qed.

Lemma heads_kept_shape t t' : (forall x, shape t t' x) -> heads_kept t t'.
Proof.
  intros Hsh q Hq. unfold incoming in *. apply map_size_empty_iff, map_empty. intros a.
  destruct (filter (points_to q) t' !! a) as [c|] eqn:E; [exfalso|done]. apply map_lookup_filter_Some in E as [Ha Hc].
  destruct (Hsh _ _ Ha) as (b & Hb & Es). apply map_size_empty_iff in Hq. assert (filter (points_to q) t !! a = Some b) as E.
  { apply map_lookup_filter_Some. split; [done|]. unfold points_to in *. cbn in *. rewrite Es in Hc. done. }
  by rewrite Hq in E.
Qed.

Lemma heads_kept_put (t : gmap Z pbuf) p b b' : t !! p = Some b -> pb_next b' = pb_next b -> heads_kept t (<[p := b']> t).
Proof. intros Hp Hn q. by rewrite (incoming_same _ _ b). Qed.

Lemma heads_kept_new (t : gmap Z pbuf) p b : t !! p = None -> pb_next b = None -> heads_kept t (<[p := b]> t).
Proof. intros Hp Hn q Hq. rewrite incoming_insert_new, Hn, b2n_false by done. done. Qed.

(** The packets of [own] are as they were. *)
Definition pk_kept (own : gmultiset Z) (s s' : pbufs A) : Prop := forall x, x ∈ own -> pk_same x s s'.

Lemma shape_pair_refl x : shape_pair x x.
Proof. split; [done|]. by destruct x as [a []]. Qed.
Lemma pk_same_refl x s : pk_same x s s.
Proof. intros l Hl. exists l. split_and!; [done| |done]. apply Forall_Forall2_diag, Forall_true, shape_pair_refl. Qed.
Lemma pk_same_trans x s1 s2 s3 : pk_same x s1 s2 -> pk_same x s2 s3 -> pk_same x s1 s3.
Proof.
  intros H1 H2 l Hl. destruct (H1 l Hl) as (l1 & Hl1 & Hf1 & E1). destruct (H2 l1 Hl1) as (l2 & Hl2 & Hf2 & E2). exists l2. split_and!; [done| |congruence].
  clear -Hf1 Hf2. revert l2 Hf2. induction Hf1 as [|x y l l1 [Ex Sx] _ IH]; intros l2 Hf2; inversion Hf2 as [|? z ? ? [Ey Sy] Hf]; subst; constructor; [|by apply IH].
  split; [congruence|]. red in Sx, Sy |- *. rewrite Sy. cbn [setf pb_ref]. by rewrite Sx.
Qed.
Lemma pk_kept_refl own s : pk_kept own s s.
Proof. intros x _. apply pk_same_refl. Qed.
Lemma pk_kept_trans own s1 s2 s3 : pk_kept own s1 s2 -> pk_kept own s2 s3 -> pk_kept own s1 s3.
Proof. intros H1 H2 x Hx. eapply pk_same_trans; [by apply H1|by apply H2]. Qed.
Lemma pk_kept_sub own own' s s' : own ⊆ own' -> pk_kept own' s s' -> pk_kept own s s'.
Proof. intros Hs Hk x Hx. apply Hk. by eapply gmultiset_elem_of_subseteq. Qed.

(** Giving up a packet: the others stay. *)
Lemma swp_free_pb b own p (Q : Z -> pbufs A -> Prop) : good (base := base) b ({[+ p +]} ⊎ own) ->
  (forall r b', good (base := base) b' own -> heads_kept (pb_tab b) (pb_tab b') -> pk_kept own b b' -> Q r b') -> sto_wp (pbuf_free (Some p)) Q b.
Proof.
  intros Hg HQ. pose proof (good_free _ _ _ Hg) as Hw. open_good Hg. destruct (own_chain _ _ _ p Hi) as (c & l & Hc & Hl); [multiset_solver|].
  pose proof (swp_pbuf_free b m _ p l (fun _ b' => heads_kept (pb_tab b) (pb_tab b') /\ pk_kept own b b') Hi Hl) as Hh.
  apply swp_run in Hw as (r & b' & E & Hg'). unfold sto_wp in Hh |- *. rewrite E in *.
  enough (heads_kept (pb_tab b) (pb_tab b') /\ pk_kept own b b') as [? ?] by (by apply HQ). apply Hh. clear Hh.
  intros a Hi' Hk. pose proof (free_tab_shape _ _ _ Hl) as Hsh. split; [by apply heads_kept_shape|].
  intros x Hx. destruct (own_chain _ _ _ x Hi' Hx) as (d' & l' & Hd' & Hl'). eapply kept_same; [exact Hk| |by exists l'|].
  - intros y e e' _ He'. by apply (pi_ok _ _ _ Hi').
  - intros ? y _ _ _. apply Hsh.
Qed.

(** A copy in the heap. *)
Lemma swp_clone_ram s own layer q (Q : option Z -> pbufs A -> Prop) : good (base := base) s own -> q ∈ own -> 0 <= layer <= PBUF_TRANSPORT ->
  Q None s ->
  (forall p s', good (base := base) s' ({[+ p +]} ⊎ own) -> heads_kept (pb_tab s) (pb_tab s') -> pb_tab s !! p = None ->
     incoming (pb_tab s') p = 0%nat -> (forall x c, x <> p -> packet s x c -> packet s' x c) ->
     (forall l, chain (pb_tab s) (Some q) l -> no_empty_tail l -> packet s' p (content s l)) -> Q (Some p) s') ->
  sto_wp (pbuf_clone layer PBUF_RAM q) Q s.
Proof.
  intros Hg Hq Hlay HN HS. open_good Hg. destruct (own_chain _ _ _ q Hi Hq) as (bq & l & Hbq & Hl).
  destruct (pinv_tots _ _ _ _ _ _ Hi Hlen Hbq Hl) as [Ht [Hl0 Hl1]]. apply tots_sum in Ht. rewrite Z.add_0_r in Ht.
  unfold pbuf_clone. apply swp_bind. eapply swp_deref; [exact Hbq|]. apply swp_bind.
  eapply swp_alloc_ram; [exact Hi|apply (pi_ok _ _ _ Hi _ _ Hbq)|done|by apply swp_ret|].
  intros p a sz b s1 Hp Hi1 Hk1. pose proof (tab_fresh _ _ _ _ Hi Hp) as Htp. pose proof (incoming_absent _ _ _ _ Hi Htp) as Hin.
  assert (p <> q) as Hpq by congruence.
  assert (pb_tab s1 = <[p := b]> (pb_tab s)) as Et1 by done. assert (pb_tab s1 !! p = Some b) as Hp1 by (rewrite Et1; apply lookup_insert_eq).
  destruct (good_alloc_one s own p b (Heap, sz) a m Hi Hlen Hp Hi1 eq_refl eq_refl) as (m1 & Hi1' & Hlen1). clear m1 Hi1'.
  assert (p ∉ l.*1) as Hpl.
  { intros Hin'. apply list_elem_of_fmap in Hin' as ([p' c] & E & Hin'). cbn in E. subst p'. pose proof (chain_lookup _ _ _ _ _ Hl Hin'). congruence. }
  assert (chain (pb_tab s1) (Some q) l) as Hl1'. { rewrite Et1. by apply chain_insert. }
  assert (heads_kept (pb_tab s) (pb_tab s1)) as Hh1 by (rewrite Et1; by apply heads_kept_new).
  assert (forall x c, x <> p -> packet s x c -> packet s1 x c) as Hpk.
  { intros x c Hx (k & Hck & Ec). exists k. assert (forall y, y ∈ k.*1 -> y <> p) as Hky.
    { intros y Hy ->. apply list_elem_of_fmap in Hy as ([p' d] & E & Hin'). cbn in E. subst p'. pose proof (chain_lookup _ _ _ _ _ Hck Hin'). congruence. }
    split; [rewrite Et1; apply chain_insert; [|done]; intros Hp'; by apply (Hky p)|]. rewrite <- Ec. eapply content_kept; [exact Hk1|].
    intros y d Hin'. by eapply (pi_ok _ _ _ Hi), chain_lookup. }
  assert (content s1 l = content s l) as Ecl.
  { eapply content_kept; [exact Hk1|]. intros y d Hin'. by eapply (pi_ok _ _ _ Hi), chain_lookup. }
  apply swp_bind. unfold pbuf_copy. apply swp_bind. eapply swp_deref; [exact Hp1|]. apply swp_bind. eapply swp_deref; [by rewrite Et1, lookup_insert_ne|].
  change (pb_tot_len b) with (pb_tot_len bq). rewrite Z.ltb_irrefl. apply swp_bind, swp_get.
  eapply (swp_copy_loop l _ s1 _ _ p b q 0); [exact Hi1|exact Hp1|done|done|exact Hl1'|done|lia| |exact Hlen1| |].
  - change (pb_len b) with (pb_tot_len bq). lia.
  - pose proof (chain_length _ _ _ Hl1'). unfold chain_fuel. lia.
  - intros r s2 Hi2 Et2 Eo2 Eb2. apply swp_ret. apply HS.
    + eexists. split; [exact Hi2|by rewrite Et2].
    + by rewrite Et2.
    + done.
    + rewrite Et2. by apply Hh1.
    + intros x c Hx Hc. apply Hpk in Hc as (k & Hck & Ec); [|done]. exists k. rewrite Et2. split; [done|]. rewrite <- Ec. apply content_bytes.
      intros y d Hin'. apply (Eo2 y d); [by eapply chain_lookup|]. intros ->.
      assert (incoming (pb_tab s1) p = 0%nat) as Hz by (by apply Hh1). pose proof (chain_next _ _ _ p Hck) as Hcn.
      rewrite Hz in Hcn. apply Nat.lt_irrefl with 0%nat, Hcn; [apply list_elem_of_fmap; by exists (p, d)|congruence].
    + intros l' Hl' Hne. rewrite (chain_det _ _ _ _ Hl' Hl). rewrite (chain_det _ _ _ _ Hl' Hl) in Hne. exists [(p, b)]. rewrite Et2.
      split; [by split_and!|]. cbn [content]. rewrite app_nil_r, Eb2, Ecl by done.
      assert (zlen (content s l) = pb_len b) as Ez by (rewrite content_zlen by exact (chain_lens _ _ _ _ _ Hi Hl); cbn; lia).
      assert (zlen (bytes s1 b) = pb_len b) as Eb by (unfold bytes; apply ram_read_zlen; cbn; lia).
      rewrite mem_write_0, drop_all_z, app_nil_r by lia. done.
Qed.
(** A packet that fits one buffer of the pool. *)
Lemma swp_alloc_pool_one s m own n (Q : option Z -> pbufs A -> Prop) : pinv (base := base) s m own -> 0 <= n <= PBUF_POOL_BUFSIZE_ALIGNED ->
  Q None (s <| pbuf_free_ooseq_pending := true |>) ->
  (forall p a, let b := fresh_pbuf (p + 16) n n PBUF_POOL in let s' := s <| pb_ram := a |> <| pb_tab := <[p := b]> (pb_tab s) |> in
     m !! p = None -> pinv (base := base) s' (<[p := (Pool MEMP_PBUF_POOL, pool_elem MEMP_PBUF_POOL)]> m) ({[+ p +]} ⊎ own) -> kept m s s' -> Q (Some p) s') ->
  sto_wp (pbuf_alloc PBUF_RAW n PBUF_POOL) Q s.
Proof.
  intros Hi Hn HN HS. change PBUF_POOL_BUFSIZE_ALIGNED with 1516 in Hn. unfold pbuf_alloc. cbn [PBUF_POOL PBUF_REF PBUF_ROM Z.eqb Pos.eqb orb].
  cbn [pool_loop]. apply swp_bind. destruct (nm_pool_malloc_ok _ _ MEMP_PBUF_POOL (pi_mem _ _ _ Hi)) as (r & a & Ea & Hr). eapply swp_mem_do; [exact Ea|].
  destruct r as [p|].
  - destruct Hr as (Hp & Ha & Hk). destruct (mrep_block _ _ p (Pool MEMP_PBUF_POOL) (pool_elem MEMP_PBUF_POOL) Ha) as (Hp0 & Hp4 & _ & Hpe & _); [apply lookup_insert_eq|]. change (pool_elem MEMP_PBUF_POOL) with 1532 in *.
    replace (Z.min n _) with n by (change (u16 (PBUF_POOL_BUFSIZE_ALIGNED - LWIP_MEM_ALIGN_SIZE (u16 PBUF_RAW))) with 1516; lia).
    change (u16 PBUF_RAW) with 0. change SIZEOF_STRUCT_PBUF with 16. rewrite <- Z.add_assoc. change (16 + 0) with 16.
    rewrite (align_addr p 16 (p + 1532)) by (change (LWIP_MEM_ALIGN_SIZE 16) with 16; lia). change (LWIP_MEM_ALIGN_SIZE 16) with 16.
    cbv zeta. rewrite Z.sub_diag. change (0 <? u16 0) with false. repeat swp_step. apply HS; [done| |done]. apply pinv_alloc; [done..| |done|done].
    constructor; cbn [fresh_pbuf pb_flags pb_type_internal pb_payload pb_len pb_tot_len]; try done.
    + right. right. done.
    + exists 1532. rewrite lookup_insert_eq. split_and!; [done|done|]. cbn. lia.
    + intros Hc. by destruct Hc.
    + unfold is_u16. cbn. lia.
    + unfold is_u16. cbn. lia.
  - subst a. repeat swp_step; try done; by destruct s.
Qed.

End copy.
