(* ===== verification/Inet.v ===== *)
(** * Inet: addresses, byte order and the network interface

    What the link and the network layer of lwIP share: IPv4 addresses
    (src/lib/lwip/src/include/lwip/ip4_addr.h, core/ipv4/ip4_addr.c), Ethernet addresses
    (include/lwip/prot/ethernet.h), the conversions of byte order (include/lwip/def.h),
    the error codes (include/lwip/err.h) and the fields of [struct netif]
    (include/lwip/netif.h).

    An IPv4 address is the 32-bit number the code has in memory, network byte order read
    by a little-endian processor; [le_bytes] turns it into the four bytes of a packet.
    The build has one interface (LWIP_SINGLE_NETIF), so a pointer to an interface is
    NULL or the interface. *)

From S2P Require Import Prelude Chksum.

(** ** Error codes *)

Definition ERR_BUF : Z := -2.
Definition ERR_RTE : Z := -4.
Definition ERR_USE : Z := -8.

(** ** Byte order *)

Definition PP_HTONS (x : Z) : Z := lwip_htons x.
Definition PP_HTONL (x : Z) : Z :=
  Z.lor (Z.lor (Z.lor (u32 (Z.shiftl (Z.land x 0xff) 24)) (Z.shiftl (Z.land x 0xff00) 8))
    (Z.shiftr (Z.land x 0xff0000) 8)) (Z.shiftr (Z.land x 0xff000000) 24).

(** [a.b.c.d] *)
Definition IP4_ADDR (a b c d : Z) : Z :=
  PP_HTONL (Z.lor (Z.lor (Z.lor (Z.shiftl a 24) (Z.shiftl b 16)) (Z.shiftl c 8)) d).

(** ** The interface *)

Definition NETIF_FLAG_UP : Z := 0x01.
Definition NETIF_FLAG_BROADCAST : Z := 0x02.
Definition NETIF_FLAG_LINK_UP : Z := 0x04.
Definition NETIF_FLAG_ETHARP : Z := 0x08.

(** The callbacks are the calls of the components above and below; the other fields are
    not read by the code modelled here. *)
Record netif := mk_netif {
  nf_ip_addr : Z;
  nf_netmask : Z;
  nf_gw : Z;
  nf_mtu : Z;
  nf_hwaddr : list Z;
  nf_flags : Z;
  nf_num : Z }.
#[export] Instance eta_netif : Eta netif := fun n =>
  mk_netif (nf_ip_addr n) (nf_netmask n) (nf_gw n) (nf_mtu n) (nf_hwaddr n) (nf_flags n) (nf_num n).

Definition nf_flag (n : netif) (f : Z) : bool := negb (Z.land (nf_flags n) f =? 0).
Definition netif_is_up (n : netif) : bool := nf_flag n NETIF_FLAG_UP.
Definition netif_is_link_up (n : netif) : bool := nf_flag n NETIF_FLAG_LINK_UP.
Definition netif_get_index (n : netif) : Z := u8 (nf_num n + 1).
Definition NETIF_NO_INDEX : Z := 0.

(** ** IPv4 addresses *)

Definition IPADDR_ANY : Z := 0.
Definition IPADDR_BROADCAST : Z := 0xffffffff.

(** [~x] at 32 bits *)
Definition not32 (x : Z) : Z := u32 (Z.lnot x).

Definition ip4_addr_isany_val (a : Z) : bool := a =? IPADDR_ANY.
Definition ip4_addr_netcmp (a b mask : Z) : bool := Z.land a mask =? Z.land b mask.
Definition ip4_addr_ismulticast (a : Z) : bool := Z.land a (PP_HTONL 0xf0000000) =? PP_HTONL 0xe0000000.
Definition ip4_addr_islinklocal (a : Z) : bool := Z.land a (PP_HTONL 0xffff0000) =? PP_HTONL 0xa9fe0000.
Definition ip4_addr_isloopback (a : Z) : bool := Z.land a (PP_HTONL 0xff000000) =? PP_HTONL (Z.shiftl 127 24).
Definition ip4_addr_get_byte (a idx : Z) : Z := mem_get (le_bytes 4 a) idx.

Definition ip4_addr_isbroadcast_u32 (addr : Z) (n : netif) : bool :=
  if (not32 addr =? IPADDR_ANY) || (addr =? IPADDR_ANY) then true
  else if negb (nf_flag n NETIF_FLAG_BROADCAST) then false
  else if addr =? nf_ip_addr n then false
  else if ip4_addr_netcmp addr (nf_ip_addr n) (nf_netmask n) &&
          (Z.land addr (not32 (nf_netmask n)) =? Z.land IPADDR_BROADCAST (not32 (nf_netmask n))) then true
  else false.

(** The loops of [ip4_addr_netmask_valid] over the masks of one bit from the highest on:
    where the first zero is, and whether a one comes after it. *)
Fixpoint first_zero (nm : Z) (masks : list Z) : list Z :=
  match masks with
  | [] => []
  | m :: ms => if Z.land nm m =? 0 then masks else first_zero nm ms
  end.
Fixpoint no_one (nm : Z) (masks : list Z) : bool :=
  match masks with
  | [] => true
  | m :: ms => if negb (Z.land nm m =? 0) then false else no_one nm ms
  end.
Definition masks : list Z := Z.shiftl 1 <$> reverse (seqZ 0 32).
Definition ip4_addr_netmask_valid (netmask : Z) : bool :=
  let nm := PP_HTONL netmask in no_one nm (first_zero nm masks).

(** The one interface is also the default one. *)
Definition ip4_route (n : netif) (dest : Z) : bool :=
  negb (negb (netif_is_up n) || negb (netif_is_link_up n) || ip4_addr_isany_val (nf_ip_addr n) || ip4_addr_isloopback dest).

(** ** Ethernet *)

Definition ETH_HWADDR_LEN : Z := 6.
Definition SIZEOF_ETH_HDR : Z := 14.
Definition ETHTYPE_IP : Z := 0x0800.
Definition ETHTYPE_ARP : Z := 0x0806.
Definition LL_IP4_MULTICAST_ADDR_0 : Z := 0x01.
Definition LL_IP4_MULTICAST_ADDR_1 : Z := 0x00.
Definition LL_IP4_MULTICAST_ADDR_2 : Z := 0x5e.
Definition ethbroadcast : list Z := repeat 0xff 6.
Definition ethzero : list Z := repeat 0 6.

(** ** Facts *)

(** The four bytes of an address and back. *)
Lemma ip4_bytes a : is_u32 a -> le_val (le_bytes 4 a) = a.
Proof. intros Ha. rewrite le_val_bytes. by apply Z.mod_small. Qed.
