(* ===== verification/Etharp.v ===== *)
(** * Etharp: Ethernet and address resolution

    src/lib/lwip/src/netif/ethernet.c and src/lib/lwip/src/core/ipv4/etharp.c with the
    options of this build: ten entries, static entries supported, one packet queued per
    entry (ARP_QUEUEING is 0), no VLAN, AUTOIP or DHCP client, a single interface.

    The state [net] is the table, the index of the entry found last, the interface, the
    packet buffers of [Pbuf] and whatever the layers above and below keep. The layer
    below is the class [NetLink], the function [netif->linkoutput]; the layer above the
    class [NetUp], [ip4_input]. Both act on the whole of [net]: main.c's [linkoutput_fn]
    runs the USB task while it waits for room, which hands received frames to
    [ethernet_input] before it returns, so a call to send may come back with other
    entries in the table. Where the C passes a pointer into the table or into a packet
    the model reads through it at the place where the C does. *)

From S2P Require Import Prelude Chksum Mem NetMem Pbuf Inet.

(** ** The table *)

Definition ARP_TABLE_SIZE : Z := 10.
Definition ARP_MAXAGE : Z := 300.
Definition ARP_AGE_REREQUEST_USED_UNICAST : Z := ARP_MAXAGE - 30.
Definition ARP_AGE_REREQUEST_USED_BROADCAST : Z := ARP_MAXAGE - 15.
Definition ARP_MAXPENDING : Z := 5.

(** [enum etharp_state], which the code compares by order. *)
Definition ETHARP_STATE_EMPTY : Z := 0.
Definition ETHARP_STATE_PENDING : Z := 1.
Definition ETHARP_STATE_STABLE : Z := 2.
Definition ETHARP_STATE_STABLE_REREQUESTING_1 : Z := 3.
Definition ETHARP_STATE_STABLE_REREQUESTING_2 : Z := 4.
Definition ETHARP_STATE_STATIC : Z := 5.

Definition ETHARP_FLAG_TRY_HARD : Z := 1.
Definition ETHARP_FLAG_FIND_ONLY : Z := 2.
Definition ETHARP_FLAG_STATIC_ENTRY : Z := 4.

(** [ae_netif]: whether the pointer to the interface is set. *)
Record etharp_entry := mk_entry {
  ae_q : option Z;
  ae_ipaddr : Z;
  ae_netif : bool;
  ae_ethaddr : list Z;
  ae_ctime : Z;
  ae_state : Z }.
#[export] Instance eta_entry : Eta etharp_entry := fun e =>
  mk_entry (ae_q e) (ae_ipaddr e) (ae_netif e) (ae_ethaddr e) (ae_ctime e) (ae_state e).

Record net (A X : Type) := mk_net {
  arp_table : list etharp_entry;
  etharp_cached_entry : Z;
  n_netif : netif;
  n_pb : pbufs A;
  n_up : X }.
Arguments mk_net {A X}. Arguments arp_table {A X}. Arguments etharp_cached_entry {A X}. Arguments n_netif {A X}.
Arguments n_pb {A X}. Arguments n_up {A X}.
#[export] Instance eta_net A X : Eta (net A X) := fun s =>
  mk_net (arp_table s) (etharp_cached_entry s) (n_netif s) (n_pb s) (n_up s).

(** [netif->linkoutput(netif, p)] and [ip4_input(p, netif)]. *)
Class NetLink (A X : Type) := linkoutput : Z -> STO (net A X) Z.
Class NetUp (A X : Type) := ip4_input : Z -> STO (net A X) unit.

(** ** The ARP message *)

Definition SIZEOF_ETHARP_HDR : Z := 28.
Definition ARP_REQUEST : Z := 1.
Definition ARP_REPLY : Z := 2.
Definition HWTYPE_ETHERNET : Z := 1.

(** [struct etharp_hdr] as [etharp_raw] fills it in. *)
Definition etharp_hdr (opcode : Z) (shwaddr : list Z) (sipaddr : Z) (dhwaddr : list Z) (dipaddr : Z) : list Z :=
  le_bytes 2 (PP_HTONS HWTYPE_ETHERNET) ++ le_bytes 2 (PP_HTONS ETHTYPE_IP) ++ [ETH_HWADDR_LEN; 4] ++
  le_bytes 2 (lwip_htons opcode) ++ shwaddr ++ le_bytes 4 sipaddr ++ dhwaddr ++ le_bytes 4 dipaddr.

(** [struct eth_hdr] *)
Definition eth_hdr (dest src : list Z) (type : Z) : list Z := dest ++ src ++ le_bytes 2 (lwip_htons type).

(** ** Finding an entry *)

(** What the sweep over the table remembers. *)
Record sweep := mk_sweep {
  sw_empty : Z; sw_stable : Z; sw_pending : Z; sw_queue : Z;
  sw_age_stable : Z; sw_age_pending : Z; sw_age_queue : Z }.
#[export] Instance eta_sweep : Eta sweep := fun w =>
  mk_sweep (sw_empty w) (sw_stable w) (sw_pending w) (sw_queue w) (sw_age_stable w) (sw_age_pending w) (sw_age_queue w).
Definition sweep_start : sweep := mk_sweep ARP_TABLE_SIZE ARP_TABLE_SIZE ARP_TABLE_SIZE ARP_TABLE_SIZE 0 0 0.

(** An entry that is in use and does not match is a candidate to be recycled. *)
Definition sweep_used (i : Z) (e : etharp_entry) (w : sweep) : sweep :=
  if ae_state e =? ETHARP_STATE_PENDING then
    if bool_decide (is_Some (ae_q e)) then
      if sw_age_queue w <=? ae_ctime e then w <| sw_queue := i |> <| sw_age_queue := ae_ctime e |> else w
    else
      if sw_age_pending w <=? ae_ctime e then w <| sw_pending := i |> <| sw_age_pending := ae_ctime e |> else w
  else if (ETHARP_STATE_STABLE <=? ae_state e) && (ae_state e <? ETHARP_STATE_STATIC) then
    if sw_age_stable w <=? ae_ctime e then w <| sw_stable := i |> <| sw_age_stable := ae_ctime e |> else w
  else w.

(** The loop from index [i] on: the entry that matches, or the candidates. *)
Fixpoint sweep_table (ipaddr : option Z) (l : list etharp_entry) (i : Z) (w : sweep) : Z + sweep :=
  match l with
  | [] => inr w
  | e :: l =>
      if (sw_empty w =? ARP_TABLE_SIZE) && (ae_state e =? ETHARP_STATE_EMPTY) then
        sweep_table ipaddr l (i + 1) (w <| sw_empty := i |>)
      else if negb (ae_state e =? ETHARP_STATE_EMPTY) then
        if bool_decide (ipaddr = Some (ae_ipaddr e)) then inl i
        else sweep_table ipaddr l (i + 1) (sweep_used i e w)
      else sweep_table ipaddr l (i + 1) w
  end.

Section etharp.
Context {A X : Type} `{NetMem A, CustomPbuf A} `{NetLink A X, NetUp A X}.

(** Access to the table, the interface and the packet buffers. *)
Definition arp_get (i : Z) : STO (net A X) etharp_entry := fun s =>
  match arp_table s !! Z.to_nat i with Some e => Some (e, s) | None => None end.
Definition arp_put (i : Z) (e : etharp_entry) : STO (net A X) unit :=
  sto_mod (fun s => s <| arp_table := <[Z.to_nat i := e]> (arp_table s) |>).
Definition arp_mod (i : Z) (f : etharp_entry -> etharp_entry) : STO (net A X) unit :=
  let? e := arp_get i in arp_put i (f e).
Definition get_netif : STO (net A X) netif := fun s => Some (n_netif s, s).
Definition pb_do {R} (m : STO (pbufs A) R) : STO (net A X) R := fun s =>
  match m (n_pb s) with Some (r, b) => Some (r, s <| n_pb := b |>) | None => None end.
Definition set_addrhint (i : Z) : STO (net A X) unit := sto_mod (fun s => s <| etharp_cached_entry := i |>).

(** ** Sending a frame *)

Definition ethernet_output (p : Z) (src dst : list Z) (eth_type : Z) : STO (net A X) Z :=
  let? r := pb_do (pbuf_add_header (Some p) SIZEOF_ETH_HDR) in
  if negb (r =? 0) then sto_ret ERR_BUF
  else
    let? b := pb_do (deref p) in
    pb_do (data_write (pb_payload b) (eth_hdr dst src eth_type)) ;?;
    linkoutput p.

Definition etharp_raw (ethsrc_addr ethdst_addr hwsrc_addr : list Z) (ipsrc_addr : Z) (hwdst_addr : list Z) (ipdst_addr opcode : Z)
    : STO (net A X) Z :=
  let? p := pb_do (pbuf_alloc PBUF_LINK SIZEOF_ETHARP_HDR PBUF_RAM) in
  match p with
  | None => sto_ret ERR_MEM
  | Some p =>
      let? b := pb_do (deref p) in
      pb_do (data_write (pb_payload b) (etharp_hdr opcode hwsrc_addr ipsrc_addr hwdst_addr ipdst_addr)) ;?;
      ethernet_output p ethsrc_addr ethdst_addr ETHTYPE_ARP ;?;
      pb_do (pbuf_free (Some p)) ;?;
      sto_ret ERR_OK
  end.

Definition etharp_request_dst (ipaddr : Z) (hw_dst_addr : list Z) : STO (net A X) Z :=
  let? n := get_netif in
  etharp_raw (nf_hwaddr n) hw_dst_addr (nf_hwaddr n) (nf_ip_addr n) ethzero ipaddr ARP_REQUEST.

Definition etharp_request (ipaddr : Z) : STO (net A X) Z := etharp_request_dst ipaddr ethbroadcast.

(** ** Entries *)

Definition etharp_free_entry (i : Z) : STO (net A X) unit :=
  let? e := arp_get i in
  match ae_q e with
  | Some q => pb_do (pbuf_free (Some q)) ;?; arp_mod i (fun e => e <| ae_q := None |>)
  | None => sto_ret tt
  end ;?;
  arp_mod i (fun e => e <| ae_state := ETHARP_STATE_EMPTY |>).

(** One turn of the loop of [etharp_tmr]. *)
Definition etharp_tmr_entry (i : Z) : STO (net A X) unit :=
  let? e := arp_get i in
  let state := ae_state e in
  if negb (state =? ETHARP_STATE_EMPTY) && negb (state =? ETHARP_STATE_STATIC) then
    arp_mod i (fun e => e <| ae_ctime := u16 (ae_ctime e + 1) |>) ;?;
    let? e := arp_get i in
    if (ARP_MAXAGE <=? ae_ctime e) || ((ae_state e =? ETHARP_STATE_PENDING) && (ARP_MAXPENDING <=? ae_ctime e)) then
      etharp_free_entry i
    else if ae_state e =? ETHARP_STATE_STABLE_REREQUESTING_1 then
      arp_mod i (fun e => e <| ae_state := ETHARP_STATE_STABLE_REREQUESTING_2 |>)
    else if ae_state e =? ETHARP_STATE_STABLE_REREQUESTING_2 then
      arp_mod i (fun e => e <| ae_state := ETHARP_STATE_STABLE |>)
    else if ae_state e =? ETHARP_STATE_PENDING then
      if ae_netif e then etharp_request (ae_ipaddr e) ;?; sto_ret tt else sto_stop
    else sto_ret tt
  else sto_ret tt.

Definition etharp_tmr : STO (net A X) unit := sto_iter etharp_tmr_entry (seqZ 0 ARP_TABLE_SIZE).

(** Which entry is recycled for want of an empty one; [None] if none may be. *)
Definition recycled (w : sweep) : option Z :=
  if sw_stable w <? ARP_TABLE_SIZE then Some (sw_stable w)
  else if sw_pending w <? ARP_TABLE_SIZE then Some (sw_pending w)
  else if sw_queue w <? ARP_TABLE_SIZE then Some (sw_queue w)
  else None.

(** The index of the entry, or [ERR_MEM]. *)
Definition etharp_find_entry (ipaddr : option Z) (flags : Z) : STO (net A X) Z :=
  let? s := sto_get in
  match sweep_table ipaddr (arp_table s) 0 sweep_start with
  | inl i => sto_ret i
  | inr w =>
      if negb (Z.land flags ETHARP_FLAG_FIND_ONLY =? 0) ||
         ((sw_empty w =? ARP_TABLE_SIZE) && (Z.land flags ETHARP_FLAG_TRY_HARD =? 0)) then sto_ret ERR_MEM
      else
        let? i := (if sw_empty w <? ARP_TABLE_SIZE then sto_ret (Some (sw_empty w))
                   else
                     match recycled w with
                     | None => sto_ret None
                     | Some i => etharp_free_entry i ;?; sto_ret (Some i)
                     end) in
        match i with
        | None => sto_ret ERR_MEM
        | Some i =>
            match ipaddr with
            | Some a => arp_mod i (fun e => e <| ae_ipaddr := a |>)
            | None => sto_ret tt
            end ;?;
            arp_mod i (fun e => e <| ae_ctime := 0 |>) ;?;
            sto_ret i
        end
  end.

Definition etharp_update_arp_entry (ipaddr : Z) (ethaddr : list Z) (flags : Z) : STO (net A X) Z :=
  let? n := get_netif in
  if ip4_addr_isany_val ipaddr || ip4_addr_isbroadcast_u32 ipaddr n || ip4_addr_ismulticast ipaddr then sto_ret ERR_ARG
  else
    let? i := etharp_find_entry (Some ipaddr) flags in
    if i <? 0 then sto_ret i
    else
      let? e := arp_get i in
      if (Z.land flags ETHARP_FLAG_STATIC_ENTRY =? 0) && (ae_state e =? ETHARP_STATE_STATIC) then sto_ret ERR_VAL
      else
        arp_mod i (fun e => e <| ae_state := if negb (Z.land flags ETHARP_FLAG_STATIC_ENTRY =? 0) then ETHARP_STATE_STATIC
                                             else ETHARP_STATE_STABLE |>) ;?;
        arp_mod i (fun e => e <| ae_netif := true |>) ;?;
        arp_mod i (fun e => e <| ae_ethaddr := ethaddr |>) ;?;
        arp_mod i (fun e => e <| ae_ctime := 0 |>) ;?;
        let? e := arp_get i in
        match ae_q e with
        | Some p =>
            arp_mod i (fun e => e <| ae_q := None |>) ;?;
            let? n := get_netif in
            ethernet_output p (nf_hwaddr n) ethaddr ETHTYPE_IP ;?;
            pb_do (pbuf_free (Some p)) ;?; sto_ret tt
        | None => sto_ret tt
        end ;?;
        sto_ret ERR_OK.

Definition etharp_add_static_entry (ipaddr : Z) (ethaddr : list Z) : STO (net A X) Z :=
  let? n := get_netif in
  if negb (ip4_route n ipaddr) then sto_ret ERR_RTE
  else etharp_update_arp_entry ipaddr ethaddr (Z.lor ETHARP_FLAG_TRY_HARD ETHARP_FLAG_STATIC_ENTRY).

Definition etharp_remove_static_entry (ipaddr : Z) : STO (net A X) Z :=
  let? i := etharp_find_entry (Some ipaddr) ETHARP_FLAG_FIND_ONLY in
  if i <? 0 then sto_ret i
  else
    let? e := arp_get i in
    if negb (ae_state e =? ETHARP_STATE_STATIC) then sto_ret ERR_ARG
    else etharp_free_entry i ;?; sto_ret ERR_OK.

(** For the one interface. *)
Definition etharp_cleanup_netif : STO (net A X) unit :=
  sto_iter (fun i =>
    let? e := arp_get i in
    sto_when (negb (ae_state e =? ETHARP_STATE_EMPTY) && ae_netif e) (etharp_free_entry i)) (seqZ 0 ARP_TABLE_SIZE).

(** The index, and through the pointers the two addresses. *)
Definition etharp_find_addr (ipaddr : Z) : STO (net A X) (option (Z * list Z * Z)) :=
  let? i := etharp_find_entry (Some ipaddr) ETHARP_FLAG_FIND_ONLY in
  if 0 <=? i then
    let? e := arp_get i in
    sto_ret (if ETHARP_STATE_STABLE <=? ae_state e then Some (i, ae_ethaddr e, ae_ipaddr e) else None)
  else sto_ret None.

Definition etharp_get_entry (i : Z) : STO (net A X) (option (Z * bool * list Z)) :=
  if i <? ARP_TABLE_SIZE then
    let? e := arp_get i in
    sto_ret (if ETHARP_STATE_STABLE <=? ae_state e then Some (ae_ipaddr e, ae_netif e, ae_ethaddr e) else None)
  else sto_ret None.

(** ** Receiving *)

(** The header is read where the packet begins; its length is not looked at. *)
Definition etharp_input (p : Z) : STO (net A X) unit :=
  let? b := pb_do (deref p) in
  let hdr := pb_payload b in
  let? h := pb_do (data_read hdr SIZEOF_ETHARP_HDR) in
  if negb (le_val (mem_read 0 2 h) =? PP_HTONS HWTYPE_ETHERNET) || negb (mem_get h 4 =? ETH_HWADDR_LEN) ||
     negb (mem_get h 5 =? 4) || negb (le_val (mem_read 2 2 h) =? PP_HTONS ETHTYPE_IP) then
    pb_do (pbuf_free (Some p)) ;?; sto_ret tt
  else
    let sipaddr := le_val (mem_read 14 4 h) in
    let dipaddr := le_val (mem_read 24 4 h) in
    let? n := get_netif in
    let for_us := if ip4_addr_isany_val (nf_ip_addr n) then false else dipaddr =? nf_ip_addr n in
    etharp_update_arp_entry sipaddr (mem_read 8 6 h) (if for_us then ETHARP_FLAG_TRY_HARD else ETHARP_FLAG_FIND_ONLY) ;?;
    let? opcode := pb_do (data_read (hdr + 6) 2) in
    (if le_val opcode =? PP_HTONS ARP_REQUEST then
       sto_when for_us
         (let? n := get_netif in
          let? shwaddr := pb_do (data_read (hdr + 8) 6) in
          etharp_raw (nf_hwaddr n) shwaddr (nf_hwaddr n) (nf_ip_addr n) shwaddr sipaddr ARP_REPLY ;?; sto_ret tt)
     else sto_ret tt) ;?;
    pb_do (pbuf_free (Some p)) ;?; sto_ret tt.

Definition PBUF_FLAG_LLBCAST : Z := 0x08.
Definition PBUF_FLAG_LLMCAST : Z := 0x10.

(** Takes over [p]; the result is always [ERR_OK]. *)
Definition ethernet_input (p : Z) : STO (net A X) Z :=
  let drop := pb_do (pbuf_free (Some p)) ;?; sto_ret ERR_OK in
  let? b := pb_do (deref p) in
  if pb_len b <=? SIZEOF_ETH_HDR then drop
  else
    let? n := get_netif in
    (if pb_if_idx b =? NETIF_NO_INDEX then pb_do (put_pbuf p (b <| pb_if_idx := netif_get_index n |>)) else sto_ret tt) ;?;
    let? ethhdr := pb_do (data_read (pb_payload b) SIZEOF_ETH_HDR) in
    let type := le_val (mem_read 12 2 ethhdr) in
    let dest := mem_read 0 6 ethhdr in
    let flag := if Z.land (mem_get dest 0) 1 =? 0 then 0
                else if mem_get dest 0 =? LL_IP4_MULTICAST_ADDR_0 then
                  if (mem_get dest 1 =? LL_IP4_MULTICAST_ADDR_1) && (mem_get dest 2 =? LL_IP4_MULTICAST_ADDR_2)
                  then PBUF_FLAG_LLMCAST else 0
                else if bool_decide (dest = ethbroadcast) then PBUF_FLAG_LLBCAST else 0 in
    let? b := pb_do (deref p) in
    pb_do (put_pbuf p (b <| pb_flags := Z.lor (pb_flags b) flag |>)) ;?;
    if (type =? PP_HTONS ETHTYPE_IP) || (type =? PP_HTONS ETHTYPE_ARP) then
      if negb (nf_flag n NETIF_FLAG_ETHARP) then drop
      else
        let? r := pb_do (pbuf_remove_header (Some p) SIZEOF_ETH_HDR) in
        if negb (r =? 0) then drop
        else (if type =? PP_HTONS ETHTYPE_IP then ip4_input p else etharp_input p) ;?; sto_ret ERR_OK
    else drop.

(** ** Sending an IP packet *)

Definition etharp_output_to_arp_index (q arp_idx : Z) : STO (net A X) Z :=
  let? e := arp_get arp_idx in
  (if ae_state e =? ETHARP_STATE_STABLE then
     if ARP_AGE_REREQUEST_USED_BROADCAST <=? ae_ctime e then
       let? r := etharp_request (ae_ipaddr e) in
       sto_when (r =? ERR_OK) (arp_mod arp_idx (fun e => e <| ae_state := ETHARP_STATE_STABLE_REREQUESTING_1 |>))
     else if ARP_AGE_REREQUEST_USED_UNICAST <=? ae_ctime e then
       let? r := etharp_request_dst (ae_ipaddr e) (ae_ethaddr e) in
       sto_when (r =? ERR_OK) (arp_mod arp_idx (fun e => e <| ae_state := ETHARP_STATE_STABLE_REREQUESTING_1 |>))
     else sto_ret tt
   else sto_ret tt) ;?;
  let? n := get_netif in
  let? e := arp_get arp_idx in
  ethernet_output q (nf_hwaddr n) (ae_ethaddr e) ETHTYPE_IP.

Definition PBUF_TYPE_FLAG_DATA_VOLATILE : Z := 0x40.
Definition PBUF_NEEDS_COPY (b : pbuf) : bool := negb (Z.land (pb_type_internal b) PBUF_TYPE_FLAG_DATA_VOLATILE =? 0).

(** The loop of [etharp_query] along the packet. *)
Fixpoint needs_copy_loop (fuel : nat) (p : option Z) : STO (pbufs A) bool :=
  match p, fuel with
  | None, _ => sto_ret false
  | Some _, O => sto_stop
  | Some p, S fuel =>
      let? b := deref p in
      if PBUF_NEEDS_COPY b then sto_ret true else needs_copy_loop fuel (pb_next b)
  end.

(** The packet kept for an entry that is pending: [q] with a reference more, or a copy. *)
Definition etharp_take_packet (q : Z) : STO (pbufs A) (option Z) :=
  let? s := sto_get in
  let? copy_needed := needs_copy_loop (chain_fuel s) (Some q) in
  if copy_needed then pbuf_clone PBUF_LINK PBUF_RAM q
  else pbuf_ref (Some q) ;?; sto_ret (Some q).

Definition etharp_query (ipaddr : Z) (q : option Z) : STO (net A X) Z :=
  let? n := get_netif in
  if ip4_addr_isbroadcast_u32 ipaddr n || ip4_addr_ismulticast ipaddr || ip4_addr_isany_val ipaddr then sto_ret ERR_ARG
  else
    let? i := etharp_find_entry (Some ipaddr) ETHARP_FLAG_TRY_HARD in
    if i <? 0 then sto_ret i
    else
      let? e := arp_get i in
      let is_new_entry := ae_state e =? ETHARP_STATE_EMPTY in
      sto_when is_new_entry
        (arp_mod i (fun e => e <| ae_state := ETHARP_STATE_PENDING |>) ;?; arp_mod i (fun e => e <| ae_netif := true |>)) ;?;
      let? result := (if is_new_entry || bool_decide (q = None) then etharp_request ipaddr else sto_ret ERR_MEM) in
      match q with
      | None => sto_ret result
      | Some q =>
          let? e := arp_get i in
          if ETHARP_STATE_STABLE <=? ae_state e then
            set_addrhint i ;?;
            let? n := get_netif in
            ethernet_output q (nf_hwaddr n) (ae_ethaddr e) ETHTYPE_IP
          else if ae_state e =? ETHARP_STATE_PENDING then
            let? p := pb_do (etharp_take_packet q) in
            match p with
            | Some p =>
                let? e := arp_get i in
                match ae_q e with
                | Some old => pb_do (pbuf_free (Some old)) ;?; sto_ret tt
                | None => sto_ret tt
                end ;?;
                arp_mod i (fun e => e <| ae_q := Some p |>) ;?;
                sto_ret ERR_OK
            | None => sto_ret ERR_MEM
            end
          else sto_ret result
      end.

(** The loop over the table in [etharp_output], from index [i] on. *)
Fixpoint find_stable (dst_addr : Z) (l : list etharp_entry) (i : Z) : option Z :=
  match l with
  | [] => None
  | e :: l =>
      if (ETHARP_STATE_STABLE <=? ae_state e) && (dst_addr =? ae_ipaddr e) then Some i
      else find_stable dst_addr l (i + 1)
  end.

Definition etharp_output (q ipaddr : Z) : STO (net A X) Z :=
  let? n := get_netif in
  if ip4_addr_isbroadcast_u32 ipaddr n then ethernet_output q (nf_hwaddr n) ethbroadcast ETHTYPE_IP
  else if ip4_addr_ismulticast ipaddr then
    let mcastaddr := [LL_IP4_MULTICAST_ADDR_0; LL_IP4_MULTICAST_ADDR_1; LL_IP4_MULTICAST_ADDR_2;
                      Z.land (ip4_addr_get_byte ipaddr 1) 0x7f; ip4_addr_get_byte ipaddr 2; ip4_addr_get_byte ipaddr 3] in
    ethernet_output q (nf_hwaddr n) mcastaddr ETHTYPE_IP
  else
    let outside := negb (ip4_addr_netcmp ipaddr (nf_ip_addr n) (nf_netmask n)) && negb (ip4_addr_islinklocal ipaddr) in
    if outside && ip4_addr_isany_val (nf_gw n) then sto_ret ERR_RTE
    else
      let dst_addr := if outside then nf_gw n else ipaddr in
      let? s := sto_get in
      let? e := arp_get (etharp_cached_entry s) in
      if (ETHARP_STATE_STABLE <=? ae_state e) && (dst_addr =? ae_ipaddr e) then
        etharp_output_to_arp_index q (etharp_cached_entry s)
      else
        match find_stable dst_addr (arp_table s) 0 with
        | Some i => set_addrhint i ;?; etharp_output_to_arp_index q i
        | None => etharp_query dst_addr (Some q)
        end.

(** ** From the driver *)

(** The part of main.c's [tud_network_recv_cb] that hands a frame to the stack; [false]
    when there is no buffer for it. *)
Definition recv_frame (src : list Z) : STO (net A X) bool :=
  if negb (zlen src =? 0) then
    let? p := pb_do (pbuf_alloc PBUF_RAW (zlen src) PBUF_POOL) in
    match p with
    | None => sto_ret false
    | Some p =>
        pb_do (pbuf_take (Some p) src (zlen src)) ;?;
        let? r := ethernet_input p in
        (if negb (r =? ERR_OK) then pb_do (pbuf_free (Some p)) ;?; sto_ret tt else sto_ret tt) ;?;
        sto_ret true
    end
  else sto_ret true.

End etharp.
