(* ===== verification/EtharpInv.v ===== *)
(** * EtharpInv: what the address resolution keeps

    [ainv] is the invariant of the state of [Etharp]: the ten entries are well formed,
    no address has two entries, ages are within their limits, and the packets that wait
    in the table are exactly the packets the table owns, along with those of the caller
    ([own]) and of the layers above and below ([held]). Every operation keeps it and
    returns, for any link that keeps it: the link may receive frames, and so run these
    operations, before it returns ([NetLinkOk]); so may the layer above ([NetUpOk]).
    [traffic] is what all traffic keeps besides: entries in use stay in use, and static
    entries stay what they are. *)

From stdpp Require Import gmultiset.
From S2P Require Import Prelude Chksum Mem NetMem Pbuf PbufProps PbufOps PbufData PbufCopy Inet Etharp.

(** ** Entries *)

Definition live (e : etharp_entry) : Prop := ae_state e <> ETHARP_STATE_EMPTY.
Definition static (e : etharp_entry) : Prop := ae_state e = ETHARP_STATE_STATIC.

Record entry_ok (e : etharp_entry) : Prop := {
  eo_state : ETHARP_STATE_EMPTY <= ae_state e <= ETHARP_STATE_STATIC;
  eo_ctime : 0 <= ae_ctime e <= ARP_MAXAGE;
  eo_live : live e -> ae_ctime e < ARP_MAXAGE /\ ae_netif e = true;
  eo_pending : ae_state e = ETHARP_STATE_PENDING -> ae_ctime e < ARP_MAXPENDING;
  eo_empty : ~ live e -> ae_q e = None;
  eo_ethaddr : zlen (ae_ethaddr e) = ETH_HWADDR_LEN }.

Ltac eunf := unfold live, static, ETHARP_STATE_EMPTY, ETHARP_STATE_PENDING, ETHARP_STATE_STABLE, ETHARP_STATE_STABLE_REREQUESTING_1,
  ETHARP_STATE_STABLE_REREQUESTING_2, ETHARP_STATE_STATIC, ARP_MAXAGE, ARP_MAXPENDING, ARP_TABLE_SIZE in *.
Ltac esimp := cbn [setf eta eta_entry ae_q ae_ipaddr ae_netif ae_ethaddr ae_ctime ae_state] in *.

(** What becomes of an entry while traffic passes. *)
Record slot_kept (e e' : etharp_entry) : Prop := {
  sk_live : live e -> live e';
  sk_static : static e <-> static e';
  sk_fixed : static e -> ae_ipaddr e' = ae_ipaddr e /\ ae_ethaddr e' = ae_ethaddr e }.

Lemma slot_kept_refl e : slot_kept e e.
Proof. done. Qed.
Lemma slot_kept_trans e f g : slot_kept e f -> slot_kept f g -> slot_kept e g.
Proof.
  intros [H1 H2 H3] [K1 K2 K3]. constructor; [auto|by rewrite H2|]. intros Hs. destruct (H3 Hs) as [<- <-]. apply K3. by apply H2.
Qed.

Definition slots_kept (l l' : list etharp_entry) : Prop := Forall2 slot_kept l l'.
Lemma slots_kept_refl l : slots_kept l l.
Proof. by apply Forall_Forall2_diag, Forall_true, slot_kept_refl. Qed.
Lemma slots_kept_trans l k j : slots_kept l k -> slots_kept k j -> slots_kept l j.
Proof. intros H. revert j. induction H; intros j Hj; inversion Hj; subst; constructor; [by eapply slot_kept_trans|by apply IHForall2]. Qed.
Lemma slots_kept_insert (l l' : list etharp_entry) i e e' : slots_kept l l' -> l !! i = Some e -> slot_kept e e' ->
  slots_kept l (<[i := e']> l').
Proof.
  intros H. revert i. induction H as [|x y l l' Hx H IH]; intros i Hi He; [done|]. destruct i as [|i]; cbn in *.
  - injection Hi as ->. by constructor.
  - constructor; [done|]. by apply IH.
Qed.
Lemma slots_kept_lookup l l' i e : slots_kept l l' -> l !! i = Some e -> exists e', l' !! i = Some e' /\ slot_kept e e'.
Proof. intros H. apply (Forall2_lookup_l _ _ _ _ _ H). Qed.

(** ** The packets that wait in the table *)

Definition queued (l : list etharp_entry) : gmultiset Z := foldr (fun e m => next_ms (ae_q e) ⊎ m) ∅ l.

Lemma queued_insert l i e e' : l !! i = Some e -> queued (<[i := e']> l) ⊎ next_ms (ae_q e) = queued l ⊎ next_ms (ae_q e').
Proof.
  revert i. induction l as [|x l IH]; intros i Hi; [done|]. destruct i as [|i].
  - injection Hi as ->. change (next_ms (ae_q e') ⊎ queued l ⊎ next_ms (ae_q e) = next_ms (ae_q e) ⊎ queued l ⊎ next_ms (ae_q e')).
    generalize (next_ms (ae_q e)), (next_ms (ae_q e')), (queued l). multiset_solver.
  - change (next_ms (ae_q x) ⊎ queued (<[i := e']> l) ⊎ next_ms (ae_q e) = next_ms (ae_q x) ⊎ queued l ⊎ next_ms (ae_q e')).
    by rewrite <- !(assoc_L (⊎)), IH.
Qed.
Lemma queued_same l i e e' : l !! i = Some e -> ae_q e' = ae_q e -> queued (<[i := e']> l) = queued l.
Proof.
  intros Hi E. pose proof (queued_insert l i e e' Hi) as Hq. rewrite E in Hq. by apply (inj (.⊎ next_ms (ae_q e))) in Hq.
Qed.
Lemma queued_out l i e e' p : l !! i = Some e -> ae_q e = Some p -> ae_q e' = None -> queued l = {[+ p +]} ⊎ queued (<[i := e']> l).
Proof. intros Hi E E'. pose proof (queued_insert l i e e' Hi) as Hq. rewrite E, E' in Hq. cbn [next_ms] in Hq. multiset_solver. Qed.
Lemma queued_in l i e e' p : l !! i = Some e -> ae_q e = None -> ae_q e' = Some p -> queued (<[i := e']> l) = {[+ p +]} ⊎ queued l.
Proof. intros Hi E E'. pose proof (queued_insert l i e e' Hi) as Hq. rewrite E, E' in Hq. cbn [next_ms] in Hq. multiset_solver. Qed.
Lemma elem_of_queued l p : p ∈ queued l <-> exists e, e ∈ l /\ ae_q e = Some p.
Proof.
  induction l as [|x l IH]; cbn [queued foldr].
  - split; [intros H; by apply gmultiset_elem_of_empty in H|]. intros (e & He & _). by apply not_elem_of_nil in He.
  - rewrite gmultiset_elem_of_disj_union. fold (queued l). rewrite IH. split.
    + intros [H|(e & He & E)]; [|exists e; split; [by right|done]]. exists x. split; [left|]. destruct (ae_q x) as [q|]; cbn in H.
      * apply gmultiset_elem_of_singleton in H. by subst.
      * by apply gmultiset_elem_of_empty in H.
    + intros (e & He & E). apply elem_of_cons in He as [->|He]; [|right; by exists e]. left. rewrite E. cbn. by apply gmultiset_elem_of_singleton.
Qed.

Lemma own_out (q : Z) (own m h : gmultiset Z) : own ⊎ ({[+ q +]} ⊎ m ⊎ h) = {[+ q +]} ⊎ (own ⊎ (m ⊎ h)).
Proof. multiset_solver. Qed.

(** No address twice. *)
Definition unique (l : list etharp_entry) : Prop := forall i j e f,
  l !! i = Some e -> l !! j = Some f -> live e -> live f -> ae_ipaddr e = ae_ipaddr f -> i = j.

Lemma unique_insert l i e e' : unique l -> l !! i = Some e -> (live e' -> live e /\ ae_ipaddr e' = ae_ipaddr e) -> unique (<[i := e']> l).
Proof.
  intros Hu Hi He j k f g Hj Hk Hf Hg Efg. apply list_lookup_insert_Some in Hj as [(<- & <- & _)|[Hne Hj]], Hk as [(<- & <- & _)|[Hnk Hk]]; [done| | |by eapply Hu].
  - destruct (He Hf) as [Hl E]. eapply (Hu i k e g); try done. congruence.
  - destruct (He Hg) as [Hl E]. eapply (Hu j i f e); try done. congruence.
Qed.
Lemma unique_new l i e e' : unique l -> l !! i = Some e -> (forall f, f ∈ l -> live f -> ae_ipaddr f <> ae_ipaddr e') -> unique (<[i := e']> l).
Proof.
  intros Hu Hi He j k f g Hj Hk Hf Hg Efg. apply list_lookup_insert_Some in Hj as [(<- & <- & _)|[Hne Hj]], Hk as [(<- & <- & _)|[Hnk Hk]]; [done| | |by eapply Hu].
  - exfalso. eapply (He g); [by eapply list_elem_of_lookup_2|done|done].
  - exfalso. eapply (He f); [by eapply list_elem_of_lookup_2|done|done].
Qed.

(** ** The sweep *)

Definition cand (l : list etharp_entry) (P : etharp_entry -> Prop) (i : Z) : Prop :=
  i = ARP_TABLE_SIZE \/ (0 <= i < ARP_TABLE_SIZE /\ exists e, l !! Z.to_nat i = Some e /\ P e).
Record sweep_ok (l : list etharp_entry) (w : sweep) : Prop := {
  so_empty : cand l (fun e => ~ live e) (sw_empty w);
  so_stable : cand l (fun e => live e /\ ~ static e) (sw_stable w);
  so_pending : cand l (fun e => live e /\ ~ static e) (sw_pending w);
  so_queue : cand l (fun e => live e /\ ~ static e) (sw_queue w) }.

Lemma sweep_used_ok l i e w : sweep_ok l w -> l !! Z.to_nat i = Some e -> 0 <= i < ARP_TABLE_SIZE -> live e -> sweep_ok l (sweep_used i e w).
Proof.
  intros [H1 H2 H3 H4] He Hi Hl. assert (~ static e -> cand l (fun e => live e /\ ~ static e) i) as Hc by (intros; right; by eauto).
  unfold sweep_used. repeat case_if; try (by constructor); constructor; try done; cbn; apply Hc; eunf; bool_prop; lia.
Qed.

Lemma sweep_table_ok a l k : forall i w, length (l ++ k) = Z.to_nat ARP_TABLE_SIZE -> i = Z.of_nat (length l) -> sweep_ok (l ++ k) w ->
  match sweep_table (Some a) k i w with
  | inl j => 0 <= j < ARP_TABLE_SIZE /\ exists e, (l ++ k) !! Z.to_nat j = Some e /\ live e /\ ae_ipaddr e = a
  | inr w' => sweep_ok (l ++ k) w' /\ forall e, e ∈ k -> live e -> ae_ipaddr e <> a
  end.
Proof.
  revert l. induction k as [|e k IH]; intros l i w Hlen Hi Hw; cbn [sweep_table].
  { split; [done|]. intros e He. by apply not_elem_of_nil in He. }
  assert ((l ++ e :: k) !! Z.to_nat i = Some e) as He by (rewrite Hi, Nat2Z.id; apply list_lookup_middle; done).
  assert (0 <= i < ARP_TABLE_SIZE) as Hr by (rewrite length_app in Hlen; cbn in Hlen; eunf; lia).
  specialize (IH (l ++ [e])). rewrite <- app_assoc in IH. cbn [app] in IH.
  assert (forall w', sweep_ok (l ++ e :: k) w' -> (live e -> ae_ipaddr e <> a) ->
    match sweep_table (Some a) k (i + 1) w' with
    | inl j => 0 <= j < ARP_TABLE_SIZE /\ exists e', (l ++ e :: k) !! Z.to_nat j = Some e' /\ live e' /\ ae_ipaddr e' = a
    | inr w'' => sweep_ok (l ++ e :: k) w'' /\ forall e', e' ∈ e :: k -> live e' -> ae_ipaddr e' <> a
    end) as Hgo.
  { intros w' Hw' Hne. specialize (IH (i + 1) w' Hlen ltac:(rewrite length_app; cbn; lia) Hw'). destruct (sweep_table _ _ _ _); [done|]. destruct IH as [? IH]. split; [done|].
    intros e' Hin. apply elem_of_cons in Hin as [->|Hin]; [done|by apply IH]. }
  case_if.
  - apply andb_true_iff in E as [_ E%Z.eqb_eq]. apply Hgo; [|by intros Hl]. destruct Hw as [H1 H2 H3 H4]. constructor; try done. cbn. right. split; [done|].
    exists e. split; [done|]. intros Hl. by apply Hl.
  - destruct (Z.eqb_spec (ae_state e) ETHARP_STATE_EMPTY) as [Es|Es]; cbn [negb].
    + apply Hgo; [done|by intros Hl].
    + case_bool_decide as Ea; [injection Ea as Ea; split; [done|]; by exists e|]. apply Hgo; [by apply sweep_used_ok|]. intros _ Eq. by rewrite Eq in Ea.
Qed.

Lemma sweep_start_ok l : sweep_ok l sweep_start.
Proof. by constructor; left. Qed.

(** ** The invariant *)

Section inv.
Context {A X : Type} `{NetMem A, !NetMemOk A, CustomPbuf A} {base : gset Z} (held : X -> gmultiset Z).

Record ainv (s : net A X) (own : gmultiset Z) : Prop := {
  ai_pb : good (base := base) (n_pb s) (own ⊎ (queued (arp_table s) ⊎ held (n_up s)));
  ai_len : length (arp_table s) = Z.to_nat ARP_TABLE_SIZE;
  ai_entry : Forall entry_ok (arp_table s);
  ai_unique : unique (arp_table s);
  ai_heads : forall p, p ∈ queued (arp_table s) -> incoming (pb_tab (n_pb s)) p = 0%nat;
  ai_cached : 0 <= etharp_cached_entry s < ARP_TABLE_SIZE;
  ai_hwaddr : zlen (nf_hwaddr (n_netif s)) = ETH_HWADDR_LEN }.

(** The packets of [own] are left to their owner: nothing leads into one that nothing led
    into, and the other layers take no more references to it. *)
Definition spared (own : gmultiset Z) (s s' : net A X) : Prop := forall p, p ∈ own ->
  (incoming (pb_tab (n_pb s)) p = 0%nat -> incoming (pb_tab (n_pb s')) p = 0%nat) /\
  (multiplicity p (held (n_up s')) <= multiplicity p (held (n_up s)))%nat.

Lemma spared_pb own s s' : heads_kept (pb_tab (n_pb s)) (pb_tab (n_pb s')) -> n_up s' = n_up s -> spared own s s'.
Proof. intros Hh E p _. rewrite E. split; [apply Hh|done]. Qed.
Lemma spared_trans own s1 s2 s3 : spared own s1 s2 -> spared own s2 s3 -> spared own s1 s3.
Proof. intros H1 H2 p Hp. destruct (H1 p Hp), (H2 p Hp). split; [auto|lia]. Qed.
Lemma spared_sub own own' s s' : own ⊆ own' -> spared own' s s' -> spared own s s'.
Proof. intros Hs H1 p Hp. apply H1. clear H1. multiset_solver. Qed.

(** What traffic keeps. *)
Record traffic (own : gmultiset Z) (s s' : net A X) : Prop := {
  tr_own : spared own s s';
  tr_slots : slots_kept (arp_table s) (arp_table s') }.

Lemma traffic_refl own s : traffic own s s.
Proof. constructor; [apply spared_pb; [apply heads_kept_refl|done]|]. apply slots_kept_refl. Qed.
Lemma traffic_trans own s1 s2 s3 : traffic own s1 s2 -> traffic own s2 s3 -> traffic own s1 s3.
Proof. intros [H1 H2] [K1 K2]. constructor; [by eapply spared_trans|]. by eapply slots_kept_trans. Qed.
Lemma traffic_sub own own' s s' : own ⊆ own' -> traffic own' s s' -> traffic own s s'.
Proof. intros Hs [H1 H2]. constructor; [|done]. by eapply spared_sub. Qed.

(** ** Steps *)

Ltac nsimp := cbn [setf eta eta_net arp_table etharp_cached_entry n_netif n_pb n_up] in *.

Lemma swp_pb_do {R} (m : STO (pbufs A) R) (Q : R -> net A X -> Prop) s :
  sto_wp m (fun r b => Q r (s <| n_pb := b |>)) (n_pb s) -> sto_wp (pb_do m) Q s.
Proof. unfold sto_wp, pb_do. by destruct (m (n_pb s)) as [[r b]|]. Qed.

Lemma swp_netif (Q : netif -> net A X -> Prop) s : Q (n_netif s) s -> sto_wp get_netif Q s.
Proof. done. Qed.

Lemma swp_arp_get i e (Q : etharp_entry -> net A X -> Prop) s : arp_table s !! Z.to_nat i = Some e -> Q e s -> sto_wp (arp_get i) Q s.
Proof. unfold sto_wp, arp_get. by intros ->. Qed.

Definition set_entry (i : Z) (e : etharp_entry) (s : net A X) : net A X := s <| arp_table := <[Z.to_nat i := e]> (arp_table s) |>.

Lemma swp_arp_mod i e f (Q : unit -> net A X -> Prop) s : arp_table s !! Z.to_nat i = Some e -> Q tt (set_entry i (f e) s) -> sto_wp (arp_mod i f) Q s.
Proof. intros He HQ. unfold arp_mod. apply swp_bind. eapply swp_arp_get; [done|]. by apply swp_mod. Qed.

Lemma set_entry_lookup i e e' s : arp_table s !! Z.to_nat i = Some e -> arp_table (set_entry i e' s) !! Z.to_nat i = Some e'.
Proof. intros He. apply list_lookup_insert_eq. by eapply lookup_lt_Some. Qed.

Lemma set_entry_twice i e e' s : set_entry i e (set_entry i e' s) = set_entry i e s.
Proof. unfold set_entry. nsimp. by rewrite list_insert_insert_eq. Qed.

(** An entry of the table. *)
Lemma ainv_lookup s own i : ainv s own -> 0 <= i < ARP_TABLE_SIZE -> exists e, arp_table s !! Z.to_nat i = Some e /\ entry_ok e.
Proof.
  intros Hi Hr. destruct (lookup_lt_is_Some_2 (arp_table s) (Z.to_nat i)) as [e He]; [rewrite (ai_len _ _ Hi); lia|].
  exists e. split; [done|]. eapply Forall_lookup_1; [apply (ai_entry _ _ Hi)|done].
Qed.

(** The packet buffers change. *)
Lemma ainv_pb s own own' b : ainv s own -> good (base := base) b (own' ⊎ (queued (arp_table s) ⊎ held (n_up s))) ->
  (forall p, p ∈ queued (arp_table s) -> incoming (pb_tab (n_pb s)) p = 0%nat -> incoming (pb_tab b) p = 0%nat) ->
  ainv (s <| n_pb := b |>) own'.
Proof. intros [H1 H2 H3 H4 H5 H6 H7] Hg Hh. constructor; nsimp; auto. Qed.

Lemma traffic_pb own s b : heads_kept (pb_tab (n_pb s)) (pb_tab b) -> traffic own s (s <| n_pb := b |>).
Proof. intros Hh. constructor; [by apply spared_pb|apply slots_kept_refl]. Qed.

(** An entry changes, and perhaps the packets. *)
Lemma ainv_replace s own own' i e e' b : ainv s own -> arp_table s !! Z.to_nat i = Some e -> entry_ok e' ->
  (live e' -> live e /\ ae_ipaddr e' = ae_ipaddr e) \/ (forall f, f ∈ arp_table s -> live f -> ae_ipaddr f <> ae_ipaddr e') ->
  good (base := base) b (own' ⊎ (queued (<[Z.to_nat i := e']> (arp_table s)) ⊎ held (n_up s))) ->
  (forall p, p ∈ queued (<[Z.to_nat i := e']> (arp_table s)) -> incoming (pb_tab b) p = 0%nat) ->
  ainv (set_entry i e' (s <| n_pb := b |>)) own'.
Proof.
  intros [H1 H2 H3 H4 H5 H6 H7] He Hok Hu Hg Hh. unfold set_entry. constructor; nsimp; try done.
  - by rewrite length_insert.
  - by apply Forall_insert.
  - destruct Hu; [by eapply unique_insert|by eapply unique_new].
Qed.

(** An entry changes, but not its packet. *)
Lemma ainv_set s own i e e' : ainv s own -> arp_table s !! Z.to_nat i = Some e -> entry_ok e' -> ae_q e' = ae_q e ->
  (live e' -> live e /\ ae_ipaddr e' = ae_ipaddr e) \/ (forall f, f ∈ arp_table s -> live f -> ae_ipaddr f <> ae_ipaddr e') ->
  ainv (set_entry i e' s) own.
Proof.
  intros Hi He Hok Eq Hu. pose proof (queued_same _ _ _ e' He Eq) as Es.
  replace s with (s <| n_pb := n_pb s |>) by (by destruct s). eapply ainv_replace; [exact Hi|done..| |]; rewrite Es; by apply Hi.
Qed.

Lemma traffic_set own s i e e' : arp_table s !! Z.to_nat i = Some e -> slot_kept e e' -> traffic own s (set_entry i e' s).
Proof. intros He Hk. constructor; [apply spared_pb; [apply heads_kept_refl|done]|]. unfold set_entry. nsimp. eapply slots_kept_insert; [apply slots_kept_refl|done|done]. Qed.

(** Giving up a packet. *)
Lemma swp_free_own s own p (Q : Z -> net A X -> Prop) : ainv s ({[+ p +]} ⊎ own) ->
  (forall r b, let s' := s <| n_pb := b |> in ainv s' own -> traffic own s s' ->
     pk_kept (own ⊎ (queued (arp_table s) ⊎ held (n_up s))) (n_pb s) b -> heads_kept (pb_tab (n_pb s)) (pb_tab b) -> Q r s') ->
  sto_wp (pb_do (pbuf_free (Some p))) Q s.
Proof.
  intros Hi HQ. apply swp_pb_do. pose proof (ai_pb _ _ Hi) as Hg. rewrite <- (assoc_L (⊎)) in Hg. eapply swp_free_pb; [exact Hg|].
  intros r b Hg' Hh Hk. apply HQ; [|by apply traffic_pb|done|done]. eapply ainv_pb; [exact Hi|done|]. intros q _. apply Hh.
Qed.

(** A run that returns and keeps the invariant and the table, as traffic does. *)
Definition carries {R} (own : gmultiset Z) (m : STO (net A X) R) (s : net A X) : Prop :=
  sto_wp m (fun _ s' => ainv s' own /\ traffic own s s') s.

Lemma carries_ret {R} own (r : R) s : ainv s own -> carries own (sto_ret r) s.
Proof. intros Hi. apply swp_ret. split; [done|apply traffic_refl]. Qed.

Lemma carries_bind {R R'} own (m : STO (net A X) R) (k : R -> STO (net A X) R') s : carries own m s ->
  (forall r s', ainv s' own -> traffic own s s' -> carries own (k r) s') -> carries own (sto_bind m k) s.
Proof.
  intros Hm Hk. apply swp_bind. eapply swp_mono; [exact Hm|]. intros r s' [Hi Ht]. eapply swp_mono; [by apply (Hk r s')|].
  intros r' s'' [Hi' Ht']. split; [done|by eapply traffic_trans].
Qed.

(** Steps before the rest. *)
Lemma carries_after {R} own (m : STO (net A X) R) s s' : traffic own s s' -> carries own m s' ->
  sto_wp m (fun _ s'' => ainv s'' own /\ traffic own s s'') s'.
Proof. intros Ht Hm. eapply swp_mono; [exact Hm|]. intros r s'' [Hi Ht']. split; [done|by eapply traffic_trans]. Qed.

End inv.

(** ** The layers above and below *)

(** Sending returns and keeps the invariant: frames may come in meanwhile. *)
Class NetLinkOk {A X : Type} `{NetMem A, !NetMemOk A} (base : gset Z) (held : X -> gmultiset Z) `{!NetLink A X} : Prop :=
  link_ok s own p : ainv (base := base) held s own -> p ∈ own -> carries (base := base) held own (linkoutput p) s.

(** [ip4_input] takes over the packet. *)
Class NetUpOk {A X : Type} `{NetMem A, !NetMemOk A} (base : gset Z) (held : X -> gmultiset Z) `{!NetUp A X} : Prop :=
  up_ok s own p : ainv (base := base) held s ({[+ p +]} ⊎ own) -> incoming (pb_tab (n_pb s)) p = 0%nat ->
    carries (base := base) held own (ip4_input p) s.

Section ops.
Context {A X : Type} `{NetMem A, !NetMemOk A, CustomPbuf A} {base : gset Z} {held : X -> gmultiset Z}.
Context `{!NetLink A X, !NetUp A X, !NetLinkOk base held, !NetUpOk base held}.
Abbreviation ainv := (ainv (base := base) held).
Abbreviation traffic := (traffic held).
Abbreviation carries := (carries (base := base) held).

Lemma eth_hdr_zlen dest src type : zlen dest = ETH_HWADDR_LEN -> zlen src = ETH_HWADDR_LEN -> zlen (eth_hdr dest src type) = SIZEOF_ETH_HDR.
Proof. intros Hd Hs. unfold eth_hdr. rewrite !zlen_app, le_bytes_zlen, Hd, Hs. done. Qed.

Lemma etharp_hdr_zlen opcode sh si dh di : zlen sh = ETH_HWADDR_LEN -> zlen dh = ETH_HWADDR_LEN ->
  zlen (etharp_hdr opcode sh si dh di) = SIZEOF_ETHARP_HDR.
Proof. intros Hs Hd. unfold etharp_hdr. rewrite !zlen_app, !le_bytes_zlen, Hd, Hs. done. Qed.

(** Writing to a buffer. *)
Lemma swp_write_own s own p b d (Q : unit -> net A X -> Prop) : ainv s own -> pb_tab (n_pb s) !! p = Some b -> is_contiguous b -> zlen d <= pb_len b ->
  (forall b', let s' := s <| n_pb := b' |> in ainv s' own -> traffic own s s' -> pb_tab b' = pb_tab (n_pb s) -> Q tt s') ->
  sto_wp (pb_do (data_write (pb_payload b) d)) Q s.
Proof.
  intros Hi Hb Hc Hd HQ. apply swp_pb_do. destruct (ai_pb _ _ _ Hi) as (m & Hp & Hlen). rewrite <- (Z.add_0_r (pb_payload b)).
  eapply swp_data_write; [exact Hp|exact Hb|done|done|lia|]. intros b' Hi' Et _ _.
  assert (heads_kept (pb_tab (n_pb s)) (pb_tab b')) as Hh by (rewrite Et; apply heads_kept_refl).
  apply HQ; [|by apply traffic_pb|done]. eapply ainv_pb; [exact Hi|exists m; split; [exact Hi'|by rewrite Et]|]. intros q _. apply Hh.
Qed.

Lemma ethernet_output_ok s own p src dst type : ainv s own -> p ∈ own -> incoming (pb_tab (n_pb s)) p = 0%nat ->
  zlen src = ETH_HWADDR_LEN -> zlen dst = ETH_HWADDR_LEN -> carries own (ethernet_output p src dst type) s.
Proof.
  intros Hi Hp Hin Hsrc Hdst. unfold ethernet_output, carries. destruct (ai_pb _ _ _ Hi) as (m & Hpi & Hlen).
  destruct (own_chain _ _ _ p Hpi) as (b & l & Hb & Hl); [multiset_solver|]. destruct (pinv_tots _ _ _ _ _ _ Hpi Hlen Hb Hl) as [_ [H0l Hlt]].
  apply swp_bind, swp_pb_do. change SIZEOF_ETH_HDR with 14. eapply (swp_add_header (n_pb s) m); [exact Hpi|exact Hb|done|lia| |].
  { cbn [Z.eqb negb]. apply swp_ret. replace (s <| n_pb := n_pb s |>) with s by (by destruct s). split; [done|apply traffic_refl]. }
  intros [Hc|?] Hw; [|done]. intros b1 Hi1. cbn [Z.eqb negb]. set (bb := b <| pb_payload := _ |> <| pb_len := _ |> <| pb_tot_len := _ |>) in *.
  set (s1 := s <| n_pb := b1 |>). assert (heads_kept (pb_tab (n_pb s)) (pb_tab b1)) as Hh1 by (by apply (heads_kept_put _ _ b)).
  assert (ainv s1 own) as Ha1.
  { eapply ainv_pb; [exact Hi| |intros q _; apply Hh1]. eapply good_put; [exact Hpi|done|exact Hb|by left|done| |exact Hi1]. cbn. lia. }
  assert (traffic own s s1) as Ht1 by (by apply traffic_pb).
  assert (pb_tab (n_pb s1) !! p = Some bb) as Hb1 by apply lookup_insert_eq.
  apply swp_bind, swp_pb_do. eapply swp_deref; [exact Hb1|]. replace (s1 <| n_pb := n_pb s1 |>) with s1 by done.
  apply swp_bind. eapply swp_write_own; [exact Ha1|exact Hb1|exact Hc|rewrite eth_hdr_zlen by done; cbn; unfold SIZEOF_ETH_HDR; lia|].
  intros b2 s2 Ha2 Ht2 _. apply carries_after; [by eapply traffic_trans|]. by apply link_ok.
Qed.

Lemma etharp_raw_ok s own esrc edst hsrc isrc hdst idst op : ainv s own -> zlen esrc = ETH_HWADDR_LEN -> zlen edst = ETH_HWADDR_LEN ->
  zlen hsrc = ETH_HWADDR_LEN -> zlen hdst = ETH_HWADDR_LEN -> carries own (etharp_raw esrc edst hsrc isrc hdst idst op) s.
Proof.
  intros Hi H1 H2 H3 H4. unfold etharp_raw, carries. destruct (ai_pb _ _ _ Hi) as (m & Hpi & Hlen).
  apply swp_bind, swp_pb_do. eapply swp_alloc_ram; [exact Hpi|done|done| |].
  { apply swp_ret. replace (s <| n_pb := n_pb s |>) with s by (by destruct s). split; [done|apply traffic_refl]. }
  intros p a sz b b1 Hp Hi1 _. pose proof (tab_fresh _ _ _ _ Hpi Hp) as Htp. pose proof (incoming_absent _ _ _ _ Hpi Htp) as Hin.
  set (s1 := s <| n_pb := b1 |>). assert (heads_kept (pb_tab (n_pb s)) (pb_tab b1)) as Hh1 by (by apply heads_kept_new).
  assert (ainv s1 ({[+ p +]} ⊎ own)) as Ha1.
  { eapply ainv_pb; [exact Hi| |intros q _; apply Hh1]. rewrite <- (assoc_L (⊎)). by eapply good_alloc_one. }
  assert (traffic own s s1) as Ht1 by (by apply traffic_pb).
  assert (pb_tab (n_pb s1) !! p = Some b) as Hb1 by apply lookup_insert_eq.
  apply swp_bind, swp_pb_do. eapply swp_deref; [exact Hb1|]. replace (s1 <| n_pb := n_pb s1 |>) with s1 by done.
  apply swp_bind. eapply swp_write_own; [exact Ha1|exact Hb1|done|by rewrite etharp_hdr_zlen|].
  intros b2 s2 Ha2 Ht2 Et2. apply swp_bind. eapply swp_mono; [apply (ethernet_output_ok s2 ({[+ p +]} ⊎ own) p); [done|multiset_solver| |done|done]|].
  { cbn. rewrite Et2. by apply Hh1. }
  intros _ s3 [Ha3 Ht3]. apply swp_bind. eapply (swp_free_own held s3 own p); [exact Ha3|]. intros r b4 s4 Ha4 Ht4 _ _. apply swp_ret. split; [done|].
  assert (own ⊆ {[+ p +]} ⊎ own) as Hsub by multiset_solver.
  eapply traffic_trans; [exact Ht1|]. eapply traffic_trans; [by eapply traffic_sub|]. eapply traffic_trans; [by eapply traffic_sub|done].
Qed.

Lemma etharp_request_dst_ok s own ip hw : ainv s own -> zlen hw = ETH_HWADDR_LEN -> carries own (etharp_request_dst ip hw) s.
Proof. intros Hi Hh. unfold etharp_request_dst. apply swp_bind, swp_netif. pose proof (ai_hwaddr _ _ _ Hi). by apply etharp_raw_ok. Qed.
Lemma etharp_request_ok s own ip : ainv s own -> carries own (etharp_request ip) s.
Proof. intros Hi. by apply etharp_request_dst_ok. Qed.

(** ** Entries come and go *)

Definition freed (e : etharp_entry) : etharp_entry := e <| ae_q := None |> <| ae_state := ETHARP_STATE_EMPTY |>.
Lemma freed_ok e : entry_ok e -> entry_ok (freed e).
Proof. intros [H1 H2 H3 H4 H5 H6]. constructor; unfold freed; esimp; eunf; esimp; try done; lia. Qed.

Lemma set_entry_same i e (s : net A X) : arp_table s !! Z.to_nat i = Some e -> set_entry i e s = s.
Proof. intros He. unfold set_entry. rewrite list_insert_id by done. by destruct s. Qed.

(** An entry is emptied after it has been changed to [e']. *)
Lemma swp_free_changed s own i e e' (Q : unit -> net A X -> Prop) : ainv s own -> arp_table s !! Z.to_nat i = Some e ->
  ae_q e' = ae_q e -> entry_ok (freed e') ->
  (forall b, let s' := set_entry i (freed e') (s <| n_pb := b |>) in ainv s' own -> heads_kept (pb_tab (n_pb s)) (pb_tab b) ->
     pk_kept (own ⊎ queued (<[Z.to_nat i := freed e']> (arp_table s))) (n_pb s) b -> Q tt s') ->
  sto_wp (etharp_free_entry i) Q (set_entry i e' s).
Proof.
  intros Hi He Eqe Hok HQ. unfold etharp_free_entry.
  assert ((live (freed e') -> live e /\ ae_ipaddr (freed e') = ae_ipaddr e) \/ (forall f, f ∈ arp_table s -> live f -> ae_ipaddr f <> ae_ipaddr (freed e'))) as Hu
    by (left; intros Hl; by destruct Hl).
  assert (arp_table (set_entry i e' s) !! Z.to_nat i = Some e') as He' by (by eapply set_entry_lookup).
  apply swp_bind. eapply swp_arp_get; [exact He'|]. apply swp_bind. destruct (ae_q e') as [q|] eqn:Eq; symmetry in Eqe.
  - pose proof (queued_out _ _ e (freed e') q He Eqe eq_refl) as Eo. apply swp_bind, swp_pb_do. eapply swp_free_pb.
    { pose proof (ai_pb _ _ _ Hi) as Hg. rewrite Eo, own_out in Hg. exact Hg. }
    intros r b Hg Hh Hk. eapply swp_arp_mod; [exact He'|]. eapply swp_arp_mod; [by eapply set_entry_lookup|]. rewrite set_entry_twice.
    change ((set_entry i e' s) <| n_pb := b |>) with (set_entry i e' (s <| n_pb := b |>)). rewrite set_entry_twice.
    apply HQ; [|done|eapply pk_kept_sub; [|exact Hk]; rewrite (assoc_L (⊎)); apply gmultiset_disj_union_subseteq_l].
    eapply ainv_replace; [exact Hi|exact He|done|done|exact Hg|].
    intros p Hp. apply Hh, (ai_heads _ _ _ Hi). rewrite Eo. apply gmultiset_elem_of_disj_union. by right.
  - apply swp_ret. eapply swp_arp_mod; [exact He'|]. specialize (HQ (n_pb s)). replace (s <| n_pb := n_pb s |>) with s in HQ by (by destruct s).
    replace (e' <| ae_state := ETHARP_STATE_EMPTY |>) with (freed e') by (destruct e'; cbn in Eq; by subst). rewrite set_entry_twice.
    apply HQ; [|apply heads_kept_refl|apply pk_kept_refl]. eapply ainv_set; [exact Hi|exact He|done|by rewrite Eqe|done].
Qed.

Lemma swp_free_entry s own i e (Q : unit -> net A X -> Prop) : ainv s own -> arp_table s !! Z.to_nat i = Some e ->
  (forall b, let s' := set_entry i (freed e) (s <| n_pb := b |>) in ainv s' own -> heads_kept (pb_tab (n_pb s)) (pb_tab b) ->
     pk_kept (own ⊎ queued (<[Z.to_nat i := freed e]> (arp_table s))) (n_pb s) b -> Q tt s') ->
  sto_wp (etharp_free_entry i) Q s.
Proof.
  intros Hi He HQ. rewrite <- (set_entry_same i e s He). eapply swp_free_changed; [exact Hi|exact He|done| |done].
  apply freed_ok. by eapply Forall_lookup_1; [apply (ai_entry _ _ _ Hi)|].
Qed.

(** A new entry for address [a] in the place of [e]. *)
Definition renewed (a : Z) (e : etharp_entry) : etharp_entry := freed e <| ae_ipaddr := a |> <| ae_ctime := 0 |>.
Lemma renewed_ok a e : entry_ok e -> entry_ok (renewed a e).
Proof. intros [H1 H2 H3 H4 H5 H6]. constructor; unfold renewed, freed; esimp; eunf; esimp; try done; lia. Qed.

(** What [etharp_find_entry] returns: the entry of the address, a new one, or an error. *)
Inductive find_result (a : Z) (own : gmultiset Z) (s : net A X) : Z -> net A X -> Prop :=
  | find_none : find_result a own s ERR_MEM s
  | find_old i e : 0 <= i < ARP_TABLE_SIZE -> arp_table s !! Z.to_nat i = Some e -> live e -> ae_ipaddr e = a -> find_result a own s i s
  | find_new i e b : 0 <= i < ARP_TABLE_SIZE -> arp_table s !! Z.to_nat i = Some e -> ~ static e ->
      (forall f, f ∈ arp_table s -> live f -> ae_ipaddr f <> a) -> heads_kept (pb_tab (n_pb s)) (pb_tab b) -> pk_kept own (n_pb s) b ->
      find_result a own s i (set_entry i (renewed a e) (s <| n_pb := b |>)).

Lemma find_entry_ok s own a flags : ainv s own ->
  sto_wp (etharp_find_entry (Some a) flags) (fun r s' => find_result a own s r s' /\ ainv s' own) s.
Proof.
  intros Hi. unfold etharp_find_entry. apply swp_bind, swp_get.
  pose proof (sweep_table_ok a [] (arp_table s) 0 sweep_start (ai_len _ _ _ Hi) eq_refl (sweep_start_ok _)) as Hs. cbn [app] in Hs.
  destruct (sweep_table _ _ _ _) as [i|w].
  { destruct Hs as (Hr & e & He & Hl & Ea). apply swp_ret. split; [by eapply find_old|done]. }
  destruct Hs as [[Hse Hss Hsp Hsq] Hno].
  apply swp_if; intros E; [apply swp_ret; split; [constructor|done]|]. clear E. apply swp_bind.
  assert (forall (s1 : net A X) i e e1 b, 0 <= i < ARP_TABLE_SIZE -> arp_table s !! Z.to_nat i = Some e -> ~ static e -> e1 = freed e ->
    heads_kept (pb_tab (n_pb s)) (pb_tab b) -> pk_kept own (n_pb s) b -> s1 = set_entry i e1 (s <| n_pb := b |>) -> ainv s1 own ->
    sto_wp (arp_mod i (fun e => e <| ae_ipaddr := a |>) ;?; arp_mod i (fun e => e <| ae_ctime := 0 |>) ;?; sto_ret i)
      (fun r s' => find_result a own s r s' /\ ainv s' own) s1) as Hend.
  { intros s1 i e e1 b Hr He Hst -> Hh Hk Es1 Hi1. subst s1.
    assert (arp_table (set_entry i (freed e) (s <| n_pb := b |>)) !! Z.to_nat i = Some (freed e)) as He1 by (by eapply set_entry_lookup).
    apply swp_bind. eapply swp_arp_mod; [exact He1|]. apply swp_bind. eapply swp_arp_mod; [by eapply set_entry_lookup|]. apply swp_ret.
    rewrite set_entry_twice. split; [rewrite set_entry_twice; by eapply find_new|].
    eapply ainv_set; [exact Hi1|exact He1| |done|]; [apply renewed_ok; by eapply Forall_lookup_1; [apply (ai_entry _ _ _ Hi)|]|].
    left. intros Hl. by destruct Hl. }
  case_if.
  - apply swp_ret. destruct Hse as [Ez|(Hr & e & He & Hl)]; [by rewrite Ez in E|].
    pose proof (Forall_lookup_1 _ _ _ _ (ai_entry _ _ _ Hi) He) as Hok.
    assert (freed e = e) as Ef.
    { pose proof (eo_empty _ Hok Hl) as Hq. unfold freed. destruct e as [q ip nf eth ct st]. esimp. subst q.
      destruct (Z.eq_dec st 0) as [->|Hne]; [done|]. by destruct Hl. }
    eapply (Hend s (sw_empty w) e (freed e) (n_pb s)); [done|exact He| |done|apply heads_kept_refl|apply pk_kept_refl| |done].
    + intros Hs. apply Hl. intros Hz. unfold static in Hs. rewrite Hz in Hs. done.
    + rewrite Ef. replace (s <| n_pb := n_pb s |>) with s by (by destruct s). unfold set_entry. rewrite list_insert_id by done. by destruct s.
  - assert (forall i, recycled w = Some i -> 0 <= i < ARP_TABLE_SIZE /\ exists e, arp_table s !! Z.to_nat i = Some e /\ live e /\ ~ static e) as Hrec.
    { intros i. unfold recycled.
      destruct Hss as [-> |(? & e1 & ? & ?)]; [rewrite Z.ltb_irrefl|case_if; [intros [= <-]; by eauto|]];
      (destruct Hsp as [-> |(? & e2 & ? & ?)]; [rewrite Z.ltb_irrefl|case_if; [intros [= <-]; by eauto|]]);
      (destruct Hsq as [-> |(? & e3 & ? & ?)]; [rewrite Z.ltb_irrefl|case_if; [intros [= <-]; by eauto|]]); done. }
    destruct (recycled w) as [i|]; [|apply swp_ret, swp_ret; split; [constructor|done]].
    destruct (Hrec i eq_refl) as (Hr & e & He & Hl & Hst). apply swp_bind. eapply swp_free_entry; [exact Hi|exact He|].
    intros b s1 Hi1 Hh Hk. apply swp_ret. eapply (Hend s1 i e (freed e) b); try done. eapply pk_kept_sub; [|exact Hk]. apply gmultiset_disj_union_subseteq_l.
Qed.

(** The entry that was found, and what may be put there. *)
Lemma find_entry_open s own a i s1 : find_result a own s i s1 -> ainv s1 own -> 0 <= i ->
  exists e, arp_table s1 !! Z.to_nat i = Some e /\ entry_ok e /\ 0 <= i < ARP_TABLE_SIZE /\ ae_ipaddr e = a /\ (live e -> s1 = s) /\
    n_netif s1 = n_netif s /\
    (forall e', ae_ipaddr e' = a -> (live e' -> live e /\ ae_ipaddr e' = ae_ipaddr e) \/ (forall f, f ∈ arp_table s1 -> live f -> ae_ipaddr f <> ae_ipaddr e')) /\
    (forall e', live e' -> ~ static e' -> ~ static e -> traffic own s (set_entry i e' s1)).
Proof.
  intros Hf Hi Hpos. destruct Hf as [|i e Hr He Hl Ea|i e b Hr He Hst Hno Hh _]; [done| |].
  - exists e. split_and!; try done; try (by destruct Hr); [by eapply Forall_lookup_1; [apply (ai_entry _ _ _ Hi)|]| |].
    + intros e' Ee'. left. intros _. split; [done|congruence].
    + intros e' Hl' Hs' Hs. eapply traffic_set; [done|]. by constructor.
  - assert (arp_table (set_entry i (renewed a e) (s <| n_pb := b |>)) !! Z.to_nat i = Some (renewed a e)) as He1 by (by eapply set_entry_lookup).
    exists (renewed a e). split_and!; try done; try (by destruct Hr); [by eapply Forall_lookup_1; [apply (ai_entry _ _ _ Hi)|]| |].
    + intros e' Ee'. right. intros f Hin Hl. unfold set_entry in Hin. cbn [setf arp_table] in Hin. rewrite Ee'.
      apply list_elem_of_lookup in Hin as [j Hj]. apply list_lookup_insert_Some in Hj as [(<- & <- & _)|[_ Hj]]; [by destruct Hl|].
      apply Hno; [|done]. by eapply list_elem_of_lookup_2.
    + intros e' Hl' Hs' _. rewrite set_entry_twice. constructor; [by apply spared_pb|]. unfold set_entry. cbn [setf arp_table].
      eapply slots_kept_insert; [apply slots_kept_refl|exact He|]. by constructor.
Qed.

(** The packet of an entry leaves the table. *)
Lemma ainv_take s own i e p : ainv s own -> arp_table s !! Z.to_nat i = Some e -> ae_q e = Some p ->
  let s' := set_entry i (e <| ae_q := None |>) s in ainv s' ({[+ p +]} ⊎ own) /\ traffic own s s' /\ incoming (pb_tab (n_pb s')) p = 0%nat.
Proof.
  intros Hi He Eq s'. pose proof (Forall_lookup_1 _ _ _ _ (ai_entry _ _ _ Hi) He) as Hok.
  pose proof (queued_out _ _ e (e <| ae_q := None |>) p He Eq eq_refl) as Eo. split_and!.
  - replace s' with (set_entry i (e <| ae_q := None |>) (s <| n_pb := n_pb s |>)) by (by destruct s).
    eapply ainv_replace; [exact Hi|exact He| |left; done| |].
    + by destruct Hok.
    + pose proof (ai_pb _ _ _ Hi) as Hg. rewrite Eo, own_out in Hg. by rewrite <- (assoc_L (⊎)).
    + intros q Hq. apply (ai_heads _ _ _ Hi). rewrite Eo. apply gmultiset_elem_of_disj_union. by right.
  - eapply traffic_set; [exact He|]. by constructor.
  - apply (ai_heads _ _ _ Hi). rewrite Eo. apply gmultiset_elem_of_disj_union. left. by apply gmultiset_elem_of_singleton.
Qed.

(** Sending a packet that is given up afterwards. *)
Lemma send_and_free s own p src dst type : ainv s ({[+ p +]} ⊎ own) -> incoming (pb_tab (n_pb s)) p = 0%nat ->
  zlen src = ETH_HWADDR_LEN -> zlen dst = ETH_HWADDR_LEN ->
  carries own (ethernet_output p src dst type ;?; pb_do (pbuf_free (Some p)) ;?; sto_ret tt) s.
Proof.
  intros Hi Hin Hs Hd. assert (own ⊆ {[+ p +]} ⊎ own) as Hsub by multiset_solver. apply swp_bind.
  eapply swp_mono; [apply (ethernet_output_ok s ({[+ p +]} ⊎ own) p); [done|multiset_solver|done..]|].
  intros _ s3 [Ha3 Ht3]. apply swp_bind. eapply (swp_free_own held s3 own p); [exact Ha3|]. intros r b4 s4 Ha4 Ht4 _ _. apply swp_ret. split; [done|].
  eapply traffic_trans; [by eapply traffic_sub|done].
Qed.

Definition updated (flags : Z) (ethaddr : list Z) (e : etharp_entry) : etharp_entry :=
  e <| ae_state := if negb (Z.land flags ETHARP_FLAG_STATIC_ENTRY =? 0) then ETHARP_STATE_STATIC else ETHARP_STATE_STABLE |>
    <| ae_netif := true |> <| ae_ethaddr := ethaddr |> <| ae_ctime := 0 |>.

Lemma updated_ok flags ethaddr e : entry_ok e -> zlen ethaddr = ETH_HWADDR_LEN -> entry_ok (updated flags ethaddr e).
Proof.
  intros [H1 H2 H3 H4 H5 H6] Hz. unfold updated. constructor; esimp; eunf; esimp; try done; case_if; try lia; try done; intros Hn; by destruct Hn.
Qed.

Lemma update_ok s own a eth flags : ainv s own -> zlen eth = ETH_HWADDR_LEN ->
  sto_wp (etharp_update_arp_entry a eth flags)
    (fun _ s' => ainv s' own /\ (Z.land flags ETHARP_FLAG_STATIC_ENTRY = 0 -> traffic own s s')) s.
Proof.
  intros Hi Hz. unfold etharp_update_arp_entry. apply swp_bind, swp_netif. apply swp_if; intros E.
  { apply swp_ret. split; [done|intros; apply traffic_refl]. }
  clear E. apply swp_bind. eapply swp_mono; [by apply (find_entry_ok s own)|]. intros i s1 [Hf Hi1].
  apply swp_if; intros E0.
  { apply swp_ret. split; [done|]. intros _. apply Z.ltb_lt in E0. destruct Hf; [apply traffic_refl|lia|lia]. }
  apply Z.ltb_ge in E0. destruct (find_entry_open _ _ _ _ _ Hf Hi1 E0) as (e & He & Hok & Hr & Ea & Hs1 & En & Hu & Htr).
  apply swp_bind. eapply swp_arp_get; [exact He|]. apply swp_if; intros E1.
  { apply swp_ret. split; [done|]. intros _. apply andb_true_iff in E1 as [_ E1%Z.eqb_eq]. rewrite Hs1; [apply traffic_refl|]. unfold live. by rewrite E1. }
  set (e2 := updated flags eth e). set (s2 := set_entry i e2 s1).
  assert (ainv s2 own) as Hi2 by (eapply ainv_set; [exact Hi1|exact He|by apply updated_ok|done|by apply Hu]).
  assert (Z.land flags ETHARP_FLAG_STATIC_ENTRY = 0 -> traffic own s s2) as Ht2.
  { intros Ef. unfold s2, e2, updated. rewrite Ef in *. cbn [Z.eqb negb andb] in *. apply Htr; [done|done|]. unfold static. by apply Z.eqb_neq in E1. }
  assert (arp_table s2 !! Z.to_nat i = Some e2) as He2 by (by eapply set_entry_lookup).
  apply swp_bind. eapply swp_arp_mod; [exact He|]. apply swp_bind. eapply swp_arp_mod; [by eapply set_entry_lookup|]. rewrite set_entry_twice.
  apply swp_bind. eapply swp_arp_mod; [by eapply set_entry_lookup|]. rewrite set_entry_twice. apply swp_bind. eapply swp_arp_mod; [by eapply set_entry_lookup|].
  rewrite set_entry_twice. fold (updated flags eth e) e2 s2. apply swp_bind. eapply swp_arp_get; [exact He2|].
  apply swp_bind. destruct (ae_q e2) as [p|] eqn:Eq; [|apply swp_ret, swp_ret; by split].
  destruct (ainv_take _ _ _ _ _ Hi2 He2 Eq) as (Hi3 & Ht3 & Hin3). apply swp_bind. eapply swp_arp_mod; [exact He2|].
  apply swp_bind, swp_netif. eapply swp_mono; [apply (send_and_free _ own p); [exact Hi3|exact Hin3|by apply Hi3|done]|].
  intros _ s4 [Hi4 Ht4]. apply swp_ret. split; [done|]. intros Ef. eapply traffic_trans; [by apply Ht2|]. by eapply traffic_trans.
Qed.

(** ** Time *)

(** What time keeps, too. *)
Definition slot_fixed (e e' : etharp_entry) : Prop :=
  static e -> static e' /\ ae_ipaddr e' = ae_ipaddr e /\ ae_ethaddr e' = ae_ethaddr e.
Record aged (own : gmultiset Z) (s s' : net A X) : Prop := {
  ag_own : spared held own s s';
  ag_slots : Forall2 slot_fixed (arp_table s) (arp_table s') }.

Lemma slot_kept_fixed e e' : slot_kept e e' -> slot_fixed e e'.
Proof. intros [_ H2 H3] Hs. split; [by apply H2|by apply H3]. Qed.
Lemma traffic_aged own s s' : traffic own s s' -> aged own s s'.
Proof. intros [H1 H2]. constructor; [done|]. eapply Forall2_impl; [exact H2|apply slot_kept_fixed]. Qed.
Lemma aged_refl own s : aged own s s.
Proof. apply traffic_aged, traffic_refl. Qed.
Lemma aged_trans own s1 s2 s3 : aged own s1 s2 -> aged own s2 s3 -> aged own s1 s3.
Proof.
  intros [H1 H2] [K1 K2]. constructor; [by eapply spared_trans|]. revert K2. generalize (arp_table s3). induction H2 as [|x y l k Hx _ IH]; intros j Hj; inversion Hj; subst; constructor.
  - intros Hs. destruct (Hx Hs) as (? & <- & <-). auto.
  - by apply IH.
Qed.
Lemma aged_set own s i e e' b : arp_table s !! Z.to_nat i = Some e -> ~ static e -> heads_kept (pb_tab (n_pb s)) (pb_tab b) ->
  aged own s (set_entry i e' (s <| n_pb := b |>)).
Proof.
  intros He Hs Hh. constructor; [by apply spared_pb|]. unfold set_entry. cbn [setf arp_table].
  rewrite <- (list_insert_id (arp_table s) (Z.to_nat i) e) at 1 by done.
  apply Forall2_insert; [by apply Forall_Forall2_diag, Forall_true; intros x Hx|]. done.
Qed.
Lemma aged_set_entry own s i e e' : arp_table s !! Z.to_nat i = Some e -> ~ static e -> aged own s (set_entry i e' s).
Proof.
  intros He Hs. replace (set_entry i e' s) with (set_entry i e' (s <| n_pb := n_pb s |>)) by (by destruct s).
  eapply aged_set; [done|done|apply heads_kept_refl].
Qed.

Lemma tmr_entry_ok s own i : ainv s own -> 0 <= i < ARP_TABLE_SIZE ->
  sto_wp (etharp_tmr_entry i) (fun _ s' => ainv s' own /\ aged own s s') s.
Proof.
  intros Hi Hr. destruct (ainv_lookup held s own i Hi Hr) as (e & He & Hok). pose proof Hok as [K1 K2 K3 K4 K5 K6]. unfold etharp_tmr_entry.
  apply swp_bind. eapply swp_arp_get; [exact He|]. apply swp_if; intros E; [|apply swp_ret; split; [done|apply aged_refl]].
  apply andb_true_iff in E as [E1%negb_true_iff%Z.eqb_neq E2%negb_true_iff%Z.eqb_neq]. destruct (K3 E1) as [Hct Hnf].
  set (e1 := e <| ae_ctime := ae_ctime e + 1 |>). assert (arp_table (set_entry i e1 s) !! Z.to_nat i = Some e1) as He1 by (by eapply set_entry_lookup).
  apply swp_bind. eapply swp_arp_mod; [exact He|]. rewrite u16_small by (unfold is_u16; eunf; lia). fold e1. apply swp_bind. eapply swp_arp_get; [exact He1|].
  change (ae_ctime e1) with (ae_ctime e + 1). change (ae_state e1) with (ae_state e).
  apply swp_if; intros Eold.
  { eapply swp_free_changed; [exact Hi|exact He|done| |].
    - constructor; unfold freed, e1; esimp; eunf; esimp; try done; lia.
    - intros b s' Hi' Hh _. split; [done|]. by eapply aged_set. }
  apply orb_false_iff in Eold as [Eold1%Z.leb_gt Eold2].
  assert (entry_ok e1) as Hok1.
  { constructor; unfold e1; eunf; esimp; try done; [lia|]. intros Hp. rewrite Hp in Eold2. cbn in Eold2. apply Z.leb_gt in Eold2. lia. }
  assert (ainv (set_entry i e1 s) own) as Hi1 by (eapply ainv_set; [exact Hi|exact He|done|done|by left]).
  assert (aged own s (set_entry i e1 s)) as Hag1 by (by eapply aged_set_entry).
  assert (forall st, st = ETHARP_STATE_STABLE_REREQUESTING_2 \/ st = ETHARP_STATE_STABLE -> sto_wp (arp_mod i (fun e => e <| ae_state := st |>)) (fun _ s' => ainv s' own /\ aged own s s') (set_entry i e1 s)) as Hst.
  { intros st Hst. eapply swp_arp_mod; [exact He1|]. split.
    - eapply ainv_set; [exact Hi1|exact He1| |done|by left]. constructor; unfold e1; eunf; esimp; try done; destruct Hst; subst st; try lia; try done. all: intros Hn; by destruct Hn.
    - rewrite set_entry_twice. by eapply aged_set_entry. }
  repeat (apply swp_if; intros ?); try (by apply Hst; auto).
  - apply swp_bind. eapply swp_mono; [by apply (etharp_request_ok _ own)|]. intros r s' [Hi' Ht']. apply swp_ret. split; [done|].
    eapply aged_trans; [done|by apply traffic_aged].
  - change (ae_netif e1) with (ae_netif e) in *. congruence.
  - by apply swp_ret.
Qed.

Lemma swp_iter_aged own (f : Z -> STO (net A X) unit) l s : (forall i s, i ∈ l -> ainv s own -> sto_wp (f i) (fun _ s' => ainv s' own /\ aged own s s') s) ->
  ainv s own -> sto_wp (sto_iter f l) (fun _ s' => ainv s' own /\ aged own s s') s.
Proof.
  revert s. induction l as [|i l IH]; intros s Hf Hi; cbn [sto_iter]; [apply swp_ret; split; [done|apply aged_refl]|].
  apply swp_bind. eapply swp_mono; [apply Hf; [left|done]|]. intros _ s1 [Hi1 Ha1]. eapply swp_mono; [apply IH; [|done]|].
  - intros j s' Hj. apply Hf. by right.
  - intros _ s2 [Hi2 Ha2]. split; [done|by eapply aged_trans].
Qed.

Lemma tmr_ok s own : ainv s own -> sto_wp etharp_tmr (fun _ s' => ainv s' own /\ aged own s s') s.
Proof. apply swp_iter_aged. intros i s' Hi%elem_of_seqZ. intros Ha. apply tmr_entry_ok; [done|lia]. Qed.

End ops.
