(* ===== verification/EtharpOps.v ===== *)
(** * EtharpOps: sending, receiving and time keep the invariant

    The rest of the operations of [Etharp] over the invariant of [EtharpInv], and what
    holds in every state reached by sending, receiving and time in any order. *)

From stdpp Require Import gmultiset.
From S2P Require Import Prelude Chksum Mem NetMem Pbuf PbufProps PbufOps PbufData PbufCopy Inet Etharp EtharpInv.

Lemma queued_mult p l : (multiplicity p (queued l) <= length l)%nat.
Proof.
  induction l as [|e l IH]; [done|]. change (queued (e :: l)) with (next_ms (ae_q e) ⊎ queued l). rewrite next_mult. cbn [length].
  unfold b2n. case_decide; lia.
Qed.

Lemma own_swap (p old : Z) (own m m' h : gmultiset Z) : m' ⊎ {[+ old +]} = m ⊎ {[+ p +]} ->
  {[+ p +]} ⊎ (own ⊎ (m ⊎ h)) = {[+ old +]} ⊎ (own ⊎ (m' ⊎ h)).
Proof.
  intros E. apply gmultiset_eq. intros x. apply (f_equal (multiplicity x)) in E. rewrite !multiplicity_disj_union in *. lia.
Qed.

Section ops.
Context {A X : Type} `{NetMem A, !NetMemOk A, CustomPbuf A} {base : gset Z} {held : X -> gmultiset Z}.
Context `{!NetLink A X, !NetUp A X, !NetLinkOk base held, !NetUpOk base held}.
Abbreviation ainv := (ainv (base := base) held).
Abbreviation traffic := (traffic held).
Abbreviation aged := (aged (held := held)).
Abbreviation carries := (carries (base := base) held).

(** ** Sending *)

Lemma ainv_hint s own i : ainv s own -> 0 <= i < ARP_TABLE_SIZE -> ainv (s <| etharp_cached_entry := i |>) own.
Proof. intros [H1 H2 H3 H4 H5 H6 H7] Hr. by constructor. Qed.
Lemma traffic_hint own (s : net A X) (i : Z) : traffic own s (s <| etharp_cached_entry := i |>).
Proof. constructor; [apply spared_pb; [apply heads_kept_refl|done]|apply slots_kept_refl]. Qed.

(** The entry is marked once its address is asked for again. *)
Lemma rerequest_ok s own i e m : ainv s own -> 0 <= i < ARP_TABLE_SIZE -> arp_table s !! Z.to_nat i = Some e -> ae_state e = ETHARP_STATE_STABLE ->
  carries own m s ->
  carries own (let? r := m in sto_when (r =? ERR_OK) (arp_mod i (fun e => e <| ae_state := ETHARP_STATE_STABLE_REREQUESTING_1 |>))) s.
Proof.
  intros Hi Hr He Est Hm. apply carries_bind; [done|]. intros r s1 Hi1 Ht1. apply swp_when; intros _; [|split; [done|apply traffic_refl]].
  destruct (slots_kept_lookup _ _ _ _ (tr_slots _ _ _ _ Ht1) He) as (e1 & He1 & [Hl Hst _]).
  assert (live e1) as Hl1 by (apply Hl; unfold live; by rewrite Est).
  assert (~ static e1) as Hs1 by (rewrite <- Hst; unfold static; by rewrite Est).
  pose proof (Forall_lookup_1 _ _ _ _ (ai_entry _ _ _ Hi1) He1) as Hok. eapply swp_arp_mod; [exact He1|].
  split; [|eapply traffic_set; [exact He1|by constructor]]. eapply ainv_set; [exact Hi1|exact He1| |done|by left].
  destruct Hok as [K1 K2 K3 K4 K5 K6]. destruct (K3 Hl1). constructor; eunf; esimp; try done. intros Hn. by destruct Hn.
Qed.

Lemma to_arp_index_ok s own q i : ainv s own -> q ∈ own -> incoming (pb_tab (n_pb s)) q = 0%nat -> 0 <= i < ARP_TABLE_SIZE ->
  carries own (etharp_output_to_arp_index q i) s.
Proof.
  intros Hi Hq Hin Hr. destruct (ainv_lookup held s own i Hi Hr) as (e & He & Hok). unfold etharp_output_to_arp_index.
  apply swp_bind. eapply swp_arp_get; [exact He|]. apply carries_bind.
  - apply swp_if; intros Est; [apply Z.eqb_eq in Est|by apply carries_ret]. apply swp_if; intros _.
    + eapply rerequest_ok; [done|done|exact He|done|]. by apply etharp_request_ok.
    + apply swp_if; intros _; [|by apply carries_ret]. eapply rerequest_ok; [done|done|exact He|done|]. apply etharp_request_dst_ok; [done|apply Hok].
  - intros _ s1 Hi1 Ht1. apply swp_bind, swp_netif. destruct (ainv_lookup held s1 own i Hi1 Hr) as (e1 & He1 & Hok1).
    apply swp_bind. eapply swp_arp_get; [exact He1|]. apply ethernet_output_ok; [done|done|by apply (tr_own _ _ _ _ Ht1)|apply Hi1|apply Hok1].
Qed.

(** The packet that is kept for later. *)
Lemma needs_copy_loop_eq l : forall fuel (b : pbufs A) p, chain (pb_tab b) p l -> (length l <= fuel)%nat ->
  needs_copy_loop fuel p b = Some (existsb (fun x => PBUF_NEEDS_COPY x.2) l, b).
Proof.
  induction l as [|[a c] l IH]; intros fuel b p Hl Hf; [cbn in Hl; subst p; by destruct fuel|].
  destruct Hl as (-> & Ha & Hl). destruct fuel as [|fuel]; [cbn in Hf; lia|]. cbn [needs_copy_loop existsb]. unfold sto_bind, deref. rewrite Ha. cbn [snd].
  destruct (PBUF_NEEDS_COPY c); [done|]. cbn [orb]. apply IH; [done|cbn in Hf; lia].
Qed.

Lemma take_packet_ok b own q (Q : option Z -> pbufs A -> Prop) : good (base := base) b own -> q ∈ own -> incoming (pb_tab b) q = 0%nat ->
  (multiplicity q own < 255)%nat ->
  Q None b -> (forall p b', good (base := base) b' ({[+ p +]} ⊎ own) -> heads_kept (pb_tab b) (pb_tab b') -> incoming (pb_tab b') p = 0%nat ->
    (forall x c, pb_tab b !! x <> None -> packet b x c -> packet b' x c) ->
    (forall l, chain (pb_tab b) (Some q) l -> no_empty_tail l -> packet b' p (content b l)) -> Q (Some p) b') ->
  sto_wp (etharp_take_packet q) Q b.
Proof.
  intros Hg Hq Hin Hm HN HS. unfold etharp_take_packet. pose proof Hg as Hg0. open_good Hg0. destruct (own_chain _ _ _ q Hi Hq) as (c & l & Hc & Hl).
  apply swp_bind, swp_get, swp_bind. unfold sto_wp at 1. rewrite (needs_copy_loop_eq l) by (unfold chain_fuel; pose proof (chain_length _ _ _ Hl); done || lia).
  apply swp_if; intros _.
  - eapply swp_clone_ram; [exact Hg|done|done|done|]. intros p b' Hg' Hh Hp Hip Hpk Hcl. apply HS; [done|done|done| |done].
    intros x k Hx. apply Hpk. congruence.
  - destruct (pi_ref _ _ _ Hi _ _ Hc) as [Er _]. apply swp_bind.
    assert (pop_ok b own (o_ref q)) as Hok by (exists c; split; [done|lia]).
    assert (heads_kept (pb_tab b) (<[q := c <| pb_ref := pb_ref c + 1 |>]> (pb_tab b))) as Hh by (by eapply heads_kept_put).
    eapply swp_pbuf_ref; [exact Hi|exact Hc|lia|]. intros b' Hi'. apply swp_ret.
    assert (forall x k, packet b x k -> packet b' x k) as Hpk.
    { intros x k Hx. pose proof (packet_put_ref b q c k x Hc Hx) as Hx'. rewrite u8_small in Hx' by (unfold is_u8; lia). exact Hx'. }
    apply HS; [|exact Hh|by apply Hh|intros x k _; apply Hpk|].
    + eexists. split; [exact Hi'|]. eapply lens_shape; [exact Hlen|by eapply pinv_closed|]. intros x d Hd. unfold b' in Hd. cbn [setf pb_tab] in Hd.
      apply lookup_insert_Some in Hd as [[<- <-]|[_ Hd]]; [by exists c|by apply shape_refl].
    + intros k Hk _. apply Hpk. by exists k.
Qed.

(** A packet of [own] that may get as many references as the table can give it. *)
Definition sendable (s : net A X) (own : gmultiset Z) (q : Z) : Prop := q ∈ own /\ incoming (pb_tab (n_pb s)) q = 0%nat /\
  (multiplicity q own + multiplicity q (held (n_up s)) + Z.to_nat ARP_TABLE_SIZE < 255)%nat.

Lemma sendable_traffic s s' own q : traffic own s s' -> sendable s own q -> sendable s' own q.
Proof. intros [Ht _] (Hq & Hin & Hm). destruct (Ht q Hq) as [K1 K2]. split_and!; [done|by apply K1|lia]. Qed.

(** Queueing a packet on an entry that is pending, in the place of the one before. *)
Lemma queue_ok s own i e q : ainv s own -> arp_table s !! Z.to_nat i = Some e -> ae_state e = ETHARP_STATE_PENDING -> sendable s own q ->
  carries own (let? p := pb_do (etharp_take_packet q) in
    match p with
    | Some p =>
        let? e := arp_get i in
        match ae_q e with Some old => pb_do (pbuf_free (Some old)) ;?; sto_ret tt | None => sto_ret tt end ;?;
        arp_mod i (fun e => e <| ae_q := Some p |>) ;?; sto_ret ERR_OK
    | None => sto_ret ERR_MEM
    end) s.
Proof.
  intros Hi He Est (Hq & Hin & Hm). pose proof (Forall_lookup_1 _ _ _ _ (ai_entry _ _ _ Hi) He) as Hok.
  assert (forall p, entry_ok (e <| ae_q := Some p |>)) as Hok'.
  { intros p. destruct Hok as [K1 K2 K3 K4 K5 K6]. constructor; try done. intros Hn. destruct Hn. unfold live. esimp. by rewrite Est. }
  assert (live e) as Hl by (unfold live; by rewrite Est).
  assert (forall p, slot_kept e (e <| ae_q := Some p |>)) as Hk by (by constructor).
  apply swp_bind, swp_pb_do. eapply take_packet_ok; [apply (ai_pb _ _ _ Hi)|apply gmultiset_elem_of_disj_union; by left|done| | |].
  - rewrite !multiplicity_disj_union. pose proof (queued_mult q (arp_table s)) as Hqm. rewrite (ai_len _ _ _ Hi) in Hqm. unfold ARP_TABLE_SIZE in *. lia.
  - apply swp_ret. replace (s <| n_pb := n_pb s |>) with s by (by destruct s). split; [done|apply traffic_refl].
  - intros p b1 Hg1 Hh1 Hp1 _ _. set (s1 := s <| n_pb := b1 |>). assert (arp_table s1 !! Z.to_nat i = Some e) as He1 by done.
    assert (forall b2, heads_kept (pb_tab b1) (pb_tab b2) -> good (base := base) b2 (own ⊎ (queued (<[Z.to_nat i := e <| ae_q := Some p |>]> (arp_table s)) ⊎ held (n_up s))) ->
      (forall x, x ∈ queued (<[Z.to_nat i := e <| ae_q := Some p |>]> (arp_table s)) -> x = p \/ x ∈ queued (arp_table s)) ->
      sto_wp (arp_mod i (fun e => e <| ae_q := Some p |>) ;?; sto_ret ERR_OK) (fun _ s' => ainv s' own /\ traffic own s s') (s1 <| n_pb := b2 |>)) as Hend.
    { intros b2 Hh2 Hg2 Hqs. change (s1 <| n_pb := b2 |>) with (s <| n_pb := b2 |>). apply swp_bind. eapply swp_arp_mod; [exact He|]. apply swp_ret. split.
      - eapply ainv_replace; [exact Hi|exact He|done|by left|exact Hg2|]. intros x Hx. apply Hh2.
        destruct (Hqs x Hx) as [->|Hx']; [done|]. apply Hh1. by apply (ai_heads _ _ _ Hi).
      - constructor; [apply spared_pb; [by eapply heads_kept_trans|done]|]. unfold set_entry. cbn [setf arp_table].
        eapply slots_kept_insert; [apply slots_kept_refl|exact He|done]. }
    apply swp_bind. eapply swp_arp_get; [exact He1|]. apply swp_bind.
    destruct (ae_q e) as [old|] eqn:Eq.
    + assert (queued (<[Z.to_nat i := e <| ae_q := Some p |>]> (arp_table s)) ⊎ {[+ old +]} = queued (arp_table s) ⊎ {[+ p +]}) as Eo.
      { pose proof (queued_insert _ _ e (e <| ae_q := Some p |>) He) as Hqi. rewrite Eq in Hqi. exact Hqi. }
      apply swp_bind, swp_pb_do. eapply (swp_free_pb b1 (own ⊎ (queued (<[Z.to_nat i := e <| ae_q := Some p |>]> (arp_table s)) ⊎ held (n_up s)))).
      { by rewrite <- (own_swap p old own _ _ _ Eo). }
      intros r b2 Hg2 Hh2 _. apply swp_ret. apply Hend; [done|done|]. intros x Hx.
      assert (x ∈ queued (arp_table s) ⊎ {[+ p +]}) as Hx' by (rewrite <- Eo; apply gmultiset_elem_of_disj_union; by left).
      apply gmultiset_elem_of_disj_union in Hx' as [Hx'|Hx']; [by right|left]. by apply gmultiset_elem_of_singleton in Hx'.
    + pose proof (queued_in _ _ e (e <| ae_q := Some p |>) p He Eq eq_refl) as Eo. apply swp_ret. apply (Hend b1); [apply heads_kept_refl| |].
      * rewrite Eo, own_out. exact Hg1.
      * intros x Hx. rewrite Eo in Hx. apply gmultiset_elem_of_disj_union in Hx as [Hx|Hx]; [left|by right]. by apply gmultiset_elem_of_singleton in Hx.
Qed.

Lemma query_ok s own a q : ainv s own -> (forall q', q = Some q' -> sendable s own q') -> carries own (etharp_query a q) s.
Proof.
  intros Hi Hq. unfold etharp_query. apply swp_bind, swp_netif. apply swp_if; intros E; [by apply carries_ret|]. clear E.
  apply swp_bind. eapply swp_mono; [apply (find_entry_ok (base := base) (held := held) s own a); exact Hi|]. intros i s1 [Hf Hi1].
  apply swp_if; intros Ei.
  { apply swp_ret. split; [done|]. apply Z.ltb_lt in Ei. destruct Hf; [apply traffic_refl|lia|lia]. }
  apply Z.ltb_ge in Ei. destruct (find_entry_open _ _ _ _ _ Hf Hi1 Ei) as (e & He & Hok & Hr & Ea & Hs1 & En & Hu & Htr).
  apply swp_bind. eapply swp_arp_get; [exact He|].
  assert (sto_wp (sto_when (ae_state e =? ETHARP_STATE_EMPTY)
    (arp_mod i (fun e => e <| ae_state := ETHARP_STATE_PENDING |>) ;?; arp_mod i (fun e => e <| ae_netif := true |>)))
    (fun _ s2 => ainv s2 own /\ traffic own s s2) s1) as Hnew.
  { apply swp_when; intros Ee; [apply Z.eqb_eq in Ee|apply Z.eqb_neq in Ee; rewrite Hs1 in * by done; split; [done|apply traffic_refl]].
    apply swp_bind. eapply swp_arp_mod; [exact He|]. eapply swp_arp_mod; [by eapply set_entry_lookup|]. rewrite set_entry_twice. split.
    - eapply ainv_set; [exact Hi1|exact He| |done|by apply Hu]. destruct Hf as [|? e0 ? He0 Hl0 _|i e0 b Hr0 He0 Hst0 Hno0 Hh0 _]; [done|congruence|].
      assert (e = renewed a e0) as -> by (rewrite (set_entry_lookup _ e0) in He by done; congruence).
      destruct Hok as [K1 K2 K3 K4 K5 K6]. constructor; unfold renewed, freed in *; eunf; esimp; try done; lia.
    - apply Htr; [done|done|]. unfold static. by rewrite Ee. }
  apply swp_bind. eapply swp_mono; [exact Hnew|]. clear Hnew. intros _ s2 [Hi2 Ht2].
  apply (carries_after _ _ _ _ s2); [done|]. apply carries_bind.
  { apply swp_if; intros _; [by apply etharp_request_ok|by apply carries_ret]. }
  intros result s3 Hi3 Ht3. destruct q as [q|]; [|by apply carries_ret].
  assert (sendable s3 own q) as Hq3 by (eapply sendable_traffic; [exact Ht3|]; eapply sendable_traffic; [exact Ht2|]; by apply Hq).
  destruct (ainv_lookup held s3 own i Hi3 Hr) as (e3 & He3 & Hok3). apply swp_bind. eapply swp_arp_get; [exact He3|].
  apply swp_if; intros Est.
  - apply swp_bind, swp_mod, swp_bind, swp_netif. apply carries_after; [apply traffic_hint|]. destruct Hq3 as (Hqo & Hin & _).
    apply ethernet_output_ok; [by apply ainv_hint|done|done|apply Hi3|apply Hok3].
  - apply swp_if; intros Ep; [apply Z.eqb_eq in Ep|by apply carries_ret]. by eapply queue_ok.
Qed.

Lemma find_stable_ok a l : forall k i j, find_stable a l i = Some j -> i = Z.of_nat (length k) -> exists e, (k ++ l) !! Z.to_nat j = Some e /\ i <= j < i + Z.of_nat (length l) /\
  ETHARP_STATE_STABLE <= ae_state e /\ ae_ipaddr e = a.
Proof.
  induction l as [|e l IH]; intros k i j Hf Hi; [done|]. cbn [find_stable] in Hf. destruct ((ETHARP_STATE_STABLE <=? ae_state e) && (a =? ae_ipaddr e)) eqn:E.
  - injection Hf as <-. exists e. apply andb_true_iff in E as [E1%Z.leb_le E2%Z.eqb_eq]. split_and!; [|lia|cbn; lia|done|done].
    rewrite Hi, Nat2Z.id. by apply list_lookup_middle.
  - destruct (IH (k ++ [e]) (i + 1) j Hf) as (f & Hl & Hr & Hs & Ha); [rewrite length_app; cbn; lia|]. rewrite <- app_assoc in Hl. exists f. cbn. split_and!; try done; lia.
Qed.

Lemma output_ok s own q a : ainv s own -> sendable s own q -> carries own (etharp_output q a) s.
Proof.
  intros Hi Hq. pose proof Hq as (Hqo & Hin & _). unfold etharp_output. apply swp_bind, swp_netif.
  apply swp_if; intros _; [apply ethernet_output_ok; try done; apply Hi|].
  apply swp_if; intros _; [apply ethernet_output_ok; try done; apply Hi|].
  apply swp_if; intros _; [by apply carries_ret|]. apply swp_bind, swp_get.
  destruct (ainv_lookup held s own _ Hi (ai_cached _ _ _ Hi)) as (e & He & Hok). apply swp_bind. eapply swp_arp_get; [exact He|].
  apply swp_if; intros _; [apply to_arp_index_ok; try done; apply Hi|].
  destruct (find_stable _ _ _) as [i|] eqn:Ef; [|apply query_ok; [done|]; by intros ? [= <-]].
  destruct (find_stable_ok _ _ [] _ _ Ef eq_refl) as (f & Hf & Hr & _). rewrite (ai_len _ _ _ Hi) in Hr.
  assert (0 <= i < ARP_TABLE_SIZE) as Hr' by (unfold ARP_TABLE_SIZE in *; lia).
  apply swp_bind, swp_mod. apply carries_after; [apply traffic_hint|]. by apply to_arp_index_ok; [apply ainv_hint|..].
Qed.

(** ** Receiving *)

Lemma data_read_zlen (b : pbufs A) p n : 0 <= n -> zlen (ram_read p n (pb_ram b)) = n.
Proof. apply ram_read_zlen. Qed.

Lemma input_ok s own p : ainv s ({[+ p +]} ⊎ own) -> carries own (etharp_input p) s.
Proof.
  intros Hi. unfold etharp_input. destruct (ai_pb _ _ _ Hi) as (m & Hpi & Hlen). destruct (own_chain _ _ _ p Hpi) as (b & l & Hb & Hl); [multiset_solver|].
  assert (own ⊆ {[+ p +]} ⊎ own) as Hsub by multiset_solver.
  assert (forall s, ainv s ({[+ p +]} ⊎ own) -> carries own (pb_do (pbuf_free (Some p)) ;?; sto_ret tt) s) as Hfree.
  { intros s' Hi'. apply swp_bind. eapply (swp_free_own held s' own p); [exact Hi'|]. intros r b' s'' Hi'' Ht'' _ _. by apply swp_ret. }
  assert (s <| n_pb := n_pb s |> = s) as Es by (by destruct s).
  apply swp_bind, swp_pb_do. eapply swp_deref; [exact Hb|]. rewrite Es. apply swp_bind, swp_pb_do, swp_data_read. rewrite Es.
  apply swp_if; intros _; [by apply Hfree|]. apply swp_bind, swp_netif, swp_bind.
  set (h := ram_read _ _ _). assert (zlen h = 28) as Hh by (by apply ram_read_zlen).
  set (for_us := if ip4_addr_isany_val _ then _ else _).
  eapply swp_mono; [apply (update_ok s ({[+ p +]} ⊎ own)); [exact Hi|]|].
  { unfold mem_read. rewrite zlen_take_min, zlen_drop_max by done. rewrite Hh. done. }
  intros _ s1 [Hi1 Ht1]. specialize (Ht1 ltac:(by destruct for_us)).
  assert (s1 <| n_pb := n_pb s1 |> = s1) as Es1 by (by destruct s1).
  apply swp_bind, swp_pb_do, swp_data_read. rewrite Es1. apply (carries_after _ _ _ _ s1); [by eapply traffic_sub|]. apply swp_bind.
  assert (forall s2, ainv s2 ({[+ p +]} ⊎ own) -> traffic own s1 s2 -> sto_wp (pb_do (pbuf_free (Some p)) ;?; sto_ret tt) (fun _ s' => ainv s' own /\ traffic own s1 s') s2) as Hend.
  { intros s2 Hi2 Ht2. apply carries_after; [done|]. by apply Hfree. }
  apply swp_if; intros _; [|apply swp_ret, Hend; [done|apply traffic_refl]].
  apply swp_when; intros _; [|apply Hend; [done|apply traffic_refl]].
  apply swp_bind, swp_netif, swp_bind, swp_pb_do, swp_data_read. rewrite Es1. apply swp_bind.
  eapply swp_mono; [apply (etharp_raw_ok s1 ({[+ p +]} ⊎ own)); [done|apply Hi1|by apply ram_read_zlen|apply Hi1|by apply ram_read_zlen]|].
  intros _ s2 [Hi2 Ht2]. apply swp_ret, Hend; [done|by eapply traffic_sub].
Qed.

(** A field of a buffer that is not one of its lengths. *)
Lemma put_own s own p b b' (Q : unit -> net A X -> Prop) : ainv s own -> pb_tab (n_pb s) !! p = Some b ->
  b' = b <| pb_flags := pb_flags b' |> <| pb_if_idx := pb_if_idx b' |> -> is_custom b' = false ->
  (forall c, let s' := s <| n_pb := c |> in ainv s' own -> traffic own s s' -> c = (n_pb s) <| pb_tab := <[p := b']> (pb_tab (n_pb s)) |> -> Q tt s') ->
  sto_wp (pb_do (put_pbuf p b')) Q s.
Proof.
  intros Hi Hb Eb' Hcu HQ. apply swp_pb_do, swp_mod. destruct (ai_pb _ _ _ Hi) as (m & Hpi & Hlen).
  set (c := (n_pb s) <| pb_tab := <[p := b']> (pb_tab (n_pb s)) |>).
  assert (pb_next b' = pb_next b) as En by (by rewrite Eb'). assert (heads_kept (pb_tab (n_pb s)) (pb_tab c)) as Hh by (by eapply heads_kept_put).
  apply HQ; [|by apply traffic_pb|done]. eapply ainv_pb; [exact Hi| |intros q _; apply Hh]. pose proof (pi_ok _ _ _ Hpi _ _ Hb) as Hok.
  eapply good_put; [exact Hpi|exact Hlen|exact Hb|right; by rewrite Eb'|done|by rewrite Eb'|]. eapply pinv_put; [exact Hpi|exact Hb|done|by rewrite Eb'|].
  destruct Hok as [K1 K2 K3 K4 K5 K6 K7]. rewrite Eb' in Hcu |- *. by constructor.
Qed.

Lemma ethernet_input_ok s own p : ainv s ({[+ p +]} ⊎ own) -> incoming (pb_tab (n_pb s)) p = 0%nat -> carries own (ethernet_input p) s.
Proof.
  intros Hi Hin. unfold ethernet_input. destruct (ai_pb _ _ _ Hi) as (m & Hpi & Hlen). destruct (own_chain _ _ _ p Hpi) as (b & l & Hb & Hl); [multiset_solver|].
  assert (own ⊆ {[+ p +]} ⊎ own) as Hsub by multiset_solver.
  assert (forall s, ainv s ({[+ p +]} ⊎ own) -> carries own (pb_do (pbuf_free (Some p)) ;?; sto_ret ERR_OK) s) as Hfree.
  { intros s' Hi'. apply swp_bind. eapply (swp_free_own held s' own p); [exact Hi'|]. intros r b' s'' Hi'' Ht'' _ _. by apply swp_ret. }
  assert (s <| n_pb := n_pb s |> = s) as Es by (by destruct s). pose proof (po_custom _ _ _ (pi_ok _ _ _ Hpi _ _ Hb)) as Hcu.
  apply swp_bind, swp_pb_do. eapply swp_deref; [exact Hb|]. rewrite Es. apply swp_if; intros _; [by apply Hfree|].
  apply swp_bind, swp_netif, swp_bind.
  assert (sto_wp (if pb_if_idx b =? NETIF_NO_INDEX then pb_do (put_pbuf p (b <| pb_if_idx := netif_get_index (n_netif s) |>)) else sto_ret tt)
    (fun _ s1 => ainv s1 ({[+ p +]} ⊎ own) /\ traffic ({[+ p +]} ⊎ own) s s1 /\ exists b1, pb_tab (n_pb s1) !! p = Some b1 /\ pb_flags b1 = pb_flags b) s) as H1.
  { apply swp_if; intros _; [|apply swp_ret; split_and!; [done|apply traffic_refl|by exists b]].
    eapply put_own; [exact Hi|exact Hb|done|done|]. intros c s1 Hi1 Ht1 Et. split_and!; [done|done|]. eexists. split; [cbn; rewrite Et; apply lookup_insert_eq|done]. }
  eapply swp_mono; [exact H1|]. clear H1. intros _ s1 (Hi1 & Ht1 & b1 & Hb1 & Ef1). assert (s1 <| n_pb := n_pb s1 |> = s1) as Es1 by (by destruct s1).
  apply swp_bind, swp_pb_do, swp_data_read. rewrite Es1. cbv zeta. set (flag := if Z.land _ 1 =? 0 then 0 else _).
  assert (Z.land flag 2 = 0) as Hflag by (unfold flag; repeat case_if; done).
  apply swp_bind, swp_pb_do. eapply swp_deref; [exact Hb1|]. rewrite Es1. apply swp_bind.
  eapply put_own; [exact Hi1|exact Hb1|done| |].
  { unfold is_custom, PBUF_FLAG_IS_CUSTOM in *. cbn [setf pb_flags]. rewrite Ef1. apply negb_false_iff, Z.eqb_eq. apply negb_false_iff, Z.eqb_eq in Hcu.
    by rewrite Z.land_lor_distr_l, Hcu, Hflag. }
  intros c s2 Hi2 Ht2 Et2. set (b2 := b1 <| pb_flags := _ |>) in *. assert (pb_tab (n_pb s2) !! p = Some b2) as Hb2 by (cbn; rewrite Et2; apply lookup_insert_eq).
  assert (traffic ({[+ p +]} ⊎ own) s s2) as Ht02 by (by eapply traffic_trans). assert (traffic own s s2) as Ht02' by (by eapply traffic_sub).
  assert (incoming (pb_tab (n_pb s2)) p = 0%nat) as Hin2 by (apply (tr_own _ _ _ _ Ht02); [multiset_solver|done]).
  apply (carries_after _ _ _ _ s2); [done|]. clearbody s2 b2.
  apply swp_if; intros _; [|by apply Hfree]. apply swp_if; intros _; [by apply Hfree|].
  destruct (ai_pb _ _ _ Hi2) as (m2 & Hpi2 & Hlen2). destruct (own_chain _ _ _ p Hpi2) as (b2' & l2 & Hb2' & Hl2); [multiset_solver|].
  replace b2' with b2 in * by congruence. destruct (pinv_tots _ _ _ _ _ _ Hpi2 Hlen2 Hb2 Hl2) as [_ [H0l Hlt]].
  assert (s2 <| n_pb := n_pb s2 |> = s2) as Es2 by (by destruct s2).
  apply swp_bind, swp_pb_do. eapply swp_remove_header; [exact Hpi2|exact Hb2|done|lia| |].
  { intros _. cbn [Z.eqb negb]. rewrite Es2. by apply Hfree. }
  intros _ c3 Hi3. cbn [Z.eqb negb]. set (s3 := s2 <| n_pb := c3 |>).
  assert (heads_kept (pb_tab (n_pb s2)) (pb_tab c3)) as Hh3 by (by eapply heads_kept_put).
  assert (ainv s3 ({[+ p +]} ⊎ own)) as Ha3.
  { eapply ainv_pb; [exact Hi2| |intros q _; apply Hh3]. eapply good_put; [exact Hpi2|done|exact Hb2|by left|done|cbn; lia|exact Hi3]. }
  apply carries_after; [by apply traffic_pb|]. apply carries_bind; [|intros; by apply carries_ret].
  apply swp_if; intros _; [|by apply input_ok]. apply up_ok; [done|]. by apply Hh3.
Qed.

(** What a run can return. *)
Definition returns {R} (r : R) (m : STO (net A X) R) : Prop := forall s r' s', m s = Some (r', s') -> r' = r.
Lemma returns_ret {R} (r : R) : returns r (sto_ret r).
Proof. by intros s r' s' [= <-]. Qed.
Lemma returns_bind {R R'} (r : R') (m : STO (net A X) R) k : (forall x, returns r (k x)) -> returns r (sto_bind m k).
Proof. intros Hk s r' s'. unfold sto_bind. destruct (m s) as [[x s1]|]; [apply Hk|done]. Qed.
Lemma returns_if {R} (r : R) (c : bool) m m' : returns r m -> returns r m' -> returns r (if c then m else m').
Proof. by destruct c. Qed.

Lemma ethernet_input_returns p : returns ERR_OK (ethernet_input p).
Proof. unfold ethernet_input. repeat first [apply returns_ret | apply returns_if | apply returns_bind; intros ?]. Qed.

(** A new packet from the pool: nothing leads into it, and into no other more than before. *)
Lemma alloc_pool_ok b own layer n (Q : option Z -> pbufs A -> Prop) : good (base := base) b own -> is_u16 n -> 0 <= layer <= PBUF_TRANSPORT ->
  (forall b', good (base := base) b' own -> pb_tab b' = pb_tab b -> Q None b') ->
  (forall p b' l, good (base := base) b' ({[+ p +]} ⊎ own) -> chain (pb_tab b') (Some p) l -> writable l -> sum_len l = n -> incoming (pb_tab b') p = 0%nat ->
     (forall q, is_Some (pb_tab b !! q) -> incoming (pb_tab b) q = 0%nat -> incoming (pb_tab b') q = 0%nat) -> Q (Some p) b') ->
  sto_wp (pbuf_alloc layer n PBUF_POOL) Q b.
Proof.
  intros Hg Hn Hlay HN HS. assert (pop_ok b own (o_alloc layer n PBUF_POOL)) as Hok by (split_and!; auto; lia).
  pose proof (good_alloc _ _ _ _ _ Hg Hok) as Hw. apply swp_run in Hw as (r & b' & E & Hg'). open_good Hg.
  assert (sto_wp (pbuf_alloc layer n PBUF_POOL) (fun r b' => match r with None => pb_tab b' = pb_tab b
    | Some p => exists l m', pool_state (base := base) b m own b' m' (Some p) l 0 n end) b) as Hp.
  { eapply swp_alloc_pool; [exact Hi|done|done|by intros b1 _ ? _|]. intros h l b1 m' Hps. by exists l, m'. }
  unfold sto_wp in *. rewrite E in *. destruct r as [p|]; [|apply HN; [|done]; cbn [next_ms] in Hg'; by rewrite (left_id_L ∅ (⊎)) in Hg'].
  destruct Hp as (l & m' & [Hi' Hc Hf Ht _ _ Hts]). apply tots_sum in Hts.
  apply (HS p b' l); [done|done|eapply Forall_impl; [exact Hf|by intros ? []]|lia| |].
  - destruct l as [|[p' c] l]; [done|]. pose proof Hc as ([= <-] & Hpc & _). apply Forall_cons in Hf as [[Hr _] _]. cbn in Hr.
    destruct (pi_ref _ _ _ Hi' _ _ Hpc) as [Er _]. cbn [next_ms] in Er. rewrite mult_cons, b2n_true in Er by done. lia.
  - intros q [c Hq] Hz. unfold incoming in *. apply map_size_empty_iff in Hz. apply map_size_empty_iff, map_empty. intros a.
    destruct (filter (points_to q) (pb_tab b') !! a) as [d|] eqn:Ea; [exfalso|done]. apply map_lookup_filter_Some in Ea as [Ha Hd]. unfold points_to in Hd. cbn in Hd.
    destruct (decide (a ∈ l.*1)) as [Hal|Hal].
    + apply list_elem_of_fmap in Hal as ([a' d'] & Ea & Hin). cbn in Ea. subst a'. pose proof (chain_lookup _ _ _ _ _ Hc Hin) as Hd'.
      replace d' with d in Hin by congruence. pose proof (chain_closed _ _ _ _ _ _ Hc Hin Hd) as Hql. rewrite Ht, decide_True in Hq by done. done.
    + assert (filter (points_to q) (pb_tab b) !! a = Some d) as Hx; [|by rewrite Hz in Hx].
      apply map_lookup_filter_Some. split; [|done]. by rewrite Ht, decide_False.
Qed.

Lemma ainv_live s own p : ainv s own -> p ∈ own \/ p ∈ queued (arp_table s) -> is_Some (pb_tab (n_pb s) !! p).
Proof. intros Hi Hp. destruct (ai_pb _ _ _ Hi) as (m & Hpi & _). apply (pi_own _ _ _ Hpi). rewrite !gmultiset_elem_of_disj_union. tauto. Qed.

(** The state after the allocation of a packet. *)
Lemma ainv_alloc s own p b' : ainv s own -> good (base := base) b' ({[+ p +]} ⊎ (own ⊎ (queued (arp_table s) ⊎ held (n_up s)))) ->
  (forall q, is_Some (pb_tab (n_pb s) !! q) -> incoming (pb_tab (n_pb s)) q = 0%nat -> incoming (pb_tab b') q = 0%nat) ->
  ainv (s <| n_pb := b' |>) ({[+ p +]} ⊎ own) /\ traffic own s (s <| n_pb := b' |>).
Proof.
  intros Hi Hg Hh. split.
  - eapply ainv_pb; [exact Hi|by rewrite <- (assoc_L (⊎))|]. intros q Hq. apply Hh. eapply ainv_live; [exact Hi|by right].
  - constructor; [|apply slots_kept_refl]. intros q Hq. split; [|done]. apply Hh. eapply ainv_live; [exact Hi|by left].
Qed.

Lemma recv_frame_ok s own d : ainv s own -> is_u16 (zlen d) -> carries own (recv_frame d) s.
Proof.
  intros Hi Hd. unfold recv_frame. apply swp_if; intros _; [|by apply carries_ret]. apply swp_bind, swp_pb_do.
  eapply alloc_pool_ok; [apply (ai_pb _ _ _ Hi)|done|done| |].
  { intros b' Hg Et. apply swp_ret. assert (heads_kept (pb_tab (n_pb s)) (pb_tab b')) as Hh by (rewrite Et; apply heads_kept_refl).
    split; [eapply ainv_pb; [exact Hi|done|intros q _; apply Hh]|by apply traffic_pb]. }
  intros p b1 l Hg1 Hl Hw Hsum Hin Hh. destruct (ainv_alloc s own p b1 Hi Hg1 Hh) as [Hi1 Ht1]. set (s1 := s <| n_pb := b1 |>) in *.
  apply (carries_after _ _ _ _ s1); [done|]. apply swp_bind, swp_pb_do. destruct (ai_pb _ _ _ Hi1) as (m & Hpi & Hlen).
  destruct (own_chain _ _ _ p Hpi) as (c & l' & Hc & Hl'); [multiset_solver|]. destruct (pinv_tots _ _ _ _ _ _ Hpi Hlen Hc Hl) as [Hts _]. apply tots_sum in Hts.
  pose proof (zlen_nonneg d). eapply swp_pbuf_take; [exact Hpi|done|exact Hc|exact Hl|done|lia|lia|]. intros b2 _ Hi2 Et2 _ _.
  set (s2 := s1 <| n_pb := b2 |>). assert (heads_kept (pb_tab (n_pb s1)) (pb_tab b2)) as Hh2 by (rewrite Et2; apply heads_kept_refl).
  assert (ainv s2 ({[+ p +]} ⊎ own)) as Ha2.
  { eapply ainv_pb; [exact Hi1| |intros q _; apply Hh2]. exists m. split; [exact Hi2|by rewrite Et2]. }
  apply carries_after; [by apply traffic_pb|]. apply swp_bind.
  assert (carries own (ethernet_input p) s2) as Hin2 by (apply ethernet_input_ok; [done|by apply Hh2]).
  apply swp_run in Hin2 as (r & s3 & E & Hi3 & Ht3). pose proof (ethernet_input_returns _ _ _ _ E) as ->.
  unfold sto_wp at 1. rewrite E. cbn [Z.eqb negb]. apply swp_bind, swp_ret, swp_ret. done.
Qed.

Lemma add_static_ok s own a eth : ainv s own -> zlen eth = ETH_HWADDR_LEN -> sto_wp (etharp_add_static_entry a eth) (fun _ s' => ainv s' own) s.
Proof.
  intros Hi Hz. unfold etharp_add_static_entry. apply swp_bind, swp_netif. apply swp_if; intros _; [by apply swp_ret|].
  eapply swp_mono; [by apply (update_ok s own)|]. by intros r s' [].
Qed.

Lemma remove_static_ok s own a : ainv s own -> sto_wp (etharp_remove_static_entry a) (fun _ s' => ainv s' own) s.
Proof.
  intros Hi. unfold etharp_remove_static_entry. apply swp_bind. eapply swp_mono; [apply (find_entry_ok (base := base) (held := held) s own a); exact Hi|].
  intros i s1 [Hf Hi1]. apply swp_if; intros Ei; [by apply swp_ret|]. apply Z.ltb_ge in Ei.
  destruct (find_entry_open _ _ _ _ _ Hf Hi1 Ei) as (e & He & Hok & Hr & _). apply swp_bind. eapply swp_arp_get; [exact He|].
  apply swp_if; intros _; [by apply swp_ret|]. apply swp_bind. eapply swp_free_entry; [exact Hi1|exact He|]. intros b s2 Hi2 _ _. by apply swp_ret.
Qed.

Lemma cleanup_ok s own : ainv s own -> sto_wp etharp_cleanup_netif (fun _ s' => ainv s' own) s.
Proof.
  unfold etharp_cleanup_netif. assert (forall i, i ∈ seqZ 0 ARP_TABLE_SIZE -> 0 <= i < ARP_TABLE_SIZE) as Hr by (intros i Hi%elem_of_seqZ; lia).
  revert s Hr. induction (seqZ 0 ARP_TABLE_SIZE) as [|i l IH]; intros s Hr Hi; cbn [sto_iter]; [by apply swp_ret|].
  destruct (ainv_lookup held s own i Hi (Hr i (list_elem_of_here _ _))) as (e & He & Hok). apply swp_bind, swp_bind. eapply swp_arp_get; [exact He|].
  assert (forall j, j ∈ l -> 0 <= j < ARP_TABLE_SIZE) as Hr' by (intros j Hj; apply Hr; by right).
  apply swp_when; intros _; [|by apply IH]. eapply swp_free_entry; [exact Hi|exact He|]. intros b s1 Hi1 _ _. by apply IH.
Qed.

Lemma alloc_ok s own layer n type : ainv s own -> is_u16 n -> 0 <= layer <= PBUF_TRANSPORT -> type = PBUF_POOL \/ type = PBUF_RAM ->
  sto_wp (pb_do (pbuf_alloc layer n type)) (fun r s' => ainv s' (next_ms r ⊎ own) /\ traffic own s s') s.
Proof.
  intros Hi Hn Hlay Hty. apply swp_pb_do. assert (forall (s' : net A X), ainv s' own -> ainv s' (next_ms None ⊎ own)) as HN by (intros s' Hs; cbn [next_ms]; by rewrite (left_id_L ∅ (⊎))).
  destruct Hty as [-> | ->].
  - eapply alloc_pool_ok; [apply (ai_pb _ _ _ Hi)|done|done| |].
    + intros b' Hg Et. assert (heads_kept (pb_tab (n_pb s)) (pb_tab b')) as Hh by (rewrite Et; apply heads_kept_refl).
      split; [apply HN; eapply ainv_pb; [exact Hi|done|intros q _; apply Hh]|by apply traffic_pb].
    + intros p b1 l Hg1 _ _ _ _ Hh. by apply ainv_alloc.
  - destruct (ai_pb _ _ _ Hi) as (m & Hpi & Hlen). eapply swp_alloc_ram; [exact Hpi|done|done| |].
    + replace (s <| n_pb := n_pb s |>) with s by (by destruct s). split; [by apply HN|apply traffic_refl].
    + intros p a sz b b1 Hp Hi1 _. pose proof (tab_fresh _ _ _ _ Hpi Hp) as Htp.
      assert (heads_kept (pb_tab (n_pb s)) (pb_tab b1)) as Hh1 by (by apply heads_kept_new). apply ainv_alloc; [done| |intros q _; apply Hh1]. by eapply good_alloc_one.
Qed.

(** ** All states *)

(** What happens to the stack: a frame comes in, the owner of a packet sends it or asks for
    an address, a second passes, the application allocates and frees packets. *)
Inductive nop :=
  | n_frame (d : list Z)
  | n_output (q a : Z)
  | n_query (a : Z) (q : option Z)
  | n_tmr
  | n_alloc (layer n type : Z)
  | n_free (p : Z)
  | n_add_static (a : Z) (eth : list Z)
  | n_remove_static (a : Z)
  | n_cleanup.

Definition run_nop (o : nop) : STO (net A X) (option Z) :=
  match o with
  | n_frame d => recv_frame d ;?; sto_ret None
  | n_output q a => etharp_output q a ;?; sto_ret None
  | n_query a q => etharp_query a q ;?; sto_ret None
  | n_tmr => etharp_tmr ;?; sto_ret None
  | n_alloc layer n type => pb_do (pbuf_alloc layer n type)
  | n_free p => pb_do (pbuf_free (Some p)) ;?; sto_ret None
  | n_add_static a eth => etharp_add_static_entry a eth ;?; sto_ret None
  | n_remove_static a => etharp_remove_static_entry a ;?; sto_ret None
  | n_cleanup => etharp_cleanup_netif ;?; sto_ret None
  end.

Definition nop_ok (s : net A X) (own : gmultiset Z) (o : nop) : Prop :=
  match o with
  | n_frame d => is_u16 (zlen d)
  | n_output q _ => sendable s own q
  | n_query _ q => forall q', q = Some q' -> sendable s own q'
  | n_alloc layer n type => is_u16 n /\ 0 <= layer <= PBUF_TRANSPORT /\ (type = PBUF_POOL \/ type = PBUF_RAM)
  | n_free p => p ∈ own
  | n_add_static _ eth => zlen eth = ETH_HWADDR_LEN
  | n_tmr | n_remove_static _ | n_cleanup => True
  end.

Definition nown_after (o : nop) (r : option Z) (own : gmultiset Z) : gmultiset Z :=
  match o with
  | n_alloc _ _ _ => next_ms r ⊎ own
  | n_free p => own ∖ {[+ p +]}
  | _ => own
  end.

(** Only the application changes static entries. *)
Definition is_static_op (o : nop) : bool := match o with n_add_static _ _ | n_remove_static _ | n_cleanup => true | _ => false end.

Lemma nop_step s own o : ainv s own -> nop_ok s own o ->
  sto_wp (run_nop o) (fun r s' => ainv s' (nown_after o r own) /\ (is_static_op o = false -> Forall2 slot_fixed (arp_table s) (arp_table s'))) s.
Proof.
  intros Hi Hok.
  assert (forall {R} (c : STO (net A X) R), sto_wp c (fun _ s' => ainv s' own /\ aged own s s') s ->
    sto_wp (c ;?; sto_ret None) (fun (_ : option Z) s' => ainv s' own /\ (is_static_op o = false -> Forall2 slot_fixed (arp_table s) (arp_table s'))) s) as Haged.
  { intros R c Hw. apply swp_bind. eapply swp_mono; [exact Hw|]. intros r s' [Hi' [_ Ha]]. apply swp_ret. by split. }
  assert (forall {R} (c : STO (net A X) R), carries own c s -> sto_wp c (fun _ s' => ainv s' own /\ aged own s s') s) as Hcar.
  { intros R c Hw. eapply swp_mono; [exact Hw|]. intros r s' [Hi' Ht]. split; [done|by apply traffic_aged]. }
  assert (forall {R} (c : STO (net A X) R), sto_wp c (fun _ s' => ainv s' own) s -> is_static_op o = true ->
    sto_wp (c ;?; sto_ret None) (fun (_ : option Z) s' => ainv s' own /\ (is_static_op o = false -> Forall2 slot_fixed (arp_table s) (arp_table s'))) s) as Hst.
  { intros R c Hw Eo. apply swp_bind. eapply swp_mono; [exact Hw|]. intros r s' Hi'. apply swp_ret. split; [done|congruence]. }
  destruct o as [d|q a|a q| |layer n type|p|a eth|a|]; cbn [run_nop nown_after nop_ok] in *.
  - by apply Haged, Hcar, recv_frame_ok.
  - by apply Haged, Hcar, output_ok.
  - by apply Haged, Hcar, query_ok.
  - by apply Haged, tmr_ok.
  - destruct Hok as (Hn & Hl & Ht). eapply swp_mono; [by apply (alloc_ok s own)|]. intros r s' [Hi' Htr]. split; [done|]. intros _. exact (ag_slots _ _ _ (traffic_aged _ _ _ Htr)).
  - rewrite (own_split p own Hok) in Hi. apply swp_bind. eapply (swp_free_own held s (own ∖ {[+ p +]}) p); [exact Hi|]. intros r b s' Hi' Ht _ _. apply swp_ret.
    split; [done|]. intros _. exact (ag_slots _ _ _ (traffic_aged _ _ _ Ht)).
  - apply Hst; [by apply add_static_ok|done].
  - apply Hst; [by apply remove_static_ok|done].
  - apply Hst; [by apply cleanup_ok|done].
Qed.

(** After a reset: an empty table, no packets. *)
Definition entry_zero : etharp_entry := mk_entry None 0 false ethzero 0 ETHARP_STATE_EMPTY.

Inductive nreach : net A X -> gmultiset Z -> Prop :=
  | nreach_init n b x : zlen (nf_hwaddr n) = ETH_HWADDR_LEN -> good (base := base) b (held x) ->
      nreach (mk_net (replicate 10 entry_zero) 0 n b x) ∅
  | nreach_step s own o r s' : nreach s own -> nop_ok s own o -> run_nop o s = Some (r, s') -> nreach s' (nown_after o r own).

Lemma nreach_ainv s own : nreach s own -> ainv s own.
Proof.
  induction 1 as [n b x Hn Hg|s own o r s' Hr IH Hok E].
  - constructor; cbn [arp_table n_pb n_up n_netif etharp_cached_entry]; try done.
    + replace (queued (replicate 10 entry_zero)) with (∅ : gmultiset Z) by (vm_compute; reflexivity). by rewrite !(left_id_L ∅ (⊎)).
    + apply Forall_replicate. constructor; unfold entry_zero; eunf; esimp; done || lia.
    + intros i j e f Hi _ Hl. apply lookup_replicate in Hi as [-> _]. by destruct Hl.
    + intros p Hp. replace (queued (replicate 10 entry_zero)) with (∅ : gmultiset Z) in Hp by (vm_compute; reflexivity). by apply gmultiset_elem_of_empty in Hp.
  - pose proof (nop_step _ _ _ IH Hok) as Hw. unfold sto_wp in Hw. rewrite E in Hw. apply Hw.
Qed.

(** C13: In every state that frames, sending, queries, time and the application's own
    operations reach in any order, with any link and any upper layer that keep to their
    contract (the link may run received frames before it returns): the table has its ten
    entries, each well formed with its age within bounds, no address has two entries in
    use, the packets that wait are live packets no other packet leads to, every reference
    count is exactly the number of its owners, and whatever comes next returns. *)
Theorem arp_table_sound s own : nreach s own ->
  length (arp_table s) = Z.to_nat ARP_TABLE_SIZE /\ Forall entry_ok (arp_table s) /\ unique (arp_table s) /\
  (forall e p, e ∈ arp_table s -> ae_q e = Some p -> is_Some (pb_tab (n_pb s) !! p) /\ incoming (pb_tab (n_pb s)) p = 0%nat) /\
  (forall p b, pb_tab (n_pb s) !! p = Some b -> pb_ref b =
     Z.of_nat (multiplicity p own + multiplicity p (queued (arp_table s)) + multiplicity p (held (n_up s)) + incoming (pb_tab (n_pb s)) p)) /\
  (forall o, nop_ok s own o -> exists r s', run_nop o s = Some (r, s')).
Proof.
  intros Hr%nreach_ainv. destruct (ai_pb _ _ _ Hr) as (m & Hpi & _). split_and!; [apply Hr|apply Hr|apply Hr| | |].
  - intros e p He Eq. assert (p ∈ queued (arp_table s)) as Hp by (apply elem_of_queued; by exists e). split; [by eapply ainv_live; [|right]|by apply Hr].
  - intros p b Hb. destruct (pi_ref _ _ _ Hpi _ _ Hb) as [-> _]. rewrite !multiplicity_disj_union. lia.
  - intros o Ho. pose proof (nop_step _ _ _ Hr Ho) as (r & s' & E & _)%swp_run. by exists r, s'.
Qed.

(** C18: A static entry is what the application made it: no frame, packet, query or timer
    changes its address, its hardware address or that it is static, so nobody on the link
    can take over an address that has one. *)
Theorem arp_static_fixed s own o r s' i e : nreach s own -> nop_ok s own o -> is_static_op o = false -> run_nop o s = Some (r, s') ->
  arp_table s !! i = Some e -> static e -> exists e', arp_table s' !! i = Some e' /\ static e' /\ ae_ipaddr e' = ae_ipaddr e /\ ae_ethaddr e' = ae_ethaddr e.
Proof.
  intros Hr%nreach_ainv Ho Hs E He Hst. pose proof (nop_step _ _ _ Hr Ho) as Hw. unfold sto_wp in Hw. rewrite E in Hw. destruct Hw as [_ Hf].
  destruct (Forall2_lookup_l _ _ _ _ _ (Hf Hs) He) as (e' & He' & Hk). exists e'. split; [done|by apply Hk].
Qed.

End ops.
