(* ===== verification/EtharpProps.v ===== *)
(** * EtharpProps: what the address resolution does

    Over a link that sends at once ([Wire]: the bytes of the packet are the frame, and
    nothing else changes), the operations of [Etharp] are followed to the frames on the
    wire: a packet for an address that is not known is kept, the address is asked for, and
    the packet goes out to the hardware address of the answer; requests for the own
    address are answered; entries age and expire. *)

From stdpp Require Import gmultiset.
From S2P Require Import Prelude Chksum Mem NetMem Pbuf PbufProps PbufOps PbufData PbufCopy Inet Etharp EtharpInv EtharpOps.

(** Sending succeeds at once; [sent] records the frame. *)
Class Wire {A X : Type} `{NetMem A, !NetMemOk A} (base : gset Z) (held : X -> gmultiset Z) `{!NetLink A X} (sent : list Z -> X -> X) : Prop := {
  wire_held d x : held (sent d x) = held x;
  wire_out s own p c : ainv (base := base) held s own -> p ∈ own -> packet (n_pb s) p c ->
    linkoutput p s = Some (ERR_OK, s <| n_up := sent c (n_up s) |>) }.

(** ** When no entry can be had *)

(** A sweep without any candidate. *)
Definition starved (w : sweep) : Prop := sw_empty w = ARP_TABLE_SIZE /\ sw_stable w = ARP_TABLE_SIZE /\ sw_pending w = ARP_TABLE_SIZE /\ sw_queue w = ARP_TABLE_SIZE.
Definition young (w : sweep) : Prop := sw_age_stable w = 0 /\ sw_age_pending w = 0 /\ sw_age_queue w = 0.

Lemma starved_used i e w : entry_ok e -> live e -> i < ARP_TABLE_SIZE -> (starved w -> young w) -> starved (sweep_used i e w) -> starved w /\ sweep_used i e w = w /\ static e.
Proof.
  intros [H1 [H2 _] _ _ _ _] Hl Hi Hy. unfold starved, young, sweep_used in *. repeat case_if; cbn [setf sw_empty sw_stable sw_pending sw_queue]; intros (K1 & K2 & K3 & K4);
    destruct w as [a b c d x y z]; cbn in *; try (exfalso; lia); try (destruct Hy as (-> & -> & ->); [done|bool_prop; lia]); split_and!; try done.
  eunf. bool_prop. lia.
Qed.

Lemma starved_sweep a l : forall i w w', Forall entry_ok l -> i + Z.of_nat (length l) <= ARP_TABLE_SIZE -> (starved w -> young w) ->
  sweep_table (Some a) l i w = inr w' -> starved w' -> starved w /\ Forall static l.
Proof.
  induction l as [|e l IH]; intros i w w' Hok Hi Hy Hs Hst; cbn [sweep_table length] in *; [injection Hs as ->; by split|].
  apply Forall_cons in Hok as [He Hok]. destruct (_ && _) eqn:E1; [|destruct (negb _) eqn:E2].
  - apply (IH (i + 1) _ w') in Hs as [(Hc & _) _]; [cbn in Hc; lia|done|lia| |done]. intros (Hc & _). cbn in Hc. lia.
  - case_bool_decide; [done|]. apply negb_true_iff, Z.eqb_neq in E2. apply (IH (i + 1) _ w') in Hs as [Hw Hl]; [|done|lia| |done].
    + apply starved_used in Hw as (Hw & _ & Hse); [|done..|lia|done]. split; [done|by constructor].
    + intros Hw. apply starved_used in Hw as (Hw & -> & _); [by apply Hy|done..|lia|done].
  - apply negb_false_iff in E2. rewrite E2, andb_true_r in E1. apply (IH (i + 1) _ w') in Hs as [(Hc & _) _]; [|done|lia|done|done]. apply Z.eqb_neq in E1. done.
Qed.

(** ** Memory *)

Section memory.
Context {A : Type} `{NetMem A, CustomPbuf A}.

(** An allocation that fails. *)
Definition no_memory (b : pbufs A) (layer n type : Z) : Prop := fst <$> pbuf_alloc layer n type b = Some None.

(** The packets after an entry of the table [l] was found or recycled: as they were, or
    without the packet that waited in the entry. *)
Definition recycles (l : list etharp_entry) (b b' : pbufs A) : Prop :=
  b' = b \/ exists e p n, e ∈ l /\ ae_q e = Some p /\ pbuf_free (Some p) b = Some (n, b').

(** The packets once the frame [d] is in a buffer of its own; of that buffer's fields
    some have changed ([c]: the Ethernet header is taken off, the interface is noted). *)
Definition received (d : list Z) (b b' : pbufs A) : Prop :=
  exists p b0 r b1 c, pbuf_alloc PBUF_RAW (zlen d) PBUF_POOL b = Some (Some p, b0) /\ pbuf_take (Some p) d (zlen d) b0 = Some (r, b1) /\
    b' = b1 <| pb_tab := <[p := c]> (pb_tab b1) |>.

End memory.

Section wire.
Context {A X : Type} `{NetMem A, !NetMemOk A, CustomPbuf A} {base : gset Z} {held : X -> gmultiset Z}.
Context `{!NetLink A X, !NetUp A X} {sent : list Z -> X -> X} `{HW : !Wire base held sent, !NetUpOk base held}.
Abbreviation ainv := (ainv (base := base) held).
Abbreviation traffic := (traffic held).

(** A wire is a link that keeps the invariant. *)
#[export] Instance wire_link_ok : NetLinkOk base held.
Proof.
  intros s own p Hi Hp. destruct (ai_pb _ _ _ Hi) as (m & Hpi & Hlen). destruct (own_chain _ _ _ p Hpi) as (b & l & Hb & Hl); [multiset_solver|].
  unfold carries, sto_wp. rewrite (wire_out s own p (content (n_pb s) l)) by (done || by exists l). split.
  - destruct Hi as [H1 H2 H3 H4 H5 H6 H7]. constructor; try done. cbn. by rewrite wire_held.
  - constructor; [|apply slots_kept_refl]. intros q _. cbn. by rewrite wire_held.
Qed.

(** ** Packets that are left alone *)

Lemma pk_same_put (b b' : pbufs A) p d x : pb_tab b' = <[p := d]> (pb_tab b) -> incoming (pb_tab b) p = 0%nat ->
  (forall q c, pb_tab b !! q = Some c -> q <> p -> bytes b' c = bytes b c) -> x <> p -> pk_same x b b'.
Proof.
  intros Et Hin Hby Hx l Hl. assert (p ∉ l.*1) as Hp.
  { intros Hp. pose proof (chain_next _ _ _ _ Hl Hp) as Hn. rewrite Hin in Hn. assert (0 < 0)%nat; [apply Hn; congruence|lia]. }
  exists l. rewrite Et. split_and!; [by apply chain_insert|apply Forall_Forall2_diag, Forall_true, shape_pair_refl|]. apply content_bytes. intros q d' Hq.
  apply (Hby q); [by eapply chain_lookup|]. intros ->. apply Hp. apply list_elem_of_fmap. by exists (p, d').
Qed.

Lemma pk_same_absent (b b' : pbufs A) x : pb_tab b !! x = None -> pk_same x b b'.
Proof. intros Hx l Hl. destruct l as [|[a d] l]; [done|]. destruct Hl as ([= <-] & Hd & _). congruence. Qed.

(** Room for [n] bytes in front. *)
Definition room (b : pbufs A) (p n : Z) : Prop := exists d, pb_tab b !! p = Some d /\ is_contiguous d /\ p + 16 + n <= pb_payload d /\ pb_tot_len d + n < 65536.

Lemma room_same b b' p n c : pk_same p b b' -> packet b p c -> room b p n -> room b' p n.
Proof.
  intros Hs (l & Hl & _) (d & Hd & Hc & Hp & Ht). destruct (Hs l Hl) as (l' & Hl' & Hf & _). destruct l as [|[p' d0] l]; [done|]. destruct Hl as ([= <-] & Hd0 & _).
  replace d0 with d in * by congruence. inversion Hf as [|? [p' d'] ? ? [Ep E] _]; subst. cbn in Ep. subst p'. destruct Hl' as (_ & Hd' & _).
  exists d'. red in E. cbn in E. unfold is_contiguous in *.
  assert (pb_type_internal d' = pb_type_internal d /\ pb_payload d' = pb_payload d /\ pb_tot_len d' = pb_tot_len d) as (-> & -> & ->) by (by rewrite E). done.
Qed.

Lemma add_header_room (b : pbufs A) p d n : pb_tab b !! p = Some d -> is_contiguous d -> p + 16 + n <= pb_payload d -> pb_tot_len d + n < 65536 ->
  0 < n -> 0 <= pb_tot_len d -> 0 <= pb_len d <= pb_tot_len d ->
  pbuf_add_header (Some p) n b = Some (0, b <| pb_tab := <[p := d <| pb_payload := pb_payload d - n |> <| pb_len := pb_len d + n |> <| pb_tot_len := pb_tot_len d + n |>]> (pb_tab b) |>).
Proof.
  intros Hd Hc Hp Ht Hn H0' Hl. unfold pbuf_add_header, pbuf_add_header_impl. replace (0xFFFF <? n) with false by lia. replace (n =? 0) with false by lia.
  unfold sto_bind, deref. rewrite Hd. rewrite !u16_small by (unfold is_u16; lia). replace (n + pb_tot_len d <? n) with false by lia.
  unfold is_contiguous in Hc. apply Z.eqb_neq in Hc. rewrite Hc. cbn [negb]. change SIZEOF_STRUCT_PBUF with 16.
  replace (pb_payload d - n <? p + 16) with false by lia. done.
Qed.

(** ** Frames *)

Record quiet (P : Z -> Prop) (own : gmultiset Z) (s s' : net A X) : Prop := {
  qt_inv : ainv s' own;
  qt_table : arp_table s' = arp_table s;
  qt_cached : etharp_cached_entry s' = etharp_cached_entry s;
  qt_netif : n_netif s' = n_netif s;
  qt_heads : heads_kept (pb_tab (n_pb s)) (pb_tab (n_pb s'));
  qt_packets : forall x, P x -> pk_same x (n_pb s) (n_pb s') }.

Lemma quiet_refl P own s : ainv s own -> quiet P own s s.
Proof. intros Hi. constructor; try done; [apply heads_kept_refl|]. intros x _. apply pk_same_refl. Qed.
Lemma quiet_trans P own own' s s1 s2 : quiet P own' s s1 -> quiet P own s1 s2 -> quiet P own s s2.
Proof.
  intros [_ H2 H3 H4 H5 H6] [K1 K2 K3 K4 K5 K6]. constructor; try congruence; [by eapply heads_kept_trans|]. intros x Hx. eapply pk_same_trans; [by apply H6|by apply K6].
Qed.
Lemma quiet_weaken (P P' : Z -> Prop) own s s' : (forall x, P' x -> P x) -> quiet P own s s' -> quiet P' own s s'.
Proof. intros Hp [H1 H2 H3 H4 H5 H6]. constructor; auto. Qed.

(** A frame goes out: the header and the packet. *)
Lemma ethernet_output_sends s own p src dst type c : ainv s own -> p ∈ own -> incoming (pb_tab (n_pb s)) p = 0%nat ->
  room (n_pb s) p SIZEOF_ETH_HDR -> packet (n_pb s) p c -> zlen src = ETH_HWADDR_LEN -> zlen dst = ETH_HWADDR_LEN ->
  sto_wp (ethernet_output p src dst type) (fun r s' => r = ERR_OK /\ quiet (fun x => x <> p) own s s' /\
    n_up s' = sent (eth_hdr dst src type ++ c) (n_up s)) s.
Proof.
  intros Hi Hp Hin (d & Hd & Hc & Hpl & Htot) Hpk Hsrc Hdst. unfold ethernet_output. change SIZEOF_ETH_HDR with 14 in *. destruct (ai_pb _ _ _ Hi) as (m & Hpi & Hlen).
  destruct Hpk as (l & Hl & Ec). destruct (pinv_tots _ _ _ _ _ _ Hpi Hlen Hd Hl) as [_ Hlt].
  pose proof (add_header_room (n_pb s) p d 14 Hd Hc Hpl Htot ltac:(done) ltac:(lia) ltac:(lia)) as Eadd.
  set (d1 := d <| pb_payload := _ |> <| pb_len := _ |> <| pb_tot_len := _ |>) in Eadd. set (b1 := (n_pb s) <| pb_tab := _ |>) in Eadd.
  assert (sto_wp (pbuf_add_header (Some p) 14) (fun _ b => pinv (base := base) b m (own ⊎ (queued (arp_table s) ⊎ held (n_up s))) /\ good (base := base) b (own ⊎ (queued (arp_table s) ⊎ held (n_up s)))) (n_pb s)) as Hpi1.
  { eapply swp_add_header; [exact Hpi|exact Hd|done|lia|split; [exact Hpi|by exists m]|]. intros _ _ b' Hi'. split; [exact Hi'|].
    eapply good_put; [exact Hpi|done|exact Hd|by left|done| |exact Hi']. cbn. lia. }
  unfold sto_wp in Hpi1. rewrite Eadd in Hpi1. destruct Hpi1 as [Hpi1 Hg1]. apply swp_bind. unfold sto_wp at 1, pb_do at 1. rewrite Eadd. cbn [Z.eqb negb].
  set (s1 := s <| n_pb := b1 |>). assert (pb_tab b1 !! p = Some d1) as Hd1 by apply lookup_insert_eq.
  assert (heads_kept (pb_tab (n_pb s)) (pb_tab b1)) as Hh1 by (by eapply heads_kept_put).
  assert (ainv s1 own) as Ha1 by (eapply ainv_pb; [exact Hi|exact Hg1|intros q _; apply Hh1]).
  assert (forall x, x <> p -> pk_same x (n_pb s) b1) as Hk1 by (intros x Hx; by eapply pk_same_put).
  apply swp_bind, swp_pb_do. eapply swp_deref; [exact Hd1|]. replace (s1 <| n_pb := n_pb s1 |>) with s1 by done.
  destruct l as [|[p' d'] l]; [done|]. destruct Hl as ([= <-] & Hd' & Hl). replace d' with d in * by congruence. clear d' Hd'.
  assert (p ∉ l.*1) as Hpl'.
  { pose proof (chain_nodup (pb_tab (n_pb s)) (Some p) ((p, d) :: l)) as Hn. rewrite fmap_cons in Hn. apply NoDup_cons in Hn as [? _]; [done|by split_and!]. }
  pose proof (eth_hdr_zlen dst src type Hdst Hsrc) as Hz. change SIZEOF_ETH_HDR with 14 in Hz.
  apply swp_bind, swp_pb_do. rewrite <- (Z.add_0_r (pb_payload d1)). eapply swp_data_write; [exact Hpi1|exact Hd1|exact Hc|done|rewrite Hz; cbn; lia|].
  intros b2 Hpi2 Et2 Eb2 Eo2. change (n_pb s1) with b1 in Et2, Eb2, Eo2. set (s2 := s1 <| n_pb := b2 |>).
  assert (ainv s2 own) as Ha2.
  { eapply ainv_pb; [exact Ha1| |rewrite Et2; auto]. exists m. split; [exact Hpi2|]. rewrite Et2. by destruct Hg1 as (? & _ & ?). }
  assert (forall x, x <> p -> pk_same x b1 b2) as Hk2.
  { intros x Hx. apply (pk_same_put b1 b2 p d1); [by rewrite Et2, insert_id|by apply Hh1|done|done]. }
  assert (packet (n_pb s2) p (eth_hdr dst src type ++ c)) as Hpk2.
  { exists ((p, d1) :: l). cbn [n_pb setf s2]. rewrite Et2. split; [split_and!; [done|done|by apply chain_insert]|]. cbn [content]. rewrite Eb2, <- Ec. cbn [content].
    assert (bytes b1 d1 = bytes b1 (d1 <| pb_len := 14 |>) ++ bytes (n_pb s) d) as ->.
    { unfold bytes. cbn [setf pb_payload pb_len pb_ram d1 b1]. replace (pb_len d + 14) with (14 + pb_len d) by lia. rewrite ram_read_app by lia. f_equal. f_equal. lia. }
    rewrite mem_write_0; rewrite Hz; [|rewrite zlen_app; unfold bytes at 1; rewrite ram_read_zlen by (cbn; lia); cbn; pose proof (zlen_nonneg (bytes (n_pb s) d)); lia].
    rewrite drop_app_z by done. unfold bytes at 1 2. rewrite !ram_read_zlen by (cbn; lia). cbn [pb_len setf]. rewrite drop_all_z by (rewrite ram_read_zlen; cbn; lia).
    rewrite Z.sub_diag, drop_none_z by lia. cbn [app]. rewrite <- app_assoc. f_equal. f_equal.
    apply content_bytes. intros q e Hq. rewrite (Eo2 q e); [done| |]; [cbn; rewrite lookup_insert_ne|]; try (intros ->; apply Hpl', list_elem_of_fmap; by exists (p, e)); try (intros <-; apply Hpl', list_elem_of_fmap; by exists (p, e)).
    by eapply chain_lookup. }
  unfold sto_wp. rewrite (wire_out s2 own p _ Ha2 Hp Hpk2). split; [done|]. split; [|done]. constructor; try done.
  - destruct Ha2 as [H1 H2 H3 H4 H5 H6 H7]. constructor; try done. cbn. by rewrite wire_held.
  - cbn. rewrite Et2. exact Hh1.
  - intros x Hx. cbn. eapply pk_same_trans; [by apply Hk1|by apply Hk2].
Qed.

(** A packet filled from its start. *)
Lemma write_all (b b' : pbufs A) p d x : pb_tab b' = pb_tab b -> pb_tab b !! p = Some d -> pb_next d = None -> zlen x = pb_len d -> 0 <= pb_len d ->
  bytes b' d = mem_write 0 x (bytes b d) -> packet b' p x.
Proof.
  intros Et Hd Hn Hz H0' Eb. exists [(p, d)]. rewrite Et. split; [by split_and!|]. cbn [content]. rewrite app_nil_r, Eb.
  assert (zlen (bytes b d) = pb_len d) as Hb by (unfold bytes; by apply ram_read_zlen). rewrite mem_write_0, drop_all_z, app_nil_r by lia. done.
Qed.

Definition arp_frame (op : Z) (edst esrc hsrc : list Z) (isrc : Z) (hdst : list Z) (idst : Z) : list Z :=
  eth_hdr edst esrc ETHTYPE_ARP ++ etharp_hdr op hsrc isrc hdst idst.

(** An ARP message goes out, unless there is no memory for it. *)
Lemma etharp_raw_sends s own esrc edst hsrc isrc hdst idst op : ainv s own -> zlen esrc = ETH_HWADDR_LEN -> zlen edst = ETH_HWADDR_LEN ->
  zlen hsrc = ETH_HWADDR_LEN -> zlen hdst = ETH_HWADDR_LEN ->
  sto_wp (etharp_raw esrc edst hsrc isrc hdst idst op) (fun r s' => quiet (fun x => x ∈ own \/ x ∈ queued (arp_table s)) own s s' /\
    (r = ERR_MEM /\ n_up s' = n_up s /\ no_memory (n_pb s) PBUF_LINK SIZEOF_ETHARP_HDR PBUF_RAM \/ r = ERR_OK /\ n_up s' = sent (arp_frame op edst esrc hsrc isrc hdst idst) (n_up s))) s.
Proof.
  intros Hi H1 H2 H3 H4. unfold etharp_raw. destruct (ai_pb _ _ _ Hi) as (m & Hpi & Hlen).
  apply swp_bind, swp_pb_do, swp_eqn. eapply swp_alloc_ram; [exact Hpi|done|done| |].
  { intros Em. apply swp_ret. replace (s <| n_pb := n_pb s |>) with s by (by destruct s). split; [by apply quiet_refl|left]. split_and!; [done|done|]. red. by rewrite Em. }
  intros p a sz b b1 Hp Hi1 Hkm _. pose proof (tab_fresh _ _ _ _ Hpi Hp) as Htp. pose proof (incoming_absent _ _ _ _ Hpi Htp) as Hin.
  set (s1 := s <| n_pb := b1 |>). assert (heads_kept (pb_tab (n_pb s)) (pb_tab b1)) as Hh1 by (by apply heads_kept_new).
  assert (ainv s1 ({[+ p +]} ⊎ own)) as Ha1.
  { eapply ainv_pb; [exact Hi| |intros q _; apply Hh1]. rewrite <- (assoc_L (⊎)). by eapply good_alloc_one. }
  assert (forall x, x <> p -> pk_same x (n_pb s) b1) as Hk1.
  { intros x Hx. apply (pk_same_put _ _ p b); [done|done| |done]. intros q c Hq _. unfold bytes. apply ram_read_ext. intros y Hy. apply Hkm.
    eapply data_owned; [by apply (pi_ok _ _ _ Hpi)|done]. }
  assert (pb_tab (n_pb s1) !! p = Some b) as Hb1 by apply lookup_insert_eq.
  apply swp_bind, swp_pb_do. eapply swp_deref; [exact Hb1|]. replace (s1 <| n_pb := n_pb s1 |>) with s1 by done.
  apply swp_bind, swp_pb_do. destruct (ai_pb _ _ _ Ha1) as (m1 & Hpi1 & Hlen1). rewrite <- (Z.add_0_r (pb_payload b)).
  eapply swp_data_write; [exact Hpi1|exact Hb1|done|done|by rewrite etharp_hdr_zlen|]. intros b2 Hpi2 Et2 Eb2 Eo2. change (n_pb s1) with b1 in Et2, Eb2, Eo2.
  assert (packet b2 p (etharp_hdr op hsrc isrc hdst idst)) as Hpk2 by (eapply (write_all b1); [done|exact Hb1|done|by rewrite etharp_hdr_zlen|done|exact Eb2]).
  set (s2 := s1 <| n_pb := b2 |>). assert (heads_kept (pb_tab b1) (pb_tab b2)) as Hh2 by (rewrite Et2; apply heads_kept_refl).
  assert (ainv s2 ({[+ p +]} ⊎ own)) as Ha2.
  { eapply ainv_pb; [exact Ha1| |intros q _; apply Hh2]. exists m1. split; [exact Hpi2|by rewrite Et2]. }
  assert (forall x, x <> p -> pk_same x b1 b2) as Hk2.
  { intros x Hx. apply (pk_same_put b1 b2 p b); [by rewrite Et2, insert_id|by apply Hh1|done|done]. }
  apply swp_bind. eapply swp_mono; [apply (ethernet_output_sends s2 ({[+ p +]} ⊎ own) p esrc edst ETHTYPE_ARP (etharp_hdr op hsrc isrc hdst idst))|]; try done.
  { multiset_solver. }
  { by apply Hh2, Hh1. }
  { exists b. cbn. rewrite Et2. split_and!; [done|done|change (p + 16 + 14 <= p + 16 + 16); lia|done]. }
  intros r3 s3 (-> & Hq3 & Eu3). apply swp_bind. eapply (swp_free_own held s3 own p); [apply Hq3|]. intros r b4 s4 Ha4 _ Hk4 Hh4. apply swp_ret.
  split; [|right; split; [done|exact Eu3]]. destruct Hq3 as [_ Q2 Q3 Q4 Q5 Q6]. constructor; cbn; try done.
  - eapply heads_kept_trans; [exact Hh1|]. eapply heads_kept_trans; [exact Hh2|]. by eapply heads_kept_trans.
  - intros x Hx. assert (x <> p) as Hxp by (intros ->; destruct (ainv_live s own p Hi Hx); congruence).
    eapply pk_same_trans; [by apply Hk1|]. eapply pk_same_trans; [by apply Hk2|]. eapply pk_same_trans; [by apply Q6|].
    apply Hk4. rewrite Q2. apply gmultiset_elem_of_disj_union. destruct Hx as [Hx|Hx]; [by left|right]. apply gmultiset_elem_of_disj_union. by left.
Qed.

(** The entry of an address that has one. *)
Lemma find_entry_live s own i e a flags : ainv s own -> 0 <= i -> arp_table s !! Z.to_nat i = Some e -> live e -> ae_ipaddr e = a ->
  etharp_find_entry (Some a) flags s = Some (i, s).
Proof.
  intros Hi H0' He Hl Ea. unfold etharp_find_entry, sto_bind, sto_get.
  pose proof (sweep_table_ok a [] (arp_table s) 0 sweep_start (ai_len _ _ _ Hi) eq_refl (sweep_start_ok _)) as Hs. cbn [app] in Hs.
  destruct (sweep_table _ _ _ _) as [j|w].
  - destruct Hs as (Hr & f & Hf & Hlf & Ef). unfold sto_ret. do 2 f_equal. apply Z2Nat.inj; [lia|lia|]. eapply (ai_unique _ _ _ Hi); try done. congruence.
  - destruct Hs as [_ Hno]. exfalso. eapply (Hno e); [by eapply list_elem_of_lookup_2|done|done].
Qed.

Definition unicast (n : netif) (a : Z) : Prop := ip4_addr_isany_val a = false /\ ip4_addr_isbroadcast_u32 a n = false /\ ip4_addr_ismulticast a = false.

Definition stable_entry (a : Z) (mac : list Z) : etharp_entry := mk_entry None a true mac 0 ETHARP_STATE_STABLE.

(** The answer for an entry that is pending: the packet that waits goes out. *)
Lemma update_releases s own i e p a mac flags c : ainv s own -> 0 <= i < ARP_TABLE_SIZE -> arp_table s !! Z.to_nat i = Some e ->
  ae_state e = ETHARP_STATE_PENDING -> ae_ipaddr e = a -> ae_q e = Some p -> packet (n_pb s) p c -> room (n_pb s) p SIZEOF_ETH_HDR ->
  zlen mac = ETH_HWADDR_LEN -> Z.land flags ETHARP_FLAG_STATIC_ENTRY = 0 -> unicast (n_netif s) a ->
  sto_wp (etharp_update_arp_entry a mac flags) (fun r s' => r = ERR_OK /\ ainv s' own /\
    arp_table s' = <[Z.to_nat i := stable_entry a mac]> (arp_table s) /\ n_netif s' = n_netif s /\
    n_up s' = sent (eth_hdr mac (nf_hwaddr (n_netif s)) ETHTYPE_IP ++ c) (n_up s) /\
    (forall x, x ∈ own -> x <> p -> pk_same x (n_pb s) (n_pb s'))) s.
Proof.
  intros Hi Hr He Est Ea Eq Hpk Hrm Hz Hfl (Hu1 & Hu2 & Hu3). assert (live e) as Hl by (unfold live; by rewrite Est).
  pose proof (Forall_lookup_1 _ _ _ _ (ai_entry _ _ _ Hi) He) as Hok.
  unfold etharp_update_arp_entry. apply swp_bind, swp_netif. rewrite Hu1, Hu2, Hu3. cbn [orb]. apply swp_bind. unfold sto_wp at 1.
  rewrite (find_entry_live s own i e) by (done || lia). replace (i <? 0) with false by lia. apply swp_bind. eapply swp_arp_get; [exact He|].
  rewrite Hfl, Est. cbn [Z.eqb negb andb ETHARP_STATE_PENDING ETHARP_STATE_STATIC Pos.eqb].
  set (e2 := updated flags mac e). set (s2 := set_entry i e2 s). assert (e2 = (stable_entry a mac) <| ae_q := Some p |>) as Ee2.
  { unfold e2, updated. rewrite Hfl. destruct e as [q ip nf eth ct st]. cbn in Eq, Ea. by subst. }
  assert (ainv s2 own) as Hi2 by (eapply ainv_set; [exact Hi|exact He|by apply updated_ok|done|by left]).
  assert (arp_table s2 !! Z.to_nat i = Some e2) as He2 by (by eapply set_entry_lookup).
  apply swp_bind. eapply swp_arp_mod; [exact He|]. apply swp_bind. eapply swp_arp_mod; [by eapply set_entry_lookup|]. rewrite set_entry_twice.
  apply swp_bind. eapply swp_arp_mod; [by eapply set_entry_lookup|]. rewrite set_entry_twice. apply swp_bind. eapply swp_arp_mod; [by eapply set_entry_lookup|].
  rewrite set_entry_twice. replace (e <| ae_state := ETHARP_STATE_STABLE |> <| ae_netif := true |> <| ae_ethaddr := mac |> <| ae_ctime := 0 |>) with e2 by (unfold e2, updated; by rewrite Hfl).
  fold s2. apply swp_bind. eapply swp_arp_get; [exact He2|]. rewrite Ee2. cbn [ae_q setf].
  destruct (ainv_take _ _ _ _ p Hi2 He2) as (Hi3 & Ht3 & Hin3); [by rewrite Ee2|].
  apply swp_bind, swp_bind. eapply swp_arp_mod; [exact He2|]. set (s3 := set_entry i (e2 <| ae_q := None |>) s2) in *. apply swp_bind, swp_netif, swp_bind.
  eapply swp_mono; [apply (ethernet_output_sends s3 ({[+ p +]} ⊎ own) p (nf_hwaddr (n_netif s3)) mac ETHTYPE_IP c)|]; try done.
  { apply gmultiset_elem_of_disj_union. left. by apply gmultiset_elem_of_singleton. }
  { apply Hi. }
  intros r4 s4 (-> & Hq4 & Eu4). apply swp_bind. eapply (swp_free_own held s4 own p); [apply Hq4|]. intros r b5 s5 Ha5 _ Hk5 _. apply swp_ret, swp_ret.
  split_and!; try done.
  - cbn. rewrite (qt_table _ _ _ _ Hq4). unfold s3, s2. rewrite set_entry_twice. unfold set_entry. cbn. by rewrite Ee2.
  - cbn. by rewrite (qt_netif _ _ _ _ Hq4).
  - intros x Hx Hxp. cbn. eapply pk_same_trans; [by apply (qt_packets _ _ _ _ Hq4)|]. apply Hk5. apply gmultiset_elem_of_disj_union. by left.
Qed.

(** ** Finding an entry *)

(** There is none to be had only if all entries are static. *)
Lemma find_entry_hard s own a r s' : ainv s own -> etharp_find_entry (Some a) ETHARP_FLAG_TRY_HARD s = Some (r, s') -> r < 0 -> Forall static (arp_table s).
Proof.
  intros Hi E Hr. unfold etharp_find_entry, sto_bind, sto_get in E.
  pose proof (sweep_table_ok a [] (arp_table s) 0 sweep_start (ai_len _ _ _ Hi) eq_refl (sweep_start_ok _)) as Hs. cbn [app] in Hs.
  destruct (sweep_table _ _ _ _) as [i|w] eqn:Esw; [injection E as <- _; destruct Hs; lia|]. destruct Hs as [[Hse Hss Hsp Hsq] _].
  change (negb (Z.land ETHARP_FLAG_TRY_HARD ETHARP_FLAG_FIND_ONLY =? 0) || _) with ((sw_empty w =? ARP_TABLE_SIZE) && false) in E. rewrite andb_false_r in E.
  assert (forall i (s1 : net A X), 0 <= i -> match arp_mod i (fun e => e <| ae_ipaddr := a |>) s1 with
    | Some (_, s) => match arp_mod i (fun e => e <| ae_ctime := 0 |>) s with Some (_, s) => sto_ret i s | None => None end | None => None end = Some (r, s') -> False) as Hend.
  { intros i s1 Hi' E'. destruct (arp_mod _ _ s1) as [[? s2]|]; [|done]. destruct (arp_mod _ _ s2) as [[? s3]|]; [|done]. injection E' as <- _. lia. }
  assert (forall P i, cand (arp_table s) P i -> 0 <= i <= ARP_TABLE_SIZE) as Hc by (intros P i [->|[? _]]; unfold ARP_TABLE_SIZE in *; lia).
  apply Hc in Hse, Hss, Hsp, Hsq. unfold recycled in E.
  destruct (sw_empty w <? ARP_TABLE_SIZE) eqn:E1; [exfalso; eapply Hend; [|exact E]; lia|].
  destruct (sw_stable w <? ARP_TABLE_SIZE) eqn:E2; [|destruct (sw_pending w <? ARP_TABLE_SIZE) eqn:E3; [|destruct (sw_queue w <? ARP_TABLE_SIZE) eqn:E4]].
  1-3: exfalso; destruct (etharp_free_entry _ s) as [[? s1]|]; [|done]; eapply Hend; [|exact E]; lia.
  eapply (starved_sweep a _ 0 sweep_start w); [apply (ai_entry _ _ _ Hi)|by rewrite (ai_len _ _ _ Hi)|done|exact Esw|]. unfold starved. bool_prop. lia.
Qed.

Lemma arp_mod_pb i f (s s' : net A X) u : arp_mod i f s = Some (u, s') -> n_pb s' = n_pb s.
Proof. unfold arp_mod, sto_bind, arp_get, arp_put. destruct (arp_table s !! _); [|done]. by intros [= _ <-]. Qed.

Lemma free_entry_recycles i (s s' : net A X) u : etharp_free_entry i s = Some (u, s') -> recycles (arp_table s) (n_pb s) (n_pb s').
Proof.
  unfold etharp_free_entry, sto_bind, arp_get. destruct (arp_table s !! _) as [e|] eqn:He; [|done]. apply list_elem_of_lookup_2 in He. destruct (ae_q e) as [q|] eqn:Eq.
  - unfold pb_do. destruct (pbuf_free (Some q) (n_pb s)) as [[n b]|] eqn:Ef; [|done]. destruct (arp_mod _ _ _) as [[? s1]|] eqn:E1; [|done].
    apply arp_mod_pb in E1. intros E2%arp_mod_pb. right. exists e, q, n. split_and!; [done|done|]. rewrite E2, E1. done.
  - cbn [sto_ret]. intros E2%arp_mod_pb. left. done.
Qed.

Lemma find_entry_recycles a flags i (s s' : net A X) : etharp_find_entry (Some a) flags s = Some (i, s') -> recycles (arp_table s) (n_pb s) (n_pb s').
Proof.
  unfold etharp_find_entry, sto_bind, sto_get, sto_ret. destruct (sweep_table _ _ _ _) as [j|w]; [intros [= _ <-]; by left|]. case_if; [intros [= _ <-]; by left|].
  assert (forall j (s1 : net A X), match arp_mod j (fun e => e <| ae_ipaddr := a |>) s1 with
    | Some (_, s) => match arp_mod j (fun e => e <| ae_ctime := 0 |>) s with Some (_, s) => Some (j, s) | None => None end | None => None end = Some (i, s') -> n_pb s' = n_pb s1) as Hend.
  { intros j s1. destruct (arp_mod _ _ s1) as [[? s2]|] eqn:E1; [|done]. destruct (arp_mod _ _ s2) as [[? s3]|] eqn:E2; [|done].
    apply arp_mod_pb in E1, E2. intros [= _ <-]. congruence. }
  case_if; [intros E1%Hend; by left|]. destruct (recycled w) as [j|]; [|intros [= _ <-]; by left].
  destruct (etharp_free_entry j s) as [[? s1]|] eqn:Ef; [|done]. intros E1%Hend. rewrite E1. by eapply free_entry_recycles.
Qed.

(** ** Asking for an address *)

Definition pending_entry (q a : Z) (eth : list Z) : etharp_entry := mk_entry (Some q) a true eth 0 ETHARP_STATE_PENDING.

(** A packet that need not be copied. *)
Definition keepable (b : pbufs A) (q : Z) : Prop := forall l, chain (pb_tab b) (Some q) l -> existsb (fun x => PBUF_NEEDS_COPY x.2) l = false.

Lemma keepable_same b b' q c : pk_same q b b' -> packet b q c -> keepable b q -> keepable b' q.
Proof.
  intros Hs (k & Hk & _) Hkeep l Hl. destruct (Hs k Hk) as (l' & Hl' & Hf & _). replace l with l' by (by eapply chain_det). rewrite <- (Hkeep k Hk).
  clear -Hf. induction Hf as [|x y k l [_ E] Hf IH]; [done|]. cbn [existsb]. rewrite IH. unfold PBUF_NEEDS_COPY. red in E. by rewrite E.
Qed.

(** The packet stays, with a reference more. *)
Lemma take_packet_keeps (b : pbufs A) own q : good (base := base) b own -> q ∈ own -> incoming (pb_tab b) q = 0%nat -> (multiplicity q own < 255)%nat -> keepable b q ->
  sto_wp (etharp_take_packet q) (fun r b' => r = Some q /\ good (base := base) b' ({[+ q +]} ⊎ own) /\ heads_kept (pb_tab b) (pb_tab b') /\ forall x, pk_same x b b') b.
Proof.
  intros Hg Hq Hin Hm Hk. unfold etharp_take_packet. pose proof Hg as Hg0. open_good Hg0. destruct (own_chain _ _ _ q Hi Hq) as (c & l & Hc & Hl).
  apply swp_bind, swp_get, swp_bind. unfold sto_wp at 1. rewrite (needs_copy_loop_eq l) by (unfold chain_fuel; pose proof (chain_length _ _ _ Hl); done || lia).
  rewrite (Hk l Hl). destruct (pi_ref _ _ _ Hi _ _ Hc) as [Er _]. apply swp_bind. eapply swp_pbuf_ref; [exact Hi|exact Hc|lia|]. intros b' Hi'. apply swp_ret.
  split_and!; [done| |by eapply heads_kept_put|].
  - eexists. split; [exact Hi'|]. eapply lens_shape; [exact Hlen|by eapply pinv_closed|]. intros x d Hd. unfold b' in Hd. cbn [setf pb_tab] in Hd.
    apply lookup_insert_Some in Hd as [[<- <-]|[_ Hd]]; [by exists c|by apply shape_refl].
  - intros x. destruct (pb_tab b !! x) as [d|] eqn:Hd; [|by apply pk_same_absent]. destruct (pi_chain _ _ _ Hi _ _ Hd) as [k Hk']. eapply (kept_same b b' m); [done| | |].
    + intros y e e' _ He'. by apply (pi_ok _ _ _ Hi').
    + eapply has_chain_alter; [exact Hc|done|by exists k].
    + intros _ y _ _ _ e He. unfold b' in He. cbn [setf pb_tab] in He. apply lookup_insert_Some in He as [[<- <-]|[_ He]]; [by exists c|by apply shape_refl].
Qed.

(** On the link itself, not through the gateway. *)
Definition on_link (n : netif) (a : Z) : Prop := ip4_addr_netcmp a (nf_ip_addr n) (nf_netmask n) = true \/ ip4_addr_islinklocal a = true.

(** A query for an address without an entry: it is asked for, and the packet kept. *)
Lemma query_queues s own a q c : ainv s own -> sendable (held := held) s own q -> packet (n_pb s) q c -> room (n_pb s) q SIZEOF_ETH_HDR -> keepable (n_pb s) q ->
  unicast (n_netif s) a -> (forall e, e ∈ arp_table s -> live e -> ae_ipaddr e <> a) ->
  sto_wp (etharp_query a (Some q)) (fun r s' => r = ERR_MEM /\ s' = s /\ Forall static (arp_table s) \/
    r = ERR_OK /\ ainv s' own /\ n_netif s' = n_netif s /\ packet (n_pb s') q c /\ room (n_pb s') q SIZEOF_ETH_HDR /\
    (exists i eth, 0 <= i < ARP_TABLE_SIZE /\ arp_table s' = <[Z.to_nat i := pending_entry q a eth]> (arp_table s)) /\
    (n_up s' = sent (arp_frame ARP_REQUEST ethbroadcast (nf_hwaddr (n_netif s)) (nf_hwaddr (n_netif s)) (nf_ip_addr (n_netif s)) ethzero a) (n_up s) \/
     n_up s' = n_up s /\ exists b, recycles (arp_table s) (n_pb s) b /\ no_memory b PBUF_LINK SIZEOF_ETHARP_HDR PBUF_RAM)) s.
Proof.
  intros Hi Hq Hpk Hrm Hkeep (Hu1 & Hu2 & Hu3) Hno. unfold etharp_query. apply swp_bind, swp_netif. rewrite Hu1, Hu2, Hu3. cbn [orb].
  apply swp_bind, swp_eqn. eapply swp_mono; [apply (find_entry_ok (base := base) (held := held) s own a); exact Hi|]. intros i s1 [Hf Hi1] Efind.
  pose proof (find_entry_recycles _ _ _ _ _ Efind) as Hrc. pose proof (find_entry_hard _ _ _ _ _ Hi Efind) as Hhard. clear Efind.
  destruct Hf as [|i e Hr He Hl Ea|i e b Hr He Hst _ Hh Hk].
  { apply swp_ret. left. split_and!; [done|done|]. by apply Hhard. }
  { exfalso. eapply (Hno e); [by eapply list_elem_of_lookup_2|done|done]. }
  replace (i <? 0) with false by lia. set (s1 := set_entry i (renewed a e) (s <| n_pb := b |>)) in *. assert (arp_table s1 !! Z.to_nat i = Some (renewed a e)) as He1 by (by eapply set_entry_lookup).
  pose proof (Forall_lookup_1 _ _ _ _ (ai_entry _ _ _ Hi) He) as Hok.
  apply swp_bind. eapply swp_arp_get; [exact He1|]. cbn [ae_state renewed freed setf Z.eqb ETHARP_STATE_EMPTY]. set (e2 := mk_entry None a true (ae_ethaddr e) 0 ETHARP_STATE_PENDING).
  apply swp_bind. cbn [sto_when]. apply swp_bind. eapply swp_arp_mod; [exact He1|]. eapply swp_arp_mod; [by eapply set_entry_lookup|]. rewrite set_entry_twice.
  change ((renewed a e) <| ae_state := ETHARP_STATE_PENDING |> <| ae_netif := true |>) with e2. set (s2 := set_entry i e2 s1).
  assert (ainv s2 own) as Hi2.
  { eapply ainv_set; [exact Hi1|exact He1| |done|].
    - destruct Hok as [K1 K2 K3 K4 K5 K6]. constructor; unfold e2; eunf; esimp; try done; lia.
    - right. intros f Hin Hl. unfold s1, set_entry in Hin. cbn [setf arp_table] in Hin. apply list_elem_of_lookup in Hin as [j Hj].
      apply list_lookup_insert_Some in Hj as [(<- & <- & _)|[_ Hj]]; [by destruct Hl|]. apply Hno; [|done]. by eapply list_elem_of_lookup_2. }
  destruct Hq as (Hqo & Hin & Hmu). pose proof (Hk q Hqo) as Hkq.
  assert (packet (n_pb s2) q c) as Hpk2 by (by eapply pk_same_packet). assert (room (n_pb s2) q SIZEOF_ETH_HDR) as Hrm2 by (by eapply room_same).
  assert (keepable (n_pb s2) q) as Hkeep2 by (by eapply keepable_same).
  cbn [orb]. apply swp_bind. apply swp_bind, swp_netif. eapply swp_mono; [apply (etharp_raw_sends s2 own); try done; apply Hi2|]. intros result s3 [Hq3 Hup3]. pose proof Hq3 as [Hi3 Q2 Q3 Q4 Q5 Q6].
  assert (pk_same q (n_pb s2) (n_pb s3)) as Hk3 by (apply Q6; by left).
  assert (arp_table s3 !! Z.to_nat i = Some e2) as He3 by (rewrite Q2; by eapply set_entry_lookup).
  apply swp_bind. eapply swp_arp_get; [exact He3|]. cbn [ae_state e2 ETHARP_STATE_STABLE ETHARP_STATE_PENDING Z.leb Z.compare Pos.compare Pos.compare_cont Z.eqb Pos.eqb].
  apply swp_bind, swp_pb_do. eapply swp_mono; [apply (take_packet_keeps (n_pb s3) _ q (ai_pb _ _ _ Hi3))|].
  { apply gmultiset_elem_of_disj_union. by left. }
  { by apply Q5, Hh. }
  { rewrite !multiplicity_disj_union. pose proof (queued_mult q (arp_table s3)) as Hqm. rewrite (ai_len _ _ _ Hi3) in Hqm.
    assert (held (n_up s3) = held (n_up s)) as ->. { destruct Hup3 as [(_ & -> & _)|[_ ->]]; [done|]. by rewrite wire_held. } unfold ARP_TABLE_SIZE in *. lia. }
  { by eapply keepable_same. }
  intros r4 b4 (-> & Hg4 & Hh4 & Hk4). set (s4 := s3 <| n_pb := b4 |>). assert (arp_table s4 !! Z.to_nat i = Some e2) as He4 by done.
  apply swp_bind. eapply swp_arp_get; [exact He4|]. cbn [ae_q e2]. apply swp_bind, swp_ret. apply swp_bind. eapply swp_arp_mod; [exact He4|]. apply swp_ret. right.
  pose proof (queued_in _ _ e2 (e2 <| ae_q := Some q |>) q He3 eq_refl eq_refl) as Eo.
  pose proof (Forall_lookup_1 _ _ _ _ (ai_entry _ _ _ Hi3) He3) as Hok2.
  split_and!; [done| | | | | |].
  - eapply ainv_replace; [exact Hi3|exact He3| |by left| |].
    + destruct Hok2 as [K1 K2 K3 K4 K5 K6]. constructor; try done. intros Hn. by destruct Hn.
    + rewrite Eo, own_out. exact Hg4.
    + intros x Hx. rewrite Eo in Hx. apply gmultiset_elem_of_disj_union in Hx as [Hx|Hx]; apply Hh4.
      * apply gmultiset_elem_of_singleton in Hx as ->. by apply Q5, Hh.
      * by apply (ai_heads _ _ _ Hi3).
  - cbn. by rewrite Q4.
  - cbn. eapply pk_same_packet; [apply Hk4|]. by eapply pk_same_packet.
  - cbn. eapply room_same; [apply Hk4|by eapply pk_same_packet|]. by eapply room_same.
  - exists i, (ae_ethaddr e). split; [done|]. unfold s4, set_entry. cbn [setf arp_table]. rewrite Q2. unfold s2, s1, set_entry. cbn [setf arp_table].
    by rewrite !list_insert_insert_eq.
  - cbn. destruct Hup3 as [(_ & E & Hm)|[_ E]]; [right|by left]. split; [exact E|]. exists b. split; [exact Hrc|exact Hm].
Qed.

(** The same for a packet to be sent. *)
Lemma output_queues s own a q c : ainv s own -> sendable (held := held) s own q -> packet (n_pb s) q c -> room (n_pb s) q SIZEOF_ETH_HDR -> keepable (n_pb s) q ->
  unicast (n_netif s) a -> on_link (n_netif s) a -> (forall e, e ∈ arp_table s -> live e -> ae_ipaddr e <> a) ->
  etharp_output q a s = etharp_query a (Some q) s.
Proof.
  intros Hi Hq Hpk Hrm Hkeep (Hu1 & Hu2 & Hu3) Hon Hno. unfold etharp_output. unfold sto_bind at 1. unfold get_netif at 1. rewrite Hu2, Hu3.
  replace (negb _ && negb _) with false by (destruct Hon as [-> | ->]; cbn; by rewrite ?andb_false_r). cbn [andb].
  unfold sto_bind at 1. unfold sto_get at 1. destruct (ainv_lookup held s own _ Hi (ai_cached _ _ _ Hi)) as (e & He & Hok).
  unfold sto_bind at 1. unfold arp_get at 1. rewrite He.
  assert (forall f, f ∈ arp_table s -> (ETHARP_STATE_STABLE <=? ae_state f) && (a =? ae_ipaddr f) = false) as Hst.
  { intros f Hf. apply andb_false_iff. destruct (Z.leb_spec ETHARP_STATE_STABLE (ae_state f)); [right|by left]. apply Z.eqb_neq. intros E.
    eapply (Hno f); [done|unfold live; eunf; lia|done]. }
  rewrite Hst by (by eapply list_elem_of_lookup_2).
  assert (find_stable a (arp_table s) 0 = None) as ->; [|done]. revert Hst. generalize (arp_table s), 0. clear. induction l as [|f l IH]; intros i Hst; [done|].
  cbn [find_stable]. rewrite Hst by left. apply IH. intros g Hg. apply Hst. by right.
Qed.

(** ** Receiving ARP messages *)

Lemma app_inj_zlen (l1 l2 k1 k2 : list Z) : zlen l1 = zlen k1 -> l1 ++ l2 = k1 ++ k2 -> l1 = k1 /\ l2 = k2.
Proof. intros Hz E. apply app_inj_1; [unfold zlen in Hz; lia|done]. Qed.

Lemma remove_header_run (b : pbufs A) p d n : pb_tab b !! p = Some d -> 0 < n <= pb_len d -> pb_len d <= pb_tot_len d < 65536 ->
  pbuf_remove_header (Some p) n b = Some (0, b <| pb_tab := <[p := d <| pb_payload := pb_payload d + n |> <| pb_len := pb_len d - n |> <| pb_tot_len := pb_tot_len d - n |>]> (pb_tab b) |>).
Proof.
  intros Hd Hn Ht. unfold pbuf_remove_header. replace (0xFFFF <? n) with false by lia. replace (n =? 0) with false by lia.
  unfold sto_bind, deref. rewrite Hd. replace (pb_len d <? n) with false by lia. rewrite !u16_small by (unfold is_u16; lia). done.
Qed.

Lemma ethernet_input_arp s own p b dst src (Q : Z -> net A X -> Prop) : ainv s ({[+ p +]} ⊎ own) -> incoming (pb_tab (n_pb s)) p = 0%nat ->
  pb_tab (n_pb s) !! p = Some b -> SIZEOF_ETH_HDR < pb_len b -> nf_flag (n_netif s) NETIF_FLAG_ETHARP = true ->
  zlen dst = ETH_HWADDR_LEN -> zlen src = ETH_HWADDR_LEN ->
  ram_read (pb_payload b) SIZEOF_ETH_HDR (pb_ram (n_pb s)) = eth_hdr dst src ETHTYPE_ARP ->
  (forall b' c, let s' := s <| n_pb := b' |> in ainv s' ({[+ p +]} ⊎ own) -> (forall x, x <> p -> pk_same x (n_pb s) b') ->
     pb_tab b' !! p = Some c -> pb_payload c = pb_payload b + SIZEOF_ETH_HDR -> pb_len c = pb_len b - SIZEOF_ETH_HDR ->
     b' = (n_pb s) <| pb_tab := <[p := c]> (pb_tab (n_pb s)) |> -> sto_wp (etharp_input p) (fun _ s' => Q ERR_OK s') s') ->
  sto_wp (ethernet_input p) Q s.
Proof.
  intros Hi Hin Hb Hlen Hfl Hdst Hsrc Er HQ. change SIZEOF_ETH_HDR with 14 in *. destruct (ai_pb _ _ _ Hi) as (m & Hpi & Hlens).
  pose proof (po_custom _ _ _ (pi_ok _ _ _ Hpi _ _ Hb)) as Hcu.
  assert (forall (s' : net A X), s' <| n_pb := n_pb s' |> = s') as Es by (by intros []).
  unfold ethernet_input. apply swp_bind, swp_pb_do. eapply swp_deref; [exact Hb|]. rewrite Es. change SIZEOF_ETH_HDR with 14. replace (pb_len b <=? 14) with false by lia.
  apply swp_bind, swp_netif, swp_bind.
  assert (forall Q' : unit -> net A X -> Prop, (forall b1 c1, let s1 := s <| n_pb := b1 |> in ainv s1 ({[+ p +]} ⊎ own) -> b1 = (n_pb s) <| pb_tab := <[p := c1]> (pb_tab (n_pb s)) |> ->
    c1 = b <| pb_if_idx := pb_if_idx c1 |> -> Q' tt s1) ->
    sto_wp (if pb_if_idx b =? NETIF_NO_INDEX then pb_do (put_pbuf p (b <| pb_if_idx := netif_get_index (n_netif s) |>)) else sto_ret tt) Q' s) as Hidx.
  { intros Q' HQ'. apply swp_if; intros _.
    - eapply put_own; [exact Hi|exact Hb|done|done|]. intros c s1 Hi1 _ Ec. by eapply HQ'.
    - apply swp_ret. rewrite <- (Es s). eapply (HQ' (n_pb s) b); [by rewrite Es| |by destruct b]. rewrite insert_id by done. by destruct (n_pb s). }
  apply Hidx. clear Hidx. intros b1 c1 s1 Hi1 Eb1 Ec1. assert (pb_tab b1 !! p = Some c1) as Hb1 by (rewrite Eb1; apply lookup_insert_eq).
  apply swp_bind, swp_pb_do, swp_data_read. rewrite Es. cbn [n_pb setf s1]. replace (pb_ram b1) with (pb_ram (n_pb s)) by (by rewrite Eb1). rewrite Er.
  assert (mem_read 12 2 (eth_hdr dst src ETHTYPE_ARP) = le_bytes 2 (lwip_htons ETHTYPE_ARP)) as Ety.
  { unfold eth_hdr. rewrite app_assoc. unfold mem_read. rewrite drop_app_z by done. rewrite zlen_app, Hdst, Hsrc. change ETH_HWADDR_LEN with 6.
    rewrite drop_all_z by (rewrite zlen_app, Hdst, Hsrc; done). done. }
  rewrite Ety. cbv zeta. set (flag := if Z.land _ 1 =? 0 then 0 else _). assert (Z.land flag 2 = 0) as Hflag by (unfold flag; repeat case_if; done).
  apply swp_bind, swp_pb_do. eapply swp_deref; [exact Hb1|]. rewrite Es. apply swp_bind. eapply put_own; [exact Hi1|exact Hb1|done| |].
  { unfold is_custom, PBUF_FLAG_IS_CUSTOM in *. cbn [setf pb_flags]. apply negb_false_iff, Z.eqb_eq. apply negb_false_iff, Z.eqb_eq in Hcu.
    rewrite Z.land_lor_distr_l, Hflag, Z.lor_0_r, Ec1. exact Hcu. }
  intros b2 s2 Hi2 _ Eb2. change (n_pb s1) with b1 in Eb2. set (c2 := c1 <| pb_flags := _ |>) in *. assert (pb_tab b2 !! p = Some c2) as Hb2 by (rewrite Eb2; apply lookup_insert_eq).
  assert (pb_payload c2 = pb_payload b /\ pb_len c2 = pb_len b /\ pb_next c2 = pb_next b) as (Ep2 & El2 & En2) by (unfold c2; rewrite Ec1; done).
  change (le_val (le_bytes 2 (lwip_htons ETHTYPE_ARP)) =? PP_HTONS ETHTYPE_IP) with false. change (le_val (le_bytes 2 (lwip_htons ETHTYPE_ARP)) =? PP_HTONS ETHTYPE_ARP) with true.
  cbn [orb]. rewrite Hfl. cbn [negb]. destruct (ai_pb _ _ _ Hi2) as (m2 & Hpi2 & Hlens2). destruct (pi_chain _ _ _ Hpi2 _ _ Hb2) as [l2 Hl2].
  destruct (pinv_tots _ _ _ _ _ _ Hpi2 Hlens2 Hb2 Hl2) as [_ Hlt]. pose proof (po_tot _ _ _ (pi_ok _ _ _ Hpi2 _ _ Hb2)) as [_ Htot].
  pose proof (remove_header_run b2 p c2 14 Hb2 ltac:(lia) ltac:(lia)) as Erm. set (c3 := c2 <| pb_payload := _ |> <| pb_len := _ |> <| pb_tot_len := _ |>) in Erm.
  assert (incoming (pb_tab b2) p = 0%nat) as Hin2 by (rewrite Eb2, Eb1; cbn; by rewrite insert_insert_eq, (incoming_same _ _ b)).
  assert (sto_wp (pbuf_remove_header (Some p) 14) (fun _ b3 => good (base := base) b3 ({[+ p +]} ⊎ own ⊎ (queued (arp_table s) ⊎ held (n_up s)))) b2) as Hg3.
  { apply good_remove_header; [apply (ai_pb _ _ _ Hi2)|rewrite !gmultiset_elem_of_disj_union; left; left; by apply gmultiset_elem_of_singleton|done|done]. }
  unfold sto_wp in Hg3. rewrite Erm in Hg3. apply swp_bind. unfold sto_wp at 1, pb_do at 1. cbn [n_pb setf s2]. rewrite Erm. cbn [Z.eqb negb].
  set (b3 := b2 <| pb_tab := _ |>) in *. assert (heads_kept (pb_tab b2) (pb_tab b3)) as Hh3 by (by eapply heads_kept_put).
  apply swp_bind. apply (HQ b3 c3); [| |apply lookup_insert_eq|change (pb_payload c2 + 14 = pb_payload b + 14); lia|change (pb_len c2 - 14 = pb_len b - 14); lia|].
  - eapply (ainv_pb held s2); [exact Hi2|exact Hg3|intros q _; apply Hh3].
  - intros x Hx. apply (pk_same_put (n_pb s) b3 p c3); [|done| |done].
    + unfold b3. rewrite Eb2, Eb1. cbn. by rewrite !insert_insert_eq.
    + intros q c _ _. unfold bytes, b3. rewrite Eb2, Eb1. done.
  - unfold b3. rewrite Eb2, Eb1. cbn. by rewrite !insert_insert_eq.
Qed.

(** The frame reaches [etharp_input] in a packet of its own. *)
Lemma recv_arp_frame s own dst src h pad (Q : bool -> net A X -> Prop) : let d := eth_hdr dst src ETHTYPE_ARP ++ h ++ pad in
  ainv s own -> nf_flag (n_netif s) NETIF_FLAG_ETHARP = true -> zlen dst = ETH_HWADDR_LEN -> zlen src = ETH_HWADDR_LEN -> zlen h = SIZEOF_ETHARP_HDR ->
  zlen d <= PBUF_POOL_BUFSIZE_ALIGNED ->
  (no_memory (n_pb s) PBUF_RAW (zlen d) PBUF_POOL -> Q false (s <| n_pb := (n_pb s) <| pbuf_free_ooseq_pending := true |> |>)) ->
  (forall p b c, let s' := s <| n_pb := b |> in ainv s' ({[+ p +]} ⊎ own) -> received d (n_pb s) b -> (forall x, x ∈ own \/ x ∈ queued (arp_table s) -> x <> p /\ pk_same x (n_pb s) b) ->
     pb_tab b !! p = Some c -> SIZEOF_ETHARP_HDR <= pb_len c -> ram_read (pb_payload c) SIZEOF_ETHARP_HDR (pb_ram b) = h -> sto_wp (etharp_input p) (fun _ s' => Q true s') s') ->
  sto_wp (recv_frame d) Q s.
Proof.
  intros d Hi Hfl Hdst Hsrc Hh Hd HN HS. change PBUF_POOL_BUFSIZE_ALIGNED with 1516 in Hd. change SIZEOF_ETHARP_HDR with 28 in *. pose proof (zlen_nonneg pad) as Hp0.
  assert (zlen d = 42 + zlen pad) as Hz by (unfold d; rewrite !zlen_app, eth_hdr_zlen, Hh by done; change SIZEOF_ETH_HDR with 14; lia).
  unfold recv_frame. replace (zlen d =? 0) with false by lia. cbn [negb]. destruct (ai_pb _ _ _ Hi) as (m & Hpi & Hlen).
  apply swp_bind, swp_pb_do, swp_eqn. eapply swp_alloc_pool_one; [exact Hpi|change PBUF_POOL_BUFSIZE_ALIGNED with 1516; lia|intros Em; apply swp_ret, HN; red; by rewrite Em|].
  intros p a b b0 Hp Hi0 Hkm Ealloc. pose proof (tab_fresh _ _ _ _ Hpi Hp) as Htp. pose proof (incoming_absent _ _ _ _ Hpi Htp) as Hin.
  assert (pb_tab b0 !! p = Some b) as Hb0 by apply lookup_insert_eq. assert (heads_kept (pb_tab (n_pb s)) (pb_tab b0)) as Hh0 by (by apply heads_kept_new).
  assert (forall x, x <> p -> pk_same x (n_pb s) b0) as Hk0.
  { intros x Hx. apply (pk_same_put _ _ p b); [done|done| |done]. intros q c Hq _. unfold bytes. apply ram_read_ext. intros y Hy. apply Hkm.
    eapply data_owned; [by apply (pi_ok _ _ _ Hpi)|done]. }
  assert (good (base := base) b0 ({[+ p +]} ⊎ (own ⊎ (queued (arp_table s) ⊎ held (n_up s))))) as Hg0 by (by eapply good_alloc_one).
  apply swp_bind, swp_pb_do, swp_eqn. destruct Hg0 as (m0 & Hpi0 & Hlen0). eapply (swp_pbuf_take b0 m0 _ p b [(p, b)] d (zlen d)); [exact Hpi0|done|exact Hb0|by split_and!|by apply Forall_singleton|lia|cbn; lia|].
  intros b1 Rtake Hpi1 Et1 Ec1 Eo1 Etake. assert (bytes b1 b = d) as Eb1.
  { cbn [content] in Ec1. rewrite !app_nil_r in Ec1. rewrite Ec1. unfold mem_read. rewrite drop_none_z, take_all_z by lia. rewrite drop_all_z, app_nil_r; [done|]. unfold bytes. rewrite ram_read_zlen; cbn; lia. }
  assert (forall x, x <> p -> pk_same x b0 b1) as Hk1.
  { intros x Hx. apply (pk_same_put b0 b1 p b); [by rewrite Et1, insert_id|by apply Hh0| |done]. intros q c Hq Hqp. apply (Eo1 q c); [done|]. intros Hl. apply list_elem_of_singleton in Hl. done. }
  set (s1 := s <| n_pb := b1 |>). assert (ainv s1 ({[+ p +]} ⊎ own)) as Ha1.
  { eapply ainv_pb; [exact Hi|rewrite <- (assoc_L (⊎)); exists m0; split; [exact Hpi1|by rewrite Et1]|]. intros q _. rewrite Et1. apply Hh0. }
  assert (pb_tab b1 !! p = Some b) as Hb1 by (by rewrite Et1). assert (incoming (pb_tab b1) p = 0%nat) as Hin1 by (rewrite Et1; by apply Hh0).
  assert (ram_read (pb_payload b) 14 (pb_ram b1) = eth_hdr dst src ETHTYPE_ARP /\ ram_read (pb_payload b + 14) 28 (pb_ram b1) = h) as [Er1 Er2].
  { assert (ram_read (pb_payload b) (14 + (28 + zlen pad)) (pb_ram b1) = d) as Er by (rewrite <- Eb1; unfold bytes; f_equal; cbn; lia).
    rewrite !ram_read_app in Er by lia. unfold d in Er. apply app_inj_zlen in Er as [E1 E2]; [|rewrite ram_read_zlen, eth_hdr_zlen by done; done].
    apply app_inj_zlen in E2 as [E2 _]; [done|]. by rewrite ram_read_zlen, Hh. }
  apply swp_bind. eapply (ethernet_input_arp s1 own p b dst src); [exact Ha1|exact Hin1|exact Hb1|change (14 < zlen d); lia|exact Hfl|done|done|exact Er1|].
  intros b2 c s2 Ha2 Hk2 Hc Ep El Er. eapply swp_mono; [apply (HS p b2 c); [exact Ha2| | |exact Hc|rewrite El; change (28 <= zlen d - 14); lia|by rewrite Ep, Er]|].
  - eexists p, _, _, b1, c. split_and!; [exact Ealloc|exact Etake|exact Er].
  - intros x Hx. assert (x <> p) as Hxp by (intros ->; destruct (ainv_live s own p Hi Hx); congruence). split; [done|].
    eapply pk_same_trans; [by apply Hk0|]. eapply pk_same_trans; [by apply Hk1|by apply Hk2].
  - intros u s3 HQ. cbn [Z.eqb negb]. apply swp_bind, swp_ret, swp_ret. exact HQ.
Qed.

Lemma list_six (l : list Z) : zlen l = ETH_HWADDR_LEN -> exists a b c d e f, l = [a; b; c; d; e; f].
Proof.
  intros Hl. unfold zlen in Hl. change ETH_HWADDR_LEN with 6 in Hl. do 6 (destruct l as [|? l]; [cbn in Hl; lia|]). destruct l; [|cbn in Hl; lia]. by eauto 10.
Qed.

(** The fields of a message are read back. *)
Lemma etharp_hdr_fields op sh si dh di : zlen sh = ETH_HWADDR_LEN -> zlen dh = ETH_HWADDR_LEN -> is_u32 si -> is_u32 di -> is_u16 op -> let h := etharp_hdr op sh si dh di in
  le_val (mem_read 0 2 h) = PP_HTONS HWTYPE_ETHERNET /\ mem_get h 4 = ETH_HWADDR_LEN /\ mem_get h 5 = 4 /\ le_val (mem_read 2 2 h) = PP_HTONS ETHTYPE_IP /\
  mem_read 8 6 h = sh /\ le_val (mem_read 14 4 h) = si /\ le_val (mem_read 24 4 h) = di /\ le_val (mem_read 6 2 h) = lwip_htons op.
Proof.
  intros Hs Hd Hsi Hdi Hop. destruct (list_six sh Hs) as (a1 & a2 & a3 & a4 & a5 & a6 & ->). destruct (list_six dh Hd) as (b1 & b2 & b3 & b4 & b5 & b6 & ->).
  split_and!; try done.
  - change (le_val (le_bytes 4 si) = si). by apply ip4_bytes.
  - change (le_val (le_bytes 4 di) = di). by apply ip4_bytes.
  - change (le_val (le_bytes 2 (lwip_htons op)) = lwip_htons op). rewrite le_val_bytes. apply Z.mod_small. apply u16_range.
Qed.

(** What is read from a packet that stays as it is. *)
Lemma pk_same_read (b b' : pbufs A) p c n : pk_same p b b' -> has_chain (pb_tab b) (Some p) -> pb_tab b !! p = Some c -> 0 <= n <= pb_len c ->
  ram_read (pb_payload c) n (pb_ram b') = ram_read (pb_payload c) n (pb_ram b).
Proof.
  intros Hs [l Hl] Hc Hn. destruct (Hs l Hl) as (l' & Hl' & Hf & Ec). destruct l as [|[p' c0] l]; [done|]. destruct Hl as ([= <-] & Hc0 & Hl).
  replace c0 with c in * by congruence. inversion Hf as [|? [p' c'] ? l1 [Ep E] _]; subst. cbn in Ep, E. red in E.
  assert (pb_payload c' = pb_payload c /\ pb_len c' = pb_len c) as [Epl El] by (by rewrite E). cbn [content] in Ec. unfold bytes in Ec. rewrite Epl, El in Ec.
  replace (pb_len c) with (n + (pb_len c - n)) in Ec by lia. rewrite !ram_read_app, <- !app_assoc in Ec by lia. apply app_inj_zlen in Ec as [Ec _]; [done|]. by rewrite !ram_read_zlen by lia.
Qed.

Lemma opcode_read (b : A) a h : ram_read a SIZEOF_ETHARP_HDR b = h -> ram_read (a + 6) 2 b = mem_read 6 2 h /\ ram_read (a + 8) 6 b = mem_read 8 6 h.
Proof.
  intros <-. change SIZEOF_ETHARP_HDR with 28. unfold mem_read. split.
  - change 28 with (6 + (2 + 20)). rewrite !ram_read_app by done. rewrite drop_app_z, ram_read_zlen by done. change (6 - 6) with 0. rewrite drop_all_z, (drop_none_z 0) by (rewrite ?ram_read_zlen; done).
    cbn [app]. rewrite take_app_z, ram_read_zlen by done. rewrite take_all_z, (take_none_z (2 - 2)), app_nil_r by (rewrite ?ram_read_zlen; done). done.
  - change 28 with (8 + (6 + 14)). rewrite !ram_read_app by done. rewrite drop_app_z, ram_read_zlen by done. change (8 - 8) with 0. rewrite drop_all_z, (drop_none_z 0) by (rewrite ?ram_read_zlen; done).
    cbn [app]. rewrite take_app_z, ram_read_zlen by done. rewrite take_all_z, (take_none_z (6 - 6)), app_nil_r by (rewrite ?ram_read_zlen; done). done.
Qed.

(** A message for us, once the entry of its sender is up to date. *)
Lemma input_for_us s own p c op mac a dh (Q : unit -> net A X -> Prop) : ainv s ({[+ p +]} ⊎ own) -> pb_tab (n_pb s) !! p = Some c -> SIZEOF_ETHARP_HDR <= pb_len c ->
  zlen mac = ETH_HWADDR_LEN -> zlen dh = ETH_HWADDR_LEN -> is_u32 a -> is_u32 (nf_ip_addr (n_netif s)) -> nf_ip_addr (n_netif s) <> IPADDR_ANY -> op = ARP_REQUEST \/ op = ARP_REPLY ->
  ram_read (pb_payload c) SIZEOF_ETHARP_HDR (pb_ram (n_pb s)) = etharp_hdr op mac a dh (nf_ip_addr (n_netif s)) ->
  sto_wp (etharp_update_arp_entry a mac ETHARP_FLAG_TRY_HARD) (fun _ s1 => ainv s1 ({[+ p +]} ⊎ own) /\ n_netif s1 = n_netif s /\ pk_same p (n_pb s) (n_pb s1) /\
    forall s2, quiet (fun x => x ∈ own) own s1 s2 -> (op = ARP_REPLY -> n_up s2 = n_up s1) ->
      (op = ARP_REQUEST -> n_up s2 = sent (arp_frame ARP_REPLY mac (nf_hwaddr (n_netif s)) (nf_hwaddr (n_netif s)) (nf_ip_addr (n_netif s)) mac a) (n_up s1) \/
        n_up s2 = n_up s1 /\ no_memory (n_pb s1) PBUF_LINK SIZEOF_ETHARP_HDR PBUF_RAM) -> Q tt s2) s ->
  sto_wp (etharp_input p) Q s.
Proof.
  intros Hi Hc Hcl Hmac Hdh Ha Hip Hany Hop Er Hup. assert (is_u16 op) as Hop16 by (by destruct Hop as [-> | ->]).
  destruct (etharp_hdr_fields op mac a dh _ Hmac Hdh Ha Hip Hop16) as (F1 & F2 & F3 & F4 & F5 & F6 & F7 & F8).
  assert (forall (s' : net A X), s' <| n_pb := n_pb s' |> = s') as Es by (by intros []).
  unfold etharp_input. apply swp_bind, swp_pb_do. eapply swp_deref; [exact Hc|]. rewrite Es. apply swp_bind, swp_pb_do, swp_data_read. rewrite Es, Er, F1, F2, F3, F4, !Z.eqb_refl.
  cbn [negb orb]. rewrite F5, F6, F7. apply swp_bind, swp_netif. replace (ip4_addr_isany_val (nf_ip_addr (n_netif s))) with false by (symmetry; by apply Z.eqb_neq). rewrite Z.eqb_refl.
  apply swp_bind. eapply swp_mono; [exact Hup|]. clear Hup. intros _ s1 (Hi1 & En1 & Hs1 & HQ).
  destruct (ai_pb _ _ _ Hi) as (m & Hpi & Hlens). destruct (pi_chain _ _ _ Hpi _ _ Hc) as [l Hl]. change SIZEOF_ETHARP_HDR with 28 in *.
  pose proof (pk_same_read _ _ p c 28 Hs1 ltac:(by exists l) Hc ltac:(lia)) as Er1. rewrite Er in Er1. apply opcode_read in Er1 as [Eop Emac]. rewrite F5 in Emac.
  apply swp_bind, swp_pb_do, swp_data_read. rewrite Es, Eop, F8. apply swp_bind.
  assert (forall s2, quiet (fun x => x ∈ {[+ p +]} ⊎ own) ({[+ p +]} ⊎ own) s1 s2 -> (forall s3, quiet (fun x => x ∈ own) own s1 s3 -> n_up s3 = n_up s2 -> Q tt s3) ->
    sto_wp (pb_do (pbuf_free (Some p)) ;?; sto_ret tt) Q s2) as Hend.
  { intros s2 [K1 K2 K3 K4 K5 K6] HQ2. apply swp_bind. eapply (swp_free_own held s2 own p); [exact K1|]. intros r b3 s3 Ha3 _ Hk3 Hh3. apply swp_ret. apply HQ2; [|done].
    constructor; cbn; try done; [by eapply heads_kept_trans|]. intros x Hx. eapply pk_same_trans; [apply K6|apply Hk3]; apply gmultiset_elem_of_disj_union; [by right|by left]. }
  destruct Hop as [-> | ->].
  - change (lwip_htons ARP_REQUEST =? PP_HTONS ARP_REQUEST) with true. cbn [sto_when]. apply swp_bind, swp_netif, swp_bind, swp_pb_do, swp_data_read. rewrite Es, Emac, En1. apply swp_bind.
    pose proof (ai_hwaddr _ _ _ Hi) as Hhw.
    eapply swp_mono; [by apply (etharp_raw_sends s1 ({[+ p +]} ⊎ own))|]. intros r s2 [Hq2 Hup2]. apply swp_ret. apply Hend; [eapply quiet_weaken; [|exact Hq2]; by left|].
    intros s3 Hq3 Eu3. apply HQ; [done|done|]. intros _. rewrite Eu3. destruct Hup2 as [(_ & -> & Hm)|[_ ->]]; auto.
  - change (lwip_htons ARP_REPLY =? PP_HTONS ARP_REQUEST) with false. cbn iota. apply swp_ret. apply Hend; [by apply quiet_refl|]. intros s3 Hq3 Eu3. by apply HQ.
Qed.

(** ** A packet waits for its answer *)

Definition no_entry (l : list etharp_entry) (a : Z) : Prop := forall e, e ∈ l -> live e -> ae_ipaddr e <> a.

(** An ARP message for us, from the wire. *)
Lemma recv_for_us s own op edst mac a dh pad (Q : bool -> net A X -> Prop) : let n := n_netif s in
  let d := arp_frame op edst mac mac a dh (nf_ip_addr n) ++ pad in
  ainv s own -> nf_flag n NETIF_FLAG_ETHARP = true -> zlen edst = ETH_HWADDR_LEN -> zlen mac = ETH_HWADDR_LEN -> zlen dh = ETH_HWADDR_LEN -> is_u32 a -> is_u32 (nf_ip_addr n) ->
  nf_ip_addr n <> IPADDR_ANY -> op = ARP_REQUEST \/ op = ARP_REPLY -> zlen d <= PBUF_POOL_BUFSIZE_ALIGNED ->
  (no_memory (n_pb s) PBUF_RAW (zlen d) PBUF_POOL -> Q false (s <| n_pb := (n_pb s) <| pbuf_free_ooseq_pending := true |> |>)) ->
  (forall p b, let s' := s <| n_pb := b |> in ainv s' ({[+ p +]} ⊎ own) -> received d (n_pb s) b -> (forall x, x ∈ own \/ x ∈ queued (arp_table s) -> x <> p /\ pk_same x (n_pb s) b) ->
    sto_wp (etharp_update_arp_entry a mac ETHARP_FLAG_TRY_HARD) (fun _ s1 => ainv s1 ({[+ p +]} ⊎ own) /\ n_netif s1 = n_netif s /\ pk_same p b (n_pb s1) /\
      forall s2, quiet (fun x => x ∈ own) own s1 s2 -> (op = ARP_REPLY -> n_up s2 = n_up s1) ->
        (op = ARP_REQUEST -> n_up s2 = sent (arp_frame ARP_REPLY mac (nf_hwaddr n) (nf_hwaddr n) (nf_ip_addr n) mac a) (n_up s1) \/
          n_up s2 = n_up s1 /\ no_memory (n_pb s1) PBUF_LINK SIZEOF_ETHARP_HDR PBUF_RAM) -> Q true s2) s') ->
  sto_wp (recv_frame d) Q s.
Proof.
  intros n d Hi Hfl Hed Hmac Hdh Ha Hip Hany Hop Hd HN HS.
  assert (d = eth_hdr edst mac ETHTYPE_ARP ++ etharp_hdr op mac a dh (nf_ip_addr n) ++ pad) as Ed by (unfold d, arp_frame; by rewrite <- app_assoc).
  rewrite Ed in *. apply (recv_arp_frame s own); try done; [by apply etharp_hdr_zlen|].
  intros p b c s' Ha' Hrcv Hk Hc Hcl Er. eapply (input_for_us s' own p c op mac a dh); try done. by apply HS.
Qed.

(** C14: A packet for an address on the link that is not known yet is kept while the
    address is asked for by one broadcast frame, and when the answer comes in, with any
    padding, the packet goes out to the hardware address it names, and the address is
    known from then on. The packet is refused, with nothing changed, only if every entry
    of the table is static; the question is not sent only if the allocation of its 28
    bytes fails (in the memory as it is, or without the packet of the entry that was
    recycled), and the packet is kept all the same; the answer is lost only if no receive
    buffer can be allocated for it. *)
Theorem arp_resolves s own q a mac dh pad c : let n := n_netif s in let reply := arp_frame ARP_REPLY (nf_hwaddr n) mac mac a dh (nf_ip_addr n) ++ pad in
  nreach (base := base) (held := held) s own -> sendable (held := held) s own q -> packet (n_pb s) q c -> room (n_pb s) q SIZEOF_ETH_HDR -> keepable (n_pb s) q ->
  unicast n a -> on_link n a -> no_entry (arp_table s) a -> nf_flag n NETIF_FLAG_ETHARP = true -> is_u32 (nf_ip_addr n) -> nf_ip_addr n <> IPADDR_ANY -> is_u32 a ->
  zlen mac = ETH_HWADDR_LEN -> zlen dh = ETH_HWADDR_LEN -> zlen reply <= PBUF_POOL_BUFSIZE_ALIGNED ->
  sto_wp (etharp_output q a) (fun r s1 => r = ERR_MEM /\ s1 = s /\ Forall static (arp_table s) \/
    r = ERR_OK /\
    (n_up s1 = sent (arp_frame ARP_REQUEST ethbroadcast (nf_hwaddr n) (nf_hwaddr n) (nf_ip_addr n) ethzero a) (n_up s) \/
     n_up s1 = n_up s /\ exists b, recycles (arp_table s) (n_pb s) b /\ no_memory b PBUF_LINK SIZEOF_ETHARP_HDR PBUF_RAM) /\
    sto_wp (recv_frame reply) (fun ok s2 =>
      ok = false /\ no_memory (n_pb s1) PBUF_RAW (zlen reply) PBUF_POOL /\ arp_table s2 = arp_table s1 /\ n_up s2 = n_up s1 \/
      ok = true /\ n_up s2 = sent (eth_hdr mac (nf_hwaddr n) ETHTYPE_IP ++ c) (n_up s1) /\ stable_entry a mac ∈ arp_table s2) s1) s.
Proof.
  intros n reply Hre Hq Hpk Hrm Hkeep Hun Hon Hno Hfl Hip Hany Ha Hmac Hdh Hz. apply nreach_ainv in Hre as Hi.
  unfold sto_wp at 1. rewrite (output_queues s own a q c) by done. fold (sto_wp (etharp_query a (Some q))). eapply swp_mono; [by apply (query_queues s own a q c)|].
  intros r s1 [Hr|(-> & Hi1 & En1 & Hpk1 & Hrm1 & (i & eth & Hr & Et1) & Hup)]; [by left|right]. split_and!; [done|done|].
  assert (arp_table s1 !! Z.to_nat i = Some (pending_entry q a eth)) as He1.
  { rewrite Et1. apply list_lookup_insert_eq. rewrite (ai_len _ _ _ Hi). unfold ARP_TABLE_SIZE in *. lia. }
  unfold reply, n in *. rewrite <- En1 in *. eapply (recv_for_us s1 own); try done; [apply Hi1|by right|by left|].
  intros p b s' Ha' _ Hk. assert (q ∈ queued (arp_table s1)) as Hqq by (apply elem_of_queued; exists (pending_entry q a eth); split; [by eapply list_elem_of_lookup_2|done]).
  destruct (Hk q (or_intror Hqq)) as [Hqp Hks]. eapply swp_mono; [eapply (update_releases s' _ i (pending_entry q a eth) q a mac ETHARP_FLAG_TRY_HARD c); try done|].
  - by eapply pk_same_packet.
  - by eapply room_same.
  - intros r2 s2 (_ & Hi2 & Et2 & En2 & Eu2 & Hk2). split_and!; [done|done| |].
    + apply Hk2; [|done]. apply gmultiset_elem_of_disj_union. left. by apply gmultiset_elem_of_singleton.
    + intros s3 Hq3 Hu3 _. right. split_and!; [done|by rewrite Hu3, Eu2|]. rewrite (qt_table _ _ _ _ Hq3), Et2. apply list_elem_of_lookup. exists (Z.to_nat i).
      apply list_lookup_insert_eq. by eapply lookup_lt_Some.
Qed.

End wire.
