(* ===== verification/EtharpAnswer.v ===== *)
(** * EtharpAnswer: answering requests, and time

    The rest of what the address resolution promises over a [Wire]: requests for the own
    address are answered and teach the table who asked, and entries expire. *)

From stdpp Require Import gmultiset.
From S2P Require Import Prelude Chksum Mem NetMem Pbuf PbufProps PbufOps PbufData PbufCopy Inet Etharp EtharpInv EtharpOps EtharpProps.

(** ** Entries and time *)

(** What a second does to an entry. *)
Definition tick (e : etharp_entry) : etharp_entry :=
  if negb (ae_state e =? ETHARP_STATE_EMPTY) && negb (ae_state e =? ETHARP_STATE_STATIC) then
    let e := e <| ae_ctime := ae_ctime e + 1 |> in
    if (ARP_MAXAGE <=? ae_ctime e) || ((ae_state e =? ETHARP_STATE_PENDING) && (ARP_MAXPENDING <=? ae_ctime e)) then freed e
    else if ae_state e =? ETHARP_STATE_STABLE_REREQUESTING_1 then e <| ae_state := ETHARP_STATE_STABLE_REREQUESTING_2 |>
    else if ae_state e =? ETHARP_STATE_STABLE_REREQUESTING_2 then e <| ae_state := ETHARP_STATE_STABLE |>
    else e
  else e.

Lemma tick_ok e : entry_ok e -> ~ static e -> entry_ok (tick e) /\ ~ static (tick e) /\
  (live (tick e) -> live e /\ ae_ctime (tick e) = ae_ctime e + 1 /\ (ae_state e = ETHARP_STATE_PENDING -> ae_state (tick e) = ETHARP_STATE_PENDING)).
Proof.
  intros Hok Hs. unfold tick. case_if; [|split_and!; [done|done|]; intros Hl; exfalso; unfold live, static in *; apply Z.eqb_neq in Hl, Hs; by rewrite Hl, Hs in E].
  pose proof Hok as [K1 K2 K3 K4 K5 K6]. apply andb_true_iff in E as [E%negb_true_iff%Z.eqb_neq _]. destruct (K3 E) as [Hct Hnf].
  destruct e as [q ip nf eth ct st]. unfold freed. eunf. esimp. subst nf.
  repeat case_if; bool_prop; esimp; (split_and!; [constructor; eunf; esimp; try done; try lia|lia|intros; split_and!; try done; try lia]); intros; exfalso; lia.
Qed.

Lemma tick_iter n e : entry_ok e -> ~ static e -> let e' := Nat.iter n tick e in entry_ok e' /\ ~ static e' /\
  (live e' -> ae_ctime e' = ae_ctime e + Z.of_nat n /\ (ae_state e = ETHARP_STATE_PENDING -> ae_state e' = ETHARP_STATE_PENDING)).
Proof.
  intros Hok Hs. induction n as [|n (I1 & I2 & I3)]; cbn [Nat.iter nat_rect]; [split_and!; [done|done|]; intros _; split; [lia|done]|].
  destruct (tick_ok _ I1 I2) as (T1 & T2 & T3). split_and!; [done|done|]. intros Hl. destruct (T3 Hl) as (Hl' & Hc & Hp). destruct (I3 Hl') as [Hc' Hp'].
  split; [unfold Nat.iter in *; lia|auto].
Qed.

(** Entries do not outlive their time. *)
Lemma tick_expires n e : entry_ok e -> ~ static e -> ARP_MAXAGE <= Z.of_nat n \/ ae_state e = ETHARP_STATE_PENDING /\ ARP_MAXPENDING <= Z.of_nat n ->
  ~ live (Nat.iter n tick e) /\ ae_q (Nat.iter n tick e) = None.
Proof.
  intros Hok Hs Hn. destruct (tick_iter n e Hok Hs) as (I1 & I2 & I3). assert (~ live (Nat.iter n tick e)) as Hd; [|split; [done|by apply I1]].
  intros Hl. destruct (I3 Hl) as [Hc Hp]. pose proof (eo_ctime _ Hok). destruct (eo_live _ I1 Hl) as [Hlt _]. destruct Hn as [Hn|[Hpe Hn]]; [lia|].
  pose proof (eo_pending _ I1 (Hp Hpe)). lia.
Qed.

Lemma tick_static n e : static e -> Nat.iter n tick e = e.
Proof. intros Hs. induction n as [|n IH]; [done|]. cbn [Nat.iter nat_rect]. unfold Nat.iter in IH. rewrite IH. unfold tick. by rewrite Hs. Qed.

Section answer.
Context {A X : Type} `{NetMem A, !NetMemOk A, CustomPbuf A} {base : gset Z} {held : X -> gmultiset Z}.
Context `{!NetLink A X, !NetUp A X} {sent : list Z -> X -> X} `{HW : !Wire base held sent, !NetUpOk base held}.
Abbreviation ainv := (ainv (base := base) held).
Abbreviation quiet := (quiet (base := base) (held := held)).

(** What the table has learned: [a] is at [mac], unless that is settled by a static entry
    or all entries are static. *)
Definition learned (a : Z) (mac : list Z) (l l' : list etharp_entry) : Prop :=
  l' = l /\ (Forall static l \/ exists e, e ∈ l /\ static e /\ ae_ipaddr e = a) \/
  exists i e, l !! i = Some e /\ ~ static e /\ l' = <[i := stable_entry a mac]> l.

(** No packet waits for [a]. *)
Definition nothing_waits (l : list etharp_entry) (a : Z) : Prop := forall e, e ∈ l -> live e -> ae_ipaddr e = a -> ae_q e = None.

Lemma update_quiet s own a mac : ainv s own -> zlen mac = ETH_HWADDR_LEN -> unicast (n_netif s) a -> nothing_waits (arp_table s) a ->
  sto_wp (etharp_update_arp_entry a mac ETHARP_FLAG_TRY_HARD) (fun _ s' => ainv s' own /\ n_netif s' = n_netif s /\ n_up s' = n_up s /\
    (forall x, x ∈ own -> pk_same x (n_pb s) (n_pb s')) /\ recycles (arp_table s) (n_pb s) (n_pb s') /\ learned a mac (arp_table s) (arp_table s')) s.
Proof.
  intros Hi Hz (Hu1 & Hu2 & Hu3) Hw. unfold etharp_update_arp_entry. apply swp_bind, swp_netif. rewrite Hu1, Hu2, Hu3. cbn [orb].
  assert (forall x, x ∈ own -> pk_same x (n_pb s) (n_pb s)) as Hsame by (intros; apply pk_same_refl).
  apply swp_bind. pose proof (find_entry_ok (base := base) (held := held) s own a ETHARP_FLAG_TRY_HARD Hi) as Hf. apply swp_run in Hf as (i & s1 & E & Hf & Hi1).
  unfold sto_wp at 1. rewrite E. pose proof (find_entry_recycles _ _ _ _ _ E) as Hrc. apply swp_if; intros Ei.
  { apply Z.ltb_lt in Ei. pose proof (find_entry_hard _ _ _ _ _ Hi E Ei) as Hall. destruct Hf; [|lia|lia]. apply swp_ret. split_and!; try done. left. auto. }
  clear E. apply Z.ltb_ge in Ei. destruct (find_entry_open _ _ _ _ _ Hf Hi1 Ei) as (e & He & Hok & Hr & Ea & Hs1 & En & Hu & _).
  apply swp_bind. eapply swp_arp_get; [exact He|]. change (Z.land ETHARP_FLAG_TRY_HARD ETHARP_FLAG_STATIC_ENTRY =? 0) with true. cbn [negb andb].
  apply swp_if; intros Est; [apply Z.eqb_eq in Est|apply Z.eqb_neq in Est].
  { rewrite Hs1 in * by (unfold live; by rewrite Est). apply swp_ret. split_and!; try done. left. split; [done|right]. exists e. split_and!; [by eapply list_elem_of_lookup_2|done|done]. }
  assert (ae_q e = None) as Eq.
  { destruct (Z.eq_dec (ae_state e) ETHARP_STATE_EMPTY) as [El|El]; [apply Hok; unfold live; congruence|]. rewrite Hs1 in He by done. apply (Hw e); [by eapply list_elem_of_lookup_2|done|done]. }
  do 4 (apply swp_bind; eapply swp_arp_mod; [first [exact He | by eapply set_entry_lookup]|]; rewrite ?set_entry_twice).
  assert (e <| ae_state := ETHARP_STATE_STABLE |> <| ae_netif := true |> <| ae_ethaddr := mac |> <| ae_ctime := 0 |> = stable_entry a mac) as ->.
  { destruct e as [q ip nf eth ct st]. cbn in Eq, Ea. by subst. }
  assert (ainv (set_entry i (stable_entry a mac) s1) own) as Hi2.
  { eapply ainv_set; [exact Hi1|exact He|by constructor|by rewrite Eq|by apply Hu]. }
  apply swp_bind. eapply swp_arp_get; [by eapply set_entry_lookup|]. cbn [ae_q stable_entry]. apply swp_bind, swp_ret, swp_ret.
  destruct Hf as [|i e0 Hr0 He0 Hl0 Ea0|i e0 b Hr0 He0 Hst0 Hno0 Hh0 Hk0]; [done| |].
  - split_and!; try done. right. exists (Z.to_nat i), e. by split_and!.
  - split_and!; try done. right. exists (Z.to_nat i), e0. split_and!; [done|done|]. rewrite set_entry_twice. done.
Qed.

(** C16: A request for the own address, with any padding, is answered with the own hardware
    address by exactly one frame, straight to who asked, and the table learns the address
    of who asked. The request is lost only if no receive buffer can be allocated for it;
    the answer is missing only if the allocation of its 28 bytes fails in the memory as it
    is then: with the request in its buffer, and with the packet given up that waited in
    the entry recycled for the new one, if any. *)
Theorem arp_answers s own a edst mac dh pad : let n := n_netif s in let request := arp_frame ARP_REQUEST edst mac mac a dh (nf_ip_addr n) ++ pad in
  nreach (base := base) (held := held) s own -> unicast n a -> nothing_waits (arp_table s) a ->
  nf_flag n NETIF_FLAG_ETHARP = true -> is_u32 (nf_ip_addr n) -> nf_ip_addr n <> IPADDR_ANY -> is_u32 a ->
  zlen edst = ETH_HWADDR_LEN -> zlen mac = ETH_HWADDR_LEN -> zlen dh = ETH_HWADDR_LEN -> zlen request <= PBUF_POOL_BUFSIZE_ALIGNED ->
  sto_wp (recv_frame request) (fun ok s' =>
    ok = false /\ no_memory (n_pb s) PBUF_RAW (zlen request) PBUF_POOL /\ arp_table s' = arp_table s /\ n_up s' = n_up s \/
    ok = true /\ learned a mac (arp_table s) (arp_table s') /\
    (n_up s' = sent (arp_frame ARP_REPLY mac (nf_hwaddr n) (nf_hwaddr n) (nf_ip_addr n) mac a) (n_up s) \/
     n_up s' = n_up s /\ exists b b', received request (n_pb s) b /\ recycles (arp_table s) b b' /\ no_memory b' PBUF_LINK SIZEOF_ETHARP_HDR PBUF_RAM)) s.
Proof.
  intros n request Hre Hun Hw Hfl Hip Hany Ha Hed Hmac Hdh Hz. apply nreach_ainv in Hre as Hi. eapply (recv_for_us s own); try done; [by left|by left|].
  intros p b s' Ha' Hrcv Hk. eapply swp_mono; [by apply (update_quiet s' ({[+ p +]} ⊎ own) a mac)|]. intros _ s1 (Hi1 & En1 & Eu1 & Hk1 & Hrc1 & Hl1). split_and!; [done|done| |].
  - apply Hk1, gmultiset_elem_of_disj_union. left. by apply gmultiset_elem_of_singleton.
  - intros s2 Hq2 _ Hu2. right. split_and!; [done|by rewrite (qt_table _ _ _ _ Hq2)|]. rewrite Eu1 in Hu2.
    destruct (Hu2 eq_refl) as [Hs|[Hs Hm]]; [by left|right]. split; [exact Hs|]. by exists b, (n_pb s1).
Qed.

(** ** Time *)

Lemma tmr_entry_tick s own i e : ainv s own -> 0 <= i < ARP_TABLE_SIZE -> arp_table s !! Z.to_nat i = Some e ->
  sto_wp (etharp_tmr_entry i) (fun _ s' => ainv s' own /\ arp_table s' = <[Z.to_nat i := tick e]> (arp_table s)) s.
Proof.
  intros Hi Hr He. pose proof (tmr_entry_ok s own i Hi Hr) as (u & s' & E & Hi' & _)%swp_run.
  pose proof (Forall_lookup_1 _ _ _ _ (ai_entry _ _ _ Hi) He) as Hok. unfold sto_wp. rewrite E. split; [done|]. clear Hi'.
  assert (sto_wp (etharp_tmr_entry i) (fun _ s' => arp_table s' = <[Z.to_nat i := tick e]> (arp_table s)) s) as Hw; [|unfold sto_wp in Hw; by rewrite E in Hw]. clear u s' E.
  unfold etharp_tmr_entry, tick. apply swp_bind. eapply swp_arp_get; [exact He|]. apply swp_if; intros E; rewrite E; [|apply swp_ret; by rewrite list_insert_id].
  apply andb_true_iff in E as [E%negb_true_iff%Z.eqb_neq Es%negb_true_iff%Z.eqb_neq]. destruct (eo_live _ Hok E) as [Hct Hnf]. pose proof (eo_ctime _ Hok).
  destruct (tick_ok e Hok Es) as [Htk _]. unfold tick in Htk. apply Z.eqb_neq in E as E', Es as Es'. rewrite E', Es' in Htk. cbn [negb andb] in Htk. clear E' Es'.
  apply swp_bind. eapply swp_arp_mod; [exact He|]. rewrite u16_small by (unfold is_u16; eunf; lia). set (e1 := e <| ae_ctime := ae_ctime e + 1 |>) in *.
  assert (arp_table (set_entry i e1 s) !! Z.to_nat i = Some e1) as He1 by (by eapply set_entry_lookup). apply swp_bind. eapply swp_arp_get; [exact He1|].
  repeat (apply swp_if; intros Ec; rewrite Ec in Htk |- *; clear Ec).
  - eapply swp_free_changed; [exact Hi|exact He|done|done|]. by intros b s' Hi' Hh _.
  - eapply swp_arp_mod; [exact He1|]. by rewrite set_entry_twice.
  - eapply swp_arp_mod; [exact He1|]. by rewrite set_entry_twice.
  - change (ae_netif e1) with (ae_netif e). rewrite Hnf. apply swp_if; intros _; [|by apply swp_ret]. apply swp_bind.
    assert (ainv (set_entry i e1 s) own) as Hi1 by (eapply ainv_set; [exact Hi|exact He|done|done|by left]).
    apply swp_bind, swp_netif. eapply swp_mono; [apply (etharp_raw_sends _ own); try done; apply Hi|]. intros r s' [Hq _]. apply swp_ret. by rewrite (qt_table _ _ _ _ Hq).
Qed.

(** A loop over a range of the table that changes each entry in its turn. *)
Lemma swp_iter_range (f : Z -> STO (net A X) unit) (g : etharp_entry -> etharp_entry) own n : forall k s,
  (forall i s e, ainv s own -> 0 <= i < ARP_TABLE_SIZE -> arp_table s !! Z.to_nat i = Some e ->
     sto_wp (f i) (fun _ s' => ainv s' own /\ arp_table s' = <[Z.to_nat i := g e]> (arp_table s)) s) ->
  ainv s own -> 0 <= k -> k + Z.of_nat n <= ARP_TABLE_SIZE ->
  sto_wp (sto_iter f (seqZ k (Z.of_nat n))) (fun _ s' => ainv s' own /\
    forall j, arp_table s' !! j = if decide (Z.to_nat k <= j < Z.to_nat k + n)%nat then g <$> arp_table s !! j else arp_table s !! j) s.
Proof.
  induction n as [|n IH]; intros k s Hf Hi Hk Hn.
  { apply swp_ret. split; [done|]. intros j. rewrite decide_False by lia. done. }
  rewrite seqZ_cons by lia. cbn [sto_iter]. replace (Z.pred (Z.of_nat (S n))) with (Z.of_nat n) by lia.
  assert (0 <= k < ARP_TABLE_SIZE) as Hr by lia. destruct (ainv_lookup held s own k Hi Hr) as (e & He & _). apply swp_bind. eapply swp_mono; [by apply Hf|].
  intros _ s1 [Hi1 Et1]. eapply swp_mono; [apply (IH (Z.succ k) s1); [done|done|lia|lia]|]. intros _ s2 [Hi2 Et2]. split; [done|]. intros j. rewrite Et2, Et1.
  replace (Z.to_nat (Z.succ k)) with (S (Z.to_nat k)) by lia. destruct (decide (j = Z.to_nat k)) as [->|Hj].
  - rewrite decide_False, decide_True by lia. rewrite list_lookup_insert_eq by (by eapply lookup_lt_Some). by rewrite He.
  - rewrite list_lookup_insert_ne by done. by repeat case_decide; try lia.
Qed.

Lemma tmr_tick s own : ainv s own -> sto_wp etharp_tmr (fun _ s' => ainv s' own /\ arp_table s' = tick <$> arp_table s) s.
Proof.
  intros Hi. unfold etharp_tmr. change ARP_TABLE_SIZE with (Z.of_nat 10). eapply swp_mono; [apply (swp_iter_range _ tick own 10 0 s); [|done..]; intros; by apply tmr_entry_tick|].
  intros _ s' [Hi' Ht]. split; [done|]. apply list_eq. intros j. rewrite Ht, list_lookup_fmap. case_decide as Hj; [done|].
  rewrite !lookup_ge_None_2; [done|rewrite (ai_len _ _ _ Hi); unfold ARP_TABLE_SIZE; lia].
Qed.

(** [n] seconds: the timer runs once a second. *)
Fixpoint seconds (n : nat) : STO (net A X) unit := match n with O => sto_ret tt | S n => seconds n ;?; etharp_tmr end.

Lemma seconds_tick s own n : ainv s own -> sto_wp (seconds n) (fun _ s' => ainv s' own /\ arp_table s' = Nat.iter n tick <$> arp_table s) s.
Proof.
  intros Hi. induction n as [|n IH]; cbn [seconds]; [apply swp_ret; split; [done|]; cbn; by rewrite list_fmap_id|].
  apply swp_bind. eapply swp_mono; [exact IH|]. intros _ s1 [Hi1 Et1]. eapply swp_mono; [by apply (tmr_tick s1 own)|]. intros _ s2 [Hi2 Et2]. split; [done|].
  rewrite Et2, Et1, <- list_fmap_compose. done.
Qed.

(** C20: Nothing is kept for ever: with no traffic, an entry whose address nobody answers
    for is given up, and its packet with it, after [ARP_MAXPENDING] runs of the timer,
    every other entry after [ARP_MAXAGE], and static entries stay as they are. The timer
    runs once a second, so these are 5 and 300 seconds; the comment at [ARP_MAXPENDING]
    in etharp.c says 10 seconds for the former. *)
Theorem arp_expires s own n : nreach (base := base) (held := held) s own ->
  sto_wp (seconds n) (fun _ s' => forall i e, arp_table s !! i = Some e -> exists e', arp_table s' !! i = Some e' /\
    (static e -> e' = e) /\
    (ae_state e = ETHARP_STATE_PENDING -> ARP_MAXPENDING <= Z.of_nat n -> ~ live e' /\ ae_q e' = None) /\
    (~ static e -> ARP_MAXAGE <= Z.of_nat n -> ~ live e' /\ ae_q e' = None)) s.
Proof.
  intros Hi%nreach_ainv. eapply swp_mono; [by apply (seconds_tick s own)|]. intros _ s' [_ Et] i e He. pose proof (Forall_lookup_1 _ _ _ _ (ai_entry _ _ _ Hi) He) as Hok.
  exists (Nat.iter n tick e). split_and!; [by rewrite Et, list_lookup_fmap, He|apply tick_static| |]; intros; apply tick_expires; auto.
  unfold static. by intros Hs; rewrite Hs in *.
Qed.

End answer.
