(* ===== verification/EtharpLink.v ===== *)
(** * EtharpLink: the link of main.c, and runs on the memory of the firmware

    [linkoutput_fn] of src/src/main.c as a [NetLink]. What the USB stack does meanwhile is
    a list of turns: one for each time round the loop, with what [tud_ready] and
    [tud_network_can_xmit] answer and the frame that [tud_task] hands to
    [tud_network_recv_cb], if there is one. The frame goes through [ethernet_input] before
    the loop goes on, so sending is nested in sending; the link keeps the contract of
    [NetLinkOk] all the same. With room at every turn it is a [Wire].

    The theorems about the address resolution are then run on the heap and the pools of
    [NetRam]. *)

From stdpp Require Import gmultiset.
From S2P Require Import Prelude Chksum Mem NetMem Memp NetRam Pbuf PbufProps PbufOps PbufData PbufCopy PbufRun Inet Etharp EtharpInv EtharpOps EtharpProps EtharpAnswer.

(** One turn of the loop: the device is gone, there is room for the packet, or the USB
    task runs and may receive a frame. *)
Inductive turn := t_gone | t_room | t_task (d : option (list Z)).

(** The turns to come, and the frames sent, the last one first. *)
Record io := mk_io { io_turns : list turn; io_sent : list (list Z) }.
#[export] Instance eta_io : Eta io := fun x => mk_io (io_turns x) (io_sent x).
Definition io_held (_ : io) : gmultiset Z := ∅.
Definition io_record (d : list Z) (x : io) : io := x <| io_sent := d :: io_sent x |>.

(** No frame is longer than the receive buffer of the network driver. *)
Definition frame_cut (d : list Z) : list Z := take (Z.to_nat 1514) d.

Section link.
Context {A : Type} `{NetMem A, CustomPbuf A}.

(** The upper layer here takes no packets. *)
#[local] Instance up_drop : NetUp A io := fun p => pb_do (pbuf_free (Some p)) ;?; sto_ret tt.

(** [tud_network_xmit] with [tud_network_xmit_cb]: the packet is copied out. *)
Definition xmit (p : Z) : STO (net A io) Z :=
  let? b := pb_do (deref p) in
  let? r := pb_do (pbuf_copy_partial (Some p) (replicate (Z.to_nat (pb_tot_len b)) 0) (pb_tot_len b) 0) in
  sto_mod (fun s => s <| n_up := io_record r.1 (n_up s) |>) ;?; sto_ret ERR_OK.

Definition next_turn : STO (net A io) turn := fun s =>
  match io_turns (n_up s) with
  | t :: l => Some (t, s <| n_up := (n_up s) <| io_turns := l |> |>)
  | [] => Some (t_gone, s)
  end.

(** [depth] bounds the turns taken. *)
Fixpoint usb_link (depth : nat) (p : Z) : STO (net A io) Z :=
  match depth with
  | O => sto_ret ERR_USE
  | S depth =>
      let? t := next_turn in
      match t with
      | t_gone => sto_ret ERR_USE
      | t_room => xmit p
      | t_task None => usb_link depth p
      | t_task (Some d) => recv_frame (H1 := usb_link depth) (frame_cut d) ;?; usb_link depth p
      end
  end.

(** The link when there is always room. *)
Definition room_link : NetLink A io := xmit.

Context `{!NetMemOk A} {base : gset Z}.
Abbreviation ainv := (ainv (base := base) io_held).

#[export] Instance up_drop_ok : NetUpOk base io_held.
Proof.
  intros s own p Hi Hin. apply swp_bind. eapply (swp_free_own io_held s own p); [exact Hi|]. intros r b s' Hi' Ht _ _. by apply swp_ret.
Qed.

Lemma ainv_io s own x : ainv s own -> ainv (s <| n_up := x |>) own /\ traffic io_held own s (s <| n_up := x |>).
Proof. intros [H1 H2 H3 H4 H5 H6 H7]. split; [by constructor|]. constructor; [by intros p _|apply slots_kept_refl]. Qed.

Lemma xmit_eq s own p c : ainv s own -> p ∈ own -> packet (n_pb s) p c -> xmit p s = Some (ERR_OK, s <| n_up := io_record c (n_up s) |>).
Proof.
  intros Hi Hp (l & Hl & <-). destruct (ai_pb _ _ _ Hi) as (m & Hpi & Hlen). destruct l as [|[p' b] l0] eqn:El; [done|]. pose proof Hl as ([= <-] & Hb & _). rewrite <- El in *.
  destruct (pinv_tots _ _ _ _ _ _ Hpi Hlen Hb Hl) as [Ht _]. apply tots_sum in Ht. pose proof (po_tot _ _ _ (pi_ok _ _ _ Hpi _ _ Hb)) as Htot.
  assert (zlen (content (n_pb s) l) = pb_tot_len b) as Hz by (rewrite content_zlen; [lia|by eapply chain_lens]).
  unfold xmit, sto_bind, pb_do, deref. rewrite Hb. cbn [n_pb setf eta eta_net]. unfold is_u16 in Htot.
  assert (zlen (replicate (Z.to_nat (pb_tot_len b)) 0) = pb_tot_len b) as Hr by (unfold zlen; rewrite length_replicate; lia).
  rewrite (copy_partial_eq (n_pb s) _ p l _ (pb_tot_len b) 0 (ai_pb _ _ _ Hi) Hl); [|done|done|lia]. unfold sto_mod, sto_ret. cbn [fst].
  rewrite (drop_none_z 0), (take_all_z _ (content (n_pb s) l)) by lia.
  rewrite mem_write_0 by (rewrite Hz, Hr; lia). rewrite drop_all_z, app_nil_r by (rewrite Hz, Hr; lia). by destruct s.
Qed.

(** Sending, with whatever is received meanwhile, keeps the invariant. *)
Lemma usb_link_ok depth : NetLinkOk (NetLink0 := usb_link depth) base io_held.
Proof.
  induction depth as [|depth IH]; intros s own p Hi Hp; [by apply carries_ret|]. unfold carries, linkoutput. cbn [usb_link].
  apply swp_bind. unfold sto_wp at 1, next_turn. destruct (io_turns (n_up s)) as [|t l]; [by apply swp_ret; split; [|apply traffic_refl]|].
  destruct (ainv_io s own ((n_up s) <| io_turns := l |>) Hi) as [Hi1 Ht1]. set (s1 := s <| n_up := _ |>) in *. apply (carries_after _ _ _ _ s1 Ht1).
  destruct t as [| |[d|]]; [by apply carries_ret| | |by apply IH].
  - destruct (ai_pb _ _ _ Hi1) as (m & Hpi & _). destruct (own_chain _ _ _ p Hpi) as (b & k & Hb & Hk); [multiset_solver|].
    unfold carries, sto_wp. rewrite (xmit_eq s1 own p (content (n_pb s1) k)) by (done || by exists k). by apply ainv_io.
  - apply carries_bind; [|intros; by apply IH]. apply (recv_frame_ok (NetLink0 := usb_link depth)); [done|]. unfold frame_cut, is_u16. pose proof (zlen_take_min 1514 d) as Hz.
    pose proof (zlen_nonneg d). rewrite Hz by lia. lia.
Qed.

#[export] Instance room_wire : Wire (NetLink0 := room_link) base io_held io_record.
Proof. constructor; [done|]. intros. by eapply xmit_eq. Qed.

End link.
