(* ===== verification/EtharpRun.v ===== *)
(** * EtharpRun: address resolution on the memory of the firmware

    The interface as main.c sets it up, on the heap and the pools of [NetRam]: the
    theorems about the table at concrete states, and what a frame that comes in while
    another is being sent can do. *)

From stdpp Require Import gmultiset.
From S2P Require Import Prelude Chksum Mem MemProps NetMem Memp NetRam Pbuf PbufProps PbufOps PbufData PbufCopy PbufRun Inet Etharp EtharpInv EtharpOps EtharpProps EtharpAnswer EtharpLink.

(** The interface after [init_lwip]. *)
Definition our_ip : Z := IP4_ADDR 192 168 7 1.
Definition our_mac : list Z := [0x02; 0x02; 0x84; 0x6A; 0x96; 0x01].
Definition host_ip : Z := IP4_ADDR 192 168 7 2.
Definition host_mac : list Z := [0x02; 0x02; 0x84; 0x6A; 0x96; 0x00].
Definition our_netif : netif := mk_netif our_ip (IP4_ADDR 255 255 255 0) IPADDR_ANY 1514 our_mac
  (Z.lor (Z.lor (Z.lor NETIF_FLAG_BROADCAST NETIF_FLAG_ETHARP) NETIF_FLAG_LINK_UP) NETIF_FLAG_UP) 0.

Lemma our_ip_u32 : is_u32 our_ip.
Proof. vm_compute. by split. Qed.
Lemma host_ip_u32 : is_u32 host_ip.
Proof. vm_compute. by split. Qed.

(** There is room for every frame. *)
#[local] Instance run_link : NetLink netram io := room_link.
#[local] Existing Instance up_drop.
#[local] Existing Instance up_drop_ok.
#[local] Existing Instance room_wire.

Abbreviation reach := (nreach (A := netram) (base := ∅) (held := io_held)).

Definition net_start : net netram io := mk_net (replicate 10 entry_zero) 0 our_netif pbufs_start (mk_io [] []).

Lemma net_start_reached : reach net_start ∅.
Proof. apply nreach_init; [done|]. exact (preach_good _ _ start_reached). Qed.

(** The state and the packets owned after an operation. *)
Definition step (o : nop) (s : net netram io) : net netram io := result (run_nop o) s.

Lemma step_reached s own o r : reach s own -> nop_ok (held := io_held) s own o -> fst <$> run_nop o s = Some r -> reach (step o s) (nown_after o r own).
Proof. intros Hr Ho E. eapply nreach_step; [exact Hr|exact Ho|by apply result_run]. Qed.

(** The application has a packet to send. *)
Definition pkt_op : nop := n_alloc PBUF_IP 20 PBUF_RAM.
Definition pkt : Z := 0x20001008.
Definition with_pkt : net netram io := step pkt_op net_start.
Lemma with_pkt_reached : reach with_pkt ({[+ pkt +]} ⊎ ∅).
Proof.
  apply (step_reached net_start ∅ pkt_op (Some pkt) net_start_reached); [|vm_compute; reflexivity].
  split_and!; [done|done|done|by right].
Qed.

Lemma pkt_owned : pkt ∈ ({[+ pkt +]} ⊎ ∅ : gmultiset Z).
Proof. apply gmultiset_elem_of_disj_union. left. by apply gmultiset_elem_of_singleton. Qed.
Lemma pkt_sendable : sendable (held := io_held) with_pkt ({[+ pkt +]} ⊎ ∅) pkt.
Proof. split_and!; [exact pkt_owned|vm_compute; reflexivity|]. unfold io_held. rewrite multiplicity_disj_union, multiplicity_singleton, multiplicity_empty. vm_compute. lia. Qed.

Definition pkt_buf : pbuf := mk_pbuf None (pkt + 52) 20 20 128 0 1 0.
Lemma pkt_chain : chain (pb_tab (n_pb with_pkt)) (Some pkt) [(pkt, pkt_buf)].
Proof. vm_compute. auto. Qed.

Lemma with_pkt_netif : n_netif with_pkt = our_netif.
Proof. vm_compute. reflexivity. Qed.
Lemma with_pkt_table : arp_table with_pkt = replicate 10 entry_zero.
Proof. vm_compute. reflexivity. Qed.

(** ** The theorems at these states *)

Lemma arp_table_sound_witness : unique (arp_table with_pkt) /\ exists r s', run_nop (n_output pkt host_ip) with_pkt = Some (r, s').
Proof.
  destruct (arp_table_sound with_pkt _ with_pkt_reached) as (_ & _ & Hu & _ & _ & Hrun). split; [exact Hu|]. exact (Hrun (n_output pkt host_ip) pkt_sendable).
Defined.

Definition with_static : net netram io := step (n_add_static host_ip host_mac) net_start.
Lemma with_static_reached : reach with_static ∅.
Proof. apply (step_reached net_start ∅ (n_add_static host_ip host_mac) None net_start_reached); [done|vm_compute; reflexivity]. Qed.

(** Somebody else claims the address of the host. *)
Definition claim_frame : list Z := arp_frame ARP_REPLY our_mac (repeat 7 6) (repeat 7 6) host_ip our_mac our_ip ++ repeat 0 18.

Lemma arp_static_fixed_witness : exists e', arp_table (step (n_frame claim_frame) with_static) !! 0%nat = Some e' /\ static e' /\ ae_ipaddr e' = host_ip /\ ae_ethaddr e' = host_mac.
Proof.
  assert (arp_table with_static !! 0%nat = Some (mk_entry None host_ip true host_mac 0 ETHARP_STATE_STATIC)) as He by (vm_compute; reflexivity).
  refine (arp_static_fixed with_static ∅ (n_frame claim_frame) None _ 0 _ with_static_reached _ eq_refl _ He eq_refl); [done|].
  refine (result_run (run_nop (n_frame claim_frame)) with_static None _). vm_compute. reflexivity.
Defined.

(** Nothing waits in an empty table, and no entry of it is static. *)
Lemma recycles_zero (b b' : pbufs netram) : recycles (replicate 10 entry_zero) b b' -> b' = b.
Proof. intros [E|(e & p & n & He & Eq & _)]; [exact E|]. apply elem_of_replicate in He as [-> _]. done. Qed.
Lemma zero_not_static : ~ Forall static (replicate 10 entry_zero).
Proof. intros Hs. apply Forall_cons in Hs as [Hs _]. done. Qed.

(** There is memory for all the messages of these runs. *)
Lemma with_pkt_memory : ~ no_memory (n_pb with_pkt) PBUF_LINK SIZEOF_ETHARP_HDR PBUF_RAM.
Proof. unfold no_memory. vm_compute. discriminate. Qed.

Definition reply_frame : list Z := arp_frame ARP_REPLY our_mac host_mac host_mac host_ip our_mac our_ip ++ repeat 0 18.

Lemma waiting_memory s1 : etharp_output pkt host_ip with_pkt = Some (ERR_OK, s1) -> ~ no_memory (n_pb s1) PBUF_RAW (zlen reply_frame) PBUF_POOL.
Proof.
  intros E. replace s1 with (result (etharp_output pkt host_ip) with_pkt) by (unfold result; by rewrite E). clear E. unfold no_memory. vm_compute. discriminate.
Qed.

(** The packet waits, the host answers, the packet goes out. *)
Lemma arp_resolves_witness : exists s1 s2, etharp_output pkt host_ip with_pkt = Some (ERR_OK, s1) /\
  n_up s1 = io_record (arp_frame ARP_REQUEST ethbroadcast our_mac our_mac our_ip ethzero host_ip) (n_up with_pkt) /\
  recv_frame reply_frame s1 = Some (true, s2) /\
  n_up s2 = io_record (eth_hdr host_mac our_mac ETHTYPE_IP ++ repeat 0 20) (n_up s1) /\ stable_entry host_ip host_mac ∈ arp_table s2.
Proof.
  pose proof (arp_resolves (base := ∅) with_pkt _ pkt host_ip host_mac our_mac (repeat 0 18) (repeat 0 20) with_pkt_reached pkt_sendable) as Hres.
  cbv zeta in Hres. rewrite with_pkt_netif, with_pkt_table in Hres. edestruct (fun H1 H2 H3 H4 H5 H6 => proj1 (swp_run _ _ _) (Hres H1 H2 H3 H4 H5 H6 eq_refl our_ip_u32 ltac:(by vm_compute) host_ip_u32 eq_refl eq_refl ltac:(by vm_compute))) as (r & s1 & E & Hr).
  - eexists. split; [exact pkt_chain|vm_compute; reflexivity].
  - exists pkt_buf. split_and!; vm_compute; done.
  - intros l Hl. by rewrite (chain_det _ _ _ _ Hl pkt_chain).
  - by split_and!.
  - left. reflexivity.
  - intros e He. apply elem_of_replicate in He as [-> _]. by intros [].
  - destruct Hr as [(_ & _ & Hst)|(-> & Hq & Hrep)]; [by destruct zero_not_static|].
    apply swp_run in Hrep as (ok & s2 & E2 & Hrep). exists s1, s2.
    destruct Hq as [Hq|(_ & b & ->%recycles_zero & Hm)]; [|by destruct with_pkt_memory].
    destruct Hrep as [(_ & Hm & _)|(-> & Hs & He)]; [by destruct (waiting_memory s1 E)|]. by split_and!.
Defined.

Definition request_frame : list Z := arp_frame ARP_REQUEST ethbroadcast host_mac host_mac host_ip ethzero our_ip ++ repeat 0 18.

Lemma request_memory : ~ no_memory (n_pb net_start) PBUF_RAW (zlen request_frame) PBUF_POOL.
Proof. unfold no_memory. vm_compute. discriminate. Qed.

Lemma answer_memory b : received request_frame (n_pb net_start) b -> ~ no_memory b PBUF_LINK SIZEOF_ETHARP_HDR PBUF_RAM.
Proof.
  intros (p & b0 & r & b1 & c & E0 & E1 & ->). vm_compute in E0. injection E0 as <- <-. vm_compute in E1. injection E1 as _ <-. unfold no_memory. vm_compute. discriminate.
Qed.

Lemma host_unicast : unicast our_netif host_ip.
Proof. by split_and!. Qed.

(** The host asks for our address, and gets it. *)
Lemma arp_answers_witness : exists s', recv_frame request_frame net_start = Some (true, s') /\ learned host_ip host_mac (arp_table net_start) (arp_table s') /\
  n_up s' = io_record (arp_frame ARP_REPLY host_mac our_mac our_mac our_ip host_mac host_ip) (n_up net_start).
Proof.
  edestruct (fun H => proj1 (swp_run _ _ _) (arp_answers (base := ∅) net_start ∅ host_ip ethbroadcast host_mac ethzero (repeat 0 18) net_start_reached host_unicast H
    eq_refl our_ip_u32 ltac:(by vm_compute) host_ip_u32 eq_refl eq_refl eq_refl ltac:(by vm_compute))) as (ok & s' & E & Hr).
  - intros e He. change (arp_table net_start) with (replicate 10 entry_zero) in He. apply elem_of_replicate in He as [-> _]. by intros [].
  - exists s'. destruct Hr as [(_ & Hm & _)|(-> & Hl & Hs)]; [by destruct request_memory|]. split_and!; [exact E|exact Hl|].
    destruct Hs as [Hs|(_ & b & b' & Hrcv & ->%recycles_zero & Hm)]; [exact Hs|]. by destruct (answer_memory b).
Defined.

(** The packet waits for an address nobody has. *)
Definition with_pending : net netram io := step (n_output pkt host_ip) with_pkt.
Lemma with_pending_reached : reach with_pending ({[+ pkt +]} ⊎ ∅).
Proof. apply (step_reached with_pkt _ (n_output pkt host_ip) None with_pkt_reached); [exact pkt_sendable|vm_compute; reflexivity]. Qed.

Lemma arp_expires_witness : sto_wp (seconds 5) (fun _ s' => exists e', arp_table s' !! 0%nat = Some e' /\ ~ live e' /\ ae_q e' = None) with_pending.
Proof.
  assert (arp_table with_pending !! 0%nat = Some (mk_entry (Some pkt) host_ip true ethzero 0 ETHARP_STATE_PENDING)) as He by (vm_compute; reflexivity).
  eapply swp_mono; [exact (arp_expires with_pending _ 5 with_pending_reached)|]. intros u s' Hs. destruct (Hs _ _ He) as (e' & He' & _ & Hp & _). exists e'.
  split; [exact He'|]. apply Hp; done.
Defined.

(** ** A frame that comes in during sending *)

(** lwIP expects that [linkoutput] does not come back into the stack. The one of main.c
    does, and a packet can go to the wrong host: the table is full, the packet's entry is
    due to be confirmed, and while that request waits for room in the USB endpoint a
    new host's request for our address recycles the very entry the sender holds by its
    index. The packet for 192.168.7.11 goes to the hardware address of 192.168.7.12. *)
Definition nth_mac (k : Z) : list Z := [0x02; 0; 0; 0; 0; k].
Definition hello (k : Z) : list Z := arp_frame ARP_REQUEST ethbroadcast (nth_mac k) (nth_mac k) (IP4_ADDR 192 168 7 k) ethzero our_ip.
Definition busy_turns : list turn := replicate 10 t_room ++ [t_task (Some (hello 12)); t_room; t_room; t_room].
Definition busy_start : net netram io := net_start <| n_up := mk_io busy_turns [] |>.

Definition busy_run : STO (net netram io) (option Z) :=
  sto_iter (fun k => recv_frame (H1 := usb_link 20) (hello k) ;?; sto_ret tt) (seqZ 2 10) ;?;
  sto_iter (fun _ => etharp_tmr (H1 := usb_link 20)) (seqZ 0 285) ;?;
  let? p := pb_do (pbuf_alloc PBUF_IP 20 PBUF_RAM) in
  match p with
  | Some p => let? r := etharp_output (H1 := usb_link 20) p (IP4_ADDR 192 168 7 11) in sto_ret (Some r)
  | None => sto_ret None
  end.

Lemma reentry_misdelivers : exists s, busy_run busy_start = Some (Some ERR_OK, s) /\
  take 14 <$> head (io_sent (n_up s)) = Some (eth_hdr (nth_mac 12) our_mac ETHTYPE_IP).
Proof.
  exists (result busy_run busy_start). split; [apply (result_run busy_run busy_start (Some ERR_OK))|]; vm_compute; reflexivity.
Qed.
