(* ===== verification/Ip4Hdr.v ===== *)
(** * Ip4Hdr: the header of an IPv4 packet

    src/lib/lwip/src/include/lwip/prot/ip4.h: the fields of [struct ip_hdr], read from
    and written to the bytes of a packet, and the header [ip4_output_if_src] of
    src/lib/lwip/src/core/ipv4/ip4.c writes, with the checksum it computes on the way.
    A 16-bit field is the number the processor reads, so [lwip_htons] of the value in
    the packet. *)

From S2P Require Import Prelude Chksum Inet.

Definition IP_HLEN : Z := 20.
Definition IP_MF : Z := 0x2000.
Definition IP_OFFMASK : Z := 0x1fff.
Definition IP_PROTO_ICMP : Z := 1.
Definition IP_PROTO_UDP : Z := 17.
Definition IP_PROTO_TCP : Z := 6.

(** ** Fields *)

Definition IPH_V (h : list Z) : Z := Z.shiftr (mem_get h 0) 4.
Definition IPH_HL (h : list Z) : Z := Z.land (mem_get h 0) 0x0f.
Definition IPH_HL_BYTES (h : list Z) : Z := u8 (IPH_HL h * 4).
Definition IPH_LEN (h : list Z) : Z := le_val (mem_read 2 2 h).
Definition IPH_ID (h : list Z) : Z := le_val (mem_read 4 2 h).
Definition IPH_OFFSET (h : list Z) : Z := le_val (mem_read 6 2 h).
Definition IPH_OFFSET_BYTES (h : list Z) : Z := u16 (Z.land (lwip_htons (IPH_OFFSET h)) IP_OFFMASK * 8).
Definition IPH_TTL (h : list Z) : Z := mem_get h 8.
Definition IPH_PROTO (h : list Z) : Z := mem_get h 9.
Definition IPH_CHKSUM (h : list Z) : Z := le_val (mem_read 10 2 h).
Definition IPH_SRC (h : list Z) : Z := le_val (mem_read 12 4 h).
Definition IPH_DEST (h : list Z) : Z := le_val (mem_read 16 4 h).

Definition IPH_LEN_SET (h : list Z) (len : Z) : list Z := mem_write 2 (le_bytes 2 len) h.
Definition IPH_OFFSET_SET (h : list Z) (off : Z) : list Z := mem_write 6 (le_bytes 2 off) h.
Definition IPH_CHKSUM_SET (h : list Z) (c : Z) : list Z := mem_write 10 (le_bytes 2 c) h.

(** [struct ip_hdr]; the 16-bit fields and the addresses as they are in memory. *)
Definition ip_hdr (v_hl tos len id offset ttl proto chksum src dest : Z) : list Z :=
  [v_hl; tos] ++ le_bytes 2 len ++ le_bytes 2 id ++ le_bytes 2 offset ++ [ttl; proto] ++ le_bytes 2 chksum ++ le_bytes 4 src ++ le_bytes 4 dest.

(** ** The header of a packet that is sent *)

(** The sum [ip4_output_if_src] adds up while it fills the header in (a [u32_t]). *)
Definition ip_chk_sum (tos len id ttl proto src dest : Z) : Z :=
  let v_hl := u8 (Z.lor (Z.shiftl 4 4) (IP_HLEN / 4)) in
  let chk_sum := PP_HTONS (Z.lor proto (Z.shiftl ttl 8)) in
  let chk_sum := u32 (chk_sum + Z.land dest 0xFFFF) in
  let chk_sum := u32 (chk_sum + Z.shiftr dest 16) in
  let chk_sum := u32 (chk_sum + PP_HTONS (Z.lor tos (Z.shiftl v_hl 8))) in
  let chk_sum := u32 (chk_sum + len) in
  let chk_sum := u32 (chk_sum + id) in
  let chk_sum := u32 (chk_sum + Z.land src 0xFFFF) in
  let chk_sum := u32 (chk_sum + Z.shiftr src 16) in
  let chk_sum := u32 (Z.shiftr chk_sum 16 + Z.land chk_sum 0xFFFF) in
  let chk_sum := u32 (Z.shiftr chk_sum 16 + chk_sum) in
  u16 (Z.lnot chk_sum).

Definition ip_hdr_out (tos tot_len ip_id ttl proto src dest : Z) : list Z :=
  let len := lwip_htons tot_len in
  let id := lwip_htons ip_id in
  ip_hdr (u8 (Z.lor (Z.shiftl 4 4) (IP_HLEN / 4))) tos len id 0 ttl proto (ip_chk_sum tos len id ttl proto src dest) src dest.

(** ** Facts *)

Lemma ip_hdr_zlen v tos len id off ttl proto c src dest : zlen (ip_hdr v tos len id off ttl proto c src dest) = IP_HLEN.
Proof. done. Qed.

Lemma htons_u16 w : is_u16 w -> is_u16 (lwip_htons w).
Proof. intros Hw. unfold is_u16 in *. rewrite htons_swap by lia. pose proof (swap_range w). lia. Qed.

Lemma htons_twice w : is_u16 w -> lwip_htons (lwip_htons w) = w.
Proof.
  intros Hw. pose proof (htons_u16 w Hw) as Hh. unfold is_u16 in *. rewrite (htons_swap (lwip_htons w)) by lia.
  rewrite htons_swap by lia. rewrite (swap_spec w) by lia. rewrite swap_spec by zdivmod. zdivmod.
Qed.

(** The fields of a header are read back. *)
Lemma ip_hdr_fields v tos len id off ttl proto c src dest rest : is_u16 len -> is_u16 id -> is_u16 off -> is_u16 c -> is_u32 src -> is_u32 dest ->
  let h := ip_hdr v tos len id off ttl proto c src dest ++ rest in
  mem_get h 0 = v /\ IPH_LEN h = len /\ IPH_ID h = id /\ IPH_OFFSET h = off /\ IPH_TTL h = ttl /\ IPH_PROTO h = proto /\ IPH_CHKSUM h = c /\
  IPH_SRC h = src /\ IPH_DEST h = dest.
Proof.
  intros Hlen Hid Hoff Hc Hs Hd h. assert (forall x, is_u16 x -> le_val (le_bytes 2 x) = x) as H16 by (intros x Hx; rewrite le_val_bytes; by apply Z.mod_small).
  split_and!; try done.
  - change (le_val (le_bytes 2 len) = len). auto.
  - change (le_val (le_bytes 2 id) = id). auto.
  - change (le_val (le_bytes 2 off) = off). auto.
  - change (le_val (le_bytes 2 c) = c). auto.
  - change (le_val (le_bytes 4 src) = src). by apply ip4_bytes.
  - change (le_val (le_bytes 4 dest) = dest). by apply ip4_bytes.
Qed.

(** ** The checksum of a header *)

(** A header is the sum of its words. *)
Lemma wsum_ip_hdr v tos len id off ttl proto c src dest : is_u16 len -> is_u16 id -> is_u16 off -> is_u16 c -> is_u32 src -> is_u32 dest ->
  wsum false (ip_hdr v tos len id off ttl proto c src dest) =
  (v + 256 * tos) + len + id + off + (ttl + 256 * proto) + c + (src mod 65536 + src / 65536) + (dest mod 65536 + dest / 65536).
Proof.
  intros. unfold ip_hdr, is_u16, is_u32 in *. cbn [app le_bytes wsum negb xorb]. zdivmod.
Qed.

Lemma htons_word a b : is_u8 a -> is_u8 b -> PP_HTONS (Z.lor a (Z.shiftl b 8)) = b + 256 * a.
Proof.
  intros Ha Hb. unfold is_u8 in *. rewrite Z.lor_comm, lor_bytes by lia. unfold PP_HTONS. rewrite htons_swap, swap_spec by lia. zdivmod.
Qed.

(** The two foldings of the inline checksum, the second of which keeps the carry. *)
Lemma inline_fold t : 0 <= t < 1048576 -> let s := u32 (Z.shiftr t 16 + Z.land t 0xFFFF) in
  u16 (Z.lnot (u32 (Z.shiftr s 16 + s))) = 65535 - csum t.
Proof.
  intros Ht. rewrite <- fold_twice by lia. unfold FOLD_U32T. change 0xFFFF with (Z.ones 16). rewrite !Z.land_ones, !Z.shiftr_div_pow2 by done.
  change (2 ^ 16) with 65536. change (Z.ones 16) with 65535. assert (0 <= t / 65536 + t mod 65536 < 65552) as Hb by (pose proof (Z.mod_pos_bound t 65536); pose proof (Z.div_lt_upper_bound t 65536 16); pose proof (Z.div_pos t 65536); lia). rewrite (u32_small (t / 65536 + t mod 65536)) by (unfold is_u32; lia).
  set (x := t / 65536 + t mod 65536) in *. cbv zeta. rewrite !u32_small by (unfold is_u32; zdivmod). unfold u16, Z.lnot. zdivmod.
Qed.

Lemma ip_chk_sum_spec tos len id ttl proto src dest : is_u8 tos -> is_u16 len -> is_u16 id -> is_u8 ttl -> is_u8 proto -> is_u32 src -> is_u32 dest ->
  ip_chk_sum tos len id ttl proto src dest = 65535 - csum (wsum false (ip_hdr 0x45 tos len id 0 ttl proto 0 src dest)).
Proof.
  intros Ht Hl Hi Htt Hp Hs Hd. rewrite wsum_ip_hdr by done. unfold ip_chk_sum. change (u8 (Z.lor (Z.shiftl 4 4) (IP_HLEN / 4))) with 0x45.
  rewrite !htons_word by done. change (Z.land dest 0xFFFF) with (Z.land dest (Z.ones 16)). change (Z.land src 0xFFFF) with (Z.land src (Z.ones 16)).
  rewrite !Z.land_ones, (Z.shiftr_div_pow2 dest), (Z.shiftr_div_pow2 src) by done. change (2 ^ 16) with 65536.
  unfold is_u8, is_u16, is_u32 in *. assert (0 <= src / 65536 < 65536 /\ 0 <= dest / 65536 < 65536 /\ 0 <= src mod 65536 < 65536 /\ 0 <= dest mod 65536 < 65536) as (? & ? & ? & ?) by zdivmod.
  rewrite (u32_small (_ + dest mod 65536)), (u32_small (_ + dest / 65536)), (u32_small (_ + (69 + 256 * tos))), (u32_small (_ + len)),
    (u32_small (_ + id)), (u32_small (_ + src mod 65536)), (u32_small (_ + src / 65536)) by (unfold is_u32; rewrite ?u32_small by (unfold is_u32; lia); lia).
  rewrite inline_fold by lia. do 2 f_equal. lia.
Qed.

Lemma ip_hdr_u8 v tos len id off ttl proto c src dest : is_u8 v -> is_u8 tos -> is_u8 ttl -> is_u8 proto -> Forall is_u8 (ip_hdr v tos len id off ttl proto c src dest).
Proof. intros. unfold ip_hdr. rewrite !Forall_app. split_and!; first [apply le_bytes_u8 | by repeat first [apply Forall_nil | apply Forall_cons; split]]. Qed.

(** The checksum of bytes in one buffer. *)
Lemma chksum_flat a d : Forall is_u8 d -> zlen d <= 0x20000 -> inet_chksum a d = 65535 - csum (wsum false d).
Proof. intros Hd Hz. unfold inet_chksum. rewrite chksum_csum by done. apply lnot_u16, csum_range. Qed.

(** The checksum stored in a header is right. *)
Lemma csum_fill t : 0 < t -> csum (t + (65535 - csum t)) = 65535.
Proof.
  intros Ht. pose proof (csum_range t). destruct (csum_residue t) as [k Hk]; [lia|]. apply csum_full; [lia|].
  replace (t + (65535 - csum t)) with ((1 - k) * 65535) by lia. apply Z_mod_mult.
Qed.

Lemma hdr_filled a a' tos len id off ttl proto src dest : is_u8 tos -> is_u16 len -> is_u16 id -> is_u16 off -> is_u8 ttl -> is_u8 proto -> is_u32 src -> is_u32 dest ->
  let c := inet_chksum a (ip_hdr 0x45 tos len id off ttl proto 0 src dest) in
  is_u16 c /\ inet_chksum a' (ip_hdr 0x45 tos len id off ttl proto c src dest) = 0.
Proof.
  intros. assert (forall a c, is_u16 c -> inet_chksum a (ip_hdr 0x45 tos len id off ttl proto c src dest) =
    65535 - csum (wsum false (ip_hdr 0x45 tos len id off ttl proto 0 src dest) + c)) as Hsum.
  { intros a0 c0 Hc. rewrite chksum_flat, !wsum_ip_hdr by (done || by apply ip_hdr_u8). do 2 f_equal. lia. }
  set (t := wsum false (ip_hdr 0x45 tos len id off ttl proto 0 src dest)) in *.
  assert (c = 65535 - csum t) as -> by (unfold c; rewrite Hsum by done; by rewrite Z.add_0_r).
  pose proof (csum_range t). assert (is_u16 (65535 - csum t)) by (unfold is_u16; lia). split; [done|]. rewrite Hsum by done.
  rewrite csum_fill; [done|]. unfold t. rewrite wsum_ip_hdr by done. unfold is_u8, is_u16, is_u32 in *. zdivmod.
Qed.

Lemma ip_chk_sum_inet a tos len id ttl proto src dest : is_u8 tos -> is_u16 len -> is_u16 id -> is_u8 ttl -> is_u8 proto -> is_u32 src -> is_u32 dest ->
  ip_chk_sum tos len id ttl proto src dest = inet_chksum a (ip_hdr 0x45 tos len id 0 ttl proto 0 src dest).
Proof. intros. rewrite ip_chk_sum_spec, chksum_flat by (done || by apply ip_hdr_u8). done. Qed.

(** The header of a packet that is sent carries the Internet checksum of RFC 1071,
    though it is added up field by field: the receiver's check of the header gives 0,
    wherever the header lies in memory. *)
Theorem ip_header_checksum a tos tot_len id ttl proto src dest : is_u8 tos -> is_u16 tot_len -> is_u16 id -> is_u8 ttl -> is_u8 proto -> is_u32 src -> is_u32 dest ->
  inet_chksum a (ip_hdr_out tos tot_len id ttl proto src dest) = 0.
Proof.
  intros Ht Hl Hi Htt Hp Hs Hd. unfold ip_hdr_out. change (u8 (Z.lor (Z.shiftl 4 4) (IP_HLEN / 4))) with 0x45.
  rewrite (ip_chk_sum_inet a) by (done || by apply htons_u16). by apply hdr_filled; try apply htons_u16.
Qed.

Lemma ip_header_checksum_witness : inet_chksum 0x20001001 (ip_hdr_out 0 60 7 255 IP_PROTO_UDP (IP4_ADDR 192 168 7 1) (IP4_ADDR 192 168 7 2)) = 0.
Proof. apply ip_header_checksum; vm_compute; by split. Defined.
