(* ===== verification/Ip4Frag.v ===== *)
(** * Ip4Frag: fragmentation and reassembly of IPv4 packets

    src/lib/lwip/src/core/ipv4/ip4_frag.c. A packet is the bytes that begin at its IP
    header, and a packet that waits is also the number of its buffers, which is what the
    module counts. The helper structs that the C puts over the header of a fragment that
    waits ([next_pbuf], [start], [end]) are the list of the fragments of a datagram: the
    order of [next_pbuf], with the data behind the header. The packets given up with
    [pbuf_free] are dropped; the ICMP messages the module sends are returned. *)

From S2P Require Import Prelude Chksum Pbuf Inet Ip4Hdr.

Definition IP_REASS_MAX_PBUFS : Z := 10.
Definition IP_REASS_MAXAGE : Z := 15.
Definition MEMP_NUM_REASSDATA : Z := 5.
Definition IP_REASS_FLAG_LASTFRAG : Z := 0x01.

(** A fragment that waits: [struct ip_reass_helper] and what lies behind it. *)
Record frag := mk_frag { fr_start : Z; fr_end : Z; fr_data : list Z; fr_clen : Z }.

(** [struct ip_reassdata] *)
Record ip_reassdata := mk_reassdata {
  rd_p : list frag;
  rd_iphdr : list Z;
  rd_datagram_len : Z;
  rd_flags : Z;
  rd_timer : Z }.
#[export] Instance eta_reassdata : Eta ip_reassdata := fun r =>
  mk_reassdata (rd_p r) (rd_iphdr r) (rd_datagram_len r) (rd_flags r) (rd_timer r).

(** [reassdatagrams], [ip_reass_pbufcount], and the packets for which a "time exceeded"
    message was sent, the last one first. *)
Record reass := mk_reass {
  reassdatagrams : list ip_reassdata;
  ip_reass_pbufcount : Z;
  rs_exceeded : list (list Z) }.
#[export] Instance eta_reass : Eta reass := fun s => mk_reass (reassdatagrams s) (ip_reass_pbufcount s) (rs_exceeded s).

Definition IP_ADDRESSES_AND_ID_MATCH (a b : list Z) : bool :=
  (IPH_SRC a =? IPH_SRC b) && (IPH_DEST a =? IPH_DEST b) && (IPH_ID a =? IPH_ID b).

(** ** Giving datagrams up *)

(** The number of buffers of the fragments (the loop over [p]). *)
Definition clen_sum (l : list frag) : Z := foldr (fun f n => u16 (fr_clen f + n)) 0 l.

(** The effect on the rest: the buffers given up, and the message, if the first fragment
    is there; the datagram is not in the list any more. *)
Definition ip_reass_free_complete_datagram (ipr : ip_reassdata) (s : reass) : option (Z * reass) :=
  match rd_p ipr with
  | [] => None
  | f :: _ =>
      let freed := clen_sum (rd_p ipr) in
      let s := if fr_start f =? 0 then s <| rs_exceeded := (rd_iphdr ipr ++ fr_data f) :: rs_exceeded s |> else s in
      Some (freed, s <| ip_reass_pbufcount := u16 (ip_reass_pbufcount s - freed) |>)
  end.

(** [ip_reass_tmr]: what is left of the list, and the rest of the state. *)
Fixpoint reass_tmr_loop (l : list ip_reassdata) (s : reass) : option (list ip_reassdata * reass) :=
  match l with
  | [] => Some ([], s)
  | r :: l =>
      if 0 <? rd_timer r then
        match reass_tmr_loop l s with
        | Some (l, s) => Some ((r <| rd_timer := rd_timer r - 1 |>) :: l, s)
        | None => None
        end
      else
        match ip_reass_free_complete_datagram r s with
        | Some (_, s) => reass_tmr_loop l s
        | None => None
        end
  end.
Definition ip_reass_tmr (s : reass) : option reass :=
  match reass_tmr_loop (reassdatagrams s) s with
  | Some (l, s) => Some (s <| reassdatagrams := l |>)
  | None => None
  end.

(** The sweep of [ip_reass_remove_oldest_datagram] from index [i] on: the oldest of the
    other datagrams, and how many there are. *)
Fixpoint oldest_loop (fraghdr : list Z) (l : list ip_reassdata) (i : nat) (oldest : option (nat * ip_reassdata)) (others : Z)
    : option (nat * ip_reassdata) * Z :=
  match l with
  | [] => (oldest, others)
  | r :: l =>
      if negb (IP_ADDRESSES_AND_ID_MATCH (rd_iphdr r) fraghdr) then
        let oldest := match oldest with
                      | None => Some (i, r)
                      | Some (_, o) => if rd_timer r <=? rd_timer o then Some (i, r) else oldest
                      end in
        oldest_loop fraghdr l (S i) oldest (others + 1)
      else oldest_loop fraghdr l (S i) oldest others
  end.

(** The [do]-[while] loop; each turn but the last takes a datagram out of the list. *)
Fixpoint remove_oldest_loop (fuel : nat) (fraghdr : list Z) (pbufs_needed pbufs_freed : Z) (s : reass) : option (Z * reass) :=
  match fuel with
  | O => None
  | S fuel =>
      let '(oldest, others) := oldest_loop fraghdr (reassdatagrams s) 0 None 0 in
      match (match oldest with
             | Some (i, r) =>
                 match ip_reass_free_complete_datagram r s with
                 | Some (n, s) => Some (pbufs_freed + n, s <| reassdatagrams := delete i (reassdatagrams s) |>)
                 | None => None
                 end
             | None => Some (pbufs_freed, s)
             end) with
      | None => None
      | Some (pbufs_freed, s) =>
          if (pbufs_freed <? pbufs_needed) && (1 <? others) then remove_oldest_loop fuel fraghdr pbufs_needed pbufs_freed s
          else Some (pbufs_freed, s)
      end
  end.
Definition ip_reass_remove_oldest_datagram (fraghdr : list Z) (pbufs_needed : Z) (s : reass) : option (Z * reass) :=
  remove_oldest_loop (S (length (reassdatagrams s))) fraghdr pbufs_needed 0 s.

(** ** Taking fragments in *)

(** [memp_malloc(MEMP_REASSDATA)] succeeds while the pool has an element. *)
Definition reassdata_free (s : reass) : bool := zlen (reassdatagrams s) <? MEMP_NUM_REASSDATA.

(** The new datagram is the first of the list; [false] if there is none to be had. *)
Definition ip_reass_enqueue_new_datagram (fraghdr : list Z) (clen : Z) (s : reass) : option (bool * reass) :=
  match (if reassdata_free s then Some (true, s)
         else
           match ip_reass_remove_oldest_datagram fraghdr clen s with
           | Some (n, s) => Some ((clen <=? n) && reassdata_free s, s)
           | None => None
           end) with
  | None => None
  | Some (false, s) => Some (false, s)
  | Some (true, s) =>
      Some (true, s <| reassdatagrams := mk_reassdata [] (take 20 fraghdr) 0 0 IP_REASS_MAXAGE :: reassdatagrams s |>)
  end.

(** Where [new] goes: the fragments from the one after [prev] on, with [new] among them,
    those behind it, and whether there is no hole up to it; [None] if it is dropped. *)
Fixpoint chain_frag (new : frag) (prev : option frag) (l : list frag) (valid : bool) : option (list frag * list frag * bool) :=
  match l with
  | [] => Some ([new], [], valid && match prev with Some p => fr_end p =? fr_start new | None => true end)
  | q :: l' =>
      if fr_start new <? fr_start q then
        match prev with
        | Some p =>
            if (fr_start new <? fr_end p) || (fr_start q <? fr_end new) then None
            else Some (new :: l, l, valid && (fr_end p =? fr_start new))
        | None => if fr_start q <? fr_end new then None else Some (new :: l, l, valid)
        end
      else if fr_start new =? fr_start q then None
      else if fr_start new <? fr_end q then None
      else
        match chain_frag new (Some q) l' (valid && match prev with Some p => fr_end p =? fr_start q | None => true end) with
        | Some (k, after, v) => Some (q :: k, after, v)
        | None => None
        end
  end.

(** No hole from [f] on. *)
Fixpoint no_hole (f : frag) (l : list frag) : bool :=
  match l with
  | [] => true
  | q :: l => (fr_end f =? fr_start q) && no_hole q l
  end.

(** [IP_REASS_VALIDATE_PBUF_DROPPED], or the datagram with the fragment in it and whether
    it is complete. *)
Definition ip_reass_chain_frag_into_datagram_and_validate (ipr : ip_reassdata) (p : list Z) (clen : Z) (is_last : bool)
    : option (ip_reassdata * bool) :=
  let len := lwip_htons (IPH_LEN p) in
  let hlen := IPH_HL_BYTES p in
  if len <? hlen then None
  else
    let len := u16 (len - hlen) in
    let offset := IPH_OFFSET_BYTES p in
    let new := mk_frag offset (u16 (offset + len)) (drop (Z.to_nat IP_HLEN) p) clen in
    if fr_end new <? offset then None
    else
      match chain_frag new None (rd_p ipr) true with
      | None => None
      | Some (l, after, valid) =>
          let ipr := ipr <| rd_p := l |> in
          if is_last || negb (Z.land (rd_flags ipr) IP_REASS_FLAG_LASTFRAG =? 0) then
            let valid := valid && match l with f :: _ => fr_start f =? 0 | [] => false end && no_hole new after in
            Some (ipr, valid)
          else Some (ipr, false)
      end.

(** The datagram a fragment belongs to: its index. *)
Fixpoint find_datagram (fraghdr : list Z) (l : list ip_reassdata) (i : nat) : option (nat * ip_reassdata) :=
  match l with
  | [] => None
  | r :: l => if IP_ADDRESSES_AND_ID_MATCH (rd_iphdr r) fraghdr then Some (i, r) else find_datagram fraghdr l (S i)
  end.

(** The header of the reassembled packet. *)
Definition reass_hdr (iphdr : list Z) (datagram_len : Z) : list Z :=
  let h := IPH_CHKSUM_SET (IPH_OFFSET_SET (IPH_LEN_SET iphdr (lwip_htons datagram_len)) 0) 0 in
  IPH_CHKSUM_SET h (inet_chksum 0 h).

(** The chain the fragments become: the header in front of the first, the headers of the
    others hidden. What lies behind the header of a fragment is taken for one buffer,
    as the driver of this firmware delivers it. *)
Definition reass_chain (hdr : list Z) (data : list (list Z)) : list (list Z) :=
  match data with
  | d :: ds => (hdr ++ d) :: ds
  | [] => [hdr]
  end.

(** The parts of [ip4_reass]. Whether there is room for the buffers of the fragment: *)
Definition reass_room (p : list Z) (clen : Z) (s : reass) : option (bool * reass) :=
  if IP_REASS_MAX_PBUFS <? ip_reass_pbufcount s + clen then
    match ip_reass_remove_oldest_datagram p clen s with
    | Some (n, s) => Some (negb (n =? 0) && negb (IP_REASS_MAX_PBUFS <? ip_reass_pbufcount s + clen), s)
    | None => None
    end
  else Some (true, s).

(** the datagram it belongs to, an old or a new one, and where it is in the list; *)
Definition reass_datagram (p : list Z) (clen : Z) (s : reass) : option (option (nat * ip_reassdata) * reass) :=
  match find_datagram p (reassdatagrams s) 0 with
  | None =>
      match ip_reass_enqueue_new_datagram p clen s with
      | Some (true, s) =>
          match reassdatagrams s with ipr :: _ => Some (Some (0%nat, ipr), s) | [] => None end
      | Some (false, s) => Some (None, s)
      | None => None
      end
  | Some (i, ipr) =>
      let ipr := if (Z.land (lwip_htons (IPH_OFFSET p)) IP_OFFMASK =? 0) &&
                    negb (Z.land (lwip_htons (IPH_OFFSET (rd_iphdr ipr))) IP_OFFMASK =? 0)
                 then ipr <| rd_iphdr := take 20 p |> else ipr in
      Some (Some (i, ipr), s <| reassdatagrams := <[i := ipr]> (reassdatagrams s) |>)
  end.

(** and what becomes of them. *)
Definition reass_put (p : list Z) (clen : Z) (i : nat) (ipr : ip_reassdata) (s : reass) : option (list (list Z)) * reass :=
  let offset := IPH_OFFSET_BYTES p in
  let len := u16 (lwip_htons (IPH_LEN p) - IPH_HL_BYTES p) in
  let dropped := (None, if bool_decide (rd_p ipr = []) then s <| reassdatagrams := delete i (reassdatagrams s) |> else s) in
  let is_last := Z.land (IPH_OFFSET p) (PP_HTONS IP_MF) =? 0 in
  let datagram_len := u16 (offset + len) in
  if is_last && ((datagram_len <? offset) || (0xFFFF - IP_HLEN <? datagram_len)) then dropped
  else
    match ip_reass_chain_frag_into_datagram_and_validate ipr p clen is_last with
    | None => dropped
    | Some (ipr, finished) =>
        let count := u16 (ip_reass_pbufcount s + clen) in
        let ipr := if is_last then ipr <| rd_datagram_len := datagram_len |>
                                       <| rd_flags := Z.lor (rd_flags ipr) IP_REASS_FLAG_LASTFRAG |> else ipr in
        if finished then
          (Some (reass_chain (reass_hdr (rd_iphdr ipr) (u16 (rd_datagram_len ipr + IP_HLEN))) (fr_data <$> rd_p ipr)),
           s <| reassdatagrams := delete i (reassdatagrams s) |>
             <| ip_reass_pbufcount := u16 (count - clen_sum (rd_p ipr)) |>)
        else (None, s <| reassdatagrams := <[i := ipr]> (reassdatagrams s) |> <| ip_reass_pbufcount := count |>)
    end.

(** [ip4_reass]: the packet that is complete, if it is. *)
Definition ip4_reass (p : list Z) (clen : Z) (s : reass) : option (option (list (list Z)) * reass) :=
  if negb (IPH_HL_BYTES p =? IP_HLEN) then Some (None, s)
  else if lwip_htons (IPH_LEN p) <? IPH_HL_BYTES p then Some (None, s)
  else
    match reass_room p clen s with
    | None => None
    | Some (false, s) => Some (None, s)
    | Some (true, s) =>
        match reass_datagram p clen s with
        | None => None
        | Some (None, s) => Some (None, s)
        | Some (Some (i, ipr), s) => Some (reass_put p clen i ipr s)
        end
    end.

(** ** Cutting a packet up *)

(** The inner loop of [ip4_frag]: the buffers [bufs] from [p] on are mirrored from
    offset [poff] until [left_to_copy] bytes are there. [mem] answers the allocations one
    by one (they succeed when it is used up). [None] stands for reading past the last
    buffer, [inl] for want of memory. *)
Fixpoint mirror (bufs : list (list Z)) (poff left_to_copy : Z) (acc : list Z) (mem : list bool)
    : option (list bool + list (list Z) * Z * list Z * list bool) :=
  match bufs with
  | [] => None
  | b :: rest =>
      let plen := u16 (zlen b - poff) in
      let newpbuflen := Z.min left_to_copy plen in
      if newpbuflen =? 0 then mirror rest 0 left_to_copy acc mem
      else if negb (default true (head mem)) then Some (inl (tail mem))
      else
        let acc := acc ++ mem_read poff newpbuflen b in
        let left_to_copy := u16 (left_to_copy - newpbuflen) in
        if negb (left_to_copy =? 0) then mirror rest 0 left_to_copy acc (tail mem)
        else Some (inr (bufs, u16 (poff + newpbuflen), acc, tail mem))
  end.

(** The header of a fragment. *)
Definition frag_hdr (original : list Z) (tmp fragsize : Z) : list Z :=
  let h := IPH_CHKSUM_SET (IPH_LEN_SET (IPH_OFFSET_SET original (lwip_htons tmp)) (lwip_htons (u16 (fragsize + IP_HLEN)))) 0 in
  IPH_CHKSUM_SET h (inet_chksum 0 h).

(** The loop over the fragments: those handed to [netif->output], the result, and the
    answers not used. *)
Fixpoint frag_loop (fuel : nat) (original : list Z) (mtu mf_set : Z) (bufs : list (list Z)) (poff left ofo : Z) (mem : list bool)
    : option (list (list Z) * Z * list bool) :=
  if left =? 0 then Some ([], ERR_OK, mem)
  else
    match fuel with
    | O => None
    | S fuel =>
        let nfb := u16 (Z.quot (mtu - IP_HLEN) 8) in
        let fragsize := Z.min left (u16 (nfb * 8)) in
        if negb (default true (head mem)) then Some ([], ERR_MEM, tail mem)
        else
          match mirror bufs poff fragsize [] (tail mem) with
          | None => None
          | Some (inl mem) => Some ([], ERR_MEM, mem)
          | Some (inr (bufs, poff, data, mem)) =>
              let last := left <=? mtu - IP_HLEN in
              let tmp := Z.land IP_OFFMASK ofo in
              let tmp := if negb last || negb (mf_set =? 0) then Z.lor tmp IP_MF else tmp in
              match frag_loop fuel original mtu mf_set bufs poff (u16 (left - fragsize)) (u16 (ofo + nfb)) mem with
              | Some (sent, err, mem) => Some ((frag_hdr original tmp fragsize ++ data) :: sent, err, mem)
              | None => None
              end
          end
    end.

(** [ip4_frag]: [bufs] are the buffers of the packet. Each turn takes 8 bytes at least,
    so [0x2000] turns are enough. *)
Definition ip4_frag (bufs : list (list Z)) (mtu : Z) (mem : list bool) : option (list (list Z) * Z * list bool) :=
  match bufs with
  | [] => None
  | b :: _ =>
      let original := take 20 b in
      if negb (IPH_HL_BYTES b =? IP_HLEN) then Some ([], ERR_VAL, mem)
      else if zlen b <? IP_HLEN then Some ([], ERR_VAL, mem)
      else
        let tmp := lwip_htons (IPH_OFFSET b) in
        let ofo := Z.land tmp IP_OFFMASK in
        let mf_set := Z.land tmp IP_MF in
        frag_loop (Z.to_nat 0x2000) original mtu mf_set bufs IP_HLEN (u16 (zlen (concat bufs) - IP_HLEN)) ofo mem
  end.
