(* ===== verification/Ip4FragProps.v ===== *)
(** * Ip4FragProps: what fragmentation and reassembly promise

    The fragments of a packet, handed to [ip4_reass] in any order, give the packet back;
    with an MTU that does not leave a multiple of 8 for the data, as the one of this
    firmware, some packets are cut wrong. The lemmas are on the pieces of a packet and on
    the list of fragments that wait for the others; [Ip4FragRun] puts them together. *)

From S2P Require Import Prelude Chksum Pbuf PbufData Inet Ip4Hdr Ip4Frag.

(** ** Cutting bytes up *)

(** The pieces of [d], of [n] bytes each: where a piece starts, its bytes, and whether it
    is marked as followed by more, which the code decides by [m]. *)
Fixpoint cut (fuel : nat) (n m start : Z) (d : list Z) : list (Z * list Z * bool) :=
  match fuel, d with
  | S fuel, _ :: _ => (start, take (Z.to_nat n) d, m <? zlen d) :: cut fuel n m (start + n) (drop (Z.to_nat n) d)
  | _, _ => []
  end.

Definition frag_packet (h : list Z) (x : Z * list Z * bool) : list Z :=
  let '(start, d, more) := x in frag_hdr h (if more : bool then Z.lor (start / 8) IP_MF else start / 8) (zlen d) ++ d.

Lemma mem_read_take off n (l : list Z) : mem_read off n l = take (Z.to_nat n) (drop (Z.to_nat off) l).
Proof. done. Qed.

(** The inner loop takes the next [left] bytes, whatever the buffers. *)
Lemma mirror_eq bufs : forall poff left acc, Forall (fun b => zlen b < 65536) bufs -> 0 <= poff ->
  match bufs with b :: _ => poff <= zlen b | [] => True end -> 0 < left < 65536 -> poff + left <= zlen (concat bufs) ->
  exists bufs' poff', mirror bufs poff left acc [] = Some (inr (bufs', poff', acc ++ take (Z.to_nat left) (drop (Z.to_nat poff) (concat bufs)), [])) /\
    Forall (fun b => zlen b < 65536) bufs' /\ 0 <= poff' /\ match bufs' with b :: _ => poff' <= zlen b | [] => True end /\
    drop (Z.to_nat poff') (concat bufs') = drop (Z.to_nat left) (drop (Z.to_nat poff) (concat bufs)).
Proof.
  induction bufs as [|b rest IH]; intros poff left acc Hf Hp Hb Hl Hz; [cbn in Hz; change (zlen []) with 0 in Hz; lia|].
  apply Forall_cons in Hf as [Hf Hr]. pose proof (zlen_nonneg b). cbn [mirror concat]. rewrite u16_small by (unfold is_u16; lia).
  cbn [concat] in Hz. rewrite zlen_app in Hz. rewrite (drop_app_z poff), (drop_none_z (poff - zlen b)) by lia.
  set (y := drop (Z.to_nat poff) b). assert (zlen y = zlen b - poff) as Hy by (unfold y; rewrite zlen_drop_max; lia).
  destruct (Z.eqb_spec (Z.min left (zlen b - poff)) 0) as [E|E].
  - assert (y = []) as -> by (apply length_zero_iff_nil; unfold zlen in *; lia). cbn [app].
    destruct (IH 0 left acc Hr) as (bufs' & poff' & Em & H1 & H2 & H3 & H4); [lia|destruct rest; [done|apply zlen_nonneg]|done|lia|]. by exists bufs', poff'.
  - cbn [head default negb tail]. rewrite u16_small by (unfold is_u16; lia). rewrite mem_read_take. fold y.
    destruct (Z.eqb_spec (left - Z.min left (zlen b - poff)) 0) as [E2|E2]; cbn [negb].
    + replace (Z.min left (zlen b - poff)) with left by lia. exists (b :: rest), (poff + left). rewrite u16_small by (unfold is_u16; lia). split_and!; try lia.
      * do 4 f_equal. rewrite take_app_z, (take_none_z (left - zlen y)), app_nil_r by lia. done.
      * by constructor.
      * cbn [concat]. rewrite (drop_app_z (poff + left)), (drop_none_z (poff + left - zlen b)) by lia.
        rewrite (drop_app_z left), (drop_none_z (left - zlen y)) by lia. f_equal. unfold y. rewrite drop_drop. f_equal. lia.
    + assert (zlen b - poff < left) as Hlt by lia. replace (Z.min left (zlen b - poff)) with (zlen b - poff) in * by lia. rewrite (take_all_z (zlen b - poff) y) by lia.
      destruct (IH 0 (left - (zlen b - poff)) (acc ++ y) Hr) as (bufs' & poff' & Em & H1 & H2 & H3 & H4); [lia|destruct rest; [done|apply zlen_nonneg]|lia| |].
      { rewrite Z.add_0_l. lia. }
      exists bufs', poff'. change (Z.to_nat 0) with 0%nat in *. cbn [drop] in Em, H4. rewrite Em. split_and!; [|done..|].
      * do 4 f_equal. rewrite <- app_assoc. f_equal. rewrite take_app_z, (take_all_z left y) by lia. by rewrite Hy.
      * rewrite H4. rewrite (drop_app_z left), (drop_all_z left y) by lia. by rewrite Hy.
Qed.

(** The loop over the fragments makes the pieces. *)
Lemma frag_loop_eq fuel : forall fuel' h mtu bufs poff d start, 28 <= mtu < 65536 -> Forall (fun b => zlen b < 65536) bufs -> 0 <= poff ->
  match bufs with b :: _ => poff <= zlen b | [] => True end -> drop (Z.to_nat poff) (concat bufs) = d -> (zlen d <= 8 * Z.of_nat fuel) -> (zlen d <= 8 * Z.of_nat fuel') ->
  start mod 8 = 0 -> 0 <= start -> start + zlen d < 65536 ->
  let n := 8 * ((mtu - IP_HLEN) / 8) in
  frag_loop fuel h mtu 0 bufs poff (zlen d) (start / 8) [] = Some (frag_packet h <$> cut fuel' n (mtu - IP_HLEN) start d, ERR_OK, []).
Proof.
  induction fuel as [|fuel IH]; intros fuel' h mtu bufs poff d start Hm Hf Hp Hb Ed Hfu Hfu' Hs8 Hs Ht n.
  { pose proof (zlen_nonneg d). assert (d = []) as -> by (apply length_zero_iff_nil; unfold zlen in *; lia). by destruct fuel'. }
  cbn [frag_loop]. destruct d as [|x d0] eqn:Edd; [by destruct fuel'|]. rewrite <- Edd in *. assert (0 < zlen d) as Hd by (rewrite Edd, zlen_cons; pose proof (zlen_nonneg d0); lia).
  replace (zlen d =? 0) with false by lia. destruct fuel' as [|fuel']; [lia|]. cbn [cut]. rewrite Edd. rewrite <- Edd. cbn [head default negb tail].
  unfold IP_HLEN in *. assert (8 <= n < 65536 /\ n <= mtu - 20) as [Hn Hnm] by (unfold n; zdivmod).
  rewrite Z.quot_div_nonneg by lia. assert (0 <= (mtu - 20) / 8 < 8192) as Hq by zdivmod. rewrite (u16_small ((mtu - 20) / 8)) by (unfold is_u16; lia). rewrite (u16_small ((mtu - 20) / 8 * 8)) by (unfold is_u16; lia).
  replace ((mtu - 20) / 8 * 8) with n by (unfold n; lia).
  assert (poff + zlen d = zlen (concat bufs)) as Hz.
  { rewrite <- Ed, zlen_drop_max by lia. enough (poff <= zlen (concat bufs)) by lia. assert (d <> []) as Hne by (by rewrite Edd).
    destruct (Z.le_gt_cases poff (zlen (concat bufs))) as [?|Hgt]; [done|]. exfalso. apply Hne. rewrite <- Ed. apply drop_all_z. lia. }
  destruct (mirror_eq bufs poff (Z.min (zlen d) n) [] Hf Hp Hb) as (bufs' & poff' & Em & H1 & H2 & H3 & H4); [lia|lia|]. rewrite Em. cbn [app]. rewrite Ed in *.
  assert (take (Z.to_nat (Z.min (zlen d) n)) d = take (Z.to_nat n) d) as Et by (destruct (Z.le_ge_cases (zlen d) n); [rewrite !take_all_z by lia; done|by rewrite Z.min_r]).
  assert (drop (Z.to_nat (Z.min (zlen d) n)) d = drop (Z.to_nat n) d) as Edr by (destruct (Z.le_ge_cases (zlen d) n); [rewrite !drop_all_z by lia; done|by rewrite Z.min_r]).
  rewrite Et. rewrite Edr in H4. assert (zlen (take (Z.to_nat n) d) = Z.min (zlen d) n) as Hzt by (rewrite zlen_take_min by lia; lia).
  assert (zlen (drop (Z.to_nat n) d) = zlen d - Z.min (zlen d) n) as Hzd by (rewrite zlen_drop_max by lia; lia).
  rewrite u16_small by (unfold is_u16; lia).
  assert (start / 8 + (mtu - 20) / 8 = (start + n) / 8) as Es by (unfold n; rewrite Z.mul_comm, Z.div_add by lia; lia).
  assert (Z.land 0x1fff (start / 8) = start / 8) as Eo.
  { rewrite Z.land_comm. change 0x1fff with (Z.ones 13). rewrite Z.land_ones by lia. apply Z.mod_small. zdivmod. }
  replace (negb (zlen d <=? mtu - 20) || negb (0 =? 0)) with (mtu - 20 <? zlen d) by (destruct (Z.ltb_spec (mtu - 20) (zlen d)), (Z.leb_spec (zlen d) (mtu - 20)); cbn; lia || done).
  rewrite <- Hzd. rewrite (u16_small (start / 8 + _)) by (rewrite Es; unfold is_u16; zdivmod). rewrite Es.
  destruct (Z.le_gt_cases (zlen d) n) as [Hle|Hgt].
  - assert (drop (Z.to_nat n) d = []) as -> by (apply drop_all_z; lia). change (zlen []) with 0.
    assert (forall f h m ms b p o mem, frag_loop f h m ms b p 0 o mem = Some ([], ERR_OK, mem)) as Hz0 by (by intros []). rewrite Hz0.
    replace (cut fuel' n (mtu - 20) (start + n) []) with (@nil (Z * list Z * bool)) by (by destruct fuel'). cbn [fmap list_fmap frag_packet]. unfold IP_OFFMASK. by rewrite Eo, Hzt.
  - rewrite (IH fuel' h mtu bufs' poff' (drop (Z.to_nat n) d) (start + n)); try done; try lia.
    + cbn [fmap list_fmap frag_packet]. unfold IP_OFFMASK. by rewrite Eo, Hzt.
    + unfold n. rewrite Z.mul_comm, Z.mod_add by lia. done.
Qed.

(** ** Fragments in order *)

(** Consecutive fragments are in order and do not overlap; no fragment is empty. *)
Fixpoint ordered (l : list frag) : Prop :=
  match l with
  | [] => True
  | f :: l => fr_start f < fr_end f /\ (forall g, g ∈ l -> fr_end f <= fr_start g) /\ ordered l
  end.
Definition gapless (l : list frag) : bool := match l with [] => true | f :: l => no_hole f l end.

Lemma no_hole_app f l g k : no_hole f (l ++ g :: k) = no_hole f (l ++ [g]) && no_hole g k.
Proof.
  revert f. induction l as [|h l IH]; intros f; cbn [app no_hole]; [by rewrite andb_true_r|]. by rewrite IH, andb_assoc.
Qed.

(** A fragment finds its place. *)
Lemma chain_frag_eq new l1 : forall prev valid l2, (forall p, prev = Some p -> fr_end p <= fr_start new) -> fr_start new < fr_end new ->
  ordered (l1 ++ l2) -> (forall q, q ∈ l1 -> fr_end q <= fr_start new) -> (forall q, q ∈ l2 -> fr_end new <= fr_start q) ->
  chain_frag new prev (l1 ++ l2) valid =
    Some (l1 ++ new :: l2, l2, valid && match prev with Some p => no_hole p (l1 ++ [new]) | None => gapless (l1 ++ [new]) end).
Proof.
  induction l1 as [|q l1 IH]; intros prev valid l2 Hp Hn Ho H1 H2; cbn [app chain_frag].
  - destruct l2 as [|q l2]; cbn [chain_frag].
    + do 3 f_equal. destruct prev; cbn [no_hole]; [by rewrite andb_true_r|done].
    + pose proof (H2 q (list_elem_of_here _ _)) as Hq. replace (fr_start new <? fr_start q) with true by lia.
      destruct prev as [p|]; cbn [no_hole gapless].
      * specialize (Hp p eq_refl). replace (fr_start new <? fr_end p) with false by lia. replace (fr_start q <? fr_end new) with false by lia. cbn [orb]. by rewrite andb_true_r.
      * replace (fr_start q <? fr_end new) with false by lia. by rewrite andb_true_r.
  - pose proof (H1 q (list_elem_of_here _ _)) as Hq. destruct Ho as (Hq1 & Hq2 & Ho). cbn [app].
    replace (fr_start new <? fr_start q) with false by lia. replace (fr_start new =? fr_start q) with false by lia. replace (fr_start new <? fr_end q) with false by lia.
    rewrite (IH (Some q) _ l2); [|by intros p [= <-]|done|done|intros; apply H1; by right|done].
    destruct prev as [p|]; cbn [no_hole gapless app]; [by rewrite andb_assoc|by rewrite andb_true_r].
Qed.

(** The fragments of one packet: each begins where the one before ends. *)
Fixpoint sequel (a : Z) (l : list frag) : Prop :=
  match l with [] => True | f :: l => fr_start f = a /\ a < fr_end f /\ sequel (fr_end f) l end.

Lemma sequel_later a l f : sequel a l -> f ∈ l -> a <= fr_start f < fr_end f.
Proof.
  revert a. induction l as [|g l IH]; intros a Hs Hf; [by apply not_elem_of_nil in Hf|]. destruct Hs as (Hg & Ha & Hs).
  apply elem_of_cons in Hf as [->|Hf]; [lia|]. specialize (IH _ Hs Hf). lia.
Qed.
Lemma sequel_ordered a l : sequel a l -> ordered l.
Proof.
  revert a. induction l as [|g l IH]; intros a Hs; [done|]. destruct Hs as (Hg & Ha & Hs). split_and!; [lia| |by eapply IH].
  intros f Hf. pose proof (sequel_later _ _ _ Hs Hf). lia.
Qed.
Lemma sequel_app a l k : sequel a (l ++ k) -> sequel a l.
Proof. revert a. induction l as [|g l IH]; intros a; [done|]. intros (? & ? & ?). split_and!; [done|done|by apply IH]. Qed.

(** Those of them that are there, by where they begin. *)
Definition here (K : list Z) (l : list frag) : list frag := filter (fun f => fr_start f ∈ K) l.

Lemma ordered_filter K l : ordered l -> ordered (here K l).
Proof.
  induction l as [|g l IH]; intros Ho; [done|]. destruct Ho as (H1 & H2 & Ho). unfold here. rewrite filter_cons. case_decide; [|by apply IH].
  split_and!; [done| |by apply IH]. intros f [_ Hf]%list_elem_of_filter. auto.
Qed.

(** They are complete when there is no hole from the first to the last. *)
Lemma complete_from a f l last K : sequel a (f :: l ++ [last]) -> fr_start last ∈ K -> no_hole f (here K (l ++ [last])) = true -> here K (l ++ [last]) = l ++ [last].
Proof.
  revert a f. induction l as [|g l IH]; intros a f Hs Hl Hn; cbn [app] in *.
  - unfold here. rewrite filter_cons_True by done. done.
  - destruct Hs as (Hf & Ha & Hs). pose proof Hs as (Hg & Hga & Hs'). unfold here in *. rewrite filter_cons in *. case_decide as Hd.
    + cbn [no_hole] in Hn. apply andb_true_iff in Hn as [_ Hn]. f_equal. by eapply (IH (fr_start g) g); [rewrite Hg|..].
    + exfalso. destruct (filter _ (l ++ [last])) as [|x k] eqn:E.
      * assert (last ∈ filter (fun f => fr_start f ∈ K) (l ++ [last])) as Hin by (apply list_elem_of_filter; split; [done|apply elem_of_app; right; by apply list_elem_of_singleton]).
        rewrite E in Hin. by apply not_elem_of_nil in Hin.
      * assert (x ∈ filter (fun f => fr_start f ∈ K) (l ++ [last])) as Hin by (rewrite E; left). apply list_elem_of_filter in Hin as [_ Hin].
        pose proof (sequel_later _ _ _ Hs' Hin). cbn [no_hole] in Hn. apply andb_true_iff in Hn as [Hn _]. apply Z.eqb_eq in Hn. lia.
Qed.

Lemma sequel_gapless a f l : sequel a (f :: l) -> no_hole f l = true.
Proof.
  revert a f. induction l as [|g l IH]; intros a f Hs; [done|]. destruct Hs as (Hf & Ha & Hs). cbn [no_hole]. apply andb_true_iff. split; [|by eapply IH].
  destruct Hs as (Hg & _). lia.
Qed.

(** Complete is complete: the test of the code. *)
Lemma complete_iff l last K : sequel 0 (l ++ [last]) -> fr_start last ∈ K ->
  gapless (here K (l ++ [last])) && match here K (l ++ [last]) with f :: _ => fr_start f =? 0 | [] => false end = true <-> here K (l ++ [last]) = l ++ [last].
Proof.
  intros Hs Hl. split.
  - intros [Hg Hf]%andb_true_iff. destruct l as [|f l]; cbn [app] in *; [unfold here; by rewrite filter_cons_True|].
    pose proof Hs as (Hf0 & Ha & Hs'). unfold here in *. rewrite filter_cons in *. case_decide as Hd.
    + f_equal. by eapply complete_from.
    + exfalso. destruct (filter _ (l ++ [last])) as [|x k] eqn:E; [done|].
      assert (x ∈ filter (fun f => fr_start f ∈ K) (l ++ [last])) as Hin by (rewrite E; left). apply list_elem_of_filter in Hin as [_ Hin].
      pose proof (sequel_later _ _ _ Hs' Hin). lia.
  - intros ->. destruct l as [|f l]; cbn [app gapless] in *; destruct Hs as (Hf & Hs).
    + apply andb_true_iff. split; [done|lia].
    + apply andb_true_iff. split; [|lia]. by apply (sequel_gapless 0).
Qed.

Lemma here_all K l : here K l = l <-> forall f, f ∈ l -> fr_start f ∈ K.
Proof.
  split.
  - intros <- f Hf. by apply list_elem_of_filter in Hf as [? _].
  - intros H. induction l as [|g l IH]; [done|]. unfold here. rewrite filter_cons_True by (apply H; left). f_equal. apply IH. intros f Hf. apply H. by right.
Qed.

Lemma here_nil l : here [] l = [].
Proof. induction l as [|g l IH]; [done|]. unfold here. rewrite filter_cons_False; [done|]. apply not_elem_of_nil. Qed.

(** A fragment that begins elsewhere is not looked for. *)
Lemma here_other a K l : (forall f, f ∈ l -> fr_start f <> a) -> here (a :: K) l = here K l.
Proof.
  induction l as [|g l IH]; intros H; [done|]. unfold here in *. rewrite !filter_cons, IH by (intros f Hf; apply H; by right).
  pose proof (H g (list_elem_of_here _ _)) as Hg. repeat case_decide; try done; [|by exfalso; eauto using list_elem_of_further].
  by apply elem_of_cons in H0 as [?|?].
Qed.

Lemma sequel_split A f B a : sequel a (A ++ f :: B) ->
  (forall g, g ∈ A -> fr_start g < fr_end g <= fr_start f) /\ (forall g, g ∈ B -> fr_end f <= fr_start g) /\ fr_start f < fr_end f.
Proof.
  revert a. induction A as [|c A IH]; intros a; cbn [app]; intros (Hc & Ha & Hr).
  - split_and!; [by intros g Hg%not_elem_of_nil| |lia]. intros g Hg. pose proof (sequel_later _ _ _ Hr Hg). lia.
  - destruct (IH _ Hr) as (H1 & H2 & H3). split_and!; [|done|done]. intros g [->|Hg]%elem_of_cons; [|by apply H1].
    enough (fr_end c <= fr_start f) by lia. apply (sequel_later _ _ f Hr). apply elem_of_app. right. left.
Qed.

Lemma here_insert A f B K : sequel 0 (A ++ f :: B) -> here (fr_start f :: K) (A ++ f :: B) = here K A ++ f :: here K B.
Proof.
  intros (H1 & H2 & H3)%sequel_split. unfold here. rewrite filter_app, filter_cons_True by left. fold (here (fr_start f :: K) A) (here (fr_start f :: K) B).
  rewrite !here_other; [done| |]; intros g Hg; [specialize (H2 g Hg)|specialize (H1 g Hg)]; lia.
Qed.

Lemma here_without A f B K : fr_start f ∉ K -> here K (A ++ f :: B) = here K A ++ here K B.
Proof. intros H. unfold here. by rewrite filter_app, filter_cons_False. Qed.

Lemma gapless_app l1 f l2 : gapless (l1 ++ f :: l2) = gapless (l1 ++ [f]) && no_hole f l2.
Proof. destruct l1 as [|g l1]; cbn [app gapless]; [done|]. apply no_hole_app. Qed.

Lemma sequel_end a l f : sequel a (l ++ [f]) -> (forall g, g ∈ l ++ [f] -> fr_end g = fr_start g + zlen (fr_data g)) -> fr_end f = a + zlen (concat (fr_data <$> l ++ [f])).
Proof.
  revert a. induction l as [|g l IH]; intros a (Hg & Ha & Hr) Hz; pose proof (Hz _ (list_elem_of_here _ _)) as Hgz; cbn [app fmap list_fmap concat] in *.
  - rewrite app_nil_r. lia.
  - rewrite zlen_app. rewrite (IH _ Hr) by (intros k Hk; apply Hz; by right). lia.
Qed.

(** The code's test of the datagram, when a fragment has come. *)
Lemma put_in_place A f B K : sequel 0 (A ++ f :: B) -> fr_start f ∉ K ->
  chain_frag f None (here K (A ++ f :: B)) true = Some (here (fr_start f :: K) (A ++ f :: B), here K B, gapless (here K A ++ [f])).
Proof.
  intros Hs Hf. destruct (sequel_split _ _ _ _ Hs) as (H1 & H2 & H3). rewrite here_insert, here_without by done.
  assert (forall C g, g ∈ here K C -> g ∈ C) as Hin by (by intros C g [_ Hg]%list_elem_of_filter).
  apply (chain_frag_eq f (here K A) None true (here K B)); try done.
  - rewrite <- (here_without A f B K Hf). apply ordered_filter. by eapply sequel_ordered.
  - intros q Hq%Hin. by destruct (H1 q Hq).
  - intros q Hq%Hin. by apply H2.
Qed.

Lemma reass_chain_concat h l : concat (reass_chain h l) = h ++ concat l.
Proof. destruct l as [|d l]; cbn; by rewrite ?app_assoc. Qed.
