(* ===== verification/Ip4Reass.v ===== *)
(** * Ip4Reass: a packet is put together again

    The fragments of a packet, handed to [ip4_reass] in any order, give the packet back
    when the last of them comes; the state is then what it was before the first. *)

From S2P Require Import Prelude Chksum Pbuf PbufData Inet Ip4Hdr Ip4Frag Ip4FragProps.

(** ** Headers of fragments *)

(** The header of a fragment is the header of the packet with another length, offset and
    checksum. *)
Lemma frag_hdr_eq v tos len id off ttl proto c src dest tmp sz :
  exists c', is_u16 c' /\ frag_hdr (ip_hdr v tos len id off ttl proto c src dest) tmp sz =
    ip_hdr v tos (lwip_htons (u16 (sz + IP_HLEN))) id (lwip_htons tmp) ttl proto c' src dest.
Proof.
  eexists (inet_chksum 0 (ip_hdr v tos (lwip_htons (u16 (sz + IP_HLEN))) id (lwip_htons tmp) ttl proto 0 src dest)).
  split; [|reflexivity]. unfold inet_chksum. apply u16_range.
Qed.

Lemma reass_hdr_eq tos len id off ttl proto c src dest n : is_u8 tos -> is_u16 n -> is_u16 id -> is_u8 ttl -> is_u8 proto -> is_u32 src -> is_u32 dest ->
  reass_hdr (ip_hdr 0x45 tos len (lwip_htons id) off ttl proto c src dest) n = ip_hdr_out tos n id ttl proto src dest.
Proof.
  intros Ht Hn Hi Htt Hp Hs Hd. unfold ip_hdr_out. change (u8 (Z.lor (Z.shiftl 4 4) (IP_HLEN / 4))) with 0x45. rewrite (ip_chk_sum_inet 0) by (done || by apply htons_u16). reflexivity.
Qed.

(** The flag "more fragments", for each of the 8192 offsets. *)
Lemma last_flag_all : forallb (fun o => forallb (fun more : bool => let t := if more then Z.lor o IP_MF else o in
  (0 <=? t) && (t <? 65536) && (Z.land t IP_OFFMASK =? o) && Bool.eqb (Z.land (lwip_htons t) (PP_HTONS IP_MF) =? 0) (negb more)) [true; false]) (seqZ 0 8192) = true.
Proof. by vm_compute. Qed.

Lemma last_flag o (more : bool) : 0 <= o < 8192 -> let t := if more then Z.lor o IP_MF else o in
  is_u16 t /\ Z.land t IP_OFFMASK = o /\ (Z.land (lwip_htons t) (PP_HTONS IP_MF) =? 0) = negb more.
Proof.
  intros Ho t. pose proof last_flag_all as H. rewrite forallb_forall in H. specialize (H o). cbv beta in H. rewrite forallb_forall in H.
  specialize (H ltac:(apply list_elem_of_In, elem_of_seqZ; lia) more ltac:(destruct more; cbn; auto)). fold t in H.
  apply andb_true_iff in H as [H H3]. apply andb_true_iff in H as [H H2]. apply andb_true_iff in H as [H0 H1].
  apply eqb_prop in H3. unfold is_u16. split_and!; [lia|lia|lia|done].
Qed.

Lemma reass_eta s : mk_reass (reassdatagrams s) (ip_reass_pbufcount s) (rs_exceeded s) = s.
Proof. by destruct s. Qed.

Lemma flag_in (e a : Z) (K : list Z) :
  bool_decide (e = a) || negb (Z.land (if decide (e ∈ K) then IP_REASS_FLAG_LASTFRAG else 0) IP_REASS_FLAG_LASTFRAG =? 0) = bool_decide (e ∈ a :: K).
Proof.
  case_bool_decide as H1; case_decide as H2; symmetry; first [apply bool_decide_eq_true_2|apply bool_decide_eq_false_2]; rewrite elem_of_cons; tauto.
Qed.

(** Packets given to [ip4_reass] one after the other, each with the number of its
    buffers: what it returns. *)
Fixpoint reass_all (ps : list (list Z * Z)) (s : reass) : option (list (option (list (list Z))) * reass) :=
  match ps with
  | [] => Some ([], s)
  | (p, c) :: ps =>
      match ip4_reass p c s with
      | Some (r, s) => match reass_all ps s with Some (rs, s) => Some (r :: rs, s) | None => None end
      | None => None
      end
  end.

(** The buffers of fragments. *)
Definition fsum (l : list frag) : Z := foldr (fun f n => fr_clen f + n) 0 l.

Lemma fsum_here K l : (forall f, f ∈ l -> 0 < fr_clen f) -> 0 <= fsum (here K l) <= fsum l.
Proof.
  induction l as [|g l IH]; intros H; [done|]. pose proof (H g (list_elem_of_here _ _)). assert (0 <= fsum (here K l) <= fsum l) as Hl by (apply IH; intros; apply H; by right).
  unfold here in *. rewrite filter_cons. case_decide; cbn [fsum foldr]; fold (fsum l); [fold (fsum (filter (fun f => fr_start f ∈ K) l))|]; lia.
Qed.
Lemma fsum_app l k : fsum (l ++ k) = fsum l + fsum k.
Proof. induction l as [|g l IH]; [done|]. cbn [app fsum foldr]. fold (fsum (l ++ k)). fold (fsum l). lia. Qed.
Lemma clen_sum_fsum l : (forall f, f ∈ l -> 0 < fr_clen f) -> fsum l < 65536 -> clen_sum l = fsum l.
Proof.
  induction l as [|g l IH]; intros H Hs; [done|]. pose proof (H g (list_elem_of_here _ _)). cbn [clen_sum fsum foldr] in *. fold (fsum l) in *. fold (clen_sum l).
  assert (0 <= fsum l) by (pose proof (fsum_here [] l ltac:(intros; apply H; by right)); pose proof (here_nil l); lia).
  rewrite IH by (try lia; intros; apply H; by right). apply u16_small. unfold is_u16. lia.
Qed.

(** ** The fragments of one packet *)

Section packet.
Context (tos id ttl proto src dest : Z) (d : list Z) (clen : Z -> Z).
Context (Htos : is_u8 tos) (Hid : is_u16 id) (Httl : is_u8 ttl) (Hproto : is_u8 proto) (Hsrc : is_u32 src) (Hdest : is_u32 dest)
  (Hlen : zlen d <= 0xFFFF - IP_HLEN).

Definition packet_hdr : list Z := ip_hdr_out tos (IP_HLEN + zlen d) id ttl proto src dest.
Definition piece_frag (x : Z * list Z * bool) : frag := let '(a, y, _) := x in mk_frag a (a + zlen y) y (clen a).
Definition piece_ok (x : Z * list Z * bool) : Prop :=
  let '(a, y, _) := x in 0 <= a /\ a mod 8 = 0 /\ 0 < zlen y /\ a + zlen y <= 0xFFFF - IP_HLEN.

(** A header of a fragment of the packet. *)
Definition hdr_of (h : list Z) : Prop := exists tot off c, is_u16 tot /\ is_u16 off /\ is_u16 c /\
  h = ip_hdr 0x45 tos (lwip_htons tot) (lwip_htons id) (lwip_htons off) ttl proto c src dest.

(** What [ip4_reass] reads of a fragment. *)
Lemma frag_packet_fields a y more : piece_ok (a, y, more) -> let p := frag_packet packet_hdr (a, y, more) in
  hdr_of (take 20 p) /\ drop 20 p = y /\ IPH_HL_BYTES p = IP_HLEN /\ lwip_htons (IPH_LEN p) = zlen y + IP_HLEN /\ IPH_OFFSET_BYTES p = a /\
  (Z.land (IPH_OFFSET p) (PP_HTONS IP_MF) =? 0) = negb more.
Proof.
  intros (Ha & Ha8 & Hy & Ht) p. unfold IP_HLEN in *. destruct (last_flag (a / 8) more) as (Hu & Hl & Hm); [zdivmod|].
  unfold p, frag_packet, packet_hdr, ip_hdr_out. set (t := if more then _ else _) in *.
  match goal with |- context [frag_hdr (ip_hdr ?v ?w ?l ?i ?o ?tt ?pr ?c ?s ?e) t (zlen y)] => destruct (frag_hdr_eq v w l i o tt pr c s e t (zlen y)) as (c' & Hc' & Eh) end.
  rewrite Eh. unfold IP_HLEN in *. change (u8 (Z.lor (Z.shiftl 4 4) (20 / 4))) with 0x45. assert (is_u16 (zlen y + 20)) by (unfold is_u16; lia). rewrite (u16_small (zlen y + 20)) by done.
  destruct (ip_hdr_fields 0x45 tos (lwip_htons (zlen y + 20)) (lwip_htons id) (lwip_htons t) ttl proto c' src dest y) as (Ev & El & _ & Eo & _); [by try apply htons_u16..|].
  unfold IPH_OFFSET_BYTES, IPH_HL_BYTES, IPH_HL. rewrite Ev, El, Eo, !htons_twice by done. rewrite Hl, Hm. split_and!; try done.
  - exists (zlen y + 20), t, c'. split_and!; done.
  - rewrite u16_small by (unfold is_u16; zdivmod). zdivmod.
Qed.

Lemma hdr_of_match h h' rest : hdr_of h -> hdr_of h' -> IP_ADDRESSES_AND_ID_MATCH h (h' ++ rest) = true.
Proof.
  intros (t & o & c & Ht & Ho & Hc & ->) (t' & o' & c' & Ht' & Ho' & Hc' & ->). unfold IP_ADDRESSES_AND_ID_MATCH.
  rewrite <- (app_nil_r (ip_hdr _ _ (lwip_htons t) _ _ _ _ _ _ _)).
  destruct (ip_hdr_fields 0x45 tos (lwip_htons t) (lwip_htons id) (lwip_htons o) ttl proto c src dest []) as (_ & _ & -> & _ & _ & _ & _ & -> & ->); [by try apply htons_u16..|].
  destruct (ip_hdr_fields 0x45 tos (lwip_htons t') (lwip_htons id) (lwip_htons o') ttl proto c' src dest rest) as (_ & _ & -> & _ & _ & _ & _ & -> & ->); [by try apply htons_u16..|].
  by rewrite !Z.eqb_refl.
Qed.

Lemma hdr_of_other r h h' rest : hdr_of h -> hdr_of h' -> IP_ADDRESSES_AND_ID_MATCH r (h ++ rest) = IP_ADDRESSES_AND_ID_MATCH r h'.
Proof.
  intros (t & o & c & Ht & Ho & Hc & ->) (t' & o' & c' & Ht' & Ho' & Hc' & ->). unfold IP_ADDRESSES_AND_ID_MATCH.
  destruct (ip_hdr_fields 0x45 tos (lwip_htons t) (lwip_htons id) (lwip_htons o) ttl proto c src dest rest) as (_ & _ & -> & _ & _ & _ & _ & -> & ->); [by try apply htons_u16..|].
  rewrite <- (app_nil_r (ip_hdr _ _ (lwip_htons t') _ _ _ _ _ _ _)).
  destruct (ip_hdr_fields 0x45 tos (lwip_htons t') (lwip_htons id) (lwip_htons o') ttl proto c' src dest []) as (_ & _ & -> & _ & _ & _ & _ & -> & ->); [by try apply htons_u16..|].
  done.
Qed.

Lemma hdr_of_reass h n : hdr_of h -> is_u16 n -> reass_hdr h n = ip_hdr_out tos n id ttl proto src dest.
Proof. intros (t & o & c & Ht & Ho & Hc & ->) Hn. by apply reass_hdr_eq. Qed.

Lemma packet_hdr_of : hdr_of packet_hdr.
Proof.
  eexists (IP_HLEN + zlen d), 0, _. split_and!; [|done| |reflexivity].
  - unfold is_u16, IP_HLEN in *. pose proof (zlen_nonneg d). lia.
  - apply u16_range.
Qed.

(** ** Taking them in, one by one *)

Context (pre : list (Z * list Z * bool)) (lst : Z * list Z * bool) (s0 : reass).
Let F : list frag := piece_frag <$> pre ++ [lst].
Context (Hok : Forall piece_ok (pre ++ [lst])) (Hpre : Forall (fun x => snd x = true) pre) (Hlst : snd lst = false).
Context (Hseq : sequel 0 F) (Hd : concat (fr_data <$> F) = d).

Context (Hclen : forall f, f ∈ F -> 0 < fr_clen f).
Context (Hcount : 0 <= ip_reass_pbufcount s0) (Hsum : ip_reass_pbufcount s0 + fsum F <= IP_REASS_MAX_PBUFS).
Context (Hroom : reassdata_free s0 = true) (Hno : forall r, r ∈ reassdatagrams s0 -> IP_ADDRESSES_AND_ID_MATCH (rd_iphdr r) packet_hdr = false).
Let e : Z := fr_start (piece_frag lst).

(** The datagram when the fragments that begin at [K] are there, and the state. *)
Definition datagram_at (K : list Z) (h : list Z) : ip_reassdata :=
  mk_reassdata (here K F) h (if decide (e ∈ K) then zlen d else 0) (if decide (e ∈ K) then IP_REASS_FLAG_LASTFRAG else 0) IP_REASS_MAXAGE.
Definition state_at (r : ip_reassdata) : reass :=
  mk_reass (r :: reassdatagrams s0) (ip_reass_pbufcount s0 + fsum (rd_p r)) (rs_exceeded s0).
Definition rstate (K : list Z) (s : reass) : Prop :=
  match K with [] => s = s0 | _ => exists h, hdr_of h /\ s = state_at (datagram_at K h) end.

(** The datagram is found, or made. *)
Lemma reass_datagram_at K s x p : rstate K s -> piece_ok x -> p = frag_packet packet_hdr x ->
  exists h, hdr_of h /\ reass_datagram p (clen (fst (fst x))) s = Some (Some (0%nat, datagram_at K h), state_at (datagram_at K h)).
Proof.
  intros Hs Hx ->. destruct x as [[a y] more]. destruct (frag_packet_fields a y more Hx) as (Hh & _). set (p := frag_packet _ _) in *.
  unfold reass_datagram. destruct K as [|k K].
  - cbn in Hs. subst s. assert (find_datagram p (reassdatagrams s0) 0 = None) as ->.
    { generalize 0%nat. revert Hno. induction (reassdatagrams s0) as [|r l IH]; intros Hn i; [done|]. cbn [find_datagram].
      rewrite <- (take_drop 20 p), (hdr_of_other _ _ _ _ Hh packet_hdr_of), (Hn r) by left. rewrite take_drop. apply IH. intros r' Hr'. apply Hn. by right. }
    unfold ip_reass_enqueue_new_datagram. rewrite Hroom. cbn. exists (take 20 p). split; [done|].
    unfold state_at, datagram_at. rewrite here_nil. rewrite decide_False by apply not_elem_of_nil. rewrite decide_False by apply not_elem_of_nil. cbn [rd_p fsum foldr]. rewrite Z.add_0_r. done.
  - destruct Hs as (h & Hhd & ->). assert (IP_ADDRESSES_AND_ID_MATCH h p = true) as Em by (rewrite <- (take_drop 20 p); by apply hdr_of_match).
    cbn [reassdatagrams state_at find_datagram rd_iphdr datagram_at]. rewrite Em.
    match goal with |- context [if ?b then _ else _] => destruct b end; [exists (take 20 p)|exists h]; (split; [done|reflexivity]).
Qed.

Lemma piece_frag_in x : x ∈ pre ++ [lst] -> piece_frag x ∈ F.
Proof. intros Hx. unfold F. by apply list_elem_of_fmap_2. Qed.

(** The last piece is the one marked so. *)
Lemma piece_last x : x ∈ pre ++ [lst] -> (snd x = true /\ fr_start (piece_frag x) <> e) \/ x = lst.
Proof.
  intros [Hx| ->%list_elem_of_singleton]%elem_of_app; [left|by right]. split; [by rewrite Forall_forall in Hpre; apply Hpre|].
  unfold F in Hseq. rewrite fmap_app in Hseq. cbn [fmap list_fmap] in Hseq. destruct (sequel_split _ _ _ _ Hseq) as (H1 & _).
  specialize (H1 (piece_frag x) (list_elem_of_fmap_2 _ _ _ Hx)). unfold e. lia.
Qed.

Lemma piece_last_end : fr_end (piece_frag lst) = zlen d.
Proof.
  rewrite <- Hd. unfold F in *. rewrite fmap_app in *. cbn [fmap list_fmap] in *. rewrite (sequel_end _ _ _ Hseq); [done|].
  intros g Hg. change [piece_frag lst] with (piece_frag <$> [lst]) in Hg. rewrite <- fmap_app in Hg. by apply list_elem_of_fmap in Hg as ([[a y] m] & -> & _).
Qed.

Lemma here_e K : here K F = F -> e ∈ K.
Proof. intros Ha. rewrite here_all in Ha. apply Ha. apply piece_frag_in, elem_of_app. right. by left. Qed.

(** The code's verdict: finished when they are all there. *)
Lemma verdict A f B K : F = A ++ f :: B -> fr_start f ∉ K -> let K' := fr_start f :: K in
  (if bool_decide (e ∈ K')
   then gapless (here K A ++ [f]) && match here K' F with g :: _ => fr_start g =? 0 | [] => false end && no_hole f (here K B) else false) = true <-> here K' F = F.
Proof.
  intros EF Hf K'. assert (here K' F = here K A ++ f :: here K B) as Eh by (rewrite EF; apply here_insert; by rewrite <- EF).
  case_bool_decide as He; [|split; [done|]; intros Ha; exfalso; by apply He, here_e].
  assert (F = (piece_frag <$> pre) ++ [piece_frag lst]) as EF2 by (unfold F; by rewrite fmap_app). pose proof Hseq as Hsq. rewrite EF2 in Hsq.
  pose proof (complete_iff _ _ K' Hsq He) as Hc. rewrite <- EF2, Eh, gapless_app in Hc. rewrite Eh, <- Hc.
  by rewrite <- !andb_assoc, (andb_comm (no_hole _ _)).
Qed.

Lemma fsum_insert A f B K : F = A ++ f :: B -> fr_start f ∉ K -> fsum (here (fr_start f :: K) F) = fsum (here K F) + fr_clen f.
Proof.
  intros EF Hf. assert (here (fr_start f :: K) F = here K A ++ f :: here K B) as -> by (rewrite EF; apply here_insert; by rewrite <- EF).
  rewrite EF, here_without, !fsum_app by done. cbn [fsum foldr]. fold (fsum (here K B)). lia.
Qed.

(** What the code makes of the datagram: its flags and its length. *)
Lemma put_datagram a n K h : (e = a -> n = zlen d) ->
  (if bool_decide (e = a) then (datagram_at K h) <| rd_p := here (a :: K) F |> <| rd_datagram_len := n |>
      <| rd_flags := Z.lor (rd_flags ((datagram_at K h) <| rd_p := here (a :: K) F |>)) IP_REASS_FLAG_LASTFRAG |>
   else (datagram_at K h) <| rd_p := here (a :: K) F |>) = datagram_at (a :: K) h.
Proof.
  intros Hn. unfold datagram_at. case_bool_decide as He.
  - rewrite (decide_True (P := e ∈ a :: K)), (decide_True (P := e ∈ a :: K)) by (rewrite He; left). rewrite <- (Hn He). cbn. by case_decide.
  - transitivity (mk_reassdata (here (a :: K) F) h (if decide (e ∈ K) then zlen d else 0) (if decide (e ∈ K) then IP_REASS_FLAG_LASTFRAG else 0) IP_REASS_MAXAGE); [done|].
    f_equal; apply decide_ext; rewrite elem_of_cons; tauto.
Qed.

Lemma reass_put_at x K h : x ∈ pre ++ [lst] -> fr_start (piece_frag x) ∉ K -> hdr_of h ->
  let p := frag_packet packet_hdr x in let K' := fr_start (piece_frag x) :: K in let c := clen (fst (fst x)) in
  let r := reass_put p c 0 (datagram_at K h) (state_at (datagram_at K h)) in
  (here K' F = F -> r = (Some (reass_chain packet_hdr (fr_data <$> F)), s0)) /\ (here K' F <> F -> r = (None, state_at (datagram_at K' h))).
Proof.
  intros Hx Hk Hh p K' c r. pose proof (piece_frag_in x Hx) as Hin. apply list_elem_of_split in Hin as (A & B & EF).
  pose proof Hok as Hx2. rewrite Forall_forall in Hx2. specialize (Hx2 x Hx). pose proof (piece_last x Hx) as Hlast.
  pose proof (verdict A _ B K EF Hk) as Hv. pose proof (put_in_place A (piece_frag x) B K) as Hput. rewrite <- EF in Hput. specialize (Hput Hseq Hk). pose proof (fsum_insert A _ B K EF Hk) as Hfs. destruct x as [[a y] more]. destruct (frag_packet_fields a y more Hx2) as (_ & Ed & Ehl & El & Eo & Em).
  destruct Hx2 as (Ha & Ha8 & Hy & Ht). cbn [piece_frag fr_start fst snd] in *. set (f := piece_frag (a, y, more)) in *. fold K' in Hv.
  assert (more = negb (bool_decide (e = a))) as Emore.
  { destruct Hlast as [[-> ?]|E]; [by rewrite bool_decide_eq_false_2|]. rewrite <- E in Hlst. cbn in Hlst. by rewrite Hlst, bool_decide_eq_true_2 by (unfold e; by rewrite <- E). }
  assert (e = a -> a + zlen y = zlen d) as Eend by (intros ->; destruct Hlast as [[_ ?]|E]; [done|]; rewrite <- piece_last_end, <- E; done).
  unfold r, reass_put, ip_reass_chain_frag_into_datagram_and_validate, p. change (Z.to_nat IP_HLEN) with 20%nat. rewrite Ed, Ehl, El, Eo, Em. unfold IP_HLEN in *.
  replace (zlen y + 20 - 20) with (zlen y) by lia. rewrite (u16_small (zlen y)), (u16_small (a + zlen y)) by (unfold is_u16; lia).
  replace (zlen y + 20 <? 20) with false by lia. replace ((a + zlen y <? a) || (65535 - 20 <? a + zlen y)) with false by lia. rewrite andb_false_r. cbn [fr_end].
  replace (a + zlen y <? a) with false by lia. change (mk_frag a (a + zlen y) y c) with f. cbn [rd_p datagram_at].
  assert (chain_frag f None (here K F) true = Some (here K' F, here K B, gapless (here K A ++ [f]))) as -> by exact Hput.
  assert (negb more || negb (Z.land (if decide (e ∈ K) then IP_REASS_FLAG_LASTFRAG else 0) IP_REASS_FLAG_LASTFRAG =? 0) = bool_decide (e ∈ K')) as Eflag.
  { rewrite Emore, negb_involutive. apply flag_in. }
  cbv zeta. change (rd_flags ((datagram_at K h) <| rd_p := here K' F |>)) with (if decide (e ∈ K) then IP_REASS_FLAG_LASTFRAG else 0). rewrite Eflag.
  set (V := if bool_decide (e ∈ K') then _ else false) in Hv.
  match goal with |- context [if bool_decide (e ∈ K') then Some (?i, ?v) else Some (?i, false)] => replace (if bool_decide (e ∈ K') then Some (i, v) else Some (i, false)) with (Some (i, V)) by (unfold V; by destruct (bool_decide _)) end.
  pose proof (put_datagram a (a + zlen y) K h Eend) as Epd. rewrite Emore, negb_involutive. fold K' in Epd.
  rewrite Epd.
  change (fsum (here K' F) = fsum (here K F) + c) in Hfs. assert (u16 (ip_reass_pbufcount (state_at (datagram_at K h)) + c) = ip_reass_pbufcount s0 + fsum (here K' F)) as ->.
  { cbn [ip_reass_pbufcount state_at rd_p datagram_at]. rewrite u16_small; [lia|]. pose proof (fsum_here K' F Hclen). unfold is_u16. unfold IP_REASS_MAX_PBUFS in *. lia. }
  split; intros Hall.
  - rewrite (proj2 Hv Hall). cbn [rd_iphdr rd_datagram_len rd_p datagram_at state_at reassdatagrams ip_reass_pbufcount rs_exceeded]. rewrite Hall.
    rewrite decide_True by (by apply here_e). rewrite hdr_of_reass, clen_sum_fsum by (try done; unfold is_u16, IP_REASS_MAX_PBUFS in *; try apply u16_range; lia).
    pose proof (fsum_here K' F Hclen) as Hf. replace (ip_reass_pbufcount s0 + fsum F - fsum F) with (ip_reass_pbufcount s0) by lia.
    unfold IP_REASS_MAX_PBUFS in *. rewrite !u16_small by (unfold is_u16; pose proof (zlen_nonneg d); lia). unfold packet_hdr. rewrite (Z.add_comm (zlen d)).
    f_equal. exact (reass_eta s0).
  - destruct V; [exfalso; by apply Hall, Hv|done].
Qed.

(** A fragment that was not there yet. *)
Lemma ip4_reass_at x K s : rstate K s -> x ∈ pre ++ [lst] -> fr_start (piece_frag x) ∉ K ->
  let K' := fr_start (piece_frag x) :: K in let r := ip4_reass (frag_packet packet_hdr x) (clen (fst (fst x))) s in
  (here K' F = F -> r = Some (Some (reass_chain packet_hdr (fr_data <$> F)), s0)) /\ (here K' F <> F -> exists s', r = Some (None, s') /\ rstate K' s').
Proof.
  intros Hs Hx Hk K' r. pose proof Hok as Hx2. rewrite Forall_forall in Hx2. specialize (Hx2 x Hx).
  destruct (reass_datagram_at K s x _ Hs Hx2 eq_refl) as (h & Hh & Edg). destruct (reass_put_at x K h Hx Hk Hh) as [Hput1 Hput2]. fold K' in Hput1, Hput2.
  assert (r = Some (reass_put (frag_packet packet_hdr x) (clen (fst (fst x))) 0 (datagram_at K h) (state_at (datagram_at K h)))) as ->.
  { unfold r, ip4_reass. destruct x as [[a y] more]. destruct (frag_packet_fields a y more Hx2) as (_ & _ & -> & -> & _).
    rewrite Z.eqb_refl. cbn [negb]. pose proof (zlen_nonneg y). replace (zlen y + IP_HLEN <? IP_HLEN) with false by lia.
    assert (reass_room (frag_packet packet_hdr (a, y, more)) (clen a) s = Some (true, s)) as Er; [|cbn [fst] in *; by rewrite Er, Edg].
    unfold reass_room. replace (_ <? _) with false; [done|]. symmetry. apply Z.ltb_ge. pose proof (piece_frag_in _ Hx) as Hin. apply list_elem_of_split in Hin as (A & B & EF).
    pose proof (fsum_insert A _ B K EF Hk) as Hfs. pose proof (fsum_here (fr_start (piece_frag (a, y, more)) :: K) F Hclen). cbn [fr_clen piece_frag] in Hfs.
    assert (ip_reass_pbufcount s = ip_reass_pbufcount s0 + fsum (here K F)) as ->; [|cbn [fst piece_frag fr_start] in *; lia].
    destruct K; [rewrite here_nil; cbn in Hs; subst s; cbn [fsum foldr]; lia|]. by destruct Hs as (h' & _ & ->). }
  split; intros Hall; [by rewrite Hput1|]. eexists. split; [by rewrite Hput2|]. exists h. by split.
Qed.

(** The rest of the fragments, in whatever order. *)
Lemma reass_all_at ys : forall K s, rstate K s -> ys <> [] -> NoDup ((fr_start ∘ piece_frag <$> ys) ++ K) -> (forall x, x ∈ ys -> x ∈ pre ++ [lst]) ->
  (forall x, x ∈ pre ++ [lst] -> x ∈ ys \/ fr_start (piece_frag x) ∈ K) ->
  reass_all ((fun x => (frag_packet packet_hdr x, clen (fst (fst x)))) <$> ys) s = Some (repeat None (pred (length ys)) ++ [Some (reass_chain packet_hdr (fr_data <$> F))], s0).
Proof.
  induction ys as [|x ys IH]; intros K s Hs Hne Hnd Hin Hall; [done|]. cbn [fmap list_fmap reass_all app] in *.
  apply NoDup_cons in Hnd as [Hnx Hnd]. rewrite not_elem_of_app in Hnx. destruct Hnx as [Hny Hnk].
  destruct (ip4_reass_at x K s Hs (Hin x (list_elem_of_here _ _)) Hnk) as [H1 H2]. set (K' := _ :: K) in *. destruct ys as [|y ys].
  - rewrite H1; [done|]. apply here_all. intros f Hf. unfold F in Hf. apply list_elem_of_fmap in Hf as (z & -> & Hz).
    destruct (Hall z Hz) as [->%list_elem_of_singleton|Hk]; [left|by right].
  - destruct H2 as (s' & -> & Hs'); [|rewrite (IH K' s'); try done].
    + intros Ha. rewrite here_all in Ha. pose proof (Ha _ (piece_frag_in y (Hin y (list_elem_of_further _ _ _ (list_elem_of_here _ _))))) as Hy.
      apply elem_of_cons in Hy as [Hy|Hy]; [apply Hny, elem_of_cons; by left|]. apply NoDup_app in Hnd as (_ & Hnd & _). apply (Hnd _ (list_elem_of_here _ _) Hy).
    + apply NoDup_app in Hnd as (Hn1 & Hn2 & Hn3). apply NoDup_app. split_and!; [done| |by apply NoDup_cons]. intros z Hz [->|Hk]%elem_of_cons; [done|by apply (Hn2 z)].
    + intros z Hz. apply Hin. by right.
    + intros z Hz. destruct (Hall z Hz) as [[->|?]%elem_of_cons|?]; [right; left|by left|right; by right].
Qed.
End packet.
