(* ===== verification/Ip4ReassInv.v ===== *)
(** * Ip4ReassInv: the bounds of the reassembly

    Whatever comes in, in whatever order, with the timer going off in between: each call
    comes back, the fragments that wait do not overlap, their buffers are counted exactly
    and are never more than [IP_REASS_MAX_PBUFS], and no datagram waits longer than
    [IP_REASS_MAXAGE] ticks. *)

From S2P Require Import Prelude Chksum Pbuf PbufData Inet Ip4Hdr Ip4Frag Ip4FragProps Ip4Reass.

(** ** The invariant *)

Definition frag_ok (f : frag) : Prop := 0 <= fr_start f <= fr_end f /\ fr_end f < 65536 /\ 0 < fr_clen f.

(** No two fragments overlap, and each begins behind the one before. *)
Fixpoint spaced (l : list frag) : Prop :=
  match l with
  | [] => True
  | f :: l => frag_ok f /\ (forall g, g ∈ l -> fr_start f < fr_start g /\ fr_end f <= fr_start g) /\ spaced l
  end.

Definition hdr_key (h : list Z) : Z * Z * Z := (IPH_SRC h, IPH_DEST h, IPH_ID h).
Definition total (l : list ip_reassdata) : Z := foldr (fun r n => fsum (rd_p r) + n) 0 l.

(** The fragment a packet is. *)
Definition new_frag (p : list Z) (clen : Z) : frag :=
  mk_frag (IPH_OFFSET_BYTES p) (u16 (IPH_OFFSET_BYTES p + u16 (lwip_htons (IPH_LEN p) - IPH_HL_BYTES p))) (drop (Z.to_nat IP_HLEN) p) clen.

Section invariant.
(** What is known of the fragments that wait for the packet of a key. *)
Context (Q : Z * Z * Z -> frag -> Prop).

Definition datagram_ok (r : ip_reassdata) : Prop :=
  (spaced (rd_p r) /\ 0 <= rd_timer r <= IP_REASS_MAXAGE) /\ (forall f, f ∈ rd_p r -> Q (hdr_key (rd_iphdr r)) f).

(** The datagrams, when those in [E] may be without a fragment. *)
Record reass_ok_but (empty : ip_reassdata -> Prop) (s : reass) : Prop := {
  ok_datagrams : Forall (fun r => datagram_ok r /\ (rd_p r <> [] \/ empty r)) (reassdatagrams s);
  ok_keys : NoDup (hdr_key ∘ rd_iphdr <$> reassdatagrams s);
  ok_few : zlen (reassdatagrams s) <= MEMP_NUM_REASSDATA;
  ok_count : ip_reass_pbufcount s = total (reassdatagrams s);
  ok_max : ip_reass_pbufcount s <= IP_REASS_MAX_PBUFS }.
Definition reass_ok : reass -> Prop := reass_ok_but (fun _ => False).

Lemma match_key a b : IP_ADDRESSES_AND_ID_MATCH a b = true <-> hdr_key a = hdr_key b.
Proof. unfold IP_ADDRESSES_AND_ID_MATCH, hdr_key. rewrite !andb_true_iff, !Z.eqb_eq. split; [by intros [[-> ->] ->]|by intros [= -> -> ->]]. Qed.

Lemma key_take p : hdr_key (take 20 p) = hdr_key p.
Proof.
  assert (forall off n : nat, (off + n <= 20)%nat -> mem_read (Z.of_nat off) (Z.of_nat n) (take 20 p) = mem_read (Z.of_nat off) (Z.of_nat n) p) as H.
  { intros off n Hle. rewrite !mem_read_take, !Nat2Z.id. rewrite skipn_firstn_comm, take_take. f_equal. lia. }
  unfold hdr_key, IPH_SRC, IPH_DEST, IPH_ID. f_equal; [f_equal|]; f_equal; [apply (H 12%nat 4%nat)|apply (H 16%nat 4%nat)|apply (H 4%nat 2%nat)]; lia.
Qed.

(** ** Sums *)

Lemma held_app l k : total (l ++ k) = total l + total k.
Proof. induction l as [|r l IH]; [done|]. cbn [app total foldr]. fold (total (l ++ k)) (total l). lia. Qed.

Lemma spaced_clen l : spaced l -> forall f, f ∈ l -> 0 < fr_clen f.
Proof. induction l as [|g l IH]; intros Hs f Hf; [by apply not_elem_of_nil in Hf|]. destruct Hs as ((_ & _ & Hg) & _ & Hs). apply elem_of_cons in Hf as [->|Hf]; auto. Qed.

Lemma fsum_pos l : spaced l -> 0 <= fsum l /\ (l <> [] -> 0 < fsum l).
Proof.
  induction l as [|g l IH]; intros Hs; [done|]. destruct Hs as ((_ & _ & Hg) & _ & Hs). destruct (IH Hs) as [H _].
  cbn [fsum foldr]. fold (fsum l). split; [lia|]. intros _. lia.
Qed.

Lemma total_pos l : Forall datagram_ok l -> 0 <= total l.
Proof. induction 1 as [|r l [[Hr _] _] _ IH]; [done|]. cbn [total foldr]. fold (total l). pose proof (proj1 (fsum_pos _ Hr)). lia. Qed.

Lemma ok_ok E s : reass_ok_but E s -> Forall datagram_ok (reassdatagrams s).
Proof. intros []. eapply Forall_impl; [exact ok_datagrams0|]. by intros r [? _]. Qed.

(** The number of buffers does not wrap. *)
Lemma ok_clen_sum E s r : reass_ok_but E s -> r ∈ reassdatagrams s -> clen_sum (rd_p r) = fsum (rd_p r) /\ 0 <= fsum (rd_p r) <= ip_reass_pbufcount s.
Proof.
  intros Hok Hr. pose proof (ok_ok _ _ Hok) as Hl. destruct Hok as [_ _ _ Hc Hm]. apply list_elem_of_split in Hr as (l1 & l2 & E1). rewrite E1 in *.
  apply Forall_app in Hl as [Hl1 [Hr Hl2]%Forall_cons]. rewrite held_app in Hc. cbn [total foldr] in Hc. fold (total l2) in Hc.
  pose proof (total_pos _ Hl1). pose proof (total_pos _ Hl2). destruct Hr as [[Hr _] _]. pose proof (proj1 (fsum_pos _ Hr)). unfold IP_REASS_MAX_PBUFS in *.
  split; [|lia]. apply clen_sum_fsum; [by apply spaced_clen|lia].
Qed.

(** ** Giving datagrams up *)

(** The other datagrams are others: their keys differ. *)
Lemma ok_split E s i r : reass_ok_but E s -> reassdatagrams s !! i = Some r ->
  exists l1 l2, reassdatagrams s = l1 ++ r :: l2 /\ i = length l1 /\ (forall x, x ∈ l1 ++ l2 -> datagram_ok x /\ (rd_p x <> [] \/ E x) /\ (x <> r)) /\ datagram_ok r /\
    NoDup (hdr_key ∘ rd_iphdr <$> l1 ++ l2) /\ (hdr_key (rd_iphdr r) ∉ (hdr_key ∘ rd_iphdr <$> l1 ++ l2)) /\
    zlen (l1 ++ l2) + 1 <= MEMP_NUM_REASSDATA /\ ip_reass_pbufcount s = total (l1 ++ l2) + fsum (rd_p r).
Proof.
  intros [Hl Hk Hf Hc Hm] Hi. apply list_elem_of_split_length in Hi as (l1 & l2 & E1 & E2). exists l1, l2. rewrite E1 in *.
  assert (l1 ++ r :: l2 ≡ₚ r :: l1 ++ l2) as Hp by (symmetry; apply Permutation_middle).
  rewrite Hp in Hl, Hk. apply Forall_cons in Hl as [[Hr _] Hl]. cbn [fmap list_fmap] in Hk. apply NoDup_cons in Hk as [Hk1 Hk2].
  split_and!; try done.
  - intros x Hx. rewrite Forall_forall in Hl. destruct (Hl x Hx) as [H1 H2]. split_and!; [done|done|]. intros ->. apply Hk1. apply list_elem_of_fmap. by exists r.
  - rewrite zlen_app, zlen_cons in Hf. rewrite zlen_app. lia.
  - rewrite Hc, !held_app. cbn [total foldr]. fold (total l2). lia.
Qed.

Lemma ok_delete (E E' : ip_reassdata -> Prop) s i r x : reass_ok_but E s -> reassdatagrams s !! i = Some r -> (forall r0, E r0 -> r0 <> r -> E' r0) ->
  reass_ok_but E' (mk_reass (delete i (reassdatagrams s)) (u16 (ip_reass_pbufcount s - clen_sum (rd_p r))) x).
Proof.
  intros Hok Hi HE. destruct (ok_clen_sum _ _ _ Hok (list_elem_of_lookup_2 _ _ _ Hi)) as [-> Hn]. pose proof (ok_max _ _ Hok) as Hm.
  destruct (ok_split _ _ _ _ Hok Hi) as (l1 & l2 & -> & -> & Hl & Hr & Hk & _ & Hz & Hc). rewrite delete_middle. unfold IP_REASS_MAX_PBUFS in *. rewrite u16_small by (unfold is_u16; lia).
  split; cbn [reassdatagrams ip_reass_pbufcount]; unfold IP_REASS_MAX_PBUFS; try (done || lia).
  apply Forall_forall. intros y Hy. destruct (Hl y Hy) as (H1 & H2 & H3). split; [done|]. destruct H2; auto.
Qed.

Lemma ok_replace (E E' : ip_reassdata -> Prop) s i r r' c x : reass_ok_but E s -> reassdatagrams s !! i = Some r -> (forall r0, E r0 -> r0 <> r -> E' r0) ->
  hdr_key (rd_iphdr r') = hdr_key (rd_iphdr r) -> datagram_ok r' -> rd_p r' <> [] \/ E' r' ->
  c = ip_reass_pbufcount s - fsum (rd_p r) + fsum (rd_p r') -> c <= IP_REASS_MAX_PBUFS ->
  reass_ok_but E' (mk_reass (<[i := r']> (reassdatagrams s)) c x).
Proof.
  intros Hok Hi HE Ek Hr' Hne -> Hmax. destruct (ok_split _ _ _ _ Hok Hi) as (l1 & l2 & -> & -> & Hl & Hr & Hk & Hkr & Hz & Hc).
  replace (length l1) with (length l1 + 0)%nat by lia. rewrite insert_app_r. cbn [list_insert insert]. assert (l1 ++ r' :: l2 ≡ₚ r' :: l1 ++ l2) as Hp by (symmetry; apply Permutation_middle).
  split; cbn [reassdatagrams ip_reass_pbufcount]; try done.
  - rewrite Hp. constructor; [done|]. apply Forall_forall. intros y Hy. destruct (Hl y Hy) as (H1 & H2 & H3). split; [done|]. destruct H2; auto.
  - rewrite Hp. cbn [fmap list_fmap]. apply NoDup_cons. cbn [compose]. by rewrite Ek.
  - rewrite zlen_app, zlen_cons. rewrite zlen_app in Hz. lia.
  - rewrite Hc, !held_app. cbn [total foldr]. fold (total l2). lia.
Qed.

Lemma free_datagram E s i r : reass_ok_but E s -> reassdatagrams s !! i = Some r -> rd_p r <> [] ->
  exists n s1, ip_reass_free_complete_datagram r s = Some (n, s1) /\ 0 < n /\ n = ip_reass_pbufcount s - ip_reass_pbufcount s1 /\
    reass_ok_but E (s1 <| reassdatagrams := delete i (reassdatagrams s1) |>) /\ reassdatagrams s1 = reassdatagrams s.
Proof.
  intros Hok Hi Hne. pose proof (list_elem_of_lookup_2 _ _ _ Hi) as Hin. destruct (ok_clen_sum _ _ _ Hok Hin) as [Ec Hn].
  assert (0 < fsum (rd_p r)) as Hpos. { pose proof (ok_ok _ _ Hok) as Hl. rewrite Forall_forall in Hl. by apply (fsum_pos _ (proj1 (proj1 (Hl r Hin)))). }
  pose proof (ok_max _ _ Hok) as Hm. unfold ip_reass_free_complete_datagram. destruct (rd_p r) as [|f l] eqn:Ep; [done|]. rewrite <- Ep in *.
  pose proof (fun x => ok_delete E E s i r x Hok Hi (fun r0 H _ => H)) as Hdel. rewrite Ec in *. unfold IP_REASS_MAX_PBUFS in *.
  eexists _, _. split; [done|]. split; [done|].
  destruct (fr_start f =? 0); cbn [ip_reass_pbufcount setf]; (split; [|split; [apply Hdel; done|done]]);
    change (fsum (rd_p r) = ip_reass_pbufcount s - u16 (ip_reass_pbufcount s - fsum (rd_p r))); rewrite u16_small by (unfold is_u16; lia); lia.
Qed.

(** The sweep finds another datagram, if there is one. *)
Definition others (h : list Z) (l : list ip_reassdata) : Z := zlen (filter (fun r => IP_ADDRESSES_AND_ID_MATCH (rd_iphdr r) h = false) l).

Lemma oldest_loop_spec h l : forall l0 oldest n,
  (forall j r, oldest = Some (j, r) -> l0 !! j = Some r) -> (oldest = None <-> n = 0) -> 0 <= n ->
  exists oldest', oldest_loop h l (length l0) oldest n = (oldest', n + others h l) /\
    (forall j r, oldest' = Some (j, r) -> (l0 ++ l) !! j = Some r) /\ (oldest' = None <-> n + others h l = 0).
Proof.
  induction l as [|r l IH]; intros l0 oldest n Ho Hn0 Hn; cbn [oldest_loop].
  - exists oldest. unfold others. rewrite Z.add_0_r, app_nil_r. by split_and!.
  - unfold others. rewrite filter_cons. replace (S (length l0)) with (length (l0 ++ [r])) by (rewrite length_app; cbn; lia).
    assert (forall j r', oldest = Some (j, r') -> (l0 ++ [r]) !! j = Some r') as Ho' by (intros j r' Hj%Ho; by apply lookup_app_l_Some).
    destruct (IP_ADDRESSES_AND_ID_MATCH (rd_iphdr r) h) eqn:Em; cbn [negb].
    + rewrite decide_False by done. fold (others h l). destruct (IH (l0 ++ [r]) oldest n Ho' Hn0 Hn) as (o' & -> & H1 & H2).
      exists o'. rewrite <- app_assoc in H1. done.
    + rewrite decide_True by done. rewrite zlen_cons. fold (others h l). rewrite Z.add_assoc. set (o1 := match oldest with Some _ => _ | None => _ end).
      assert ((l0 ++ [r]) !! length l0 = Some r) as Hr by (rewrite lookup_app_r, Nat.sub_diag by done; done).
      destruct (IH (l0 ++ [r]) o1 (n + 1)) as (o' & E & H1 & H2).
      * intros j r' Hj. unfold o1 in Hj. destruct oldest as [[j0 r0]|]; [|by injection Hj as <- <-]. destruct (rd_timer r <=? rd_timer r0); [by injection Hj as <- <-|by apply Ho'].
      * split; [|lia]. unfold o1. destruct oldest as [[j0 r0]|]; [by case_match|done].
      * lia.
      * exists o'. rewrite <- app_assoc in H1. split_and!; done.
Qed.

Lemma others_le h l : 0 <= others h l <= zlen l.
Proof. unfold others. pose proof (length_filter (fun r => IP_ADDRESSES_AND_ID_MATCH (rd_iphdr r) h = false) l). unfold zlen. lia. Qed.

Lemma remove_oldest_ok h need fuel : forall freed s, reass_ok s -> (length (reassdatagrams s) < fuel)%nat ->
  exists n s', remove_oldest_loop fuel h need freed s = Some (n, s') /\ reass_ok s' /\ n - freed = ip_reass_pbufcount s - ip_reass_pbufcount s' /\ freed <= n /\
    reassdatagrams s' ⊆ reassdatagrams s.
Proof.
  induction fuel as [|fuel IH]; intros freed s Hok Hf; [lia|]. cbn [remove_oldest_loop].
  destruct (oldest_loop_spec h (reassdatagrams s) [] None 0) as (o & E & H1 & H2); [done|done|lia|]. cbn [length app] in E, H1. rewrite E. rewrite Z.add_0_l in *.
  destruct o as [[i r]|].
  - specialize (H1 i r eq_refl). pose proof (ok_datagrams _ _ Hok) as Hl. rewrite Forall_forall in Hl. destruct (Hl r (list_elem_of_lookup_2 _ _ _ H1)) as [_ [Hne|[]]].
    destruct (free_datagram _ s i r Hok H1 Hne) as (n & s1 & Ef & Hn & En & Hok1 & Ed). rewrite Ef. set (s2 := s1 <| reassdatagrams := _ |>) in *.
    assert (ip_reass_pbufcount s2 = ip_reass_pbufcount s1) as Ec by done. assert (length (reassdatagrams s2) < fuel)%nat as Hf2.
    { change (length (delete i (reassdatagrams s1)) < fuel)%nat. rewrite Ed, length_delete by (by exists r). pose proof (lookup_lt_Some _ _ _ H1). lia. }
    assert (reassdatagrams s2 ⊆ reassdatagrams s) as Hsub.
    { change (delete i (reassdatagrams s1) ⊆ reassdatagrams s). rewrite Ed. intros x Hx. by apply (sublist_subseteq _ _ (sublist_delete _ i)). }
    destruct (_ && _).
    + destruct (IH (freed + n) s2 Hok1 Hf2) as (n' & s' & -> & Hok' & E' & Hle & Hsub'). exists n', s'. split_and!; [done|done|lia|lia|by etrans].
    + exists (freed + n), s2. split_and!; [done|done|lia|lia|done].
  - assert (others h (reassdatagrams s) = 0) as -> by (by apply H2). rewrite andb_false_r. exists freed, s. split_and!; [done|done|lia|lia|done].
Qed.

Lemma room_ok p clen s : reass_ok s -> 0 < clen ->
  exists b s', reass_room p clen s = Some (b, s') /\ reass_ok s' /\ (b = true -> ip_reass_pbufcount s' + clen <= IP_REASS_MAX_PBUFS).
Proof.
  intros Hok Hc. unfold reass_room. destruct (Z.ltb_spec IP_REASS_MAX_PBUFS (ip_reass_pbufcount s + clen)) as [Hlt|Hge]; [|by exists true, s].
  destruct (remove_oldest_ok p clen (S (length (reassdatagrams s))) 0 s Hok) as (n & s' & E & Hok' & _); [lia|]. unfold ip_reass_remove_oldest_datagram. rewrite E.
  eexists _, s'. split; [done|]. split; [done|]. intros [_ H]%andb_true_iff. lia.
Qed.

(** ** The datagram of a fragment *)

Lemma find_datagram_spec h l : forall l0,
  match find_datagram h l (length l0) with
  | Some (i, r) => (l0 ++ l) !! i = Some r /\ hdr_key (rd_iphdr r) = hdr_key h
  | None => hdr_key h ∉ (hdr_key ∘ rd_iphdr <$> l)
  end.
Proof.
  induction l as [|r l IH]; intros l0; cbn [find_datagram]; [by apply not_elem_of_nil|].
  destruct (IP_ADDRESSES_AND_ID_MATCH (rd_iphdr r) h) eqn:Em.
  - rewrite lookup_app_r, Nat.sub_diag by done. split; [done|by apply match_key].
  - specialize (IH (l0 ++ [r])). rewrite length_app, Nat.add_1_r in IH. destruct (find_datagram h l _) as [[i r']|].
    + by rewrite <- app_assoc in IH.
    + cbn [fmap list_fmap]. rewrite not_elem_of_cons. split; [|done]. cbn [compose]. intros E. symmetry in E. apply match_key in E. by rewrite E in Em.
Qed.

Lemma ok_weaken E E' s : (forall r, E r -> E' r) -> reass_ok_but E s -> reass_ok_but E' s.
Proof. intros HE []. split; try done. eapply Forall_impl; [exact ok_datagrams0|]. cbn. intros r [? [?|?]]; auto. Qed.

Lemma enqueue_ok p clen s : reass_ok s -> hdr_key p ∉ (hdr_key ∘ rd_iphdr <$> reassdatagrams s) -> ip_reass_pbufcount s + clen <= IP_REASS_MAX_PBUFS ->
  exists b s', ip_reass_enqueue_new_datagram p clen s = Some (b, s') /\
    (b = false -> reass_ok s') /\
    (b = true -> let r := mk_reassdata [] (take 20 p) 0 0 IP_REASS_MAXAGE in
      reass_ok_but (eq r) s' /\ head (reassdatagrams s') = Some r /\ ip_reass_pbufcount s' + clen <= IP_REASS_MAX_PBUFS).
Proof.
  intros Hok Hk Hc. unfold ip_reass_enqueue_new_datagram. set (r := mk_reassdata _ _ _ _ _).
  assert (forall s, reass_ok s -> hdr_key p ∉ (hdr_key ∘ rd_iphdr <$> reassdatagrams s) -> reassdata_free s = true ->
    reass_ok_but (eq r) (s <| reassdatagrams := r :: reassdatagrams s |>)) as Hnew.
  { intros s' Hok' Hk' Hf. apply (ok_weaken _ (eq r)) in Hok'; [|done]. destruct Hok' as [Hl Hks Hn Hcn Hm]. unfold reassdata_free, MEMP_NUM_REASSDATA in *. split; cbn.
    - constructor; [|done]. split; [|by right]. split; [split; [done|]; unfold r, IP_REASS_MAXAGE; cbn; lia|by intros f H%not_elem_of_nil].
    - apply NoDup_cons. split; [|done]. cbn [compose rd_iphdr r]. by rewrite key_take.
    - change (zlen (r :: reassdatagrams s') <= 5). rewrite zlen_cons. lia.
    - done.
    - done. }
  destruct (reassdata_free s) eqn:Ef.
  - eexists true, _. split; [done|]. split; [done|]. intros _. cbv zeta. split_and!; [by apply Hnew|done|done].
  - destruct (remove_oldest_ok p clen (S (length (reassdatagrams s))) 0 s Hok) as (n & s' & E & Hok' & En & Hn & Hsub); [lia|]. unfold ip_reass_remove_oldest_datagram. rewrite E.
    destruct (_ && _) eqn:Eb.
    + apply andb_true_iff in Eb as [_ Ef']. eexists true, _. split; [done|]. split; [done|]. intros _. cbv zeta. split_and!; [|done|].
      * apply Hnew; [done| |done]. intros (x & Ex & Hx)%list_elem_of_fmap. apply Hk. apply list_elem_of_fmap. exists x. split; [done|by apply Hsub].
      * change (ip_reass_pbufcount s' + clen <= IP_REASS_MAX_PBUFS). lia.
    + exists false, s'. split; [done|]. by split.
Qed.

Lemma datagram_found p clen s : reass_ok s -> ip_reass_pbufcount s + clen <= IP_REASS_MAX_PBUFS ->
  exists o s', reass_datagram p clen s = Some (o, s') /\
    match o with
    | Some (i, r) => reass_ok_but (eq r) s' /\ reassdatagrams s' !! i = Some r /\ ip_reass_pbufcount s' + clen <= IP_REASS_MAX_PBUFS /\ hdr_key (rd_iphdr r) = hdr_key p
    | None => reass_ok s'
    end.
Proof.
  intros Hok Hc. unfold reass_datagram. pose proof (find_datagram_spec p (reassdatagrams s) []) as Hf. cbn [length app] in Hf. destruct (find_datagram _ _ _) as [[i r]|].
  - destruct Hf as [Hi Hkey]. eexists _, _. split; [done|]. cbv beta iota. match goal with |- context [if ?b then ?y else r] => set (r' := if b then y else r) end.
    assert (rd_p r' = rd_p r /\ rd_timer r' = rd_timer r /\ hdr_key (rd_iphdr r') = hdr_key (rd_iphdr r)) as (Ep & Et & Ek) by (unfold r'; case_match; [split_and!; [done|done|]; rewrite Hkey; exact (key_take p)|done]).
    split_and!; [|change (<[i := r']> (reassdatagrams s) !! i = Some r'); apply list_lookup_insert_eq; by eapply lookup_lt_Some|done|by rewrite Ek].
    eapply (ok_replace (fun _ => False) (eq r')); [exact Hok|exact Hi|done|done| |by right|rewrite Ep; lia|exact (ok_max _ _ Hok)].
    pose proof (ok_ok _ _ Hok) as Hl. rewrite Forall_forall in Hl. destruct (Hl r (list_elem_of_lookup_2 _ _ _ Hi)) as [[H1 H2] H3]. split; [split; [by rewrite Ep|by rewrite Et]|by rewrite Ep, Ek].
  - destruct (enqueue_ok p clen s Hok Hf Hc) as (b & s' & -> & H1 & H2). destruct b.
    + destruct (H2 eq_refl) as (H3 & H4 & H5). destruct (reassdatagrams s') as [|r l] eqn:El; [done|]. injection H4 as ->. eexists _, _. split; [done|]. cbv beta iota. rewrite El. split_and!; try done. exact (key_take p).
    + eexists _, _. split; [done|]. by apply H1.
Qed.

(** ** Taking the fragment in *)

Lemma chain_frag_spaced new l : forall prev v l' after v', spaced l -> frag_ok new -> chain_frag new prev l v = Some (l', after, v') ->
  exists l1 l2, l = l1 ++ l2 /\ l' = l1 ++ new :: l2 /\ after = l2 /\ spaced l' /\
    v' = v && match prev with Some p => no_hole p (l1 ++ [new]) | None => gapless (l1 ++ [new]) end.
Proof.
  induction l as [|q l IH]; intros prev v l' after v' Hs Hn; cbn [chain_frag].
  - intros [= <- <- <-]. exists [], []. split; [done|]. split; [done|]. split; [done|]. split; [split; [done|]; split; [by intros g Hg%not_elem_of_nil|done]|]. destruct prev; cbn [app no_hole gapless]; by rewrite ?andb_true_r.
  - pose proof Hs as (Hq & Hql & Hsl). assert (fr_start new < fr_start q -> (fr_start q <? fr_end new) = false -> spaced (new :: q :: l)) as Hins.
    { intros Hlt Hge%Z.ltb_ge. split; [done|]. split; [|done]. destruct Hq as (? & _). intros g [->|Hg%Hql]%elem_of_cons; lia. }
    destruct (Z.ltb_spec (fr_start new) (fr_start q)) as [Hlt|Hge].
    + destruct prev as [p|]; [destruct (_ || _) eqn:Eo; [done|apply orb_false_iff in Eo as [_ Eo]]|destruct (_ <? _) eqn:Eo; [done|]]; intros [= <- <- <-]; exists [], (q :: l); (split_and!; [done|done|done|by apply Hins|cbn [app no_hole gapless]; by rewrite ?andb_true_r]).
    + destruct (Z.eqb_spec (fr_start new) (fr_start q)) as [|Hne]; [done|]. destruct (Z.ltb_spec (fr_start new) (fr_end q)) as [|Hge2]; [done|].
      destruct (chain_frag new (Some q) l _) as [[[k a] v2]|] eqn:Ec; [|done]. intros [= <- <- <-].
      destruct (IH _ _ _ _ _ Hsl Hn Ec) as (l1 & l2 & -> & -> & -> & Hs' & ->). exists (q :: l1), l2. split_and!; [done|done|done| |destruct prev; cbn [app no_hole gapless]; by rewrite ?andb_assoc, ?andb_true_r]. split; [done|]. split; [|done].
      intros g [Hg|[->|Hg]%elem_of_cons]%elem_of_app; [apply Hql, elem_of_app; by left|lia|apply Hql, elem_of_app; by right].
Qed.

(** What the chaining does to a datagram. *)
Lemma validate_ok r p clen last r' b : datagram_ok r -> 0 < clen -> Q (hdr_key (rd_iphdr r)) (new_frag p clen) ->
  ip_reass_chain_frag_into_datagram_and_validate r p clen last = Some (r', b) ->
  datagram_ok r' /\ rd_p r' <> [] /\ hdr_key (rd_iphdr r') = hdr_key (rd_iphdr r) /\ fsum (rd_p r') = fsum (rd_p r) + clen /\
  (b = true -> gapless (rd_p r') = true /\ fr_start <$> head (rd_p r') = Some 0).
Proof.
  intros [[Hs Ht] HQ] Hc Hq. unfold ip_reass_chain_frag_into_datagram_and_validate. destruct (_ <? _); [done|]. change (mk_frag _ _ _ _) with (new_frag p clen). set (new := new_frag p clen) in *.
  destruct (Z.ltb_spec (fr_end new) (IPH_OFFSET_BYTES p)) as [|Hge]; [done|].
  assert (frag_ok new) as Hn. { pose proof (u16_range (Z.land (lwip_htons (IPH_OFFSET p)) IP_OFFMASK * 8)) as H1. pose proof (u16_range (IPH_OFFSET_BYTES p + u16 (lwip_htons (IPH_LEN p) - IPH_HL_BYTES p))) as H2. unfold is_u16 in *. split_and!; cbn [new new_frag fr_start fr_end fr_clen] in *; unfold IPH_OFFSET_BYTES in *; lia. }
  destruct (chain_frag new None (rd_p r) true) as [[[l a] v]|] eqn:Ec; [|done]. destruct (chain_frag_spaced _ _ _ _ _ _ _ Hs Hn Ec) as (l1 & l2 & E1 & -> & -> & Hs' & ->).
  intros Hr. assert (r' = r <| rd_p := l1 ++ new :: l2 |>) as E2 by (case_match; by injection Hr).
  assert (b = true -> gapless (l1 ++ new :: l2) = true /\ fr_start <$> head (l1 ++ new :: l2) = Some 0) as Hb.
  { intros ->. case_match; injection Hr as _ Hb; [|done]. apply andb_true_iff in Hb as [[Hb1 Hb2]%andb_true_iff Hb3]. split; [by rewrite gapless_app, Hb1, Hb3|].
    destruct l1; cbn in *; by apply Z.eqb_eq in Hb2 as ->. }
  subst r'. split; [|split; [|split; [done|split; [|done]]]].
  - split; [by split|]. intros f. change (f ∈ l1 ++ new :: l2 -> Q (hdr_key (rd_iphdr r)) f). intros [Hf|[->|Hf]%elem_of_cons]%elem_of_app; [|done|]; apply HQ; rewrite E1; apply elem_of_app; auto.
  - by destruct l1.
  - change (fsum (l1 ++ new :: l2) = fsum (rd_p r) + clen). rewrite E1, !fsum_app. cbn [fsum foldr]. change (fr_clen new) with clen. fold (fsum l2). lia.
Qed.

(** What comes out: fragments with no hole between them, from the first byte on. *)
Definition returned (p : list Z) (r : option (list (list Z))) : Prop :=
  match r with
  | Some q => exists h n l, hdr_key h = hdr_key p /\ q = reass_chain (reass_hdr h n) (fr_data <$> l) /\ gapless l = true /\ fr_start <$> head l = Some 0 /\
      spaced l /\ (forall f, f ∈ l -> Q (hdr_key p) f)
  | None => True
  end.

Lemma put_ok p clen i r s : 0 < clen -> Q (hdr_key p) (new_frag p clen) -> reass_ok_but (eq r) s -> reassdatagrams s !! i = Some r ->
  ip_reass_pbufcount s + clen <= IP_REASS_MAX_PBUFS -> hdr_key (rd_iphdr r) = hdr_key p ->
  reass_ok (snd (reass_put p clen i r s)) /\ returned p (fst (reass_put p clen i r s)).
Proof.
  intros Hc HQ Hok Hi Hmax Hkey. rewrite <- Hkey in HQ. unfold reass_put. set (last := _ =? 0).
  assert (forall r0, r = r0 -> r0 <> r -> False) as HE by congruence.
  assert (reass_ok (if bool_decide (rd_p r = []) then s <| reassdatagrams := delete i (reassdatagrams s) |> else s)) as Hdrop.
  { case_bool_decide as Hr.
    - pose proof (ok_delete _ (fun _ => False) s i r (rs_exceeded s) Hok Hi HE) as Hd. rewrite Hr in Hd. cbn [clen_sum foldr] in Hd. rewrite Z.sub_0_r, u16_small in Hd; [exact Hd|].
      destruct (ok_clen_sum _ _ _ Hok (list_elem_of_lookup_2 _ _ _ Hi)) as [_ Hn]. unfold is_u16, IP_REASS_MAX_PBUFS in *. lia.
    - pose proof (ok_datagrams _ _ Hok) as Hl. destruct Hok as [_ Hk Hf Hcn Hm]. split; try done. eapply Forall_impl; [exact Hl|]. cbn. intros x [Hx [?|<-]]; auto. }
  destruct (_ && _); [by split|]. destruct (ip_reass_chain_frag_into_datagram_and_validate r p clen last) as [[r' b]|] eqn:Ev; [|by split].
  destruct (ok_split _ _ _ _ Hok Hi) as (l1 & l2 & _ & _ & _ & Hr & _). destruct (validate_ok _ _ _ _ _ _ Hr Hc HQ Ev) as ([[Hs' Ht'] HQ'] & Hne & Hk & Ef & Hb).
  destruct (ok_clen_sum _ _ _ Hok (list_elem_of_lookup_2 _ _ _ Hi)) as [Ecs Hn].
  match goal with |- context [if last then ?y else r'] => set (r2 := if last then y else r') end.
  assert (rd_p r2 = rd_p r' /\ rd_timer r2 = rd_timer r' /\ rd_iphdr r2 = rd_iphdr r') as (Ep & Et & Eh) by (unfold r2; by destruct last).
  unfold IP_REASS_MAX_PBUFS in *. rewrite (u16_small (ip_reass_pbufcount s + clen)) by (unfold is_u16; lia). destruct b; cbn [fst snd].
  - split; [|exists (rd_iphdr r2), (u16 (rd_datagram_len r2 + IP_HLEN)), (rd_p r2); rewrite Ep, Eh; destruct (Hb eq_refl); split_and!; try done; [by rewrite Hk|intros f Hf; rewrite <- Hkey, <- Hk; by apply HQ']].
    assert (clen_sum (rd_p r2) = clen_sum (rd_p r) + clen) as Ec by (rewrite Ep, Ecs, <- Ef; apply clen_sum_fsum; [by apply spaced_clen|lia]).
    pose proof (ok_delete _ (fun _ => False) s i r (rs_exceeded s) Hok Hi HE) as Hd.
    replace (ip_reass_pbufcount s - clen_sum (rd_p r)) with (ip_reass_pbufcount s + clen - clen_sum (rd_p r2)) in Hd by lia. exact Hd.
  - split; [|done]. refine (ok_replace _ (fun _ => False) s i r r2 (ip_reass_pbufcount s + clen) (rs_exceeded s) Hok Hi HE _ _ _ _ _); [by rewrite Eh|split; [by rewrite Ep, Et|rewrite Ep, Eh; exact HQ']|left; by rewrite Ep|rewrite Ep; lia|done].
Qed.

Lemma ip4_reass_ok p clen s : reass_ok s -> 0 < clen -> (IPH_HL_BYTES p = IP_HLEN -> IP_HLEN <= lwip_htons (IPH_LEN p) -> Q (hdr_key p) (new_frag p clen)) -> exists r s', ip4_reass p clen s = Some (r, s') /\ reass_ok s' /\ returned p r.
Proof.
  intros Hok Hc HQ. unfold ip4_reass. destruct (Z.eqb_spec (IPH_HL_BYTES p) IP_HLEN) as [Eh|]; cbn [negb]; [|by exists None, s]. rewrite Eh.
  destruct (Z.ltb_spec (lwip_htons (IPH_LEN p)) IP_HLEN) as [|Hl]; [by exists None, s|]. specialize (HQ Eh Hl).
  destruct (room_ok p clen s Hok Hc) as ([] & s1 & -> & Hok1 & Hm); [|by exists None, s1].
  destruct (datagram_found p clen s1 Hok1 (Hm eq_refl)) as ([[i r]|] & s2 & -> & H); [|by exists None, s2]. destruct H as (Hok2 & Hi & Hm2 & Hk2).
  eexists _, _. split; [by rewrite (surjective_pairing (reass_put p clen i r s2))|]. by apply put_ok.
Qed.

(** ** The timer *)

(** The datagrams a tick leaves. *)
Definition ticked (k : Z) (l : list ip_reassdata) : list ip_reassdata := (fun r => r <| rd_timer := rd_timer r - k |>) <$> filter (fun r => k <= rd_timer r) l.

Lemma tmr_loop_ok l : forall l0 s, reass_ok_but (fun _ => False) (s <| reassdatagrams := l0 ++ l |>) ->
  exists s', reass_tmr_loop l s = Some (ticked 1 l, s') /\ reass_ok (s' <| reassdatagrams := l0 ++ ticked 1 l |>).
Proof.
  induction l as [|r l IH]; intros l0 s Hok; cbn [reass_tmr_loop]; [by exists s|].
  assert ((l0 ++ r :: l) !! length l0 = Some r) as Hi by (rewrite lookup_app_r, Nat.sub_diag by done; done).
  pose proof (ok_datagrams _ _ Hok) as Hl. cbn in Hl. rewrite Forall_forall in Hl. destruct (Hl r (list_elem_of_lookup_2 _ _ _ Hi)) as [[[Hs Ht] HQ] [Hne|[]]].
  unfold ticked. rewrite filter_cons. destruct (Z.ltb_spec 0 (rd_timer r)) as [Hlt|Hge].
  - rewrite decide_True by lia. cbn [fmap list_fmap]. fold (ticked 1 l). set (r' := r <| rd_timer := rd_timer r - 1 |>).
    destruct (IH (l0 ++ [r']) s) as (s' & -> & Hok'); [|exists s'; rewrite <- app_assoc in Hok'; by split].
    pose proof (ok_replace _ (fun _ => False) _ _ r r' (ip_reass_pbufcount s) (rs_exceeded s) Hok Hi (fun _ H _ => H) eq_refl) as Hrep.
    cbn in Hrep. rewrite <- app_assoc. replace (length l0) with (length l0 + 0)%nat in Hrep by lia. rewrite insert_app_r in Hrep.
    apply Hrep; [|by left|fold (fsum (rd_p r)); lia|exact (ok_max _ _ Hok)]. split; [|done]. split; [done|]. unfold r'. cbn. lia.
  - rewrite decide_False by lia. fold (ticked 1 l). destruct (free_datagram _ _ _ r Hok Hi Hne) as (n & s1 & Ef & _ & _ & Hok1 & Ed).
    rewrite Ed in Hok1. change (reassdatagrams (s <| reassdatagrams := l0 ++ r :: l |>)) with (l0 ++ r :: l) in Hok1. rewrite delete_middle in Hok1.
    unfold ip_reass_free_complete_datagram in *. destruct (rd_p r) as [|f fs]; [done|]. injection Ef as <- <-. apply (IH l0). destruct (fr_start f =? 0); exact Hok1.
Qed.

Lemma ip_reass_tmr_ok s : reass_ok s -> exists s', ip_reass_tmr s = Some s' /\ reass_ok s' /\ reassdatagrams s' = ticked 1 (reassdatagrams s).
Proof.
  intros Hok. unfold ip_reass_tmr. destruct (tmr_loop_ok (reassdatagrams s) [] s) as (s' & -> & H); [by destruct s|].
  eexists. split; [done|]. by split.
Qed.


Lemma reass_start_ok : reass_ok (mk_reass [] 0 []).
Proof. split; cbn; try done; constructor. Qed.
End invariant.

(** ** Whatever happens *)

(** A packet [p] in [clen] buffers that [ip4_input] hands over, and a tick of the timer. *)
Inductive reass_event := Fragment (p : list Z) (clen : Z) | Tick.

Definition reass_step (e : reass_event) (s : reass) : option reass :=
  match e with
  | Fragment p clen => snd <$> ip4_reass p clen s
  | Tick => ip_reass_tmr s
  end.
Fixpoint reass_run (es : list reass_event) (s : reass) : option reass :=
  match es with
  | [] => Some s
  | e :: es => match reass_step e s with Some s => reass_run es s | None => None end
  end.
Definition event_ok (e : reass_event) : Prop := match e with Fragment _ clen => 0 < clen | Tick => True end.
Definition reass_start : reass := mk_reass [] 0 [].

(** The fragment came in one of the events. *)
Definition seen (es : list reass_event) (k : Z * Z * Z) (f : frag) : Prop :=
  exists p clen, Fragment p clen ∈ es /\ hdr_key p = k /\ f = new_frag p clen /\ IPH_HL_BYTES p = IP_HLEN /\ IP_HLEN <= lwip_htons (IPH_LEN p).

Lemma reass_run_ok es0 es s : Forall event_ok es -> es ⊆ es0 -> reass_ok (seen es0) s -> exists s', reass_run es s = Some s' /\ reass_ok (seen es0) s'.
Proof.
  intros Hes. revert s. induction Hes as [|e es He _ IH]; intros s Hsub Hok; [by exists s|]. cbn [reass_run].
  assert (exists s1, reass_step e s = Some s1 /\ reass_ok (seen es0) s1) as (s1 & -> & H1).
  { destruct e as [p c|]; cbn.
    - destruct (ip4_reass_ok (seen es0) p c s Hok He) as (r & s' & -> & H & _); [|by exists s']. intros. exists p, c. split_and!; [apply Hsub; left|done..].
    - destruct (ip_reass_tmr_ok _ s Hok) as (s' & -> & H & _). by exists s'. }
  apply IH; [|done]. intros x Hx. apply Hsub. by right.
Qed.

(** C23: Bounds: whatever packets and ticks come, in whatever order, each call comes back;
    there are never more than [MEMP_NUM_REASSDATA] datagrams, one for each source,
    destination and identification, each with fragments that do not overlap and came in,
    and the buffers they hold are counted exactly and at most [IP_REASS_MAX_PBUFS]. *)
Theorem reass_bounded es : Forall event_ok es -> exists s, reass_run es reass_start = Some s /\
  zlen (reassdatagrams s) <= MEMP_NUM_REASSDATA /\ NoDup (hdr_key ∘ rd_iphdr <$> reassdatagrams s) /\
  0 <= ip_reass_pbufcount s <= IP_REASS_MAX_PBUFS /\ ip_reass_pbufcount s = total (reassdatagrams s) /\
  forall r, r ∈ reassdatagrams s -> rd_p r <> [] /\ spaced (rd_p r) /\ forall f, f ∈ rd_p r -> seen es (hdr_key (rd_iphdr r)) f.
Proof.
  intros Hes. destruct (reass_run_ok es es reass_start Hes) as (s & E & Hok); [done|apply reass_start_ok|]. exists s. split; [done|].
  pose proof (total_pos _ _ (ok_ok _ _ _ Hok)). destruct Hok as [Hl Hk Hf Hc Hm]. split_and!; try done; [lia|].
  intros r Hr. rewrite Forall_forall in Hl. destruct (Hl r Hr) as [[[H1 _] H2] [H3|[]]]. by split_and!.
Qed.

(** The pieces of a packet one behind the other: each fragment begins where the data of
    the one before ends. *)
Fixpoint placed (a : Z) (l : list (list Z)) : Prop :=
  match l with [] => True | q :: l => IPH_OFFSET_BYTES q = a /\ placed (a + zlen (drop (Z.to_nat IP_HLEN) q)) l end.

(** The packets [ip4_input] hands over end where their header says. *)
Definition trimmed (e : reass_event) : Prop :=
  match e with Fragment p _ => lwip_htons (IPH_LEN p) = zlen p | Tick => True end.

Lemma trimmed_frag p c : trimmed (Fragment p c) -> IPH_HL_BYTES p = IP_HLEN -> IP_HLEN <= lwip_htons (IPH_LEN p) -> fr_start (new_frag p c) <= fr_end (new_frag p c) ->
  fr_end (new_frag p c) = IPH_OFFSET_BYTES p + zlen (drop (Z.to_nat IP_HLEN) p).
Proof.
  intros Hl Hh Hz. cbn [trimmed] in Hl. cbn [new_frag fr_end fr_start]. rewrite Hh, Hl in *. rewrite zlen_drop_max by done. pose proof (u16_range (Z.land (lwip_htons (IPH_OFFSET p)) IP_OFFMASK * 8)) as H.
  assert (is_u16 (zlen p)) as Hp by (rewrite <- Hl; apply u16_range). unfold IPH_OFFSET_BYTES, is_u16, IP_HLEN in *. rewrite (u16_small (zlen p - 20)) by (unfold is_u16; lia). unfold u16. intros Hle. zdivmod.
Qed.

Lemma seen_placed es k l : Forall trimmed es -> forall a, (fr_start <$> head l = Some a \/ l = []) -> gapless l = true -> spaced l -> (forall f, f ∈ l -> seen es k f) ->
  exists qs, fr_data <$> l = drop (Z.to_nat IP_HLEN) <$> qs /\ placed a qs /\ (forall q, q ∈ qs -> hdr_key q = k /\ exists c, Fragment q c ∈ es).
Proof.
  intros Hes. induction l as [|f l IH]; intros a Ha Hg Hsp Hs; [exists []; split_and!; [done|done|by intros q Hq%not_elem_of_nil]|].
  destruct (Hs f (list_elem_of_here _ _)) as (p & c & Hin & Hk & -> & Hh & Hz). destruct Hsp as ((Hlt & _) & _ & Hsp). rewrite Forall_forall in Hes. pose proof (trimmed_frag p c (Hes _ Hin) Hh Hz ltac:(lia)) as He. rewrite <- Forall_forall in Hes.
  destruct Ha as [[= Ha]|]; [|done]. destruct (IH (a + zlen (drop (Z.to_nat IP_HLEN) p))) as (qs & E & Hp & Hq).
  - destruct l as [|g l]; [by right|left]. cbn [gapless no_hole] in Hg. apply andb_true_iff in Hg as [Hg%Z.eqb_eq _]. cbn [head fmap option_fmap option_map]. cbn in Ha. f_equal. lia.
  - destruct l; [done|]. cbn [gapless no_hole] in *. by apply andb_true_iff in Hg as [_ Hg].
  - done.
  - intros g Hgl. apply Hs. by right.
  - exists (p :: qs). cbn [fmap list_fmap]. split; [by rewrite E|]. split; [by split|]. intros q [->|Hq']%elem_of_cons; [split; [done|by exists c]|by apply Hq].
Qed.

(** C22: Safety: whatever came before, the data of a packet that [ip4_reass] returns is the
    data of fragments of that source, destination and identification that came in, each
    once and each at its own offset, from the first byte on without a hole. *)
Theorem reass_returns_fragments es p clen s r s' : Forall event_ok (es ++ [Fragment p clen]) -> Forall trimmed (es ++ [Fragment p clen]) ->
  reass_run es reass_start = Some s -> ip4_reass p clen s = Some (Some r, s') ->
  exists h n qs, concat r = reass_hdr h n ++ concat (drop (Z.to_nat IP_HLEN) <$> qs) /\ hdr_key h = hdr_key p /\ placed 0 qs /\
    forall q, q ∈ qs -> hdr_key q = hdr_key p /\ exists c, Fragment q c ∈ es ++ [Fragment p clen].
Proof.
  intros Hes Ht Hr Hp. set (es1 := es ++ [Fragment p clen]) in *. pose proof Hes as [Hes0 [Hc _]%Forall_cons]%Forall_app.
  destruct (reass_run_ok es1 es reass_start Hes0) as (s1 & E & Hok); [intros x Hx; apply elem_of_app; by left|apply reass_start_ok|]. rewrite Hr in E. injection E as <-.
  destruct (ip4_reass_ok (seen es1) p clen s Hok Hc) as (r1 & s2 & E & _ & Hret); [intros; exists p, clen; split_and!; [apply elem_of_app; right; by apply list_elem_of_singleton|done..]|].
  rewrite Hp in E. injection E as <- <-. destruct Hret as (h & n & l & Hk & -> & Hg & Hh & Hsp & Hl).
  destruct (seen_placed es1 (hdr_key p) l Ht 0 (or_introl Hh) Hg Hsp Hl) as (qs & El & Hpl & Hq). exists h, n, qs. split_and!; try done. by rewrite reass_chain_concat, El.
Qed.

(** ** Nothing stays for ever *)

Lemma ticked_more k l : 0 <= k -> ticked 1 (ticked k l) = ticked (k + 1) l.
Proof.
  intros Hk. induction l as [|r l IH]; [done|]. unfold ticked in *. rewrite !filter_cons. destruct (Z.le_gt_cases (k + 1) (rd_timer r)) as [Hle|Hgt].
  - rewrite decide_True, (decide_True (P := k + 1 <= _)) by lia. cbn [fmap list_fmap]. rewrite filter_cons, decide_True by (cbn; lia). cbn [fmap list_fmap]. rewrite IH. f_equal.
    destruct r. cbn. unfold setf. cbn. f_equal. lia.
  - rewrite (decide_False (P := k + 1 <= _)) by lia. case_decide; [|done]. cbn [fmap list_fmap]. rewrite filter_cons, decide_False by (cbn; lia). done.
Qed.

Lemma ticked_0 l : Forall (fun r => 0 <= rd_timer r) l -> ticked 0 l = l.
Proof.
  induction 1 as [|r l Hr _ IH]; [done|]. unfold ticked in *. rewrite filter_cons, decide_True by lia. cbn [fmap list_fmap]. rewrite IH. f_equal.
  destruct r. cbn. unfold setf. cbn. f_equal. lia.
Qed.

Lemma ticks_ok Q k : forall s, reass_ok Q s -> exists s', reass_run (repeat Tick k) s = Some s' /\ reass_ok Q s' /\ reassdatagrams s' = ticked (Z.of_nat k) (reassdatagrams s).
Proof.
  induction k as [|k IH]; intros s Hok.
  - exists s. split_and!; [done|done|]. symmetry. apply ticked_0. eapply Forall_impl; [apply (ok_ok _ _ _ Hok)|]. intros r [[_ ?] _]. lia.
  - cbn [repeat]. rewrite repeat_cons. destruct (IH s Hok) as (s1 & E1 & H1 & Ed1). destruct (ip_reass_tmr_ok Q s1 H1) as (s2 & E2 & H2 & Ed2). exists s2. split_and!; [|done|].
    + assert (forall es es' x, reass_run (es ++ es') x = match reass_run es x with Some y => reass_run es' y | None => None end) as Happ.
      { intros es es'. induction es as [|e es IHe]; intros x; [done|]. cbn [app reass_run]. by destruct (reass_step e x). }
      rewrite Happ, E1. cbn [reass_run reass_step]. by rewrite E2.
    + rewrite Ed2, Ed1, ticked_more by lia. f_equal. lia.
Qed.

(** C24: Liveness: after [k] ticks without a fragment those datagrams are left whose timer
    was at least [k], the others are given up; after [IP_REASS_MAXAGE] + 1 ticks nothing
    waits and no buffer is held. *)
Theorem reass_expires es s k : Forall event_ok es -> reass_run es reass_start = Some s ->
  exists s', reass_run (repeat Tick k) s = Some s' /\ reassdatagrams s' = ticked (Z.of_nat k) (reassdatagrams s) /\
    (IP_REASS_MAXAGE < Z.of_nat k -> reassdatagrams s' = [] /\ ip_reass_pbufcount s' = 0).
Proof.
  intros Hes Hr. destruct (reass_run_ok es es reass_start Hes) as (s1 & E & Hok); [done|apply reass_start_ok|]. rewrite Hr in E. injection E as <-.
  destruct (ticks_ok _ k s Hok) as (s' & E & Hok' & Ed). exists s'. split_and!; [done|done|]. intros Hk.
  assert (reassdatagrams s' = []) as En; [|split; [done|]; by rewrite (ok_count _ _ _ Hok'), En].
  rewrite Ed. pose proof (ok_ok _ _ _ Hok) as Hl. clear -Hl Hk. induction Hl as [|r l [[_ Hr] _] _ IH]; [done|].
  unfold ticked in *. rewrite filter_cons, decide_False by lia. exact IH.
Qed.
