(* ===== verification/Ip4FragRun.v ===== *)
(** * Ip4FragRun: a packet is cut up and put together again

    [ip4_frag] and [ip4_reass] composed: the round trip of a packet through its fragments,
    whatever the order they come in; the packets that are cut wrong because the MTU does
    not leave a multiple of 8 for the data. *)

From S2P Require Import Prelude Chksum Pbuf PbufData Inet Ip4Hdr Ip4Frag Ip4FragProps Ip4Reass Ip4ReassInv.

(** The lengths that are cut right: a fragment carries [8 * ((mtu - IP_HLEN) / 8)] bytes,
    but the last one is told by [mtu - IP_HLEN]. *)
Definition cut_right (m len : Z) : bool := let n := 8 * (m / 8) in (len <=? n) || (len mod n =? 0) || (m - n <? len mod n).

Section cut.
Context (n m : Z) (Hn8 : n mod 8 = 0) (Hn : 8 <= n) (Hm : n <= m < n + 8).

Lemma cut_pieces fuel : forall start d, 0 < zlen d <= 8 * Z.of_nat fuel -> start mod 8 = 0 -> 0 <= start -> start + zlen d <= 0xFFFF - IP_HLEN ->
  zlen d <= n \/ zlen d mod n = 0 \/ m - n < zlen d mod n -> exists pre lst, cut fuel n m start d = pre ++ [lst] /\
    Forall piece_ok (pre ++ [lst]) /\ Forall (fun x => snd x = true) pre /\ snd lst = false /\
    (forall clen, sequel start (piece_frag clen <$> pre ++ [lst]) /\ concat (fr_data <$> (piece_frag clen <$> pre ++ [lst])) = d) /\
    Forall (fun x => zlen (snd (fst x)) <= n) (pre ++ [lst]).
Proof.
  induction fuel as [|fuel IH]; intros start d Hd Hs8 Hs Ht Hw; [lia|]. cbn [cut]. destruct d as [|b d0] eqn:Ed; [unfold zlen in Hd; cbn in Hd; lia|]. rewrite <- Ed in *.
  pose proof (zlen_take_min n d ltac:(lia)) as Hzt. pose proof (zlen_drop_max n d ltac:(lia)) as Hzd. destruct (Z.le_gt_cases (zlen d) n) as [Hle|Hgt].
  - exists [], (start, d, false). rewrite take_all_z, drop_all_z by lia. replace (m <? zlen d) with false by lia. replace (cut fuel n m (start + n) []) with (@nil (Z * list Z * bool)) by (by destruct fuel).
    split_and!; try done; try (repeat constructor; cbn; lia). intros clen. cbn [app fmap list_fmap piece_frag concat fr_data]. rewrite app_nil_r. split; [|done]. cbn. split_and!; lia || done.
  - rewrite Z.max_r in Hzd by lia. rewrite Z.min_l in Hzt by lia. assert ((start + n) mod 8 = 0) by zdivmod.
    assert ((zlen d - n) mod n = zlen d mod n) as Emod by (rewrite <- (Z.mod_add (zlen d - n) 1) by lia; f_equal; lia).
    destruct (IH (start + n) (drop (Z.to_nat n) d)) as (pre & lst & -> & H1 & H2 & H3 & H4 & H6); [lia|done|lia|lia|rewrite Hzd, Emod; lia|].
    assert (m < zlen d) as Hmore by (pose proof (Z.div_mod (zlen d) n ltac:(lia)); destruct Hw as [?|[Hw|Hw]]; [lia|..]; assert (1 <= zlen d / n) by (apply Z.div_le_lower_bound; lia); assert (zlen d / n <> 1 \/ 0 < zlen d mod n) by lia; nia).
    exists ((start, take (Z.to_nat n) d, true) :: pre), lst. replace (m <? zlen d) with true by lia.
    cbn [app]. split_and!; try done.
    + constructor; [|done]. cbn. lia.
    + constructor; done.
    + intros clen. destruct (H4 clen) as [H4' H5]. cbn [sequel fr_start fr_end app fmap list_fmap piece_frag concat fr_data]. rewrite Hzt. split_and!; [done|lia|done|].
      rewrite <- (take_drop (Z.to_nat n) d) at 2. f_equal. exact H5.
    + constructor; [cbn; lia|done].
Qed.

(** The packets that are cut wrong: the last two pieces are both marked as the last. *)
Lemma cut_wrong fuel : forall fuel' start d, 0 < zlen d <= 8 * Z.of_nat fuel -> 0 < zlen d <= 8 * Z.of_nat fuel' -> n < zlen d -> 0 < zlen d mod n <= m - n ->
  let d1 := take (Z.to_nat (n * (zlen d / n))) d in
  cut fuel n m start d = cut fuel' n n start d1 ++ [(start + n * (zlen d / n), drop (Z.to_nat (n * (zlen d / n))) d, false)].
Proof.
  induction fuel as [|fuel IH]; intros fuel' start d Hd Hd' Hgt Hr d1; [lia|]. destruct fuel' as [|fuel']; [lia|].
  set (q := zlen d / n) in *. assert (zlen d = n * q + zlen d mod n) as Eq by (apply Z.div_mod; lia). assert (1 <= q) by nia.
  assert (zlen d1 = n * q) as Hz1 by (unfold d1; rewrite zlen_take_min by nia; nia).
  assert (forall k f st l, 0 < zlen l -> cut (S f) n k st l = (st, take (Z.to_nat n) l, k <? zlen l) :: cut f n k (st + n) (drop (Z.to_nat n) l)) as Hcut.
  { intros k f st [|b l] Hl; [unfold zlen in Hl; cbn in Hl; lia|done]. }
  rewrite !Hcut by nia. cbn [app]. pose proof (zlen_drop_max n d ltac:(lia)) as Hzd. rewrite Z.max_r in Hzd by lia.
  assert (take (Z.to_nat n) d1 = take (Z.to_nat n) d) as -> by (unfold d1; rewrite take_take; f_equal; nia).
  assert (drop (Z.to_nat n) d1 = take (Z.to_nat (n * (q - 1))) (drop (Z.to_nat n) d)) as -> by (unfold d1; rewrite take_drop_commute; do 2 f_equal; nia).
  assert ((zlen d - n) mod n = zlen d mod n /\ (zlen d - n) / n = q - 1) as [Emod Ediv].
  { rewrite <- (Z.mod_add (zlen d - n) 1) by lia. replace (zlen d - n + 1 * n) with (zlen d) by lia. split; [done|].
    replace (zlen d - n) with (zlen d + (-1) * n) by lia. rewrite Z.div_add by lia. fold q. lia. }
  assert (drop (Z.to_nat (n * q)) d = drop (Z.to_nat (n * (q - 1))) (drop (Z.to_nat n) d)) as -> by (rewrite drop_drop; f_equal; nia).
  replace (start + n * q) with (start + n + n * (q - 1)) by lia. destruct (Z.eq_dec q 1) as [E1|E1].
  - assert (n * (q - 1) = 0) as -> by lia. change (Z.to_nat 0) with 0%nat. cbn [take drop]. rewrite Z.add_0_r.
    destruct fuel as [|fuel]; [lia|]. rewrite Hcut by lia. rewrite (take_all_z n (drop (Z.to_nat n) d)), (drop_all_z n (drop (Z.to_nat n) d)) by nia.
    assert (forall k f st, cut f n k st [] = []) as Hnil by (by intros k []). rewrite !Hnil. cbn [app].
    replace (n <? zlen d1) with false by nia. replace (m <? zlen d) with false by nia. replace (m <? zlen (drop (Z.to_nat n) d)) with false by lia. done.
  - assert (2 * n <= n * q) by nia. rewrite (IH fuel' (start + n)) by (rewrite ?Hzd, ?Emod; lia). rewrite Hzd, Ediv.
    replace (n <? zlen d1) with true by lia. by replace (m <? zlen d) with true by lia.
Qed.
End cut.

(** ** The round trip *)

Lemma clens_function (ys : list (Z * list Z * bool)) (cs : list Z) : length ys = length cs -> NoDup ((fun x => fst (fst x)) <$> ys) ->
  exists clen : Z -> Z, cs = (fun x => clen (fst (fst x))) <$> ys.
Proof.
  revert cs. induction ys as [|y ys IH]; intros [|c cs] Hl Hn; try done; [by exists (fun _ => 0)|]. cbn [fmap list_fmap] in *. apply NoDup_cons in Hn as [Hy Hn].
  destruct (IH cs ltac:(by injection Hl) Hn) as [clen ->]. exists (fun a => if decide (a = fst (fst y)) then c else clen a). rewrite decide_True by done. f_equal.
  apply list_fmap_ext. intros i z Hz. rewrite decide_False; [done|]. intros E. apply Hy. rewrite <- E. apply list_elem_of_fmap. exists z. split; [done|by eapply list_elem_of_lookup_2].
Qed.

Lemma pairs_fmap {A B C} (f : A -> B) (g : A -> C) (qs : list (B * C)) ys : qs.*1 = f <$> ys -> qs.*2 = g <$> ys -> qs = (fun x => (f x, g x)) <$> ys.
Proof.
  revert ys. induction qs as [|[b c] qs IH]; intros [|y ys] H1 H2; try done. cbn in *. injection H1 as -> H1. injection H2 as -> H2. f_equal. by apply IH.
Qed.

Lemma sum_perm (l k : list Z) : l ≡ₚ k -> foldr Z.add 0 l = foldr Z.add 0 k.
Proof. induction 1; cbn; lia. Qed.

Lemma fsum_pieces clen xs : fsum (piece_frag clen <$> xs) = foldr Z.add 0 ((fun x => clen (fst (fst x))) <$> xs).
Proof. induction xs as [|[[a y] b] xs IH]; [done|]. cbn [fmap list_fmap fsum foldr piece_frag fr_clen fst]. fold (fsum (piece_frag clen <$> xs)). by rewrite IH. Qed.

Lemma sequel_NoDup a l : sequel a l -> NoDup (fr_start <$> l).
Proof.
  revert a. induction l as [|f l IH]; intros a Hs; [constructor|]. destruct Hs as (Hf & Ha & Hs). cbn [fmap list_fmap]. apply NoDup_cons. split; [|by eapply IH].
  intros (g & E & Hg)%list_elem_of_fmap. pose proof (sequel_later _ _ _ Hs Hg). lia.
Qed.

(** A fragment does not show how long the packet is. *)
Lemma frag_hdr_len tos n n' id ttl proto src dest tmp sz : frag_hdr (ip_hdr_out tos n id ttl proto src dest) tmp sz = frag_hdr (ip_hdr_out tos n' id ttl proto src dest) tmp sz.
Proof. reflexivity. Qed.

(** The fragments of a packet that is cut up, in any order. *)
Lemma reass_pieces tos id ttl proto src dest d pre lst s0 tot qs : is_u8 tos -> is_u16 id -> is_u8 ttl -> is_u8 proto -> is_u32 src -> is_u32 dest ->
  zlen d <= 0xFFFF - IP_HLEN -> Forall piece_ok (pre ++ [lst]) -> Forall (fun x => snd x = true) pre -> snd lst = false ->
  (forall clen, sequel 0 (piece_frag clen <$> pre ++ [lst]) /\ concat (fr_data <$> (piece_frag clen <$> pre ++ [lst])) = d) ->
  0 <= ip_reass_pbufcount s0 -> reassdata_free s0 = true ->
  (forall r, r ∈ reassdatagrams s0 -> IP_ADDRESSES_AND_ID_MATCH (rd_iphdr r) (ip_hdr_out tos (IP_HLEN + zlen d) id ttl proto src dest) = false) ->
  qs.*1 ≡ₚ frag_packet (ip_hdr_out tos tot id ttl proto src dest) <$> pre ++ [lst] -> Forall (fun q => 0 < snd q) qs ->
  ip_reass_pbufcount s0 + foldr Z.add 0 qs.*2 <= IP_REASS_MAX_PBUFS ->
  let hdr := ip_hdr_out tos (IP_HLEN + zlen d) id ttl proto src dest in let r := reass_chain hdr ((fun x => snd (fst x)) <$> pre ++ [lst]) in
  reass_all qs s0 = Some (repeat None (length pre) ++ [Some r], s0) /\ concat r = hdr ++ d.
Proof.
  intros Htos Hid Httl Hproto Hsrc Hdest Hlen Hok Hpre Hlst Hseq Hc0 Hfree Hno Hperm Hpos Hsum hdr r.
  assert (frag_packet (ip_hdr_out tos tot id ttl proto src dest) <$> pre ++ [lst] = frag_packet (packet_hdr tos id ttl proto src dest d) <$> pre ++ [lst]) as Eh.
  { apply list_fmap_ext. intros i [[a y] b] _. unfold frag_packet, packet_hdr. by rewrite (frag_hdr_len _ tot (IP_HLEN + zlen d)). }
  rewrite Eh in Hperm. apply Permutation_map_inv in Hperm as (ys & Eq & Hys).
  assert (NoDup ((fun x => fst (fst x)) <$> ys)) as Hnd.
  { rewrite <- Hys. destruct (Hseq (fun _ => 1)) as [Hs _]. apply sequel_NoDup in Hs. rewrite <- list_fmap_compose in Hs.
    replace ((fun x => fst (fst x)) <$> pre ++ [lst]) with (fr_start ∘ piece_frag (fun _ => 1) <$> pre ++ [lst]); [done|]. apply list_fmap_ext. by intros i [[a y] b] _. }
  assert (length ys = length qs.*2) as Hl by (transitivity (length qs.*1); [by rewrite Eq, length_map|by rewrite !length_fmap]).
  destruct (clens_function ys qs.*2 Hl Hnd) as [clen Ecl]. rewrite (pairs_fmap _ _ qs ys Eq Ecl).
  replace (length pre) with (pred (length ys)) by (rewrite <- Hys, length_app; cbn; lia).
  destruct (Hseq clen) as [Hs Hd].
  assert (forall x, x ∈ ys <-> x ∈ pre ++ [lst]) as Hin by (intros x; by rewrite Hys).
  assert (r = reass_chain hdr (fr_data <$> (piece_frag clen <$> pre ++ [lst]))) as ->.
  { unfold r. f_equal. rewrite <- list_fmap_compose. apply list_fmap_ext. by intros i [[a y] b] _. }
  split; [|by rewrite reass_chain_concat, Hd].
  apply (reass_all_at tos id ttl proto src dest d clen Htos Hid Httl Hproto Hsrc Hdest Hlen pre lst s0 Hok Hpre Hlst Hs Hd) with (K := []); try done.
  - intros f ([[a y] b] & -> & Hx)%list_elem_of_fmap. rewrite Forall_forall in Hpos. rewrite <- Hin in Hx. cbn [piece_frag fr_clen].
    assert (clen a ∈ qs.*2) as Hc by (rewrite Ecl; apply list_elem_of_fmap; by exists (a, y, b)). by apply list_elem_of_fmap in Hc as (q & -> & Hq%Hpos).
  - rewrite fsum_pieces. rewrite Ecl in Hsum. by rewrite (sum_perm _ ((fun x => clen (fst (fst x))) <$> ys)) by (by rewrite Hys).
  - intros ->. apply Permutation_length in Hys. rewrite length_app in Hys. cbn in Hys. lia.
  - rewrite app_nil_r. by replace (fr_start ∘ piece_frag clen <$> ys) with ((fun x => fst (fst x)) <$> ys) by (apply list_fmap_ext; by intros i [[a y] b] _).
  - intros x. by rewrite Hin.
  - intros x. rewrite <- Hin. by left.
Qed.

(** The fragments of a packet. *)
Lemma ip4_frag_eq tos id ttl proto src dest d b bufs mtu : is_u8 tos -> is_u16 id -> is_u8 ttl -> is_u8 proto -> is_u32 src -> is_u32 dest ->
  let hdr := ip_hdr_out tos (IP_HLEN + zlen d) id ttl proto src dest in
  concat (b :: bufs) = hdr ++ d -> IP_HLEN <= zlen b -> Forall (fun b => zlen b < 65536) (b :: bufs) ->
  0 < zlen d <= 0xFFFF - IP_HLEN -> 28 <= mtu < 65536 ->
  ip4_frag (b :: bufs) mtu [] = Some (frag_packet hdr <$> cut (Z.to_nat 0x2000) (8 * ((mtu - IP_HLEN) / 8)) (mtu - IP_HLEN) 0 d, ERR_OK, []).
Proof.
  intros Htos Hid Httl Hproto Hsrc Hdest hdr Hb Hb1 Hbs Hd Hmtu. assert (zlen hdr = IP_HLEN) as Hzh by apply ip_hdr_zlen. unfold IP_HLEN in *.
  assert (b = hdr ++ drop 20 b) as Eb.
  { rewrite <- (take_drop 20 b) at 1. f_equal. transitivity (take (Z.to_nat 20) (concat (b :: bufs))).
    - cbn [concat]. rewrite take_app_z, (take_none_z (20 - zlen b)), app_nil_r by lia. done.
    - rewrite Hb, take_app_z, (take_none_z (20 - zlen hdr)), app_nil_r, take_all_z by lia. done. }
  assert (IPH_HL_BYTES b = 20 /\ IPH_OFFSET b = 0) as [Ehl Eo] by (rewrite Eb; by split).
  assert (take 20 b = hdr) as Etk by (rewrite Eb, take_app_le by done; by rewrite take_ge).
  unfold ip4_frag. rewrite Ehl, Eo, Etk. unfold IP_HLEN. replace (zlen b <? 20) with false by lia. change (negb (20 =? 20)) with false. cbn iota.
  change (lwip_htons 0) with 0. change (Z.land 0 IP_OFFMASK) with (0 / 8). change (Z.land 0 IP_MF) with 0.
  rewrite Hb, zlen_app, Hzh. rewrite u16_small by (unfold is_u16; lia). replace (20 + zlen d - 20) with (zlen d) by lia.
  apply (frag_loop_eq _ (Z.to_nat 0x2000)); try done; try lia.
  rewrite Hb. rewrite (drop_app_z 20), (drop_none_z (20 - zlen hdr)), drop_all_z by lia. done.
Qed.

(** C21: Round trip: a packet that [ip4_frag] cuts up, at a length its test for the last
    fragment gets right, comes out of [ip4_reass] as it was, with its header, when the
    last of its fragments comes, in whatever order they come and whatever else waits
    there; before that nothing comes out, and afterwards everything is as before. No
    fragment is longer than the MTU. *)
Theorem frag_reass_roundtrip tos id ttl proto src dest d bufs mtu s0 : is_u8 tos -> is_u16 id -> is_u8 ttl -> is_u8 proto -> is_u32 src -> is_u32 dest ->
  let hdr := ip_hdr_out tos (IP_HLEN + zlen d) id ttl proto src dest in
  concat bufs = hdr ++ d -> match bufs with b :: _ => IP_HLEN <= zlen b | [] => False end -> Forall (fun b => zlen b < 65536) bufs ->
  0 < zlen d <= 0xFFFF - IP_HLEN -> 28 <= mtu < 65536 -> cut_right (mtu - IP_HLEN) (zlen d) = true ->
  0 <= ip_reass_pbufcount s0 -> reassdata_free s0 = true -> (forall r, r ∈ reassdatagrams s0 -> IP_ADDRESSES_AND_ID_MATCH (rd_iphdr r) hdr = false) ->
  exists ps, ip4_frag bufs mtu [] = Some (ps, ERR_OK, []) /\ Forall (fun p => zlen p <= mtu) ps /\
    forall qs, qs.*1 ≡ₚ ps -> Forall (fun q => 0 < snd q) qs -> ip_reass_pbufcount s0 + foldr Z.add 0 qs.*2 <= IP_REASS_MAX_PBUFS ->
      exists r, reass_all qs s0 = Some (repeat None (pred (length ps)) ++ [Some r], s0) /\ concat r = hdr ++ d.
Proof.
  intros Htos Hid Httl Hproto Hsrc Hdest hdr Hb Hb1 Hbs Hd Hmtu Hcut Hc0 Hfree Hno. destruct bufs as [|b bufs]; [done|].
  set (m := mtu - IP_HLEN) in *. set (n := 8 * (m / 8)). assert (n mod 8 = 0 /\ 8 <= n /\ n <= m < n + 8) as (Hn8 & Hn & Hnm) by (unfold n, m, IP_HLEN; zdivmod).
  destruct (cut_pieces n m Hn8 Hn Hnm (Z.to_nat 0x2000) 0 d) as (pre & lst & Ec & H1 & H2 & H3 & H4 & H6); [unfold IP_HLEN in *; lia|done|done|lia| |].
  { unfold cut_right in Hcut. fold n in Hcut. apply orb_true_iff in Hcut as [[?|?]%orb_true_iff|?]; lia. }
  exists (frag_packet hdr <$> pre ++ [lst]). split_and!.
  - rewrite <- Ec. by apply ip4_frag_eq.
  - apply Forall_fmap. eapply Forall_impl; [exact H6|]. intros [[a y] k] Hz. cbn [compose fst snd frag_packet] in *. rewrite zlen_app.
    destruct (frag_hdr_eq 0x45 tos (lwip_htons (IP_HLEN + zlen d)) (lwip_htons id) 0 ttl proto (ip_chk_sum tos (lwip_htons (IP_HLEN + zlen d)) (lwip_htons id) ttl proto src dest) src dest (if k then Z.lor (a / 8) IP_MF else a / 8) (zlen y)) as (c' & _ & E).
    unfold hdr, ip_hdr_out. change (u8 (Z.lor (Z.shiftl 4 4) (IP_HLEN / 4))) with 0x45. cbv zeta. rewrite E, ip_hdr_zlen. unfold m in *. lia.
  - intros qs Hqs Hpos Hsum. replace (pred (length (frag_packet hdr <$> pre ++ [lst]))) with (length pre) by (rewrite length_fmap, length_app; cbn; lia).
    eexists. apply (reass_pieces tos id ttl proto src dest d pre lst s0 (IP_HLEN + zlen d)); done || lia.
Qed.

(** C39: A packet whose length the test for the last fragment gets wrong is cut so that two
    of its fragments are marked as the last, and a receiver that gets the others before the
    very last one makes a packet of them that is too short, whatever their order. With the
    MTU of this firmware these are the packets with 1 to 6 bytes more than a multiple
    of 1488. *)
Theorem frag_wrong_truncates tos id ttl proto src dest d bufs mtu s0 : is_u8 tos -> is_u16 id -> is_u8 ttl -> is_u8 proto -> is_u32 src -> is_u32 dest ->
  let hdr len := ip_hdr_out tos (IP_HLEN + len) id ttl proto src dest in
  concat bufs = hdr (zlen d) ++ d -> match bufs with b :: _ => IP_HLEN <= zlen b | [] => False end -> Forall (fun b => zlen b < 65536) bufs ->
  0 < zlen d <= 0xFFFF - IP_HLEN -> 28 <= mtu < 65536 -> cut_right (mtu - IP_HLEN) (zlen d) = false ->
  0 <= ip_reass_pbufcount s0 -> reassdata_free s0 = true -> (forall r, r ∈ reassdatagrams s0 -> IP_ADDRESSES_AND_ID_MATCH (rd_iphdr r) (hdr (zlen d)) = false) ->
  exists ps p d1, ip4_frag bufs mtu [] = Some (ps ++ [p], ERR_OK, []) /\ d1 `prefix_of` d /\ zlen d1 < zlen d /\
    forall qs, qs.*1 ≡ₚ ps -> Forall (fun q => 0 < snd q) qs -> ip_reass_pbufcount s0 + foldr Z.add 0 qs.*2 <= IP_REASS_MAX_PBUFS ->
      exists r, reass_all qs s0 = Some (repeat None (pred (length ps)) ++ [Some r], s0) /\ concat r = hdr (zlen d1) ++ d1.
Proof.
  intros Htos Hid Httl Hproto Hsrc Hdest hdr Hb Hb1 Hbs Hd Hmtu Hcut Hc0 Hfree Hno. destruct bufs as [|b bufs]; [done|].
  set (m := mtu - IP_HLEN) in *. set (n := 8 * (m / 8)). assert (n mod 8 = 0 /\ 8 <= n /\ n <= m < n + 8) as (Hn8 & Hn & Hnm) by (unfold n, m, IP_HLEN; zdivmod).
  unfold cut_right in Hcut. fold n in Hcut. apply orb_false_iff in Hcut as [[Hgt%Z.leb_gt Hne%Z.eqb_neq]%orb_false_iff Hle%Z.ltb_ge].
  pose proof (Z.mod_pos_bound (zlen d) n ltac:(lia)) as Hmod. pose proof (Z.div_mod (zlen d) n ltac:(lia)) as Hdm.
  assert (1 <= zlen d / n) as Hq by (apply Z.div_le_lower_bound; lia). assert (n <= n * (zlen d / n)) as Hnq by nia.
  pose proof (cut_wrong n m Hn Hnm (Z.to_nat 0x2000) (Z.to_nat 0x2000) 0 d) as Ecut. set (d1 := take (Z.to_nat (n * (zlen d / n))) d) in *.
  assert (zlen d1 = n * (zlen d / n)) as Hz1 by (unfold d1; rewrite zlen_take_min by lia; lia). unfold IP_HLEN in Hd.
  destruct (cut_pieces n n Hn8 Hn ltac:(lia) (Z.to_nat 0x2000) 0 d1) as (pre & lst & Ec & H1 & H2 & H3 & H4 & H6); [lia|done|done|unfold IP_HLEN; lia| |].
  { right. left. rewrite Hz1, Z.mul_comm. by apply Z.mod_mul; lia. }
  eexists (frag_packet (hdr (zlen d)) <$> pre ++ [lst]), _, d1. split_and!.
  - rewrite (ip4_frag_eq tos id ttl proto src dest d b bufs mtu) by (done || unfold IP_HLEN; lia). fold m n. rewrite Ecut by lia. rewrite Ec, fmap_app. reflexivity.
  - apply prefix_take.
  - lia.
  - intros qs Hqs Hpos Hsum. replace (pred (length (frag_packet (hdr (zlen d)) <$> pre ++ [lst]))) with (length pre) by (rewrite length_fmap, length_app; cbn; lia).
    eexists. apply (reass_pieces tos id ttl proto src dest d1 pre lst s0 (IP_HLEN + zlen d)); try done. unfold IP_HLEN. lia.
Qed.

(** ** Runs *)

Definition run_hdr (len : Z) : list Z := ip_hdr_out 0 (IP_HLEN + len) 7 64 IP_PROTO_UDP (IP4_ADDR 192 168 7 2) (IP4_ADDR 192 168 7 1).
Definition run_data (len : Z) : list Z := seqZ 0 len.
(** Another packet from the same host waits. *)
Definition run_state : reass :=
  mk_reass [mk_reassdata [mk_frag 0 8 [1; 2; 3; 4; 5; 6; 7; 8] 1] (ip_hdr_out 0 28 6 64 IP_PROTO_UDP (IP4_ADDR 192 168 7 2) (IP4_ADDR 192 168 7 1)) 0 0 9] 1 [].

(** Three fragments, the last one first. *)
Lemma frag_reass_roundtrip_witness : exists ps, ip4_frag [run_hdr 40 ++ take 10 (run_data 40); drop 10 (run_data 40)] 36 [] = Some (ps, ERR_OK, []) /\
  Forall (fun p => zlen p <= 36) ps /\ length ps = 3%nat /\
  exists r, reass_all ((fun p => (p, 1)) <$> reverse ps) run_state = Some ([None; None; Some r], run_state) /\ concat r = run_hdr 40 ++ run_data 40.
Proof.
  destruct (frag_reass_roundtrip 0 7 64 IP_PROTO_UDP (IP4_ADDR 192 168 7 2) (IP4_ADDR 192 168 7 1) (run_data 40)
    [run_hdr 40 ++ take 10 (run_data 40); drop 10 (run_data 40)] 36 run_state) as (ps & Ef & Hps & Hr).
  1-6: vm_compute; by split.
  1, 2: by vm_compute.
  2-6: vm_compute; by repeat split.
  - repeat constructor.
  - intros r ->%list_elem_of_singleton. by vm_compute.
  - assert (length ps = 3%nat) as Hl by (vm_compute in Ef; by injection Ef as <-). rewrite Hl in Hr.
    exists ps. split_and!; try done. apply Hr.
    + rewrite <- list_fmap_compose. replace (fst ∘ (fun p : list Z => (p, 1)) <$> reverse ps) with (reverse ps) by (symmetry; apply list_fmap_id). apply reverse_Permutation.
    + apply Forall_fmap, Forall_true. intros. cbn. lia.
    + by destruct ps as [|p1 [|p2 [|p3 [|]]]].
Defined.

(** With the MTU of this firmware 1490 bytes are two fragments, the first of which is
    taken for the whole packet. *)
Lemma frag_wrong_truncates_witness : exists ps p d1, ip4_frag [run_hdr 1490 ++ run_data 1490] 1514 [] = Some (ps ++ [p], ERR_OK, []) /\
  d1 `prefix_of` run_data 1490 /\ zlen d1 < 1490.
Proof.
  destruct (frag_wrong_truncates 0 7 64 IP_PROTO_UDP (IP4_ADDR 192 168 7 2) (IP4_ADDR 192 168 7 1) (run_data 1490)
    [run_hdr 1490 ++ run_data 1490] 1514 run_state) as (ps & p & d1 & H1 & H2 & H3 & _).
  1-6: vm_compute; by split.
  1, 2: by vm_compute.
  2-6: vm_compute; by repeat split.
  - repeat constructor.
  - intros r ->%list_elem_of_singleton. by vm_compute.
  - exists ps, p, d1. by split_and!.
Defined.

(** A flood of first fragments, one buffer each, with a tick in the middle. *)
Definition run_frag (id off len : Z) (more : bool) : list Z :=
  frag_packet (ip_hdr_out 0 0 id 64 IP_PROTO_UDP (IP4_ADDR 192 168 7 2) (IP4_ADDR 192 168 7 1)) (off, run_data len, more).
Definition run_flood : list reass_event :=
  ((fun id => Fragment (run_frag id 0 8 true) 1) <$> seqZ 1 7) ++ [Tick] ++ ((fun id => Fragment (run_frag id 8 8 true) 2) <$> seqZ 4 4).

Lemma run_flood_ok : Forall event_ok run_flood.
Proof. repeat constructor. Qed.

(** The oldest datagrams have gone. *)
Example run_flood_state : (fun s => (zlen (reassdatagrams s), ip_reass_pbufcount s, zlen (rs_exceeded s))) <$> reass_run run_flood reass_start = Some (3, 9, 4).
Proof. by vm_compute. Qed.

Lemma reass_bounded_witness : exists s, reass_run run_flood reass_start = Some s /\ 0 <= ip_reass_pbufcount s <= IP_REASS_MAX_PBUFS.
Proof. destruct (reass_bounded run_flood run_flood_ok) as (s & H1 & _ & _ & H2 & _). exists s. split; [exact H1|exact H2]. Defined.

Lemma reass_expires_witness : exists s s', reass_run run_flood reass_start = Some s /\ reass_run (repeat Tick 16) s = Some s' /\ reassdatagrams s' = [].
Proof.
  destruct (reass_bounded run_flood run_flood_ok) as (s & E & _).
  destruct (reass_expires run_flood s 16 run_flood_ok E) as (s' & H1 & _ & H2). exists s, s'. split_and!; [done|done|]. by apply H2.
Defined.

(** The last of two fragments comes first. *)
Definition run_first : reass := Eval vm_compute in default reass_start (reass_run [Fragment (run_frag 3 8 4 false) 1] reass_start).
Definition run_packet : list (list Z) := Eval vm_compute in
  match ip4_reass (run_frag 3 0 8 true) 1 run_first with Some (Some r, _) => r | _ => [] end.

Lemma reass_returns_fragments_witness : exists h n qs, ip4_reass (run_frag 3 0 8 true) 1 run_first = Some (Some run_packet, reass_start) /\
  concat run_packet = reass_hdr h n ++ concat (drop (Z.to_nat IP_HLEN) <$> qs) /\ placed 0 qs.
Proof.
  destruct (reass_returns_fragments [Fragment (run_frag 3 8 4 false) 1] (run_frag 3 0 8 true) 1 run_first run_packet reass_start) as (h & n & qs & H1 & _ & H2 & _).
  - repeat constructor.
  - repeat (constructor; [by vm_compute|]). constructor.
  - by vm_compute.
  - by vm_compute.
  - exists h, n, qs. split_and!; [by vm_compute|done|done].
Defined.
