(* ===== verification/Ip4Out.v ===== *)
(** * Ip4Out: the state of the network layer, and packets that go out

    src/lib/lwip/src/core/ipv4/ip4.c, [ip4_output] and what it calls. A packet is its
    buffers from the network layer's point of view: the bytes of each, and how many
    bytes may still be put in front of the first (0 for a buffer that does not hold its
    data itself). What [Pbuf] and its companions show of the real buffers, that every operation
    acts on these bytes, is taken for granted here; who frees a packet is not said.

    The calls out of the network layer, [netif->output] and the allocations, are logged
    or answered by the state, so that every course of events is some state. While
    [netif->output] runs, the driver of this firmware may hand in received packets; here
    they come before or after. *)

From stdpp Require Import gmap.
From S2P Require Import Prelude Chksum Pbuf Inet Ip4Hdr Ip4Frag.

(** ** Packets *)

Record packet := mk_packet { pk_room : Z; pk_bufs : list (list Z) }.

Definition pk_first (p : packet) : list Z := match pk_bufs p with b :: _ => b | [] => [] end.
Definition pk_bytes (p : packet) : list Z := concat (pk_bufs p).
Definition pk_len (p : packet) : Z := zlen (pk_first p).
Definition pk_tot_len (p : packet) : Z := zlen (pk_bytes p).

(** [pbuf_add_header] and the header written into the new bytes; [None] when it fails. *)
Definition pk_add_header (hdr : list Z) (p : packet) : option packet :=
  let n := zlen hdr in
  if n =? 0 then Some p
  else if u16 (n + pk_tot_len p) <? n then None
  else if pk_room p <? n then None
  else match pk_bufs p with
       | b :: bs => Some (mk_packet (pk_room p - n) ((hdr ++ b) :: bs))
       | [] => None
       end.

(** ** The state *)

(** [struct udp_pcb]; the callback and its argument are a number. *)
Record udp_pcb := mk_udp_pcb {
  up_local_ip : Z;
  up_remote_ip : Z;
  up_netif_idx : Z;
  up_tos : Z;
  up_ttl : Z;
  up_flags : Z;
  up_local_port : Z;
  up_remote_port : Z;
  up_recv : option Z }.
#[export] Instance eta_udp_pcb : Eta udp_pcb := fun u =>
  mk_udp_pcb (up_local_ip u) (up_remote_ip u) (up_netif_idx u) (up_tos u) (up_ttl u) (up_flags u) (up_local_port u) (up_remote_port u) (up_recv u).

(** [A] is the state of the layers above. [st_sent] are the packets handed to
    [netif->output] with the address of the next hop, the last one first; [st_outs] are
    the results of the calls to come and [st_mem] the answers of the allocations to come
    (success when they are used up). [st_behind] is what the memory holds behind the
    first buffer of a packet that is received. *)
Record ips (A : Type) := mk_ips {
  ip_id : Z;
  st_netif : netif;
  st_reass : reass;
  udp_pcbs : list Z;
  udp_port : Z;
  st_pcb : gmap Z udp_pcb;
  st_pcb_free : list Z;
  st_sent : list (list Z * Z);
  st_outs : list Z;
  st_mem : list bool;
  st_behind : list Z;
  st_app : A }.
Arguments mk_ips {A}. Arguments ip_id {A}. Arguments st_netif {A}. Arguments st_reass {A}. Arguments udp_pcbs {A}. Arguments udp_port {A}.
Arguments st_pcb {A}. Arguments st_pcb_free {A}. Arguments st_sent {A}. Arguments st_outs {A}. Arguments st_mem {A}. Arguments st_behind {A}. Arguments st_app {A}.
#[export] Instance eta_ips {A} : Eta (ips A) := fun s =>
  mk_ips (ip_id s) (st_netif s) (st_reass s) (udp_pcbs s) (udp_port s) (st_pcb s) (st_pcb_free s) (st_sent s) (st_outs s) (st_mem s) (st_behind s) (st_app s).

Section out.
Context {A : Type}.
Implicit Types s : ips A.
Open Scope st_scope.

(** [netif->output] *)
Definition netif_output (q : list Z) (dest : Z) : STO (ips A) Z :=
  let? s := sto_get in
  sto_mod (fun s => s <| st_sent := (q, dest) :: st_sent s |> <| st_outs := tail (st_outs s) |>) ;?;
  sto_ret (default ERR_OK (head (st_outs s))).

(** An allocation. *)
Definition allocated : STO (ips A) bool :=
  let? s := sto_get in
  sto_mod (fun s => s <| st_mem := tail (st_mem s) |>) ;?;
  sto_ret (default true (head (st_mem s))).

(** [ip4_frag(p, netif, dest)] *)
Definition frag_output (p : packet) (dest : Z) : STO (ips A) Z :=
  let? s := sto_get in
  match ip4_frag (pk_bufs p) (nf_mtu (st_netif s)) (st_mem s) with
  | None => sto_stop
  | Some (qs, err, mem) =>
      sto_mod (fun s => s <| st_mem := mem |>) ;?;
      sto_iter (fun q => netif_output q dest ;?; sto_ret tt) qs ;?;
      sto_ret err
  end.

(** The end of [ip4_output_if_src]. *)
Definition hand_out (p : packet) (dest : Z) : STO (ips A) Z :=
  let? s := sto_get in
  if negb (nf_mtu (st_netif s) =? 0) && (nf_mtu (st_netif s) <? pk_tot_len p)
  then frag_output p dest
  else netif_output (pk_bytes p) dest.

(** [dest = None] stands for [LWIP_IP_HDRINCL], [src = None] for [NULL]. *)
Definition ip4_output_if_src (p : packet) (src dest : option Z) (ttl tos proto : Z) : STO (ips A) Z :=
  match dest with
  | Some dest =>
      let? s := sto_get in
      match pk_add_header (ip_hdr_out tos (pk_tot_len p + IP_HLEN) (ip_id s) ttl proto (default IPADDR_ANY src) dest) p with
      | None => sto_ret ERR_BUF
      | Some p => sto_mod (fun s => s <| ip_id := u16 (ip_id s + 1) |>) ;?; hand_out p dest
      end
  | None =>
      if pk_len p <? IP_HLEN then sto_ret ERR_BUF
      else hand_out p (IPH_DEST (pk_first p))
  end.

Definition ip4_output_if (p : packet) (src dest : option Z) (ttl tos proto : Z) : STO (ips A) Z :=
  let? s := sto_get in
  let src_used :=
    if bool_decide (is_Some dest) && ip4_addr_isany_val (default IPADDR_ANY src) then Some (nf_ip_addr (st_netif s)) else src in
  ip4_output_if_src p src_used dest ttl tos proto.

Definition ip4_output (p : packet) (src : option Z) (dest : Z) (ttl tos proto : Z) : STO (ips A) Z :=
  let? s := sto_get in
  if ip4_route (st_netif s) dest then ip4_output_if p src (Some dest) ttl tos proto
  else sto_ret ERR_RTE.

End out.

(** ** Runs of sequences of calls *)

Lemma run_get {S B} (k : S -> STO S B) s : sto_bind sto_get k s = k s s.
Proof. done. Qed.
Lemma run_ret {S A B} (a : A) (k : A -> STO S B) s : sto_bind (sto_ret a) k s = k a s.
Proof. done. Qed.
Lemma run_mod {S B} (f : S -> S) (k : unit -> STO S B) s : sto_bind (sto_mod f) k s = k tt (f s).
Proof. done. Qed.
Lemma run_bind {S A B C} (m : STO S A) (k : A -> STO S B) (k' : B -> STO S C) s :
  sto_bind (sto_bind m k) k' s = sto_bind m (fun a => sto_bind (k a) k') s.
Proof. unfold sto_bind. by destruct (m s) as [[a s']|]. Qed.
Lemma run_some {S A B} (m : STO S A) (k : A -> STO S B) s a s' : m s = Some (a, s') -> sto_bind m k s = k a s'.
Proof. unfold sto_bind. by intros ->. Qed.
Lemma run_stop {S A B} (k : A -> STO S B) s : sto_bind sto_stop k s = None.
Proof. done. Qed.

(** The statements at the head of a run whose results are known. *)
Ltac run := cbv beta zeta; repeat (first [rewrite run_bind | rewrite run_get | rewrite run_ret | rewrite run_mod]; cbv beta zeta).
