(* ===== verification/Icmp.v ===== *)
(** * Icmp: ICMP

    src/lib/lwip/src/core/ipv4/icmp.c: the answer to an echo request, and the messages
    "destination unreachable" and "time exceeded". *)

From S2P Require Import Prelude Chksum Pbuf Inet Ip4Hdr Ip4Frag Ip4Out.

Definition ICMP_ER : Z := 0.
Definition ICMP_DUR : Z := 3.
Definition ICMP_ECHO : Z := 8.
Definition ICMP_TE : Z := 11.
Definition ICMP_DUR_PROTO : Z := 2.
Definition ICMP_DUR_PORT : Z := 3.
Definition ICMP_TE_FRAG : Z := 1.
Definition ICMP_TTL : Z := 255.
Definition ICMP_DEST_UNREACH_DATASIZE : Z := 8.
Definition SIZEOF_ICMP_ECHO_HDR : Z := 8.

(** What [ip_data] holds while a packet is processed: the addresses of its header and
    the length of the header. *)
Record ip_globals := mk_globals {
  current_iphdr_src : Z;
  current_iphdr_dest : Z;
  current_ip_header_tot_len : Z }.

(** The chain as the checksum routines see it; they give the same wherever the buffers
    lie. *)
Definition chain_of (bufs : list (list Z)) : Chksum.pbuf_chain := (fun b => (0, b)) <$> bufs.

(** [struct icmp_echo_hdr] *)
Definition icmp_hdr (type code chksum id seqno : Z) : list Z := [type; code] ++ le_bytes 2 chksum ++ le_bytes 2 id ++ le_bytes 2 seqno.

(** The checksum of a reply, from that of the request. *)
Definition echo_chksum (chksum : Z) : Z :=
  if PP_HTONS (0xffff - Z.shiftl ICMP_ECHO 8) <? chksum
  then u16 (chksum + PP_HTONS (u16 (Z.shiftl ICMP_ECHO 8)) + 1)
  else u16 (chksum + PP_HTONS (Z.shiftl ICMP_ECHO 8)).

(** The request turned into the reply: the first buffer, from the IP header on. *)
Definition echo_reply (src dest hlen : Z) (b : list Z) : list Z :=
  let icmp := drop (Z.to_nat hlen) b in
  let icmp := mem_write 2 (le_bytes 2 (echo_chksum (le_val (mem_read 2 2 icmp)))) (mem_write 0 [ICMP_ER] icmp) in
  let hdr := take (Z.to_nat hlen) b in
  let hdr := mem_write 16 (le_bytes 4 dest) (mem_write 12 (le_bytes 4 src) hdr) in
  let hdr := IPH_CHKSUM_SET (mem_write 8 [ICMP_TTL] hdr) 0 in
  IPH_CHKSUM_SET hdr (inet_chksum 0 hdr) ++ icmp.

Section icmp.
Context {A : Type}.
Open Scope st_scope.

(** [p]: the memory from the IP header of the packet on that is the reason. *)
Definition icmp_send_response (p : list Z) (type code : Z) : STO (ips A) unit :=
  let? ok := allocated in
  if negb ok then sto_ret tt
  else
    let? s := sto_get in
    let data := take (Z.to_nat (IP_HLEN + ICMP_DEST_UNREACH_DATASIZE)) p in
    let iphdr_src := IPH_SRC p in
    if ip4_route (st_netif s) iphdr_src then
      let c := inet_chksum 0 (icmp_hdr type code 0 0 0 ++ data) in
      ip4_output_if (mk_packet PBUF_IP [icmp_hdr type code c 0 0 ++ data]) None (Some iphdr_src) ICMP_TTL 0 IP_PROTO_ICMP ;?;
      sto_ret tt
    else sto_ret tt.

Definition icmp_dest_unreach (p : list Z) (t : Z) : STO (ips A) unit := icmp_send_response p ICMP_DUR t.
Definition icmp_time_exceeded (p : list Z) (t : Z) : STO (ips A) unit := icmp_send_response p ICMP_TE t.

(** [bufs] are the buffers from the IP header on. A received packet has the Ethernet
    header in front, so that the test for room ([LWIP_ICMP_ECHO_CHECK_INPUT_PBUF_LEN])
    succeeds: the branch that copies the packet is never taken. *)
Definition icmp_input (bufs : list (list Z)) (g : ip_globals) : STO (ips A) unit :=
  let? s := sto_get in
  let n := st_netif s in
  let hlen := current_ip_header_tot_len g in
  match bufs with
  | [] => sto_stop
  | b :: bs =>
      let icmp := drop (Z.to_nat hlen) b in
      if hlen <? IP_HLEN then sto_ret tt
      else if zlen icmp <? 4 then sto_ret tt
      else if mem_get icmp 0 =? ICMP_ECHO then
        let dest := current_iphdr_dest g in
        let src := if ip4_addr_ismulticast dest then nf_ip_addr n else dest in
        let src := if ip4_addr_isbroadcast_u32 dest n then nf_ip_addr n else src in
        if zlen (concat (icmp :: bs)) <? SIZEOF_ICMP_ECHO_HDR then sto_ret tt
        else if negb (inet_chksum_pbuf (chain_of (icmp :: bs)) =? 0) then sto_ret tt
        else
          ip4_output_if (mk_packet SIZEOF_ETH_HDR (echo_reply src (current_iphdr_src g) hlen b :: bs)) (Some src) None ICMP_TTL 0 IP_PROTO_ICMP ;?;
          sto_ret tt
      else sto_ret tt
  end.

End icmp.
