(* ===== verification/Udp.v ===== *)
(** * Udp: UDP

    src/lib/lwip/src/core/udp.c: the protocol control blocks, and datagrams that go out
    and come in. A control block is its address in [MEMP_UDP_PCB], 0 stands for NULL;
    [udp_pcbs] is the list the [next] pointers make. *)

From stdpp Require Import gmap.
From S2P Require Import Prelude Chksum Pbuf Inet Ip4Hdr Ip4Frag Ip4Out Icmp.

Definition UDP_HLEN : Z := 8.
Definition UDP_LOCAL_PORT_RANGE_START : Z := 0xc000.
Definition UDP_LOCAL_PORT_RANGE_END : Z := 0xffff.
Definition UDP_FLAGS_NOCHKSUM : Z := 0x01.
Definition UDP_FLAGS_CONNECTED : Z := 0x04.
Definition UDP_TTL : Z := 255.

(** [struct udp_hdr] *)
Definition udp_hdr (src dest len chksum : Z) : list Z := le_bytes 2 src ++ le_bytes 2 dest ++ le_bytes 2 len ++ le_bytes 2 chksum.

(** The control block [udp_new] makes. *)
Definition udp_pcb_new : udp_pcb := mk_udp_pcb 0 0 0 0 UDP_TTL 0 0 0 None.
Definition up_flag (u : udp_pcb) (f : Z) : bool := negb (Z.land (up_flags u) f =? 0).

(** [udp_new_port]: the port, or 0, and [udp_port] afterwards. *)
Fixpoint new_port_loop (fuel : nat) (ports : list Z) (n udp_port : Z) : option (Z * Z) :=
  match fuel with
  | O => None
  | S fuel =>
      let udp_port := if udp_port =? UDP_LOCAL_PORT_RANGE_END then UDP_LOCAL_PORT_RANGE_START else u16 (udp_port + 1) in
      if existsb (fun p => p =? udp_port) ports then
        let n := u16 (n + 1) in
        if UDP_LOCAL_PORT_RANGE_END - UDP_LOCAL_PORT_RANGE_START <? n then Some (0, udp_port)
        else new_port_loop fuel ports n udp_port
      else Some (udp_port, udp_port)
  end.

(** The first occurrence is taken out. *)
Fixpoint unlink_pcb (pcb : Z) (l : list Z) : list Z :=
  match l with
  | [] => []
  | q :: l => if q =? pcb then l else q :: unlink_pcb pcb l
  end.

(** [udp_input_local_match] *)
Definition udp_input_local_match (u : udp_pcb) (n : netif) (dest : Z) (broadcast : bool) : bool :=
  if negb (up_netif_idx u =? NETIF_NO_INDEX) && negb (up_netif_idx u =? netif_get_index n) then false
  else if broadcast then
    ip4_addr_isany_val (up_local_ip u) || (dest =? IPADDR_BROADCAST) || ip4_addr_netcmp (up_local_ip u) dest (nf_netmask n)
  else ip4_addr_isany_val (up_local_ip u) || (up_local_ip u =? dest).

(** The search of [udp_input]: the first control block that matches fully with the ones
    before it, last first, and those behind it; else the best unconnected one. *)
Fixpoint udp_search (pcb : Z -> udp_pcb) (n : netif) (src_ip src dest_ip dest : Z) (broadcast : bool) (before l : list Z) (uncon : option Z)
    : Z * list Z * list Z + option Z :=
  match l with
  | [] => inr uncon
  | q :: l =>
      let u := pcb q in
      if (up_local_port u =? dest) && udp_input_local_match u n dest_ip broadcast then
        let uncon :=
          if up_flag u UDP_FLAGS_CONNECTED then uncon
          else match uncon with
               | None => Some q
               | Some q0 =>
                   if broadcast && (dest_ip =? IPADDR_BROADCAST) then
                     if negb (up_local_ip (pcb q0) =? nf_ip_addr n) && (up_local_ip u =? nf_ip_addr n) then Some q else uncon
                   else uncon
               end in
        if (up_remote_port u =? src) && (ip4_addr_isany_val (up_remote_ip u) || (up_remote_ip u =? src_ip))
        then inl (q, before, l)
        else udp_search pcb n src_ip src dest_ip dest broadcast (q :: before) l uncon
      else udp_search pcb n src_ip src dest_ip dest broadcast (q :: before) l uncon
  end.

(** [pcb->recv(pcb->recv_arg, pcb, p, addr, port)] *)
Class UdpRecv (A : Type) := recv_call : Z -> Z -> list (list Z) -> Z -> Z -> STO (ips A) unit.

Section udp.
Context {A : Type}.
Open Scope st_scope.

(** Reading and writing a control block. *)
Definition pcb_get (s : ips A) (pcb : Z) : udp_pcb := default udp_pcb_new (st_pcb s !! pcb).
Definition pcb_mod (pcb : Z) (f : udp_pcb -> udp_pcb) : STO (ips A) unit :=
  sto_mod (fun s => s <| st_pcb := <[pcb := f (pcb_get s pcb)]> (st_pcb s) |>).

(** ** Control blocks *)

(** [udp_init], with the value of [LWIP_RAND]. *)
Definition udp_init (rand : Z) : STO (ips A) unit :=
  sto_mod (fun s => s <| udp_port := u16 (Z.land (u16 rand) (0xffff - UDP_LOCAL_PORT_RANGE_START) + UDP_LOCAL_PORT_RANGE_START) |>).

Definition udp_new_port : STO (ips A) Z :=
  let? s := sto_get in
  match new_port_loop (Z.to_nat 0x4000) ((fun q => up_local_port (pcb_get s q)) <$> udp_pcbs s) 0 (udp_port s) with
  | None => sto_stop
  | Some (port, last) => sto_mod (fun s => s <| udp_port := last |>) ;?; sto_ret port
  end.

Definition udp_new : STO (ips A) Z :=
  let? s := sto_get in
  match st_pcb_free s with
  | [] => sto_ret 0
  | q :: free => sto_mod (fun s => s <| st_pcb_free := free |> <| st_pcb := <[q := udp_pcb_new]> (st_pcb s) |>) ;?; sto_ret q
  end.

(** Whether another control block is in the way of a port. *)
Definition port_taken (s : ips A) (pcb ipaddr port : Z) : bool :=
  existsb (fun q => negb (q =? pcb) && (up_local_port (pcb_get s q) =? port) &&
    ((up_local_ip (pcb_get s q) =? ipaddr) || ip4_addr_isany_val ipaddr || ip4_addr_isany_val (up_local_ip (pcb_get s q)))) (udp_pcbs s).

(** [ipaddr = None] stands for [NULL]. *)
Definition udp_bind (pcb : Z) (ipaddr : option Z) (port : Z) : STO (ips A) Z :=
  let ipaddr := default IPADDR_ANY ipaddr in
  if pcb =? 0 then sto_ret ERR_ARG
  else
    let? s := sto_get in
    let rebind := bool_decide (pcb ∈ udp_pcbs s) in
    let? r := (if port =? 0 then
                 let? port := udp_new_port in
                 sto_ret (if port =? 0 then None else Some port)
               else sto_ret (if port_taken s pcb ipaddr port then None else Some port)) in
    match r with
    | None => sto_ret ERR_USE
    | Some port =>
        pcb_mod pcb (fun u => u <| up_local_ip := ipaddr |> <| up_local_port := port |>) ;?;
        sto_when (negb rebind) (sto_mod (fun s => s <| udp_pcbs := pcb :: udp_pcbs s |>)) ;?;
        sto_ret ERR_OK
    end.

Definition udp_bind_netif (pcb : Z) (n : option netif) : STO (ips A) unit :=
  pcb_mod pcb (fun u => u <| up_netif_idx := match n with Some n => netif_get_index n | None => NETIF_NO_INDEX end |>).

Definition udp_connect (pcb : Z) (ipaddr port : Z) : STO (ips A) Z :=
  if pcb =? 0 then sto_ret ERR_ARG
  else
    let? s := sto_get in
    let u := pcb_get s pcb in
    let? err := (if up_local_port u =? 0 then udp_bind pcb (Some (up_local_ip u)) (up_local_port u) else sto_ret ERR_OK) in
    if negb (err =? ERR_OK) then sto_ret err
    else
      pcb_mod pcb (fun u => u <| up_remote_ip := ipaddr |> <| up_remote_port := port |> <| up_flags := Z.lor (up_flags u) UDP_FLAGS_CONNECTED |>) ;?;
      let? s := sto_get in
      sto_when (negb (bool_decide (pcb ∈ udp_pcbs s))) (sto_mod (fun s => s <| udp_pcbs := pcb :: udp_pcbs s |>)) ;?;
      sto_ret ERR_OK.

Definition udp_disconnect (pcb : Z) : STO (ips A) unit :=
  sto_when (negb (pcb =? 0))
    (pcb_mod pcb (fun u => u <| up_remote_ip := IPADDR_ANY |> <| up_remote_port := 0 |> <| up_netif_idx := NETIF_NO_INDEX |>
                             <| up_flags := Z.land (up_flags u) (Z.lxor 0xff UDP_FLAGS_CONNECTED) |>)).

Definition udp_recv (pcb : Z) (recv : option Z) : STO (ips A) unit :=
  sto_when (negb (pcb =? 0)) (pcb_mod pcb (fun u => u <| up_recv := recv |>)).

Definition udp_remove (pcb : Z) : STO (ips A) unit :=
  sto_when (negb (pcb =? 0))
    (sto_mod (fun s => s <| udp_pcbs := unlink_pcb pcb (udp_pcbs s) |> <| st_pcb_free := pcb :: st_pcb_free s |>)).

Definition udp_netif_ip_addr_changed (old_addr new_addr : Z) : STO (ips A) unit :=
  sto_when (negb (ip4_addr_isany_val old_addr) && negb (ip4_addr_isany_val new_addr))
    (let? s := sto_get in
     sto_iter (fun q => let? s := sto_get in
                        sto_when (up_local_ip (pcb_get s q) =? old_addr) (pcb_mod q (fun u => u <| up_local_ip := new_addr |>))) (udp_pcbs s)).

(** ** Datagrams that go out *)

(** The packet with room for the header in it or in front of it; [inr]: no memory. *)
Definition udp_header_room (hdr : list Z) (p : packet) : STO (ips A) (option packet) :=
  match pk_add_header hdr p with
  | Some q => sto_ret (Some q)
  | None =>
      let? ok := allocated in
      sto_ret (if ok : bool then Some (mk_packet PBUF_IP (hdr :: if pk_tot_len p =? 0 then [] else pk_bufs p)) else None)
  end.

Definition udp_sendto_if_src (pcb : Z) (p : packet) (dst_ip dst_port src_ip : Z) : STO (ips A) Z :=
  if pcb =? 0 then sto_ret ERR_ARG
  else
    let? s := sto_get in
    let u := pcb_get s pcb in
    let? err := (if up_local_port u =? 0 then udp_bind pcb (Some (up_local_ip u)) (up_local_port u) else sto_ret ERR_OK) in
    if negb (err =? ERR_OK) then sto_ret err
    else if u16 (pk_tot_len p + UDP_HLEN) <? pk_tot_len p then sto_ret ERR_MEM
    else
      let? s := sto_get in
      let u := pcb_get s pcb in
      let hdr := udp_hdr (lwip_htons (up_local_port u)) (lwip_htons dst_port) (lwip_htons (u16 (pk_tot_len p + UDP_HLEN))) in
      let? q := udp_header_room (hdr 0) p in
      match q with
      | None => sto_ret ERR_MEM
      | Some q =>
          let udpchksum := ip_chksum_pseudo (chain_of (pk_bufs q)) IP_PROTO_UDP (pk_tot_len q) src_ip dst_ip in
          let udpchksum := if udpchksum =? 0 then 0xffff else udpchksum in
          let q := if up_flag u UDP_FLAGS_NOCHKSUM then q
                   else match pk_bufs q with
                        | b :: bs => mk_packet (pk_room q) (mem_write 6 (le_bytes 2 udpchksum) b :: bs)
                        | [] => q
                        end in
          ip4_output_if_src q (Some src_ip) (Some dst_ip) (up_ttl u) (up_tos u) IP_PROTO_UDP
      end.

Definition udp_sendto_if (pcb : Z) (p : packet) (dst_ip dst_port : Z) : STO (ips A) Z :=
  if pcb =? 0 then sto_ret ERR_ARG
  else
    let? s := sto_get in
    let n := st_netif s in
    let u := pcb_get s pcb in
    if ip4_addr_isany_val (up_local_ip u) || ip4_addr_ismulticast (up_local_ip u) then
      udp_sendto_if_src pcb p dst_ip dst_port (nf_ip_addr n)
    else if negb (up_local_ip u =? nf_ip_addr n) then sto_ret ERR_RTE
    else udp_sendto_if_src pcb p dst_ip dst_port (up_local_ip u).

Definition udp_sendto (pcb : Z) (p : packet) (dst_ip dst_port : Z) : STO (ips A) Z :=
  if pcb =? 0 then sto_ret ERR_ARG
  else
    let? s := sto_get in
    let n := st_netif s in
    let idx := up_netif_idx (pcb_get s pcb) in
    let found := if negb (idx =? NETIF_NO_INDEX) then idx =? netif_get_index n else ip4_route n dst_ip in
    if found then udp_sendto_if pcb p dst_ip dst_port else sto_ret ERR_RTE.

Definition udp_send (pcb : Z) (p : packet) : STO (ips A) Z :=
  if pcb =? 0 then sto_ret ERR_ARG
  else let? s := sto_get in udp_sendto pcb p (up_remote_ip (pcb_get s pcb)) (up_remote_port (pcb_get s pcb)).

(** ** Datagrams that come in *)

(** [bufs] are the buffers from the IP header on, the UDP header is in the first. *)
Definition udp_input `{!UdpRecv A} (bufs : list (list Z)) (g : ip_globals) : STO (ips A) unit :=
  let? s := sto_get in
  let n := st_netif s in
  match bufs with
  | [] => sto_stop
  | b :: bs =>
      let udp := drop (Z.to_nat (current_ip_header_tot_len g)) b in
      if zlen udp <? UDP_HLEN then sto_ret tt
      else
        let dest_ip := current_iphdr_dest g in
        let broadcast := ip4_addr_isbroadcast_u32 dest_ip n in
        let src := lwip_htons (le_val (mem_read 0 2 udp)) in
        let dest := lwip_htons (le_val (mem_read 2 2 udp)) in
        let? pcb := match udp_search (pcb_get s) n (current_iphdr_src g) src dest_ip dest broadcast [] (udp_pcbs s) None with
                    | inl (q, before, behind) =>
                        sto_mod (fun s => s <| udp_pcbs := q :: reverse before ++ behind |>) ;?; sto_ret (Some q)
                    | inr uncon => sto_ret uncon
                    end in
        let for_us := match pcb with Some _ => true | None => nf_ip_addr n =? dest_ip end in
        if negb for_us then sto_ret tt
        else if negb (le_val (mem_read 6 2 udp) =? 0) &&
                negb (ip_chksum_pseudo (chain_of (udp :: bs)) IP_PROTO_UDP (zlen (concat (udp :: bs))) (current_iphdr_src g) dest_ip =? 0)
        then sto_ret tt
        else
          match pcb with
          | Some q =>
              match up_recv (pcb_get s q) with
              | Some recv => recv_call recv q (drop (Z.to_nat UDP_HLEN) udp :: bs) (current_iphdr_src g) src
              | None => sto_ret tt
              end
          | None =>
              if negb broadcast && negb (ip4_addr_ismulticast dest_ip) then icmp_dest_unreach (b ++ st_behind s) ICMP_DUR_PORT
              else sto_ret tt
          end
  end.

End udp.
