(* ===== verification/Ip4In.v ===== *)
(** * Ip4In: packets that come in

    src/lib/lwip/src/core/ipv4/ip4.c, [ip4_input], and the two places that make the
    reassembly send its messages. TCP is an interface. *)

From stdpp Require Import gmap.
From S2P Require Import Prelude Chksum Pbuf Inet Ip4Hdr Ip4Frag Ip4Out Icmp Udp.

(** [pbuf_realloc] to [n] bytes, when there are more. *)
Fixpoint pk_realloc (n : Z) (bufs : list (list Z)) : list (list Z) :=
  match bufs with
  | [] => []
  | b :: bs => if zlen b <? n then b :: pk_realloc (n - zlen b) bs else [take (Z.to_nat n) b]
  end.

(** [LWIP_IP_ACCEPT_UDP_PORT] *)
Definition LWIP_IP_ACCEPT_UDP_PORT (p : Z) : bool := p =? PP_HTONS 67.

Definition ip4_input_accept (n : netif) (dest : Z) : bool :=
  netif_is_up n && negb (ip4_addr_isany_val (nf_ip_addr n)) &&
  ((dest =? nf_ip_addr n) || ip4_addr_isbroadcast_u32 dest n).

(** Whether the packet is for the interface, and whether its source is to be checked:
    [m] is the memory from the IP header on. *)
Definition ip4_input_netif (n : netif) (m : list Z) (hlen : Z) : bool * bool :=
  let dest := IPH_DEST m in
  let mine :=
    if ip4_addr_ismulticast dest then netif_is_up n && negb (ip4_addr_isany_val (nf_ip_addr n))
    else ip4_input_accept n dest in
  if negb mine && (IPH_PROTO m =? IP_PROTO_UDP) && LWIP_IP_ACCEPT_UDP_PORT (le_val (mem_read (hlen + 2) 2 m))
  then (true, false)
  else (mine, true).

Definition ip4_source_valid (n : netif) (src : Z) (check_ip_src : bool) : bool :=
  if check_ip_src && negb (ip4_addr_isany_val src)
  then negb (ip4_addr_isbroadcast_u32 src n || ip4_addr_ismulticast src)
  else true.

(** [tcp_input(p, inp)], with the buffers from the IP header on. *)
Class TcpIn (A : Type) := tcp_input : list (list Z) -> ip_globals -> STO (ips A) unit.

Section input.
Context {A : Type} `{!UdpRecv A, !TcpIn A}.
Open Scope st_scope.

(** The messages for the datagrams the reassembly has given up. *)
Definition send_exceeded : STO (ips A) unit :=
  let? s := sto_get in
  sto_mod (fun s => s <| st_reass := (st_reass s) <| rs_exceeded := [] |> |>) ;?;
  sto_iter (fun q => icmp_time_exceeded (q ++ st_behind s) ICMP_TE_FRAG) (reverse (rs_exceeded (st_reass s))).

Definition ip_reass_tmr_call : STO (ips A) unit :=
  let? s := sto_get in
  match ip_reass_tmr (st_reass s) with
  | None => sto_stop
  | Some r => sto_mod (fun s => s <| st_reass := r |>) ;?; send_exceeded
  end.

Definition ip4_reass_call (bufs : list (list Z)) : STO (ips A) (option (list (list Z))) :=
  let? s := sto_get in
  match ip4_reass (concat bufs) (zlen bufs) (st_reass s) with
  | None => sto_stop
  | Some (q, r) => sto_mod (fun s => s <| st_reass := r |>) ;?; send_exceeded ;?; sto_ret q
  end.

(** The upper layers. *)
Definition ip4_deliver (bufs : list (list Z)) (hlen : Z) (g : ip_globals) : STO (ips A) unit :=
  let? s := sto_get in
  match bufs with
  | [] => sto_stop
  | b :: _ =>
      if IPH_PROTO b =? IP_PROTO_UDP then udp_input bufs g
      else if IPH_PROTO b =? IP_PROTO_TCP then tcp_input bufs g
      else if IPH_PROTO b =? IP_PROTO_ICMP then icmp_input bufs g
      else if negb (ip4_addr_isbroadcast_u32 (current_iphdr_dest g) (st_netif s)) && negb (ip4_addr_ismulticast (current_iphdr_dest g))
           then icmp_dest_unreach (b ++ st_behind s) ICMP_DUR_PROTO
           else sto_ret tt
  end.

Definition ip4_input (bufs : list (list Z)) : STO (ips A) Z :=
  let? s := sto_get in
  let n := st_netif s in
  match bufs with
  | [] => sto_stop
  | b :: _ =>
      let m := b ++ st_behind s in
      if negb (IPH_V m =? 4) then sto_ret ERR_OK
      else
        let iphdr_hlen := IPH_HL_BYTES m in
        let iphdr_len := lwip_htons (IPH_LEN m) in
        let bufs := if iphdr_len <? zlen (concat bufs) then pk_realloc iphdr_len bufs else bufs in
        let len := zlen (default [] (head bufs)) in
        if (len <? iphdr_hlen) || (zlen (concat bufs) <? iphdr_len) || (iphdr_hlen <? IP_HLEN) then sto_ret ERR_OK
        else if negb (inet_chksum 0 (take (Z.to_nat iphdr_hlen) m) =? 0) then sto_ret ERR_OK
        else
          let src := IPH_SRC m in
          let dest := IPH_DEST m in
          let '(mine, check_ip_src) := ip4_input_netif n m iphdr_hlen in
          if negb (ip4_source_valid n src check_ip_src) then sto_ret ERR_OK
          else if negb mine then sto_ret ERR_OK
          else
            let? r := (if negb (Z.land (IPH_OFFSET m) (PP_HTONS (Z.lor IP_OFFMASK IP_MF)) =? 0)
                       then ip4_reass_call bufs else sto_ret (Some bufs)) in
            match r with
            | None => sto_ret ERR_OK
            | Some bufs =>
                ip4_deliver bufs iphdr_hlen (mk_globals src dest iphdr_hlen) ;?;
                sto_ret ERR_OK
            end
  end.
End input.
