(* ===== verification/Ip4InProps.v ===== *)
(** * Ip4InProps: packets through the network layer

    What [ip4_input] does with a packet whose header is right: the upper layer gets it,
    or the reassembly; the answer to an echo request. *)

From stdpp Require Import gmap.
From S2P Require Import Prelude Chksum Pbuf PbufData Inet Ip4Hdr Ip4Frag Ip4FragProps Ip4Reass Ip4Out Icmp Udp Ip4In.

(** The header is in the first buffer. *)
Lemma first_buffer (h x b : list Z) bufs : concat (b :: bufs) = h ++ x -> zlen h <= zlen b -> b = h ++ drop (length h) b.
Proof.
  intros E Hz. unfold zlen in Hz. cbn [concat] in E. rewrite <- (take_drop (length h) b) at 1. f_equal.
  transitivity (take (length h) (b ++ concat bufs)); [by rewrite take_app_le by lia|]. rewrite E, take_app_le by done. by rewrite take_ge.
Qed.

(** The checksum of bytes in a chain. *)
Lemma chain_of_data bufs : chain_data (chain_of bufs) = concat bufs.
Proof. unfold chain_data, chain_of. f_equal. rewrite <- list_fmap_compose. apply list_fmap_id. Qed.

Lemma chain_of_ok bufs : Forall is_u8 (concat bufs) -> zlen (concat bufs) < 65536 -> chain_ok (chain_of bufs).
Proof.
  unfold chain_ok, chain_of. induction bufs as [|b bufs IH]; intros Hu Hz; [constructor|]. cbn [concat fmap list_fmap] in *. rewrite zlen_app in Hz.
  apply Forall_app in Hu as [Hb Hu]. pose proof (zlen_nonneg b). pose proof (zlen_nonneg (concat bufs)). constructor; [|apply IH; [done|lia]]. split; [done|]. cbn [snd]. lia.
Qed.

Lemma chksum_chain_of bufs : Forall is_u8 (concat bufs) -> zlen (concat bufs) < 65536 -> inet_chksum_pbuf (chain_of bufs) = inet_chksum 0 (concat bufs).
Proof. intros Hu Hz. rewrite chksum_pbuf_spec by (by apply chain_of_ok). by rewrite chain_of_data, chksum_flat by (done || lia). Qed.

(** A packet the interface takes. *)
Definition accepts (n : netif) (src dest : Z) : bool :=
  (if ip4_addr_ismulticast dest then netif_is_up n && negb (ip4_addr_isany_val (nf_ip_addr n)) else ip4_input_accept n dest) &&
  ip4_source_valid n src true.

(** The words of an ICMP message. *)
Lemma wsum_icmp t code ck id seq data : is_u8 t -> is_u8 code -> is_u16 ck -> is_u16 id -> is_u16 seq ->
  wsum false (icmp_hdr t code ck id seq ++ data) = t + 256 * code + ck + id + seq + wsum false data.
Proof.
  intros. rewrite wsum_app. change (odd_len (icmp_hdr t code ck id seq)) with false. unfold icmp_hdr, is_u16 in *. cbn [app le_bytes wsum negb xorb]. zdivmod.
Qed.

Lemma icmp_msg_u8 t code ck id seq data : is_u8 t -> is_u8 code -> Forall is_u8 data -> Forall is_u8 (icmp_hdr t code ck id seq ++ data).
Proof. intros. unfold icmp_hdr. rewrite !Forall_app. split_and!; try apply le_bytes_u8; [|done]. repeat (constructor; try done). Qed.

(** The checksum of a reply is right when that of the request is. *)
Lemma echo_chksum_right code ck id seq data : is_u8 code -> is_u16 ck -> is_u16 id -> is_u16 seq -> Forall is_u8 data -> zlen data < 65536 ->
  inet_chksum 0 (icmp_hdr ICMP_ECHO code ck id seq ++ data) = 0 ->
  is_u16 (echo_chksum ck) /\ inet_chksum 0 (icmp_hdr ICMP_ER code (echo_chksum ck) id seq ++ data) = 0.
Proof.
  intros Hcode Hck Hid Hseq Hd Hz. assert (is_u16 (echo_chksum ck)) as He by (unfold echo_chksum; case_if; apply u16_range).
  assert (forall t c, is_u8 t -> is_u16 c -> inet_chksum 0 (icmp_hdr t code c id seq ++ data) = 65535 - csum (t + 256 * code + c + id + seq + wsum false data)) as Hsum.
  { intros t c Ht Hc. rewrite chksum_flat; [by rewrite wsum_icmp|by apply icmp_msg_u8|rewrite zlen_app; change (zlen (icmp_hdr t code c id seq)) with 8; lia]. }
  rewrite (Hsum ICMP_ECHO ck), (Hsum ICMP_ER (echo_chksum ck)) by done. intros H. split; [done|].
  pose proof (wsum_nonneg false data Hd). unfold is_u8, is_u16, ICMP_ECHO, ICMP_ER in *. set (R := wsum false data) in *.
  assert ((8 + 256 * code + ck + id + seq + R) mod 65535 = 0) as Hm by (apply csum_full; lia).
  assert (csum (0 + 256 * code + echo_chksum ck + id + seq + R) = 65535) as ->; [|done].
  unfold echo_chksum in *. change (PP_HTONS (0xffff - Z.shiftl ICMP_ECHO 8)) with 65527 in *. change (PP_HTONS (u16 (Z.shiftl ICMP_ECHO 8))) with 8 in *. change (PP_HTONS (Z.shiftl ICMP_ECHO 8)) with 8 in *.
  unfold u16 in *. destruct (Z.ltb_spec 65527 ck); (apply csum_full; zdivmod).
Qed.

(** A byte string that begins with another, cut somewhere behind it. *)
Lemma cut_after {B} (p r x y : list B) : x ++ y = p ++ r -> (length p <= length x)%nat -> exists x', x = p ++ x' /\ x' ++ y = r.
Proof.
  intros E Hl. exists (drop (length p) x). assert (x = p ++ drop (length p) x) as Ex.
  { rewrite <- (take_drop (length p) x) at 1. f_equal. transitivity (take (length p) (x ++ y)); [by rewrite take_app_le|]. rewrite E, take_app_le by done. by rewrite take_ge. }
  split; [done|]. rewrite Ex, <- app_assoc in E. by simplify_list_eq.
Qed.

Section input.
Context {A : Type} `{!UdpRecv A, !TcpIn A}.
Implicit Types s : ips A.
Open Scope st_scope.

Lemma hand_out_fits s p dest : nf_mtu (st_netif s) = 0 \/ pk_tot_len p <= nf_mtu (st_netif s) -> hand_out p dest s = netif_output (pk_bytes p) dest s.
Proof.
  intros H. unfold hand_out. change (sto_bind sto_get ?k s) with (k s s). cbv beta.
  replace (negb (nf_mtu (st_netif s) =? 0) && (nf_mtu (st_netif s) <? pk_tot_len p)) with false; [done|]. destruct H as [-> | H]; [done|].
  replace (nf_mtu (st_netif s) <? pk_tot_len p) with false by lia. by rewrite andb_false_r.
Qed.

Definition after_reass (hlen : Z) (g : ip_globals) (r : option (list (list Z))) : STO (ips A) Z :=
  match r with
  | None => sto_ret ERR_OK
  | Some bufs => ip4_deliver bufs hlen g ;?; sto_ret ERR_OK
  end.

Lemma ip4_input_accepted s tos tot id off ttl proto c src dest payload bufs :
  is_u8 tos -> is_u16 tot -> is_u16 id -> is_u16 off -> is_u8 ttl -> is_u8 proto -> is_u16 c -> is_u32 src -> is_u32 dest ->
  let h := ip_hdr 0x45 tos (lwip_htons tot) id off ttl proto c src dest in
  concat bufs = h ++ payload -> 20 <= zlen (default [] (head bufs)) -> tot = 20 + zlen payload -> inet_chksum 0 h = 0 ->
  accepts (st_netif s) src dest = true ->
  ip4_input bufs s =
    sto_bind (if negb (Z.land off (PP_HTONS (Z.lor IP_OFFMASK IP_MF)) =? 0) then ip4_reass_call bufs else sto_ret (Some bufs))
      (after_reass IP_HLEN (mk_globals src dest IP_HLEN)) s.
Proof.
  intros Htos Htot Hid Hoff Httl Hproto Hc Hsrc Hdest h Hb Hfirst Et Hck Hacc. destruct bufs as [|b bufs]; [done|]. change (20 <= zlen b) in Hfirst.
  assert (zlen h = 20) as Hzh by apply ip_hdr_zlen. pose proof (first_buffer h payload b bufs Hb ltac:(lia)) as Eb. set (d := drop (length h) b) in *.
  unfold ip4_input. change (sto_bind sto_get ?k s) with (k s s). cbv beta zeta iota. set (m := b ++ st_behind s).
  assert (m = h ++ d ++ st_behind s) as Em by (unfold m; by rewrite Eb, <- app_assoc).
  destruct (ip_hdr_fields 0x45 tos (lwip_htons tot) id off ttl proto c src dest (d ++ st_behind s)) as (Ev & El & _ & Eo & _ & Ep & _ & Es & Ed); [by try apply htons_u16..|].
  fold h in Ev, El, Eo, Ep, Es, Ed. rewrite <- Em in Ev, El, Eo, Ep, Es, Ed.
  assert (IPH_V m = 4 /\ IPH_HL_BYTES m = 20) as [E1 E2] by (unfold IPH_V, IPH_HL_BYTES, IPH_HL; rewrite Ev; by split).
  assert (take (Z.to_nat 20) m = h) as Etk by (rewrite Em, take_app_le by done; by rewrite take_ge).
  rewrite E1, E2, El, Eo, Es, Ed, Etk, Hck, htons_twice by done. change (negb (4 =? 4)) with false. change (negb (0 =? 0)) with false. cbv iota.
  assert (zlen (concat (b :: bufs)) = tot) as Ez by (rewrite Hb, zlen_app; lia). rewrite Ez, Z.ltb_irrefl. change (default [] (head (b :: bufs))) with b.
  replace (zlen b <? 20) with false by lia. rewrite Ez, Z.ltb_irrefl. change (20 <? IP_HLEN) with false. cbv iota. cbn [orb].
  apply andb_true_iff in Hacc as [Hmine Hvalid]. unfold ip4_input_netif. rewrite Ed, Hmine. cbn [negb andb]. cbv beta iota. rewrite Hvalid. cbn [negb]. done.
Qed.

(** ** The answer to an echo request *)

Lemma accepted_source n src dest : accepts n src dest = true ->
  (if ip4_addr_isbroadcast_u32 dest n then nf_ip_addr n else if ip4_addr_ismulticast dest then nf_ip_addr n else dest) = nf_ip_addr n.
Proof.
  unfold accepts, ip4_input_accept. intros [H _]%andb_true_iff. destruct (ip4_addr_isbroadcast_u32 dest n); [done|].
  destruct (ip4_addr_ismulticast dest); [done|]. rewrite orb_false_r in H. apply andb_true_iff in H as [_ H]. lia.
Qed.

Lemma echo_reply_eq tos len id off ttl c src dest own code ck x : is_u16 ck -> 
  let c' := inet_chksum 0 (ip_hdr 0x45 tos len id off ICMP_TTL IP_PROTO_ICMP 0 own src) in
  echo_reply own src IP_HLEN (ip_hdr 0x45 tos len id off ttl IP_PROTO_ICMP c src dest ++ [ICMP_ECHO; code] ++ le_bytes 2 ck ++ x) =
    ip_hdr 0x45 tos len id off ICMP_TTL IP_PROTO_ICMP c' own src ++ [ICMP_ER; code] ++ le_bytes 2 (echo_chksum ck) ++ x.
Proof.
  intros Hck c'. set (h := ip_hdr 0x45 tos len id off ttl IP_PROTO_ICMP c src dest). set (y := [ICMP_ECHO; code] ++ le_bytes 2 ck ++ x). unfold echo_reply.
  change (drop (Z.to_nat IP_HLEN) (h ++ y)) with y. change (take (Z.to_nat IP_HLEN) (h ++ y)) with h.
  change (mem_read 2 2 y) with (le_bytes 2 ck). rewrite le_val_bytes, (Z.mod_small ck) by done. reflexivity.
Qed.

Lemma icmp_echo_out s tos len id off ttl c src dest own code ck x bs : is_u16 ck -> is_u32 src ->
  (if ip4_addr_isbroadcast_u32 dest (st_netif s) then nf_ip_addr (st_netif s) else if ip4_addr_ismulticast dest then nf_ip_addr (st_netif s) else dest) = own ->
  let c' := inet_chksum 0 (ip_hdr 0x45 tos len id off ICMP_TTL IP_PROTO_ICMP 0 own src) in
  let b' := ip_hdr 0x45 tos len id off ICMP_TTL IP_PROTO_ICMP c' own src ++ [ICMP_ER; code] ++ le_bytes 2 (echo_chksum ck) ++ x in
  let msg := [ICMP_ECHO; code] ++ le_bytes 2 ck ++ x in
  8 <= zlen (msg ++ concat bs) -> inet_chksum_pbuf (chain_of (msg :: bs)) = 0 ->
  nf_mtu (st_netif s) = 0 \/ zlen (concat (b' :: bs)) <= nf_mtu (st_netif s) ->
  icmp_input ((ip_hdr 0x45 tos len id off ttl IP_PROTO_ICMP c src dest ++ msg) :: bs) (mk_globals src dest IP_HLEN) s =
    Some (tt, s <| st_sent := (concat (b' :: bs), src) :: st_sent s |> <| st_outs := tail (st_outs s) |>).
Proof.
  intros Hck Hsrc Hown c' b' msg Hlen Hsum Hmtu. unfold icmp_input. change (sto_bind sto_get ?k s) with (k s s). cbv beta. cbn [current_ip_header_tot_len current_iphdr_dest current_iphdr_src].
  set (h := ip_hdr 0x45 tos len id off ttl IP_PROTO_ICMP c src dest). change (drop (Z.to_nat IP_HLEN) (h ++ msg)) with msg. cbv zeta. rewrite Hown.
  change (IP_HLEN <? IP_HLEN) with false. assert (4 <= zlen msg) by (unfold msg; rewrite !zlen_app, le_bytes_zlen; change (zlen [_; _]) with 2; pose proof (zlen_nonneg x); lia).
  replace (zlen msg <? 4) with false by lia.
  change (mem_get msg 0 =? ICMP_ECHO) with true. cbv iota. cbn [concat]. unfold SIZEOF_ICMP_ECHO_HDR. replace (zlen (msg ++ concat bs) <? 8) with false by lia. rewrite Hsum. change (negb (0 =? 0)) with false. cbv iota.
  unfold h, msg. rewrite echo_reply_eq by done. fold c'. fold b'. unfold ip4_output_if. change (sto_bind sto_get ?k s) with (k s s). cbv beta. cbn [andb bool_decide].
  assert (IP_HLEN <= zlen b') as Hb' by (unfold b'; rewrite zlen_app, ip_hdr_zlen; match goal with |- context [_ + zlen ?y] => pose proof (zlen_nonneg y) end; lia).
  unfold ip4_output_if_src, pk_len, pk_first. cbn [pk_bufs]. replace (zlen b' <? IP_HLEN) with false by lia.
  assert (IPH_DEST b' = src) as -> by (change (le_val (le_bytes 4 src) = src); by apply ip4_bytes).
  run. erewrite run_some; [|rewrite hand_out_fits by done; done]. done.
Qed.

(** C17: An echo request to the interface, however it is cut into buffers behind its first
    four bytes, is answered by exactly one packet, to its sender: the reply carries its
    identifier, sequence number and data, is of type echo reply, comes from the address
    of the interface even if the request went to a broadcast or multicast address, and
    passes the check of both its checksums. Nothing else changes. *)
Theorem ping_reply s tos id off ttl c src dest code ck iid seq data bufs :
  is_u8 tos -> is_u16 id -> is_u16 off -> is_u8 ttl -> is_u16 c -> is_u32 src -> is_u32 dest -> is_u8 code -> is_u16 ck -> is_u16 iid -> is_u16 seq ->
  Forall is_u8 data -> is_u32 (nf_ip_addr (st_netif s)) ->
  let tot := 28 + zlen data in
  let h := ip_hdr 0x45 tos (lwip_htons tot) id off ttl IP_PROTO_ICMP c src dest in
  tot < 65536 -> concat bufs = h ++ icmp_hdr ICMP_ECHO code ck iid seq ++ data -> 24 <= zlen (default [] (head bufs)) ->
  inet_chksum 0 h = 0 -> inet_chksum 0 (icmp_hdr ICMP_ECHO code ck iid seq ++ data) = 0 ->
  Z.land off (PP_HTONS (Z.lor IP_OFFMASK IP_MF)) = 0 -> accepts (st_netif s) src dest = true ->
  nf_mtu (st_netif s) = 0 \/ tot <= nf_mtu (st_netif s) ->
  exists c' ck', let h' := ip_hdr 0x45 tos (lwip_htons tot) id off ICMP_TTL IP_PROTO_ICMP c' (nf_ip_addr (st_netif s)) src in
    let msg := icmp_hdr ICMP_ER code ck' iid seq ++ data in
    is_u16 c' /\ is_u16 ck' /\ inet_chksum 0 h' = 0 /\ inet_chksum 0 msg = 0 /\
    ip4_input bufs s = Some (ERR_OK, s <| st_sent := (h' ++ msg, src) :: st_sent s |> <| st_outs := tail (st_outs s) |>).
Proof.
  intros Htos Hid Hoff Httl Hc Hsrc Hdest Hcode Hck Hiid Hseq Hd Hown tot h Htot Hb Hfirst Hh Hm Hnf Hacc Hmtu. destruct bufs as [|b bs]; [done|]. change (24 <= zlen b) in Hfirst.
  pose proof (zlen_nonneg data). assert (is_u16 tot) as Htot16 by (unfold is_u16; lia).
  destruct (cut_after (h ++ [ICMP_ECHO; code] ++ le_bytes 2 ck) (le_bytes 2 iid ++ le_bytes 2 seq ++ data) b (concat bs)) as (x & Eb & Ex).
  { cbn [concat] in Hb. rewrite Hb. unfold icmp_hdr. by rewrite <- !app_assoc. } { unfold zlen in Hfirst. change (24 <= length b)%nat. lia. }
  rewrite <- !app_assoc in Eb. subst b.
  destruct (hdr_filled 0 0 tos (lwip_htons tot) id off ICMP_TTL IP_PROTO_ICMP (nf_ip_addr (st_netif s)) src) as [Hc' Hh']; [by try apply htons_u16..|].
  destruct (echo_chksum_right code ck iid seq data) as [Hck' Hm']; [done..|lia|done|].
  eexists _, (echo_chksum ck). cbv zeta. split_and!; [exact Hc'|exact Hck'|exact Hh'|exact Hm'|].
  rewrite (ip4_input_accepted s tos tot id off ttl IP_PROTO_ICMP c src dest (icmp_hdr ICMP_ECHO code ck iid seq ++ data)); try done.
  2: { match goal with |- 20 <= zlen ?y => change (zlen y) with (zlen (h ++ [ICMP_ECHO; code] ++ le_bytes 2 ck ++ x)) end. lia. } 2: { rewrite zlen_app. change (zlen (icmp_hdr ICMP_ECHO code ck iid seq)) with 8. unfold tot. lia. }
  rewrite Hnf. change (negb (0 =? 0)) with false. cbv iota. run. unfold after_reass, ip4_deliver. run.
  change (IPH_PROTO (h ++ [ICMP_ECHO; code] ++ le_bytes 2 ck ++ x)) with IP_PROTO_ICMP. change (IP_PROTO_ICMP =? IP_PROTO_UDP) with false.
  change (IP_PROTO_ICMP =? IP_PROTO_TCP) with false. change (IP_PROTO_ICMP =? IP_PROTO_ICMP) with true. cbv iota.
  assert (([ICMP_ECHO; code] ++ le_bytes 2 ck ++ x) ++ concat bs = icmp_hdr ICMP_ECHO code ck iid seq ++ data) as Em by (rewrite <- !app_assoc, Ex; unfold icmp_hdr; by rewrite <- !app_assoc).
  assert (([ICMP_ER; code] ++ le_bytes 2 (echo_chksum ck) ++ x) ++ concat bs = icmp_hdr ICMP_ER code (echo_chksum ck) iid seq ++ data) as Er by (rewrite <- !app_assoc, Ex; unfold icmp_hdr; by rewrite <- !app_assoc).
  assert (zlen (icmp_hdr ICMP_ECHO code ck iid seq ++ data) = 8 + zlen data) as Zm by (rewrite zlen_app; done).
  erewrite run_some; [|apply icmp_echo_out; [done..| | | |]]; [|by eapply accepted_source|rewrite Em, Zm; lia| |].
  - cbn [concat]. rewrite <- !app_assoc, app_assoc, <- Er. rewrite <- !app_assoc. done.
  - rewrite chksum_chain_of; cbn [concat]; rewrite Em; [done|by apply icmp_msg_u8|rewrite Zm; lia].
  - destruct Hmtu as [? | Hmtu]; [by left|right]. cbn [concat]. rewrite zlen_app, zlen_app, ip_hdr_zlen, <- Z.add_assoc, <- zlen_app, Er, zlen_app. change (zlen (icmp_hdr ICMP_ER code (echo_chksum ck) iid seq)) with 8. unfold IP_HLEN. unfold tot in *. lia.
Qed.
End input.
