(* ===== verification/UdpProps.v ===== *)
(** * UdpProps: control blocks and ports

    The invariant of the UDP control blocks: the list, the free ones and those in between
    are apart, a control block is in the list when it has a port, and no two of the list
    are bound to the same port of an address. Every call of the API keeps it, and so does
    a datagram that comes in; a free port is found. *)

From stdpp Require Import gmap.
From S2P Require Import Prelude Chksum Pbuf Inet Ip4Hdr Ip4Frag Ip4Out Icmp Udp.

Create HintDb udpk.

(** Two control blocks are in each other's way. *)
Definition ports_clash (u v : udp_pcb) : bool :=
  (up_local_port u =? up_local_port v) &&
  ((up_local_ip u =? up_local_ip v) || ip4_addr_isany_val (up_local_ip u) || ip4_addr_isany_val (up_local_ip v)).

Section props.
Context {A : Type}.
Implicit Types s : ips A.
Open Scope st_scope.

Record udp_ok s : Prop := mk_udp_ok {
  ok_apart : NoDup (udp_pcbs s ++ st_pcb_free s);
  ok_null : 0 ∉ udp_pcbs s ++ st_pcb_free s;
  ok_last_port : UDP_LOCAL_PORT_RANGE_START <= udp_port s <= UDP_LOCAL_PORT_RANGE_END;
  ok_bound : forall q, q ∈ udp_pcbs s -> up_local_port (pcb_get s q) <> 0;
  ok_unbound : forall q, q ∉ udp_pcbs s -> q ∉ st_pcb_free s -> up_local_port (pcb_get s q) = 0;
  ok_distinct : forall q r, q ∈ udp_pcbs s -> r ∈ udp_pcbs s -> q <> r -> ports_clash (pcb_get s q) (pcb_get s r) = false }.

(** ** The search of a port *)

(** The port after [p], and the [k]th after it. *)
Definition port_after (p k : Z) : Z := UDP_LOCAL_PORT_RANGE_START + (p - UDP_LOCAL_PORT_RANGE_START + k) mod 0x4000.

Lemma next_port p : UDP_LOCAL_PORT_RANGE_START <= p <= UDP_LOCAL_PORT_RANGE_END ->
  (if p =? UDP_LOCAL_PORT_RANGE_END then UDP_LOCAL_PORT_RANGE_START else u16 (p + 1)) = port_after p 1.
Proof.
  unfold port_after, UDP_LOCAL_PORT_RANGE_START, UDP_LOCAL_PORT_RANGE_END, u16. intros. case_if; zdivmod.
Qed.

Lemma port_after_range p k : UDP_LOCAL_PORT_RANGE_START <= port_after p k <= UDP_LOCAL_PORT_RANGE_END.
Proof. unfold port_after, UDP_LOCAL_PORT_RANGE_START, UDP_LOCAL_PORT_RANGE_END. zdivmod. Qed.

Lemma port_after_after p k j : port_after (port_after p k) j = port_after p (k + j).
Proof. unfold port_after, UDP_LOCAL_PORT_RANGE_START. f_equal. zdivmod. Qed.

(** The search looks at the ports in turn, and at each of them once. *)
Lemma new_port_loop_eq ports : forall k fuel p, Z.of_nat k <= 0x4000 -> (k <= fuel)%nat -> UDP_LOCAL_PORT_RANGE_START <= p <= UDP_LOCAL_PORT_RANGE_END ->
  (0 < k)%nat ->
  exists port last, new_port_loop fuel ports (0x4000 - Z.of_nat k) p = Some (port, last) /\ UDP_LOCAL_PORT_RANGE_START <= last <= UDP_LOCAL_PORT_RANGE_END /\
    (((port ∉ ports) /\ port = last) \/ (port = 0 /\ forall j, 1 <= j <= Z.of_nat k -> port_after p j ∈ ports)).
Proof.
  induction k as [|k IH]; intros [|fuel] p Hk Hf Hp H0; [lia..|]. cbn [new_port_loop]. rewrite next_port by done. pose proof (port_after_range p 1) as Hr.
  destruct (existsb _ ports) eqn:E.
  - apply existsb_exists in E as (q & Hq%list_elem_of_In & ->%Z.eqb_eq). replace (u16 _) with (0x4000 - Z.of_nat k) by (unfold u16; rewrite Z.mod_small; lia).
    change (UDP_LOCAL_PORT_RANGE_END - UDP_LOCAL_PORT_RANGE_START) with 0x3fff. case_if.
    + exists 0, (port_after p 1). split_and!; [done|lia..|]. right. split; [done|]. intros j Hj. by replace j with 1 by lia.
    + destruct (IH fuel (port_after p 1)) as (port & last & -> & Hl & H); [lia..|]. exists port, last. split_and!; [done|lia..|].
      destruct H as [H | [-> H]]; [by left|right]. split; [done|]. intros j Hj. destruct (decide (j = 1)) as [->|]; [done|].
      specialize (H (j - 1)). rewrite port_after_after in H. replace (1 + (j - 1)) with j in H by lia. apply H. lia.
  - exists (port_after p 1), (port_after p 1). split_and!; [done|lia..|]. left. split; [|done]. intros Hin. apply not_true_iff_false in E. apply E.
    apply existsb_exists. exists (port_after p 1). split; [by apply list_elem_of_In|lia].
Qed.

(** All 0x4000 ports are in a list only if it is that long. *)
Lemma ports_all p (ports : list Z) : (forall j, 1 <= j <= 0x4000 -> port_after p j ∈ ports) -> 0x4000 <= zlen ports.
Proof.
  intros H. set (l := port_after p <$> seqZ 1 0x4000). assert (NoDup l) as Hnd.
  { apply NoDup_fmap_2_strong; [|apply NoDup_seqZ]. intros x y Hx%elem_of_seqZ Hy%elem_of_seqZ. unfold port_after. intros E. zdivmod. }
  assert (l ⊆ ports) as Hs.
  { intros x (j & -> & Hj%elem_of_seqZ)%list_elem_of_fmap. apply H. lia. }
  pose proof (submseteq_length l ports (NoDup_submseteq l ports Hnd Hs)) as Hlen. unfold l in Hlen. rewrite length_fmap, length_seqZ in Hlen. unfold zlen. lia.
Qed.

(** ** What the calls do to the control blocks *)

Lemma pcb_get_mod s pcb f q : pcb_get (s <| st_pcb := <[pcb := f (pcb_get s pcb)]> (st_pcb s) |>) q = if decide (q = pcb) then f (pcb_get s pcb) else pcb_get s q.
Proof.
  change (default udp_pcb_new (<[pcb := f (pcb_get s pcb)]> (st_pcb s) !! q) = if decide (q = pcb) then f (pcb_get s pcb) else pcb_get s q).
  case_decide as E; [subst; by rewrite lookup_insert_eq|by rewrite lookup_insert_ne].
Qed.

Lemma ports_clash_sym u v : ports_clash u v = ports_clash v u.
Proof. unfold ports_clash. rewrite (Z.eqb_sym (up_local_port u)), (Z.eqb_sym (up_local_ip u)). f_equal. rewrite <- !orb_assoc. f_equal. apply orb_comm. Qed.

(** A change that leaves the local address and port alone. *)
Lemma pcb_mod_keeps s pcb f : udp_ok s -> (forall u, up_local_ip (f u) = up_local_ip u /\ up_local_port (f u) = up_local_port u) ->
  sto_wlp (pcb_mod pcb f) (fun _ s' => udp_ok s' /\ udp_pcbs s' = udp_pcbs s /\ st_pcb_free s' = st_pcb_free s) s.
Proof.
  intros [H1 H2 H3 H4 H5 H6] Hf. apply wlp_mod. split; [|done].
  assert (forall q, up_local_ip (pcb_get (s <| st_pcb := <[pcb := f (pcb_get s pcb)]> (st_pcb s) |>) q) = up_local_ip (pcb_get s q) /\
    up_local_port (pcb_get (s <| st_pcb := <[pcb := f (pcb_get s pcb)]> (st_pcb s) |>) q) = up_local_port (pcb_get s q)) as E.
  { intros q. rewrite pcb_get_mod. case_decide; [subst; apply Hf|done]. }
  constructor; try done.
  - intros q Hq. rewrite (proj2 (E q)). by apply H4.
  - intros q Hq Hq'. rewrite (proj2 (E q)). by apply H5.
  - intros q r Hq Hr Hne. unfold ports_clash. destruct (E q) as [-> ->], (E r) as [-> ->]. by apply H6.
Qed.

(** Binding a control block to an address and port that nobody is in the way of. *)
Definition pcb_bound (pcb ip port : Z) s : ips A :=
  let s1 := s <| st_pcb := <[pcb := (pcb_get s pcb) <| up_local_ip := ip |> <| up_local_port := port |>]> (st_pcb s) |> in
  if bool_decide (pcb ∈ udp_pcbs s) then s1 else s1 <| udp_pcbs := pcb :: udp_pcbs s |>.

Lemma bound_get s pcb ip port q : pcb_get (pcb_bound pcb ip port s) q = if decide (q = pcb) then (pcb_get s pcb) <| up_local_ip := ip |> <| up_local_port := port |> else pcb_get s q.
Proof. unfold pcb_bound. case_bool_decide; apply (pcb_get_mod s pcb (fun u => u <| up_local_ip := ip |> <| up_local_port := port |>) q). Qed.

Lemma bound_pcbs s pcb ip port q : q ∈ udp_pcbs (pcb_bound pcb ip port s) <-> q = pcb \/ q ∈ udp_pcbs s.
Proof.
  unfold pcb_bound. case_bool_decide as E; [change (q ∈ udp_pcbs s <-> q = pcb \/ q ∈ udp_pcbs s)|change (q ∈ pcb :: udp_pcbs s <-> q = pcb \/ q ∈ udp_pcbs s)].
  - split; [by right|]. by intros [-> | ?].
  - by rewrite elem_of_cons.
Qed.

Lemma bound_free s pcb ip port : st_pcb_free (pcb_bound pcb ip port s) = st_pcb_free s.
Proof. unfold pcb_bound. by case_bool_decide. Qed.

Lemma bound_ok s pcb ip port : udp_ok s -> pcb <> 0 -> pcb ∉ st_pcb_free s -> port <> 0 ->
  (forall q, q ∈ udp_pcbs s -> q <> pcb -> ports_clash ((pcb_get s pcb) <| up_local_ip := ip |> <| up_local_port := port |>) (pcb_get s q) = false) ->
  udp_ok (pcb_bound pcb ip port s).
Proof.
  intros [H1 H2 H3 H4 H5 H6] H0 Hfree Hport Hclash. constructor.
  - rewrite bound_free. unfold pcb_bound. case_bool_decide as E; [done|]. change (NoDup (pcb :: (udp_pcbs s ++ st_pcb_free s))). constructor; [|done]. rewrite elem_of_app. tauto.
  - rewrite bound_free. rewrite elem_of_app, bound_pcbs in *. intuition.
  - unfold pcb_bound. by case_bool_decide.
  - intros q Hq%bound_pcbs. rewrite bound_get. case_decide; [done|]. apply H4. tauto.
  - intros q Hq. rewrite bound_free, bound_get. rewrite bound_pcbs in Hq. intros Hq'. rewrite decide_False by tauto. apply H5; tauto.
  - intros q r Hq%bound_pcbs Hr%bound_pcbs Hne. rewrite !bound_get. case_decide; case_decide; subst; [done| | |].
    + apply Hclash; tauto.
    + rewrite ports_clash_sym. apply Hclash; tauto.
    + apply H6; tauto.
Qed.

(** [udp_new_port] returns, with a port that is not in use or because all are. *)
Lemma new_port_wp s : udp_ok s ->
  sto_wp udp_new_port (fun port s' => (exists last, s' = s <| udp_port := last |>) /\ udp_ok s' /\
    ((UDP_LOCAL_PORT_RANGE_START <= port <= UDP_LOCAL_PORT_RANGE_END /\ forall q, q ∈ udp_pcbs s -> up_local_port (pcb_get s q) <> port) \/
     (port = 0 /\ 0x4000 <= zlen (udp_pcbs s)))) s.
Proof.
  intros [H1 H2 H3 H4 H5 H6]. unfold udp_new_port. do 2 swp_step. set (ports := _ <$> _).
  destruct (new_port_loop_eq ports (Z.to_nat 0x4000) (Z.to_nat 0x4000) (udp_port s)) as (port & last & E & Hl & Hp); [lia..|done|lia|].
  change (0x4000 - Z.of_nat (Z.to_nat 0x4000)) with 0 in E. rewrite E. do 3 swp_step. split; [by eexists|]. split; [by constructor|].
  destruct Hp as [[Hp ->] | [-> Hp]]; [left|right].
  - split; [done|]. intros q Hq Eq. apply Hp. apply list_elem_of_fmap. by exists q.
  - split; [done|]. assert (zlen (udp_pcbs s) = zlen ports) as -> by (unfold zlen, ports; by rewrite length_fmap). apply (ports_all (udp_port s)). intros j Hj. apply Hp. lia.
Qed.

Lemma port_taken_false s pcb ip port q : port_taken s pcb ip port = false -> q ∈ udp_pcbs s -> q <> pcb ->
  ports_clash ((pcb_get s pcb) <| up_local_ip := ip |> <| up_local_port := port |>) (pcb_get s q) = false.
Proof.
  intros E Hq Hne. apply not_true_iff_false in E. apply not_true_iff_false. intros Hc. apply E. unfold port_taken. apply existsb_exists. exists q.
  split; [by apply list_elem_of_In|]. unfold ports_clash in Hc.
  change ((port =? up_local_port (pcb_get s q)) && ((ip =? up_local_ip (pcb_get s q)) || ip4_addr_isany_val ip || ip4_addr_isany_val (up_local_ip (pcb_get s q))) = true) in Hc.
  rewrite (Z.eqb_sym port), (Z.eqb_sym ip) in Hc. replace (q =? pcb) with false by lia. done.
Qed.

(** [udp_bind] returns: with the control block bound, to the port asked for or to a free
    one, or with nothing changed, because the port is taken or all are. *)
Definition bind_post s pcb ip port (err : Z) (s' : ips A) : Prop :=
  udp_ok s' /\
  ((err = ERR_OK /\ exists p last, s' = pcb_bound pcb ip p (s <| udp_port := last |>) /\ p <> 0 /\
     (port <> 0 -> p = port /\ port_taken s pcb ip port = false) /\
     (port = 0 -> UDP_LOCAL_PORT_RANGE_START <= p <= UDP_LOCAL_PORT_RANGE_END /\ forall q, q ∈ udp_pcbs s -> up_local_port (pcb_get s q) <> p)) \/
   (err = ERR_USE /\ (exists last, s' = s <| udp_port := last |>) /\
     (port <> 0 -> port_taken s pcb ip port = true) /\ (port = 0 -> 0x4000 <= zlen (udp_pcbs s)))).

Lemma bind_wp s pcb ip port : udp_ok s -> pcb <> 0 -> pcb ∉ st_pcb_free s ->
  sto_wp (udp_bind pcb ip port) (bind_post s pcb (default IPADDR_ANY ip) port) s.
Proof.
  intros Hok H0 Hfree. unfold udp_bind. set (a := default IPADDR_ANY ip). replace (pcb =? 0) with false by lia. do 2 swp_step.
  assert (forall p last s1, s1 = s <| udp_port := last |> -> udp_ok s1 -> p <> 0 -> (forall q, q ∈ udp_pcbs s -> q <> pcb ->
      ports_clash ((pcb_get s pcb) <| up_local_ip := a |> <| up_local_port := p |>) (pcb_get s q) = false) ->
    (port <> 0 -> p = port /\ port_taken s pcb a port = false) -> (port = 0 -> UDP_LOCAL_PORT_RANGE_START <= p <= UDP_LOCAL_PORT_RANGE_END /\ forall q, q ∈ udp_pcbs s -> up_local_port (pcb_get s q) <> p) ->
    sto_wp (pcb_mod pcb (fun u => u <| up_local_ip := a |> <| up_local_port := p |>) ;?;
            sto_when (negb (bool_decide (pcb ∈ udp_pcbs s))) (sto_mod (fun s => s <| udp_pcbs := pcb :: udp_pcbs s |>)) ;?; sto_ret ERR_OK)
      (bind_post s pcb a port) s1) as Hdone.
  { intros p last ? -> Hok' Hp Hclash E1 E2. swp_step. apply swp_mod. pose proof (bound_ok (s <| udp_port := last |>) pcb a p Hok' H0 Hfree Hp Hclash) as Hb.
    swp_step. unfold pcb_bound in Hb. change (udp_pcbs (s <| udp_port := last |>)) with (udp_pcbs s) in Hb. case_bool_decide as Hin.
    all: apply swp_when; intros Hw; [try discriminate Hw|try discriminate Hw]; try apply swp_mod; swp_step; (split; [exact Hb|]); left; split; [done|]; exists p, last; split_and!; try done; unfold pcb_bound; change (udp_pcbs (s <| udp_port := last |>)) with (udp_pcbs s).
    - by rewrite bool_decide_true.
    - by rewrite bool_decide_false. }
  swp_step. destruct (Z.eqb_spec port 0) as [-> | Hport].
  - cbv iota. swp_step. eapply swp_mono; [by apply new_port_wp|]. intros port s' ((last & ->) & Hok' & [[Hr Hun] | [-> Hall]]).
    + swp_step. unfold UDP_LOCAL_PORT_RANGE_START, UDP_LOCAL_PORT_RANGE_END in Hr. replace (port =? 0) with false by lia. apply (Hdone _ last); [done|done|lia| |lia|done].
      intros q Hq _. unfold ports_clash. change ((port =? up_local_port (pcb_get s q)) && ((a =? up_local_ip (pcb_get s q)) || ip4_addr_isany_val a || ip4_addr_isany_val (up_local_ip (pcb_get s q))) = false).
      specialize (Hun q Hq). by replace (port =? up_local_port (pcb_get s q)) with false by lia.
    + swp_step. change (0 =? 0) with true. cbv iota. swp_step. split; [done|]. right. split; [done|]. split; [by exists last|]. done.
  - cbv iota. destruct (port_taken s pcb a port) eqn:Et.
    + do 2 (swp_step; cbv iota). split; [done|]. right. split; [done|]. split; [exists (udp_port s); by destruct s|]. done.
    + assert (s = s <| udp_port := udp_port s |>) as Es by (by destruct s). swp_step. apply (Hdone _ (udp_port s)); [done..| |done|done].
      intros q Hq Hne. by apply port_taken_false.
Qed.

(** ** Every call keeps the invariant *)

Definition udp_keeps {B} (m : STO (ips A) B) : Prop := forall s, udp_ok s -> sto_wlp m (fun _ => udp_ok) s.

(** The fields the invariant does not look at. *)
Lemma ok_other s s' : udp_pcbs s' = udp_pcbs s -> st_pcb_free s' = st_pcb_free s -> udp_port s' = udp_port s -> st_pcb s' = st_pcb s -> udp_ok s -> udp_ok s'.
Proof.
  intros E1 E2 E3 E4 [H1 H2 H3 H4 H5 H6]. assert (forall q, pcb_get s' q = pcb_get s q) as E by (intros q; unfold pcb_get; by rewrite E4).
  constructor; rewrite ?E1, ?E2, ?E3; try done; intros *; rewrite ?E; auto.
Qed.

Lemma keeps_use {B} (m : STO (ips A) B) (Q : B -> ips A -> Prop) s : udp_keeps m -> udp_ok s -> (forall a s', udp_ok s' -> Q a s') -> sto_wlp m Q s.
Proof. intros Hm Hs HQ. eapply wlp_mono; [by apply Hm|]. intros a s'. apply HQ. Qed.

Ltac keep_ok := first [assumption | match goal with H : udp_ok _ |- udp_ok _ => eapply ok_other; [..|exact H]; done end].
Ltac keep_step :=
  first
    [ keep_ok
    | eapply keeps_use; [solve [eauto with udpk]|keep_ok|cbv beta; intros]
    | progress wlp_step; intros ].
Ltac keep := unfold udp_keeps; intros; repeat keep_step.

Lemma keeps_netif_output q dest : udp_keeps (netif_output q dest).
Proof. unfold netif_output. keep. Qed.
Lemma keeps_allocated : udp_keeps allocated.
Proof. unfold allocated. keep. Qed.
#[local] Hint Resolve keeps_netif_output keeps_allocated : udpk.

Lemma keeps_iter {B} (f : B -> STO (ips A) unit) l : (forall x, udp_keeps (f x)) -> udp_keeps (sto_iter f l).
Proof. intros Hf s Hs. by apply (wlp_iter udp_ok); [intros; by apply Hf|]. Qed.

Lemma keeps_frag_output p dest : udp_keeps (frag_output p dest).
Proof.
  unfold frag_output. keep. eapply wlp_mono; [apply keeps_iter; [intros; keep|]|]; cbv beta; keep.
Qed.
#[local] Hint Resolve keeps_frag_output : udpk.

Lemma keeps_hand_out p dest : udp_keeps (hand_out p dest).
Proof. unfold hand_out. keep. Qed.
#[local] Hint Resolve keeps_hand_out : udpk.

Lemma keeps_output_src p src dest ttl tos proto : udp_keeps (ip4_output_if_src p src dest ttl tos proto).
Proof. unfold ip4_output_if_src. keep. Qed.
#[local] Hint Resolve keeps_output_src : udpk.

Lemma keeps_output_if p src dest ttl tos proto : udp_keeps (ip4_output_if p src dest ttl tos proto).
Proof. unfold ip4_output_if. keep. Qed.
#[local] Hint Resolve keeps_output_if : udpk.

Lemma keeps_icmp_response p t code : udp_keeps (icmp_send_response p t code).
Proof. unfold icmp_send_response. keep. Qed.
#[local] Hint Resolve keeps_icmp_response : udpk.

Lemma keeps_header_room hdr p : udp_keeps (udp_header_room hdr p).
Proof. unfold udp_header_room. keep. Qed.
#[local] Hint Resolve keeps_header_room : udpk.

(** ** The calls of the API *)

Lemma keeps_bind s pcb ip port : udp_ok s -> pcb ∉ st_pcb_free s -> sto_wlp (udp_bind pcb ip port) (fun _ => udp_ok) s.
Proof.
  intros Hok Hfree. destruct (decide (pcb = 0)) as [->|H0]; [done|].
  apply wlp_of_wp. eapply swp_mono; [by apply bind_wp|]. intros err s' H. apply H.
Qed.

(** A call of [udp_bind] that other calls make first when there is no port yet. *)
Lemma bind_first s pcb (Q : Z -> ips A -> Prop) : udp_ok s -> pcb <> 0 -> pcb ∉ st_pcb_free s ->
  (forall err s', udp_ok s' -> pcb ∉ st_pcb_free s' -> (err = ERR_OK -> pcb ∈ udp_pcbs s') -> Q err s') ->
  sto_wlp (if up_local_port (pcb_get s pcb) =? 0 then udp_bind pcb (Some (up_local_ip (pcb_get s pcb))) (up_local_port (pcb_get s pcb)) else sto_ret ERR_OK) Q s.
Proof.
  intros Hok H0 Hfree HQ. destruct (Z.eqb_spec (up_local_port (pcb_get s pcb)) 0) as [E|E].
  - apply wlp_of_wp. eapply swp_mono; [by apply bind_wp|]. intros err s' [Hok' H]. apply HQ; [done| |].
    + destruct H as [(_ & p & last & -> & _) | (_ & (last & ->) & _)]; [by rewrite bound_free|done].
    + intros ->. destruct H as [(_ & p & last & -> & _) | (? & _)]; [|done]. apply bound_pcbs. by left.
  - apply wlp_ret, HQ; [done..|]. intros _. destruct (decide (pcb ∈ udp_pcbs s)); [done|]. by destruct E; apply (ok_unbound s Hok).
Qed.

Lemma keeps_new : udp_keeps udp_new.
Proof.
  intros s Hs. unfold udp_new. do 2 wlp_step. destruct (st_pcb_free s) as [|q free] eqn:Ef; [by apply wlp_ret|].
  wlp_step. apply wlp_mod. wlp_step. destruct Hs as [H1 H2 H3 H4 H5 H6]. rewrite Ef in *.
  set (s' := s <| st_pcb_free := free |> <| st_pcb := <[q := udp_pcb_new]> (st_pcb s) |>).
  assert (forall r, pcb_get s' r = if decide (r = q) then udp_pcb_new else pcb_get s r) as E 
    by (intros r; unfold pcb_get at 1; change (st_pcb s') with (<[q := udp_pcb_new]> (st_pcb s)); case_decide; [subst; by rewrite lookup_insert_eq|by rewrite lookup_insert_ne]).
  assert (q ∉ udp_pcbs s) as Hq by (intros Hq; apply NoDup_app in H1 as (_ & H1 & _); eapply H1; [done|by left]).
  constructor; change (udp_pcbs s') with (udp_pcbs s); change (st_pcb_free s') with free.
  - apply NoDup_app in H1 as (H1 & H1' & H1''). apply NoDup_cons in H1'' as [_ H1'']. apply NoDup_app. split_and!; [done| |done]. intros r Hr Hr'. eapply H1'; [done|by right].
  - rewrite elem_of_app in *. intros [?|?]; apply H2; [by left|right; by right].
  - done.
  - intros r Hr. rewrite E, decide_False by (by intros ->). auto.
  - intros r Hr Hr'. rewrite E. case_decide; [done|]. apply H5; [done|]. rewrite elem_of_cons. tauto.
  - intros r t Hr Ht Hne. rewrite !E, !decide_False by (by intros ->). auto.
Qed.

Lemma unlink_perm pcb l : pcb ∈ l -> l ≡ₚ pcb :: unlink_pcb pcb l.
Proof.
  induction l as [|q l IH]; [by intros ?%elem_of_nil|]. cbn [unlink_pcb]. destruct (Z.eqb_spec q pcb) as [->|Hne]; [done|].
  intros [?|Hin]%elem_of_cons; [by subst|]. rewrite (IH Hin) at 1. apply Permutation_swap.
Qed.

Lemma unlink_absent pcb l : pcb ∉ l -> unlink_pcb pcb l = l.
Proof.
  induction l as [|q l IH]; [done|]. intros [Hq Hl]%not_elem_of_cons. cbn [unlink_pcb]. replace (q =? pcb) with false by lia. by rewrite IH.
Qed.

Lemma unlink_spec pcb l : NoDup l -> NoDup (unlink_pcb pcb l) /\ forall q, q ∈ unlink_pcb pcb l <-> q ∈ l /\ q <> pcb.
Proof.
  intros Hnd. destruct (decide (pcb ∈ l)) as [Hin|Hin].
  - pose proof (unlink_perm pcb _ Hin) as E. revert E. generalize (unlink_pcb pcb l). intros u E. rewrite E in Hnd. apply NoDup_cons in Hnd as [Hn Hu]. split; [done|].
    intros q. rewrite E, elem_of_cons. split; [intros Hq; split; [by right|by intros ->]|]. intros [[?|?] ?]; done.
  - rewrite unlink_absent by done. split; [done|]. intros q. split; [|tauto]. intros Hq. split; [done|by intros ->].
Qed.

Lemma keeps_remove s pcb : udp_ok s -> pcb ∉ st_pcb_free s -> sto_wlp (udp_remove pcb) (fun _ => udp_ok) s.
Proof.
  intros [H1 H2 H3 H4 H5 H6] Hfree. unfold udp_remove. wlp_step; [|done]. wlp_step.
  set (s' := s <| udp_pcbs := unlink_pcb pcb (udp_pcbs s) |> <| st_pcb_free := pcb :: st_pcb_free s |>).
  apply NoDup_app in H1 as (Hl & Hlf & Hf). destruct (unlink_spec pcb _ Hl) as [Hl' Hu]. constructor; change (udp_pcbs s') with (unlink_pcb pcb (udp_pcbs s)); change (st_pcb_free s') with (pcb :: st_pcb_free s);
    change (pcb_get s') with (pcb_get s).
  - apply NoDup_app. split_and!; [done|intros q [Hq Hne]%Hu [?|?]%elem_of_cons; [done|by eapply Hlf]|by constructor].
  - rewrite elem_of_app in H2. rewrite elem_of_app, elem_of_cons, Hu. intros [[? _]|[?|?]]; [by apply H2; left|lia|by apply H2; right].
  - done.
  - intros q [Hq _]%Hu. auto.
  - intros q Hq [Hne Hq']%not_elem_of_cons. apply H5; [|done]. intros Hin. apply Hq, Hu. done.
  - intros q r [Hq _]%Hu [Hr _]%Hu. auto.
Qed.

Lemma keeps_mod_other s pcb f : udp_ok s -> (forall u, up_local_ip (f u) = up_local_ip u /\ up_local_port (f u) = up_local_port u) ->
  sto_wlp (pcb_mod pcb f) (fun _ => udp_ok) s.
Proof. intros Hs Hf. eapply wlp_mono; [by apply pcb_mod_keeps|]. by intros _ s' [? _]. Qed.

Lemma keeps_connect s pcb ip port : udp_ok s -> pcb ∉ st_pcb_free s -> sto_wlp (udp_connect pcb ip port) (fun _ => udp_ok) s.
Proof.
  intros Hs Hfree. unfold udp_connect. wlp_step; [by apply wlp_ret|]. do 3 wlp_step. apply bind_first; [done|lia|done|]. intros err s' Hs' Hfree' Hin.
  wlp_step; [by apply wlp_ret|]. wlp_step. eapply wlp_mono; [apply pcb_mod_keeps; [done|by intros []]|]. cbv beta. intros _ s2 (Hs2 & E & _).
  do 4 wlp_step; [|by wlp_step]. rewrite E, bool_decide_true in * by (apply Hin; lia). done.
Qed.

Lemma keeps_disconnect s pcb : udp_ok s -> sto_wlp (udp_disconnect pcb) (fun _ => udp_ok) s.
Proof. intros Hs. unfold udp_disconnect. wlp_step; [|done]. apply keeps_mod_other; [done|by intros []]. Qed.

Lemma keeps_recv s pcb recv : udp_ok s -> sto_wlp (udp_recv pcb recv) (fun _ => udp_ok) s.
Proof. intros Hs. unfold udp_recv. wlp_step; [|done]. apply keeps_mod_other; [done|by intros []]. Qed.

Lemma keeps_bind_netif s pcb n : udp_ok s -> sto_wlp (udp_bind_netif pcb n) (fun _ => udp_ok) s.
Proof. intros Hs. apply keeps_mod_other; [done|by intros []]. Qed.

Lemma keeps_sendto_src s pcb p dst port src : udp_ok s -> pcb ∉ st_pcb_free s -> sto_wlp (udp_sendto_if_src pcb p dst port src) (fun _ => udp_ok) s.
Proof.
  intros Hs Hfree. unfold udp_sendto_if_src. wlp_step; [by apply wlp_ret|]. do 3 wlp_step. apply bind_first; [done|lia|done|]. intros err s' Hs' _ _.
  clear Hs. repeat keep_step.
Qed.

Lemma keeps_sendto_if s pcb p dst port : udp_ok s -> pcb ∉ st_pcb_free s -> sto_wlp (udp_sendto_if pcb p dst port) (fun _ => udp_ok) s.
Proof. intros Hs Hfree. unfold udp_sendto_if. repeat (wlp_step; try done); by apply keeps_sendto_src. Qed.

Lemma keeps_sendto s pcb p dst port : udp_ok s -> pcb ∉ st_pcb_free s -> sto_wlp (udp_sendto pcb p dst port) (fun _ => udp_ok) s.
Proof. intros Hs Hfree. unfold udp_sendto. repeat (wlp_step; try done); by apply keeps_sendto_if. Qed.

Lemma keeps_send s pcb p : udp_ok s -> pcb ∉ st_pcb_free s -> sto_wlp (udp_send pcb p) (fun _ => udp_ok) s.
Proof. intros Hs Hfree. unfold udp_send. repeat (wlp_step; try done). by apply keeps_sendto. Qed.

(** The search takes the list apart. *)
Lemma search_split get n src_ip src dest_ip dest bc l : forall before uncon q before' behind,
  udp_search get n src_ip src dest_ip dest bc before l uncon = inl (q, before', behind) -> reverse before ++ l = reverse before' ++ q :: behind.
Proof.
  induction l as [|r l IH]; intros before uncon q before' behind E; [done|]. cbn [udp_search] in E.
  assert (forall u, udp_search get n src_ip src dest_ip dest bc (r :: before) l u = inl (q, before', behind) -> reverse before ++ r :: l = reverse before' ++ q :: behind) as Hrec.
  { intros u Eu. apply IH in Eu. by rewrite reverse_cons, <- app_assoc in Eu. }
  case_match; [|by apply Hrec in E]. case_match; [by simplify_eq|by apply Hrec in E].
Qed.

Lemma ok_reorder s l : udp_ok s -> l ≡ₚ udp_pcbs s -> udp_ok (s <| udp_pcbs := l |>).
Proof.
  intros [H1 H2 H3 H4 H5 H6] E. set (s' := s <| udp_pcbs := l |>). constructor; change (udp_pcbs s') with l; change (st_pcb_free s') with (st_pcb_free s); change (pcb_get s') with (pcb_get s).
  - by rewrite E.
  - by rewrite E.
  - done.
  - intros q. rewrite E. apply H4.
  - intros q. rewrite E. apply H5.
  - intros q r Hq Hr. rewrite E in Hq, Hr. by apply H6.
Qed.

Lemma keeps_input `{!UdpRecv A} bufs g : (forall recv q bs addr port, udp_keeps (recv_call recv q bs addr port)) -> udp_keeps (udp_input bufs g).
Proof.
  intros Hrecv s Hs. unfold udp_input. do 2 wlp_step. destruct bufs as [|b bs]; [done|]. cbv zeta. wlp_step; [by apply wlp_ret|]. wlp_step.
  eapply (wlp_mono _ (fun _ s' => udp_ok s')).
  - destruct (udp_search _ _ _ _ _ _ _ _ _ _) as [[[q before] behind]|uncon] eqn:E; [|by apply wlp_ret]. apply search_split in E.
    wlp_step. apply wlp_mod, wlp_ret, ok_reorder; [done|]. change (reverse [] ++ udp_pcbs s = reverse before ++ q :: behind) in E. change (udp_pcbs s = reverse before ++ q :: behind) in E. rewrite E. apply Permutation_middle.
  - cbv beta. intros pcb s' Hs'. clear Hs. repeat first [keep_step | by apply Hrecv].
Qed.

(** ** Runs *)

(** What the applications and the network layer call. *)
Inductive udp_event : Type :=
  | UNew
  | UBind (pcb : Z) (ip : option Z) (port : Z)
  | UBindNetif (pcb : Z) (n : option netif)
  | UConnect (pcb ip port : Z)
  | UDisconnect (pcb : Z)
  | URecv (pcb : Z) (recv : option Z)
  | URemove (pcb : Z)
  | USendto (pcb : Z) (p : packet) (dst port : Z)
  | USendtoIf (pcb : Z) (p : packet) (dst port : Z)
  | USend (pcb : Z) (p : packet)
  | UInput (bufs : list (list Z)) (g : ip_globals).

(** The control block of a call; none is NULL. *)
Definition event_pcb (e : udp_event) : Z :=
  match e with
  | UBind pcb _ _ | UBindNetif pcb _ | UConnect pcb _ _ | UDisconnect pcb | URecv pcb _ | URemove pcb | USendto pcb _ _ _ | USendtoIf pcb _ _ _ | USend pcb _ => pcb
  | UNew | UInput _ _ => 0
  end.

Definition udp_call `{!UdpRecv A} (e : udp_event) : STO (ips A) unit :=
  match e with
  | UNew => udp_new ;?; sto_ret tt
  | UBind pcb ip port => udp_bind pcb ip port ;?; sto_ret tt
  | UBindNetif pcb n => udp_bind_netif pcb n
  | UConnect pcb ip port => udp_connect pcb ip port ;?; sto_ret tt
  | UDisconnect pcb => udp_disconnect pcb
  | URecv pcb recv => udp_recv pcb recv
  | URemove pcb => udp_remove pcb
  | USendto pcb p dst port => udp_sendto pcb p dst port ;?; sto_ret tt
  | USendtoIf pcb p dst port => udp_sendto_if pcb p dst port ;?; sto_ret tt
  | USend pcb p => udp_send pcb p ;?; sto_ret tt
  | UInput bufs g => udp_input bufs g
  end.

(** From a start of the stack, by calls that do not use a control block that was given
    back. *)
Inductive udp_reach `{!UdpRecv A} : ips A -> Prop :=
  | ur_start rand s s' : udp_pcbs s = [] -> st_pcb s = ∅ -> NoDup (st_pcb_free s) -> 0 ∉ st_pcb_free s ->
      udp_init rand s = Some (tt, s') -> udp_reach s'
  | ur_call e s s' : udp_reach s -> event_pcb e ∉ st_pcb_free s -> udp_call e s = Some (tt, s') -> udp_reach s'.

Lemma wlp_then_ret {B} (m : STO (ips A) B) s : sto_wlp m (fun _ => udp_ok) s -> sto_wlp (m ;?; sto_ret tt) (fun _ => udp_ok) s.
Proof. intros H. wlp_step. eapply wlp_mono; [done|]. intros. by apply wlp_ret. Qed.

Lemma call_keeps `{!UdpRecv A} e s : (forall recv q bs addr port, udp_keeps (recv_call recv q bs addr port)) -> udp_ok s -> event_pcb e ∉ st_pcb_free s ->
  sto_wlp (udp_call e) (fun _ => udp_ok) s.
Proof.
  intros Hrecv Hs Hfree. destruct e; cbn [udp_call event_pcb] in *; try apply wlp_then_ret.
  - by apply keeps_new.
  - by apply keeps_bind.
  - by apply keeps_bind_netif.
  - by apply keeps_connect.
  - by apply keeps_disconnect.
  - by apply keeps_recv.
  - by apply keeps_remove.
  - by apply keeps_sendto.
  - by apply keeps_sendto_if.
  - by apply keeps_send.
  - by apply keeps_input.
Qed.

Lemma reach_ok `{!UdpRecv A} s : (forall recv q bs addr port, udp_keeps (recv_call recv q bs addr port)) -> udp_reach s -> udp_ok s.
Proof.
  intros Hrecv. induction 1 as [rand s s' E1 E2 E3 E4 E5|e s s' _ IH Hfree E].
  - unfold udp_init, sto_mod in E5. injection E5 as <-. set (s' := _ <| udp_port := _ |>). assert (forall q, pcb_get s' q = udp_pcb_new) as Eg by (intros q; unfold pcb_get; change (st_pcb s') with (st_pcb s); by rewrite E2).
    constructor; change (udp_pcbs s') with (udp_pcbs s); change (st_pcb_free s') with (st_pcb_free s); rewrite ?E1; [done|done| | |intros; by rewrite Eg|].
    + change (udp_port s') with (u16 (Z.land (u16 rand) (0xffff - UDP_LOCAL_PORT_RANGE_START) + UDP_LOCAL_PORT_RANGE_START)).
      change (0xffff - UDP_LOCAL_PORT_RANGE_START) with (Z.ones 14). rewrite Z.land_ones by done. unfold u16, UDP_LOCAL_PORT_RANGE_START, UDP_LOCAL_PORT_RANGE_END. zdivmod.
    + by intros q ?%elem_of_nil.
    + by intros q r ?%elem_of_nil.
  - pose proof (call_keeps e s Hrecv IH Hfree) as H. unfold sto_wlp in H. by rewrite E in H.
Qed.

(** C19: In every state the calls of the API and the datagrams that come in can lead to, no
    two control blocks of the list are bound to the same port of the same address, or of
    any address; every one of the list has a port, and is not at the same time free. So a
    datagram to a port of an address is for at most one of them. It needs of the
    callbacks that what they call keeps this too. *)
Theorem udp_ports_unique `{!UdpRecv A} s : (forall recv q bs addr port, udp_keeps (recv_call recv q bs addr port)) -> udp_reach s ->
  NoDup (udp_pcbs s) /\
  (forall q, q ∈ udp_pcbs s -> q <> 0 /\ (q ∉ st_pcb_free s) /\ up_local_port (pcb_get s q) <> 0) /\
  (forall q r, q ∈ udp_pcbs s -> r ∈ udp_pcbs s -> up_local_port (pcb_get s q) = up_local_port (pcb_get s r) ->
    up_local_ip (pcb_get s q) = up_local_ip (pcb_get s r) \/ up_local_ip (pcb_get s q) = IPADDR_ANY \/ up_local_ip (pcb_get s r) = IPADDR_ANY -> q = r).
Proof.
  intros Hrecv Hs. destruct (reach_ok s Hrecv Hs) as [H1 H2 H3 H4 H5 H6]. apply NoDup_app in H1 as (Hl & Hlf & Hf). rewrite elem_of_app in H2. split; [done|]. split.
  - intros q Hq. split_and!; [intros ->; tauto|by apply Hlf|by apply H4].
  - intros q r Hq Hr Ep Ei. destruct (decide (q = r)) as [|Hne]; [done|]. specialize (H6 q r Hq Hr Hne). unfold ports_clash in H6. rewrite Ep, Z.eqb_refl in H6.
    destruct Ei as [E | [E | E]]; rewrite E in H6; unfold ip4_addr_isany_val, IPADDR_ANY in H6; rewrite Z.eqb_refl, ?orb_true_r in H6; done.
Qed.

(** C35: [udp_bind] always returns. Asked for a port, it binds the control block to it unless
    another one is in the way; asked for none, it finds one from 0xc000 on that no control
    block uses, as long as there are fewer than 0x4000 of them, wherever the search
    starts. The control block is then in the list with the address asked for; nothing else
    about it changes, and nothing about any other. If it fails, no control block
    changes. *)
Theorem udp_bind_binds s pcb ip port : udp_ok s -> pcb <> 0 -> pcb ∉ st_pcb_free s -> zlen (udp_pcbs s) < 0x4000 ->
  exists err s', udp_bind pcb ip port s = Some (err, s') /\ udp_ok s' /\
    (err = ERR_OK <-> port = 0 \/ port_taken s pcb (default IPADDR_ANY ip) port = false) /\
    (err <> ERR_OK -> err = ERR_USE /\ udp_pcbs s' = udp_pcbs s /\ st_pcb s' = st_pcb s) /\
    (err = ERR_OK -> exists p, p <> 0 /\ (port <> 0 -> p = port) /\
      (port = 0 -> UDP_LOCAL_PORT_RANGE_START <= p <= UDP_LOCAL_PORT_RANGE_END /\ forall q, q ∈ udp_pcbs s -> up_local_port (pcb_get s q) <> p) /\
      pcb_get s' pcb = (pcb_get s pcb) <| up_local_ip := default IPADDR_ANY ip |> <| up_local_port := p |> /\
      (forall q, q <> pcb -> pcb_get s' q = pcb_get s q) /\ (forall q, q ∈ udp_pcbs s' <-> q = pcb \/ q ∈ udp_pcbs s)).
Proof.
  intros Hok H0 Hfree Hlen. pose proof (bind_wp s pcb ip port Hok H0 Hfree) as H. apply swp_run in H as (err & s' & E & Hok' & H). exists err, s'. split; [done|]. split; [done|].
  destruct H as [(-> & p & last & -> & Hp & Hport & Hfresh) | (-> & (last & ->) & Htaken & Hall)].
  - split; [|split; [done|]].
    + split; [|done]. intros _. destruct (decide (port = 0)) as [|Hne]; [by left|right]. by apply Hport.
    + intros _. exists p. split; [done|]. split; [intros Hne; by apply Hport|]. split; [done|]. split; [rewrite bound_get; by rewrite decide_True|].
      split; [|intros q; by rewrite bound_pcbs]. intros q Hq. rewrite bound_get. by rewrite decide_False.
  - split; [|done]. split; [done|]. intros [-> | Hf]; [by specialize (Hall eq_refl); lia|]. destruct (decide (port = 0)) as [->|Hne]; [by specialize (Hall eq_refl); lia|].
    by rewrite Htaken in Hf.
Qed.

End props.
