(* ===== verification/UdpWay.v ===== *)
(** * UdpWay: the way of a datagram

    From [udp_sendto] of one stack through its fragments, if it needs any, to the callback
    of a control block of another. *)

From stdpp Require Import gmap.
From S2P Require Import Prelude Chksum Pbuf PbufData Inet Ip4Hdr Ip4Frag Ip4FragProps Ip4Reass Ip4ReassInv Ip4FragRun Ip4Out Icmp Udp Ip4In Ip4InProps UdpProps.

(** ** The control block a datagram is for *)

Section search.
Context (get : Z -> udp_pcb) (n : netif) (src_ip src dest_ip dest : Z).

Definition local_match (q : Z) : bool := (up_local_port (get q) =? dest) && udp_input_local_match (get q) n dest_ip false.

Lemma search_none l : forall before uncon, (forall q, q ∈ l -> local_match q = false) -> udp_search get n src_ip src dest_ip dest false before l uncon = inr uncon.
Proof.
  induction l as [|q l IH]; intros before uncon H; [done|]. cbn [udp_search]. assert (local_match q = false) as E by (apply H; by left). unfold local_match in E. rewrite E.
  apply IH. intros. apply H. by right.
Qed.

(** The only one that matches is found, when it is not connected or the datagram is from
    its peer. *)
Lemma search_one q l1 l2 : forall before, local_match q = true -> (forall q', q' ∈ l1 ++ l2 -> local_match q' = false) ->
  up_flag (get q) UDP_FLAGS_CONNECTED = false \/ (up_remote_port (get q) = src /\ (up_remote_ip (get q) = IPADDR_ANY \/ up_remote_ip (get q) = src_ip)) ->
  udp_search get n src_ip src dest_ip dest false before (l1 ++ q :: l2) None = inl (q, reverse l1 ++ before, l2) \/
  udp_search get n src_ip src dest_ip dest false before (l1 ++ q :: l2) None = inr (Some q).
Proof.
  induction l1 as [|x l1 IH]; intros before Hq Hother Hremote.
  - cbn [app udp_search]. unfold local_match in Hq. rewrite Hq. destruct ((up_remote_port (get q) =? src) && _) eqn:E; [by left|right].
    rewrite search_none by done. destruct Hremote as [-> | [Hp Hip]]; [done|]. exfalso. rewrite Hp, Z.eqb_refl in E. unfold ip4_addr_isany_val, IPADDR_ANY in *. destruct Hip as [Hip | Hip]; rewrite Hip, Z.eqb_refl in E; by rewrite ?orb_true_r in E.
  - cbn [app udp_search]. assert (local_match x = false) as E by (apply Hother; by left). unfold local_match in E. rewrite E.
    rewrite reverse_cons, <- app_assoc. apply IH; [done| |done]. intros. apply Hother. by right.
Qed.
End search.

Section deliver.
Context {A : Type} `{!UdpRecv A, !TcpIn A}.
Implicit Types s : ips A.
Open Scope st_scope.

(** The control block [q] takes datagrams from [src], port [sport], to [dst], port [dport]. *)
Record takes s (q src sport dst dport : Z) : Prop := mk_takes {
  tk_in : q ∈ udp_pcbs s;
  tk_port : up_local_port (pcb_get s q) = dport;
  tk_ip : up_local_ip (pcb_get s q) = IPADDR_ANY \/ up_local_ip (pcb_get s q) = dst;
  tk_netif : up_netif_idx (pcb_get s q) = NETIF_NO_INDEX \/ up_netif_idx (pcb_get s q) = netif_get_index (st_netif s);
  tk_remote : up_flag (pcb_get s q) UDP_FLAGS_CONNECTED = false \/
    (up_remote_port (pcb_get s q) = sport /\ (up_remote_ip (pcb_get s q) = IPADDR_ANY \/ up_remote_ip (pcb_get s q) = src)) }.

Lemma takes_match s q src sport dst dport : takes s q src sport dst dport -> local_match (pcb_get s) (st_netif s) dst dport q = true.
Proof.
  intros [_ Hp Hip Hn _]. unfold local_match, udp_input_local_match. rewrite Hp, Z.eqb_refl. unfold ip4_addr_isany_val, IPADDR_ANY in *. cbn [andb].
  replace (negb _ && negb _) with false by (destruct Hn as [-> | ->]; rewrite Z.eqb_refl; by rewrite ?andb_false_r). destruct Hip as [-> | ->]; rewrite Z.eqb_refl; by rewrite ?orb_true_r.
Qed.

(** The invariant leaves no other. *)
Lemma takes_only s q q' src sport dst dport : udp_ok s -> takes s q src sport dst dport -> q' ∈ udp_pcbs s -> q' <> q -> local_match (pcb_get s) (st_netif s) dst dport q' = false.
Proof.
  intros Hok Ht Hq' Hne. apply not_true_iff_false. unfold local_match, udp_input_local_match. intros [Hp Hm]%andb_true_iff. case_match; [done|].
  pose proof (ok_distinct s Hok q' q Hq' (tk_in _ _ _ _ _ _ Ht) Hne) as Hd. unfold ports_clash in Hd. rewrite (tk_port _ _ _ _ _ _ Ht), Hp in Hd. cbn [andb] in Hd.
  apply orb_false_iff in Hd as [[He Ha]%orb_false_iff Hb]. rewrite Ha in Hm. cbn [orb] in Hm. destruct (tk_ip _ _ _ _ _ _ Ht) as [E|E]; rewrite E in *; [done|]. lia.
Qed.

Lemma takes_search s q src sport dst dport : udp_ok s -> takes s q src sport dst dport ->
  (exists before behind, udp_search (pcb_get s) (st_netif s) src sport dst dport false [] (udp_pcbs s) None = inl (q, before, behind) /\ udp_pcbs s ≡ₚ q :: reverse before ++ behind) \/
  udp_search (pcb_get s) (st_netif s) src sport dst dport false [] (udp_pcbs s) None = inr (Some q).
Proof.
  intros Hok Ht. pose proof (tk_in _ _ _ _ _ _ Ht) as Hin. apply list_elem_of_split in Hin as (l1 & l2 & El).
  pose proof (ok_apart s Hok) as Hnd. apply NoDup_app in Hnd as (Hnd & _). rewrite El in Hnd. apply NoDup_app in Hnd as (H1 & H12 & H2). apply NoDup_cons in H2 as [H2 _].
  destruct (search_one (pcb_get s) (st_netif s) src sport dst dport q l1 l2 [] (takes_match _ _ _ _ _ _ Ht)) as [E|E].
  - intros q' Hq'. apply (takes_only s q q' src sport); [done|done| |].
    + rewrite El. rewrite elem_of_app, elem_of_cons. apply elem_of_app in Hq'. tauto.
    + intros ->. apply elem_of_app in Hq' as [Hq'|Hq']; [apply (H12 _ Hq'); by left|done].
  - exact (tk_remote _ _ _ _ _ _ Ht).
  - left. rewrite El, E. eexists _, _. split; [done|]. rewrite app_nil_r, reverse_involutive. symmetry. apply Permutation_middle.
  - right. by rewrite El, E.
Qed.

(** ** The datagram *)

Lemma udp_hdr_fields src dest len c rest : is_u16 src -> is_u16 dest -> is_u16 c -> let u := udp_hdr src dest len c ++ rest in
  le_val (mem_read 0 2 u) = src /\ le_val (mem_read 2 2 u) = dest /\ le_val (mem_read 6 2 u) = c /\ drop (Z.to_nat UDP_HLEN) u = rest.
Proof.
  intros Hs Hd Hc u. assert (forall x, is_u16 x -> le_val (le_bytes 2 x) = x) as H16 by (intros x Hx; rewrite le_val_bytes; by apply Z.mod_small).
  split_and!; [change (le_val (le_bytes 2 src) = src)|change (le_val (le_bytes 2 dest) = dest)|change (le_val (le_bytes 2 c) = c)|done]; auto.
Qed.

(** A datagram that is not damaged. *)
Definition datagram_ok (src dst : Z) (bytes : list Z) (c : Z) : Prop := c = 0 \/ ip_chksum_pseudo (chain_of [bytes]) IP_PROTO_UDP (zlen bytes) src dst = 0.

Lemma pseudo_chain_of bufs src dst : Forall is_u8 (concat bufs) -> zlen (concat bufs) < 65536 -> is_u32 src -> is_u32 dst ->
  ip_chksum_pseudo (chain_of bufs) IP_PROTO_UDP (zlen (concat bufs)) src dst = ip_chksum_pseudo (chain_of [concat bufs]) IP_PROTO_UDP (zlen (concat bufs)) src dst.
Proof.
  intros Hu Hz Hs Hd. unfold ip_chksum_pseudo. pose proof (zlen_nonneg (concat bufs)).
  rewrite !chksum_pseudo_spec by (try apply chain_of_ok; cbn [concat]; rewrite ?app_nil_r; try done; unfold is_u16; lia).
  rewrite !chain_of_data. cbn [concat]. by rewrite app_nil_r.
Qed.

Lemma udp_hdr_u8 src dest len c : Forall is_u8 (udp_hdr src dest len c).
Proof. unfold udp_hdr. rewrite !Forall_app. split_and!; apply le_bytes_u8. Qed.

(** A datagram for a control block reaches its callback. *)
Lemma udp_input_takes s q cb src sport dst dport len c d h x bs : udp_ok s -> takes s q src sport dst dport -> up_recv (pcb_get s q) = Some cb ->
  is_u32 src -> is_u32 dst -> is_u16 sport -> is_u16 dport -> is_u16 c -> Forall is_u8 d -> 8 + zlen d < 65536 -> zlen h = IP_HLEN ->
  ip4_addr_isbroadcast_u32 dst (st_netif s) = false ->
  x ++ concat bs = d -> datagram_ok src dst (udp_hdr (lwip_htons sport) (lwip_htons dport) len c ++ d) c ->
  exists l, l ≡ₚ udp_pcbs s /\
    udp_input ((h ++ udp_hdr (lwip_htons sport) (lwip_htons dport) len c ++ x) :: bs) (mk_globals src dst IP_HLEN) s = recv_call cb q (x :: bs) src sport (s <| udp_pcbs := l |>).
Proof.
  intros Hok Ht Hcb Hsrc Hdst Hsp Hdp Hc Hd Hlen Hh Hbc Ex Hck. set (u := udp_hdr (lwip_htons sport) (lwip_htons dport) len c).
  assert (drop (Z.to_nat IP_HLEN) (h ++ u ++ x) = u ++ x) as Edrop by (rewrite <- Hh; unfold zlen; rewrite Nat2Z.id; apply drop_app_length).
  unfold udp_input. rewrite run_get. cbv beta zeta. cbn [current_iphdr_src current_iphdr_dest current_ip_header_tot_len]. rewrite Edrop.
  assert (zlen u = 8) as Hzu by done. replace (zlen (u ++ x) <? UDP_HLEN) with false by (unfold UDP_HLEN; rewrite zlen_app; pose proof (zlen_nonneg x); lia).
  destruct (udp_hdr_fields (lwip_htons sport) (lwip_htons dport) len c x) as (E1 & E2 & E3 & E4); [by apply htons_u16..|done|]. fold u in E1, E2, E3, E4.
  rewrite E1, E2, E3, E4, !htons_twice, Hbc by done.
  assert (negb (c =? 0) && negb (ip_chksum_pseudo (chain_of ((u ++ x) :: bs)) IP_PROTO_UDP (zlen (concat ((u ++ x) :: bs))) src dst =? 0) = false) as Hgood.
  { destruct (Z.eqb_spec c 0) as [|Hne]; [done|]. destruct Hck as [?|Hck]; [done|]. fold u in Hck. assert (concat ((u ++ x) :: bs) = u ++ d) as Eb by (cbn [concat]; by rewrite <- app_assoc, Ex).
    rewrite pseudo_chain_of; rewrite ?Eb; [by rewrite Hck|apply Forall_app; split; [apply udp_hdr_u8|done]|rewrite zlen_app; lia|done..]. }
  destruct (takes_search s q src sport dst dport Hok Ht) as [(before & behind & -> & Hperm) | ->].
  - exists (q :: reverse before ++ behind). split; [by rewrite Hperm|]. run. cbn [negb]. rewrite Hgood, Hcb. done.
  - exists (udp_pcbs s). split; [done|]. run. cbn [negb]. rewrite Hgood, Hcb. by destruct s.
Qed.
End deliver.

(** ** Fragments that come in *)

Lemma offset_flag_all : forallb (fun o => forallb (fun more : bool => let t := if more then Z.lor o IP_MF else o in
  negb ((0 <? o) || more) || negb (Z.land (lwip_htons t) (PP_HTONS (Z.lor IP_OFFMASK IP_MF)) =? 0)) [true; false]) (seqZ 0 8192) = true.
Proof. by vm_compute. Qed.

(** A fragment is seen to be one. *)
Lemma offset_flag o (more : bool) : 0 <= o < 8192 -> 0 < o \/ more = true -> let t := if more then Z.lor o IP_MF else o in
  (Z.land (lwip_htons t) (PP_HTONS (Z.lor IP_OFFMASK IP_MF)) =? 0) = false.
Proof.
  intros Ho Hm t. pose proof offset_flag_all as H. rewrite forallb_forall in H. specialize (H o). cbv beta in H. rewrite forallb_forall in H.
  specialize (H ltac:(apply list_elem_of_In, elem_of_seqZ; lia) more ltac:(destruct more; cbn; auto)). fold t in H.
  apply orb_true_iff in H as [H|H]; [|by apply negb_true_iff]. destruct Hm as [?| ->]; [replace (0 <? o) with true in H by lia; done|by rewrite orb_true_r in H].
Qed.

(** The list of the datagrams given up never loses one in the reassembly. *)
Definition given_up (s s' : reass) : Prop := exists l, rs_exceeded s' = l ++ rs_exceeded s.

Lemma given_up_refl s : given_up s s.
Proof. by exists []. Qed.
Lemma given_up_trans s1 s2 s3 : given_up s1 s2 -> given_up s2 s3 -> given_up s1 s3.
Proof. intros [l1 E1] [l2 E2]. exists (l2 ++ l1). by rewrite E2, E1, app_assoc. Qed.

Lemma given_up_free r s n s' : ip_reass_free_complete_datagram r s = Some (n, s') -> given_up s s'.
Proof. unfold ip_reass_free_complete_datagram. intros E. repeat case_match; simplify_eq; try done; first [by exists []|by eexists [_]]. Qed.

Lemma given_up_oldest fuel h need : forall freed s n s', remove_oldest_loop fuel h need freed s = Some (n, s') -> given_up s s'.
Proof.
  induction fuel as [|fuel IH]; intros freed s n s' E; [done|]. cbn [remove_oldest_loop] in E. destruct (oldest_loop _ _ _ _ _) as [[[i r]|] others].
  - destruct (ip_reass_free_complete_datagram r s) as [[m s1]|] eqn:Ef; [|done]. apply given_up_free in Ef. eapply given_up_trans; [exact Ef|].
    case_match; [|by simplify_eq; exists []]. by apply IH in E.
  - case_match; [by apply IH in E|]. simplify_eq. apply given_up_refl.
Qed.

Lemma given_up_put p c i r s : given_up s (reass_put p c i r s).2.
Proof. unfold reass_put. repeat case_match; by exists []. Qed.

Lemma given_up_reass p c s q s' : ip4_reass p c s = Some (q, s') -> given_up s s'.
Proof.
  unfold ip4_reass. intros E. case_match; [simplify_eq; apply given_up_refl|]. case_match; [simplify_eq; apply given_up_refl|].
  destruct (reass_room p c s) as [[b s1]|] eqn:Er; [|done]. assert (given_up s s1) as H1.
  { clear E. unfold reass_room in Er. case_match; [|simplify_eq; apply given_up_refl]. case_match; [|done]. case_match. simplify_eq. by eapply given_up_oldest. }
  eapply given_up_trans; [exact H1|]. destruct b; [|simplify_eq; apply given_up_refl].
  destruct (reass_datagram p c s1) as [[o s2]|] eqn:Ed; [|done]. assert (given_up s1 s2) as H2.
  { clear E. unfold reass_datagram, ip_reass_enqueue_new_datagram in Ed. repeat case_match; simplify_eq; try apply given_up_refl; try (by exists []).
    all: try (match goal with H : ip_reass_remove_oldest_datagram _ _ _ = Some _ |- _ => exact (given_up_oldest _ _ _ _ _ _ _ H) end). }
  eapply given_up_trans; [exact H2|]. destruct o as [[i r]|]; [|simplify_eq; apply given_up_refl]. injection E as E. pose proof (given_up_put p c i r s2) as Hp. by rewrite E in Hp.
Qed.

Lemma given_up_all ps : forall s rs s', reass_all ps s = Some (rs, s') -> given_up s s'.
Proof.
  induction ps as [|[p c] ps IH]; intros s rs s' E; cbn [reass_all] in E; [simplify_eq; apply given_up_refl|].
  destruct (ip4_reass p c s) as [[r s1]|] eqn:Er; [|done]. destruct (reass_all ps s1) as [[rs1 s2]|] eqn:Ea; [|done]. simplify_eq.
  eapply given_up_trans; [by eapply given_up_reass|by eapply IH].
Qed.

Section fragments.
Context {A : Type} `{!UdpRecv A, !TcpIn A}.
Implicit Types s : ips A.
Open Scope st_scope.

Lemma fragment_input s tos n id ttl proto src dst a y more : is_u8 tos -> is_u16 id -> is_u8 ttl -> is_u8 proto -> is_u32 src -> is_u32 dst ->
  piece_ok (a, y, more) -> 0 < a \/ more = true -> accepts (st_netif s) src dst = true ->
  let p := frag_packet (ip_hdr_out tos n id ttl proto src dst) (a, y, more) in
  ip4_input [p] s = sto_bind (ip4_reass_call [p]) (after_reass IP_HLEN (mk_globals src dst IP_HLEN)) s.
Proof.
  intros Htos Hid Httl Hproto Hsrc Hdst (Ha & Ha8 & Hy & Ht) Hm Hacc p. unfold IP_HLEN in Ht. set (t := if more then Z.lor (a / 8) IP_MF else a / 8).
  assert (0 <= a / 8 < 8192 /\ (0 < a -> 0 < a / 8)) as [Ho Hpos] by zdivmod. destruct (last_flag (a / 8) more Ho) as (Htu & _).
  assert (is_u16 (zlen y + IP_HLEN)) as Hlen by (unfold is_u16, IP_HLEN; lia).
  pose proof (hdr_filled 0 0 tos (lwip_htons (zlen y + IP_HLEN)) (lwip_htons id) (lwip_htons t) ttl proto src dst) as Hf.
  set (c := inet_chksum 0 _) in Hf. destruct Hf as [Hc Hck]; [by try apply htons_u16..|].
  assert (p = ip_hdr 0x45 tos (lwip_htons (zlen y + IP_HLEN)) (lwip_htons id) (lwip_htons t) ttl proto c src dst ++ y) as Ep.
  { unfold p, frag_packet. fold t. f_equal. unfold c. rewrite <- (u16_small (zlen y + IP_HLEN)) by done. reflexivity. }
  rewrite (ip4_input_accepted s tos (zlen y + IP_HLEN) (lwip_htons id) (lwip_htons t) ttl proto c src dst y [p]); try done; try by apply htons_u16.
  - pose proof (offset_flag (a / 8) more Ho) as Eo. fold t in Eo. rewrite Eo; [done|]. destruct Hm; [left; auto|by right].
  - cbn [concat]. by rewrite app_nil_r.
  - change (20 <= zlen p). rewrite Ep, zlen_app, ip_hdr_zlen. unfold IP_HLEN. lia.
  - unfold IP_HLEN. lia.
Qed.

(** The packets that come in, one by one. *)
Definition input_all (ps : list (list Z)) : STO (ips A) unit := sto_iter (fun p => ip4_input [p] ;?; sto_ret tt) ps.

Lemma run_tail (m : STO (ips A) unit) s : sto_bind m (fun _ => sto_ret tt) s = m s.
Proof. unfold sto_bind. by destruct (m s) as [[[] s']|]. Qed.

(** Nothing is given up while the fragments come in. *)
Lemma reass_call_quiet p s q r : ip4_reass p 1 (st_reass s) = Some (q, r) -> rs_exceeded r = [] -> ip4_reass_call [p] s = Some (q, s <| st_reass := r |>).
Proof.
  intros E Hr. unfold ip4_reass_call. rewrite run_get. cbn [concat]. rewrite app_nil_r. change (zlen [p]) with 1. rewrite E. run.
  unfold send_exceeded. run. change (st_reass (s <| st_reass := r |>)) with r. rewrite Hr. change (reverse []) with (@nil (list Z)). cbn [sto_iter]. run. unfold sto_ret. do 2 f_equal.
  change (s <| st_reass := r <| rs_exceeded := [] |> |> = s <| st_reass := r |>). destruct r. cbn in Hr. by subst.
Qed.

Lemma input_reassembled g q r ps : forall s, (forall p s', p ∈ ps -> st_netif s' = st_netif s -> ip4_input [p] s' = sto_bind (ip4_reass_call [p]) (after_reass IP_HLEN g) s') ->
  ps <> [] -> reass_all ((fun p => (p, 1)) <$> ps) (st_reass s) = Some (repeat None (pred (length ps)) ++ [Some q], r) -> rs_exceeded r = [] ->
  input_all ps s = ip4_deliver q IP_HLEN g (s <| st_reass := r |>).
Proof.
  induction ps as [|p ps IH]; intros s Hin Hne E Hr; [done|]. cbn [fmap list_fmap reass_all] in E.
  destruct (ip4_reass p 1 (st_reass s)) as [[q1 r1]|] eqn:Ep; [|done]. destruct (reass_all ((fun p => (p, 1)) <$> ps) r1) as [[rs r2]|] eqn:Ea; [|done].
  assert (rs_exceeded r1 = []) as Hr1.
  { apply given_up_all in Ea as [l El]. simplify_eq. rewrite Hr in El. symmetry in El. by apply app_eq_nil in El as [_ ?]. }
  unfold input_all. cbn [sto_iter]. run. assert (p ∈ p :: ps) as Hp by left.
  unfold sto_bind at 1. rewrite (Hin p s Hp eq_refl). unfold sto_bind at 1. rewrite (reass_call_quiet p s q1 r1 Ep Hr1).
  destruct ps as [|p2 ps].
  - cbn in Ea, E. simplify_eq. cbn [sto_iter after_reass]. unfold sto_bind, sto_ret. by destruct (ip4_deliver q IP_HLEN g _) as [[[] ?]|].
  - cbn [pred length repeat app] in E. simplify_eq. cbn [after_reass]. change (input_all (p2 :: ps) (s <| st_reass := r1 |>) = ip4_deliver q IP_HLEN g (s <| st_reass := r |>)).
    rewrite (IH (s <| st_reass := r1 |>)); [done| |done|exact Ea|done]. intros p' s' Hp' Hn. apply Hin; [by right|done].
Qed.
End fragments.

(** ** The datagram that goes out *)

Lemma elem_of_concat_zlen {B} (x : list B) l : x ∈ l -> zlen x <= zlen (concat l).
Proof. intros (l1 & l2 & ->)%list_elem_of_split. rewrite concat_app, zlen_app. cbn [concat]. rewrite zlen_app. pose proof (zlen_nonneg (concat l1)). pose proof (zlen_nonneg (concat l2)). lia. Qed.

Section send.
Context {A : Type}.
Implicit Types s : ips A.
Open Scope st_scope.

Lemma iter_output dst qs : forall s, exists s', sto_iter (fun q => netif_output q dst ;?; sto_ret tt) qs s = Some (tt, s') /\ st_sent s' = reverse ((fun x => (x, dst)) <$> qs) ++ st_sent s.
Proof.
  induction qs as [|q qs IH]; intros s; [by exists s|]. cbn [sto_iter]. unfold netif_output. run.
  match goal with |- exists s', sto_iter _ _ ?s1 = _ /\ _ => destruct (IH s1) as (s' & E & Hs) end. exists s'. unfold netif_output in E. split; [exact E|]. rewrite Hs.
  cbn [fmap list_fmap]. by rewrite reverse_cons, <- app_assoc.
Qed.

(** What [hand_out] gives to the link: the packet, or its pieces. *)
Lemma hand_out_packets s tos id ttl proto src dst P b bs room : is_u8 tos -> is_u16 id -> is_u8 ttl -> is_u8 proto -> is_u32 src -> is_u32 dst ->
  let hdr := ip_hdr_out tos (IP_HLEN + zlen P) id ttl proto src dst in
  concat (b :: bs) = hdr ++ P -> IP_HLEN <= zlen b -> 0 < zlen P <= 0xFFFF - IP_HLEN -> 28 <= nf_mtu (st_netif s) < 65536 -> st_mem s = [] ->
  let m := nf_mtu (st_netif s) - IP_HLEN in
  exists ps err s', hand_out (mk_packet room (b :: bs)) dst s = Some (err, s') /\ st_sent s' = reverse ((fun x => (x, dst)) <$> ps) ++ st_sent s /\
    (ps = [hdr ++ P] \/ (m < zlen P /\ ps = frag_packet hdr <$> cut (Z.to_nat 0x2000) (8 * (m / 8)) m 0 P)).
Proof.
  intros Htos Hid Httl Hproto Hsrc Hdst hdr Hb Hb1 HP Hmtu Hmem m. assert (pk_tot_len (mk_packet room (b :: bs)) = IP_HLEN + zlen P) as Ez.
  { unfold pk_tot_len, pk_bytes. cbn [pk_bufs]. by rewrite Hb, zlen_app. }
  destruct (Z.le_gt_cases (IP_HLEN + zlen P) (nf_mtu (st_netif s))) as [Hle|Hgt].
  - rewrite hand_out_fits by (right; lia). unfold pk_bytes. cbn [pk_bufs]. rewrite Hb. eexists [hdr ++ P], _, _. split; [unfold netif_output; run; reflexivity|]. split; [done|by left].
  - unfold hand_out. run. rewrite Ez. replace (nf_mtu (st_netif s) =? 0) with false by lia. replace (nf_mtu (st_netif s) <? IP_HLEN + zlen P) with true by lia. cbn [negb andb].
    unfold frag_output. run. cbn [pk_bufs]. rewrite Hmem. rewrite (ip4_frag_eq tos id ttl proto src dst P b bs) by (try done; apply Forall_forall; intros x Hx;
      pose proof (elem_of_concat_zlen x _ Hx) as H; rewrite Hb, zlen_app in H; change (zlen hdr) with 20 in H; unfold IP_HLEN in *; lia).
    fold hdr m. set (ps := frag_packet hdr <$> _). run.
    match goal with |- context [sto_iter _ ps ;?; _] => idtac end.
    destruct (iter_output dst ps (s <| st_mem := [] |>)) as (s' & E & Hs). eexists ps, _, s'. split; [erewrite run_some by exact E; reflexivity|]. split; [exact Hs|]. right. split; [unfold m; lia|done].
Qed.

Lemma add_header_fits hdr room b bs : 0 < zlen hdr <= room -> zlen hdr + zlen (concat (b :: bs)) < 65536 ->
  pk_add_header hdr (mk_packet room (b :: bs)) = Some (mk_packet (room - zlen hdr) ((hdr ++ b) :: bs)).
Proof.
  intros Hr Hz. pose proof (zlen_nonneg (concat (b :: bs))). unfold pk_add_header, pk_tot_len, pk_bytes. cbn [pk_bufs pk_room].
  rewrite u16_small by (unfold is_u16; lia). replace (zlen hdr =? 0) with false by lia. replace (_ <? zlen hdr) with false by lia. by replace (room <? zlen hdr) with false by lia.
Qed.

(** A control block that can send to [dst], and a packet with room for the headers. *)
Record can_send s (q : Z) (p : packet) (dst port : Z) : Prop := mk_can_send {
  cs_pcb : q <> 0;
  cs_netif : up_netif_idx (pcb_get s q) = NETIF_NO_INDEX;
  cs_route : ip4_route (st_netif s) dst = true;
  cs_ip : up_local_ip (pcb_get s q) = IPADDR_ANY \/ up_local_ip (pcb_get s q) = nf_ip_addr (st_netif s);
  cs_port : 0 < up_local_port (pcb_get s q) < 65536;
  cs_dport : is_u16 port;
  cs_tos : is_u8 (up_tos (pcb_get s q));
  cs_ttl : is_u8 (up_ttl (pcb_get s q));
  cs_id : is_u16 (ip_id s);
  cs_own : is_u32 (nf_ip_addr (st_netif s));
  cs_dst : is_u32 dst;
  cs_mem : st_mem s = [];
  cs_mtu : 28 <= nf_mtu (st_netif s) < 65536;
  cs_bufs : pk_bufs p <> [];
  cs_room : UDP_HLEN + IP_HLEN <= pk_room p;
  cs_data : Forall is_u8 (pk_bytes p);
  cs_len : UDP_HLEN + zlen (pk_bytes p) <= 0xFFFF - IP_HLEN }.

(** The header of the packet, and the datagram in it. *)
Definition sent_hdr s (q dst len : Z) : list Z := ip_hdr_out (up_tos (pcb_get s q)) (IP_HLEN + len) (ip_id s) (up_ttl (pcb_get s q)) IP_PROTO_UDP (nf_ip_addr (st_netif s)) dst.
Definition sent_udp s (q port c : Z) (d : list Z) : list Z := udp_hdr (lwip_htons (up_local_port (pcb_get s q))) (lwip_htons port) (lwip_htons (UDP_HLEN + zlen d)) c ++ d.

Lemma sent_udp_zlen s q port c d : zlen (sent_udp s q port c d) = UDP_HLEN + zlen d.
Proof. unfold sent_udp. by rewrite zlen_app. Qed.

Lemma sent_udp_u8 s q port c d : Forall is_u8 d -> Forall is_u8 (sent_udp s q port c d).
Proof. intros. unfold sent_udp. apply Forall_app. split; [apply udp_hdr_u8|done]. Qed.

(** The checksum that is stored. *)
Lemma sent_chksum s q port bs d src dst : Forall is_u8 d -> zlen d + UDP_HLEN < 65536 -> is_u32 src -> is_u32 dst -> concat bs = sent_udp s q port 0 d ->
  let c := ip_chksum_pseudo (chain_of bs) IP_PROTO_UDP (UDP_HLEN + zlen d) src dst in let c' := if c =? 0 then 0xffff else c in
  is_u16 c' /\ datagram_ok src dst (sent_udp s q port c' d) c'.
Proof.
  intros Hd Hz Hs Hdst Hb c c'. pose proof (zlen_nonneg d). unfold UDP_HLEN in *. assert (chain_ok (chain_of bs)) as Hok.
  { apply chain_of_ok; rewrite Hb; [by apply sent_udp_u8|rewrite sent_udp_zlen; unfold UDP_HLEN; lia]. }
  assert (0 <= c <= 65535) as Hc by (unfold c, ip_chksum_pseudo; rewrite chksum_pseudo_spec by (done || unfold is_u16; lia); pose proof (csum_range (wsum false (pseudo_header src dst IP_PROTO_UDP (8 + zlen d) ++ chain_data (chain_of bs)))); lia).
  assert (is_u16 c') as Hc' by (unfold c', is_u16; case_match; lia). split; [done|]. right. rewrite sent_udp_zlen. unfold UDP_HLEN.
  apply (pseudo_stored (chain_of bs) (chain_of [sent_udp s q port c' d])
    (le_bytes 2 (lwip_htons (up_local_port (pcb_get s q))) ++ le_bytes 2 (lwip_htons port) ++ le_bytes 2 (lwip_htons (8 + zlen d))) d IP_PROTO_UDP (8 + zlen d) src dst c'); try done.
  - apply chain_of_ok; cbn [concat]; rewrite app_nil_r; [by apply sent_udp_u8|rewrite sent_udp_zlen; unfold UDP_HLEN; lia].
  - unfold is_u16. lia.
  - rewrite chain_of_data, Hb. unfold sent_udp, udp_hdr. by rewrite <- !app_assoc.
  - rewrite chain_of_data. cbn [concat]. rewrite app_nil_r. unfold sent_udp, udp_hdr. by rewrite <- !app_assoc.
  - unfold c'. fold c. destruct (Z.eqb_spec c 0); [by right|by left].
Qed.

Lemma sendto_packets s q p dst port : can_send s q p dst port -> let d := pk_bytes p in let m := nf_mtu (st_netif s) - IP_HLEN in
  exists c ps err s', is_u16 c /\ datagram_ok (nf_ip_addr (st_netif s)) dst (sent_udp s q port c d) c /\
    udp_sendto q p dst port s = Some (err, s') /\ st_sent s' = reverse ((fun x => (x, dst)) <$> ps) ++ st_sent s /\
    let P := sent_udp s q port c d in let hdr := sent_hdr s q dst (zlen P) in
    (ps = [hdr ++ P] \/ (m < zlen P /\ ps = frag_packet hdr <$> cut (Z.to_nat 0x2000) (8 * (m / 8)) m 0 P)).
Proof.
  intros [Hq Hidx Hroute Hip Hport Hdport Htos Httl Hid Hown Hdst Hmem Hmtu Hbufs Hroom Hd Hlen] d m. destruct p as [room [|b bs]]; [done|]. cbn [pk_room pk_bufs] in *. unfold pk_bytes in *. cbn [pk_bufs] in *. fold d in Hd, Hlen.
  pose proof (zlen_nonneg d). unfold UDP_HLEN, IP_HLEN in Hlen, Hroom. set (u := pcb_get s q) in *. set (own := nf_ip_addr (st_netif s)) in *.
  assert (udp_sendto q (mk_packet room (b :: bs)) dst port s = udp_sendto_if_src q (mk_packet room (b :: bs)) dst port own s) as ->.
  { unfold udp_sendto, udp_sendto_if. replace (q =? 0) with false by lia. run. fold u. rewrite Hidx, Hroute. change (negb (NETIF_NO_INDEX =? NETIF_NO_INDEX)) with false. cbv iota. run. fold u own.
    destruct Hip as [-> | ->]; [done|]. rewrite Z.eqb_refl. cbn [negb]. by case_match. }
  unfold udp_sendto_if_src. replace (q =? 0) with false by lia. run. fold u. replace (up_local_port u =? 0) with false by lia. cbv iota. run. change (negb (ERR_OK =? ERR_OK)) with false. cbv iota.
  assert (u16 (pk_tot_len (mk_packet room (b :: bs)) + UDP_HLEN) = UDP_HLEN + zlen d) as -> by (unfold pk_tot_len, pk_bytes, UDP_HLEN; cbn [pk_bufs]; fold d; rewrite u16_small by (unfold is_u16; lia); lia).
  replace (UDP_HLEN + zlen d <? pk_tot_len (mk_packet room (b :: bs))) with false by (unfold pk_tot_len, pk_bytes, UDP_HLEN; cbn [pk_bufs]; fold d; lia). run. fold u.
  set (h c := udp_hdr (lwip_htons (up_local_port u)) (lwip_htons port) (lwip_htons (UDP_HLEN + zlen d)) c).
  assert (forall c, concat ((h c ++ b) :: bs) = sent_udp s q port c d) as Eh by (intros c; cbn [concat]; rewrite <- app_assoc; reflexivity).
  assert (forall c, zlen (sent_udp s q port c d) = 8 + zlen d) as Hzs by (intros c; apply sent_udp_zlen).
  unfold udp_header_room. fold (h 0). rewrite add_header_fits by (change (zlen (h 0)) with 8; fold d; lia). run. change (zlen (h 0)) with 8. cbn [pk_bufs pk_room].
  unfold pk_tot_len, pk_bytes. cbn [pk_bufs]. rewrite Eh, Hzs.
  destruct (sent_chksum s q port ((h 0 ++ b) :: bs) d own dst Hd) as [Hc Hok]; [unfold UDP_HLEN; lia|done|done|apply Eh|]. unfold UDP_HLEN in Hc, Hok. set (c' := if _ =? 0 then _ else _) in Hc, Hok |- *.
  set (c := if up_flag u UDP_FLAGS_NOCHKSUM then 0 else c'). exists c.
  assert (is_u16 c /\ datagram_ok own dst (sent_udp s q port c d) c) as [Hcu Hcok] by (unfold c; case_match; [split; [done|by left]|done]).
  match goal with |- context [ip4_output_if_src ?x _ _ _ _ _] => assert (x = mk_packet (room - 8) ((h c ++ b) :: bs)) as -> by (unfold c; by destruct (up_flag u UDP_FLAGS_NOCHKSUM)) end.
  unfold ip4_output_if_src. run. assert (pk_tot_len (mk_packet (room - 8) ((h c ++ b) :: bs)) = 8 + zlen d) as -> by (unfold pk_tot_len, pk_bytes; cbn [pk_bufs]; by rewrite Eh).
  change (default IPADDR_ANY (Some own)) with own. rewrite (Z.add_comm (8 + zlen d)). rewrite <- (Hzs c). pose proof (Hzs c) as HzP. pose proof (Eh c) as EhP. set (P := sent_udp s q port c d) in *. set (hdr := sent_hdr s q dst (zlen P)).
  change (ip_hdr_out (up_tos u) (IP_HLEN + zlen P) (ip_id s) (up_ttl u) IP_PROTO_UDP own dst) with hdr. assert (zlen hdr = 20) as Hzh by apply ip_hdr_zlen. rewrite add_header_fits by (rewrite Hzh, ?EhP; lia). run.
  destruct (hand_out_packets (s <| ip_id := u16 (ip_id s + 1) |>) (up_tos u) (ip_id s) (up_ttl u) IP_PROTO_UDP own dst P (hdr ++ h c ++ b) bs (room - 8 - zlen hdr)) as (ps & err & s' & E & Hs & Hps); try done.
  - rewrite zlen_app, Hzh. pose proof (zlen_nonneg (h c ++ b)). unfold IP_HLEN. lia.
  - unfold IP_HLEN. lia.
  - exists ps, err, s'. split_and!; [done..|exact E|exact Hs|exact Hps].
Qed.
End send.

(** ** The whole way *)

Lemma cut_first n m P : 0 < zlen P -> exists rest, cut (Z.to_nat 0x2000) n m 0 P = (0, take (Z.to_nat n) P, m <? zlen P) :: rest.
Proof. destruct P as [|b P]; [done|]. intros _. change (Z.to_nat 0x2000) with (S (Z.to_nat 0x1fff)). by eexists. Qed.

Section way.
Context {A B : Type} `{!UdpRecv B, !TcpIn B}.
Context (s : ips A) (r : ips B) (q : Z) (p : packet) (dst port q' cb c : Z).
Let u := pcb_get s q.
Let own := nf_ip_addr (st_netif s).
Let d := pk_bytes p.
Let P := sent_udp s q port c d.
Let hdr := sent_hdr s q dst (zlen P).
Let g := mk_globals own dst IP_HLEN.

Context (Hsend : can_send s q p dst port) (Hc : is_u16 c) (Hck : datagram_ok own dst P c).
Context (Hok : udp_ok r) (Htakes : takes r q' own (up_local_port u) dst port) (Hcb : up_recv (pcb_get r q') = Some cb).
Context (Hacc : accepts (st_netif r) own dst = true) (Hbc : ip4_addr_isbroadcast_u32 dst (st_netif r) = false).

(** What the callback gets. *)
Definition received (run : option (unit * ips B)) : Prop :=
  exists bufs l, concat bufs = d /\ l ≡ₚ udp_pcbs r /\ run = recv_call cb q' bufs own (up_local_port u) (r <| udp_pcbs := l |>).

Let h := udp_hdr (lwip_htons (up_local_port u)) (lwip_htons port) (lwip_htons (UDP_HLEN + zlen d)) c.

Ltac unpack := destruct Hsend as [Hq Hidx Hroute Hip Hport Hdport Htos Httl Hid Hown Hdst Hmem Hmtu Hbufs Hroom Hd Hlen]; fold u in Hport, Htos, Httl; fold own in Hown; fold d in Hd, Hlen.

Lemma deliver_received x bs : x ++ concat bs = d -> received (ip4_deliver ((hdr ++ h ++ x) :: bs) IP_HLEN g r).
Proof.
  intros Ex. unpack. unfold ip4_deliver. rewrite run_get. cbv beta zeta. change (IPH_PROTO (hdr ++ h ++ x)) with IP_PROTO_UDP. change (IP_PROTO_UDP =? IP_PROTO_UDP) with true. cbv iota.
  assert (is_u16 (up_local_port u)) by (unfold is_u16; lia). unfold UDP_HLEN, IP_HLEN in Hlen.
  destruct (udp_input_takes r q' cb own (up_local_port u) dst port (lwip_htons (UDP_HLEN + zlen d)) c d hdr x bs) as (l & Hl & E); try done; [lia|].
  exists (x :: bs), l. split_and!; [done..|exact E].
Qed.

Lemma whole_received : received (input_all [hdr ++ P] r).
Proof.
  unpack. pose proof (zlen_nonneg d). assert (zlen P = UDP_HLEN + zlen d) as HzP by apply sent_udp_zlen. unfold UDP_HLEN, IP_HLEN in HzP, Hlen.
  assert (input_all [hdr ++ P] r = ip4_deliver [hdr ++ P] IP_HLEN g r) as ->; [|apply deliver_received; by rewrite app_nil_r].
  assert (is_u16 (20 + zlen P)) as Hlen16 by (unfold is_u16; lia). unfold input_all. cbn [sto_iter]. run. unfold sto_bind at 1.
  rewrite (ip4_input_accepted r (up_tos u) (20 + zlen P) (lwip_htons (ip_id s)) 0 (up_ttl u) IP_PROTO_UDP (ip_chk_sum (up_tos u) (lwip_htons (20 + zlen P)) (lwip_htons (ip_id s)) (up_ttl u) IP_PROTO_UDP own dst) own dst P [hdr ++ P]);
    try done; try by apply htons_u16.
  - change (negb (Z.land 0 (PP_HTONS (Z.lor IP_OFFMASK IP_MF)) =? 0)) with false. cbv iota. rewrite run_ret. fold g. cbn [after_reass sto_iter]. unfold sto_bind, sto_ret.
    by destruct (ip4_deliver [hdr ++ P] IP_HLEN g r) as [[[] ?]|].
  - unfold ip_chk_sum. cbv zeta. apply u16_range.
  - cbn [concat]. by rewrite app_nil_r.
  - change (20 <= zlen (hdr ++ P)). rewrite zlen_app. change (zlen hdr) with 20. lia.
  - rewrite (ip_chk_sum_inet 0) by (done || by apply htons_u16). apply hdr_filled; try done; by apply htons_u16.
Qed.

Let m := nf_mtu (st_netif s) - IP_HLEN.

Lemma pieces_received xs : m < zlen P -> cut_right m (zlen P) = true ->
  rs_exceeded (st_reass r) = [] -> 0 <= ip_reass_pbufcount (st_reass r) -> reassdata_free (st_reass r) = true ->
  (forall x, x ∈ reassdatagrams (st_reass r) -> IP_ADDRESSES_AND_ID_MATCH (rd_iphdr x) hdr = false) ->
  xs ≡ₚ frag_packet hdr <$> cut (Z.to_nat 0x2000) (8 * (m / 8)) m 0 P -> ip_reass_pbufcount (st_reass r) + zlen xs <= IP_REASS_MAX_PBUFS ->
  received (input_all xs r).
Proof.
  intros Hm Hcut Hex Hcount Hfree Hno Hxs Hroom'. unpack. pose proof (zlen_nonneg d). assert (zlen P = UDP_HLEN + zlen d) as HzP by apply sent_udp_zlen. unfold UDP_HLEN in HzP, Hlen.
  set (n := 8 * (m / 8)) in *. assert (n mod 8 = 0 /\ 8 <= n /\ n <= m < n + 8) as (Hn8 & Hn & Hnm) by (unfold n, m, IP_HLEN; zdivmod).
  destruct (cut_pieces n m Hn8 Hn Hnm (Z.to_nat 0x2000) 0 P) as (pre & lst & Ec & H1 & H2 & H3 & H4 & _); [unfold IP_HLEN in *; lia|done|done|lia| |].
  { unfold cut_right in Hcut. fold n in Hcut. apply orb_true_iff in Hcut as [[?|?]%orb_true_iff|?]; lia. }
  rewrite Ec in Hxs. assert (length xs = S (length pre)) as Hl by (rewrite Hxs, length_fmap, length_app; cbn; lia).
  destruct (reass_pieces (up_tos u) (ip_id s) (up_ttl u) IP_PROTO_UDP own dst P pre lst (st_reass r) (IP_HLEN + zlen P) ((fun x => (x, 1)) <$> xs)) as [E Ebytes]; try done.
  - lia.
  - rewrite <- list_fmap_compose. change (fst ∘ (fun x : list Z => (x, 1))) with (@id (list Z)). by rewrite list_fmap_id.
  - apply Forall_fmap, Forall_forall. by intros.
  - assert (foldr Z.add 0 ((fun x : list Z => (x, 1)) <$> xs).*2 = zlen xs) as ->; [|done]. clear. induction xs as [|x xs IH]; [done|]. rewrite zlen_cons, <- IH. done.
  - change (ip_hdr_out (up_tos u) (IP_HLEN + zlen P) (ip_id s) (up_ttl u) IP_PROTO_UDP own dst) with hdr in E, Ebytes.
    destruct (cut_first n m P) as [rest Er]; [lia|]. rewrite Er in Ec. replace (m <? zlen P) with true in Ec by lia.
    destruct pre as [|f0 pre]; [cbn [app] in Ec; injection Ec as <- _; done|]. cbn [app] in Ec. injection Ec as <- Erest.
    cbn [app fmap list_fmap reass_chain fst snd] in E, Ebytes. set (bs := (fun x => snd (fst x)) <$> pre ++ [lst]) in E, Ebytes.
    assert (take (Z.to_nat n) P = h ++ take (Z.to_nat (n - 8)) d) as Ex by (change P with (h ++ d); rewrite take_app_z, take_all_z by (change (zlen h) with 8; lia); done).
    rewrite Ex in E, Ebytes. cbn [concat] in Ebytes. rewrite <- app_assoc in Ebytes. apply app_inv_head in Ebytes. change P with (h ++ d) in Ebytes. rewrite <- app_assoc in Ebytes. apply app_inv_head in Ebytes.
    rewrite (input_reassembled g ((hdr ++ h ++ take (Z.to_nat (n - 8)) d) :: bs) (st_reass r)); [| |intros ->; done| |done].
    + replace (r <| st_reass := st_reass r |>) with r by (by destruct r). by apply deliver_received.
    + intros x r' Hx Hr'. rewrite Hxs in Hx. apply list_elem_of_fmap in Hx as ([[a y] more] & -> & Hx). rewrite Forall_forall in H1. pose proof (H1 _ Hx) as Hpc.
      apply fragment_input; try done; [|by rewrite Hr']. rewrite Forall_forall in H2. apply elem_of_cons in Hx as [Hx|[Hx|Hx%list_elem_of_singleton]%elem_of_app];
        [right; by injection Hx|right; by apply (H2 (a, y, more)); right|left].
      destruct (H4 (fun _ => 1)) as [Hs _]. cbn [app fmap list_fmap sequel] in Hs. destruct Hs as (_ & _ & Hs). apply (sequel_later _ _ (piece_frag (fun _ => 1) lst)) in Hs; [|apply list_elem_of_fmap_2, elem_of_app; right; by left].
      rewrite <- Hx in Hs. cbn [piece_frag fr_start fr_end] in Hs. rewrite Ex, zlen_app in Hs. change (zlen h) with 8 in Hs. match type of Hs with context [zlen ?y0] => pose proof (zlen_nonneg y0) end. lia.
    + rewrite E. do 3 f_equal. rewrite Hl. done.
Qed.
End way.

(** C15: End to end: a datagram that [udp_sendto] sends from a control block to a port of
    another stack reaches the callback of the control block bound to it there, exactly
    once, with its bytes, the sender's address and the sender's port. The packet goes out
    whole or, if it is longer than the MTU, in fragments; however they are ordered when
    they come in, and whatever else waits in the reassembly, nothing but the one call
    happens at the receiver, apart from the control block moving up in the list. The
    length must be one that the fragmentation cuts right. *)
Theorem udp_end_to_end {A B} `{!UdpRecv B, !TcpIn B} (s : ips A) (r : ips B) q p dst port q' cb :
  let own := nf_ip_addr (st_netif s) in let sport := up_local_port (pcb_get s q) in let len := UDP_HLEN + zlen (pk_bytes p) in
  can_send s q p dst port -> cut_right (nf_mtu (st_netif s) - IP_HLEN) len = true ->
  udp_ok r -> takes r q' own sport dst port -> up_recv (pcb_get r q') = Some cb ->
  accepts (st_netif r) own dst = true -> ip4_addr_isbroadcast_u32 dst (st_netif r) = false ->
  rs_exceeded (st_reass r) = [] -> 0 <= ip_reass_pbufcount (st_reass r) -> reassdata_free (st_reass r) = true ->
  (forall x, x ∈ reassdatagrams (st_reass r) -> IP_ADDRESSES_AND_ID_MATCH (rd_iphdr x) (sent_hdr s q dst len) = false) ->
  exists ps err s', udp_sendto q p dst port s = Some (err, s') /\ st_sent s' = reverse ((fun x => (x, dst)) <$> ps) ++ st_sent s /\
    forall xs, xs ≡ₚ ps -> ip_reass_pbufcount (st_reass r) + zlen xs <= IP_REASS_MAX_PBUFS ->
      exists bufs l, concat bufs = pk_bytes p /\ l ≡ₚ udp_pcbs r /\ input_all xs r = recv_call cb q' bufs own sport (r <| udp_pcbs := l |>).
Proof.
  intros own sport len Hsend Hcut Hok Htakes Hcb Hacc Hbc Hex Hcount Hfree Hno.
  destruct (sendto_packets s q p dst port Hsend) as (c & ps & err & s' & Hc & Hck & E & Hs & Hps). exists ps, err, s'. split; [done|]. split; [done|]. intros xs Hxs Hroom.
  assert (zlen (sent_udp s q port c (pk_bytes p)) = len) as Hlen by apply sent_udp_zlen.
  destruct Hps as [-> | [Hm ->]].
  - apply Permutation_singleton_r in Hxs as ->. by apply (whole_received s r q p dst port q' cb c).
  - apply (pieces_received s r q p dst port q' cb c); try done; by rewrite Hlen.
Qed.
