(* ===== verification/UdpRun.v ===== *)
(** * UdpRun: runs of the network layer

    The host (192.168.7.2) and the firmware (192.168.7.1), each as a state of the network
    layer, whose applications log what they receive. *)

From stdpp Require Import gmap.
From S2P Require Import Prelude Chksum Pbuf PbufData Inet Ip4Hdr Ip4Frag Ip4FragProps Ip4Reass Ip4ReassInv Ip4FragRun Ip4Out Icmp Udp Ip4In Ip4InProps UdpProps UdpWay.

(** A call of a callback: the callback, the control block, the data and the sender. *)
Definition udp_log : Type := list (Z * Z * list Z * Z * Z).
#[local] Instance log_recv : UdpRecv udp_log := fun cb q bufs addr port => sto_mod (fun s => s <| st_app := (cb, q, concat bufs, addr, port) :: st_app s |>).
#[local] Instance log_tcp : TcpIn udp_log := fun _ _ => sto_ret tt.

Definition net_own : Z := IP4_ADDR 192 168 7 1.
Definition net_host : Z := IP4_ADDR 192 168 7 2.
Definition net_if (addr mtu : Z) : netif := mk_netif addr (IP4_ADDR 255 255 255 0) 0 mtu [2; 2; 0x84; 0x6a; 0x96; 0] 15 0.

(** A control block, unconnected, bound to [port] of any address. *)
Definition net_pcb (port : Z) : udp_pcb := mk_udp_pcb 0 0 0 0 255 0 port 0 (Some 9).
Definition net_state (addr mtu q port : Z) (r : reass) : ips udp_log :=
  mk_ips 7 (net_if addr mtu) r [q] 0xc000 {[q := net_pcb port]} [400] [] [] [] (repeat 0 64) [].
Definition host_state : ips udp_log := net_state net_host 36 100 5000 (mk_reass [] 0 []).
(** Another datagram of the host waits in the reassembly of the firmware. *)
Definition firmware_state : ips udp_log := net_state net_own 1514 200 53 run_state.

Lemma net_state_ok addr mtu q port r : q <> 0 -> q <> 400 -> port <> 0 -> udp_ok (net_state addr mtu q port r).
Proof.
  intros H0 H4 Hp. assert (pcb_get (net_state addr mtu q port r) q = net_pcb port) as E by (unfold pcb_get; change (st_pcb _) with ({[q := net_pcb port]} : gmap Z udp_pcb); by rewrite lookup_singleton_eq).
  constructor; change (udp_pcbs (net_state addr mtu q port r)) with [q]; change (st_pcb_free (net_state addr mtu q port r)) with [400].
  - apply NoDup_cons. split; [|apply NoDup_singleton]. by intros ?%list_elem_of_singleton.
  - cbn [app]. rewrite !elem_of_cons, elem_of_nil. intuition lia.
  - done.
  - intros x ->%list_elem_of_singleton. by rewrite E.
  - intros x Hx _. unfold pcb_get. change (st_pcb _) with ({[q := net_pcb port]} : gmap Z udp_pcb). rewrite lookup_singleton_ne; [done|]. intros ->. apply Hx. by left.
  - by intros x y ->%list_elem_of_singleton ->%list_elem_of_singleton.
Qed.

Definition net_data : list Z := seqZ 0 20.

(** A datagram of 28 bytes goes out in two fragments, which come in in the wrong order. *)
Lemma udp_end_to_end_witness : exists p1 p2 err s', udp_sendto 100 (mk_packet 60 [net_data]) net_own 53 host_state = Some (err, s') /\ st_sent s' = [(p2, net_own); (p1, net_own)] /\
  exists s2, input_all [p2; p1] firmware_state = Some (tt, s2) /\ st_app s2 = [(9, 200, net_data, net_host, 5000)].
Proof.
  destruct (udp_end_to_end host_state firmware_state 100 (mk_packet 60 [net_data]) net_own 53 200 9) as (ps & err & s' & E & Hs & H).
  - constructor; try (by vm_compute); try (vm_compute; split; done); [by left|]. apply Forall_forall. intros x Hx. unfold net_data, pk_bytes in Hx. cbn [pk_bufs concat] in Hx. rewrite app_nil_r in Hx. apply elem_of_seqZ in Hx. unfold is_u8. lia.
  - by vm_compute.
  - by apply net_state_ok.
  - constructor; try (by vm_compute); by left.
  - by vm_compute.
  - by vm_compute.
  - by vm_compute.
  - done.
  - done.
  - by vm_compute.
  - intros x ->%list_elem_of_singleton. by vm_compute.
  - assert (exists p1 p2, ps = [p1; p2]) as (p1 & p2 & ->).
    { assert ((fun x => length (st_sent (snd x))) <$> udp_sendto 100 (mk_packet 60 [net_data]) net_own 53 host_state = Some 2%nat) as El by (by vm_compute).
      rewrite E in El. cbn [fmap option_fmap option_map snd] in El. injection El as El. rewrite Hs, length_app, length_reverse, length_fmap in El. change (length (st_sent host_state)) with 0%nat in El.
      destruct ps as [|p1 [|p2 [|]]]; cbn in El; try lia. by exists p1, p2. }
    exists p1, p2, err, s'. split; [exact E|]. split; [rewrite Hs; done|].
    destruct (H [p2; p1]) as (bufs & l & Hb & _ & Er); [apply Permutation_swap|by vm_compute|].
    rewrite Er. eexists. split; [reflexivity|]. unfold setf. cbn. by rewrite Hb.
Defined.

(** Asked for no port, it is 0xc001 here. *)
Lemma udp_bind_binds_witness : exists s', udp_bind 200 None 0 firmware_state = Some (ERR_OK, s') /\ up_local_port (pcb_get s' 200) = 0xc001.
Proof.
  destruct (udp_bind_binds firmware_state 200 None 0) as (err & s' & E & _ & He & _ & Hb); [by apply net_state_ok|done|by intros ?%list_elem_of_singleton|done|].
  assert (err = ERR_OK) as -> by (apply He; by left). exists s'. split; [exact E|]. destruct (Hb eq_refl) as (p & _ & _ & _ & Hp & _).
  assert ((fun x => up_local_port (pcb_get (snd x) 200)) <$> udp_bind 200 None 0 firmware_state = Some 0xc001) as Ec by (by vm_compute).
  rewrite E in Ec. by injection Ec.
Defined.

(** The initialisation, and two control blocks: one for DNS, and one at any port. *)
Definition fresh_state : ips udp_log := mk_ips 7 (net_if net_own 1514) (mk_reass [] 0 []) [] 0 ∅ [100; 200; 300; 400] [] [] [] (repeat 0 64) [].
Definition two_bound : option (unit * ips udp_log) :=
  sto_bind (udp_init 0x1234) (fun _ => sto_bind (udp_call UNew) (fun _ => sto_bind (udp_call (UBind 100 None 53)) (fun _ => sto_bind (udp_call UNew) (fun _ => udp_call (UBind 200 None 0))))) fresh_state.

Lemma log_keeps cb q bufs addr port : udp_keeps (recv_call (A := udp_log) cb q bufs addr port).
Proof. intros s Hs. apply wlp_mod. by destruct Hs. Qed.

Lemma udp_ports_unique_witness : exists s, two_bound = Some (tt, s) /\ udp_pcbs s = [200; 100] /\ NoDup (udp_pcbs s) /\
  (forall q r, q ∈ udp_pcbs s -> r ∈ udp_pcbs s -> up_local_port (pcb_get s q) = up_local_port (pcb_get s r) -> up_local_ip (pcb_get s q) = IPADDR_ANY -> q = r).
Proof.
  assert (exists s, two_bound = Some (tt, s) /\ udp_reach s) as (s & E & Hr).
  { eexists. split; [by vm_compute|]. eapply (ur_call (UBind 200 None 0)); [eapply (ur_call UNew); [eapply (ur_call (UBind 100 None 53)); [eapply (ur_call UNew); [apply (ur_start 0x1234 fresh_state)| |]| |]| |]| |]; try (by vm_compute).
    all: try (cbn; rewrite !elem_of_cons, elem_of_nil; intuition lia).
    change (NoDup [100; 200; 300; 400]). repeat (apply NoDup_cons; split; [rewrite ?elem_of_cons, elem_of_nil; intuition lia|]). constructor. }
  destruct (udp_ports_unique s log_keeps Hr) as (H1 & _ & H3). exists s. split; [done|]. split; [|split; [done|]].
  - by injection E as <-.
  - intros q r Hq Hr' Ep Ei. apply H3; [done..|]. right. by left.
Defined.

(** A ping of the host. *)
Definition ping_hdr : list Z := ip_hdr_out 0 31 9 64 IP_PROTO_ICMP net_host net_own.
Definition ping_sum : Z := inet_chksum 0 (icmp_hdr ICMP_ECHO 0 0 77 1 ++ [1; 2; 3]).
Lemma ping_reply_witness : exists c' ck', ip4_input [ping_hdr ++ icmp_hdr ICMP_ECHO 0 ping_sum 77 1 ++ [1; 2; 3]] firmware_state =
  Some (ERR_OK, firmware_state <| st_sent := [(ip_hdr 0x45 0 (lwip_htons 31) (lwip_htons 9) 0 255 IP_PROTO_ICMP c' net_own net_host ++ icmp_hdr ICMP_ER 0 ck' 77 1 ++ [1; 2; 3], net_host)] |> <| st_outs := [] |>).
Proof.
  destruct (ping_reply firmware_state 0 (lwip_htons 9) 0 64 (IPH_CHKSUM ping_hdr) net_host net_own 0 ping_sum 77 1 [1; 2; 3] [ping_hdr ++ icmp_hdr ICMP_ECHO 0 ping_sum 77 1 ++ [1; 2; 3]]) as (c' & ck' & _ & _ & _ & _ & E);
    lazymatch goal with
    | |- Forall _ _ => repeat (constructor; [split; [done|reflexivity]|]); constructor
    | |- _ \/ _ => right; vm_compute; discriminate
    | |- _ = _ => vm_compute; reflexivity
    | |- _ < _ => vm_compute; reflexivity
    | |- _ <= _ => vm_compute; discriminate
    | |- exists _, _ => idtac
    | |- _ => split; vm_compute; [discriminate|reflexivity]
    end.
  exists c', ck'. exact E.
Defined.
